(* ===== verification/_CoqProject ===== *)
-Q . S2P
Prelude.v
Errno.v
Lists.v
SimpleFold.v
Unicode.v
Nls.v
Devices.v
Pmm.v
Slab.v
FatTypes.v
FatDisk.v
FatBuffer.v
FatCache.v
FatAlloc.v
FatTable.v
FatChain.v
FatFile.v
FatNames.v
FatOpen.v
FatDir.v
FatLink.v
FatDos.v
FatPath.v
FatVolume.v
FatRead.v
FatMount.v
FatRequest.v
FatWrite.v
FatExample.v
FatNodes.v
FatData.v
FatTheorems.v
FatTruncate.v
KernelFs.v
FsDrives.v
FsPath.v
FsCalls.v
Jft.v
FsFrame.v
FsExample.v
FsPathSpec.v
JftSpec.v
Block.v
Events.v
EventsSpec.v
ByteMem.v
Syscalls.v
Dynalink.v
Elf.v
Coff.v
Pei.v
Exec.v
DynalinkSpec.v
Modules.v
LinkExample.v
PeiSpec.v
LeanTypes.v
LeanBlock.v
LeanAlloc.v
LeanFile.v
LeanDir.v
LeanMkfs.v
LeanCache.v
LeanBitmap.v
LeanRead.v
LeanFind.v
LeanExample.v
IsoTypes.v
IsoVolume.v
IsoFile.v
IsoNames.v
IsoDentry.v
IsoDos.v
IsoPath.v
IsoRequest.v
IsoRead.v
IsoExample.v
FormatIO.v
Format.v
FormatSpec.v
