(* ===== verification/Prelude.v ===== *)
(** * FreeDOS-32: the FAT file system, the file system layer and what they rest on

    This library models parts of the FreeDOS-32 kernel, its drivers and programs, as
    computations that follow the C code function by function, and proves what they
    do. The program is modelled bottom up; under each file name are the sources it
    models. Files without a source hold proofs; the proofs on one file are in a module at
    its end: [PmmSpec] in [Pmm], [SlabSpec] in [Slab], [DevicesSpec] in [Devices],
    [BlockSpec] in [Block], [SyscallsSpec] in [Syscalls], [ModulesSpec] in [Modules],
    [LoadSpec] in [DynalinkSpec], [FatMatch] in [FatDos], [FatWriting] in
    [FatTruncate], [FsRetry] in [JftSpec], [IsoDir] in [IsoRead], [IsoNamesSpec] and
    [IsoMatch] in [IsoNames].

    ** How the code is read

    A C function is a computation of [M S], from a state to an outcome: a result
    with a new state ([Done]), a memory error the program does not survive
    ([Fault]: a null or dangling pointer, an access outside an array, a buffer that
    overflows), or fuel that has run out ([NoFuel]: how a loop without end shows).
    Integers are [Z] with their wrap-around written out ([u8], [u16], [u32], [s32]);
    an object in memory is an entry of a map from addresses; a string is the list of
    its characters before the null. Definitions have the names of the code and can be
    evaluated. A program point between two effects is a bind, an early return is
    [guard_ret], [wp] is total correctness: neither a fault nor a loop without end.

    What is not in the repository, or is hardware, is a type class that the
    definitions are parametric in: [FatWorld] (the block device under a volume, the
    clock, the memory), [KernelWorld] (the request functions of drivers, block
    devices, memory, the console), [PageSource], [KernelMemory]. The laws a theorem
    needs of them are classes as well ([FixedDisk], [FixedDisc], [CountingDriver]), each with an
    instance ([ramdisk], [Toy]) on which the examples run. [KernFuncs] is [struct
    kern_funcs], which the dynamic linker gets its files and memory through; [FileOf]
    is what it relies on of a file, and the boot modules are an instance of both.

    Loops that are not structural take fuel from the class [Fuel]. The theorems that
    use it say how much is enough: the length of a chain for the cluster loops, the
    depth of a node for [fat_dput]; the loops that consume a string or an array need
    none, or as much as its length.

    ** Shared by everything

    - [Prelude]: the state monad with its notation, [wp] and its tactics, record
      update, integers, blocks of bytes, lists.
    - [Errno]: [include/errno.h], [include/fcntl.h].
    - [Lists]: [include/list.h]. Link cells in a heap ([ListH]); the operations
      implement those on the sequence of linked addresses ([list_ops_refine]), which
      is what the other components keep.
    - [Slab], [SlabSpec]: [kernel/slabmem.c]. Objects do not overlap, an object freed
      is the next one given, pages are all given back.
    - [Pmm], [PmmSpec]: [kernel/pmm.c], [boot/mem.c]. A pool is a list of free
      regions: allocation is first fit, freeing merges what touches and aborts the kernel
      on what is free already; the counter of free memory is right unless the region is
      merged only with the chunk after it (and, proved too, wrong when it is).
    - [SimpleFold], [Unicode]: [modules/unicode]. Case folding and the three encodings
      with their round trips, and the defect of the surrogates.
    - [Nls]: [modules/nls/nls.c]. The default code page and the registry of code pages.
    - [Devices], [DevicesSpec]: [devices/devices.c]. The array of devices with its links
      is a registry of names in the order of registration ([devices_refine]), without
      duplicates: the file defines [DEV_NODUP].
    - [Block], [BlockSpec]: [modules/block/block.c]. The list of block devices, in the
      memory of a slab, is a registry of names ([block_refine]). Whether [assert] is
      compiled in is a parameter ([assertions]); [dr-env.h] compiles it out.
    - [Events], [EventsSpec]: [oslib/kl/event.c], [event1.c], [time.c]. The queue of timer
      events and the list of free ones are an agenda ([events_refine]); the interrupt
      handles what is due ([periodic_wake_up_fires], for handlers that post only what is
      not yet due), and loses an event that a handler posts too early.

    ** The FAT driver ([modules/fat])

    - [FatTypes]: [fat.h], [ondisk.h]. The types and the state of a mounted volume
      ([fs]); there is one volume.
    - [FatBuffer]: buffers of [volume.c], device access of [fd32.c]. [FatDisk]: what the
      driver relies on of a device. [FatCache]: the invariant of the buffers; the
      volume they present ([view]) is an abstract disk that [fat_readbuf] reads.
    - [FatAlloc]: [alloc.c]. [FatTable]: the entries of 12, 16 and 32 bits in every copy
      of the table are an abstract table. [FatChain]: following a chain, extending
      it, deleting it, against that table.
    - [FatFile]: [file.c]. [FatRead], [FatWrite], [FatTruncate]: a file is the bytes of the
      clusters of its chain, cut at its size; shortening fails when the new end is in the
      last cluster ([fat_ftruncate_cuts]).
    - [FatNames]: names of [dir.c]. [FatOpen]: [open.c]. [FatNodes]: the tree of cached
      directory nodes and its reference counts. [FatDir], [FatLink]: directories,
      creation, removal and renaming, of [dir.c] and [open.c].
    - [FatDos]: [dos.c]. [FatMatch]: what the wild cards decide. [FatPath]: [pathreso.c].
    - [FatVolume]: mounting, of [volume.c]. [FatMount]: the geometry and the first state.
    - [FatRequest]: the dispatcher of [fd32.c].
    - [FatExample]: a FAT12 volume in memory. [FatData], [FatTheorems], [FatWriting]: the
      properties of the driver, each with a run on that volume.

    ** The file system layer ([filesys])

    - [KernelFs]: the state of the layer and what it calls. A request of [FatRequest] is
      what a driver is called with, its answer a [reply].
    - [FsDrives]: [drives.c]. [FsPath]: [truename.c]. [FsCalls]: [fs.c]. [Jft]: [jft.c], and
      [fd32_sfn_truename] of [truename.c].
    - [FsFrame]: what a call leaves alone. [FsPathSpec]: [fd32_truename] is a stack of
      components; [fd32_chdir] keeps the current directories canonical. [JftSpec]: the
      handles of a process against the references a driver counts, as long as no close
      fails after the driver has given the reference up ([close_error_dangling] shows what
      happens then); [fd32_dup].
      [FsRetry]: a call on a volume that is gone. [FsExample]: a kernel to run.

    ** The dynamic linker ([dynalink]) and the boot modules

    - [ByteMem]: a memory of bytes by address, with its laws; the images that the linker
      builds and relocates are in it.
    - [Syscalls], [SyscallsSpec]: [kernel/syscalls.c], [kernel/params.c]. The two tables of
      calls are a map from names to addresses ([syscalls_refine]).
    - [Dynalink]: [include/format.h], [dynalink/common.c]. [Elf], [Coff], [Pei]: the three
      formats. A table of the file, which C passes as an array, is a field of the state
      [linker]; uninitialised contents are the [stale] fields of [KernFuncs].
    - [Exec]: [fd32_load_executable] of [kernel/exec.c], and the table of binary formats.
    - [DynalinkSpec]: relocating a section stores [S + A], [S - P - 4] or, for COFF, [A] plus
      the base of the image. [LoadSpec]: the
      image of a relocatable file, for any file ([FileOf]). [PeiSpec]: base relocations.
    - [Modules], [ModulesSpec]: [boot/modules.c], [boot/modfs.c]. A boot module is a file
      ([modfs_is_file]).
    - [LinkExample]: a relocatable ELF file as a boot module, loaded as a whole.

    ** The LEAN file system ([src/leanfs])

    - [LeanTypes]: [leanfs.h], and the C library under the driver ([LeanWorld]), which it is
      compiled for ([LEANFS_CONFIG_TEST]). One volume is mounted; the inodes and files that
      are open are lists ([lean]).
    - [LeanBlock]: [blockio.c], [mount.c]. [LeanCache]: over a file that does not fail
      ([SolidFile]) the buffers present the clusters of the volume as an array ([view]).
    - [LeanAlloc]: [alloc.c]; the pointer that [leanfs_get_file_cluster] leaves unset is an
      unknown of the interface ([lw_pointer]). [LeanBitmap]: the bitmap is a set of used
      clusters ([bitmap_refine]).
    - [LeanFile]: [file.c]. [LeanRead]: reading and seeking are those of the bytes of the
      clusters of the file ([leanfs_read_refine]); a file with indirect clusters needs that
      pointer to be harmless, and [leanfs_get_file_cluster_wild] is what happens if it is
      not. The fuel of a transfer is the clusters
      it can touch ([transfer_fuel]), that of the chain of indirect clusters the count of
      clusters left.
    - [LeanDir]: [dir.c], [open.c]. [LeanFind]: a directory is the list of its entries
      ([leanfs_find_lookup]), proved on [leanfs_read_refine]'s lemmas.
    - [LeanMkfs]: [mkfs.c]. [LeanExample]: a volume made and mounted in memory, a file with
      two indirect clusters, a directory, and two of the defects.

    ** The ISO 9660 driver ([modules/iso9660])

    - [IsoTypes]: [iso9660.h], [ondisk.h]. One volume is mounted, or none ([iso]); the
      device and the kernel memory are those of the FAT driver ([FatWorld]).
    - [IsoVolume]: [volume.c] and the accesses to the device of [fd32.c]. [IsoRead]: on a disc
      that is not removed ([FixedDisc]) the buffer holds the block asked for, and a read
      returns the bytes of the extent ([iso9660_read_correct]); with blocks smaller than a
      sector it leaves the buffer ([iso9660_readbuf_small_blocks]).
    - [IsoFile]: [file.c] and the references of nodes. [IsoDentry]: [dentry.c]. [IsoDir]: a
      directory is the sequence of the records in its bytes; [iso9660_findfile_correct] and
      [iso9660_lookup_search] find the first that matches. As fuel, the length of the
      directory is enough.
    - [IsoNames], [IsoDos]: [dos.c]. [IsoNamesSpec]: identifiers through the FCB format
      ([iso9660_fcb_roundtrip]). [IsoMatch]: what a pattern denotes, without the code
      ([denotes]), and that the matching decides it for the usual patterns.
    - [IsoPath]: [pathreso.c]. [IsoRequest]: the dispatcher of [fd32.c].
    - [IsoExample]: a disc in memory; the defects of the driver on it ([IsoFaults]).

    ** The format program ([apps/format-32])

    - [FormatIO]: [btstrct.h], [format.h], [driveio.c]. The registers of DOS and of the BIOS
      are an interface ([DosWorld]); [Exit] is the value [Exited] of a computation. Fuel is
      needed where disk changes are not counted ([FloppyFuel]); [Drive_IO] makes five
      attempts at the most.
    - [Format]: [createfs.c], the table of media of [floppy.h] with its search in [floppy.c],
      [Get_Device_Parameters] of [hdisk.c]. The fuel of a loop over sectors is their number.
    - [FormatSpec]: on a good disk ([DosDisk]) every sector written is what it is to be, time
      stamps included ([Create_File_System_layout], for parameters [bpb_ok]), and
      [FatVolume]'s [fat_mount] accepts the result, empty ([Create_File_System_mounts], for
      parameters that are also [mountable], which the program does not check): the two
      programs meet at the boot sector and the tables.
      Every medium of the table qualifies ([floppy_media_mountable]); the root directory of
      FAT32 is a chain ([fat32_root_chain]); the parameters of a hard disk are of one type
      ([Get_Device_Parameters_type]). What fails: [find_media_unknown],
      [Write_FAT_Tables_one_sector], [Get_FS_Info_small_sectors].

    ** Kinds of theorems

    Functional behaviour on every branch: reading, writing, truncating, allocating,
    mounting, seeking, [fd32_dup]. Refinement of an abstract state: the disk of the
    buffers, the lists, the devices, the table of calls, the modules as files, the LEAN
    bitmap and files. Equivalence with a reference: canonical names,
    wild cards. Invariants kept by any sequence of calls: handles and references,
    current directories, the tree of nodes. Termination: [fat_dput], and every total
    correctness statement. Round trips: writing and reading, encodings, directory
    entries, slabs. Errors: what the code does where it does not do what it means to;
    these are listed as findings of the manifest and proved where that can be.

    ** Not modelled

    The heap (third-party), processes, DOS and DPMI emulation, the
    drivers of block devices and of input, which are port and interrupt code over the
    interfaces taken as parameters here; the old FAT driver, which the one modelled
    replaces; applications but the format program (of which the dialogue, the set-up of floppy
    drives, bad sectors and saved file systems are left out), graphics, tests. Of the modelled parts: the assertions of the
    FAT driver (compiled out), log messages, the registration of modules, [fat_fstat], several volumes mounted
    at once, interrupts between the steps of an operation. *)
From stdpp Require Export base gmap list numbers strings.
From Stdlib Require Export ZArith Lia.
Open Scope Z_scope.

(** * Record update

    [r <| f := v |>] is the C assignment [r.f = v]. A record becomes
    updatable by giving its eta expansion as an instance of [Eta]. *)

Class Eta (R : Type) := eta : R → R.
Class Setter {R F : Type} (proj : R → F) := upd : (F → F) → R → R.
Arguments upd {R F} proj {_} _ _ /.

#[export] Hint Extern 1 (@Setter ?R ?F ?proj) =>
  unfold Setter;
  let f := fresh "f" in let r := fresh "r" in
  intros f r;
  let e := constr:(_ : Eta R) in
  let e' := eval hnf in e in
  let t := eval cbv beta in (e' r) in
  match eval pattern (proj r) in t with
  | ?g _ => let u := eval cbv beta in (g (f (proj r))) in exact u
  end : typeclass_instances.

Declare Scope record_scope.
Delimit Scope record_scope with record.
Open Scope record_scope.
Notation "r <| proj := v |>" := (upd proj (λ _, v) r)
  (at level 1, proj at level 9, left associativity) : record_scope.
Notation "r <| proj ::= f |>" := (upd proj f r)
  (at level 1, proj at level 9, left associativity) : record_scope.

(** * Stateful computations

    A C function becomes a computation in [M S]: it returns normally with a
    value and a new state, or commits an error the C program does not survive
    (a wild pointer, an access outside an array, a freed object: [Fault]), or
    is cut short because the fuel of a loop is exhausted ([NoFuel], how a loop
    that runs forever shows up). *)

Inductive outcome (S A : Type) :=
| Done (a : A) (s : S)
| Fault
| NoFuel.
Arguments Done {S A} a s.
Arguments Fault {S A}.
Arguments NoFuel {S A}.

Definition M (S A : Type) := S → outcome S A.

#[export] Instance M_ret (S : Type) : MRet (M S) := λ A a s, Done a s.
#[export] Instance M_bind (S : Type) : MBind (M S) := λ A B f m s,
  match m s with
  | Done a s' => f a s'
  | Fault => Fault
  | NoFuel => NoFuel
  end.

Section state_monad.
Context {S : Type}.

Definition fault {A} : M S A := λ _, Fault.
Definition nofuel {A} : M S A := λ _, NoFuel.
Definition gets {A} (f : S → A) : M S A := λ s, Done (f s) s.
Definition modify (f : S → S) : M S () := λ s, Done tt (f s).

(** The value of an option that must be there: the dereference of a pointer. *)
Definition deref {A} (o : option A) : M S A :=
  match o with Some a => mret a | None => fault end.

(** [if (b) return r; ...] *)
Definition guard_ret {A} (b : bool) (r : A) (k : M S A) : M S A :=
  if b then mret r else k.

(** ** Weakest preconditions (total: neither a fault nor divergence) *)

Definition wp {A} (m : M S A) (Q : A → S → Prop) (s : S) : Prop :=
  match m s with Done a s' => Q a s' | _ => False end.

Lemma wp_mono {A} (m : M S A) (P Q : A → S → Prop) s :
  (∀ a s', P a s' → Q a s') → wp m P s → wp m Q s.
Proof. unfold wp. destruct (m s); naive_solver. Qed.

Lemma wp_ret {A} (a : A) (Q : A → S → Prop) s : Q a s → wp (mret a) Q s.
Proof. done. Qed.

Lemma wp_bind {A B} (m : M S A) (f : A → M S B) (Q : B → S → Prop) s :
  wp m (λ a s', wp (f a) Q s') s → wp (m ≫= f) Q s.
Proof. unfold wp, mbind, M_bind. by destruct (m s). Qed.

Lemma wp_gets {A} (f : S → A) (Q : A → S → Prop) s : Q (f s) s → wp (gets f) Q s.
Proof. done. Qed.

Lemma wp_modify (f : S → S) (Q : () → S → Prop) s : Q tt (f s) → wp (modify f) Q s.
Proof. done. Qed.

Lemma wp_deref {A} (o : option A) a (Q : A → S → Prop) s :
  o = Some a → Q a s → wp (deref o) Q s.
Proof. by intros ->. Qed.

Lemma wp_done {A} (m : M S A) Q s :
  wp m Q s → ∃ a s', m s = Done a s' ∧ Q a s'.
Proof. unfold wp. destruct (m s); naive_solver. Qed.

Lemma wp_of_done {A} (m : M S A) (Q : A → S → Prop) s a s' :
  m s = Done a s' → Q a s' → wp m Q s.
Proof. unfold wp. by intros ->. Qed.

Lemma bind_done {A B} (m : M S A) (f : A → M S B) s b s'' :
  (m ≫= f) s = Done b s'' → ∃ a s', m s = Done a s' ∧ f a s' = Done b s''.
Proof. unfold mbind, M_bind. destruct (m s); naive_solver. Qed.

Lemma bind_eq {A B} (m : M S A) (f : A → M S B) s a s' :
  m s = Done a s' → (m ≫= f) s = f a s'.
Proof. unfold mbind, M_bind. by intros ->. Qed.

Lemma bind_assoc_eq {A B C} (m : M S A) (k : A → M S B) (h : B → M S C) s :
  (m ≫= (λ x, k x ≫= h)) s = ((m ≫= k) ≫= h) s.
Proof. unfold mbind, M_bind. by destruct (m s). Qed.

Lemma bind_fault {A B} (m : M S A) (f : A → M S B) s : m s = Fault → (m ≫= f) s = Fault.
Proof. unfold mbind, M_bind. by intros ->. Qed.
End state_monad.

Create HintDb fat discriminated.

(** [r ←? m ; k]: [if ((r = m) < 0) return r; k]. *)
Notation "x ←? m ; k" := (mbind (λ x, if Z.ltb x 0 then mret x else k) m)
  (at level 20, m at level 100, k at level 200, right associativity) : stdpp_scope.

Lemma wp_check {S} (m : M S Z) (k : Z → M S Z) (Q : Z → S → Prop) s :
  wp m (λ r s', (r < 0 → Q r s') ∧ (0 ≤ r → wp (k r) Q s')) s →
  wp (r ←? m; k r) Q s.
Proof.
  intros H. apply wp_bind. eapply wp_mono; [|exact H]. simpl.
  intros r s' [Hn Hp]. destruct (Z.ltb_spec r 0); [by apply Hn|by apply Hp].
Qed.

(** Symbolic execution of a computation, one primitive at a time. *)
Ltac wp_step :=
  lazymatch goal with
  | |- wp (mret _) _ _ => apply wp_ret
  | |- wp (gets _) _ _ => apply wp_gets
  | |- wp (modify _) _ _ => apply wp_modify
  | |- wp (deref _) _ _ => eapply wp_deref; [first [eassumption | reflexivity]|]
  | |- wp (mbind _ _) _ _ => apply wp_bind
  end.
Ltac wp_steps := repeat (wp_step; cbv beta; simpl).

(** * Machine integers

    Unsigned arithmetic wraps at its width; [s32] is the conversion of a bit
    pattern to [int]. *)

Definition u8 (z : Z) : Z := z mod 2 ^ 8.
Definition u16 (z : Z) : Z := z mod 2 ^ 16.
Definition u32 (z : Z) : Z := z mod 2 ^ 32.
Definition s32 (z : Z) : Z := (z + 2 ^ 31) mod 2 ^ 32 - 2 ^ 31.

(** C's truth value of an integer, and an integer from a condition. *)
Definition nz (z : Z) : bool := negb (z =? 0).

(** [a & b] used as a condition. *)
Definition has (a b : Z) : bool := nz (Z.land a b).

Lemma u8_small z : 0 ≤ z < 256 → u8 z = z.
Proof. intros. by apply Z.mod_small. Qed.
Lemma u16_small z : 0 ≤ z < 65536 → u16 z = z.
Proof. intros. by apply Z.mod_small. Qed.
Lemma u32_small z : 0 ≤ z < 4294967296 → u32 z = z.
Proof. intros. by apply Z.mod_small. Qed.
Lemma s32_small z : -2147483648 ≤ z < 2147483648 → s32 z = z.
Proof. intros. unfold s32. rewrite Z.mod_small by lia. lia. Qed.
Lemma u8_range z : 0 ≤ u8 z < 256.
Proof. by apply Z.mod_pos_bound. Qed.
Lemma u16_range z : 0 ≤ u16 z < 65536.
Proof. by apply Z.mod_pos_bound. Qed.
Lemma u32_range z : 0 ≤ u32 z < 4294967296.
Proof. by apply Z.mod_pos_bound. Qed.
#[export] Hint Rewrite u8_small u16_small u32_small s32_small using lia : fat.
#[export] Hint Resolve u8_range u16_range u32_range : fat.

(** Masking with [2^k - 1] is the remainder, shifting is dividing. *)
Lemma land_pow2_mod a k : 0 ≤ k → Z.land a (2 ^ k - 1) = a mod 2 ^ k.
Proof. intros. rewrite <- Z.land_ones by done. by rewrite Z.ones_equiv, Z.sub_1_r. Qed.

Lemma shiftr_div a k : 0 ≤ k → Z.shiftr a k = a / 2 ^ k.
Proof. apply Z.shiftr_div_pow2. Qed.

Lemma shiftl_mul a k : 0 ≤ k → Z.shiftl a k = a * 2 ^ k.
Proof. apply Z.shiftl_mul_pow2. Qed.

(** * Bytes in memory

    A block of memory is the list of its bytes; multi-byte integers are
    little-endian, as on the i386. *)

Definition is_byte (b : Z) : Prop := 0 ≤ b < 256.
Notation bytes := (list Z).

Definition byte_at (l : bytes) (i : Z) : Z := default 0 (l !! Z.to_nat i).
Definition le16_at (l : bytes) (i : Z) : Z := byte_at l i + Z.shiftl (byte_at l (i + 1)) 8.
Definition le32_at (l : bytes) (i : Z) : Z := le16_at l i + Z.shiftl (le16_at l (i + 2)) 16.

Definition le16 (v : Z) : bytes := [u8 v; u8 (Z.shiftr v 8)].
Definition le32 (v : Z) : bytes :=
  [u8 v; u8 (Z.shiftr v 8); u8 (Z.shiftr v 16); u8 (Z.shiftr v 24)].

(** [memcpy(&l[i], bs, length bs)] and the [n] bytes at [&l[i]]. *)
Definition poke (l : bytes) (i : Z) (bs : bytes) : bytes :=
  take (Z.to_nat i) l ++ bs ++ drop (Z.to_nat i + length bs) l.
Definition slice {A} (l : list A) (i n : Z) : list A :=
  take (Z.to_nat n) (drop (Z.to_nat i) l).
Definition in_block (l : bytes) (i n : Z) : bool := (0 <=? i) && (0 <=? n) && (i + n <=? Z.of_nat (length l)).
Definition zeroes (n : Z) : bytes := replicate (Z.to_nat n) 0.

(** * Lists *)

Lemma filter_all {A} (P : A → Prop) `{∀ x, Decision (P x)} (l : list A) :
  (∀ x, x ∈ l → P x) → filter P l = l.
Proof.
  induction l as [|x l IH]; intros Hl; [done|].
  rewrite filter_cons_True by (apply Hl; set_solver).
  f_equal. apply IH. set_solver.
Qed.

Lemma list_snoc_case {A} (l : list A) : l = [] ∨ ∃ l' x, l = l' ++ [x].
Proof. destruct l using rev_ind; [by left|right; eauto]. Qed.

(** A decidable fact about the integers below a small bound, by computation. *)
Lemma bounded_forall (P : Z → bool) n :
  forallb P (seqZ 0 n) = true → ∀ x, 0 ≤ x < n → P x = true.
Proof.
  rewrite forallb_forall. intros H x Hx.
  apply H, list_elem_of_In, elem_of_seqZ. lia.
Qed.

(** [lor] of a multiple of [2^k] and a number below [2^k] is the sum. *)
Lemma lor_shiftl_add a b k :
  0 ≤ k → 0 ≤ b < 2 ^ k → Z.lor (Z.shiftl a k) b = a * 2 ^ k + b.
Proof.
  intros Hk Hb. rewrite <- Z.add_nocarry_lor; [by rewrite shiftl_mul|].
  apply Z.bits_inj'. intros n Hn. rewrite Z.land_spec, Z.bits_0.
  destruct (decide (n < k)).
  - by rewrite Z.shiftl_spec_low.
  - rewrite <- (Z.mod_small b (2 ^ k)) by done.
    by rewrite Z.mod_pow2_bits_high, andb_false_r by lia.
Qed.

(** * Windows of a block of memory *)

Lemma length_slice {A} (l : list A) i n :
  0 ≤ i → 0 ≤ n → i + n ≤ Z.of_nat (length l) → Z.of_nat (length (slice l i n)) = n.
Proof. intros. unfold slice. rewrite length_take, length_drop. lia. Qed.

Lemma length_poke l i bs :
  0 ≤ i → i + Z.of_nat (length bs) ≤ Z.of_nat (length l) → length (poke l i bs) = length l.
Proof. intros. unfold poke. rewrite !length_app, length_take, length_drop. lia. Qed.

Lemma slice_slice {A} (l : list A) a n o k :
  0 ≤ a → 0 ≤ o → 0 ≤ k → o + k ≤ n → slice (slice l a n) o k = slice l (a + o) k.
Proof.
  intros. unfold slice. rewrite skipn_firstn_comm, take_take, drop_drop.
  f_equal; [lia|]. f_equal. lia.
Qed.

Lemma slice_poke_eq l i bs :
  0 ≤ i → i + Z.of_nat (length bs) ≤ Z.of_nat (length l) →
  slice (poke l i bs) i (Z.of_nat (length bs)) = bs.
Proof.
  intros. unfold slice, poke. rewrite drop_app_ge by (rewrite length_take; lia).
  rewrite length_take, Nat.min_l by lia. rewrite Nat.sub_diag, drop_0, Nat2Z.id.
  by rewrite take_app_length.
Qed.

Lemma slice_full {A} (l : list A) n : n = Z.of_nat (length l) → slice l 0 n = l.
Proof. intros ->. unfold slice. simpl. rewrite drop_0, Nat2Z.id. apply firstn_all. Qed.

Lemma lookup_slice {A} (l : list A) i n j :
  0 ≤ i → slice l i n !! j = if decide (Z.of_nat j < n) then l !! (Z.to_nat i + j)%nat else None.
Proof.
  intros. unfold slice. case_decide.
  - rewrite lookup_take_lt by lia. apply lookup_drop.
  - apply lookup_ge_None_2. rewrite length_take. lia.
Qed.

Lemma lookup_poke l i bs j :
  0 ≤ i → i + Z.of_nat (length bs) ≤ Z.of_nat (length l) →
  poke l i bs !! j = if decide (i ≤ Z.of_nat j < i + Z.of_nat (length bs))
                     then bs !! (j - Z.to_nat i)%nat else l !! j.
Proof.
  intros. unfold poke. case_decide.
  - rewrite lookup_app_r by (rewrite length_take; lia).
    rewrite length_take, Nat.min_l by lia. rewrite lookup_app_l by lia. done.
  - destruct (decide (Z.of_nat j < i)).
    + rewrite lookup_app_l by (rewrite length_take; lia). apply lookup_take_lt; lia.
    + rewrite lookup_app_r by (rewrite length_take; lia).
      rewrite length_take, Nat.min_l by lia. rewrite lookup_app_r by lia.
      rewrite lookup_drop. f_equal. lia.
Qed.

(** A store inside a window, and one outside of it. *)
Lemma slice_poke_inside l a n o bs :
  0 ≤ a → 0 ≤ o → o + Z.of_nat (length bs) ≤ n → a + n ≤ Z.of_nat (length l) →
  slice (poke l (a + o) bs) a n = poke (slice l a n) o bs.
Proof.
  intros. apply list_eq. intros j.
  assert (Z.of_nat (length (slice l a n)) = n) by (apply length_slice; lia).
  rewrite lookup_slice, lookup_poke by lia. rewrite lookup_poke by lia. rewrite lookup_slice by lia.
  repeat case_decide; try lia; try done.
  f_equal. lia.
Qed.

Lemma slice_poke_outside l a n o bs :
  0 ≤ a → 0 ≤ n → 0 ≤ o → o + Z.of_nat (length bs) ≤ Z.of_nat (length l) →
  a + n ≤ o ∨ o + Z.of_nat (length bs) ≤ a →
  slice (poke l o bs) a n = slice l a n.
Proof.
  intros. apply list_eq. intros j. rewrite !lookup_slice, lookup_poke by lia.
  repeat case_decide; try lia; done.
Qed.

(** A window of what has just been stored. *)
Lemma slice_poke_within l i bs a n :
  0 ≤ i → 0 ≤ a → i + Z.of_nat (length bs) ≤ Z.of_nat (length l) → a + n ≤ Z.of_nat (length bs) →
  slice (poke l i bs) (i + a) n = slice bs a n.
Proof.
  intros. apply list_eq. intros j. rewrite !lookup_slice by lia.
  case_decide; [|done]. rewrite lookup_poke by lia. rewrite decide_True by lia. f_equal. lia.
Qed.

Lemma in_block_true l i n :
  0 ≤ i → 0 ≤ n → i + n ≤ Z.of_nat (length l) → in_block l i n = true.
Proof. intros. unfold in_block. rewrite !andb_true_iff, !Z.leb_le. lia. Qed.

Lemma land_align n k : 0 ≤ k < 32 → 0 ≤ n < 2 ^ 32 →
  Z.land n (u32 (Z.lnot (2 ^ k - 1))) = n - n mod 2 ^ k.
Proof.
  intros Hk Hn. transitivity (Z.land n (Z.lnot (2 ^ k - 1))).
  - apply Z.bits_inj'. intros i Hi. rewrite !Z.land_spec.
    destruct (decide (i < 32)).
    + unfold u32. rewrite Z.mod_pow2_bits_low by lia. done.
    + rewrite <- (Z.mod_small n (2 ^ 32)) by done. by rewrite Z.mod_pow2_bits_high by lia.
  - rewrite Z.sub_1_r, <- Z.ones_equiv, <- Z.ldiff_land, Z.ldiff_ones_r by lia.
    rewrite Z.shiftl_mul_pow2, Z.shiftr_div_pow2 by lia.
    pose proof (Z.div_mod n (2 ^ k)). lia.
Qed.

(** * Bytes and little-endian words *)

#[local] Ltac Zify.zify_post_hook ::= Z.div_mod_to_equations.

Lemma byte_at_slice l a n i : 0 ≤ a → 0 ≤ i < n → byte_at (slice l a n) i = byte_at l (a + i).
Proof.
  intros Ha Hi. unfold byte_at. rewrite lookup_slice by done. rewrite decide_True by lia.
  do 2 f_equal. lia.
Qed.
Lemma byte_at_poke l o bs i :
  0 ≤ o → o + Z.of_nat (length bs) ≤ Z.of_nat (length l) → 0 ≤ i →
  byte_at (poke l o bs) i =
    if (o <=? i) && (i <? o + Z.of_nat (length bs)) then byte_at bs (i - o) else byte_at l i.
Proof.
  intros Ho Hl Hi. unfold byte_at. rewrite lookup_poke by done.
  destruct (Z.leb_spec o i), (Z.ltb_spec i (o + Z.of_nat (length bs))); simpl;
    case_decide; try lia; try done. do 2 f_equal. lia.
Qed.
Lemma byte_at_byte l i : Forall is_byte l → is_byte (byte_at l i).
Proof.
  intros Hl. unfold byte_at. destruct (l !! _) eqn:E; simpl; [|done]. by eapply Forall_lookup in Hl.
Qed.
Lemma u8_byte z : is_byte (u8 z).
Proof. apply u8_range. Qed.
Lemma le16_bytes v : Forall is_byte (le16 v).
Proof. repeat constructor; apply u8_byte. Qed.
Lemma le32_bytes v : Forall is_byte (le32 v).
Proof. repeat constructor; apply u8_byte. Qed.
Lemma le16_at_eq l i : le16_at l i = byte_at l i + 256 * byte_at l (i + 1).
Proof. unfold le16_at. rewrite Z.shiftl_mul_pow2 by done. lia. Qed.
Lemma le32_at_eq l i :
  le32_at l i = byte_at l i + 256 * byte_at l (i + 1)
                + 65536 * (byte_at l (i + 2) + 256 * byte_at l (i + 3)).
Proof.
  unfold le32_at. rewrite !le16_at_eq, Z.shiftl_mul_pow2 by done.
  replace (i + 2 + 1) with (i + 3) by lia. lia.
Qed.
Lemma le16_value v : 0 ≤ v < 65536 → byte_at (le16 v) 0 + 256 * byte_at (le16 v) 1 = v.
Proof.
  intros Hv. unfold le16, byte_at. simpl. rewrite shiftr_div by done.
  unfold u8. rewrite (Z.mod_small (v / 2 ^ 8)); lia.
Qed.
Lemma le32_value v : 0 ≤ v < 4294967296 →
  byte_at (le32 v) 0 + 256 * byte_at (le32 v) 1
  + 65536 * (byte_at (le32 v) 2 + 256 * byte_at (le32 v) 3) = v.
Proof.
  intros Hv. unfold le32, byte_at. simpl. rewrite !shiftr_div by done. unfold u8. lia.
Qed.
Lemma le16_range s i : (∀ i, 0 ≤ byte_at s i < 256) → 0 ≤ le16_at s i < 65536.
Proof. intros H. rewrite le16_at_eq. pose proof (H i). pose proof (H (i + 1)). lia. Qed.
Lemma le32_range s i : (∀ i, 0 ≤ byte_at s i < 256) → 0 ≤ le32_at s i < 2 ^ 32.
Proof.
  intros H. rewrite le32_at_eq. pose proof (H i). pose proof (H (i + 1)). pose proof (H (i + 2)).
  pose proof (H (i + 3)). lia.
Qed.
Lemma le32_at_le32 v : le32_at (le32 v) 0 = u32 v.
Proof.
  unfold le32_at, le16_at, byte_at, le32. cbn. unfold u8, u32.
  rewrite !Z.shiftl_mul_pow2, !Z.shiftr_div_pow2 by lia.
  change (2 ^ 8) with 256. change (2 ^ 16) with 65536. change (2 ^ 24) with 16777216. change (2 ^ 32) with 4294967296.
  change 4294967296 with (256 * (256 * (256 * 256))). rewrite !Z.rem_mul_r by lia. rewrite !Z.div_div by lia.
  change (Z.to_nat (0 + 1)) with 1%nat. change (Z.to_nat (0 + 2)) with 2%nat. change (Z.to_nat (0 + 2 + 1)) with 3%nat.
  cbn [lookup list_lookup from_option id Z.to_nat]. change (256 * 256 * 256) with 16777216.
  change (256 * 256) with 65536. change (Z.to_nat 0) with 0%nat. cbn [lookup list_lookup from_option id]. lia.
Qed.
Lemma le16_at_le16 v : 0 ≤ v < 65536 → le16_at (le16 v) 0 = v.
Proof.
  intros Hv. unfold le16_at, le16, byte_at. change (Z.to_nat 0) with 0%nat. change (Z.to_nat (0 + 1)) with 1%nat.
  cbn [lookup list_lookup from_option id]. unfold u8. rewrite Z.shiftl_mul_pow2, Z.shiftr_div_pow2 by lia.
  change (2 ^ 8) with 256. Z.div_mod_to_equations. lia.
Qed.

(** A word after a store: of that word, and of bytes apart from it. *)
Lemma le32_at_poke_same l i v : 0 ≤ i → i + 4 ≤ Z.of_nat (length l) → le32_at (poke l i (le32 v)) i = u32 v.
Proof.
  intros Hi Hl. rewrite le32_at_eq, !byte_at_poke by (cbn; lia). change (Z.of_nat (length (le32 v))) with 4.
  rewrite !(proj2 (Z.leb_le _ _)), !(proj2 (Z.ltb_lt _ _)) by lia. cbn [andb].
  replace (i - i) with 0 by lia. replace (i + 1 - i) with 1 by lia. replace (i + 2 - i) with 2 by lia.
  replace (i + 3 - i) with 3 by lia. rewrite <- le32_at_le32, le32_at_eq. done.
Qed.
Lemma byte_at_poke_apart l i bs j : 0 ≤ i → i + Z.of_nat (length bs) ≤ Z.of_nat (length l) → 0 ≤ j →
  j < i ∨ i + Z.of_nat (length bs) ≤ j → byte_at (poke l i bs) j = byte_at l j.
Proof.
  intros Hi Hl Hj Ha. rewrite byte_at_poke by lia.
  destruct (Z.leb_spec i j), (Z.ltb_spec j (i + Z.of_nat (length bs))); cbn; (done || lia).
Qed.
Lemma le32_at_poke_apart l i bs j : 0 ≤ i → i + Z.of_nat (length bs) ≤ Z.of_nat (length l) → 0 ≤ j →
  j + 4 ≤ i ∨ i + Z.of_nat (length bs) ≤ j → le32_at (poke l i bs) j = le32_at l j.
Proof. intros Hi Hl Hj Ha. rewrite !le32_at_eq, !byte_at_poke_apart by lia. done. Qed.
Lemma le32_at_range l i : Forall is_byte l → 0 ≤ le32_at l i < 2 ^ 32.
Proof. intros Hl. apply le32_range. intros j. by apply byte_at_byte. Qed.
Lemma poke_bytes l i bs : Forall is_byte l → Forall is_byte bs → Forall is_byte (poke l i bs).
Proof. intros Hl Hb. unfold poke. apply Forall_app_2, Forall_app_2; [by apply Forall_take|done|by apply Forall_drop]. Qed.
