(* ===== verification/Errno.v ===== *)
(** Error codes ([src/fd32/include/errno.h]) and the [open] flags
    ([src/fd32/include/fcntl.h]). A C function reports an error by returning
    the negative of a code. *)
From S2P Require Import Prelude.

Definition EPERM : Z := 1.
Definition ENOENT : Z := 2.
Definition EIO : Z := 5.
Definition ENXIO : Z := 6.
Definition EBADF : Z := 9.
Definition ENOMEM : Z := 12.
Definition EACCES : Z := 13.
Definition EFAULT : Z := 14.
Definition EBUSY : Z := 16.
Definition EEXIST : Z := 17.
Definition ENODEV : Z := 19.
Definition ENOTDIR : Z := 20.
Definition EISDIR : Z := 21.
Definition EINVAL : Z := 22.
Definition EMFILE : Z := 24.
Definition EFBIG : Z := 27.
Definition ENOSPC : Z := 28.
Definition EROFS : Z := 30.
Definition EFTYPE : Z := 79.
Definition ENMFILE : Z := 89.
Definition ENOTEMPTY : Z := 90.
Definition ENAMETOOLONG : Z := 91.
Definition ENOTSUP : Z := 134.
Definition EILSEQ : Z := 138.
Definition ENOTMOUNT : Z := 200.

Definition O_ACCMODE : Z := 3.
Definition O_RDONLY : Z := 0.
Definition O_WRONLY : Z := 1.
Definition O_RDWR : Z := 2.
Definition O_NOATIME : Z := Z.shiftl 1 2.
Definition O_SYNC : Z := Z.shiftl 1 14.
Definition O_FSYNC : Z := O_SYNC.
Definition O_DIRECTORY : Z := Z.shiftl 1 16.
Definition O_CREAT : Z := Z.shiftl 1 18.
Definition O_EXCL : Z := Z.shiftl 1 19.
Definition O_TRUNC : Z := Z.shiftl 1 20.
Definition O_APPEND : Z := Z.shiftl 1 21.
