(* ===== verification/Lists.v ===== *)
(** Doubly linked lists ([src/fd32/include/list.h]): the list operations on a
    heap of link cells, and the proof that they implement operations on the
    sequence of the addresses that are linked. The other components keep such
    a sequence ([push_front], [push_back], [erase]) where the code keeps a
    [List]. *)
From S2P Require Import Prelude.

(** * The code *)

Module ListH.

(** Addresses are integers, the null pointer is 0. *)
Record ListItem := mkListItem { prev : Z; next : Z }.
#[export] Instance ListItem_eta : Eta ListItem := λ r, mkListItem (prev r) (next r).

Record List := mkList { begin : Z; end_ : Z; size : Z }.
#[export] Instance List_eta : Eta List := λ r, mkList (begin r) (end_ r) (size r).

(** The link cells in memory and the list object that is operated on. *)
Record heap := mkHeap { cells : gmap Z ListItem; lst : List }.
#[export] Instance heap_eta : Eta heap := λ r, mkHeap (cells r) (lst r).

(** [p->f = v] on a link cell: a fault if [p] is not one. *)
Definition store (p : Z) (f : ListItem → ListItem) : M heap () :=
  c ← gets (λ s, cells s !! p);
  c ← deref c;
  modify (λ s, s <| cells ::= <[p := f c]> |>).
Definition load (p : Z) : M heap ListItem :=
  c ← gets (λ s, cells s !! p); deref c.
Definition set_list (f : List → List) : M heap () :=
  modify (λ s, s <| lst ::= f |>).

Definition list_init : M heap () :=
  set_list (λ _, mkList 0 0 0).

Definition list_push_front (item : Z) : M heap () :=
  l ← gets lst;
  store item (λ c, c <| prev := 0 |>);;
  store item (λ c, c <| next := begin l |>);;
  (if nz (begin l) then store (begin l) (λ c, c <| prev := item |>)
   else set_list (λ l, l <| end_ := item |>));;
  set_list (λ l, l <| begin := item |>);;
  set_list (λ l, l <| size := u32 (size l + 1) |>).

Definition list_push_back (item : Z) : M heap () :=
  l ← gets lst;
  store item (λ c, c <| prev := end_ l |>);;
  store item (λ c, c <| next := 0 |>);;
  (if nz (end_ l) then store (end_ l) (λ c, c <| next := item |>)
   else set_list (λ l, l <| begin := item |>));;
  set_list (λ l, l <| end_ := item |>);;
  set_list (λ l, l <| size := u32 (size l + 1) |>).

Definition list_erase (item : Z) : M heap () :=
  c ← load item;
  (if nz (next c) then store (next c) (λ n, n <| prev := prev c |>)
   else set_list (λ l, l <| end_ := prev c |>));;
  c ← load item;
  (if nz (prev c) then store (prev c) (λ n, n <| next := next c |>)
   else set_list (λ l, l <| begin := next c |>));;
  set_list (λ l, l <| size := u32 (size l - 1) |>).

(** The loops over a list: [for (p = list->begin; p; p = p->next)], here with the
    addresses they come by as their result. *)
Fixpoint traverse_from (n : nat) (p : Z) : M heap (list Z) :=
  if negb (nz p) then mret []
  else match n with
  | O => nofuel
  | S n => c ← load p; l ← traverse_from n (next c); mret (p :: l)
  end.
Definition traverse (n : nat) : M heap (list Z) :=
  l ← gets lst; traverse_from n (begin l).

(** The operations of a program that uses a list. *)
Inductive list_op := Init | PushFront (item : Z) | PushBack (item : Z) | Erase (item : Z).
Definition run_op (o : list_op) : M heap () :=
  match o with
  | Init => list_init
  | PushFront item => list_push_front item
  | PushBack item => list_push_back item
  | Erase item => list_erase item
  end.
Fixpoint run_ops (l : list list_op) : M heap () :=
  match l with
  | [] => mret ()
  | o :: l => run_op o;; run_ops l
  end.
End ListH.
Import ListH.

(** * The specification: operations on the sequence of linked addresses *)

Definition push_front {A} (x : A) (l : list A) : list A := x :: l.
Definition push_back {A} (x : A) (l : list A) : list A := l ++ [x].
Definition erase {A} `{EqDecision A} (x : A) (l : list A) : list A :=
  filter (λ y, y ≠ x) l.

(** Consecutive cells hold the addresses [xs], entered from [p], left to [n]. *)
Fixpoint seg (h : gmap Z ListItem) (p : Z) (xs : list Z) (n : Z) : Prop :=
  match xs with
  | [] => True
  | x :: t => h !! x = Some (mkListItem p (hd n t)) ∧ seg h x t n
  end.

Definition last_or (d : Z) (xs : list Z) : Z := default d (last xs).

Record linked (s : heap) (xs : list Z) : Prop := {
  linked_nodup : NoDup xs;
  linked_nonnull : 0 ∉ xs;
  linked_begin : begin (lst s) = hd 0 xs;
  linked_end : end_ (lst s) = last_or 0 xs;
  linked_size : size (lst s) = u32 (Z.of_nat (length xs));
  linked_seg : seg (cells s) 0 xs 0 }.

(** * Lemmas *)

Lemma last_or_cons d x xs : last_or d (x :: xs) = last_or x xs.
Proof. unfold last_or. rewrite last_cons. by destruct (last xs). Qed.

Lemma seg_app h p xs ys n :
  seg h p (xs ++ ys) n ↔ seg h p xs (hd n ys) ∧ seg h (last_or p xs) ys n.
Proof.
  revert p. induction xs as [|x xs IH]; intros p; [cbn; tauto|].
  change ((x :: xs) ++ ys) with (x :: (xs ++ ys)). cbn [seg]. rewrite IH.
  rewrite last_or_cons.
  replace (hd n (xs ++ ys)) with (hd (hd n ys) xs) by (by destruct xs).
  tauto.
Qed.

(** A segment does not depend on cells outside it. *)
Lemma seg_frame h h' p xs n :
  (∀ x, x ∈ xs → h' !! x = h !! x) → seg h p xs n → seg h' p xs n.
Proof.
  revert p. induction xs as [|x xs IH]; intros p Hf; [done|].
  cbn. intros [Hx Hs]. split; [rewrite Hf by set_solver; done|].
  apply IH; [set_solver|done].
Qed.

Lemma seg_insert h p xs n y c :
  y ∉ xs → seg h p xs n → seg (<[y := c]> h) p xs n.
Proof.
  intros Hy. apply seg_frame. intros x Hx. rewrite lookup_insert_ne; [done|].
  by intros ->.
Qed.

Lemma last_or_app d xs ys : last_or d (xs ++ ys) = last_or (last_or d xs) ys.
Proof. unfold last_or. rewrite last_app. by destruct (last ys). Qed.


Lemma last_or_snoc d x xs : last_or d (xs ++ [x]) = x.
Proof. by rewrite last_or_app. Qed.

Lemma last_or_elem d xs : xs = [] ∨ last_or d xs ∈ xs.
Proof.
  destruct xs as [|x xs]; [by left|right]. rewrite last_or_cons.
  revert x. induction xs as [|y xs IH]; intros x; [set_solver|].
  rewrite last_or_cons. specialize (IH y). set_solver.
Qed.

Lemma erase_middle (xs ys : list Z) x :
  NoDup (xs ++ x :: ys) → erase x (xs ++ x :: ys) = xs ++ ys.
Proof.
  intros (Hx & Hd & Hy)%NoDup_app. apply NoDup_cons in Hy as [Hxy _].
  unfold erase. rewrite filter_app, filter_cons_False by (intros []; done).
  rewrite !filter_all; [done|by intros z Hz ->|intros z Hz ->]. apply (Hd x Hz). set_solver.
Qed.

Lemma nz_true z : nz z = true ↔ z ≠ 0.
Proof. unfold nz. rewrite negb_true_iff. apply Z.eqb_neq. Qed.
Lemma nz_false z : nz z = false ↔ z = 0.
Proof. unfold nz. rewrite negb_false_iff. apply Z.eqb_eq. Qed.

(** The link pointers of the neighbours are what a step reads and writes. *)
Lemma load_wp p c (Q : ListItem → heap → Prop) s :
  cells s !! p = Some c → Q c s → wp (load p) Q s.
Proof. intros Hp HQ. unfold load. wp_step. wp_step. by rewrite Hp. Qed.

Lemma store_wp p f c (Q : () → heap → Prop) s :
  cells s !! p = Some c →
  Q tt (mkHeap (<[p := f c]> (cells s)) (lst s)) → wp (store p f) Q s.
Proof. intros Hp HQ. unfold store. wp_step. wp_step. rewrite Hp. by wp_steps. Qed.

Lemma push_front_linked s xs item :
  linked s xs → item ∉ xs → item ≠ 0 → is_Some (cells s !! item) →
  wp (list_push_front item) (λ _ s', linked s' (push_front item xs)) s.
Proof.
  intros [Hnd H0 Hb He Hs Hseg] Hi Hn [c Hc]. unfold list_push_front, push_front.
  do 2 wp_step. wp_step. eapply store_wp; [done|].
  wp_step. eapply store_wp; [apply lookup_insert_eq|]. cbn.
  rewrite insert_insert_eq. wp_step.
  destruct xs as [|y ys]; cbn in Hb; rewrite Hb.
  - wp_steps. split; cbn; try done.
    + apply NoDup_singleton.
    + set_solver.
    + by rewrite Hs.
    + by rewrite lookup_insert_eq.
  - assert (y ≠ 0) by set_solver. assert (item ≠ y) by set_solver.
    destruct Hseg as [Hy Hseg].
    rewrite (proj2 (nz_true y)) by done.
    eapply store_wp; [cbn; rewrite lookup_insert_ne by done; exact Hy|].
    wp_steps. split; cbn; try done.
    + by apply NoDup_cons.
    + set_solver.
    + rewrite Hs. unfold u32. rewrite Zplus_mod_idemp_l. f_equal. cbn. lia.
    + rewrite lookup_insert_ne, lookup_insert_eq by done.
      rewrite lookup_insert_eq. split_and!; [done..|].
      apply NoDup_cons in Hnd as [Hnd _].
      apply seg_insert; [done|]. apply seg_insert; [set_solver|done].
Qed.

Lemma push_back_linked s xs item :
  linked s xs → item ∉ xs → item ≠ 0 → is_Some (cells s !! item) →
  wp (list_push_back item) (λ _ s', linked s' (push_back item xs)) s.
Proof.
  intros [Hnd H0 Hb He Hs Hseg] Hi Hn [c Hc]. unfold list_push_back, push_back.
  do 2 wp_step. wp_step. eapply store_wp; [done|].
  wp_step. eapply store_wp; [apply lookup_insert_eq|]. cbn.
  rewrite insert_insert_eq. wp_step.
  destruct (list_snoc_case xs) as [->|(ys & y & ->)].
  - cbn in He. rewrite He. wp_steps. split; cbn; try done.
    + apply NoDup_singleton.
    + set_solver.
    + by rewrite Hs.
    + by rewrite lookup_insert_eq.
  - rewrite last_or_snoc in He. rewrite He.
    assert (y ≠ 0) by set_solver. assert (item ≠ y) by set_solver.
    apply seg_app in Hseg as [Hseg [Hy _]].
    rewrite (proj2 (nz_true y)) by done.
    eapply store_wp; [cbn; rewrite lookup_insert_ne by done; exact Hy|].
    wp_steps. apply NoDup_app in Hnd as (Hnd & Hny & Hny').
    split; cbn.
    + rewrite NoDup_app. split_and!; [|set_solver|apply NoDup_singleton].
      apply NoDup_app. by split_and!.
    + set_solver.
    + rewrite Hb. by destruct ys.
    + by rewrite last_or_snoc.
    + rewrite Hs. unfold u32. rewrite Zplus_mod_idemp_l. f_equal.
      rewrite !length_app. cbn. lia.
    + rewrite <- app_assoc. cbn. apply seg_app. cbn. split_and!.
      * apply seg_insert; [set_solver|]. by apply seg_insert; [set_solver|].
      * by rewrite lookup_insert_eq.
      * by rewrite lookup_insert_ne, lookup_insert_eq by done.
      * done.
Qed.

Lemma erase_linked s xs item :
  linked s xs → item ∈ xs →
  wp (list_erase item) (λ _ s', linked s' (erase item xs)) s.
Proof.
  intros [Hnd H0 Hb He Hs Hseg] (l1 & l2 & ->)%list_elem_of_split.
  rewrite erase_middle by done.
  assert (Hlen : u32 (size (lst s) - 1) = u32 (Z.of_nat (length (l1 ++ l2)))).
  { rewrite Hs. unfold u32. rewrite Zminus_mod_idemp_l. f_equal.
    rewrite !length_app. cbn. lia. }
  apply seg_app in Hseg as [H1 [Hi H2]].
  apply NoDup_app in Hnd as (Hnd1 & Hd & Hnd2). apply NoDup_cons in Hnd2 as [Hi2 Hnd2].
  assert (Hnd : NoDup (l1 ++ l2)) by (apply NoDup_app; split_and!; set_solver).
  rewrite last_or_app, last_or_cons in He.
  unfold list_erase. wp_step. eapply load_wp; [exact Hi|]. cbn.
  set (p := last_or 0 l1) in *. wp_step.
  assert (Hp : p = 0 ∧ l1 = [] ∨ p ≠ 0 ∧ p ∈ l1 ∧ ∃ l0, l1 = l0 ++ [p] ∧ p ∉ l0).
  { unfold p. destruct (list_snoc_case l1) as [->|(l0 & y & ->)]; [by left|right].
    rewrite last_or_snoc. split_and!; [set_solver..|]. exists l0. split; [done|].
    apply NoDup_app in Hnd1 as (_ & Hd1 & _). set_solver. }
  (* the cell of the predecessor, and the segment before it *)
  assert (Hpre : ∀ (h : gmap Z ListItem) n, p ≠ 0 →
    seg h 0 l1 n → ∃ q, h !! p = Some (mkListItem q n) ∧
    ∀ n', seg (<[p := mkListItem q n']> h) 0 l1 n').
  { intros h n Hp0 Hsg. destruct Hp as [[? _]|(_ & _ & l0 & El & Hl0)]; [done|].
    rewrite El in *. apply seg_app in Hsg as [Hs0 [Hs1 _]].
    exists (last_or 0 l0). split; [exact Hs1|]. intros n'. apply seg_app. cbn.
    rewrite lookup_insert_eq. split_and!; [by apply seg_insert|done..]. }
  destruct l2 as [|y ys]; cbn [hd] in *.
  - cbn. wp_steps. eapply load_wp; [exact Hi|]. cbn. wp_step.
    rewrite app_nil_r in *.
    destruct Hp as [[Hp ->]|(Hp & Hpin & l0 & Hl0)].
    + rewrite (proj2 (nz_false p)) by done. wp_steps.
      split; cbn; rewrite ?Hlen; done || set_solver.
    + rewrite (proj2 (nz_true p)) by done.
      destruct (Hpre _ _ Hp H1) as (q & Hq & Hset).
      eapply store_wp; [exact Hq|]. wp_steps.
      split; cbn; rewrite ?Hlen; try done; [set_solver|].
      rewrite Hb. clear -Hpin. destruct l1; [set_solver|done].
  - assert (y ≠ 0) by set_solver. rewrite (proj2 (nz_true y)) by done.
    destruct H2 as [Hy H2]. apply NoDup_cons in Hnd2 as [Hyys Hnd2].
    eapply store_wp; [exact Hy|]. cbn.
    assert (item ≠ y) by set_solver.
    wp_steps. eapply load_wp; [by cbn; rewrite lookup_insert_ne|]. cbn. wp_step.
    destruct Hp as [[Hp ->]|(Hp & Hpin & l0 & Hl0)].
    + rewrite (proj2 (nz_false p)) by done. wp_steps.
      split; cbn; rewrite ?Hlen; try done; [set_solver|by rewrite He, !last_or_cons|].
      rewrite lookup_insert_eq. split; [done|by apply seg_insert].
    + rewrite (proj2 (nz_true p)) by done.
      assert (p ≠ y) by set_solver.
      assert (H1' : seg (<[y:=mkListItem p (hd 0 ys)]> (cells s)) 0 l1 item)
        by (apply seg_insert; [set_solver|done]).
      destruct (Hpre _ _ Hp H1') as (q & Hq & Hset).
      eapply store_wp; [exact Hq|]. wp_steps.
      split; cbn; rewrite ?Hlen; try done; [set_solver| | |].
      * rewrite Hb. clear -Hpin. destruct l1; [set_solver|done].
      * by rewrite He, last_or_app, !last_or_cons.
      * apply seg_app. split; [apply Hset|]. cbn. split.
        -- by rewrite lookup_insert_ne, lookup_insert_eq by done.
        -- apply seg_insert; [set_solver|]. by apply seg_insert.
Qed.

(** ** Sequences of operations *)

Lemma init_linked s : linked (s <| lst := mkList 0 0 0 |>) [].
Proof. split; try done; [constructor|set_solver]. Qed.

(** The operations keep the cells that there are. *)
Definition keeps {A} (m : M heap A) : Prop := ∀ s a s', m s = Done a s' → dom (cells s') = dom (cells s).

Lemma keeps_bind {A B} (m : M heap A) (k : A → M heap B) : keeps m → (∀ a, keeps (k a)) → keeps (m ≫= k).
Proof. intros Hm Hk s b s' (a & s1 & H1 & H2)%bind_done. by rewrite (Hk _ _ _ _ H2), (Hm _ _ _ H1). Qed.
Lemma keeps_ret {A} (a : A) : keeps (mret a).
Proof. by intros s b s' [= <- <-]. Qed.
Lemma keeps_gets {A} (f : heap → A) : keeps (gets f).
Proof. by intros s b s' [= <- <-]. Qed.
Lemma keeps_load p : keeps (load p).
Proof. intros s c s'. unfold load, mbind, M_bind, gets, deref. by destruct (cells s !! p); [intros [= <- <-]|]. Qed.
Lemma keeps_store p f : keeps (store p f).
Proof.
  intros s c s'. unfold store, mbind, M_bind, gets, deref, modify. destruct (cells s !! p) eqn:E; [|done].
  intros [= <- <-]. simpl. rewrite dom_insert_L. apply elem_of_dom_2 in E. set_solver.
Qed.
Lemma keeps_set_list f : keeps (set_list f).
Proof. by intros s b s' [= <- <-]. Qed.
Lemma keeps_if {A} (b : bool) (m1 m2 : M heap A) : keeps m1 → keeps m2 → keeps (if b then m1 else m2).
Proof. by destruct b. Qed.

Lemma keeps_op o : keeps (run_op o).
Proof.
  destruct o; cbn [run_op]; unfold list_init, list_push_front, list_push_back, list_erase;
    repeat first [apply keeps_store|apply keeps_load|apply keeps_set_list|apply keeps_gets|apply keeps_if
                 |apply keeps_bind; [|intros ?]].
Qed.

(** What an operation does to the sequence, and what it asks for: a cell that is
    not linked, or one that is. *)
Definition spec_op (o : list_op) (xs : list Z) : list Z :=
  match o with
  | Init => []
  | PushFront item => push_front item xs
  | PushBack item => push_back item xs
  | Erase item => erase item xs
  end.
Definition op_ok (items : gset Z) (o : list_op) (xs : list Z) : Prop :=
  match o with
  | Init => True
  | PushFront item | PushBack item => item ∉ xs ∧ item ≠ 0 ∧ item ∈ items
  | Erase item => item ∈ xs
  end.
Fixpoint ops_ok (items : gset Z) (l : list list_op) (xs : list Z) : Prop :=
  match l with
  | [] => True
  | o :: l => op_ok items o xs ∧ ops_ok items l (spec_op o xs)
  end.

Lemma run_op_linked o s xs :
  linked s xs → op_ok (dom (cells s)) o xs → wp (run_op o) (λ _ s', linked s' (spec_op o xs)) s.
Proof.
  intros L H. destruct o; cbn [run_op spec_op op_ok] in *.
  - apply wp_modify. apply init_linked.
  - destruct H as (H1 & H2 & H3%elem_of_dom). by apply push_front_linked.
  - destruct H as (H1 & H2 & H3%elem_of_dom). by apply push_back_linked.
  - by apply erase_linked.
Qed.

Lemma run_ops_linked l s xs :
  linked s xs → ops_ok (dom (cells s)) l xs → wp (run_ops l) (λ _ s', linked s' (foldl (flip spec_op) xs l)) s.
Proof.
  revert s xs. induction l as [|o l IH]; intros s xs L; [intros _; by apply wp_ret|]. intros [H1 H2]. cbn [run_ops].
  apply wp_bind. apply (run_op_linked o s xs L) in H1. apply wp_done in H1 as (a & s' & Hr & L').
  eapply wp_of_done; [exact Hr|]. apply IH; [exact L'|]. by rewrite (keeps_op o _ _ _ Hr).
Qed.

Lemma traverse_from_seg n s p xs :
  seg (cells s) p xs 0 → 0 ∉ xs → (length xs ≤ n)%nat → traverse_from n (hd 0 xs) s = Done xs s.
Proof.
  revert p n. induction xs as [|x xs IH]; intros p n; [by destruct n|]. cbn [seg length hd]. intros [Hx Hs] H0 Hn.
  destruct n as [|n]; [lia|]. cbn [traverse_from]. rewrite (proj2 (nz_true x)) by set_solver. cbn [negb].
  unfold load. unfold mbind, M_bind, gets, deref. rewrite Hx. cbn.
  fold (traverse_from n). by rewrite (IH x n Hs) by (set_solver || lia).
Qed.

(** * Theorems *)

(** any sequence of list operations, each pushing a cell that is not linked or
    erasing one that is, does to the linked cells what the operations on sequences
    do, and keeps count; the loop over the list then comes by the sequence. *)
Theorem list_ops_refine l s xs n :
  linked s xs → ops_ok (dom (cells s)) l xs → let ys := foldl (flip spec_op) xs l in (length ys ≤ n)%nat →
  ∃ s', run_ops l s = Done () s' ∧ linked s' ys ∧ size (lst s') = u32 (Z.of_nat (length ys)) ∧ traverse n s' = Done ys s'.
Proof.
  intros L H ys Hn. apply run_ops_linked in H; [|done]. apply wp_done in H as ([] & s' & Hr & L'). exists s'.
  split_and!; [done|done|apply L'|]. unfold traverse, mbind, M_bind, gets. rewrite (linked_begin _ _ L').
  eapply traverse_from_seg; [apply L'|apply L'|done].
Qed.

Lemma list_ops_refine_witness :
  let s := mkHeap {[ 8 := mkListItem 0 0; 16 := mkListItem 0 0; 24 := mkListItem 0 0 ]} (mkList 0 0 0) in
  ∃ s', run_ops [PushFront 8; PushBack 16; PushFront 24; Erase 8] s = Done () s' ∧ traverse 2 s' = Done [24; 16] s'.
Proof.
  intros s. destruct (list_ops_refine [PushFront 8; PushBack 16; PushFront 24; Erase 8] s [] 2) as (s' & H & _ & _ & Ht).
  - apply (init_linked s).
  - cbn. set_solver.
  - vm_compute. lia.
  - exists s'. split; [exact H|exact Ht].
Defined.
