(* ===== verification/Unicode.v ===== *)
(** UTF-8 and UTF-16 ([src/fd32/modules/unicode/utf8.c], [utf16le.c],
    [utf16be.c]): the encoders and decoders, round trips, rejections.

    A [char] is the byte it is stored in, a string the list of the bytes (or
    16-bit words) from the pointer to the end of the memory it points into. A
    decoder returns the C result and the wide character it stores when the
    result is positive; an encoder the C result and what it stores. *)
From S2P Require Import Prelude Errno.

Module Utf8.
(** Bit mask and bit values of a UTF-8 lead byte. *)
Definition t : list (Z * Z) :=
  [(0x80, 0x00); (0xE0, 0xC0); (0xF0, 0xE0); (0xF8, 0xF0)].

(** [for (k = 0; k < 4; k++) if ((lead_byte & t[k].mask) == t[k].val)]: the
    first row of the table that matches. *)
Fixpoint find_row (rows : list (Z * Z)) (k : nat) (b : Z) : option (nat * Z) :=
  match rows with
  | [] => None
  | (mask, val) :: rows =>
      if Z.land b mask =? val then Some (k, mask) else find_row rows (S k) b
  end.

Definition unicode_utf8_len (lead_byte : Z) : Z :=
  match find_row t 0 lead_byte with
  | Some (k, _) => Z.of_nat k + 1
  | None => - EILSEQ
  end.

(** [for (j = 0; j < k; j++)]: the continuation bytes. *)
Fixpoint continuation (j : nat) (wc : Z) (string : bytes) : option Z :=
  match j with
  | O => Some wc
  | S j =>
      let b := byte_at string 0 in
      if negb (Z.land b 0xC0 =? 0x80) then None
      else continuation j (Z.lor (Z.shiftl wc 6) (Z.land b 0x3F)) (tail string)
  end.

Definition unicode_utf8_to_wchar (string : bytes) (size : Z) : Z * Z :=
  if size =? 0 then (- ENAMETOOLONG, 0)
  else
    let b := byte_at string 0 in
    match find_row t 0 b with
    | Some (k, mask) =>
        if size <? Z.of_nat k + 1 then (- ENAMETOOLONG, 0)
        else match continuation k (Z.land b (Z.lnot mask)) (tail string) with
             | Some wc => (Z.of_nat k + 1, wc)
             | None => (- EILSEQ, 0)
             end
    | None => (- EILSEQ, 0)
    end.

Definition unicode_wchar_to_utf8 (wc : Z) (size : Z) : Z * bytes :=
  let cont wc := Z.lor 0x80 (Z.land wc 0x3F) in
  let wc1 := Z.shiftr wc 6 in
  let wc2 := Z.shiftr wc1 6 in
  let wc3 := Z.shiftr wc2 6 in
  if 0 <=? wc then
    if wc <? 0x000080 then
      if size <? 1 then (- ENAMETOOLONG, []) else (1, [u8 wc])
    else if wc <? 0x000800 then
      if size <? 2 then (- ENAMETOOLONG, [])
      else (2, [u8 (Z.lor 0xC0 wc1); u8 (cont wc)])
    else if wc <? 0x010000 then
      if size <? 3 then (- ENAMETOOLONG, [])
      else (3, [u8 (Z.lor 0xE0 wc2); u8 (cont wc1); u8 (cont wc)])
    else if wc <? 0x200000 then
      if size <? 4 then (- ENAMETOOLONG, [])
      else (4, [u8 (Z.lor 0xF0 wc3); u8 (cont wc2); u8 (cont wc1); u8 (cont wc)])
    else (- EINVAL, [])
  else (- EINVAL, []).
End Utf8.

Module Utf16.
(** The little endian and big endian files differ only in the conversion of a
    stored word to a number. *)
Definition little_endian_16 (v : Z) : Z := v.
Definition big_endian_16 (v : Z) : Z := u16 (Z.lor (Z.shiftl v 8) (Z.shiftr v 8)).

Definition word_at (s : list Z) (i : nat) : Z := default 0 (s !! i).

Definition unicode_utf16le_len (lead_word : Z) : Z :=
  if Z.land (little_endian_16 lead_word) 0xFC00 =? 0xD800 then 2 else 1.
Definition unicode_utf16be_len (lead_word : Z) : Z :=
  if Z.land (big_endian_16 lead_word) 0xFC00 =? 0xD800 then 2 else 1.

Definition unicode_utf16le_to_wchar (string : list Z) (size : Z) : Z * Z :=
  if size =? 0 then (- ENAMETOOLONG, 0)
  else
    let v := little_endian_16 (word_at string 0) in
    if negb (Z.land v 0xFC00 =? 0xD800) then (1, v)
    else if size <? 2 then (- ENAMETOOLONG, 0)
    else
      let result := Z.shiftl (Z.land v 0x03FF) 10 + 0x010000 in
      let v := little_endian_16 (word_at string 1) in
      if negb (Z.land v 0xFC00 =? 0xDC00) then (- EILSEQ, result)
      else (2, Z.lor result (Z.land v 0x03FF)).

Definition unicode_utf16be_to_wchar (string : list Z) (size : Z) : Z * Z :=
  if size =? 0 then (- ENAMETOOLONG, 0)
  else
    let v := big_endian_16 (word_at string 0) in
    if negb (Z.land v 0xFC00 =? 0xD800) then (1, v)
    else if size <? 2 then (- ENAMETOOLONG, 0)
    else
      let result := Z.shiftl (Z.land v 0x03FF) 10 + 0x010000 in
      let v := big_endian_16 (word_at string 1) in
      if negb (Z.land v 0xFC00 =? 0xDC00) then (- EILSEQ, result)
      else (2, Z.lor result (Z.land v 0x03FF)).

(** [0xD800 + (((wc >> 16) - 1) << 6) + ((wc & 0x00FC00) >> 2)] is, with C's
    precedences, [(0xD800 + ((wc >> 16) - 1 << 6)) + ((wc & 0xFC00) >> 2)]. *)
Definition high_word (wc : Z) : Z :=
  u16 (0xD800 + Z.shiftl (Z.shiftr wc 16 - 1) 6 + Z.shiftr (Z.land wc 0x00FC00) 2).
Definition low_word (wc : Z) : Z := u16 (0xDC00 + Z.land wc 0x0003FF).

Definition unicode_wchar_to_utf16le (wc : Z) (size : Z) : Z * list Z :=
  if 0 <=? wc then
    if wc <? 0x010000 then (1, [little_endian_16 (u16 wc)])
    else if wc <? 0x200000 then
      (2, [little_endian_16 (high_word wc); little_endian_16 (low_word wc)])
    else (- EINVAL, [])
  else (- EINVAL, []).

Definition unicode_wchar_to_utf16be (wc : Z) (size : Z) : Z * list Z :=
  if 0 <=? wc then
    if wc <? 0x010000 then (1, [big_endian_16 (u16 wc)])
    else if wc <? 0x200000 then
      (2, [big_endian_16 (high_word wc); big_endian_16 (low_word wc)])
    else (- EINVAL, [])
  else (- EINVAL, []).
End Utf16.
Import Utf8 Utf16.

(** * Lemmas *)

(** ** UTF-8 *)

(** What the decoder sees in a byte the encoder built from [x] payload bits. *)
Lemma cont_byte x : 0 ≤ x < 64 →
  u8 (Z.lor 0x80 x) = 0x80 + x ∧
  Z.land (0x80 + x) 0xC0 = 0x80 ∧ Z.land (0x80 + x) 0x3F = x.
Proof.
  intros Hx. pose proof (bounded_forall (λ x, (u8 (Z.lor 0x80 x) =? 0x80 + x) &&
    (Z.land (0x80 + x) 0xC0 =? 0x80) && (Z.land (0x80 + x) 0x3F =? x)) 64) as H.
  specialize (H ltac:(vm_compute; reflexivity) x Hx).
  rewrite !andb_true_iff, !Z.eqb_eq in H. tauto.
Qed.

Definition lead_ok (k : nat) (mask lead n : Z) : bool :=
  forallb (λ x, (u8 (Z.lor lead x) =? lead + x) &&
    match find_row t 0 (lead + x) with
    | Some (k', m) => Nat.eqb k k' && (m =? mask)
    | None => false
    end && (Z.land (lead + x) (Z.lnot mask) =? x)) (seqZ 0 n).

Lemma lead_byte k mask lead n x :
  lead_ok k mask lead n = true → 0 ≤ x < n →
  u8 (Z.lor lead x) = lead + x ∧ find_row t 0 (lead + x) = Some (k, mask) ∧
  Z.land (lead + x) (Z.lnot mask) = x.
Proof.
  intros H Hx. apply (bounded_forall _ _ H) in Hx.
  rewrite !andb_true_iff, !Z.eqb_eq in Hx. destruct Hx as [[Hu Hf] Hl].
  split_and!; [done| |done]. destruct (find_row t 0 (lead + x)) as [[k' m]|]; [|done].
  rewrite andb_true_iff, Nat.eqb_eq, Z.eqb_eq in Hf. by destruct Hf as [-> ->].
Qed.

Lemma continuation_step j wc x s :
  0 ≤ x < 64 → continuation (S j) wc ((0x80 + x) :: s) = continuation j (wc * 64 + x) s.
Proof.
  intros Hx. destruct (cont_byte x Hx) as (_ & Hc & Hp).
  cbn [continuation byte_at]. change (byte_at ((0x80 + x) :: s) 0) with (0x80 + x).
  rewrite Hc, Hp. cbn [negb Z.eqb Pos.eqb tail].
  by rewrite lor_shiftl_add by (cbn; lia).
Qed.

(** Splitting off the low six bits of a character. *)
Lemma low_six wc : Z.land wc 0x3F = wc mod 64.
Proof. by apply (land_pow2_mod wc 6). Qed.
Lemma drop_six wc : Z.shiftr wc 6 = wc / 64.
Proof. by apply shiftr_div. Qed.

Lemma utf8_decode_lead b s size k mask :
  find_row t 0 b = Some (k, mask) → Z.of_nat k + 1 ≤ size →
  unicode_utf8_to_wchar (b :: s) size =
  match continuation k (Z.land b (Z.lnot mask)) s with
  | Some wc => (Z.of_nat k + 1, wc)
  | None => (- EILSEQ, 0)
  end.
Proof.
  intros Hf Hs. unfold unicode_utf8_to_wchar.
  change (byte_at (b :: s) 0) with b.
  rewrite (proj2 (Z.eqb_neq size 0)) by lia. rewrite Hf.
  by rewrite (proj2 (Z.ltb_ge _ _)) by lia.
Qed.

Lemma utf8_roundtrip_lemma wc size n bs rest rsize :
  unicode_wchar_to_utf8 wc size = (n, bs) → 0 < n ≤ rsize →
  unicode_utf8_to_wchar (bs ++ rest) rsize = (n, wc) ∧ Z.of_nat (length bs) = n ∧ n ≤ size.
Proof.
  unfold unicode_wchar_to_utf8. rewrite !drop_six, !low_six.
  destruct (Z.leb_spec 0 wc); [|intros [= <- <-] ?; unfold EINVAL in *; lia].
  assert (Hd : ∀ x, 0 ≤ x mod 64 < 64) by (intros; apply Z.mod_pos_bound; lia).
  assert (Hc := λ x, cont_byte _ (Hd x)).
  assert (E1 := Z.div_mod wc 64 ltac:(lia)).
  assert (E2 := Z.div_mod (wc / 64) 64 ltac:(lia)).
  assert (E3 := Z.div_mod (wc / 64 / 64) 64 ltac:(lia)).
  pose proof (Hd wc). pose proof (Hd (wc / 64)). pose proof (Hd (wc / 64 / 64)).
  repeat case_match; intros [= <- <-] Hn;
    repeat match goal with
    | H : (_ <? _) = true |- _ => apply Z.ltb_lt in H
    | H : (_ <? _) = false |- _ => apply Z.ltb_ge in H
    end; try (unfold EINVAL, ENAMETOOLONG in Hn; lia); (split; [|split; [done|lia]]).
  - destruct (lead_byte 0 0x80 0 128 wc) as (Hu & Hf & Hl); [by vm_compute|lia|].
    rewrite Z.lor_0_l in Hu. rewrite Hu. cbn [app].
    rewrite (utf8_decode_lead _ _ _ _ _ Hf) by lia. rewrite Hl. done.
  - destruct (lead_byte 1 0xE0 0xC0 32 (wc / 64)) as (Hu & Hf & Hl); [by vm_compute|lia|].
    rewrite Hu, (proj1 (Hc _)). cbn [app].
    rewrite (utf8_decode_lead _ _ _ _ _ Hf) by lia.
    rewrite Hl, continuation_step by done. cbn. do 2 f_equal. lia.
  - destruct (lead_byte 2 0xF0 0xE0 16 (wc / 64 / 64)) as (Hu & Hf & Hl); [by vm_compute|lia|].
    rewrite Hu, !(proj1 (Hc _)). cbn [app].
    rewrite (utf8_decode_lead _ _ _ _ _ Hf) by lia.
    rewrite Hl, !continuation_step by done. cbn. do 2 f_equal. lia.
  - destruct (lead_byte 3 0xF8 0xF0 8 (wc / 64 / 64 / 64)) as (Hu & Hf & Hl); [by vm_compute|lia|].
    rewrite Hu, !(proj1 (Hc _)). cbn [app].
    rewrite (utf8_decode_lead _ _ _ _ _ Hf) by lia.
    rewrite Hl, !continuation_step by done. cbn. do 2 f_equal. lia.
Qed.

(** The decoder looks at no byte past the [size] it is given. *)
Lemma continuation_local j wc s s' :
  take j s = take j s' → continuation j wc s = continuation j wc s'.
Proof.
  revert wc s s'. induction j as [|j IH]; intros wc s s' E; [done|]. cbn.
  assert (Eb : byte_at s 0 = byte_at s' 0) by (destruct s, s'; cbn in E; simplify_eq; done).
  rewrite Eb. destruct negb; [done|]. apply IH. destruct s, s'; cbn in *; congruence.
Qed.

Lemma utf8_decode_local s s' size :
  0 ≤ size → take (Z.to_nat size) s = take (Z.to_nat size) s' →
  unicode_utf8_to_wchar s size = unicode_utf8_to_wchar s' size.
Proof.
  intros Hs E. unfold unicode_utf8_to_wchar. destruct (Z.eqb_spec size 0); [done|].
  assert (∃ m, Z.to_nat size = S m) as [m Em] by (exists (Z.to_nat (size - 1)); lia).
  rewrite Em in E.
  assert (Eb : byte_at s 0 = byte_at s' 0) by (destruct s, s'; cbn in E; simplify_eq; done).
  rewrite Eb. destruct (find_row t 0 (byte_at s' 0)) as [[k mask]|]; [|done].
  destruct (Z.ltb_spec size (Z.of_nat k + 1)); [done|].
  rewrite (continuation_local k _ (tail s) (tail s')); [done|].
  assert (take m (tail s) = take m (tail s')) as Et by (destruct s, s'; cbn in *; congruence).
  rewrite <- (Nat.min_l k m), <- !take_take by lia. by rewrite Et.
Qed.

(** What a successful decoding consumed. *)
Lemma find_row_bound rows k0 b k mask :
  find_row rows k0 b = Some (k, mask) → (k < k0 + length rows)%nat.
Proof.
  revert k0. induction rows as [|[m v] rows IH]; intros k0; cbn; [done|].
  case_match; [intros [= <- <-]; lia|]. intros Hr%IH. lia.
Qed.

Lemma utf8_decode_size s size n wc :
  unicode_utf8_to_wchar s size = (n, wc) → 0 ≤ size → 0 ≤ n → 1 ≤ n ≤ 4 ∧ n ≤ size.
Proof.
  unfold unicode_utf8_to_wchar, EILSEQ, ENAMETOOLONG.
  destruct (Z.eqb_spec size 0); [intros [= <- <-]; lia|].
  destruct (find_row t 0 (byte_at s 0)) as [[k mask]|] eqn:Hf; [|intros [= <- <-]; lia].
  apply find_row_bound in Hf. cbn in Hf.
  destruct (Z.ltb_spec size (Z.of_nat k + 1)); [intros [= <- <-]; lia|].
  case_match; intros [= <- <-]; lia.
Qed.

(** ** UTF-16 *)

(** The decoder inverts the encoder on a pair of surrogates exactly when it
    puts the high surrogate's payload back where it came from. *)
Definition surrogate_ok (p q : Z) : bool :=
  let wc := Z.lor (Z.shiftl p 16) (Z.shiftl q 10) in
  (Z.land (high_word wc) 0xFC00 =? 0xD800) &&
  (Z.shiftl (Z.land (high_word wc) 0x03FF) 10 + 0x010000 =? wc).

(** By computation: the pairs [(wc >> 16, (wc >> 10) & 63)] that survive are
    those with a zero second component and at most 16 as the first. *)
Lemma surrogate_ok_iff p q :
  1 ≤ p < 32 → 0 ≤ q < 64 → surrogate_ok p q = (p <=? 16) && (q =? 0).
Proof.
  intros Hp Hq.
  pose proof (bounded_forall (λ p, (p <? 1) || forallb (λ q,
    Bool.eqb (surrogate_ok p q) ((p <=? 16) && (q =? 0))) (seqZ 0 64)) 32
    ltac:(vm_compute; reflexivity) p ltac:(lia)) as H. cbn beta in H.
  rewrite (proj2 (Z.ltb_ge p 1)) in H by lia. cbn [orb] in H.
  pose proof (bounded_forall (λ q, Bool.eqb (surrogate_ok p q) ((p <=? 16) && (q =? 0)))
    64 H q Hq) as Hb. by apply Bool.eqb_prop in Hb.
Qed.

Lemma split_character wc :
  0x10000 ≤ wc < 0x200000 → ∃ p q r, wc = p * 2 ^ 16 + q * 2 ^ 10 + r ∧
    1 ≤ p < 32 ∧ 0 ≤ q < 64 ∧ 0 ≤ r < 2 ^ 10.
Proof.
  intros Hw. exists (wc / 2 ^ 16), (wc / 2 ^ 10 mod 64), (wc mod 2 ^ 10).
  pose proof (Z.div_mod wc (2 ^ 10)). pose proof (Z.mod_pos_bound wc (2 ^ 10)).
  pose proof (Z.div_mod (wc / 2 ^ 10) 64). pose proof (Z.mod_pos_bound (wc / 2 ^ 10) 64).
  assert (wc / 2 ^ 10 / 64 = wc / 2 ^ 16) as E by (by rewrite Z.div_div).
  rewrite E in *. lia.
Qed.

Section split.
Context (p q r : Z) (Hp : 1 ≤ p < 32) (Hq : 0 ≤ q < 64) (Hr : 0 ≤ r < 2 ^ 10).
Let wc := p * 2 ^ 16 + q * 2 ^ 10 + r.
Let base := Z.lor (Z.shiftl p 16) (Z.shiftl q 10).

Lemma base_value : base = p * 2 ^ 16 + q * 2 ^ 10.
Proof. unfold base. rewrite (shiftl_mul q), lor_shiftl_add; lia. Qed.

Lemma split_shift : Z.shiftr wc 16 = Z.shiftr base 16.
Proof.
  rewrite base_value, !shiftr_div by lia. unfold wc.
  replace (p * 2 ^ 16 + q * 2 ^ 10 + r) with (q * 2 ^ 10 + r + p * 2 ^ 16) by lia.
  replace (p * 2 ^ 16 + q * 2 ^ 10) with (q * 2 ^ 10 + p * 2 ^ 16) by lia.
  rewrite !Z.div_add by lia. by rewrite !Z.div_small by lia.
Qed.

Lemma split_mid : Z.land wc 0x00FC00 = Z.land base 0x00FC00.
Proof.
  change 0xFC00 with (Z.shiftl 63 10).
  assert (E : ∀ a, Z.land a (Z.shiftl 63 10) = Z.shiftl (Z.land (Z.shiftr a 10) 63) 10).
  { intros a. apply Z.bits_inj'. intros n Hn.
    rewrite Z.land_spec, !Z.shiftl_spec, Z.land_spec by done.
    destruct (decide (n < 10)); [by rewrite !(Z.testbit_neg_r _ (n - 10)), andb_false_r by lia|].
    rewrite Z.shiftr_spec by lia. by replace (n - 10 + 10) with n by lia. }
  rewrite !E. do 2 f_equal. rewrite base_value, !shiftr_div by lia. unfold wc.
  replace (p * 2 ^ 16 + q * 2 ^ 10 + r) with (r + (p * 2 ^ 6 + q) * 2 ^ 10) by lia.
  replace (p * 2 ^ 16 + q * 2 ^ 10) with (0 + (p * 2 ^ 6 + q) * 2 ^ 10) by lia.
  rewrite !Z.div_add by lia. by rewrite !Z.div_small by lia.
Qed.

Lemma split_high : high_word wc = high_word base.
Proof. unfold high_word. by rewrite split_shift, split_mid. Qed.

Lemma split_low : low_word wc = 0xDC00 + r ∧ Z.land (low_word wc) 0xFC00 = 0xDC00 ∧
  Z.land (low_word wc) 0x03FF = r.
Proof.
  assert (E : Z.land wc 0x3FF = r).
  { change 0x3FF with (2 ^ 10 - 1). rewrite land_pow2_mod by lia. unfold wc.
    replace (p * 2 ^ 16 + q * 2 ^ 10 + r) with (r + (p * 2 ^ 6 + q) * 2 ^ 10) by lia.
    rewrite Z.mod_add by lia. by apply Z.mod_small. }
  unfold low_word. rewrite E, u16_small by lia.
  pose proof (bounded_forall (λ r, (Z.land (0xDC00 + r) 0xFC00 =? 0xDC00) &&
    (Z.land (0xDC00 + r) 0x03FF =? r)) 1024 ltac:(vm_compute; reflexivity) r ltac:(lia)) as H.
  rewrite andb_true_iff, !Z.eqb_eq in H. tauto.
Qed.
End split.

Lemma utf16le_decode_pair hi lo size rest :
  2 ≤ size → Z.land lo 0xFC00 = 0xDC00 →
  unicode_utf16le_to_wchar (hi :: lo :: rest) size =
  if Z.land hi 0xFC00 =? 0xD800
  then (2, Z.lor (Z.shiftl (Z.land hi 0x03FF) 10 + 0x010000) (Z.land lo 0x03FF))
  else (1, hi).
Proof.
  intros Hs Hlo. unfold unicode_utf16le_to_wchar, little_endian_16, word_at. cbn [lookup list_lookup default from_option id].
  rewrite (proj2 (Z.eqb_neq size 0)) by lia.
  destruct (Z.land hi 0xFC00 =? 0xD800); cbn [negb]; [|done].
  rewrite (proj2 (Z.ltb_ge size 2)) by lia. by rewrite Hlo.
Qed.

(** The round trip of a supplementary character, in terms of its parts. *)
Lemma utf16le_pair_roundtrip wc size rest :
  0x10000 ≤ wc < 0x200000 → 2 ≤ size →
  unicode_utf16le_to_wchar (snd (unicode_wchar_to_utf16le wc 2) ++ rest) size = (2, wc) ↔
  wc < 0x110000 ∧ Z.land wc 0xFC00 = 0.
Proof.
  intros Hw Hs. unfold unicode_wchar_to_utf16le, little_endian_16.
  rewrite (proj2 (Z.leb_le 0 wc)), (proj2 (Z.ltb_ge wc 0x010000)),
    (proj2 (Z.ltb_lt wc 0x200000)) by lia. cbn [snd app].
  destruct (split_character wc Hw) as (p & q & r & -> & Hp & Hq & Hr).
  rewrite (split_high p q r), (split_mid p q r) by done.
  destruct (split_low p q r Hp Hq Hr) as (Hl & Hl1 & Hl2).
  rewrite utf16le_decode_pair by done. rewrite Hl2.
  pose proof (surrogate_ok_iff p q Hp Hq) as Hok. unfold surrogate_ok in Hok.
  assert (Hm : Z.land (Z.lor (Z.shiftl p 16) (Z.shiftl q 10)) 0xFC00 = q * 2 ^ 10).
  { pose proof (bounded_forall (λ p, forallb (λ q,
      Z.land (Z.lor (Z.shiftl p 16) (Z.shiftl q 10)) 0xFC00 =? q * 2 ^ 10) (seqZ 0 64)) 32
      ltac:(vm_compute; reflexivity) p ltac:(lia)) as H.
    by apply Z.eqb_eq, (bounded_forall _ _ H). }
  rewrite Hm. set (hi := high_word _) in *. set (w := Z.lor (Z.shiftl p 16) _) in *.
  assert (Ew : w = p * 2 ^ 16 + q * 2 ^ 10) by (by apply base_value).
  assert (Eh : Z.shiftl (Z.land hi 1023) 10 + 65536 = (Z.land hi 1023 + 64) * 2 ^ 10)
    by (rewrite shiftl_mul; lia).
  rewrite Eh in *. rewrite <- (shiftl_mul _ 10) in * by lia.
  rewrite lor_shiftl_add by lia. rewrite shiftl_mul in * by lia.
  destruct (Z.eqb_spec (Z.land hi 0xFC00) 0xD800); cbn [andb] in Hok.
  - destruct (Z.eqb_spec ((Z.land hi 1023 + 64) * 2 ^ 10) w);
      destruct (Z.leb_spec p 16); destruct (Z.eqb_spec q 0); cbn in Hok; try done;
      (split; [intros [= ?]|intros [??]; f_equal]; lia).
  - destruct (Z.leb_spec p 16); destruct (Z.eqb_spec q 0); cbn in Hok; try done;
      (split; [done|intros [??]; lia]).
Qed.

(** C14: what [unicode_wchar_to_utf8] writes, followed by anything, decodes to
    the same character, consuming exactly the bytes that were written. *)
Theorem utf8_roundtrip wc size n bs rest rsize :
  unicode_wchar_to_utf8 wc size = (n, bs) → 0 < n ≤ rsize →
  unicode_utf8_to_wchar (bs ++ rest) rsize = (n, wc) ∧ Z.of_nat (length bs) = n ∧ n ≤ size.
Proof. apply utf8_roundtrip_lemma. Qed.

Lemma utf8_roundtrip_witness :
  unicode_utf8_to_wchar ([0xE2; 0x82; 0xAC] ++ [0x41]) 4 = (3, 0x20AC) ∧
  Z.of_nat (length [0xE2; 0x82; 0xAC]) = 3 ∧ 3 ≤ 6.
Proof. apply (utf8_roundtrip 0x20AC 6); [vm_compute; reflexivity|lia]. Defined.

(** A basic-plane character that is not a high surrogate survives UTF-16. *)
Theorem utf16le_roundtrip_bmp wc size rest :
  0 ≤ wc < 0x10000 → Z.land wc 0xFC00 ≠ 0xD800 → 0 < size →
  unicode_wchar_to_utf16le wc 1 = (1, [wc]) ∧
  unicode_utf16le_to_wchar (wc :: rest) size = (1, wc).
Proof.
  intros Hw Hn Hs.
  unfold unicode_wchar_to_utf16le, unicode_utf16le_to_wchar, little_endian_16.
  rewrite (proj2 (Z.leb_le 0 wc)), (proj2 (Z.ltb_lt wc 0x010000)) by lia.
  rewrite u16_small by lia. split; [done|].
  rewrite (proj2 (Z.eqb_neq size 0)) by lia.
  change (word_at (wc :: rest) 0) with wc. by rewrite (proj2 (Z.eqb_neq _ _) Hn).
Qed.

Lemma utf16le_roundtrip_bmp_witness :
  unicode_wchar_to_utf16le 0x20AC 1 = (1, [0x20AC]) ∧
  unicode_utf16le_to_wchar [0x20AC; 0] 2 = (1, 0x20AC).
Proof. apply (utf16le_roundtrip_bmp 0x20AC 2 [0]); [lia|vm_compute; done|lia]. Defined.

(** a supplementary character survives UTF-16 exactly when its bits 10 to
    15 are zero: the encoder shifts them by 2 where the surrogate needs 10, so
    every other one decodes to a different character or to none. Characters
    from 0x110000 on are accepted by the encoder and never survive. *)
Theorem utf16le_roundtrip_supplementary wc size rest :
  0x10000 ≤ wc < 0x200000 → 2 ≤ size →
  unicode_utf16le_to_wchar (snd (unicode_wchar_to_utf16le wc 2) ++ rest) size = (2, wc) ↔
  wc < 0x110000 ∧ Z.land wc 0xFC00 = 0.
Proof. apply utf16le_pair_roundtrip. Qed.

Lemma utf16le_roundtrip_supplementary_witness :
  unicode_utf16le_to_wchar (snd (unicode_wchar_to_utf16le 0x1F600 2) ++ []) 2 = (2, 0x1F600) ↔
  0x1F600 < 0x110000 ∧ Z.land 0x1F600 0xFC00 = 0.
Proof. apply (utf16le_roundtrip_supplementary 0x1F600 2 []); lia. Defined.
