(* ===== verification/Nls.v ===== *)
(** Native Language Support ([src/fd32/modules/nls/nls.c], [nls.h]): the
    operations of a code page, the default code page (ISO-8859-1) and the NLS
    manager's linked list of registered code pages. The string comparison is
    the one of [src/oslib/libc/string]. *)
From S2P Require Import Prelude Errno.

(** * C strings, as the list of the bytes before the terminator *)
Module CString.
Definition toupper (c : Z) : Z := if (97 <=? c) && (c <=? 122) then c - 97 + 65 else c.

Fixpoint stricmp (s1 s2 : bytes) : Z :=
  match s1, s2 with
  | [], [] => 0
  | [], c2 :: _ => 0 - c2
  | c1 :: _, [] => c1 - 0
  | c1 :: s1, c2 :: s2 =>
      if negb (toupper c1 =? toupper c2) then c1 - c2 else stricmp s1 s2
  end.
Definition strcasecmp (s1 s2 : bytes) : Z := stricmp s1 s2.
End CString.

(** * Operations of a code page

    A conversion returns the C result and what it stores when it is positive.
    Strings are the bytes from the pointer on, so they are never null. *)
Record nls_operations := mkNlsOperations {
  nls_mbtowc : bytes → Z → Z * Z;
  nls_wctomb : Z → Z → Z * bytes;
  nls_mblen : bytes → Z → Z;
  nls_toupper : Z → Z;
  nls_tolower : Z → Z }.

Module DefaultCodePage.
Definition default_mbtowc (string : bytes) (size : Z) : Z * Z :=
  if size <? 1 then (- ENAMETOOLONG, 0) else (1, byte_at string 0).

Definition default_wctomb (wc size : Z) : Z * bytes :=
  if (wc <? 0) || (255 <? wc) then (- EINVAL, [])
  else if size <? 1 then (- ENAMETOOLONG, [])
  else (1, [u8 wc]).

Definition default_mblen (string : bytes) (size : Z) : Z :=
  if size <? 1 then - ENAMETOOLONG else 1.

Definition default_toupper (ch : Z) : Z :=
  let c := u8 ch in
  if ((97 <=? c) && (c <=? 122)) || ((0xE8 <=? c) && (c <=? 0xFE) && negb (c =? 0xF7))
  then u8 (c - 0x20) else c.

Definition default_tolower (ch : Z) : Z :=
  let c := u8 ch in
  if ((65 <=? c) && (c <=? 90)) || ((0xC0 <=? c) && (c <=? 0xDE) && negb (c =? 0xD7))
  then u8 (c + 0x20) else c.

Definition default_nls_operations : nls_operations := {|
  nls_mbtowc := default_mbtowc;
  nls_wctomb := default_wctomb;
  nls_mblen := default_mblen;
  nls_toupper := default_toupper;
  nls_tolower := default_tolower |}.
End DefaultCodePage.
Import DefaultCodePage.

(** * The NLS manager *)
Module NlsManager.
Definition REQ_GET_OPERATIONS : Z := 0.
Definition REQ_GET_REFERENCES : Z := 1.
Definition OT_NLS_OPERATIONS : Z := 3.

(** A registered structure; null pointers are [None] and 0. *)
Record nls_code_page := mkCodePage {
  cp_name : option bytes;
  cp_request : option Z;
  cp_next : Z }.
#[export] Instance nls_code_page_eta : Eta nls_code_page :=
  λ r, mkCodePage (cp_name r) (cp_request r) (cp_next r).

(** The list head, the code page structures in memory, and the reference count
    of the default code page. *)
Record nls := mkNls {
  nls_head : Z;
  nls_cps : gmap Z nls_code_page;
  default_refcount : Z }.
#[export] Instance nls_eta : Eta nls :=
  λ r, mkNls (nls_head r) (nls_cps r) (default_refcount r).

(** [default_request]; every other request function belongs to a code page
    module outside this source and is a parameter: the reply to each request. *)
Definition default_request_addr : Z := 1.

Definition default_release : M nls Z :=
  n ← gets default_refcount;
  if 0 <? n then modify (λ s, s <| default_refcount := n - 1 |>);; mret (n - 1)
  else mret (- EINVAL).

(** [operations] tells whether the pointer to receive the operations is not null. *)
Definition default_request (function type : Z) (operations : bool) : M nls Z :=
  if function =? REQ_GET_OPERATIONS then
    guard_ret (negb (type =? OT_NLS_OPERATIONS)) (- ENOTSUP) (
    (if operations then modify (λ s, s <| default_refcount ::= λ n, u32 (n + 1) |>)
     else mret tt);;
    mret 0)
  else if function =? REQ_GET_REFERENCES then gets default_refcount
  else mret (- ENOTSUP).

Section manager.
Context (other_request : Z → Z → Z → bool → Z).

Definition call_request (r : Z) (function type : Z) (operations : bool) : M nls Z :=
  if r =? default_request_addr then default_request function type operations
  else mret (other_request r function type operations).

(** [for (cp = nls_head; cp; cp = cp->next)], [fuel] bounds the cells visited. *)
Fixpoint nls_get_from (fuel : nat) (cp : Z) (name : bytes) (type : Z) (operations : bool)
    : M nls Z :=
  if negb (nz cp) then mret (- EINVAL)
  else match fuel with
  | O => nofuel
  | S fuel =>
      c ← gets (λ s, nls_cps s !! cp); c ← deref c;
      n ← deref (cp_name c);
      if CString.strcasecmp name n =? 0 then
        r ← deref (cp_request c); call_request r REQ_GET_OPERATIONS type operations
      else nls_get_from fuel (cp_next c) name type operations
  end.

Definition nls_get (fuel : nat) (name : option bytes) (type : Z) (operations : bool) : M nls Z :=
  match name with
  | Some name => h ← gets nls_head; nls_get_from fuel h name type operations
  | None => mret (- EINVAL)
  end.

Fixpoint is_linked (fuel : nat) (i cp : Z) : M nls bool :=
  if negb (nz i) then mret false
  else match fuel with
  | O => nofuel
  | S fuel =>
      if i =? cp then mret true
      else c ← gets (λ s, nls_cps s !! i); c ← deref c; is_linked fuel (cp_next c) cp
  end.

Definition nls_register (fuel : nat) (cp : Z) : M nls Z :=
  guard_ret (negb (nz cp)) (- EINVAL) (
  c ← gets (λ s, nls_cps s !! cp); c ← deref c;
  guard_ret (negb (bool_decide (is_Some (cp_name c))) || negb (bool_decide (is_Some (cp_request c))))
    (- EINVAL) (
  guard_ret (nz (cp_next c)) (- EBUSY) (
  h ← gets nls_head;
  linked ← is_linked fuel h cp;
  guard_ret linked (- EBUSY) (
  modify (λ s, s <| nls_cps ::= <[cp := c <| cp_next := nls_head s |>]> |>);;
  modify (λ s, s <| nls_head := cp |>);;
  mret 0)))).

Fixpoint nls_unregister_from (fuel : nat) (curr prev cp : Z) : M nls Z :=
  if negb (nz curr) then mret (- EINVAL)
  else match fuel with
  | O => nofuel
  | S fuel =>
      c ← gets (λ s, nls_cps s !! curr); c ← deref c;
      if curr =? cp then
        r ← deref (cp_request c);
        n ← call_request r REQ_GET_REFERENCES 0 false;
        guard_ret (0 <? n) (- EBUSY) (
        (if negb (nz prev) then modify (λ s, s <| nls_head := cp_next c |>)
         else p ← gets (λ s, nls_cps s !! prev); p ← deref p;
              modify (λ s, s <| nls_cps ::= <[prev := p <| cp_next := cp_next c |>]> |>));;
        modify (λ s, s <| nls_cps ::= alter (λ c, c <| cp_next := 0 |>) cp |>);;
        mret 0)
      else nls_unregister_from fuel (cp_next c) curr cp
  end.

Definition nls_unregister (fuel : nat) (cp : Z) : M nls Z :=
  h ← gets nls_head; nls_unregister_from fuel h 0 cp.
End manager.
End NlsManager.

(** * Strings compared without regard to case *)

(** The characters of a string are not null. *)
Definition nonnull (s : bytes) : Prop := Forall (λ c, c ≠ 0) s.

Lemma strcasecmp_eq a b :
  nonnull a → nonnull b → CString.strcasecmp a b = 0 ↔ map CString.toupper a = map CString.toupper b.
Proof.
  unfold CString.strcasecmp. intros Ha. revert b. induction Ha as [|x a Hx _ IH]; intros [|y b] Hb; cbn; [done| | |].
  - apply Forall_cons in Hb as [Hy _]. split; [lia|done].
  - split; [lia|done].
  - apply Forall_cons in Hb as [Hy Hb]. destruct (Z.eqb_spec (CString.toupper x) (CString.toupper y)) as [E|E]; cbn.
    + rewrite IH by done. rewrite E. split; [by intros ->|by intros [= ->]].
    + split; [|by intros [= ? _]]. intros Hxy. assert (x = y) by lia. congruence.
Qed.
