(* ===== verification/Devices.v ===== *)
(** The device manager of the kernel ([src/fd32/devices/devices.c]): an array of
    devices linked in the order of their registration. *)
From S2P Require Import Prelude Errno Lists Nls.
(** Kernel memory: [mem_get] and [mem_free]. *)
Class KernelMemory (W : Type) := {
  kmem_get : Z → W → Z * W;
  kmem_free : Z → Z → W → Z * W }.

Module Devices.
Definition DEVSIZESTEP : Z := 20.

(** [Name] is a string that must outlive the device; [None] is the null pointer. *)
Record tDevice := mkDevice { request : Z; DeviceId : Z; Name : option bytes; Prev : Z; Next : Z }.
#[export] Instance tDevice_eta : Eta tDevice := λ r,
  mkDevice (request r) (DeviceId r) (Name r) (Prev r) (Next r).

(** The array, its address ([None] is null) and its ends; [DevSize] is its length. *)
Record devices (W : Type) := mkDevices {
  dev_world : W;
  DevFirst : Z;
  DevLast : Z;
  Devices_at : Z;
  Devices : list tDevice }.
Arguments mkDevices {W}. Arguments dev_world {W}. Arguments DevFirst {W}. Arguments DevLast {W}.
Arguments Devices_at {W}. Arguments Devices {W}.
#[export] Instance devices_eta W : Eta (devices W) := λ r,
  mkDevices (dev_world r) (DevFirst r) (DevLast r) (Devices_at r) (Devices r).

Definition zero_device : tDevice := mkDevice 0 0 None 0 0.
Definition sizeof_tDevice : Z := 20.

Section devices.
Context {W : Type} `{KernelMemory W}.
Notation DM := (M (devices W)).

Definition DevSize : DM Z := gets (λ s, Z.of_nat (length (Devices s))).

(** [Devices[k]], with the index of an access in range. *)
Definition device (k : Z) : DM tDevice :=
  x ← gets (λ s, if k <? 0 then None else Devices s !! Z.to_nat k); deref x.
Definition set_device (k : Z) (f : tDevice → tDevice) : DM () :=
  x ← device k; modify (λ s, s <| Devices ::= <[Z.to_nat k := f x]> |>).

Definition is_invalid (Handle : Z) : DM Z :=
  n ← DevSize;
  if n <=? Handle then mret (- ENODEV)
  else x ← device Handle; if negb (nz (request x)) then mret (- ENODEV) else mret 0.

(** [strncpy(Name, name, MaxName)] *)
Definition strncpy (s : bytes) (n : Z) : bytes := take (Z.to_nat n) (s ++ zeroes n).

(** [MaxName] is zero also for a null [Name]. Returns the result and what is
    stored: the request function, the identifier and the bytes of the name. *)
Definition fd32_dev_get (Handle MaxName : Z) : DM (Z * option (Z * Z * bytes)) :=
  e ← is_invalid Handle;
  guard_ret (nz e) (- ENODEV, None) (
  x ← device Handle;
  name ← (if nz MaxName then n ← deref (Name x); mret (strncpy n MaxName) else mret []);
  mret (0, Some (request x, DeviceId x, name))).

(** [for (k = DevLast; k != -ENODEV; k = Devices[k].Prev)] *)
Fixpoint search_from (n : nat) (k : Z) (name : bytes) : DM Z :=
  if k =? - ENODEV then mret (- ENODEV)
  else match n with
  | O => nofuel
  | S n =>
      x ← device k;
      s ← deref (Name x);
      if CString.strcasecmp s name =? 0 then mret k else search_from n (Prev x) name
  end.
Definition fd32_dev_search (name : bytes) : DM Z :=
  n ← DevSize; k ← gets DevLast; search_from (Z.to_nat n) k name.

Definition fd32_dev_first : DM Z := gets DevFirst.
Definition fd32_dev_last : DM Z := gets DevLast.
Definition fd32_dev_next (Handle : Z) : DM Z :=
  e ← is_invalid Handle;
  guard_ret (nz e) (- ENODEV) (x ← device Handle; mret (Next x)).
Definition fd32_dev_prev (Handle : Z) : DM Z :=
  e ← is_invalid Handle;
  guard_ret (nz e) (- ENODEV) (x ← device Handle; mret (Prev x)).

(** [for (k = 0; k < DevSize; k++) if (Devices[k].request == NULL) break] *)
Fixpoint unused_from (ds : list tDevice) (k : Z) : Z :=
  match ds with
  | [] => k
  | x :: ds => if negb (nz (request x)) then k else unused_from ds (k + 1)
  end.

(** The array extended by [DEVSIZESTEP] entries: whether there was memory. *)
Definition grow : DM bool :=
  n ← DevSize;
  let OldSize := u32 (n * sizeof_tDevice) in
  let NewSize := u32 ((n + DEVSIZESTEP) * sizeof_tDevice) in
  r ← gets (λ s, kmem_get NewSize (dev_world s));
  modify (λ s, s <| dev_world := snd r |>);;
  if negb (nz (fst r)) then mret false
  else
    old ← gets Devices_at;
    (if nz old then modify (λ s, s <| dev_world := snd (kmem_free old OldSize (dev_world s)) |>)
     else mret ());;
    modify (λ s, s <| Devices_at := fst r |> <| Devices ::= λ ds, ds ++ replicate 20 zero_device |>);;
    mret true.

(** With [DEV_NODUP], which the file defines, a name is registered once. *)
Definition fd32_dev_register (req DeviceId : Z) (name : bytes) : DM Z :=
  same ← fd32_dev_search name;
  guard_ret (0 <=? same) (- EEXIST) (
  k ← gets (λ s, unused_from (Devices s) 0);
  n ← DevSize;
  ok ← (if k =? n then grow else mret true);
  if negb ok then mret (- ENOMEM)
  else
    last ← gets DevLast;
    set_device k (λ x, mkDevice req DeviceId (Some name) last (- ENODEV));;
    (if negb (last =? - ENODEV) then set_device last (λ x, x <| Next := k |>)
     else modify (λ s, s <| DevFirst := k |>));;
    modify (λ s, s <| DevLast := k |>);;
    mret (s32 k)).

Definition fd32_dev_unregister (Handle : Z) : DM Z :=
  e ← is_invalid Handle;
  guard_ret (nz e) (- ENODEV) (
  set_device Handle (λ x, x <| request := 0 |>);;
  x ← device Handle;
  (if negb (Prev x =? - ENODEV) then set_device (Prev x) (λ p, p <| Next := Next x |>)
   else modify (λ s, s <| DevFirst := Next x |>));;
  x ← device Handle;
  (if negb (Next x =? - ENODEV) then set_device (Next x) (λ n, n <| Prev := Prev x |>)
   else modify (λ s, s <| DevLast := Prev x |>));;
  mret 0).

Definition fd32_dev_replace (Handle req id : Z) : DM Z :=
  e ← is_invalid Handle;
  guard_ret (nz e) (- ENODEV) (
  set_device Handle (λ x, x <| request := req |>);;
  set_device Handle (λ x, x <| DeviceId := id |>);;
  mret 0).
End devices.
End Devices.

(** The device manager is a registry: the array and its links represent the
    sequence of the registered devices, and every operation does to it what the
    relation [step] says. *)
Module DevicesSpec.
Import ListH Devices.

(** ** The specification *)

(** Handle, request function, identifier and name, in the order of registration. *)
Definition entry : Type := Z * (Z * Z * bytes).
Implicit Types l : list entry.

Inductive dev_op :=
  | Register (req id : Z) (name : bytes)
  | Unregister (Handle : Z)
  | Replace (Handle req id : Z)
  | Search (name : bytes)
  | First
  | Last
  | NextOf (Handle : Z)
  | PrevOf (Handle : Z).

Definition same_name (n : bytes) (e : entry) : bool := CString.strcasecmp e.2.2 n =? 0.
Definition replaced (h req id : Z) (e : entry) : entry := if decide (e.1 = h) then (h, (req, id, e.2.2)) else e.

(** What the array takes of the memory: the memory itself, the address of the array
    and the count of its entries. *)
Record arena (W : Type) := mkArena { ar_world : W; ar_at : Z; ar_size : Z }.
Arguments mkArena {W}. Arguments ar_world {W}. Arguments ar_at {W}. Arguments ar_size {W}.

Section specification.
Context {W : Type} `{KernelMemory W}.
Implicit Types m : arena W.

(** The array is made longer by [DEVSIZESTEP] entries when [mem_get] gives memory for
    it, and the old one is given back. *)
Definition asked m : Z * W := kmem_get (u32 ((ar_size m + DEVSIZESTEP) * sizeof_tDevice)) (ar_world m).
Definition refused m : arena W := mkArena (asked m).2 (ar_at m) (ar_size m).
Definition extended m : arena W :=
  mkArena (if nz (ar_at m) then snd (kmem_free (ar_at m) (u32 (ar_size m * sizeof_tDevice)) (asked m).2) else (asked m).2)
    (asked m).1 (ar_size m + DEVSIZESTEP).

(** The handle of a new device is the least that is free. *)
Definition least_free l (k : Z) : Prop := 0 ≤ k ∧ k ∉ l.*1 ∧ ∀ j, 0 ≤ j < k → j ∈ l.*1.
Definition unknown (name : bytes) l : Prop := ∀ x, x ∈ l → same_name name x = false.

(** [step o m l r m' l']: the result [r] of the operation [o], and the memory and the
    registry after it. Which of the cases of an operation is taken is determined. *)
Inductive step : dev_op → arena W → list entry → Z → arena W → list entry → Prop :=
  | step_register_twice req id name m l e :
      e ∈ l → same_name name e = true → step (Register req id name) m l (- EEXIST) m l
  | step_register req id name m l k :
      unknown name l → least_free l k → k < ar_size m →
      step (Register req id name) m l k m (l ++ [(k, (req, id, name))])
  | step_register_extend req id name m l :
      unknown name l → least_free l (ar_size m) → (asked m).1 ≠ 0 →
      step (Register req id name) m l (ar_size m) (extended m) (l ++ [(ar_size m, (req, id, name))])
  | step_register_nomem req id name m l :
      unknown name l → least_free l (ar_size m) → (asked m).1 = 0 →
      step (Register req id name) m l (- ENOMEM) (refused m) l
  | step_unregister m l1 h x l2 : step (Unregister h) m (l1 ++ (h, x) :: l2) 0 m (l1 ++ l2)
  | step_unregister_none h m l : h ∉ l.*1 → step (Unregister h) m l (- ENODEV) m l
  | step_replace h req id m l : h ∈ l.*1 → step (Replace h req id) m l 0 m (replaced h req id <$> l)
  | step_replace_none h req id m l : h ∉ l.*1 → step (Replace h req id) m l (- ENODEV) m l
  | step_search name m l1 e l2 :
      same_name name e = true → unknown name l2 → step (Search name) m (l1 ++ e :: l2) e.1 m (l1 ++ e :: l2)
  | step_search_none name m l : unknown name l → step (Search name) m l (- ENODEV) m l
  | step_first m l : step First m l (hd (- ENODEV) l.*1) m l
  | step_last m l : step Last m l (last_or (- ENODEV) l.*1) m l
  | step_next m l1 h x l2 : step (NextOf h) m (l1 ++ (h, x) :: l2) (hd (- ENODEV) l2.*1) m (l1 ++ (h, x) :: l2)
  | step_next_none h m l : h ∉ l.*1 → step (NextOf h) m l (- ENODEV) m l
  | step_prev m l1 h x l2 : step (PrevOf h) m (l1 ++ (h, x) :: l2) (last_or (- ENODEV) l1.*1) m (l1 ++ (h, x) :: l2)
  | step_prev_none h m l : h ∉ l.*1 → step (PrevOf h) m l (- ENODEV) m l.

Inductive steps : list dev_op → arena W → list entry → list Z → arena W → list entry → Prop :=
  | steps_nil m l : steps [] m l [] m l
  | steps_cons o os m l r m' l' rs m'' l'' :
      step o m l r m' l' → steps os m' l' rs m'' l'' → steps (o :: os) m l (r :: rs) m'' l''.
End specification.

(** ** The representation *)

Definition cell (x : tDevice) : ListItem := mkListItem (Prev x) (Next x).
Definition cells_of (ds : list tDevice) : gmap Z ListItem := map_seqZ 0 (cell <$> ds).

Lemma lookup_cells ds k : 0 ≤ k → cells_of ds !! k = cell <$> ds !! Z.to_nat k.
Proof. intros Hk. unfold cells_of. by rewrite lookup_map_seqZ_0, list_lookup_fmap by done. Qed.
Lemma lookup_cells_Some ds k c : cells_of ds !! k = Some c → 0 ≤ k ∧ ∃ x, ds !! Z.to_nat k = Some x ∧ c = cell x.
Proof.
  intros H. pose proof H as [Hk _]%lookup_map_seqZ_Some. split; [done|]. rewrite lookup_cells in H by done.
  apply fmap_Some in H as (x & Hx & ->). eauto.
Qed.
Lemma cells_insert ds k x y :
  0 ≤ k → ds !! Z.to_nat k = Some y → cells_of (<[Z.to_nat k := x]> ds) = <[k := cell x]> (cells_of ds).
Proof.
  intros Hk Hy. apply map_eq. intros j. destruct (decide (0 ≤ j)) as [Hj|Hj].
  - rewrite lookup_cells by done. destruct (decide (j = k)) as [->|Hne].
    + rewrite lookup_insert_eq, list_lookup_insert_eq; [done|]. by eapply lookup_lt_Some.
    + rewrite lookup_insert_ne, lookup_cells by done. rewrite list_lookup_insert_ne by lia. done.
  - rewrite lookup_insert_ne by lia. transitivity (@None ListItem); [|symmetry];
      apply lookup_map_seqZ_None; left; lia.
Qed.

(** Linking at the end, and unlinking, in terms of the cells. *)
Lemma seg_push h p xs y n k :
  seg h p (xs ++ [y]) n → k ∉ xs ++ [y] → NoDup (xs ++ [y]) →
  seg (<[y := mkListItem (last_or p xs) k]> (<[k := mkListItem y n]> h)) p ((xs ++ [y]) ++ [k]) n.
Proof.
  intros Hs Hk Hnd. apply seg_app in Hs as [H1 [H2 _]]. apply NoDup_app in Hnd as (_ & Hd & _).
  assert (k ≠ y) by set_solver. assert (y ∉ xs) by set_solver.
  rewrite <- app_assoc. apply seg_app. cbn. split_and!.
  - apply seg_insert; [done|]. apply seg_insert; [set_solver|done].
  - by rewrite lookup_insert_eq.
  - by rewrite lookup_insert_ne, lookup_insert_eq by done.
  - done.
Qed.

Lemma seg_set_next h p xs y n n' : seg h p (xs ++ [y]) n → y ∉ xs →
  seg (<[y := mkListItem (last_or p xs) n']> h) p (xs ++ [y]) n'.
Proof. intros [H1 [H2 _]]%seg_app Hy. apply seg_app. cbn. split_and!; [by apply seg_insert|by rewrite lookup_insert_eq|done]. Qed.
Lemma seg_set_prev h p p' y ys n : seg h p (y :: ys) n → y ∉ ys →
  seg (<[y := mkListItem p' (hd n ys)]> h) p' (y :: ys) n.
Proof. intros [H1 H2] Hy. cbn. rewrite lookup_insert_eq. split; [done|by apply seg_insert]. Qed.

(** What a device is but for its links. *)
Definition data (x : tDevice) : Z * Z * option bytes := (request x, DeviceId x, Name x).

Lemma data_insert (ds : list tDevice) (k : nat) x : data <$> <[k := x]> ds = <[k := data x]> (data <$> ds).
Proof. apply list_fmap_insert. Qed.
Lemma data_same (ds : list tDevice) (k : nat) x y : ds !! k = Some x → data y = data x → data <$> <[k := y]> ds = data <$> ds.
Proof. intros Hx E. rewrite data_insert, E. apply list_insert_id. by rewrite list_lookup_fmap, Hx. Qed.

Section spec.
Context {W : Type} `{KM : KernelMemory W}.
Implicit Types d : devices W.

Record registry d l : Prop := {
  rg_seg : seg (cells_of (Devices d)) (- ENODEV) l.*1 (- ENODEV);
  rg_first : DevFirst d = hd (- ENODEV) l.*1;
  rg_last : DevLast d = last_or (- ENODEV) l.*1;
  rg_nodup : NoDup l.*1;
  rg_entry k r i n : (k, (r, i, n)) ∈ l → 0 ≤ k ∧ r ≠ 0 ∧ (data <$> Devices d) !! Z.to_nat k = Some (r, i, Some n);
  rg_used j r i n : (data <$> Devices d) !! j = Some (r, i, n) → r ≠ 0 → Z.of_nat j ∈ l.*1 }.

(** The memory of the array. *)
Definition room d : arena W := mkArena (dev_world d) (Devices_at d) (Z.of_nat (length (Devices d))).
Lemma room_insert d (k : nat) x : room (d <| Devices ::= <[k := x]> |>) = room d.
Proof. unfold room. simpl. by rewrite length_insert. Qed.

Lemma registry_used d l j x : registry d l → Devices d !! j = Some x → request x ≠ 0 → Z.of_nat j ∈ l.*1.
Proof. intros R Hx Hn. eapply (rg_used _ _ R j _ (DeviceId x) (Name x)); [by rewrite list_lookup_fmap, Hx|done]. Qed.

Definition run_op (o : dev_op) : M (devices W) Z :=
  match o with
  | Register req id name => fd32_dev_register req id name
  | Unregister h => fd32_dev_unregister h
  | Replace h req id => fd32_dev_replace h req id
  | Search name => fd32_dev_search name
  | First => fd32_dev_first
  | Last => fd32_dev_last
  | NextOf h => fd32_dev_next h
  | PrevOf h => fd32_dev_prev h
  end.

(** Devices have a request function; handles are unsigned. *)
Definition op_ok (o : dev_op) : Prop :=
  match o with
  | Register req _ _ => req ≠ 0
  | Replace h req _ => req ≠ 0 ∧ 0 ≤ h
  | Unregister h | NextOf h | PrevOf h => 0 ≤ h
  | _ => True
  end.

(** ** Handles *)

Lemma registry_handle d l h :
  registry d l → h ∈ l.*1 → 0 ≤ h ∧ ∃ x, Devices d !! Z.to_nat h = Some x ∧ request x ≠ 0.
Proof.
  intros R Hh. apply list_elem_of_fmap in Hh as ([k [[r i] n]] & -> & Hin).
  destruct (rg_entry _ _ R _ _ _ _ Hin) as (H1 & H2 & H3). rewrite list_lookup_fmap in H3.
  apply fmap_Some in H3 as (x & Hx & [= -> _ _]). eauto.
Qed.

Lemma wp_device h x d (Q : tDevice → devices W → Prop) :
  0 ≤ h → Devices d !! Z.to_nat h = Some x → Q x d → wp (device h) Q d.
Proof.
  intros Hh Hx HQ. unfold device. apply wp_bind, wp_gets. rewrite (proj2 (Z.ltb_ge h 0)) by done. by eapply wp_deref.
Qed.
Lemma wp_set_device h x f d (Q : () → devices W → Prop) :
  0 ≤ h → Devices d !! Z.to_nat h = Some x → Q () (d <| Devices ::= <[Z.to_nat h := f x]> |>) → wp (set_device h f) Q d.
Proof. intros Hh Hx HQ. unfold set_device. apply wp_bind. eapply wp_device; [done..|]. by apply wp_modify. Qed.

Lemma wp_is_invalid d l h (Q : Z → devices W → Prop) :
  registry d l → 0 ≤ h → (h ∈ l.*1 → Q 0 d) → (h ∉ l.*1 → Q (- ENODEV) d) → wp (is_invalid h) Q d.
Proof.
  intros R Hh H1 H2. unfold is_invalid, DevSize. apply wp_bind, wp_gets. simpl.
  destruct (Z.leb_spec (Z.of_nat (length (Devices d))) h) as [Hl|Hl].
  - apply wp_ret, H2. intros Hin. destruct (registry_handle _ _ _ R Hin) as (_ & x & Hx & _).
    apply lookup_lt_Some in Hx. lia.
  - destruct (lookup_lt_is_Some_2 (Devices d) (Z.to_nat h)) as [x Hx]; [lia|].
    apply wp_bind. eapply wp_device; [done..|]. destruct (nz (request x)) eqn:En; simpl; apply wp_ret.
    + apply H1. apply nz_true in En. pose proof (registry_used _ _ _ _ R Hx En) as H. by rewrite Z2Nat.id in H.
    + apply H2. intros Hin. apply nz_false in En. destruct (registry_handle _ _ _ R Hin) as (_ & y & Hy & Hn). congruence.
Qed.

Lemma split_handle l h : h ∈ l.*1 → ∃ l1 x l2, l = l1 ++ (h, x) :: l2.
Proof.
  intros H. apply list_elem_of_fmap in H as ([k x] & -> & Hin). apply list_elem_of_split in Hin as (l1 & l2 & ->). eauto.
Qed.

Lemma registry_links d l1 h x l2 : registry d (l1 ++ (h, x) :: l2) →
  0 ≤ h ∧ ∃ y, Devices d !! Z.to_nat h = Some y ∧ Prev y = last_or (- ENODEV) l1.*1 ∧ Next y = hd (- ENODEV) l2.*1.
Proof.
  intros R. pose proof (rg_seg _ _ R) as Hs. rewrite fmap_app, fmap_cons in Hs. apply seg_app in Hs as [_ [Hc _]].
  apply lookup_cells_Some in Hc as (Hh & y & Hy & [= E1 E2]). eauto.
Qed.

(** ** Searching *)

(** The search from the end of a prefix. *)
Lemma wp_search_from n d l2 l1 name (Q : Z → devices W → Prop) :
  registry d (l1 ++ l2) → (length l1 ≤ n)%nat →
  (∀ m1 e m2, l1 = m1 ++ e :: m2 → same_name name e = true → unknown name m2 → Q e.1 d) →
  (unknown name l1 → Q (- ENODEV) d) →
  wp (search_from n (last_or (- ENODEV) l1.*1) name) Q d.
Proof.
  revert l1 l2. induction n as [|n IH]; intros l1 l2 R Hn HS HN; (destruct (list_snoc_case l1) as [->|(l0 & [k [[r i] s]] & ->)];
    [by apply wp_ret, HN; set_solver|rewrite length_app in Hn; simpl in Hn; try lia]).
  rewrite fmap_app. simpl. rewrite last_or_snoc.
  assert ((k, (r, i, s)) ∈ (l0 ++ [(k, (r, i, s))]) ++ l2) as Hin by set_solver.
  destruct (rg_entry _ _ R _ _ _ _ Hin) as (Hk & _ & Hd). rewrite (proj2 (Z.eqb_neq k (- ENODEV))) by (unfold ENODEV; lia).
  rewrite <- app_assoc in R. simpl in R. destruct (registry_links _ _ _ _ _ R) as (_ & y & Hy & Ep & _).
  rewrite list_lookup_fmap, Hy in Hd. injection Hd as _ _ Es. apply wp_bind. eapply wp_device; [done..|].
  apply wp_bind. eapply wp_deref; [exact Es|]. destruct (CString.strcasecmp s name =? 0) eqn:E.
  - apply wp_ret. apply (HS l0 (k, (r, i, s)) []); [done|exact E|set_solver].
  - rewrite Ep. eapply (IH l0 _ R); [lia| |].
    + intros m1 e m2 -> He Hm. apply (HS m1 e (m2 ++ [(k, (r, i, s))])); [by rewrite <- app_assoc|done|].
      intros x [Hx| ->%list_elem_of_singleton]%elem_of_app; [by apply Hm|exact E].
    + intros Hm. apply HN. intros x [Hx| ->%list_elem_of_singleton]%elem_of_app; [by apply Hm|exact E].
Qed.

Lemma registry_length d l : registry d l → (length l ≤ length (Devices d))%nat.
Proof.
  intros R. assert (l.*1 ⊆+ seqZ 0 (Z.of_nat (length (Devices d)))) as Hs.
  { apply NoDup_submseteq; [apply R|]. intros h Hh. destruct (registry_handle _ _ _ R Hh) as (H0 & x & Hx & _).
    apply lookup_lt_Some in Hx. apply elem_of_seqZ. lia. }
  apply submseteq_length in Hs. rewrite length_fmap, length_seqZ, Nat2Z.id in Hs. exact Hs.
Qed.

Lemma wp_search d l name (Q : Z → devices W → Prop) :
  registry d l →
  (∀ l1 e l2, l = l1 ++ e :: l2 → same_name name e = true → unknown name l2 → Q e.1 d) →
  (unknown name l → Q (- ENODEV) d) → wp (fd32_dev_search name) Q d.
Proof.
  intros R HS HN. unfold fd32_dev_search, DevSize. apply wp_bind, wp_gets, wp_bind, wp_gets. rewrite (rg_last _ _ R).
  eapply (wp_search_from _ d [] l); [by rewrite app_nil_r|rewrite Nat2Z.id; by apply registry_length|exact HS|exact HN].
Qed.

(** ** Registration *)

Lemma unused_from_spec ds k0 : ∃ m, unused_from ds k0 = k0 + Z.of_nat m ∧ (m ≤ length ds)%nat ∧
  (∀ j x, (j < m)%nat → ds !! j = Some x → request x ≠ 0) ∧ (∀ x, ds !! m = Some x → request x = 0).
Proof.
  revert k0. induction ds as [|x ds IH]; intros k0; [exists 0%nat; cbn; split_and!; [lia|lia|intros; lia|done]|]. cbn [unused_from].
  destruct (nz (request x)) eqn:En; simpl.
  - apply nz_true in En. destruct (IH (k0 + 1)) as (m & -> & Hm & H1 & H2). exists (S m). split_and!; [lia|lia| |done].
    intros [|j] y Hj Hy; [by injection Hy as <-|]. eapply H1; [|exact Hy]. lia.
  - apply nz_false in En. exists 0%nat. split_and!; [lia|lia|intros; lia|]. by intros y [= <-].
Qed.

(** The array and the ends after a registration in the free entry [k]. *)
Lemma registry_push d d' l k x r i n :
  registry d l → Devices d !! k = Some x → request x = 0 → r ≠ 0 →
  let kz := Z.of_nat k in
  let ds := <[k := mkDevice r i (Some n) (DevLast d) (- ENODEV)]> (Devices d) in
  DevLast d' = kz →
  (DevLast d = - ENODEV ∧ DevFirst d' = kz ∧ Devices d' = ds ∨
   DevLast d ≠ - ENODEV ∧ DevFirst d' = DevFirst d ∧
     ∃ y, ds !! Z.to_nat (DevLast d) = Some y ∧ Devices d' = <[Z.to_nat (DevLast d) := y <| Next := kz |>]> ds) →
  registry d' (l ++ [(kz, (r, i, n))]).
Proof.
  intros R Hx Hx0 Hr kz ds Hl' Hd'.
  assert (kz ∉ l.*1) as Hk.
  { intros Hin. destruct (registry_handle _ _ _ R Hin) as (_ & y & Hy & Hn). unfold kz in Hy. rewrite Nat2Z.id in Hy. congruence. }
  pose proof (cells_insert (Devices d) kz (mkDevice r i (Some n) (DevLast d) (- ENODEV)) x ltac:(lia)) as Hc.
  unfold kz in Hc. rewrite Nat2Z.id in Hc. specialize (Hc Hx). fold kz ds in Hc. unfold cell in Hc. simpl in Hc.
  assert (k < length (Devices d))%nat as Hlt by (by eapply lookup_lt_Some).
  assert (data <$> Devices d' = <[k := (r, i, Some n)]> (data <$> Devices d)) as Ed.
  { destruct Hd' as [(_ & _ & ->)|(_ & _ & y & Hy & ->)]; [apply data_insert|].
    rewrite (data_same ds _ y) by done. apply data_insert. }
  split; rewrite ?fmap_app; simpl.
  - pose proof (rg_seg _ _ R) as Hs. pose proof (rg_last _ _ R) as El.
    destruct Hd' as [(E0 & _ & ->)|(Hne & _ & y & Hy & ->)]; destruct (list_snoc_case l.*1) as [E|(l0 & z & E)];
      rewrite E in *.
    + rewrite Hc. simpl. rewrite lookup_insert_eq. by rewrite E0.
    + rewrite last_or_snoc in El. destruct (registry_handle _ _ z R) as [Hz _]; [rewrite E; set_solver|].
      unfold ENODEV in *. lia.
    + done.
    + rewrite last_or_snoc in El. rewrite El in *. destruct (registry_handle _ _ z R) as [Hz _]; [rewrite E; set_solver|].
      rewrite (cells_insert ds z _ y Hz Hy), Hc. unfold cell at 1. simpl.
      assert (Prev y = last_or (- ENODEV) l0) as Ey.
      { assert (z ≠ kz) as Hzk by set_solver. unfold ds in Hy. rewrite list_lookup_insert_ne in Hy by (unfold kz in Hzk; lia).
        apply seg_app in Hs as [_ [Hcz _]]. apply lookup_cells_Some in Hcz as (_ & y' & Hy' & [= -> _]). congruence. }
      rewrite Ey. apply seg_push; [done|done|]. rewrite <- E. apply R.
  - destruct Hd' as [(E0 & -> & _)|(Hne & -> & _)].
    + rewrite (rg_last _ _ R) in E0. destruct (list_snoc_case l.*1) as [->|(l0 & z & E)]; [done|].
      rewrite E, last_or_snoc in E0. destruct (registry_handle _ _ z R) as [Hz _]; [rewrite E; set_solver|]. unfold ENODEV in *. lia.
    + rewrite (rg_first _ _ R). rewrite (rg_last _ _ R) in Hne. by destruct (l.*1).
  - by rewrite last_or_snoc.
  - apply NoDup_app. split_and!; [apply R|set_solver|apply NoDup_singleton].
  - intros j r' i' n' [Hin|Hin%list_elem_of_singleton]%elem_of_app; rewrite Ed.
    + destruct (rg_entry _ _ R _ _ _ _ Hin) as (Hj & Hr' & Hz). split_and!; [done|done|].
      assert (j ≠ kz) as Hne by (intros ->; apply Hk; apply list_elem_of_fmap; by exists (kz, (r', i', n'))).
      rewrite list_lookup_insert_ne by (unfold kz in Hne; lia). done.
    + injection Hin as -> -> -> ->. split_and!; [lia|done|]. unfold kz. rewrite Nat2Z.id.
      apply list_lookup_insert_eq. by rewrite length_fmap.
  - intros j r' i' n' Hj Hn. apply elem_of_app. destruct (decide (j = k)) as [->|Hne]; [right; by left|left].
    rewrite Ed, list_lookup_insert_ne in Hj by done. by eapply (rg_used _ _ R).
Qed.

Lemma registry_grow d l m w a :
  registry d l → registry (d <| Devices ::= λ ds, ds ++ replicate m zero_device |> <| dev_world := w |> <| Devices_at := a |>) l.
Proof.
  intros [R1 R2 R3 R4 R5 R6]. split; simpl; try done.
  - eapply seg_frame; [|exact R1]. intros k Hk. destruct (decide (0 ≤ k)) as [H0|H0].
    + rewrite !lookup_cells by done. rewrite lookup_app_l; [done|]. apply list_elem_of_fmap in Hk as ([k' [[r i] n]] & -> & Hin).
      destruct (R5 _ _ _ _ Hin) as (_ & _ & Hx). apply lookup_lt_Some in Hx. by rewrite length_fmap in Hx.
    + transitivity (@None ListItem); [|symmetry]; apply lookup_map_seqZ_None; lia.
  - intros k r i n Hin. destruct (R5 _ _ _ _ Hin) as (H1 & H2 & Hx). split_and!; [done|done|].
    rewrite fmap_app. by apply lookup_app_l_Some.
  - intros j r i n Hj Hn. rewrite fmap_app in Hj. apply lookup_app_Some in Hj as [Hj|[_ Hj]]; [by eapply R6|].
    rewrite fmap_replicate in Hj. apply lookup_replicate in Hj as [[= -> _ _] _]. done.
Qed.

Lemma wp_grow d (Q : bool → devices W → Prop) :
  ((asked (room d)).1 = 0 → Q false (d <| dev_world := (asked (room d)).2 |>)) →
  ((asked (room d)).1 ≠ 0 →
    Q true (d <| Devices ::= λ ds, ds ++ replicate 20 zero_device |> <| dev_world := ar_world (extended (room d)) |>
              <| Devices_at := (asked (room d)).1 |>)) →
  wp grow Q d.
Proof.
  intros HF HT. unfold grow, DevSize. apply wp_bind, wp_gets, wp_bind, wp_gets, wp_bind, wp_modify.
  change (kmem_get _ (dev_world d)) with (asked (room d)). destruct (nz (asked (room d)).1) eqn:En; simpl.
  2: { apply wp_ret, HF. by apply nz_false. }
  apply wp_bind, wp_gets, wp_bind. apply nz_true in En. specialize (HT En). unfold extended in HT.
  change (ar_at (room d)) with (Devices_at d) in HT.
  simpl. destruct (nz (Devices_at d)); [apply wp_modify|apply wp_ret]; apply wp_bind, wp_modify, wp_ret; exact HT.
Qed.

Lemma wp_fill d l k x r i n (Q : Z → devices W → Prop) :
  registry d l → Devices d !! k = Some x → request x = 0 → r ≠ 0 → Z.of_nat k < 2 ^ 31 →
  (∀ d', registry d' (l ++ [(Z.of_nat k, (r, i, n))]) → room d' = room d → Q (Z.of_nat k) d') →
  wp (last ← gets DevLast;
      set_device (Z.of_nat k) (λ _, mkDevice r i (Some n) last (- ENODEV));;
      (if negb (last =? - ENODEV) then set_device last (λ x, x <| Next := Z.of_nat k |>)
       else modify (λ s, s <| DevFirst := Z.of_nat k |>));;
      modify (λ s, s <| DevLast := Z.of_nat k |>);;
      mret (s32 (Z.of_nat k))) Q d.
Proof.
  intros R Hx H0 Hr Hk HQ. apply wp_bind, wp_gets, wp_bind.
  eapply wp_set_device; [lia|by rewrite Nat2Z.id|]. rewrite Nat2Z.id. apply wp_bind.
  set (ds := <[k := mkDevice r i (Some n) (DevLast d) (- ENODEV)]> (Devices d)).
  destruct (Z.eqb_spec (DevLast d) (- ENODEV)) as [E|E]; simpl.
  - apply wp_modify, wp_bind, wp_modify, wp_ret. rewrite s32_small by lia.
    apply HQ; [|unfold room; simpl; by rewrite length_insert].
    eapply registry_push; [done..|]. left. done.
  - assert (DevLast d ∈ l.*1) as Hin.
    { rewrite (rg_last _ _ R) in E |- *. by destruct (last_or_elem (- ENODEV) l.*1) as [El|]; [rewrite El in E|]. }
    destruct (registry_handle _ _ _ R Hin) as (Hl & y & Hy & Hyn).
    assert (Z.to_nat (DevLast d) ≠ k) as Hne by (intros Ek; rewrite Ek in Hy; congruence).
    eapply wp_set_device; [done|simpl; rewrite list_lookup_insert_ne by done; exact Hy|].
    apply wp_bind, wp_modify, wp_ret. rewrite s32_small by lia.
    apply HQ; [|unfold room; simpl; by rewrite !length_insert].
    eapply registry_push; [done..|]. right. split_and!; [done|done|]. exists y. split; [by rewrite list_lookup_insert_ne|done].
Qed.

(** The entry that is found: the first with no request function. *)
Lemma unused_least d l m :
  registry d l → (∀ j x, (j < m)%nat → Devices d !! j = Some x → request x ≠ 0) → (∀ x, Devices d !! m = Some x → request x = 0) →
  (m ≤ length (Devices d))%nat → least_free l (Z.of_nat m).
Proof.
  intros R H1 H2 Hlen. split_and!; [lia| |].
  - intros Hin. destruct (registry_handle _ _ _ R Hin) as (_ & x & Hx & Hn). rewrite Nat2Z.id in Hx. by rewrite (H2 x Hx) in Hn.
  - intros j Hj. destruct (lookup_lt_is_Some_2 (Devices d) (Z.to_nat j)) as [x Hx]; [lia|].
    pose proof (registry_used _ _ _ _ R Hx) as H. rewrite Z2Nat.id in H by lia. apply H, (H1 (Z.to_nat j)); [lia|done].
Qed.

Lemma wp_register d l r i n (Q : Z → devices W → Prop) :
  registry d l → r ≠ 0 → Z.of_nat (length (Devices d)) + 20 < 2 ^ 31 →
  (∀ k d' l', step (Register r i n) (room d) l k (room d') l' → registry d' l' →
     ar_size (room d') ≤ ar_size (room d) + 20 → Q k d') →
  wp (fd32_dev_register r i n) Q d.
Proof.
  intros R Hr Hm HQ. unfold fd32_dev_register, guard_ret. apply wp_bind, (wp_search d l); [done| |].
  { intros l1 e l2 El He _. destruct e as [k [[r0 i0] n0]]. assert (Hin : (k, (r0, i0, n0)) ∈ l) by (rewrite El; set_solver).
    destruct (rg_entry _ _ R _ _ _ _ Hin) as [Hk _]. cbn [fst]. rewrite (proj2 (Z.leb_le _ _)) by done. apply wp_ret.
    eapply HQ; [by eapply step_register_twice|done|lia]. }
  intros Hu. change (0 <=? - ENODEV) with false. cbn match. unfold DevSize. apply wp_bind, wp_gets, wp_bind, wp_gets, wp_bind.
  destruct (unused_from_spec (Devices d) 0) as (m & -> & Hlen & H1 & H2). rewrite Z.add_0_l.
  pose proof (unused_least d l m R H1 H2 Hlen) as Hleast.
  destruct (Z.eqb_spec (Z.of_nat m) (Z.of_nat (length (Devices d)))) as [E|E].
  - rewrite E in Hleast. apply wp_grow; intros Ha.
    + apply wp_ret. eapply HQ; [by apply (step_register_nomem _ _ _ (room d))| |simpl; lia]. by destruct R.
    + simpl. apply (wp_fill _ l m zero_device); [apply (registry_grow d l 20), R| |done|done|lia|].
      * simpl. rewrite lookup_app_r by lia. by replace (m - length (Devices d))%nat with 0%nat by lia.
      * intros d' R' E'. assert (Er : room d' = extended (room d)).
        { rewrite E'. unfold room. simpl. rewrite length_app. unfold extended. f_equal. simpl. unfold DEVSIZESTEP. lia. }
        rewrite E in *. eapply HQ; [rewrite Er; by apply (step_register_extend _ _ _ (room d))|done|rewrite Er; done].
  - apply wp_ret. simpl. destruct (lookup_lt_is_Some_2 (Devices d) m) as [x Hx]; [lia|].
    apply (wp_fill d l m x); [done|done|by apply H2|done|lia|]. intros d' R' E'.
    eapply HQ; [rewrite E'; apply step_register; [done|done|simpl; lia]|done|rewrite E'; lia].
Qed.

(** ** Removal *)

(** The two halves of unlinking: what comes before is linked to [nx], what comes
    after to [pv]. *)
Definition outside (ks : list Z) d d' : Prop := ∀ k, k ∉ ks → cells_of (Devices d') !! k = cells_of (Devices d) !! k.

Lemma hd_snoc {A} (x y : A) (xs : list A) : hd x (xs ++ [y]) = hd y xs.
Proof. by destruct xs. Qed.

Lemma wp_join_next d ks e nx (Q : () → devices W → Prop) :
  seg (cells_of (Devices d)) (- ENODEV) ks e → NoDup ks → (∀ k, k ∈ ks → 0 ≤ k) → DevFirst d = hd e ks →
  (∀ d', seg (cells_of (Devices d')) (- ENODEV) ks nx → outside ks d d' → DevFirst d' = hd nx ks → DevLast d' = DevLast d →
     data <$> Devices d' = data <$> Devices d → room d' = room d → Q () d') →
  wp (if negb (last_or (- ENODEV) ks =? - ENODEV) then set_device (last_or (- ENODEV) ks) (λ p, p <| Next := nx |>)
      else modify (λ s, s <| DevFirst := nx |>)) Q d.
Proof.
  intros Hs Hnd H0 Hf HQ. destruct (list_snoc_case ks) as [->|(l0 & p & ->)]; [apply wp_modify; apply HQ; done|].
  rewrite last_or_snoc. pose proof (H0 p ltac:(set_solver)) as Hp. rewrite (proj2 (Z.eqb_neq p (- ENODEV))) by (unfold ENODEV; lia).
  pose proof Hs as [_ [Hc _]]%seg_app. apply lookup_cells_Some in Hc as (_ & y & Hy & [= E1 _]).
  apply NoDup_app in Hnd as (_ & Hd & _). eapply wp_set_device; [done|exact Hy|].
  assert (cells_of (<[Z.to_nat p := y <| Next := nx |>]> (Devices d)) = <[p := mkListItem (last_or (- ENODEV) l0) nx]> (cells_of (Devices d))) as Ec.
  { rewrite (cells_insert _ p _ y) by done. unfold cell. simpl. by rewrite <- E1. }
  simpl in Ec.
  apply HQ; simpl; rewrite ?hd_snoc in *; try done.
  - rewrite Ec. eapply seg_set_next; [exact Hs|]. set_solver.
  - intros k Hk. simpl. rewrite Ec. apply lookup_insert_ne. set_solver.
  - by eapply data_same.
  - apply room_insert.
Qed.

Lemma wp_join_prev d ks e pv (Q : () → devices W → Prop) :
  seg (cells_of (Devices d)) e ks (- ENODEV) → NoDup ks → (∀ k, k ∈ ks → 0 ≤ k) → DevLast d = last_or e ks →
  (∀ d', seg (cells_of (Devices d')) pv ks (- ENODEV) → outside ks d d' → DevLast d' = last_or pv ks → DevFirst d' = DevFirst d →
     data <$> Devices d' = data <$> Devices d → room d' = room d → Q () d') →
  wp (if negb (hd (- ENODEV) ks =? - ENODEV) then set_device (hd (- ENODEV) ks) (λ n, n <| Prev := pv |>)
      else modify (λ s, s <| DevLast := pv |>)) Q d.
Proof.
  intros Hs Hnd H0 Hl HQ. destruct ks as [|n ks]; [apply wp_modify; apply HQ; done|]. cbn [hd].
  pose proof (H0 n ltac:(by left)) as Hn. rewrite (proj2 (Z.eqb_neq n (- ENODEV))) by (unfold ENODEV; lia).
  pose proof Hs as [Hc _]. apply lookup_cells_Some in Hc as (_ & y & Hy & [= _ E2]).
  apply NoDup_cons in Hnd as [Hd _]. eapply wp_set_device; [done|exact Hy|].
  assert (cells_of (<[Z.to_nat n := y <| Prev := pv |>]> (Devices d)) = <[n := mkListItem pv (hd (- ENODEV) ks)]> (cells_of (Devices d))) as Ec.
  { rewrite (cells_insert _ n _ y) by done. unfold cell. simpl. by rewrite <- E2. }
  simpl in Ec.
  apply HQ; simpl; rewrite ?last_or_cons in *; try done.
  - rewrite Ec. eapply seg_set_prev; [exact Hs|done].
  - intros k Hk. simpl. rewrite Ec. apply lookup_insert_ne. set_solver.
  - by eapply data_same.
  - apply room_insert.
Qed.

Lemma wp_unregister d l1 h x l2 (Q : Z → devices W → Prop) :
  registry d (l1 ++ (h, x) :: l2) →
  (∀ d', registry d' (l1 ++ l2) → room d' = room d → Q 0 d') → wp (fd32_dev_unregister h) Q d.
Proof.
  intros R HQ. destruct (registry_links _ _ _ _ _ R) as (Hh & y & Hy & Ep & En).
  pose proof (rg_nodup _ _ R) as Hnd. pose proof (rg_seg _ _ R) as Hs. pose proof (rg_first _ _ R) as Hf. pose proof (rg_last _ _ R) as Hl.
  rewrite fmap_app, fmap_cons in Hnd, Hs, Hf, Hl. simpl in *. apply seg_app in Hs as [Hs1 [_ Hs2]]. cbn [hd] in Hs1.
  rewrite last_or_app, last_or_cons in Hl. apply NoDup_app in Hnd as (Hnd1 & Hdis & [Hh2 Hnd2]%NoDup_cons).
  assert (∀ k, k ∈ l1.*1 ∨ k ∈ l2.*1 → 0 ≤ k) as H0.
  { intros k Hk. eapply (registry_handle _ _ _ R). rewrite fmap_app, fmap_cons. set_solver. }
  unfold fd32_dev_unregister, guard_ret. apply wp_bind. eapply wp_is_invalid; [exact R|done| |].
  2: { intros Hn. destruct Hn. rewrite fmap_app, fmap_cons. set_solver. }
  intros _. simpl. apply wp_bind. eapply wp_set_device; [done..|].
  set (d1 := d <| Devices ::= _ |>). assert (Devices d1 !! Z.to_nat h = Some (y <| request := 0 |>)) as Hy1
    by (apply list_lookup_insert_eq; by eapply lookup_lt_Some).
  assert (∀ k, cells_of (Devices d1) !! k = cells_of (Devices d) !! k) as Ec.
  { intros k. simpl. rewrite (cells_insert _ h _ y) by done. destruct (decide (k = h)) as [->|Hne].
    - by rewrite lookup_insert_eq, lookup_cells, Hy.
    - by apply lookup_insert_ne. }
  apply wp_bind. eapply wp_device; [done|exact Hy1|]. apply wp_bind. cbn [Prev Next]. simpl. rewrite Ep, En.
  eapply (wp_join_next d1 l1.*1 h); [by eapply seg_frame; [intros; apply Ec|exact Hs1]|done|by auto|by destruct (l1.*1)|].
  intros d2 Hs12 Ho2 Hf2 Hl2 Ed2 Er2.
  assert (Devices d2 !! Z.to_nat h = Some (y <| request := 0 |>)) as Hy2.
  { assert (h ∉ l1.*1) as Hh1 by set_solver. pose proof (Ho2 h Hh1) as E. rewrite Ec, !lookup_cells, Hy in E by done.
    apply fmap_Some in E as (z & Hz & E). assert ((data <$> Devices d2) !! Z.to_nat h = Some (data (y <| request := 0 |>))) as E'
      by (by rewrite Ed2, list_lookup_fmap, Hy1). rewrite list_lookup_fmap, Hz in E'. rewrite Hz. f_equal.
    destruct z, y. unfold cell, data in *. simpl in *. congruence. }
  apply wp_bind. eapply wp_device; [done|exact Hy2|]. apply wp_bind. simpl. rewrite Ep, En.
  eapply (wp_join_prev d2 l2.*1 h); [|done|by auto|by rewrite Hl2|].
  { eapply seg_frame; [|exact Hs2]. intros k Hk. rewrite Ho2 by set_solver. apply Ec. }
  intros d3 Hs3 Ho3 Hl3 Hf3 Ed3 Er3. apply wp_ret.
  assert (data <$> Devices d3 = <[Z.to_nat h := data (y <| request := 0 |>)]> (data <$> Devices d)) as Ed
    by (rewrite Ed3, Ed2; apply data_insert).
  apply HQ; [split; rewrite ?fmap_app|].
  - apply seg_app. split; [|exact Hs3]. eapply seg_frame; [|exact Hs12]. intros k Hk. apply Ho3. set_solver.
  - rewrite Hf3, Hf2. by destruct (l1.*1).
  - by rewrite Hl3, last_or_app.
  - apply NoDup_app. split_and!; [done|set_solver|done].
  - intros k r i n Hin. destruct (rg_entry _ _ R k r i n) as (H1 & H2 & H3); [set_solver|]. split_and!; [done|done|].
    rewrite Ed, list_lookup_insert_ne; [done|]. intros E. assert (k = h) as -> by lia.
    apply elem_of_app in Hin as [Hin|Hin]; apply (list_elem_of_fmap_2 fst) in Hin; simpl in Hin; set_solver.
  - intros j r i n Hj Hn. rewrite Ed in Hj. destruct (decide (j = Z.to_nat h)) as [->|Hne].
    + rewrite list_lookup_insert_eq in Hj by (rewrite length_fmap; by eapply lookup_lt_Some). by injection Hj as <- _ _.
    + rewrite list_lookup_insert_ne in Hj by done. pose proof (rg_used _ _ R _ _ _ _ Hj Hn) as Hin.
      rewrite fmap_app, fmap_cons in Hin. simpl in Hin. apply elem_of_app. apply elem_of_app in Hin as [?|[E|?]%elem_of_cons]; [by left|lia|by right].
  - rewrite Er3, Er2. apply room_insert.
Qed.

(** ** The other operations *)

Lemma elem_of_handles l k x : (k, x) ∈ l → k ∈ l.*1.
Proof. intros H. apply list_elem_of_fmap. by exists (k, x). Qed.
Lemma handles_replaced h req id l : (replaced h req id <$> l).*1 = l.*1.
Proof.
  rewrite <- list_fmap_compose. apply list_fmap_ext. intros i [k x] _. unfold replaced. simpl. by case_decide; subst.
Qed.
Lemma handle_unique l k x y : NoDup l.*1 → (k, x) ∈ l → (k, y) ∈ l → x = y.
Proof.
  intros Hnd H1 H2. apply list_elem_of_lookup in H1 as [i Hi], H2 as [j Hj].
  assert (i = j) as -> by (eapply NoDup_lookup; [exact Hnd| |]; rewrite list_lookup_fmap; [rewrite Hi|rewrite Hj]; done).
  congruence.
Qed.

Lemma wp_replace d l h req id (Q : Z → devices W → Prop) :
  registry d l → req ≠ 0 → h ∈ l.*1 →
  (∀ d', registry d' (replaced h req id <$> l) → room d' = room d → Q 0 d') →
  wp (fd32_dev_replace h req id) Q d.
Proof.
  intros R Hr Hin HQ. destruct (registry_handle _ _ _ R Hin) as (Hh & x & Hx & Hx0). unfold fd32_dev_replace, guard_ret.
  apply wp_bind. eapply wp_is_invalid; [exact R|done| |done]. intros _. simpl. apply wp_bind.
  eapply wp_set_device; [done..|]. apply wp_bind. assert (Z.to_nat h < length (Devices d))%nat as Hlt by (by eapply lookup_lt_Some).
  eapply wp_set_device; [done|simpl; by apply list_lookup_insert_eq|]. apply wp_ret. simpl. rewrite list_insert_insert_eq.
  set (x' := mkDevice req id (Name x) (Prev x) (Next x)). change (mkDevice req id _ _ _) with x'.
  assert (data <$> <[Z.to_nat h := x']> (Devices d) = <[Z.to_nat h := (req, id, Name x)]> (data <$> Devices d)) as Ed by apply data_insert.
  assert (∀ k, cells_of (<[Z.to_nat h := x']> (Devices d)) !! k = cells_of (Devices d) !! k) as Ec.
  { intros k. rewrite (cells_insert _ h _ x) by done. destruct (decide (k = h)) as [->|Hne]; [|by apply lookup_insert_ne].
    by rewrite lookup_insert_eq, lookup_cells, Hx. }
  apply HQ; [|by apply room_insert]. split; rewrite ?handles_replaced; simpl; try apply R.
  - eapply seg_frame; [|apply R]. intros k _. apply Ec.
  - intros k r i n ([k0 [[r0 i0] n0]] & E & Hin0)%list_elem_of_fmap. rewrite Ed. unfold replaced in E. simpl in E.
    destruct (rg_entry _ _ R _ _ _ _ Hin0) as (H1 & H2 & H3). case_decide as Ek.
    + injection E as -> -> -> ->. subst k0. split_and!; [done|done|]. rewrite list_lookup_insert_eq by (by rewrite length_fmap).
      rewrite list_lookup_fmap, Hx in H3. simpl in H3. unfold data in H3. congruence.
    + injection E as -> -> -> ->. split_and!; [done|done|]. rewrite list_lookup_insert_ne by lia. done.
  - intros j r i n Hj Hn. rewrite Ed in Hj. destruct (decide (j = Z.to_nat h)) as [->|Hne]; [by rewrite Z2Nat.id|].
    rewrite list_lookup_insert_ne in Hj by done. by eapply (rg_used _ _ R).
Qed.

(** ** Simulation *)

(** An operation that leaves the memory of the array alone. *)
Definition keeps (o : dev_op) d l (Q : Z → devices W → Prop) : Prop :=
  ∀ r l' d', step o (room d) l r (room d) l' → registry d' l' → room d' = room d → Q r d'.

Lemma wp_next_prev d l h (next : bool) (Q : Z → devices W → Prop) :
  registry d l → 0 ≤ h → keeps (if next then NextOf h else PrevOf h) d l Q →
  wp (if next then fd32_dev_next h else fd32_dev_prev h) Q d.
Proof.
  intros R Hh HQ. destruct next; [unfold fd32_dev_next|unfold fd32_dev_prev]; apply wp_bind;
    (eapply wp_is_invalid; [exact R|done| |intros Hn; apply wp_ret; eapply HQ; [by constructor|done|done]]); intros Hin; simpl;
    apply split_handle in Hin as (l1 & x & l2 & ->); destruct (registry_links _ _ _ _ _ R) as (_ & y & Hy & Ep & En);
    (apply wp_bind; eapply wp_device; [done..|]); apply wp_ret; (eapply HQ; [rewrite ?En, ?Ep; constructor|done|done]).
Qed.

Lemma wp_unregister_op d l h (Q : Z → devices W → Prop) :
  registry d l → 0 ≤ h → keeps (Unregister h) d l Q → wp (fd32_dev_unregister h) Q d.
Proof.
  intros R Hh HQ. destruct (decide (h ∈ l.*1)) as [Hin|Hn].
  - apply split_handle in Hin as (l1 & x & l2 & ->). eapply wp_unregister; [done|].
    intros d' R' E. eapply HQ; [by constructor|done|done].
  - unfold fd32_dev_unregister. apply wp_bind. eapply wp_is_invalid; [exact R|done|done|]. intros _. apply wp_ret.
    eapply HQ; [by apply step_unregister_none|done|done].
Qed.

Lemma wp_replace_op d l h req id (Q : Z → devices W → Prop) :
  registry d l → req ≠ 0 → 0 ≤ h → keeps (Replace h req id) d l Q → wp (fd32_dev_replace h req id) Q d.
Proof.
  intros R Hr Hh HQ. destruct (decide (h ∈ l.*1)) as [Hin|Hn].
  - apply (wp_replace d l); [done..|]. intros d' R' E. eapply HQ; [by constructor|done|done].
  - unfold fd32_dev_replace. apply wp_bind. eapply wp_is_invalid; [exact R|done|done|]. intros _. apply wp_ret.
    eapply HQ; [by apply step_replace_none|done|done].
Qed.

Lemma wp_run_op d l o (Q : Z → devices W → Prop) :
  registry d l → op_ok o → Z.of_nat (length (Devices d)) + 20 < 2 ^ 31 →
  (∀ r l' d', step o (room d) l r (room d') l' → registry d' l' → ar_size (room d') ≤ ar_size (room d) + 20 → Q r d') →
  wp (run_op o) Q d.
Proof.
  intros R Ho Hm HQ.
  assert (Hkeeps : keeps o d l Q) by (intros r l' d' Hs R' E; eapply HQ; [by rewrite E|done|rewrite E; lia]).
  destruct o as [req id name|h|h req id|name| | |h|h]; cbn [run_op op_ok] in *.
  - apply (wp_register d l); [done..|]. intros k d' l' Hs R' Hd. by eapply HQ.
  - by apply (wp_unregister_op d l).
  - destruct Ho as [Hr Hh]. by apply (wp_replace_op d l).
  - apply (wp_search d l); [done| |].
    + intros l1 e l2 -> He Hu. by eapply Hkeeps; [apply step_search|..].
    + intros Hu. by eapply Hkeeps; [apply step_search_none|..].
  - apply wp_gets. rewrite (rg_first _ _ R). eapply Hkeeps; [constructor|done|done].
  - apply wp_gets. rewrite (rg_last _ _ R). eapply Hkeeps; [constructor|done|done].
  - by apply (wp_next_prev d l h true).
  - by apply (wp_next_prev d l h false).
Qed.

Fixpoint run_ops (os : list dev_op) : M (devices W) (list Z) :=
  match os with
  | [] => mret []
  | o :: os => r ← run_op o; rs ← run_ops os; mret (r :: rs)
  end.

Lemma wp_run_ops os d l :
  registry d l → Forall op_ok os → Z.of_nat (length (Devices d)) + 20 * Z.of_nat (length os) < 2 ^ 31 →
  wp (run_ops os) (λ rs d', ∃ l', steps os (room d) l rs (room d') l' ∧ registry d' l') d.
Proof.
  revert d l. induction os as [|o os IH]; intros d l R Ho Hm; [apply wp_ret; exists l; split; [constructor|done]|].
  apply Forall_cons in Ho as [Ho Hos]. cbn [length run_ops] in *. apply wp_bind. eapply wp_run_op; [done|done|lia|].
  intros r l' d' Hs R' Hd. apply wp_bind. unfold room in Hd. simpl in Hd. eapply wp_mono; [|eapply (IH d' l'); [done|done|lia]].
  intros rs d'' (l'' & Hss & R''). apply wp_ret. exists l''. split; [by econstructor|done].
Qed.

(** The manager before any registration. *)
Definition no_devices (w : W) : devices W := mkDevices w (- ENODEV) (- ENODEV) 0 [].
Lemma no_devices_registry w : registry (no_devices w) [].
Proof. split; try done; [constructor|set_solver]. Qed.
End spec.

(** * Theorems *)

(** C19: the device manager implements a registry of named devices: every sequence of
    registrations, removals, replacements, searches and steps to the next or the
    previous device, from the empty table on, ends, without accesses outside the array,
    with the results and the registry the specification determines. A name is
    registered once without regard to case, -EEXIST being returned otherwise, under the
    least handle that is free; -ENOMEM is returned exactly when the array is full and
    the kernel has no memory for a longer one. *)
Theorem devices_refine {W} `{KernelMemory W} w os :
  Forall op_ok os → Z.of_nat (length os) < 2 ^ 26 →
  ∃ rs d' l', run_ops os (no_devices w) = Done rs d' ∧ steps os (mkArena w 0 0) [] rs (room d') l' ∧ registry d' l'.
Proof.
  intros Ho Hm.
  assert (wp (run_ops os) (λ rs d', ∃ l', steps os (mkArena w 0 0) [] rs (room d') l' ∧ registry d' l') (no_devices w)) as Hwp.
  { apply (wp_run_ops os (no_devices w) []); [apply no_devices_registry|done|]. unfold no_devices. simpl. lia. }
  apply wp_done in Hwp as (rs & d' & Hr & l' & Hs). eauto 6.
Qed.

Module Example.
#[export] Instance counting_memory : KernelMemory Z := { kmem_get n w := (w, w + n); kmem_free _ _ w := (0, w) }.
End Example.
Import Example.

(** [con] and [hd] are registered, [CON] is not, until [con] has been removed. *)
Lemma devices_refine_witness :
  let os := [Register 1 0 [99; 111; 110]; Register 2 7 [104; 100]; Register 3 0 [67; 79; 78]; Search [67; 111; 110];
             Unregister 0; Search [99; 79; 110]; Register 4 0 [67; 79; 78]; NextOf 1] in
  ∃ rs d' l', run_ops os (no_devices 4096) = Done rs d' ∧ steps os (mkArena 4096 0 0) [] rs (room d') l' ∧
    rs = [0; 1; - EEXIST; 0; 0; - ENODEV; 0; 0].
Proof.
  intros os. destruct (devices_refine 4096 os) as (rs & d' & l' & H & Hs & _);
    [repeat constructor; discriminate|vm_compute; reflexivity|].
  exists rs, d', l'. split; [exact H|]. split; [exact Hs|].
  assert (match run_ops os (no_devices 4096) with Done r _ => r = [0; 1; - EEXIST; 0; 0; - ENODEV; 0; 0] | _ => False end) as E
    by (vm_compute; reflexivity).
  rewrite H in E. exact E.
Defined.
End DevicesSpec.
