(* ===== verification/Pmm.v ===== *)
(** The physical memory manager ([src/fd32/kernel/pmm.c], [pmm.h]) and the
    kernel's memory pools on top of it ([src/fd32/boot/mem.c]).

    A pool is a singly linked list of free chunks threaded through the free
    memory itself: the first two words of a chunk are the pointer to the next
    chunk and the size. Memory is a map from addresses to 32-bit words; reading
    a word that was never written is a fault. Words are assumed not to overlap
    partially, which holds for the 8-byte aligned requests [mem.c] makes. *)
From S2P Require Import Prelude.
Module Pmm.
(** [struct memheader] at address [p]: [next] is the word at [p], [size] the
    word at [p + 4]. [Top] is the address of the header in the pool object. *)
Inductive hptr := Top | Chunk (p : Z).

Record mempool := mkPool { top_next : Z; top_size : Z; mem : gmap Z Z }.
#[export] Instance mempool_eta : Eta mempool :=
  λ r, mkPool (top_next r) (top_size r) (mem r).

Definition sizeof_memheader : Z := 8.

Definition get_next (h : hptr) : M mempool Z :=
  match h with
  | Top => gets top_next
  | Chunk p => w ← gets (λ s, mem s !! p); deref w
  end.
Definition set_next (h : hptr) (v : Z) : M mempool () :=
  match h with
  | Top => modify (λ s, s <| top_next := v |>)
  | Chunk p => modify (λ s, s <| mem ::= <[p := v]> |>)
  end.
Definition get_size (p : Z) : M mempool Z :=
  w ← gets (λ s, mem s !! (p + 4)); deref w.
Definition set_size (p v : Z) : M mempool () :=
  modify (λ s, s <| mem ::= <[p + 4 := v]> |>).
Definition sub_top (n : Z) : M mempool () :=
  modify (λ s, s <| top_size := u32 (top_size s - n) |>).

Definition pmm_init : M mempool () :=
  modify (λ s, s <| top_size := 0 |>);;
  modify (λ s, s <| top_next := 0 |>).

(** The loops [for (pprev = &mp->top, p = pprev->next; p != 0; pprev = p, p =
    pprev->next)]: [fuel] bounds the chunks visited. *)
Fixpoint pmm_alloc_address_from (fuel : nat) (pprev : hptr) (p base size : Z) : M mempool Z :=
  if negb (nz p) then mret (-1)
  else match fuel with
  | O => nofuel
  | S fuel =>
      let start := p in
      psize ← get_size p;
      let end_ := u32 (start + psize) in
      if (base <=? u32 (end_ - size)) && (start <=? base) then
        let lsize := u32 (base - start) in
        q ← (if lsize <? sizeof_memheader then
               sub_top lsize;;
               n ← get_next (Chunk p); set_next pprev n;; mret pprev
             else
               set_size start lsize;;
               n ← get_next (Chunk p); set_next (Chunk start) n;;
               set_next pprev start;; mret (Chunk start));
        let lsize := u32 (end_ - u32 (base + size)) in
        (if lsize <? sizeof_memheader then sub_top lsize
         else
           let pnew := u32 (base + size) in
           set_size pnew lsize;;
           n ← get_next q; set_next (Chunk pnew) n;;
           set_next q pnew);;
        sub_top size;;
        mret 1
      else n ← get_next (Chunk p); pmm_alloc_address_from fuel (Chunk p) n base size
  end.

Definition pmm_alloc_address (fuel : nat) (base size : Z) : M mempool Z :=
  p ← get_next Top; pmm_alloc_address_from fuel Top p base size.

Fixpoint pmm_alloc_from_from (fuel : nat) (pprev : hptr) (p base size : Z) : M mempool Z :=
  if negb (nz p) then mret 0
  else match fuel with
  | O => nofuel
  | S fuel =>
      let start := p in
      psize ← get_size p;
      let end_ := u32 (start + psize) in
      let new_start := u32 (end_ - size) in
      if (start <=? new_start) && (base <=? new_start) then
        let '(new_start, pnew, lsize) :=
          if base <=? start then
            (start, u32 (start + size), u32 (end_ - u32 (start + size)))
          else (new_start, start, u32 (new_start - start)) in
        n ← get_next (Chunk p);
        (if lsize <? sizeof_memheader then set_next pprev n
         else
           set_size pnew lsize;;
           n ← get_next (Chunk p); set_next (Chunk pnew) n;;
           set_next pprev pnew);;
        mret new_start
      else n ← get_next (Chunk p); pmm_alloc_from_from fuel (Chunk p) n base size
  end.

Definition pmm_alloc_from (fuel : nat) (base size : Z) : M mempool Z :=
  p ← get_next Top; pmm_alloc_from_from fuel Top p base size.

(** [asize] and [lsize] are [int]; [lsize >= sizeof(struct memheader)] compares
    [lsize] as an unsigned number. *)
Fixpoint pmm_resize_from (fuel : nat) (pprev : hptr) (p base oldsize newsize : Z)
    : M mempool Z :=
  if negb (nz p) then mret 0
  else match fuel with
  | O => nofuel
  | S fuel =>
      let start := p in
      if u32 (base + oldsize) =? start then
        let asize := s32 (newsize - oldsize) in
        psize ← get_size p;
        let lsize := s32 (psize - asize) in
        if sizeof_memheader <=? u32 lsize then
          let pnew := u32 (start + asize) in
          n ← get_next (Chunk p); set_next (Chunk pnew) n;;
          set_size pnew (u32 lsize);;
          set_next pprev pnew;;
          mret newsize
        else if lsize <? 0 then mret 0
        else
          n ← get_next (Chunk p); set_next pprev n;;
          mret newsize
      else if u32 (base + oldsize) <? start then mret 0
      else n ← get_next (Chunk p); pmm_resize_from fuel (Chunk p) n base oldsize newsize
  end.

(** The new size goes through the [int] variable [res] and back to [DWORD]. *)
Definition pmm_resize (fuel : nat) (base oldsize newsize : Z) : M mempool Z :=
  p ← get_next Top;
  res ← pmm_resize_from fuel Top p base oldsize newsize;
  mret (u32 res).

Fixpoint pmm_alloc_from_top (fuel : nat) (pprev : hptr) (p size : Z) : M mempool Z :=
  if negb (nz p) then mret 0
  else match fuel with
  | O => nofuel
  | S fuel =>
      let start := p in
      psize ← get_size p;
      if size <=? psize then
        let lsize := u32 (psize - size) in
        (if lsize <? sizeof_memheader then
           sub_top lsize;;
           n ← get_next (Chunk p); set_next pprev n
         else
           let pnew := u32 (start + size) in
           n ← get_next (Chunk p); set_next (Chunk pnew) n;;
           set_size pnew lsize;;
           set_next pprev pnew);;
        sub_top size;;
        mret start
      else n ← get_next (Chunk p); pmm_alloc_from_top fuel (Chunk p) n size
  end.

Definition pmm_alloc (fuel : nat) (size : Z) : M mempool Z :=
  p ← get_next Top; pmm_alloc_from_top fuel Top p size.

(** An overlap of the region to free with a free chunk aborts the kernel. *)
Definition local_pmm_error_overlap : M mempool () := fault.

Fixpoint pmm_free_from (fuel : nat) (pprev : hptr) (p base size : Z) : M mempool Z :=
  if negb (nz p) then
    (* if (p == 0) after the loop *)
    set_next (Chunk base) 0;; set_size base size;; set_next pprev base;;
    modify (λ s, s <| top_size := u32 (top_size s + size) |>);;
    mret 0
  else match fuel with
  | O => nofuel
  | S fuel =>
      let start := p in
      psize ← get_size p;
      let end_ := u32 (start + psize) in
      if base =? end_ then
        pnew ← get_next (Chunk p);
        (if pnew =? 0 then set_size p (u32 (psize + size))
         else if u32 (base + size) =? pnew then
           nsize ← get_size pnew;
           set_size p (u32 (psize + (size + nsize)));;
           n ← get_next (Chunk pnew); set_next (Chunk p) n
         else if u32 (base + size) <? pnew then set_size p (u32 (psize + size))
         else local_pmm_error_overlap);;
        modify (λ s, s <| top_size := u32 (top_size s + size) |>);;
        mret 0
      else if base <? end_ then
        (if u32 (base + size) <=? start then
           r ← (if u32 (base + size) =? start then
                  n ← get_next (Chunk p); mret (u32 (size + psize), n)
                else mret (size, p));
           set_next (Chunk base) (snd r);;
           set_size base (fst r);;
           set_next pprev base;;
           modify (λ s, s <| top_size := u32 (top_size s + fst r) |>)
         else local_pmm_error_overlap;;
           modify (λ s, s <| top_size := u32 (top_size s + size) |>));;
        mret 0
      else n ← get_next (Chunk p); pmm_free_from fuel (Chunk p) n base size
  end.

Definition pmm_free (fuel : nat) (base size : Z) : M mempool Z :=
  p ← get_next Top; pmm_free_from fuel Top p base size.
End Pmm.

(** * The kernel's pools ([mem.c]): requests are rounded up to 8 bytes. *)
Module Mem.
Import Pmm.
Definition CONFIG_MEMORY_ALIGNMENT : Z := 8.
Definition align (size : Z) : Z :=
  Z.land (u32 (size + CONFIG_MEMORY_ALIGNMENT - 1)) (u32 (Z.lnot (CONFIG_MEMORY_ALIGNMENT - 1))).

(** [mem_init_from_size]: a pool with one region. [pmm_add_region] is
    [pmm_free] and [pmm_remove_region] is [pmm_alloc_address] ([kmem.h]). *)
Definition mem_init_from_size (fuel : nat) (start size : Z) : M mempool Z :=
  pmm_init;; pmm_free fuel start size.
Definition dosmem_init (fuel : nat) (base size : Z) : M mempool Z :=
  pmm_init;; pmm_free fuel base size.

(** The functions on the low pool and on the high pool have the same body; the
    state is the pool they work on. *)
Definition dosmem_get_region (fuel : nat) (base size : Z) : M mempool Z :=
  pmm_alloc_address fuel base (align size).
Definition dosmem_free (fuel : nat) (base size : Z) : M mempool Z :=
  pmm_free fuel base (align size).
Definition dosmem_get (fuel : nat) (amount : Z) : M mempool Z :=
  pmm_alloc fuel (align amount).
Definition dosmem_resize (fuel : nat) (base oldsize newsize : Z) : M mempool Z :=
  pmm_resize fuel base (align oldsize) (align newsize).
Definition mem_get_region (fuel : nat) (base size : Z) : M mempool Z :=
  pmm_alloc_address fuel base (align size).
Definition mem_free (fuel : nat) (base size : Z) : M mempool Z :=
  pmm_free fuel base (align size).
Definition mem_get (fuel : nat) (amount : Z) : M mempool Z :=
  pmm_alloc fuel (align amount).
End Mem.

(** Correctness of the physical memory manager ([Pmm]) against an abstract pool:
    the list of the free chunks, with their starts and sizes. *)
Module PmmSpec.
Import Pmm.

(** * The abstract pool *)

Notation chunks := (list (Z * Z)).
Implicit Types (l : chunks) (s : mempool).

(** The address [x] is free. *)
Definition covers l (x : Z) : Prop := ∃ a n, (a, n) ∈ l ∧ a ≤ x < a + n.
Definition total l : Z := foldr (λ c t, snd c + t) 0 l.

(** Chunks in increasing order from [lo] on, apart from each other, large enough
    for a header, below 4 GB. *)
Fixpoint wf (lo : Z) l : Prop :=
  match l with
  | [] => True
  | (a, n) :: l => lo ≤ a ∧ 0 < a ∧ 8 ≤ n ∧ a + n < 2 ^ 32 ∧ wf (a + n) l
  end.

(** First fit. *)
Fixpoint alloc_first (size : Z) l : option (Z * chunks) :=
  match l with
  | [] => None
  | (a, n) :: l =>
      if size <=? n then Some (a, if n - size <? 8 then l else (a + size, n - size) :: l)
      else '(r, l') ← alloc_first size l; Some (r, (a, n) :: l')
  end.

(** Insertion in order, merging with the neighbours. *)
Fixpoint free_insert (base size : Z) l : chunks :=
  match l with
  | [] => [(base, size)]
  | (a, n) :: l =>
      if base =? a + n then
        match l with
        | (b, m) :: l' => if base + size =? b then (a, n + (size + m)) :: l' else (a, n + size) :: l
        | [] => [(a, n + size)]
        end
      else if base <? a + n then
        if base + size =? a then (base, size + n) :: l else (base, size) :: (a, n) :: l
      else (a, n) :: free_insert base size l
  end.

Lemma wf_weaken lo lo' l : lo' ≤ lo → wf lo l → wf lo' l.
Proof. destruct l as [|[a n] l]; simpl; [done|]. intros ? (? & ? & ? & ? & ?). split_and!; (lia || done). Qed.

Lemma wf_elem lo l a n : wf lo l → (a, n) ∈ l → lo ≤ a ∧ 0 < a ∧ 8 ≤ n ∧ a + n < 2 ^ 32.
Proof.
  revert lo. induction l as [|[b m] l IH]; simpl; intros lo H; [by intros ?%not_elem_of_nil|].
  intros [E|Hin]%elem_of_cons; [by simplify_eq; lia|].
  destruct (IH (b + m)) as (? & ? & ? & ?); [apply H|done|]. lia.
Qed.

Lemma covers_nil x : covers [] x ↔ False.
Proof. split; [|done]. by intros (a & n & ?%not_elem_of_nil & _). Qed.
Lemma covers_cons a n l x : covers ((a, n) :: l) x ↔ a ≤ x < a + n ∨ covers l x.
Proof.
  unfold covers. split.
  - intros (b & m & Hin & Hx). apply elem_of_cons in Hin as [E|Hin]; [by simplify_eq; left|right; eauto].
  - intros [Hx|(b & m & Hin & Hx)]; [exists a, n|exists b, m]; by rewrite elem_of_cons; auto.
Qed.
Lemma covers_lo lo l x : wf lo l → covers l x → lo ≤ x.
Proof. intros Hw (a & n & Hin & Hx). destruct (wf_elem _ _ _ _ Hw Hin). lia. Qed.

(** What is allocated was free and is not any more; what else stops being free is
    fewer than 8 bytes after it. *)
Lemma alloc_first_spec lo size l r l' :
  0 < size → wf lo l → alloc_first size l = Some (r, l') →
  wf lo l' ∧ (∀ x, r ≤ x < r + size → covers l x ∧ ¬ covers l' x) ∧
  (∀ x, covers l' x → covers l x) ∧ (∀ x, covers l x → covers l' x ∨ r ≤ x < r + size + 7) ∧
  lo ≤ r ∧ 0 < r.
Proof.
  intros Hs. revert lo l'. induction l as [|[a n] l IH]; simpl; intros lo l' Hw Ha; [done|].
  destruct Hw as (H1 & H2 & H3 & H4 & Hw). setoid_rewrite covers_cons.
  destruct (Z.leb_spec size n) as [Hle|Hgt].
  - simplify_eq. assert (∀ x, covers l x → r + n ≤ x) as Hlo by (intros; by eapply covers_lo).
    destruct (Z.ltb_spec (n - size) 8) as [Hsm|Hbig].
    + split_and!; [by eapply wf_weaken; [|done]; lia| | | |lia|lia].
      * intros x Hx. split; [left; lia|]. intros Hc%Hlo. lia.
      * auto.
      * intros x [Hx|Hx]; [right; lia|by left].
    + setoid_rewrite covers_cons. split_and!; [|..|lia|lia].
      * simpl. split_and!; [lia..|]. eapply wf_weaken; [|done]. lia.
      * intros x Hx. split; [left; lia|]. intros [Hc|Hc%Hlo]; lia.
      * intros x [Hx|Hx]; [left; lia|by right].
      * intros x [Hx|Hx]; [|by left; right]. destruct (decide (x < r + size)); [right; lia|left; left; lia].
  - destruct (alloc_first size l) as [[r0 l0]|] eqn:E; simpl in Ha; [|done]. simplify_eq.
    destruct (IH (a + n) l0 Hw eq_refl) as (Hw' & Hin & Hsub & Hsup & Hr & Hp). setoid_rewrite covers_cons.
    split_and!; [simpl; auto| | | |lia|lia].
    + intros x Hx. destruct (Hin x Hx) as [Hc Hn]. split; [by right|]. intros [Hx'|Hx']; [lia|done].
    + naive_solver.
    + naive_solver.
Qed.

Ltac solve_covers := intros x; rewrite ?covers_cons; intuition lia.

(** The region freed becomes free, nothing else changes. *)
Lemma free_insert_spec lo base size l :
  wf lo l → lo ≤ base → 0 < base → 8 ≤ size → base + size < 2 ^ 32 →
  (∀ x, base ≤ x < base + size → ¬ covers l x) →
  wf lo (free_insert base size l) ∧ (∀ x, covers (free_insert base size l) x ↔ covers l x ∨ base ≤ x < base + size) ∧
  total (free_insert base size l) = total l + size.
Proof.
  intros Hw Hlo Hb Hs Hmax. revert lo Hw Hlo. induction l as [|[a n] l IH]; simpl; intros lo Hw Hlo Hdis.
  - setoid_rewrite covers_cons. setoid_rewrite covers_nil. split_and!; simpl; [lia..|solve_covers|lia].
  - destruct Hw as (H1 & H2 & H3 & H4 & Hw).
    assert (∀ x, base ≤ x < base + size → ¬ a ≤ x < a + n) as Hd1.
    { intros x Hx Hc. apply (Hdis x Hx). apply covers_cons. by left. }
    assert (∀ x, base ≤ x < base + size → ¬ covers l x) as Hd2.
    { intros x Hx Hc. apply (Hdis x Hx). apply covers_cons. by right. }
    destruct (Z.eqb_spec base (a + n)) as [->|Hne].
    + destruct l as [|[b m] l'].
      * setoid_rewrite covers_cons. setoid_rewrite covers_nil. split_and!; simpl; [lia..|solve_covers|lia].
      * simpl in Hw. assert (∀ x, a + n ≤ x < a + n + size → ¬ b ≤ x < b + m) as Hd3.
        { intros x Hx Hc. apply (Hd2 x Hx). apply covers_cons. by left. }
        assert (a + n + size ≤ b) as Hle by (destruct (decide (a + n + size ≤ b)); [done|]; exfalso; apply (Hd3 b); lia).
        destruct (Z.eqb_spec (a + n + size) b) as [<-|Hne2]; setoid_rewrite covers_cons; simpl;
          split_and!; try lia.
        -- eapply wf_weaken; [|apply Hw]. lia.
        -- solve_covers.
        -- apply Hw.
        -- solve_covers.
    + destruct (Z.ltb_spec base (a + n)) as [Hlt|Hge].
      * assert (base + size ≤ a) as Hle.
        { destruct (decide (base + size ≤ a)); [done|]. exfalso. apply (Hd1 (Z.max base a)); lia. }
        destruct (Z.eqb_spec (base + size) a) as [<-|Hne2]; setoid_rewrite covers_cons; simpl; split_and!; try lia.
        -- eapply wf_weaken; [|apply Hw]. lia.
        -- solve_covers.
        -- done.
        -- solve_covers.
      * destruct (IH (a + n)) as (Hw' & Hc & Ht); [done|lia|done|]. simpl. setoid_rewrite covers_cons.
        split_and!; [lia..|done| |lia]. intros x. rewrite Hc. tauto.
Qed.

(** * The list in memory *)

Definition next_of s (h : hptr) : option Z :=
  match h with Top => Some (top_next s) | Chunk p => mem s !! p end.

(** The chunks after the header [h] are [l]. *)
Fixpoint rep s (h : hptr) l : Prop :=
  match l with
  | [] => next_of s h = Some 0
  | (a, n) :: l => next_of s h = Some a ∧ mem s !! (a + 4) = Some n ∧ rep s (Chunk a) l
  end.

(** Where the chunks after [h] may start. *)
Definition after (h : hptr) : Z := match h with Top => 0 | Chunk p => p + 8 end.

(** An operation on the chunks after [h] writes to the link of [h] and to free
    memory after it, from [lo] on. *)
Record local (h : hptr) (lo : Z) s s' : Prop := {
  lc_top : h ≠ Top → top_next s' = top_next s;
  lc_mem x : x < lo → h ≠ Chunk x → mem s' !! x = mem s !! x }.

Lemma rep_frame s s' h h' lo l :
  rep s h l → wf lo l → (∀ x, lo ≤ x → mem s' !! x = mem s !! x) → next_of s' h' = next_of s h → rep s' h' l.
Proof.
  revert h h' lo. induction l as [|[a n] l IH]; simpl; intros h h' lo Hr Hw Hm Hn; [by rewrite Hn|].
  destruct Hr as (R1 & R2 & R3), Hw as (H1 & H2 & H3 & H4 & Hw). split_and!; [by rewrite Hn|rewrite Hm by lia; done|].
  eapply IH; [exact R3|exact Hw| |simpl; apply Hm; lia]. intros x Hx. apply Hm. lia.
Qed.

Lemma rep_next s h l : rep s h l → ∃ x, next_of s h = Some x.
Proof. destruct l as [|[a n] l]; [by exists 0|]. intros (H & _). eauto. Qed.

Lemma local_refl h lo s : local h lo s s.
Proof. done. Qed.

Lemma get_next_done s h x : next_of s h = Some x → get_next h s = Done x s.
Proof.
  destruct h as [|p]; simpl; unfold get_next, mbind, M_bind, gets; [by intros [= <-]|]. by intros ->.
Qed.
Lemma get_size_done s a n : mem s !! (a + 4) = Some n → get_size a s = Done n s.
Proof. unfold get_size, mbind, M_bind, gets. by intros ->. Qed.

(** The result of a link replaced. *)
Definition link (h : hptr) (v : Z) s : mempool :=
  match h with Top => s <| top_next := v |> | Chunk p => s <| mem ::= <[p := v]> |> end.
Lemma set_next_done h v s : set_next h v s = Done () (link h v s).
Proof. by destruct h. Qed.
Lemma next_link h v s : next_of (link h v s) h = Some v.
Proof. destruct h; simpl; [done|]. by rewrite lookup_insert_eq. Qed.

(** Links written through [h] and words written from [lo] on. *)
Lemma local_link h v s s' lo : local h lo s s' → local h lo s (link h v s').
Proof.
  intros [H1 H2]. destruct h as [|p]; split; simpl; try done.
  intros x Hx Hne. rewrite lookup_insert_ne by congruence. by apply H2.
Qed.
Lemma local_store h lo s s' x v : lo ≤ x → local h lo s s' → local h lo s (s' <| mem ::= <[x := v]> |>).
Proof.
  intros Hx [H1 H2]. split; [done|]. simpl. intros y Hy Hne. rewrite lookup_insert_ne by lia. by apply H2.
Qed.
Lemma local_size h lo s s' v : local h lo s s' → local h lo s (s' <| top_size := v |>).
Proof. intros [H1 H2]. by split. Qed.

Lemma link_mem h v s x : h ≠ Chunk x → mem (link h v s) !! x = mem s !! x.
Proof. destruct h; simpl; intros Hne; [done|]. rewrite lookup_insert_ne; congruence. Qed.
Lemma link_top_size h v s : top_size (link h v s) = top_size s.
Proof. by destruct h. Qed.

(** The pool holds the chunks [l], and counts them. *)
Definition pool s l : Prop := rep s Top l ∧ wf 0 l ∧ top_size s = total l.

(** * Allocation *)

Lemma wp_get_next h x s (Q : Z → mempool → Prop) : next_of s h = Some x → Q x s → wp (get_next h) Q s.
Proof. intros Hn HQ. unfold wp. by erewrite get_next_done. Qed.
Lemma wp_get_size a n s (Q : Z → mempool → Prop) : mem s !! (a + 4) = Some n → Q n s → wp (get_size a) Q s.
Proof. intros Hn HQ. unfold wp. by erewrite get_size_done. Qed.
Lemma wp_set_next h v s (Q : () → mempool → Prop) : Q () (link h v s) → wp (set_next h v) Q s.
Proof. by destruct h. Qed.

(** What the loop leaves: the chunks of [l'], the bytes no longer counted. *)
Definition alloc_post s h l l' s' : Prop :=
  rep s' h l' ∧ local h (after h) s s' ∧ top_size s' = u32 (top_size s - (total l - total l')).

(** A chunk put in front of the rest of a list. *)
Lemma rep_chunk s s' h0 h b m l nx lo :
  rep s h0 l → wf lo l → next_of s h0 = Some nx → next_of s' h = Some b → mem s' !! b = Some nx →
  mem s' !! (b + 4) = Some m → (∀ x, lo ≤ x → mem s' !! x = mem s !! x) → rep s' h ((b, m) :: l).
Proof.
  intros Hr Hw Hn H1 H2 H3 Hm. split_and!; [done|done|]. eapply rep_frame; [exact Hr|exact Hw|exact Hm|].
  by rewrite Hn.
Qed.

Lemma u32_sub_sub a b c : u32 (u32 (a - b) - c) = u32 (a - (b + c)).
Proof. unfold u32. rewrite Zminus_mod_idemp_l. f_equal. lia. Qed.

Lemma after_not h a lo : after h ≤ lo → lo ≤ a → h ≠ Chunk a.
Proof. intros H1 H2 ->. simpl in H1. lia. Qed.

(** A chunk that is passed by. *)
Lemma rep_skip s s' h a n l l' :
  rep s h ((a, n) :: l) → after h ≤ a → rep s' (Chunk a) l' → local (Chunk a) (a + 8) s s' →
  rep s' h ((a, n) :: l') ∧ local h (after h) s s'.
Proof.
  intros (R1 & R2 & R3) H1 P1 P2. split.
  - simpl. split_and!; [|rewrite (lc_mem _ _ _ _ P2); [done|lia|intros [=]; lia]|exact P1].
    destruct h as [|q]; simpl in *; [by rewrite (lc_top _ _ _ _ P2)|].
    rewrite (lc_mem _ _ _ _ P2); [done|lia|intros [=]; lia].
  - split; [intros _; by apply P2|]. intros x Hx _. apply P2; [lia|intros [=]; lia].
Qed.

Lemma wp_alloc_from_top size l : ∀ fuel s h p,
  rep s h l → wf (after h) l → next_of s h = Some p → (length l ≤ fuel)%nat → 0 < size →
  wp (pmm_alloc_from_top fuel h p size) (λ r s', match alloc_first size l with
    | Some (r', l') => r = r' ∧ alloc_post s h l l' s'
    | None => r = 0 ∧ s' = s
    end) s.
Proof.
  induction l as [|[a n] l IH]; intros fuel s h p Hr Hw Hp Hf Hs.
  - simpl in *. assert (p = 0) as -> by congruence. by destruct fuel.
  - pose proof Hr as (R1 & R2 & R3). destruct Hw as (H1 & H2 & H3 & H4 & Hw). assert (p = a) as -> by congruence.
    destruct fuel as [|fuel]; [simpl in Hf; lia|]. cbn [pmm_alloc_from_top alloc_first].
    assert (nz a = true) as -> by (unfold nz; lia). cbn [negb].
    assert (∃ nx, next_of s (Chunk a) = Some nx) as [nx Hnx].
    { destruct l as [|[b m] l]; [by exists 0|by exists b; apply R3]. }
    apply wp_bind. eapply wp_get_size; [done|].
    destruct (Z.leb_spec size n) as [Hle|Hgt].
    + rewrite u32_small by lia. unfold sizeof_memheader. apply wp_bind.
      destruct (Z.ltb_spec (n - size) 8) as [Hsm|Hbig].
      * apply wp_bind, wp_modify, wp_bind. eapply wp_get_next; [exact Hnx|].
        apply wp_set_next, wp_bind, wp_modify, wp_ret. split; [done|]. split_and!.
        -- eapply (rep_frame s _ (Chunk a) h (a + n)); [exact R3|exact Hw| |].
           ++ intros x Hx. simpl. by rewrite link_mem by (eapply after_not; [exact H1|lia]).
           ++ rewrite Hnx. exact (next_link h nx _).
        -- apply local_size, local_link, local_size, local_refl.
        -- simpl. rewrite link_top_size. simpl. rewrite u32_sub_sub. f_equal. lia.
      * apply wp_bind. eapply wp_get_next; [exact Hnx|]. apply wp_bind, wp_set_next, wp_bind, wp_modify, wp_set_next.
        apply wp_bind, wp_modify, wp_ret. rewrite (u32_small (a + size)) by lia. split; [done|].
        set (s1 := link (Chunk (a + size)) nx s).
        split_and!.
        -- eapply (rep_chunk s _ (Chunk a) h _ _ l nx (a + n)); [exact R3|exact Hw|exact Hnx|exact (next_link h _ _)| | |].
           ++ simpl. rewrite link_mem by (eapply after_not; [exact H1|lia]). simpl.
              rewrite lookup_insert_ne by lia. apply lookup_insert_eq.
           ++ simpl. rewrite link_mem by (eapply after_not; [exact H1|lia]). simpl. apply lookup_insert_eq.
           ++ intros x Hx. simpl. rewrite link_mem by (eapply after_not; [exact H1|lia]). simpl.
              by rewrite !lookup_insert_ne by lia.
        -- apply local_size, local_link, local_store; [lia|]. apply (local_store h _ s s); [lia|apply local_refl].
        -- simpl. rewrite link_top_size. simpl. f_equal. lia.
    + apply wp_bind. eapply wp_get_next; [exact Hnx|]. eapply wp_mono; [|apply (IH fuel s (Chunk a))]; 
       [|done|simpl; eapply wf_weaken; [|done]; lia|done|simpl in Hf; lia|done].
      intros r s'. simpl. destruct (alloc_first size l) as [[r' l']|]; simpl; [|done].
      intros [-> (P1 & P2 & P3)]. split; [done|]. split_and!.
      * by eapply (rep_skip s s' h a n l).
      * by eapply (rep_skip s s' h a n l).
      * rewrite P3. simpl. f_equal. lia.
Qed.

(** * Freeing *)

(** The size of the chunk that starts where the freed region ends, when there is
    none that ends where it starts: it is added to the total once more. *)
Fixpoint counted_twice (base size : Z) l : Z :=
  match l with
  | [] => 0
  | (a, n) :: l =>
      if base =? a + n then 0
      else if base <? a + n then (if base + size =? a then n else 0)
      else counted_twice base size l
  end.

(** The region is not free, not even in part. *)
Definition apart (base size : Z) l : Prop := ∀ x, base ≤ x < base + size → ¬ covers l x.

Lemma apart_cons base size a n l :
  0 < size → 0 < n → apart base size ((a, n) :: l) → (base + size ≤ a ∨ a + n ≤ base) ∧ apart base size l.
Proof.
  intros Hs Hn H. split; [|intros x Hx Hc; apply (H x Hx), covers_cons; by right].
  destruct (decide (base + size ≤ a ∨ a + n ≤ base)) as [?|Hno]; [done|exfalso].
  apply (H (Z.max base a)); [lia|]. apply covers_cons. left. lia.
Qed.

(** No two chunks touch. *)
Definition beyond (x : Z) l : Prop := match l with [] => True | (b, _) :: _ => x < b end.
Fixpoint separated l : Prop :=
  match l with
  | [] => True
  | (a, n) :: l => beyond (a + n) l ∧ separated l
  end.

Lemma beyond_insert x base size l : x < base → beyond x l → beyond x (free_insert base size l).
Proof.
  destruct l as [|[a n] l]; simpl; [done|]. intros H1 H2. destruct l as [|[b m] l]; repeat case_match; done.
Qed.

(** Chunks that touch have been merged. *)
Lemma free_insert_separated lo base size l :
  wf lo l → 0 < size → apart base size l → separated l → separated (free_insert base size l).
Proof.
  intros Hw Hs. revert lo Hw. induction l as [|[a n] l IH]; intros lo Hw Hap Hsep; [done|].
  destruct Hw as (H1 & H2 & H3 & H4 & Hw). destruct Hsep as [Hb Hsep].
  destruct (apart_cons base size a n l) as [Hd Hap']; [lia|lia|done|]. cbn [free_insert].
  destruct (Z.eqb_spec base (a + n)) as [E|E].
  - destruct l as [|[b m] l]; [done|]. simpl in Hb. destruct Hsep as [Hb' Hsep], Hw as (_ & _ & Hm & _ & _).
    destruct (apart_cons base size b m l) as [Hd' _]; [lia|lia|done|].
    destruct (Z.eqb_spec (base + size) b); simpl; split_and!; try done; try lia.
    by replace (a + (n + (size + m))) with (b + m) by lia.
  - destruct (Z.ltb_spec base (a + n)).
    + destruct (Z.eqb_spec (base + size) a); simpl; split_and!; try done; try lia.
      by replace (base + (size + n)) with (a + n) by lia.
    + split; [apply beyond_insert; [lia|done]|by eapply IH].
Qed.

(** In order and separated, the chunks are determined by the memory that is free. *)
Lemma separated_unique lo l1 l2 :
  wf lo l1 → wf lo l2 → separated l1 → separated l2 → (∀ x, covers l1 x ↔ covers l2 x) → l1 = l2.
Proof.
  revert lo l2. induction l1 as [|[a n] l1 IH]; intros lo l2 W1 W2 S1 S2 Hc.
  { destruct l2 as [|[b m] l2]; [done|]. destruct W2 as (? & ? & ? & _).
    specialize (Hc b). rewrite covers_nil, covers_cons in Hc. exfalso. apply Hc. lia. }
  destruct l2 as [|[b m] l2].
  { destruct W1 as (? & ? & ? & _). specialize (Hc a). rewrite covers_nil, covers_cons in Hc. exfalso. apply Hc. lia. }
  destruct W1 as (A1 & A2 & A3 & A4 & W1), W2 as (B1 & B2 & B3 & B4 & W2), S1 as [T1 S1], S2 as [T2 S2].
  assert (Lo1 : ∀ x, covers l1 x → a + n < x).
  { intros x Hx. destruct l1 as [|[a' n'] l1]; [by apply covers_nil in Hx|]. simpl in T1.
    assert (wf a' ((a', n') :: l1)) as Hw by (destruct W1 as (? & ? & ? & ? & ?); split_and!; (lia || done)).
    pose proof (covers_lo _ _ _ Hw Hx). lia. }
  assert (Lo2 : ∀ x, covers l2 x → b + m < x).
  { intros x Hx. destruct l2 as [|[b' m'] l2]; [by apply covers_nil in Hx|]. simpl in T2.
    assert (wf b' ((b', m') :: l2)) as Hw by (destruct W2 as (? & ? & ? & ? & ?); split_and!; (lia || done)).
    pose proof (covers_lo _ _ _ Hw Hx). lia. }
  setoid_rewrite covers_cons in Hc. assert (a = b) as <-.
  { pose proof (proj1 (Hc a) ltac:(lia)) as [?|?%Lo2]; pose proof (proj2 (Hc b) ltac:(lia)) as [?|?%Lo1]; lia. }
  assert (n = m) as <-.
  { destruct (Z.lt_trichotomy n m) as [Hlt|[?|Hlt]]; [exfalso|done|exfalso].
    - pose proof (proj2 (Hc (a + n)) ltac:(lia)) as [?|?%Lo1]; lia.
    - pose proof (proj1 (Hc (a + m)) ltac:(lia)) as [?|?%Lo2]; lia. }
  f_equal. apply (IH (a + n)); [done..|]. intros x. split; intros Hx.
  - pose proof (Lo1 x Hx). pose proof (proj1 (Hc x) (or_intror Hx)) as [?|?]; [lia|done].
  - pose proof (Lo2 x Hx). pose proof (proj2 (Hc x) (or_intror Hx)) as [?|?]; [lia|done].
Qed.

Definition free_post s h base size l s' : Prop :=
  rep s' h (free_insert base size l) ∧ local h (after h) s s' ∧
  top_size s' = u32 (top_size s + (size + counted_twice base size l)).

Lemma next_store h x v s : after h ≤ x → next_of (s <| mem ::= <[x := v]> |>) h = next_of s h.
Proof. destruct h as [|q]; simpl; intros Hx; [done|]. by rewrite lookup_insert_ne by lia. Qed.

(** The size of a chunk changed. *)
Lemma rep_resize s h a n k l :
  rep s h ((a, n) :: l) → after h ≤ a → 8 ≤ n → wf (a + n) l →
  let s' := s <| mem ::= <[a + 4 := k]> |> in rep s' h ((a, k) :: l) ∧ local h (after h) s s'.
Proof.
  intros (R1 & R2 & R3) H1 H3 Hw. cbv zeta. split; [|apply local_store; [lia|apply local_refl]].
  split_and!; [by rewrite next_store by lia|simpl; apply lookup_insert_eq|].
  eapply (rep_frame s); [exact R3|exact Hw| |].
  - intros x Hx. simpl. by rewrite lookup_insert_ne by lia.
  - simpl. by rewrite lookup_insert_ne by lia.
Qed.

Lemma rep_top_size s h l v : rep s h l → rep (s <| top_size := v |>) h l.
Proof.
  revert h. induction l as [|[a n] l IH]; intros h H; [by destruct h|].
  destruct H as (R1 & R2 & R3). split_and!; [by destruct h|done|by apply IH].
Qed.

(** The second of two chunks taken off. *)
Lemma rep_drop_second s h a n b m l nx :
  rep s h ((a, n) :: (b, m) :: l) → after h ≤ a → a + 8 ≤ b → 8 ≤ m → wf (b + m) l → mem s !! b = Some nx →
  let s' := s <| mem ::= <[a := nx]> |> in rep s' h ((a, n) :: l) ∧ local h (after h) s s'.
Proof.
  intros (R1 & R2 & R3 & R4 & R5) H1 Hb Hm Hw Hnx. cbv zeta. split; [|apply local_store; [lia|apply local_refl]].
  split_and!; [by rewrite next_store by lia|simpl; by rewrite lookup_insert_ne by lia|].
  eapply (rep_frame s _ (Chunk b)); [exact R5|exact Hw| |].
  - intros x Hx. simpl. by rewrite lookup_insert_ne by lia.
  - simpl. by rewrite lookup_insert_eq.
Qed.

Ltac mem_simpl H1 :=
  simpl; rewrite ?link_mem by (eapply after_not; [exact H1|lia]); simpl;
  rewrite ?lookup_insert_ne by lia; rewrite ?lookup_insert_eq; rewrite ?lookup_insert_ne by lia.

Lemma wp_free_from base size l : ∀ fuel s h p,
  rep s h l → wf (after h) l → next_of s h = Some p → (length l ≤ fuel)%nat →
  after h ≤ base → 0 < base → 8 ≤ size → base + size < 2 ^ 32 → apart base size l →
  wp (pmm_free_from fuel h p base size) (λ r s', r = 0 ∧ free_post s h base size l s') s.
Proof.
  induction l as [|[a n] l IH]; intros fuel s h p Hr Hw Hp Hf Hlo Hb Hs Hmax Hap.
  - simpl in Hr. assert (p = 0) as -> by congruence. assert (pmm_free_from fuel h 0 base size =
      (set_next (Chunk base) 0;; set_size base size;; set_next h base;;
       modify (λ s, s <| top_size := u32 (top_size s + size) |>);; mret 0)) as -> by by destruct fuel.
    apply wp_bind, wp_set_next, wp_bind, wp_modify, wp_bind, wp_set_next, wp_bind, wp_modify, wp_ret.
    assert (∀ v s1, mem (link h v s1) !! base = mem s1 !! base ∧ mem (link h v s1) !! (base + 4) = mem s1 !! (base + 4)) as Hlk.
    { intros v s1. rewrite !link_mem by (eapply after_not; [done|lia]). done. }
    split; [done|]. split_and!.
    + simpl. split_and!; [exact (next_link h base _)|..]; rewrite (proj1 (Hlk _ _)) || rewrite (proj2 (Hlk _ _)); mem_simpl Hlo; done.
    + apply local_size, local_link, local_store; [lia|]. apply (local_store h _ s s); [lia|apply local_refl].
    + simpl. rewrite link_top_size. simpl. f_equal. lia.
  - pose proof Hr as (R1 & R2 & R3). destruct Hw as (H1 & H2 & H3 & H4 & Hw). assert (p = a) as -> by congruence.
    destruct fuel as [|fuel]; [simpl in Hf; lia|]. cbn [pmm_free_from].
    assert (nz a = true) as -> by (unfold nz; lia). cbn [negb].
    destruct (apart_cons base size a n l) as [Hsep Hap']; [lia|lia|done|].
    apply wp_bind. eapply wp_get_size; [done|]. rewrite (u32_small (a + n)), (u32_small (base + size)) by lia.
    destruct (Z.eqb_spec base (a + n)) as [->|Hne].
    + destruct (rep_next _ _ _ R3) as [nx Hnx]. apply wp_bind. eapply wp_get_next; [exact Hnx|]. apply wp_bind.
      destruct l as [|[b m] l'].
      * simpl in R3, Hnx. assert (nx = 0) as -> by congruence. simpl.
        rewrite u32_small by lia. apply wp_modify, wp_bind, wp_modify, wp_ret. split; [done|].
        destruct (rep_resize s h a n (n + size) [] Hr H1 H3 I) as [P1 P2].
        unfold free_post. simpl. rewrite Z.eqb_refl. split_and!; [exact (rep_top_size _ _ _ _ P1)|exact (local_size _ _ _ _ _ P2)|].
        f_equal. lia.
      * destruct R3 as (R3 & R4 & R5). assert (nx = b) as -> by congruence.
        destruct (rep_next _ _ _ R5) as [nx2 Hnx2]. pose proof Hw as (H1' & H2' & H3' & H4' & Hw').
        destruct (apart_cons (a + n) size b m l') as [Hsep' _]; [lia|lia|done|].
        rewrite (proj2 (Z.eqb_neq b 0)) by lia. unfold free_post. cbn [free_insert counted_twice].
        rewrite Z.eqb_refl. destruct (Z.eqb_spec (a + n + size) b) as [Eb|Hne].
        -- apply wp_bind. eapply wp_get_size; [done|]. rewrite u32_small by lia.
           apply wp_bind, wp_modify, wp_bind.
           destruct (rep_resize s h a n (n + (size + m)) _ Hr H1 H3 Hw) as [P1 P2].
           eapply wp_get_next; [simpl; rewrite lookup_insert_ne by lia; exact Hnx2|].
           apply wp_set_next, wp_bind, wp_modify, wp_ret. split; [done|].
           destruct (rep_drop_second _ h a (n + (size + m)) b m l' nx2 P1) as [P3 P4];
             [done|lia|done|done|simpl; by rewrite lookup_insert_ne by lia|].
           split_and!; [exact (rep_top_size _ _ _ _ P3)| |simpl; f_equal; lia].
           apply local_size. exact (local_store h _ s _ a nx2 H1 P2).
        -- rewrite (proj2 (Z.ltb_lt _ _)) by lia. rewrite u32_small by lia.
           apply wp_modify, wp_bind, wp_modify, wp_ret. split; [done|].
           destruct (rep_resize s h a n (n + size) _ Hr H1 H3 Hw) as [P1 P2].
           split_and!; [exact (rep_top_size _ _ _ _ P1)|exact (local_size _ _ _ _ _ P2)|]. simpl. f_equal. lia.
    + destruct (Z.ltb_spec base (a + n)) as [Hlt|Hge].
      * rewrite (proj2 (Z.leb_le _ _)) by lia. destruct (rep_next _ _ _ R3) as [nx Hnx].
        unfold free_post. cbn [free_insert counted_twice]. rewrite (proj2 (Z.eqb_neq base _)), (proj2 (Z.ltb_lt _ _)) by done.
        apply wp_bind. destruct (Z.eqb_spec (base + size) a) as [Ea|Hne2].
        -- apply wp_bind, wp_bind. eapply wp_get_next; [exact Hnx|]. apply wp_ret. rewrite u32_small by lia.
           apply wp_bind, wp_set_next, wp_bind, wp_modify, wp_bind, wp_set_next, wp_modify, wp_ret. split; [done|].
           split_and!; [| |simpl; rewrite link_top_size; simpl; f_equal; lia].
           ++ eapply (rep_chunk s _ (Chunk a) h _ _ l nx (a + n)); [exact R3|exact Hw|exact Hnx|exact (next_link h _ _)| | |].
              ** mem_simpl Hlo. done.
              ** mem_simpl Hlo. done.
              ** intros x Hx. mem_simpl Hlo. done.
           ++ apply local_size, local_link, local_store; [lia|]. apply (local_store h _ s s); [lia|apply local_refl].
        -- apply wp_bind, wp_ret, wp_bind, wp_set_next, wp_bind, wp_modify, wp_bind, wp_set_next, wp_modify, wp_ret.
           split; [done|]. split_and!; [| |simpl; rewrite link_top_size; simpl; f_equal; lia].
           ++ eapply (rep_chunk s _ h h _ _ ((a, n) :: l) a a); [exact Hr|simpl; split_and!; (lia || done)|exact R1|exact (next_link h _ _)| | |].
              ** mem_simpl Hlo. done.
              ** mem_simpl Hlo. done.
              ** intros x Hx. mem_simpl Hlo. done.
           ++ apply local_size, local_link, local_store; [lia|]. apply (local_store h _ s s); [lia|apply local_refl].
      * destruct (rep_next _ _ _ R3) as [nx Hnx]. apply wp_bind. eapply wp_get_next; [exact Hnx|].
        eapply wp_mono; [|apply (IH fuel s (Chunk a))];
          [|done|simpl; eapply wf_weaken; [|done]; lia|done|simpl in Hf; lia|simpl; lia|done..].
        intros r s' [-> (P1 & P2 & P3)]. split; [done|]. unfold free_post. simpl.
        rewrite (proj2 (Z.eqb_neq _ _)), (proj2 (Z.ltb_ge _ _)) by done.
        destruct (rep_skip s s' h a n l (free_insert base size l)) as [P4 P5]; done.
Qed.

(** Memory below the first chunk is not free. *)
Lemma apart_below lo base size l : wf lo l → base + size ≤ lo → apart base size l.
Proof. intros Hw Hlo x Hx Hc. pose proof (covers_lo _ _ _ Hw Hc). lia. Qed.
Lemma apart_intro base size a n l : base + size ≤ a ∨ a + n ≤ base → apart base size l → apart base size ((a, n) :: l).
Proof. intros Hd Hap x Hx [Hc|Hc]%covers_cons; [lia|by eapply Hap]. Qed.

(** Every overlap is found, wherever in the list it is. *)
Lemma wp_free_from_overlap base size l : ∀ fuel s h p,
  rep s h l → wf (after h) l → next_of s h = Some p → (length l ≤ fuel)%nat →
  after h ≤ base → 0 < base → 8 ≤ size → base + size < 2 ^ 32 → ¬ apart base size l →
  pmm_free_from fuel h p base size s = Fault.
Proof.
  induction l as [|[a n] l IH]; intros fuel s h p Hr Hw Hp Hf Hlo Hb Hs Hmax Hap.
  { destruct Hap. intros x _ Hc. by apply covers_nil in Hc. }
  destruct fuel as [|fuel]; [simpl in Hf; lia|]. destruct Hr as (R1 & R2 & R3), Hw as (H1 & H2 & H3 & H4 & Hw).
  assert (p = a) as -> by congruence. cbn [pmm_free_from].
  assert (nz a = true) as -> by (unfold nz; lia). cbn [negb].
  assert (Hsize : get_size a s = Done n s) by (unfold get_size, mbind, M_bind, gets; by rewrite R2).
  destruct (rep_next _ _ _ R3) as [nx Hnx].
  assert (Hnext : get_next (Chunk a) s = Done nx s) by (unfold get_next, mbind, M_bind, gets; simpl in Hnx; by rewrite Hnx).
  rewrite (bind_eq _ _ _ _ _ Hsize). rewrite u32_small by lia.
  destruct (Z.eqb_spec base (a + n)) as [E|E].
  - rewrite (bind_eq _ _ _ _ _ Hnext). destruct l as [|[b m] l].
    { destruct Hap. apply apart_intro; [lia|]. intros x _ Hc. by apply covers_nil in Hc. }
    destruct R3 as (R3 & R4 & _), Hw as (W1 & W2 & W3 & W4 & W5). assert (nx = b) as -> by congruence.
    assert (b < base + size) as Hov.
    { apply Z.nle_gt. intros Hle. apply Hap, apart_intro; [lia|]. apply apart_intro; [lia|].
      eapply apart_below; [exact W5|lia]. }
    rewrite (proj2 (Z.eqb_neq b 0)), u32_small, (proj2 (Z.eqb_neq _ b)), (proj2 (Z.ltb_ge _ b)) by lia. done.
  - destruct (Z.ltb_spec base (a + n)).
    + rewrite u32_small by lia. rewrite (proj2 (Z.leb_gt _ _)); [done|]. apply Z.nle_gt. intros Hle. apply Hap.
      apply apart_intro; [lia|]. eapply apart_below; [exact Hw|lia].
    + rewrite (bind_eq _ _ _ _ _ Hnext). simpl in Hf. apply IH; try done; try (simpl; lia).
      { eapply wf_weaken; [|exact Hw]. simpl. lia. }
      intros Hn. apply Hap, apart_intro; [lia|done].
Qed.

Lemma total_bound lo l : wf lo l → 0 ≤ lo → lo < 2 ^ 32 → 0 ≤ total l ∧ lo + total l < 2 ^ 32.
Proof.
  revert lo. induction l as [|[a n] l IH]; simpl; intros lo H Hlo Hmax; [lia|].
  destruct H as (H1 & H2 & H3 & H4 & H). destruct (IH _ H); lia.
Qed.

Lemma alloc_first_total size l r l' : 0 < size → alloc_first size l = Some (r, l') → total l' ≤ total l.
Proof.
  intros Hs. revert l'. induction l as [|[a n] l IH]; simpl; intros l' H; [done|].
  destruct (Z.leb_spec size n).
  - simplify_eq. destruct (Z.ltb_spec (n - size) 8); simpl; lia.
  - destruct (alloc_first size l) as [[r0 l0]|]; simplify_eq/=. specialize (IH _ eq_refl). lia.
Qed.

Lemma alloc_first_none size l a n : alloc_first size l = None → (a, n) ∈ l → n < size.
Proof.
  induction l as [|[b m] l IH]; simpl; [by intros _ ?%not_elem_of_nil|].
  destruct (Z.leb_spec size m); [done|]. destruct (alloc_first size l) as [[? ?]|]; [done|].
  intros _ [E|Hin]%elem_of_cons; [by simplify_eq|]. by apply IH.
Qed.

(** * Properties *)

Section properties.
Context (fuel : nat).

(** C11: [pmm_alloc] takes a region of the size asked for out of the free memory:
    every byte of it was free and no longer is, nothing else becomes free or is
    lost but fewer than 8 bytes at the end of the chunk, and the pool still
    counts its free bytes. It fails only when no chunk is large enough, leaving
    the pool as it is. *)
Theorem pmm_alloc_correct size l s :
  pool s l → (length l ≤ fuel)%nat → 0 < size →
  match alloc_first size l with
  | Some (r, l') =>
      ∃ s', pmm_alloc fuel size s = Done r s' ∧ pool s' l' ∧ 0 < r ∧
        (∀ x, r ≤ x < r + size → covers l x ∧ ¬ covers l' x) ∧
        (∀ x, covers l' x → covers l x) ∧ ∀ x, covers l x → covers l' x ∨ r ≤ x < r + size + 7
  | None => pmm_alloc fuel size s = Done 0 s ∧ ∀ a n, (a, n) ∈ l → n < size
  end.
Proof.
  intros (Hr & Hw & Ht) Hf Hs. destruct (rep_next _ _ _ Hr) as [p Hp].
  pose proof (total_bound 0 l Hw ltac:(lia) ltac:(lia)) as Hb.
  assert (wp (pmm_alloc fuel size) (λ r s', match alloc_first size l with
    | Some (r', l') => r = r' ∧ alloc_post s Top l l' s' | None => r = 0 ∧ s' = s end) s) as H.
  { unfold pmm_alloc. apply wp_bind. eapply wp_get_next; [exact Hp|]. by apply wp_alloc_from_top. }
  apply wp_done in H as (r & s' & He & H). destruct (alloc_first size l) as [[r' l']|] eqn:E.
  - destruct H as [-> (P1 & P2 & P3)]. destruct (alloc_first_spec 0 size l r' l' Hs Hw E) as (S1 & S2 & S3 & S4 & S5 & S6).
    exists s'. split; [done|]. split; [|split_and!; done]. split_and!; [done|done|]. rewrite P3, Ht. pose proof (alloc_first_total _ _ _ _ Hs E).
    pose proof (total_bound 0 l' S1 ltac:(lia) ltac:(lia)). rewrite u32_small; lia.
  - destruct H as [-> ->]. split; [done|]. intros a n. by apply alloc_first_none.
Qed.

(** C12: [pmm_free] makes a region free that was not, not even in part: exactly its
    bytes are added to the free memory, and the chunks stay in order. Chunks that touch
    are merged: where no two chunks touched before, none do after, so that the chunks are
    determined by the memory that is free. The count of the free bytes is right too,
    unless the region is merged only with the chunk after it, whose size is then counted
    a second time. A region that is free already, be it in part, aborts the kernel. *)
Theorem pmm_free_correct base size l s :
  pool s l → (length l ≤ fuel)%nat → 0 < base → 8 ≤ size → base + size < 2 ^ 32 →
  (apart base size l →
   ∃ s' l', pmm_free fuel base size s = Done 0 s' ∧ rep s' Top l' ∧ wf 0 l' ∧
     (∀ x, covers l' x ↔ covers l x ∨ base ≤ x < base + size) ∧
     (separated l → separated l' ∧ ∀ k, wf 0 k → separated k → (∀ x, covers k x ↔ covers l' x) → k = l') ∧
     top_size s' = u32 (total l' + counted_twice base size l)) ∧
  (¬ apart base size l → pmm_free fuel base size s = Fault).
Proof.
  intros (Hr & Hw & Ht) Hf Hb Hs Hmax. destruct (rep_next _ _ _ Hr) as [p Hp]. split; intros Hap.
  - assert (wp (pmm_free fuel base size) (λ r s', r = 0 ∧ free_post s Top base size l s') s) as H.
    { unfold pmm_free. apply wp_bind. eapply wp_get_next; [exact Hp|]. apply wp_free_from; (done || simpl; lia). }
    apply wp_done in H as (r & s' & He & -> & P1 & P2 & P3).
    destruct (free_insert_spec 0 base size l) as (S1 & S2 & S3); [done|lia|done..|].
    exists s', (free_insert base size l). split_and!; try done; [|rewrite P3, S3, Ht; f_equal; lia].
    intros Hsep. pose proof (free_insert_separated 0 base size l Hw ltac:(lia) Hap Hsep) as Hsep'.
    split; [done|]. intros k Hk Sk Hc. by apply (separated_unique 0).
  - unfold pmm_free. assert (Hnext : get_next Top s = Done p s) by (simpl in Hp; injection Hp as <-; done).
    rewrite (bind_eq _ _ _ _ _ Hnext). eapply wp_free_from_overlap; (done || simpl; lia).
Qed.
End properties.

(** * Rounded requests ([mem.c]) *)

Lemma align_spec size : 0 ≤ size < 2 ^ 32 - 8 → Mem.align size = (size + 7) / 8 * 8.
Proof.
  intros Hs. unfold Mem.align, Mem.CONFIG_MEMORY_ALIGNMENT. rewrite u32_small by lia.
  replace (size + 8 - 1) with (size + 7) by lia.
  replace (u32 (Z.lnot (8 - 1))) with (u32 (Z.lnot (2 ^ 3 - 1))) by done.
  rewrite land_align by lia. change (2 ^ 3) with 8. pose proof (Z.div_mod (size + 7) 8). lia.
Qed.

(** All chunks are multiples of 8 bytes. *)
Definition aligned l : Prop := Forall (λ c, snd c mod 8 = 0) l.

Lemma alloc_first_aligned size l r l' :
  0 < size → size mod 8 = 0 → aligned l → alloc_first size l = Some (r, l') →
  aligned l' ∧ total l' = total l - size ∧ ∀ x, covers l x ↔ covers l' x ∨ r ≤ x < r + size.
Proof.
  unfold aligned. intros Hpos Hs Hl. revert l'. induction Hl as [|[a n] l Hn Hl IH]; simpl; intros l' H; [done|].
  simpl in Hn. destruct (Z.leb_spec size n).
  - simplify_eq. destruct (Z.ltb_spec (n - size) 8); simpl.
    + assert (n = size) as -> by (Z.to_euclidean_division_equations; lia).
      split_and!; [done|lia|solve_covers].
    + split_and!; [|lia|solve_covers]. constructor; [|done]. simpl. Z.to_euclidean_division_equations; lia.
  - destruct (alloc_first size l) as [[r0 l0]|]; simplify_eq/=. destruct (IH _ eq_refl) as (? & ? & Hc).
    split_and!; [by constructor|lia|]. intros x. rewrite !covers_cons, Hc. tauto.
Qed.

(** In a pool whose chunks are multiples of 8 bytes, as those of [mem.c] are,
    [mem_get] loses nothing: the free memory shrinks by exactly the request
    rounded up to 8 bytes, and the chunks stay multiples of 8 bytes. *)
Theorem mem_get_exact fuel amount l s r l' :
  pool s l → aligned l → (length l ≤ fuel)%nat → 0 < amount < 2 ^ 32 - 8 →
  alloc_first (Mem.align amount) l = Some (r, l') →
  ∃ s', Mem.mem_get fuel amount s = Done r s' ∧ pool s' l' ∧ aligned l' ∧
    amount ≤ Mem.align amount < amount + 8 ∧ total l' = total l - Mem.align amount ∧
    ∀ x, covers l x ↔ covers l' x ∨ r ≤ x < r + Mem.align amount.
Proof.
  intros Hp Hal Hf Ham Ha. pose proof (align_spec amount ltac:(lia)) as E.
  assert (amount ≤ Mem.align amount < amount + 8) as Hr by (rewrite E; Z.to_euclidean_division_equations; lia).
  assert (Mem.align amount mod 8 = 0) as Hm by (rewrite E; by apply Z_mod_mult).
  destruct Hp as (Hrep & Hw & Ht). destruct (rep_next _ _ _ Hrep) as [p Hp].
  destruct (alloc_first_aligned (Mem.align amount) l r l' ltac:(lia) Hm Hal Ha) as (A1 & A2 & A3).
  assert (wp (Mem.mem_get fuel amount) (λ r' s', r' = r ∧ alloc_post s Top l l' s') s) as H.
  { unfold Mem.mem_get, pmm_alloc. apply wp_bind. eapply wp_get_next; [exact Hp|].
    eapply wp_mono; [|apply (wp_alloc_from_top (Mem.align amount) l); (done || lia)].
    intros r' s'. simpl. rewrite Ha. by intros [-> ?]. }
  apply wp_done in H as (? & s' & He & -> & P1 & P2 & P3).
  destruct (alloc_first_spec 0 (Mem.align amount) l r l' ltac:(lia) Hw Ha) as (S1 & _).
  pose proof (total_bound 0 l' S1 ltac:(lia) ltac:(lia)). pose proof (total_bound 0 l Hw ltac:(lia) ltac:(lia)).
  exists s'. split; [done|]. split; [|split_and!; (done || lia)]. split_and!; [done|done|].
  rewrite P3, Ht, u32_small; lia.
Qed.

(** * A pool of two chunks *)

Definition sample : mempool :=
  mkPool 4096 8192 (list_to_map [(4096, 16384); (4100, 4096); (16384, 0); (16388, 4096)]).
Definition sample_chunks : chunks := [(4096, 4096); (16384, 4096)].

Lemma sample_pool : pool sample sample_chunks.
Proof. split_and!; [vm_compute; tauto|simpl; lia|reflexivity]. Qed.

Lemma pmm_alloc_correct_witness : ∃ s', pmm_alloc 10 4096 sample = Done 4096 s' ∧ pool s' [(16384, 4096)].
Proof.
  destruct (pmm_alloc_correct 10 4096 sample_chunks sample sample_pool ltac:(simpl; lia) ltac:(lia))
    as (s' & H & Hp & _). eauto.
Defined.

Lemma pmm_free_correct_witness :
  (∃ s' l', pmm_free 10 8192 8192 sample = Done 0 s' ∧ rep s' Top l' ∧ separated l' ∧ l' = [(4096, 16384)]) ∧
  pmm_free 10 6000 4096 sample = Fault.
Proof.
  split.
  - destruct (pmm_free_correct 10 8192 8192 sample_chunks sample sample_pool) as [H _]; [simpl; lia..|].
    destruct H as (s' & l' & H & R & Hw & Hc & Hs & _).
    { intros x Hx (a & n & Hin & Hx'). unfold sample_chunks in Hin. set_unfold. naive_solver lia. }
    destruct Hs as [Hs Hu]; [simpl; lia|]. exists s', l'. split_and!; [done..|]. symmetry. apply Hu; [simpl; lia|done|].
    intros x. rewrite Hc. unfold sample_chunks. rewrite !covers_cons, covers_nil. lia.
  - destruct (pmm_free_correct 10 6000 4096 sample_chunks sample sample_pool) as [_ H]; [simpl; lia..|]. apply H.
    intros Hap. apply (Hap 6000); [lia|]. exists 4096, 4096. split; [set_solver|lia].
Defined.

Lemma mem_get_exact_witness : ∃ s', Mem.mem_get 10 4093 sample = Done 4096 s' ∧ pool s' [(16384, 4096)].
Proof.
  destruct (mem_get_exact 10 4093 sample_chunks sample 4096 [(16384, 4096)]) as (s' & H & Hp & _).
  - exact sample_pool.
  - repeat constructor.
  - simpl. lia.
  - lia.
  - reflexivity.
  - eauto.
Defined.
End PmmSpec.
