(* ===== verification/Slab.v ===== *)
(** The slab allocator ([src/fd32/kernel/slabmem.c], [slabmem.h]): caches of
    equally sized objects carved out of pages.

    A page comes from the kernel memory ([mem_get]), through the interface
    [PageSource]. The allocator keeps its links in the pages: the word at a
    free object is the next free object, the last word of a page the previous
    page of the cache. A link may be stored only inside a page the allocator
    holds; anything else is a fault. *)
From S2P Require Import Prelude.
(** What the slab allocator needs from the page allocator: [mem_get] of a page
    and [mem_free]. *)
Class PageSource (P : Type) := {
  page_alloc : P → Z * P;
  page_free : Z → P → P }.

Module Slab.
Definition SLABMEM_PAGE_SIZE : Z := 4096.
Definition sizeof_ptr : Z := 4.

Record SlabCache := mkSlabCache { pages : Z; obj_size : Z; free_objs : Z }.
#[export] Instance SlabCache_eta : Eta SlabCache :=
  λ r, mkSlabCache (pages r) (obj_size r) (free_objs r).

(** The words stored in the pages the allocator holds, the pages, and the page
    source. *)
Record arena (P : Type) := mkArena {
  words : gmap Z Z;
  held : list Z;
  source : P }.
Arguments mkArena {P}. Arguments words {P}. Arguments held {P}. Arguments source {P}.
#[export] Instance arena_eta P : Eta (arena P) := λ r, mkArena (words r) (held r) (source r).

Section slab.
Context {P : Type} `{PageSource P}.
Notation SM := (M (SlabCache * arena P)).

Definition get_cache : SM SlabCache := gets fst.
Definition set_cache (f : SlabCache → SlabCache) : SM () := modify (λ s, (f s.1, s.2)).

Definition in_page (p page : Z) : bool :=
  (page <=? p) && (p + sizeof_ptr <=? page + SLABMEM_PAGE_SIZE).

Definition load (p : Z) : SM Z :=
  w ← gets (λ s, words s.2 !! p); deref w.
Definition store (p v : Z) : SM () :=
  ok ← gets (λ s, existsb (in_page p) (held s.2));
  if (ok : bool) then modify (λ s, (s.1, s.2 <| words ::= <[p := v]> |>)) else fault.

Definition SLABMEM_PAGE_ALLOC : SM Z :=
  r ← gets (λ s, page_alloc (source s.2));
  modify (λ s, (s.1, s.2 <| source := snd r |>
                         <| held ::= λ h, if nz (fst r) then fst r :: h else h |>));;
  mret (fst r).
Definition SLABMEM_PAGE_FREE (page : Z) : SM () :=
  modify (λ s, (s.1, s.2 <| source ::= page_free page |>
                         <| held ::= filter (λ q, q ≠ page) |>)).

(** [for (obj = page; count; count--, obj += cache->obj_size)] *)
Fixpoint thread (count : nat) (obj size : Z) : SM Z :=
  match count with
  | O => mret obj
  | S count => store obj (obj + size);; thread count (obj + size) size
  end.

Definition slabmem_alloc : SM Z :=
  c ← get_cache;
  let res := free_objs c in
  res ← (if negb (nz res) then
           let count := u32 ((SLABMEM_PAGE_SIZE - sizeof_ptr) / obj_size c - 1) in
           page ← SLABMEM_PAGE_ALLOC;
           if negb (nz page) then mret 0
           else
             obj ← thread (Z.to_nat count) page (obj_size c);
             store obj 0;;
             set_cache (λ c, c <| free_objs := page |>);;
             c ← get_cache;
             store (page + SLABMEM_PAGE_SIZE - sizeof_ptr) (pages c);;
             set_cache (λ c, c <| pages := page |>);;
             mret page
         else mret res);
  if negb (nz res) then mret 0
  else
    n ← load res;
    set_cache (λ c, c <| free_objs := n |>);;
    mret res.

Definition slabmem_free (obj : Z) : SM () :=
  c ← get_cache;
  store obj (free_objs c);;
  set_cache (λ c, c <| free_objs := obj |>).

Definition slabmem_create (size : Z) : SM () :=
  set_cache (λ _, mkSlabCache 0 size 0).

(** [for (page = cache->pages; page; page = next)] *)
Fixpoint destroy_pages (fuel : nat) (page : Z) : SM () :=
  if negb (nz page) then mret ()
  else match fuel with
  | O => nofuel
  | S fuel =>
      next ← load (page + SLABMEM_PAGE_SIZE - sizeof_ptr);
      SLABMEM_PAGE_FREE page;;
      destroy_pages fuel next
  end.

Definition slabmem_destroy (fuel : nat) : SM () :=
  c ← get_cache;
  destroy_pages fuel (pages c);;
  set_cache (λ c, c <| pages := 0 |>);;
  set_cache (λ c, c <| free_objs := 0 |>).
End slab.
End Slab.

(** Correctness of the slab allocator ([Slab]): the free list and the list of
    pages in memory, and what allocating, freeing and destroying do to them. *)
Module SlabSpec.
Import Slab.

(** The objects of a page. *)
Definition slots (size page : Z) : list Z :=
  (λ i, page + i * size) <$> seqZ 0 ((SLABMEM_PAGE_SIZE - sizeof_ptr) / size).

(** Links in memory: the free objects, the pages. *)
Fixpoint free_list (w : gmap Z Z) (h : Z) (l : list Z) : Prop :=
  match l with
  | [] => h = 0
  | o :: l => h = o ∧ o ≠ 0 ∧ ∃ n, w !! o = Some n ∧ free_list w n l
  end.
Fixpoint page_list (w : gmap Z Z) (h : Z) (ps : list Z) : Prop :=
  match ps with
  | [] => h = 0
  | p :: ps => h = p ∧ p ≠ 0 ∧ ∃ n, w !! (p + SLABMEM_PAGE_SIZE - sizeof_ptr) = Some n ∧ page_list w n ps
  end.

Definition apart (p q : Z) : Prop := p + SLABMEM_PAGE_SIZE ≤ q ∨ q + SLABMEM_PAGE_SIZE ≤ p.

Section spec.
Context {P : Type} `{PS : PageSource P}.
Implicit Types (c : SlabCache) (a : arena P).

(** The cache has the pages [ps] and the free objects [l]; the other objects of
    the pages are in use. *)
Record slab c a (l ps : list Z) : Prop := {
  sl_size : 4 ≤ obj_size c ≤ SLABMEM_PAGE_SIZE - sizeof_ptr;
  sl_free : free_list (words a) (free_objs c) l;
  sl_pages : page_list (words a) (pages c) ps;
  sl_nodup : NoDup l;
  sl_slot o : o ∈ l → ∃ p, p ∈ ps ∧ o ∈ slots (obj_size c) p;
  sl_held p : p ∈ ps → p ∈ held a ∧ 0 < p;
  sl_apart : ForallOrdPairs apart ps }.

Lemma elem_of_slots size p o :
  0 < size → o ∈ slots size p ↔ ∃ i, o = p + i * size ∧ 0 ≤ i < (SLABMEM_PAGE_SIZE - sizeof_ptr) / size.
Proof. intros Hs. unfold slots. rewrite list_elem_of_fmap. setoid_rewrite elem_of_seqZ. naive_solver. Qed.

(** An object lies in its page, before the link to the next page. *)
Lemma slot_range size p o :
  0 < size → o ∈ slots size p → p ≤ o ∧ o + size ≤ p + SLABMEM_PAGE_SIZE - sizeof_ptr.
Proof.
  intros Hs. rewrite elem_of_slots by done. intros (i & -> & Hi).
  pose proof (Z.mul_div_le (SLABMEM_PAGE_SIZE - sizeof_ptr) size Hs). nia.
Qed.

Lemma slots_apart size p o o' :
  0 < size → o ∈ slots size p → o' ∈ slots size p → o ≠ o' → o + size ≤ o' ∨ o' + size ≤ o.
Proof.
  intros Hs. rewrite !elem_of_slots by done. intros (i & -> & Hi) (j & -> & Hj) Hne.
  destruct (Z.lt_total i j) as [?|[->|?]]; [left; nia|done|right; nia].
Qed.

Lemma free_list_frame w w' h l : (∀ o, o ∈ l → w' !! o = w !! o) → free_list w h l → free_list w' h l.
Proof.
  revert h. induction l as [|o l IH]; simpl; intros h He H; [done|].
  destruct H as (H1 & H2 & n & H3 & H4). split_and!; [done|done|]. exists n. split; [rewrite He; [done|set_solver]|].
  apply IH; [|done]. set_solver.
Qed.
Lemma page_list_frame w w' h ps :
  (∀ p, p ∈ ps → w' !! (p + SLABMEM_PAGE_SIZE - sizeof_ptr) = w !! (p + SLABMEM_PAGE_SIZE - sizeof_ptr)) →
  page_list w h ps → page_list w' h ps.
Proof.
  revert h. induction ps as [|p ps IH]; simpl; intros h He H; [done|].
  destruct H as (H1 & H2 & n & H3 & H4). split_and!; [done|done|]. exists n. split; [rewrite He; [done|set_solver]|].
  apply IH; [|done]. set_solver.
Qed.

Lemma wp_store p v page c a (Q : () → SlabCache * arena P → Prop) :
  page ∈ held a → page ≤ p → p + sizeof_ptr ≤ page + SLABMEM_PAGE_SIZE →
  Q () (c, a <| words ::= <[p := v]> |>) → wp (store p v) Q (c, a).
Proof.
  intros Hh H1 H2 HQ. unfold store. apply wp_bind, wp_gets. simpl.
  replace (existsb (in_page p) (held a)) with true; [by apply wp_modify|]. symmetry. apply existsb_exists.
  exists page. split; [by apply list_elem_of_In|]. unfold in_page. lia.
Qed.

(** [for (obj = page; count; ...)]: the words of [count] objects in a row, each
    the address of the next. *)
Lemma wp_thread count obj size page c a (Q : Z → SlabCache * arena P → Prop) :
  page ∈ held a → page ≤ obj → 4 ≤ size → obj + Z.of_nat count * size ≤ page + SLABMEM_PAGE_SIZE - sizeof_ptr →
  (∀ w, (∀ i, 0 ≤ i < Z.of_nat count → w !! (obj + i * size) = Some (obj + (i + 1) * size)) →
     (∀ x, x < obj ∨ obj + Z.of_nat count * size ≤ x → w !! x = words a !! x) →
     Q (obj + Z.of_nat count * size) (c, a <| words := w |>)) →
  wp (thread count obj size) Q (c, a).
Proof.
  revert obj a. induction count as [|count IH]; intros obj a Hh H1 Hs Hle HQ; simpl.
  - apply wp_ret. specialize (HQ (words a)). rewrite Z.add_0_r in HQ. destruct a. apply HQ; [lia|done].
  - apply wp_bind. eapply wp_store; [done|done|lia|]. apply (IH (obj + size)); [done|lia|done|lia|].
    intros w Hw Ho. replace (obj + size + Z.of_nat count * size) with (obj + Z.of_nat (S count) * size) by lia.
    apply HQ.
    + intros i Hi. destruct (decide (i = 0)) as [->|].
      * rewrite Z.mul_0_l, Z.add_0_r, Ho by lia. simpl. rewrite lookup_insert_eq. f_equal. lia.
      * replace (obj + i * size) with (obj + size + (i - 1) * size) by lia. rewrite Hw by lia. f_equal. lia.
    + intros x Hx. rewrite Ho by lia. simpl. rewrite lookup_insert_ne by lia. done.
Qed.

Lemma free_list_slots w size page :
  0 < page → 0 < size → let n := (SLABMEM_PAGE_SIZE - sizeof_ptr) / size in 0 < n →
  (∀ i, 0 ≤ i < n - 1 → w !! (page + i * size) = Some (page + (i + 1) * size)) →
  w !! (page + (n - 1) * size) = Some 0 → free_list w page (slots size page).
Proof.
  intros Hp Hs n Hn Hw Hlast.
  assert (∀ k i, 0 ≤ i → Z.of_nat k = n - i → 0 < n - i →
    free_list w (page + i * size) ((λ i, page + i * size) <$> seqZ i (n - i))) as H.
  { induction k as [|k IH]; intros i Hi Hk Hpos; [lia|]. rewrite seqZ_cons by lia. simpl.
    split_and!; [done|nia|]. destruct (decide (i = n - 1)) as [->|Hne].
    - exists 0. split; [done|]. rewrite seqZ_nil by lia. done.
    - exists (page + (i + 1) * size). split; [apply Hw; lia|].
      replace (Z.pred (n - i)) with (n - (i + 1)) by lia. replace (Z.succ i) with (i + 1) by lia. apply IH; lia. }
  unfold slots. fold n. specialize (H (Z.to_nat n) 0). rewrite Z.mul_0_l, Z.add_0_r, Z.sub_0_r in H. apply H; lia.
Qed.

(** A page the kernel gives is none of those in use. *)
Definition fresh_page a (ps : list Z) : Prop :=
  let p := (page_alloc (source a)).1 in p ≠ 0 → 0 < p ∧ ∀ q, q ∈ ps → apart p q.

Lemma slots_nodup size page : 0 < size → NoDup (slots size page).
Proof. intros Hs. apply NoDup_fmap_2_strong; [|apply NoDup_seqZ]. intros x y _ _ Heq. nia. Qed.

Lemma slots_cons size page : 4 ≤ size ≤ SLABMEM_PAGE_SIZE - sizeof_ptr → slots size page = page :: tail (slots size page).
Proof.
  intros Hs. unfold slots. rewrite seqZ_cons by (apply Z.div_str_pos; unfold SLABMEM_PAGE_SIZE, sizeof_ptr in *; lia).
  simpl. by rewrite Z.mul_0_l, Z.add_0_r.
Qed.

(** A new page, cut into objects. *)
Lemma slab_grow c a ps page w src :
  slab c a [] ps → 0 < page → (∀ q, q ∈ ps → apart page q) →
  (let n := (SLABMEM_PAGE_SIZE - sizeof_ptr) / obj_size c in
   (∀ i, 0 ≤ i < n - 1 → w !! (page + i * obj_size c) = Some (page + (i + 1) * obj_size c)) ∧
   w !! (page + (n - 1) * obj_size c) = Some 0) →
  w !! (page + SLABMEM_PAGE_SIZE - sizeof_ptr) = Some (pages c) →
  (∀ x, x < page ∨ page + SLABMEM_PAGE_SIZE ≤ x → w !! x = words a !! x) →
  slab (mkSlabCache page (obj_size c) page) (mkArena w (page :: held a) src) (slots (obj_size c) page) (page :: ps).
Proof.
  intros S Hp Hap [Hw Hlast] Hl Ho. pose proof (sl_size _ _ _ _ S) as Hs. cbv zeta in *.
  split; simpl.
  - done.
  - apply free_list_slots; [done|lia| |done|done]. apply Z.div_str_pos. lia.
  - split_and!; [done|lia|]. exists (pages c). split; [done|]. eapply page_list_frame; [|apply S].
    intros q Hq. apply Ho. destruct (Hap q Hq); unfold SLABMEM_PAGE_SIZE, sizeof_ptr in *; lia.
  - apply slots_nodup. lia.
  - intros o Hin. exists page. split; [set_solver|done].
  - intros q [->|Hq]%elem_of_cons; [split; [set_solver|done]|]. destruct (sl_held _ _ _ _ S _ Hq). split; [set_solver|done].
  - constructor; [|apply S]. apply Forall_forall. done.
Qed.

(** An object taken off the free list. *)
Lemma slab_take c a o l ps n :
  slab c a (o :: l) ps → words a !! o = Some n → slab (c <| free_objs := n |>) a l ps.
Proof.
  intros [S1 S2 S3 S4 S5 S6 S7] Hn. simpl in S2. destruct S2 as (E & Hne & n' & Hn' & S2).
  assert (n' = n) as -> by congruence. apply NoDup_cons in S4 as [_ S4]. split; try done.
  intros x Hx. apply S5. set_solver.
Qed.

Definition alloc_post c a l ps (r : Z) c' a' : Prop :=
  obj_size c' = obj_size c ∧ match l with
  | o :: l' => r = o ∧ a' = a ∧ slab c' a' l' ps
  | [] =>
      let p := (page_alloc (source a)).1 in
      r = p ∧ if p =? 0 then slab c' a' [] ps else slab c' a' (tail (slots (obj_size c) p)) (p :: ps)
  end.

Lemma wp_slabmem_alloc_cons c a o l ps :
  slab c a (o :: l) ps → wp slabmem_alloc (λ r s, alloc_post c a (o :: l) ps r s.1 s.2) (c, a).
Proof.
  intros S. unfold slabmem_alloc. apply wp_bind, wp_gets. simpl.
  destruct (sl_free _ _ _ _ S) as (E & Hne & n & Hn & Hfl). apply wp_bind.
  rewrite E. unfold nz. rewrite (proj2 (Z.eqb_neq _ _)) by done. simpl.
  apply wp_ret. rewrite (proj2 (Z.eqb_neq _ _)) by done. simpl.
  apply wp_bind. unfold load. apply wp_bind, wp_gets. eapply wp_deref; [done|].
  apply wp_bind, wp_modify, wp_ret. simpl. split_and!; [done..|]. by eapply slab_take.
Qed.

Lemma wp_slabmem_alloc c a l ps :
  slab c a l ps → fresh_page a ps →
  wp slabmem_alloc (λ r s, alloc_post c a l ps r s.1 s.2) (c, a).
Proof.
  intros S Hfr. unfold slabmem_alloc. destruct l as [|o l].
  - apply wp_bind, wp_gets. simpl. pose proof (sl_free _ _ _ _ S) as Hfl. apply wp_bind. simpl in Hfl. rewrite Hfl. simpl. unfold SLABMEM_PAGE_ALLOC. apply wp_bind, wp_bind, wp_gets. simpl.
    apply wp_bind, wp_modify, wp_ret. simpl.
    destruct (page_alloc (source a)) as [p src] eqn:Ep. simpl. unfold fresh_page in Hfr. rewrite Ep in Hfr. simpl in Hfr.
    unfold nz. destruct (Z.eqb_spec p 0) as [->|Hp0]; simpl.
    + apply wp_ret. simpl. apply wp_ret. unfold alloc_post. cbv zeta. rewrite Ep. simpl. split_and!; [done..|]. destruct S. by split.
    + destruct (Hfr Hp0) as [Hp Hap]. pose proof (sl_size _ _ _ _ S) as Hs.
      set (n := (SLABMEM_PAGE_SIZE - sizeof_ptr) / obj_size c).
      assert (0 < n ∧ n * obj_size c ≤ SLABMEM_PAGE_SIZE - sizeof_ptr) as [Hn Hmul].
      { split; [apply Z.div_str_pos; lia|].
        pose proof (Z.mul_div_le (SLABMEM_PAGE_SIZE - sizeof_ptr) (obj_size c)). lia. }
      assert (n ≤ SLABMEM_PAGE_SIZE) as Hn2 by (unfold SLABMEM_PAGE_SIZE, sizeof_ptr in *; nia).
      unfold SLABMEM_PAGE_SIZE, sizeof_ptr in Hmul, Hn2, Hs.
      rewrite u32_small by lia. apply wp_bind. eapply (wp_thread _ _ _ p); [set_solver|lia|lia|unfold SLABMEM_PAGE_SIZE, sizeof_ptr; lia|].
      intros w Hw Ho. rewrite Z2Nat.id in * by lia.
      apply wp_bind. eapply (wp_store _ _ p); [set_solver|nia|unfold SLABMEM_PAGE_SIZE, sizeof_ptr; nia|].
      apply wp_bind, wp_modify, wp_bind, wp_gets, wp_bind.
      eapply (wp_store _ _ p); [set_solver|unfold SLABMEM_PAGE_SIZE, sizeof_ptr; lia|unfold SLABMEM_PAGE_SIZE, sizeof_ptr; lia|].
      apply wp_bind, wp_modify, wp_ret. rewrite (proj2 (Z.eqb_neq _ _)) by done. simpl.
      match goal with |- context [mkArena ?w' _ _] => set (w2 := w') end.
      assert (slab (mkSlabCache p (obj_size c) p) (mkArena w2 (p :: held a) src) (slots (obj_size c) p) (p :: ps)) as S2.
      { apply slab_grow with (a := a); [done|done|done| | |]; fold n; unfold w2, SLABMEM_PAGE_SIZE, sizeof_ptr in *; simpl.
        - split.
          + intros i Hi. rewrite !lookup_insert_ne by nia. apply Hw. lia.
          + rewrite lookup_insert_ne by lia. apply lookup_insert_eq.
        - apply lookup_insert_eq.
        - intros x Hx. rewrite !lookup_insert_ne by nia. apply Ho. nia. }
      rewrite slots_cons in S2 by apply S. pose proof (sl_free _ _ _ _ S2) as (_ & _ & m & Hm & _).
      apply wp_bind. unfold load. apply wp_bind, wp_gets. eapply wp_deref; [exact Hm|].
      apply wp_bind, wp_modify, wp_ret. unfold alloc_post. cbv zeta. rewrite Ep. simpl.
      rewrite (proj2 (Z.eqb_neq _ _)) by done. split_and!; [done..|]. by eapply (slab_take (mkSlabCache p (obj_size c) p)).
  - by apply wp_slabmem_alloc_cons.
Qed.

(** Two objects of a cache do not overlap. *)
Lemma slab_disjoint c a l ps p q o o' :
  slab c a l ps → p ∈ ps → q ∈ ps → o ∈ slots (obj_size c) p → o' ∈ slots (obj_size c) q → o ≠ o' →
  o + obj_size c ≤ o' ∨ o' + obj_size c ≤ o.
Proof.
  intros S Hp Hq Ho Ho' Hne. pose proof (sl_size _ _ _ _ S) as Hs.
  destruct (decide (p = q)) as [->|Hpq]; [eapply slots_apart; eauto; lia|].
  apply slot_range in Ho, Ho'; [|lia..]. unfold SLABMEM_PAGE_SIZE, sizeof_ptr in *.
  destruct (ForallOrdPairs_In (sl_apart _ _ _ _ S) p q) as [?|[Ha|Ha]]; [by apply list_elem_of_In..|done| |];
    unfold apart, SLABMEM_PAGE_SIZE in Ha; lia.
Qed.

(** An object that is in use overlaps no free one. *)
Lemma slab_used c a l ps p o o' :
  slab c a l ps → p ∈ ps → o ∈ slots (obj_size c) p → o ∉ l → o' ∈ l →
  o + obj_size c ≤ o' ∨ o' + obj_size c ≤ o.
Proof.
  intros S Hp Ho Hni Ho'. destruct (sl_slot _ _ _ _ S _ Ho') as (q & Hq & Hoq).
  eapply (slab_disjoint _ _ _ _ p q); [done..|]. by intros ->.
Qed.

Lemma wp_slabmem_free c a l ps o p :
  slab c a l ps → p ∈ ps → o ∈ slots (obj_size c) p → o ∉ l →
  wp (slabmem_free o) (λ _ s, slab s.1 s.2 (o :: l) ps ∧ obj_size s.1 = obj_size c) (c, a).
Proof.
  intros S Hp Ho Hni. pose proof (sl_size _ _ _ _ S) as Hs.
  pose proof (slot_range (obj_size c) p o ltac:(lia) Ho) as Hr. destruct (sl_held _ _ _ _ S _ Hp) as [Hh Hp0].
  unfold slabmem_free. apply wp_bind, wp_gets, wp_bind.
  unfold SLABMEM_PAGE_SIZE, sizeof_ptr in Hr, Hs.
  eapply (wp_store _ _ p); [done|lia|unfold SLABMEM_PAGE_SIZE, sizeof_ptr; lia|]. apply wp_modify. simpl. split; [|done].
  assert (∀ x, x ≠ o → <[o := free_objs c]> (words a) !! x = words a !! x) as Hw
    by (intros; by rewrite lookup_insert_ne).
  destruct S as [S1 S2 S3 S4 S5 S6 S7]. split; simpl; try done.
  - split_and!; [done|lia|]. exists (free_objs c). split; [apply lookup_insert_eq|].
    eapply free_list_frame; [|exact S2]. intros x Hx. apply Hw. by intros ->.
  - eapply page_list_frame; [|exact S3]. intros q Hq. apply Hw. intros <-.
    apply slot_range in Ho; [|lia]. unfold SLABMEM_PAGE_SIZE, sizeof_ptr in Ho.
    destruct (decide (p = q)) as [->|Hpq]; [lia|].
    destruct (ForallOrdPairs_In S7 p q) as [?|[Ha|Ha]]; [by apply list_elem_of_In..|done| |];
      unfold apart, SLABMEM_PAGE_SIZE in Ha; lia.
  - by constructor.
  - intros x [->|Hx]%elem_of_cons; [by exists p|by apply S5].
Qed.

(** The pages given back, most recent first. *)
Definition released (ps : list Z) (src : P) : P := foldl (λ s p, page_free p s) src ps.

Lemma wp_destroy_pages fuel c a h ps :
  page_list (words a) h ps → (length ps ≤ fuel)%nat →
  wp (destroy_pages fuel h) (λ _ s, s.1 = c ∧ words s.2 = words a ∧ source s.2 = released ps (source a) ∧
    ∀ q, q ∈ held s.2 ↔ q ∈ held a ∧ q ∉ ps) (c, a).
Proof.
  revert fuel a h. induction ps as [|p ps IH]; intros fuel a h Hl Hf.
  - simpl in Hl. subst. assert (destroy_pages fuel 0 = mret ()) as -> by by destruct fuel. apply wp_ret. simpl.
    split_and!; [done..|]. set_solver.
  - destruct Hl as (-> & Hne & n & Hn & Hl). destruct fuel as [|fuel]; [simpl in Hf; lia|]. cbn [destroy_pages].
    unfold nz. rewrite (proj2 (Z.eqb_neq _ _)) by done. simpl.
    apply wp_bind. unfold load. apply wp_bind, wp_gets. eapply wp_deref; [exact Hn|].
    apply wp_bind, wp_modify. simpl. eapply wp_mono; [|apply IH; [exact Hl|simpl in Hf; lia]].
    intros _ s (E1 & E2 & E3 & E4). split_and!; [done..|]. intros q. rewrite E4. simpl.
    rewrite list_elem_of_filter. set_solver.
Qed.
End spec.

(** ** A cache for its users: the objects in use, the rest being free *)

(** A source that gives every page once: [given src ps] when [ps] are pages it has
    given out. *)
Class FreshPages (P : Type) `{PageSource P} := {
  given : P → list Z → Prop;
  given_page src ps : given src ps →
    let p := (page_alloc src).1 in
    (p = 0 → given (page_alloc src).2 ps) ∧
    (p ≠ 0 → 0 < p ∧ (∀ q, q ∈ ps → apart p q) ∧ given (page_alloc src).2 (p :: ps)) }.

Section pool.
Context {P : Type} {PS : PageSource P} {FP : FreshPages P}.
Implicit Types (c : SlabCache) (a : arena P) (U : gset Z).

(** The operations that leave the page source alone. *)
Definition steady {A} (m : M (SlabCache * arena P) A) : Prop :=
  ∀ s r s', m s = Done r s' → source s'.2 = source s.2.
Lemma steady_bind {A B} (m : M _ A) (k : A → M _ B) : steady m → (∀ x, steady (k x)) → steady (m ≫= k).
Proof. intros Hm Hk s r s' (x & s1 & H1 & H2)%bind_done. by rewrite (Hk _ _ _ _ H2), (Hm _ _ _ H1). Qed.
Lemma steady_ret {A} (x : A) : steady (mret x).
Proof. by intros s r s' [= <- <-]. Qed.
Lemma steady_gets {A} (f : _ → A) : steady (gets f).
Proof. by intros s r s' [= <- <-]. Qed.
Lemma steady_cache f : steady (set_cache f).
Proof. by intros s r s' [= <- <-]. Qed.
Lemma steady_load p : steady (load p).
Proof. apply steady_bind; [apply steady_gets|]. by intros [w|] s r s'; [intros [= <- <-]|]. Qed.
Lemma steady_store p v : steady (store p v).
Proof. apply steady_bind; [apply steady_gets|]. by intros [] s r s'; [intros [= <- <-]|]. Qed.
#[local] Hint Resolve steady_ret steady_gets steady_cache steady_load steady_store : core.
Lemma steady_thread n p z : steady (thread n p z).
Proof. revert p. induction n as [|n IH]; intros p; cbn [thread]; auto using steady_bind. Qed.
#[local] Hint Resolve steady_thread : core.

Lemma alloc_source c a r s' :
  slabmem_alloc (c, a) = Done r s' →
  source s'.2 = if nz (free_objs c) then source a else (page_alloc (source a)).2.
Proof.
  unfold slabmem_alloc. intros (c' & s1 & [= <- <-] & (o & s2 & H1 & H2)%bind_done)%bind_done. cbn [fst snd] in *.
  assert (source s'.2 = source s2.2) as ->.
  { destruct (nz o); cbn [negb] in H2; [|by injection H2 as _ <-].
    revert H2. apply (steady_bind (load o)); auto using steady_bind. }
  destruct (nz (free_objs c)); cbn [negb] in H1; [by injection H1 as _ <-|].
  apply bind_done in H1 as (p & s3 & (x & s4 & [= <- <-] & (u & s5 & [= <- <-] & [= <- <-])%bind_done)%bind_done & H1).
  cbn [fst snd] in H1. destruct (negb (nz (page_alloc (source a)).1)); [by injection H1 as _ <-|].
  revert H1. match goal with |- ?m _ = _ → _ => assert (steady m) as Hm end.
  { unfold get_cache. repeat (apply steady_bind; [|intros ?]; auto). }
  intros H1%Hm. exact H1.
Qed.

(** The objects [U] of the cache are in use, and [n] objects are free. *)
Definition stock c a U (n : nat) : Prop :=
  0 ∉ U ∧ ∃ l ps, slab c a l ps ∧ given (source a) ps ∧
    (∀ o, o ∈ U → o ∉ l ∧ ∃ p, p ∈ ps ∧ o ∈ slots (obj_size c) p) ∧ length l = n.

(** The objects of a new page that are left when one has been taken. *)
Definition page_rest (size : Z) : nat := pred (length (slots size 0)).
Lemma length_slots size page : length (slots size page) = length (slots size 0).
Proof. unfold slots. by rewrite !length_fmap. Qed.

(** The pages of a cache are positive, so its objects are not null. *)
Lemma slot_nonnull c a l ps p o : slab c a l ps → p ∈ ps → o ∈ slots (obj_size c) p → o ≠ 0.
Proof.
  intros S Hp Ho. pose proof (sl_size _ _ _ _ S). apply slot_range in Ho; [|lia].
  destruct (sl_held _ _ _ _ S _ Hp). lia.
Qed.

(** With no free object the page source is asked, once. *)
Lemma stock_alloc c a U n :
  stock c a U n →
  wp slabmem_alloc (λ r s, obj_size s.1 = obj_size c ∧
    match n with
    | S n => r ≠ 0 ∧ r ∉ U ∧ stock s.1 s.2 ({[ r ]} ∪ U) n ∧ source s.2 = source a
    | O => r = (page_alloc (source a)).1 ∧ source s.2 = (page_alloc (source a)).2 ∧
           if r =? 0 then stock s.1 s.2 U 0 else r ∉ U ∧ stock s.1 s.2 ({[ r ]} ∪ U) (page_rest (obj_size c))
    end) (c, a).
Proof.
  intros [H0 (l & ps & S & G & HU & Hn)]. pose proof (given_page _ _ G) as [G0 G1].
  assert (Hf : fresh_page a ps) by (intros Hp; destruct (G1 Hp) as (H1 & H2 & _); done).
  pose proof (wp_slabmem_alloc c a l ps S Hf) as Hw. apply wp_done in Hw as (r & [c' a'] & E & Eo & Hr).
  pose proof (alloc_source _ _ _ _ E) as Hs. eapply wp_of_done; [exact E|]. cbn [fst snd] in *. split; [exact Eo|].
  pose proof (sl_size _ _ _ _ S) as Hsz. destruct l as [|o l]; cbn in Hn; subst n.
  - destruct Hr as [-> Hr]. rewrite (sl_free _ _ _ _ S : free_objs c = 0) in Hs. cbn in Hs. split_and!; [done|done|].
    destruct (Z.eqb_spec (page_alloc (source a)).1 0) as [Ep|Ep].
    { split; [done|]. exists [], ps. rewrite Hs, Eo. split_and!; [done|by apply G0|done|done]. }
    destruct (G1 Ep) as (Hpos & Hap & G2). set (page := (page_alloc (source a)).1) in *.
    assert (Hin : page ∈ slots (obj_size c) page) by (rewrite slots_cons by lia; set_solver).
    assert (Hold : ∀ x, x ∈ U → x ∉ slots (obj_size c) page).
    { intros x Hx Hxp. destruct (HU x Hx) as (_ & q & Hq & Hxq). apply slot_range in Hxp, Hxq; [|lia..].
      specialize (Hap q Hq). unfold apart, SLABMEM_PAGE_SIZE, sizeof_ptr in *. lia. }
    split; [intros Hx; by apply (Hold _ Hx)|]. split; [rewrite elem_of_union, elem_of_singleton; naive_solver|].
    eexists _, (page :: ps). rewrite Hs, Eo. split_and!; [exact Hr|exact G2| |].
    2: { unfold page_rest. rewrite <- (length_slots _ page). by destruct (slots _ page). }
    pose proof (slots_nodup (obj_size c) page ltac:(lia)) as Hnd.
    pose proof (slots_cons (obj_size c) page ltac:(lia)) as Hc. rewrite Hc in Hnd. apply NoDup_cons in Hnd as [Hnd _].
    intros x [->%elem_of_singleton|Hx]%elem_of_union; [split; [done|exists page; split; [set_solver|done]]|].
    destruct (HU x Hx) as (_ & q & Hq & Hxq). split; [|exists q; split; [set_solver|done]].
    intros Hin'. apply (Hold x Hx). rewrite Hc. by right.
  - destruct Hr as (-> & -> & S'). pose proof (sl_free _ _ _ _ S) as (Ef & Hne & _).
    unfold nz in Hs. rewrite Ef, (proj2 (Z.eqb_neq o 0) Hne) in Hs.
    cbn in Hs. split; [done|]. destruct (sl_slot _ _ _ _ S o ltac:(set_solver)) as (p & Hp & Ho).
    split; [intros Hx; destruct (HU _ Hx) as [Hn _]; set_solver|].
    split; [|done]. split; [rewrite elem_of_union, elem_of_singleton; naive_solver|]. exists l, ps. rewrite Eo.
    split_and!; [done|done| |done]. pose proof (sl_nodup _ _ _ _ S) as [Hol _]%NoDup_cons.
    intros x [->%elem_of_singleton|Hx]%elem_of_union; [eauto|]. destruct (HU x Hx) as [Hn ?]. set_solver.
Qed.

Lemma stock_free c a U o n :
  stock c a U n → o ∈ U →
  wp (slabmem_free o) (λ _ s, obj_size s.1 = obj_size c ∧ stock s.1 s.2 (U ∖ {[ o ]}) (S n) ∧ source s.2 = source a) (c, a).
Proof.
  intros [H0 (l & ps & S & G & HU & Hl)] Ho. destruct (HU o Ho) as (Hn & p & Hp & Hs).
  pose proof (wp_slabmem_free c a l ps o p S Hp Hs Hn) as Hw. apply wp_done in Hw as ([] & [c' a'] & E & S' & Eo).
  assert (Hsrc : source a' = source a).
  { change (source (c', a').2 = source (c, a).2). revert E. unfold slabmem_free, get_cache.
    apply steady_bind; [auto|intros ?]. apply steady_bind; auto. }
  eapply wp_of_done; [exact E|]. cbn [fst snd] in *. split; [exact Eo|]. split; [|done]. split; [set_solver|].
  exists (o :: l), ps. rewrite Hsrc, Eo. split_and!; [done|done| |cbn; by f_equal]. intros x [Hx Hxo]%elem_of_difference.
  destruct (HU x Hx) as [Hxl ?]. set_solver.
Qed.

End pool.

(** * Properties *)

Section properties.
Context {P : Type} `{PS : PageSource P}.
Implicit Types (c : SlabCache) (a : arena P).

(** C13: [slabmem_alloc] returns an object of a page of the cache that was free,
    the first of the free list if there is one, and takes it off the list; the
    object overlaps no object that is still free. With an empty list it adds a
    page of the kernel and cuts it into objects; it returns null, the cache being
    as it was, only when there is no such page. *)
Theorem slabmem_alloc_correct c a l ps :
  slab c a l ps → fresh_page a ps →
  ∃ r c' a' l' ps', slabmem_alloc (c, a) = Done r (c', a') ∧ slab c' a' l' ps' ∧ obj_size c' = obj_size c ∧
    (if r =? 0 then l = [] ∧ (page_alloc (source a)).1 = 0 ∧ l' = [] ∧ ps' = ps
     else (∃ p, p ∈ ps' ∧ r ∈ slots (obj_size c) p) ∧ r ∉ l' ∧
       (∀ o, o ∈ l' → r + obj_size c ≤ o ∨ o + obj_size c ≤ r) ∧
       (if l is o :: l1 then r = o ∧ l' = l1 ∧ ps' = ps
        else ps' = r :: ps ∧ l' = tail (slots (obj_size c) r))).
Proof.
  intros S Hfr. pose proof (wp_slabmem_alloc c a l ps S Hfr) as H. unfold wp in H. pose proof (sl_size _ _ _ _ S) as Hs.
  destruct (slabmem_alloc (c, a)) as [r [c' a']| | ]; try done. simpl in H. unfold alloc_post in H.
  destruct H as [Es H]. destruct l as [|o l].
  - destruct H as [-> H]. set (p := (page_alloc (source a)).1) in *. destruct (Z.eqb_spec p 0) as [E|E].
    + exists 0, c', a', [], ps. rewrite E. done.
    + exists p, c', a', (tail (slots (obj_size c) p)), (p :: ps).
      rewrite (proj2 (Z.eqb_neq _ _)) by done. pose proof (slots_cons (obj_size c) p Hs) as Ec.
      assert (p ∈ slots (obj_size c) p) as Hin by (rewrite Ec; set_solver).
      assert (p ∉ tail (slots (obj_size c) p)) as Hni.
      { pose proof (slots_nodup (obj_size c) p ltac:(lia)) as Hnd. rewrite Ec in Hnd. by inversion Hnd. }
      split_and!; [done..|exists p; set_solver|done| |done|done].
      intros o Ho. rewrite <- Es in *. eapply (slab_used c' a'); [done| |exact Hin|done|done]. set_solver.
  - destruct H as (-> & -> & H). destruct (sl_free _ _ _ _ S) as (_ & Hne & _).
    exists o, c', a, l, ps. rewrite (proj2 (Z.eqb_neq _ _)) by done.
    destruct (sl_slot _ _ _ _ S o ltac:(set_solver)) as (p & Hp & Ho).
    assert (o ∉ l) as Hni by (pose proof (sl_nodup _ _ _ _ S) as Hnd; by inversion Hnd).
    split_and!; [done..|by exists p|done| |done|done|done].
    intros o' Ho'. rewrite <- Es in *. by eapply (slab_used c' a).
Qed.

(** [slabmem_free] of an object in use puts it at the head of the free list,
    the rest of the cache being as before, and the next [slabmem_alloc] returns
    that object and gives the cache the free list it had. *)
Theorem slabmem_free_alloc c a l ps o p :
  slab c a l ps → p ∈ ps → o ∈ slots (obj_size c) p → o ∉ l →
  wp (slabmem_free o) (λ _ s, slab s.1 s.2 (o :: l) ps ∧
    wp slabmem_alloc (λ r s', r = o ∧ slab s'.1 s'.2 l ps ∧ obj_size s'.1 = obj_size c) s) (c, a).
Proof.
  intros S Hp Ho Hni. eapply wp_mono; [|by eapply wp_slabmem_free]. intros _ [c1 a1] [S1 E1]. simpl in *.
  split; [done|]. eapply wp_mono; [|apply wp_slabmem_alloc_cons, S1]. intros r [c2 a2] (E2 & -> & -> & S2). simpl in *.
  split_and!; [done..|]. congruence.
Qed.

(** [slabmem_destroy] gives every page of the cache back, each once, the most
    recent first, and leaves the cache without pages and without free objects. *)
Theorem slabmem_destroy_correct c a l ps fuel :
  slab c a l ps → (length ps ≤ fuel)%nat →
  wp (slabmem_destroy fuel) (λ _ s, slab s.1 s.2 [] [] ∧ obj_size s.1 = obj_size c ∧
    source s.2 = foldl (λ s p, page_free p s) (source a) ps ∧ (∀ q, q ∈ held s.2 ↔ q ∈ held a ∧ q ∉ ps)) (c, a).
Proof.
  intros S Hf. unfold slabmem_destroy. apply wp_bind, wp_gets. simpl. apply wp_bind.
  eapply wp_mono; [|eapply (wp_destroy_pages fuel c a); [apply S|done]].
  intros _ [c1 a1] (E1 & E2 & E3 & E4). simpl in *. subst c1. apply wp_bind, wp_modify, wp_modify. simpl.
  split_and!; [|done..]. pose proof (sl_size _ _ _ _ S).
  split; simpl; try done; try (by constructor); intros ? Hin; by apply not_elem_of_nil in Hin.
Qed.
End properties.

(** A cache of objects of 1000 bytes with one page at 4096, the first of its four
    objects in use; the kernel has one more page, at 16384. *)
Module Example.
#[export] Instance page_list_source : PageSource (list Z) := {
  page_alloc src := match src with [] => (0, []) | p :: src => (p, src) end;
  page_free p src := p :: src }.

Definition cache : SlabCache := mkSlabCache 4096 1000 5096.
Definition memory : arena (list Z) :=
  mkArena (list_to_map [(5096, 6096); (6096, 7096); (7096, 0); (8188, 0)]) [4096] [16384].

Lemma memory_slab : slab cache memory [5096; 6096; 7096] [4096].
Proof.
  split; simpl.
  - unfold SLABMEM_PAGE_SIZE, sizeof_ptr. lia.
  - repeat (split_and!; [done|done|eexists; split; [vm_compute; reflexivity|]]). done.
  - repeat (split_and!; [done|done|eexists; split; [vm_compute; reflexivity|]]). done.
  - apply (bool_decide_unpack _). vm_compute. exact I.
  - intros o Ho. exists 4096. split; [set_solver|].
    assert (o = 5096 ∨ o = 6096 ∨ o = 7096) as [->|[->| ->]] by set_solver;
      apply (bool_decide_unpack _); vm_compute; exact I.
  - intros p Hp. assert (p = 4096) as -> by set_solver. split; [set_solver|lia].
  - repeat constructor.
Qed.
End Example.
Import Example.

Lemma slabmem_alloc_correct_witness :
  ∃ r c' a' l' ps', slabmem_alloc (Example.cache, Example.memory) = Done r (c', a') ∧ slab c' a' l' ps' ∧ r = 5096.
Proof.
  destruct (slabmem_alloc_correct Example.cache Example.memory _ _ Example.memory_slab) as (r & c' & a' & l' & ps' & E & S & _ & H).
  - intros _. split; [done|]. intros q Hq. assert (q = 4096) as -> by set_solver. right. vm_compute. discriminate.
  - exists r, c', a', l', ps'. split; [exact E|]. split; [exact S|]. revert H.
    destruct (r =? 0); [intros (H & _); discriminate H|]. intros (_ & _ & _ & -> & _). reflexivity.
Defined.

Lemma slabmem_free_alloc_witness :
  wp (slabmem_free 4096) (λ _ s, slab s.1 s.2 [4096; 5096; 6096; 7096] [4096] ∧
    wp slabmem_alloc (λ r s', r = 4096 ∧ slab s'.1 s'.2 [5096; 6096; 7096] [4096] ∧ obj_size s'.1 = 1000) s)
    (Example.cache, Example.memory).
Proof.
  apply (slabmem_free_alloc Example.cache Example.memory [5096; 6096; 7096] [4096] 4096 4096 Example.memory_slab).
  - set_solver.
  - apply (bool_decide_unpack _). vm_compute. exact I.
  - apply (bool_decide_unpack _). vm_compute. exact I.
Defined.

Lemma slabmem_destroy_correct_witness :
  wp (slabmem_destroy 1) (λ _ s, slab s.1 s.2 [] [] ∧ obj_size s.1 = 1000 ∧
    source s.2 = [4096; 16384] ∧ (∀ q, q ∈ held s.2 ↔ q ∈ [4096] ∧ q ∉ [4096])) (Example.cache, Example.memory).
Proof. refine (slabmem_destroy_correct Example.cache Example.memory _ _ 1 Example.memory_slab _). simpl. lia. Defined.
End SlabSpec.
