(* ===== verification/FatTypes.v ===== *)
(** The FAT driver's data ([src/fd32/modules/fat/fat.h], [ondisk.h]): on-disk
    structures and their byte layout, the state of a mounted volume, the
    driver's environment, and the primitive accesses to memory.

    The model has one volume; the [v] pointers every structure carries are
    therefore left out. Pointers to files, channels and cached directory nodes
    are the addresses the slab allocator gives, a buffer is known by its index
    in the array, [ListItem] links are kept as the sequence of the linked
    objects (see [Lists]). *)
From S2P Require Import Prelude Errno Lists Nls Slab.
Import Slab.

(** * On-disk structures *)

Definition FAT_ARDONLY : Z := 0x01.
Definition FAT_AVOLID : Z := 0x08.
Definition FAT_ADIR : Z := 0x10.
Definition FAT_AARCHIV : Z := 0x20.
Definition FAT_ALFN : Z := 0x0F.

Definition FAT12_EOC : Z := 0x0FFF.
Definition FAT16_EOC : Z := 0xFFFF.
Definition FAT32_EOC : Z := 0x0FFFFFFF.
Definition FAT_FREEENT : Z := 0xE5.
Definition FAT_ENDOFDIR : Z := 0x00.
Definition FAT_FSI_SIG1 : Z := 0x41615252.
Definition FAT_FSI_SIG2 : Z := 0x61417272.
Definition FAT_FSI_SIG3 : Z := 0xAA550000.
Definition FAT_FSI_NA : Z := 0xFFFFFFFF.
Definition FAT_SFN_MAX : Z := 12.
Definition FAT_LFN_MAX : Z := 260.

Definition IS_FAT12_EOC (entry_value : Z) : bool := 0x0FF8 <=? entry_value.
Definition IS_FAT16_EOC (entry_value : Z) : bool := 0xFFF8 <=? entry_value.
Definition IS_FAT32_EOC (entry_value : Z) : bool := 0x0FFFFFF8 <=? entry_value.

(** [struct fat_direntry], 32 bytes. *)
Record fat_direntry := mkDirentry {
  de_name : bytes;
  de_attr : Z;
  de_nt_case : Z;
  de_cre_time_hund : Z;
  de_cre_time : Z;
  de_cre_date : Z;
  de_acc_date : Z;
  de_first_cluster_hi : Z;
  de_mod_time : Z;
  de_mod_date : Z;
  de_first_cluster_lo : Z;
  de_file_size : Z }.
#[export] Instance fat_direntry_eta : Eta fat_direntry := λ r,
  mkDirentry (de_name r) (de_attr r) (de_nt_case r) (de_cre_time_hund r) (de_cre_time r)
    (de_cre_date r) (de_acc_date r) (de_first_cluster_hi r) (de_mod_time r) (de_mod_date r)
    (de_first_cluster_lo r) (de_file_size r).
Definition sizeof_direntry : Z := 32.

(** The structure in a block of 32 bytes and back. *)
Definition decode_direntry (l : bytes) : fat_direntry :=
  mkDirentry (slice l 0 11) (byte_at l 11) (byte_at l 12) (byte_at l 13) (le16_at l 14)
    (le16_at l 16) (le16_at l 18) (le16_at l 20) (le16_at l 22) (le16_at l 24)
    (le16_at l 26) (le32_at l 28).
Definition encode_direntry (d : fat_direntry) : bytes :=
  de_name d ++ [u8 (de_attr d); u8 (de_nt_case d); u8 (de_cre_time_hund d)] ++
  le16 (de_cre_time d) ++ le16 (de_cre_date d) ++ le16 (de_acc_date d) ++
  le16 (de_first_cluster_hi d) ++ le16 (de_mod_time d) ++ le16 (de_mod_date d) ++
  le16 (de_first_cluster_lo d) ++ le32 (de_file_size d).

(** The boot sector: the fields of [struct fat16_bpb] and [struct fat32_bpb]
    at their offsets. *)
Definition bpb_bytes_per_sector (s : bytes) : Z := le16_at s 11.
Definition bpb_sectors_per_cluster (s : bytes) : Z := byte_at s 13.
Definition bpb_reserved_sectors (s : bytes) : Z := le16_at s 14.
Definition bpb_num_fats (s : bytes) : Z := byte_at s 16.
Definition bpb_root_entries (s : bytes) : Z := le16_at s 17.
Definition bpb_num_sectors_16 (s : bytes) : Z := le16_at s 19.
Definition bpb_media_id (s : bytes) : Z := byte_at s 21.
Definition bpb_fat_size_16 (s : bytes) : Z := le16_at s 22.
Definition bpb_num_sectors_32 (s : bytes) : Z := le32_at s 32.
Definition bpb16_serial_number (s : bytes) : Z := le32_at s 39.
Definition bpb16_volume_label (s : bytes) : bytes := slice s 43 11.
Definition bpb32_fat_size_32 (s : bytes) : Z := le32_at s 36.
Definition bpb32_ext_flags (s : bytes) : Z := le16_at s 40.
Definition bpb32_fs_version (s : bytes) : Z := le16_at s 42.
Definition bpb32_root_cluster (s : bytes) : Z := le32_at s 44.
Definition bpb32_fsinfo_sector (s : bytes) : Z := le16_at s 48.
Definition bpb32_serial_number (s : bytes) : Z := le32_at s 67.
Definition bpb32_volume_label (s : bytes) : bytes := slice s 71 11.

(** The size of [struct fat32_bpb], the longer one. *)
Definition sizeof_bpb : Z := 90.

(** [struct fat_fsinfo]: offsets of the fields, and its size. *)
Definition fsi_sig1_ofs : Z := 0.
Definition fsi_sig2_ofs : Z := 484.
Definition fsi_free_clusters_ofs : Z := 488.
Definition fsi_next_free_ofs : Z := 492.
Definition fsi_sig3_ofs : Z := 508.
Definition sizeof_fsinfo : Z := 512.

(** * Driver state *)

Definition FAT_VOL_MAGIC : Z := 0x46415456.
Definition FAT_CHANNEL_MAGIC : Z := 0x46415446.
Definition FAT_EOC : Z := 0x0FFFFFFF.
Definition FAT_NUM_BUFFERS : Z := 30.
Definition FAT_READ_AHEAD : Z := 8.
Definition FAT_UNLINKED : Z := 1.
Definition FAT_PATH_SEP : Z := 92.

Inductive FatType := FAT12 | FAT16 | FAT32.
#[export] Instance FatType_eq_dec : EqDecision FatType.
Proof. solve_decision. Defined.

(** Lookup data of the internal readdir; the cached directory entries are kept
    as their 32 bytes, since they are read both as short and as long entries. *)
Definition LFN_FETCH_SLOTS : Z := 21.
Record LookupData := mkLud {
  lud_sfn : list Z;
  lud_sfn_length : Z;
  lud_cde : list bytes;
  lud_lfn : list Z;
  lud_cde_pos : Z;
  lud_lfn_entries : Z;
  lud_lfn_length : Z;
  lud_de_sector : Z;
  lud_de_secofs : Z;
  lud_de_dirofs : Z }.
#[export] Instance LookupData_eta : Eta LookupData := λ r,
  mkLud (lud_sfn r) (lud_sfn_length r) (lud_cde r) (lud_lfn r) (lud_cde_pos r)
    (lud_lfn_entries r) (lud_lfn_length r) (lud_de_sector r) (lud_de_secofs r) (lud_de_dirofs r).

Record Buffer := mkBuffer {
  b_sector : Z;
  b_count : Z;
  b_flags : Z;
  b_data : bytes }.
#[export] Instance Buffer_eta : Eta Buffer := λ r,
  mkBuffer (b_sector r) (b_count r) (b_flags r) (b_data r).

Record Dentry := mkDentry {
  d_parent : Z;
  d_children : list Z;
  d_references : Z;
  d_de_sector : Z;
  d_de_entcnt : Z;
  d_attr : Z;
  d_lfn_entries : Z }.
#[export] Instance Dentry_eta : Eta Dentry := λ r,
  mkDentry (d_parent r) (d_children r) (d_references r) (d_de_sector r) (d_de_entcnt r)
    (d_attr r) (d_lfn_entries r).

Record File := mkFile {
  f_de : fat_direntry;
  f_de_changed : bool;
  f_de_sector : Z;
  f_de_secofs : Z;
  f_first_cluster : Z;
  f_references : Z }.
#[export] Instance File_eta : Eta File := λ r,
  mkFile (f_de r) (f_de_changed r) (f_de_sector r) (f_de_secofs r) (f_first_cluster r)
    (f_references r).

Record Channel := mkChannel {
  c_file_pointer : Z;
  c_f : Z;
  c_magic : Z;
  c_flags : Z;
  c_references : Z;
  c_cluster_index : Z;
  c_cluster : Z;
  c_dentry : Z }.
#[export] Instance Channel_eta : Eta Channel := λ r,
  mkChannel (c_file_pointer r) (c_f r) (c_magic r) (c_flags r) (c_references r)
    (c_cluster_index r) (c_cluster r) (c_dentry r).

(** The part of [struct Volume] that is computed by [fat_mount] and does not
    change afterwards. *)
Record Geometry := mkGeometry {
  v_fat_type : FatType;
  v_num_fats : Z;
  v_bytes_per_sector : Z;
  v_log_bytes_per_sector : Z;
  v_sectors_per_cluster : Z;
  v_log_sectors_per_cluster : Z;
  v_active_fat : Z;
  v_serial_number : Z;
  v_volume_label : bytes;
  v_fat_size : Z;
  v_fat_start : Z;
  v_root_sector : Z;
  v_root_size : Z;
  v_data_start : Z;
  v_root_cluster : Z;
  v_data_clusters : Z;
  v_sectors_per_buffer : Z;
  v_num_buffers : Z }.
#[export] Instance Geometry_eta : Eta Geometry := λ r,
  mkGeometry (v_fat_type r) (v_num_fats r) (v_bytes_per_sector r) (v_log_bytes_per_sector r)
    (v_sectors_per_cluster r) (v_log_sectors_per_cluster r) (v_active_fat r) (v_serial_number r)
    (v_volume_label r) (v_fat_size r) (v_fat_start r) (v_root_sector r) (v_root_size r)
    (v_data_start r) (v_root_cluster r) (v_data_clusters r) (v_sectors_per_buffer r)
    (v_num_buffers r).

(** The buffers: the array, the least recently used list (indices, least
    recently used first) and the statistics. *)
Record Cache := mkCache {
  v_buffers : list Buffer;
  v_buffers_lru : list nat;
  v_buf_access : Z;
  v_buf_miss : Z;
  v_buf_hit : Z }.
#[export] Instance Cache_eta : Eta Cache := λ r,
  mkCache (v_buffers r) (v_buffers_lru r) (v_buf_access r) (v_buf_miss r) (v_buf_hit r).

(** [v_self] is the address of the structure itself. *)
Record Volume := mkVolume {
  v_geo : Geometry;
  v_cache : Cache;
  v_nls : option nls_operations;
  v_blk_open : bool;
  v_blk_bops : bool;
  v_magic : Z;
  v_free_clusters : Z;
  v_next_free : Z;
  v_fsinfo_changed : bool;
  v_buffers_ptr : Z;
  v_buffer_data_ptr : Z;
  v_num_dentries : Z;
  v_dentries_slab : SlabCache;
  v_files_slab : SlabCache;
  v_channels_slab : SlabCache;
  v_files_open : list Z;
  v_channels_open : list Z;
  v_lud : LookupData;
  v_self : Z }.
#[export] Instance Volume_eta : Eta Volume := λ r,
  mkVolume (v_geo r) (v_cache r) (v_nls r) (v_blk_open r) (v_blk_bops r) (v_magic r)
    (v_free_clusters r) (v_next_free r) (v_fsinfo_changed r) (v_buffers_ptr r)
    (v_buffer_data_ptr r) (v_num_dentries r) (v_dentries_slab r) (v_files_slab r)
    (v_channels_slab r) (v_files_open r) (v_channels_open r) (v_lud r) (v_self r).

(** Sizes of the structures on the i386. *)
Definition sizeof_Dentry : Z := 40.
Definition sizeof_File : Z := 64.
Definition sizeof_Channel : Z := 44.
Definition sizeof_Buffer : Z := 28.
Definition sizeof_Volume : Z := 2048.

(** * Environment

    What the driver calls and this source does not define for it: the
    operations of the hosting block device (a pointer to functions), the
    system clock, kernel memory, the NLS manager. Each call may change the
    state [W] of the world. *)
Class FatWorld (W : Type) := {
  block_get : bytes → W → Z * W;
  block_release : W → W;
  bops_open : W → Z * W;
  bops_close : W → W;
  bops_revalidate : W → Z * W;
  bops_get_medium_info : W → (Z * (Z * Z)) * W;
  bops_read : Z → Z → Z → W → (Z * bytes) * W;
  bops_write : bytes → Z → Z → Z → W → Z * W;
  bops_test_unit_ready : W → Z * W;
  fd32_get_date : W → (Z * Z * Z) * W;
  fd32_get_time : W → (Z * Z * Z * Z) * W;
  fd32_kmem_get : Z → W → Z * W;
  fd32_kmem_free : Z → Z → W → W;
  nls_get_default : W → (Z * option nls_operations) * W;
  nls_release : W → W }.

(** A bound on the iterations of the loops whose length depends on the data. *)
Class Fuel := fuel : nat.

#[export] Instance world_pages `{FatWorld W} : PageSource W := {|
  page_alloc := fd32_kmem_get SLABMEM_PAGE_SIZE;
  page_free p := fd32_kmem_free p SLABMEM_PAGE_SIZE |}.

(** The memory of the driver. [fs_vol] is [None] when no volume is mounted: the
    structure has been freed and may not be accessed. *)
Record fs (W : Type) := mkFs {
  fs_world : W;
  fs_vol : option Volume;
  fs_files : gmap Z File;
  fs_dentries : gmap Z Dentry;
  fs_channels : gmap Z Channel;
  fs_words : gmap Z Z;
  fs_pages : list Z }.
Arguments mkFs {W}. Arguments fs_world {W}. Arguments fs_vol {W}. Arguments fs_files {W}.
Arguments fs_dentries {W}. Arguments fs_channels {W}. Arguments fs_words {W}.
Arguments fs_pages {W}.
#[export] Instance fs_eta W : Eta (fs W) := λ r,
  mkFs (fs_world r) (fs_vol r) (fs_files r) (fs_dentries r) (fs_channels r) (fs_words r)
    (fs_pages r).

(** Address of the root node, embedded in [struct Volume]. *)
Definition root_dentry : Z := 4.

(** * Accesses *)
Section access.
Context {W : Type}.
Notation FM := (M (fs W)).

Definition getv : FM Volume := v ← gets fs_vol; deref v.
Definition geo {A} (f : Geometry → A) : FM A := v ← getv; mret (f (v_geo v)).
Definition modv (f : Volume → Volume) : FM () :=
  v ← getv; modify (λ s, s <| fs_vol := Some (f v) |>).
Definition modcache (f : Cache → Cache) : FM () := modv (λ v, v <| v_cache ::= f |>).
Definition modlud (f : LookupData → LookupData) : FM () := modv (λ v, v <| v_lud ::= f |>).

Definition getbuf (b : nat) : FM Buffer :=
  v ← getv; deref (v_buffers (v_cache v) !! b).
Definition modbuf (b : nat) (f : Buffer → Buffer) : FM () :=
  x ← getbuf b; modcache (λ c, c <| v_buffers ::= <[b := f x]> |>).

(** [&b->data[ofs]]: reading and writing [n] bytes. *)
Definition read_data (b : nat) (ofs n : Z) : FM bytes :=
  x ← getbuf b;
  if in_block (b_data x) ofs n then mret (slice (b_data x) ofs n) else fault.
Definition write_data (b : nat) (ofs : Z) (bs : bytes) : FM () :=
  x ← getbuf b;
  if in_block (b_data x) ofs (Z.of_nat (length bs))
  then modbuf b (λ x, x <| b_data ::= λ d, poke d ofs bs |>) else fault.

Definition getfile (f : Z) : FM File := x ← gets (λ s, fs_files s !! f); deref x.
Definition putfile (f : Z) (x : File) : FM () :=
  if nz f then modify (λ s, s <| fs_files ::= <[f := x]> |>) else fault.
Definition modfile (f : Z) (g : File → File) : FM () := x ← getfile f; putfile f (g x).

Definition getdentry (d : Z) : FM Dentry := x ← gets (λ s, fs_dentries s !! d); deref x.
Definition putdentry (d : Z) (x : Dentry) : FM () :=
  if nz d then modify (λ s, s <| fs_dentries ::= <[d := x]> |>) else fault.
Definition moddentry (d : Z) (g : Dentry → Dentry) : FM () := x ← getdentry d; putdentry d (g x).

Definition getchannel (c : Z) : FM Channel := x ← gets (λ s, fs_channels s !! c); deref x.
Definition putchannel (c : Z) (x : Channel) : FM () :=
  if nz c then modify (λ s, s <| fs_channels ::= <[c := x]> |>) else fault.
Definition modchannel (c : Z) (g : Channel → Channel) : FM () :=
  x ← getchannel c; putchannel c (g x).

(** A call of the environment. *)
Definition call {A} (f : W → A * W) : FM A :=
  r ← gets (λ s, f (fs_world s));
  modify (λ s, s <| fs_world := snd r |>);;
  mret (fst r).
Definition call_ (f : W → W) : FM () := modify (λ s, s <| fs_world ::= f |>).

(** The slab allocator run on one of the volume's caches. *)
Definition with_slab `{FatWorld W} {A} (cache : Volume → SlabCache)
    (set : SlabCache → Volume → Volume) (m : M (SlabCache * arena W) A) : FM A :=
  v ← getv;
  s ← gets (λ s, s);
  match m (cache v, mkArena (fs_words s) (fs_pages s) (fs_world s)) with
  | Done a (c, ar) =>
      modify (λ s, s <| fs_vol := Some (set c v) |> <| fs_words := words ar |>
                     <| fs_pages := held ar |> <| fs_world := source ar |>);;
      mret a
  | Fault => fault
  | NoFuel => nofuel
  end.
Definition on_files_slab `{FatWorld W} {A} : M (SlabCache * arena W) A → FM A :=
  with_slab v_files_slab (λ c v, v <| v_files_slab := c |>).
Definition on_dentries_slab `{FatWorld W} {A} : M (SlabCache * arena W) A → FM A :=
  with_slab v_dentries_slab (λ c v, v <| v_dentries_slab := c |>).
Definition on_channels_slab `{FatWorld W} {A} : M (SlabCache * arena W) A → FM A :=
  with_slab v_channels_slab (λ c v, v <| v_channels_slab := c |>).

(** [slabmem_free] ends the life of the object. *)
Definition free_file `{FatWorld W} (f : Z) : FM () :=
  on_files_slab (slabmem_free f);; modify (λ s, s <| fs_files ::= delete f |>).
Definition free_dentry `{FatWorld W} (d : Z) : FM () :=
  on_dentries_slab (slabmem_free d);; modify (λ s, s <| fs_dentries ::= delete d |>).
Definition free_channel `{FatWorld W} (c : Z) : FM () :=
  on_channels_slab (slabmem_free c);; modify (λ s, s <| fs_channels ::= delete c |>).
End access.

(** [f->v] and [d->v] are the volume; a [File] field update through a channel. *)
Notation FM W := (M (fs W)).
