(* ===== verification/FatDisk.v ===== *)
(** The disk under the FAT driver: what the driver relies on of its environment
    ([FixedDisk], after the documentation of [struct BlockOperations] in
    [src/fd32/modules/block/block.h]), and an implementation of the whole
    environment in memory ([ramdisk]), which the examples run the driver on. *)
From S2P Require Import Prelude Errno Lists Nls Slab FatTypes.

(** [n] consecutive blocks. *)
Definition blocks (disk : Z → bytes) (from n : Z) : bytes :=
  concat ((λ k, disk (from + Z.of_nat k)) <$> seq 0 (Z.to_nat n)).

Section blocks.
Context (f : Z → bytes) (size : Z) (Hpos : 0 ≤ size).

Lemma blocks_S from n :
  0 ≤ n → blocks f from (n + 1) = f from ++ blocks f (from + 1) n.
Proof.
  intros Hn. unfold blocks. replace (Z.to_nat (n + 1)) with (S (Z.to_nat n)) by lia.
  simpl. rewrite Z.add_0_r. f_equal. rewrite <- fmap_S_seq, <- list_fmap_compose. f_equal.
  apply list_fmap_ext. intros ? i _. simpl. f_equal. lia.
Qed.

Lemma length_blocks from n :
  0 ≤ n → (∀ k, from ≤ k < from + n → Z.of_nat (length (f k)) = size) →
  Z.of_nat (length (blocks f from n)) = n * size.
Proof.
  intros Hn. revert from. pattern n. apply natlike_ind; [done| |done].
  clear n Hn. intros n Hn IH from Hf. unfold Z.succ. rewrite blocks_S, length_app by done.
  rewrite Nat2Z.inj_add, Hf, IH by (intros; lia || (apply Hf; lia)). lia.
Qed.

Lemma slice_blocks from n i :
  0 ≤ n → (∀ k, from ≤ k < from + n → Z.of_nat (length (f k)) = size) → 0 ≤ i < n →
  slice (blocks f from n) (i * size) size = f (from + i).
Proof.
  intros Hn. revert from i. pattern n. apply natlike_ind; [lia| |done].
  clear n Hn. intros n Hn IH from i Hf Hi. unfold Z.succ. rewrite blocks_S by done.
  assert (Z.of_nat (length (f from)) = size) as Hl by (apply Hf; lia).
  destruct (decide (i = 0)) as [->|].
  - unfold slice. simpl. rewrite drop_0, take_app_le, Z.add_0_r by lia.
    apply take_ge. lia.
  - replace (from + i) with (from + 1 + (i - 1)) by lia.
    rewrite <- (IH (from + 1) (i - 1)) by (lia || (intros; apply Hf; lia)).
    unfold slice. rewrite drop_app_ge by nia. f_equal. f_equal. nia.
Qed.
End blocks.

(** * The interface

    A medium that is not removed: [disk_size w] blocks of [disk_block] bytes.
    A transfer may be short only near the end of the device; nothing but a
    write changes the blocks. *)
Class FixedDisk (W : Type) `{FatWorld W} := {
  disk_block : Z;
  disk_size : W → Z;
  disk : W → Z → bytes;
  disk_block_pos : 0 < disk_block;
  disk_length w n : 0 ≤ n < disk_size w → Z.of_nat (length (disk w n)) = disk_block;
  disk_read from count w :
    0 ≤ from < disk_size w → 0 < count →
    let k := Z.min count (disk_size w - from) in
    (bops_read from count 0 w).1 = (k, blocks (disk w) from k)
    ∧ disk_size (bops_read from count 0 w).2 = disk_size w
    ∧ ∀ n, disk (bops_read from count 0 w).2 n = disk w n;
  disk_write l from count w :
    0 ≤ from → 0 < count → from + count ≤ disk_size w →
    Z.of_nat (length l) = count * disk_block →
    (bops_write l from count 0 w).1 = count
    ∧ disk_size (bops_write l from count 0 w).2 = disk_size w
    ∧ ∀ n, disk (bops_write l from count 0 w).2 n =
           if (from <=? n) && (n <? from + count)
           then slice l ((n - from) * disk_block) disk_block else disk w n;
  disk_date w : disk_size (fd32_get_date w).2 = disk_size w
    ∧ ∀ n, disk (fd32_get_date w).2 n = disk w n;
  disk_time w : disk_size (fd32_get_time w).2 = disk_size w
    ∧ ∀ n, disk (fd32_get_time w).2 n = disk w n;
  disk_kmem_get z w : disk_size (fd32_kmem_get z w).2 = disk_size w
    ∧ ∀ n, disk (fd32_kmem_get z w).2 n = disk w n;
  disk_kmem_free p z w : disk_size (fd32_kmem_free p z w) = disk_size w
    ∧ ∀ n, disk (fd32_kmem_free p z w) n = disk w n }.

(** * A disk in memory *)

(** The blocks, the next free address of kernel memory, and the clock. *)
Record ramdisk := mkRam {
  ram_blocks : list bytes;
  ram_brk : Z;
  ram_date : Z * Z * Z;
  ram_time : Z * Z * Z * Z }.
#[export] Instance ramdisk_eta : Eta ramdisk :=
  λ r, mkRam (ram_blocks r) (ram_brk r) (ram_date r) (ram_time r).

Definition RAM_BLOCK : Z := 512.
Definition ram_size (r : ramdisk) : Z := Z.of_nat (length (ram_blocks r)).

(** Blocks have their size by construction: short ones read as padded. *)
Definition pad_block (l : bytes) : bytes := take 512 (l ++ replicate (512 - length l) 0).
Definition ram_block (r : ramdisk) (n : Z) : bytes :=
  if n <? 0 then [] else pad_block (default [] (ram_blocks r !! Z.to_nat n)).

Definition ram_read (from count : Z) (r : ramdisk) : Z * bytes :=
  if (0 <=? from) && (from <? ram_size r) then
    let k := Z.min count (ram_size r - from) in (k, blocks (ram_block r) from k)
  else (- EIO, []).

(** [count] blocks of [l] stored from block [from] on. *)
Fixpoint store_blocks (bs : list bytes) (from : nat) (count : nat) (l : bytes) : list bytes :=
  match count with
  | O => bs
  | S count => store_blocks (<[from := take 512 l]> bs) (S from) count (drop 512 l)
  end.
Definition ram_write (l : bytes) (from count : Z) (r : ramdisk) : Z * ramdisk :=
  if (0 <=? from) && (from <? ram_size r) then
    let k := Z.min count (ram_size r - from) in
    (k, r <| ram_blocks ::= λ bs, store_blocks bs (Z.to_nat from) (Z.to_nat k) l |>)
  else (- EIO, r).

(** Kernel memory starts at 65536, comes in pages of 4096 bytes and is never reused. *)
Definition ram_kmem_get (size : Z) (r : ramdisk) : Z * ramdisk :=
  let b := Z.max 65536 (ram_brk r) in (b, r <| ram_brk := b + (size + 4095) / 4096 * 4096 |>).

#[export] Instance ram_world : FatWorld ramdisk := {|
  block_get _ r := (0, r);
  block_release r := r;
  bops_open r := (0, r);
  bops_close r := r;
  bops_revalidate r := (0, r);
  bops_get_medium_info r := ((0, (ram_size r, RAM_BLOCK)), r);
  bops_read from count _ r := (ram_read from count r, r);
  bops_write l from count _ r := ram_write l from count r;
  bops_test_unit_ready r := (0, r);
  fd32_get_date r := (ram_date r, r);
  fd32_get_time r := (ram_time r, r);
  fd32_kmem_get := ram_kmem_get;
  fd32_kmem_free _ _ r := r;
  nls_get_default r := ((0, Some DefaultCodePage.default_nls_operations), r);
  nls_release r := r |}.

(** * Its laws *)

Lemma pad_block_length l : length (pad_block l) = 512%nat.
Proof. unfold pad_block. rewrite length_take, length_app, length_replicate. lia. Qed.

Lemma pad_block_id l : length l = 512%nat → pad_block l = l.
Proof. intros Hl. unfold pad_block. rewrite Hl, Nat.sub_diag, app_nil_r. apply take_ge. lia. Qed.

Lemma store_blocks_length bs from count l : length (store_blocks bs from count l) = length bs.
Proof.
  revert bs from l; induction count as [|count IH]; intros bs from l; simpl; [done|].
  by rewrite IH, length_insert.
Qed.

Lemma store_blocks_lookup bs from count l n :
  (from + count ≤ length bs)%nat →
  store_blocks bs from count l !! n =
    if decide (from ≤ n < from + count)%nat then Some (take 512 (drop (512 * (n - from)) l))
    else bs !! n.
Proof.
  revert bs from l; induction count as [|count IH]; intros bs from l Hle; cbn [store_blocks].
  - destruct (decide _); [lia|done].
  - rewrite IH by (rewrite length_insert; lia).
    destruct (decide (S from ≤ n < S from + count)%nat), (decide (from ≤ n < from + S count)%nat);
      try lia.
    + rewrite drop_drop. do 3 f_equal. lia.
    + replace n with from by lia. rewrite list_lookup_insert_eq by lia.
      by rewrite Nat.sub_diag, Nat.mul_0_r, drop_0.
    + rewrite list_lookup_insert_ne by lia. done.
Qed.

#[export] Instance ram_fixed : FixedDisk ramdisk.
Proof.
  refine {| disk_block := RAM_BLOCK; disk_size := ram_size; disk := ram_block |};
    try (intros; split; done).
  - intros w n Hn. cbv beta. unfold ram_block.
    rewrite (proj2 (Z.ltb_ge _ _)) by lia. by rewrite pad_block_length.
  - intros from count w Hfrom Hcount k. simpl. unfold ram_read.
    rewrite (proj2 (Z.leb_le _ _)), (proj2 (Z.ltb_lt _ _)) by lia. done.
  - intros l from count w Hfrom Hcount Hle Hl. cbn [bops_write ram_world]. unfold ram_write.
    rewrite (proj2 (Z.leb_le _ _)), (proj2 (Z.ltb_lt from _)) by lia. simpl.
    rewrite Z.min_l by lia. unfold ram_size in *. simpl.
    rewrite store_blocks_length. split_and!; [done..|]. intros n.
    unfold ram_block. cbn [ram_blocks]. rewrite store_blocks_lookup by lia.
    destruct (Z.ltb_spec n 0), (Z.leb_spec from n), (Z.ltb_spec n (from + count)); cbn [andb];
      try lia; try done; try (destruct (decide _); try lia; try done).
    + unfold slice, RAM_BLOCK in *. cbn [default from_option].
      replace (512 * (Z.to_nat n - Z.to_nat from))%nat with (Z.to_nat ((n - from) * 512)) by lia.
      apply pad_block_id. rewrite length_take, length_drop. nia.
Defined.
