(* ===== verification/FatBuffer.v ===== *)
(** The FAT driver's access to the hosting block device
    ([src/fd32/modules/fat/fd32.c]) and its sector buffers
    ([src/fd32/modules/fat/volume.c]): lookup, write back, buffered read, media
    change. *)
From S2P Require Import Prelude Errno Lists Nls Slab FatTypes.
Import Slab.

(** * Block device errors ([src/fd32/modules/block/block.h]) *)
Definition BLOCK_ERROR_CATEGORY : Z := 0x80800000.
Definition BLOCK_GET_SENSE (value : Z) : Z := Z.land (u32 value) 0x003F0000.
Definition BLOCK_IS_ERROR (value : Z) : bool :=
  Z.land (u32 value) 0xFFC00000 =? BLOCK_ERROR_CATEGORY.
Definition BLOCK_SENSE_ATTENTION : Z := Z.shiftl 6 16.
Definition BLOCK_RW_NOCACHE : Z := 1.

Definition BUF_VALID : Z := 1.
Definition BUF_DIRTY : Z := 2.

Section buffer.
Context {W : Type} `{FatWorld W} `{Fuel}.
Notation FM := (M (fs W)).

(** * Volume release *)

Definition free_volume : FM () :=
  on_files_slab (slabmem_destroy fuel);;
  on_channels_slab (slabmem_destroy fuel);;
  modify (λ s, s <| fs_files := ∅ |> <| fs_channels := ∅ |>);;
  v ← getv;
  (if nz (v_buffers_ptr v) then
     (if nz (v_buffer_data_ptr v) then
        call_ (fd32_kmem_free (v_buffer_data_ptr v)
          (u32 (v_bytes_per_sector (v_geo v) * v_sectors_per_buffer (v_geo v)
                * v_num_buffers (v_geo v))))
      else mret ());;
     call_ (fd32_kmem_free (v_buffers_ptr v) (u32 (sizeof_Buffer * v_num_buffers (v_geo v))))
   else mret ());;
  (if (v_nls v) then call_ nls_release else mret ());;
  (if v_blk_open v then
     call_ bops_close;; modv (λ v, v <| v_blk_open := false |>)
   else mret ());;
  (if v_blk_bops v then call_ block_release else mret ());;
  modv (λ v, v <| v_magic := 0 |>);;
  call_ (fd32_kmem_free (v_self v) sizeof_Volume);;
  modify (λ s, s <| fs_dentries ::= delete root_dentry |> <| fs_vol := None |>).

Definition fat_unmount : FM Z :=
  v ← getv;
  guard_ret (nz (Z.of_nat (length (v_channels_open v)))) (- EBUSY) (
  free_volume;;
  mret 0).

(** * Media change *)

(** [for (; k--; b++)]: a clean buffer is discarded, a dirty one stops the loop. *)
Fixpoint discard_buffers (bs : list Buffer) : Z * list Buffer :=
  match bs with
  | [] => (0, [])
  | b :: bs =>
      if has (b_flags b) BUF_DIRTY then (- EBUSY, b :: bs)
      else let '(res, bs) := discard_buffers bs in (res, b <| b_flags := 0 |> :: bs)
  end.

Definition fat_handle_attention : FM Z :=
  res ←? call bops_revalidate;
  r ← call bops_get_medium_info;
  let '(res, (_, block_bytes)) := r in
  guard_ret (res <? 0) res (
  secbuf_ptr ← call (fd32_kmem_get block_bytes);
  guard_ret (negb (nz secbuf_ptr)) (- ENOMEM) (
  r ← call (bops_read 0 1 BLOCK_RW_NOCACHE);
  let '(res, secbuf) := r in
  guard_ret (res <? 0) (- EIO) (
  if negb (in_block secbuf 0 sizeof_bpb) then fault else
  v ← getv;
  let '(serial_number, volume_label) :=
    match v_fat_type (v_geo v) with
    | FAT32 => (bpb32_serial_number secbuf, bpb32_volume_label secbuf)
    | _ => (bpb16_serial_number secbuf, bpb16_volume_label secbuf)
    end in
  call_ (fd32_kmem_free secbuf_ptr block_bytes);;
  if negb (v_serial_number (v_geo v) =? serial_number)
     || negb (bool_decide (v_volume_label (v_geo v) = volume_label)) then
    guard_ret (nz (Z.of_nat (length (v_channels_open v)))) (- EBUSY) (
    fat_unmount;;
    mret (- ENOTMOUNT))
  else if negb (nz (Z.of_nat (length (v_channels_open v)))) then
    let '(res, bs) := discard_buffers (v_buffers (v_cache v)) in
    modcache (λ c, c <| v_buffers := bs |>);;
    mret res
  else mret 0))).

(** * Transfers, repeated after a media change *)

Fixpoint blockdev_retry (k : nat) (xfer : FM Z) : FM Z :=
  match k with
  | O => mret (- EIO)
  | S k =>
      res ← xfer;
      if (0 <=? res) || negb (BLOCK_IS_ERROR res)
         || negb (BLOCK_GET_SENSE res =? BLOCK_SENSE_ATTENTION) then mret res
      else res ←? fat_handle_attention; blockdev_retry k xfer
  end.

(** The device stores what it read at [b->data]. *)
Definition fat_blockdev_read (b : nat) (count from : Z) : FM Z :=
  blockdev_retry 3 (
    r ← call (bops_read from count 0);
    x ← getbuf b;
    if in_block (b_data x) 0 (Z.of_nat (length (snd r))) then
      modbuf b (λ x, x <| b_data ::= λ d, poke d 0 (snd r) |>);; mret (fst r)
    else fault).

Definition fat_blockdev_write (b : nat) (count from : Z) : FM Z :=
  blockdev_retry 3 (
    x ← getbuf b;
    bps ← geo v_bytes_per_sector;
    if in_block (b_data x) 0 (count * bps) then
      call (bops_write (slice (b_data x) 0 (count * bps)) from count 0)
    else fault).

Definition fat_blockdev_test_unit_ready : FM Z :=
  res ← call bops_test_unit_ready;
  if BLOCK_IS_ERROR res && (BLOCK_GET_SENSE res =? BLOCK_SENSE_ATTENTION)
  then fat_handle_attention else mret res.

(** * Buffers *)

Definition buffers_sector (sector : Z) (b : Buffer) : bool :=
  has (b_flags b) BUF_VALID && (b_sector b <=? sector) && (sector <? u32 (b_sector b + b_count b)).

(** The index of the first buffer that holds the sector. *)
Fixpoint find_from (sector : Z) (k : nat) (bs : list Buffer) : option nat :=
  match bs with
  | [] => None
  | b :: bs => if buffers_sector sector b then Some k else find_from sector (S k) bs
  end.
Definition find_buffer (v : Volume) (sector : Z) : option nat :=
  find_from sector 0 (v_buffers (v_cache v)).

Definition flush_buffer (b : nat) : FM Z :=
  x ← getbuf b;
  if Z.land (b_flags x) (Z.lor BUF_VALID BUF_DIRTY) =? Z.lor BUF_VALID BUF_DIRTY then
    res ← fat_blockdev_write b (b_count x) (b_sector x);
    x ← getbuf b;
    guard_ret ((res <? 0) || negb (res =? b_count x)) (- EIO) (
    modbuf b (λ x, x <| b_flags ::= λ f, Z.land f (Z.lnot BUF_DIRTY) |>);;
    mret 0)
  else mret 0.

Definition fat_dirtybuf (b : nat) (write_through : bool) : FM Z :=
  x ← getbuf b;
  if has (b_flags x) BUF_VALID then
    modbuf b (λ x, x <| b_flags ::= λ f, Z.lor f BUF_DIRTY |>);;
    if write_through then flush_buffer b else mret 0
  else mret (- EINVAL).

(** The buffer that receives a sector that is not buffered is [*buffer], or
    the least recently used one if that is null. *)
Definition load_buffer (sector : Z) (buffer : option nat) : FM (Z + nat) :=
  v ← getv;
  b ← match buffer with
      | Some b => mret b
      | None => deref (head (v_buffers_lru (v_cache v)))
      end;
  res ← flush_buffer b;
  if res <? 0 then mret (inl res)
  else
    modbuf b (λ x, x <| b_flags := 0 |>);;
    spb ← geo v_sectors_per_buffer;
    modbuf b (λ x, x <| b_sector := Z.land sector (u32 (Z.lnot (spb - 1))) |>);;
    x ← getbuf b;
    res ← fat_blockdev_read b spb (b_sector x);
    if res <? 0 then mret (inl (- EIO))
    else
      x ← getbuf b;
      if u32 (b_sector x + res) <=? sector then mret (inl (- EIO))
      else
        modbuf b (λ x, x <| b_count := res |>);;
        modbuf b (λ x, x <| b_flags := BUF_VALID |>);;
        mret (inr b).

(** Returns the byte offset of the sector in the buffer, and [*buffer]. *)
Definition fat_readbuf (sector : Z) (buffer : option nat) (read_through : bool)
    : FM (Z * option nat) :=
  modcache (λ c, c <| v_buf_hit ::= λ n, u32 (n + 1) |>);;
  v ← getv;
  r ← match find_buffer v sector with
      | Some b => mret (inr b)
      | None =>
          modcache (λ c, c <| v_buf_hit ::= λ n, u32 (n - 1) |>);;
          modcache (λ c, c <| v_buf_miss ::= λ n, u32 (n + 1) |>);;
          load_buffer sector buffer
      end;
  match r with
  | inl res => mret (res, buffer)
  | inr b =>
      modcache (λ c, c <| v_buf_access ::= λ n, u32 (n + 1) |>);;
      modcache (λ c, c <| v_buffers_lru ::= erase b |>);;
      modcache (λ c, c <| v_buffers_lru ::= push_back b |>);;
      x ← getbuf b;
      lb ← geo v_log_bytes_per_sector;
      mret (s32 (Z.shiftl (u32 (sector - b_sector x)) lb), Some b)
  end.

(** [fat_readbuf] followed by [if (res < 0) return res]: the rest gets the
    offset and the buffer. *)
Definition with_sector (sector : Z) (buffer : option nat) (k : Z → nat → FM Z) : FM Z :=
  r ← fat_readbuf sector buffer false;
  let '(res, b) := r in
  guard_ret (res <? 0) res (b ← deref b; k res b).

Fixpoint flush_all (k : nat) (n : nat) : FM Z :=
  match n with
  | O => mret 0
  | S n => res ←? flush_buffer k; flush_all (S k) n
  end.

(** [fsi] is [b->data] cast to a structure pointer, [+ res]: the cast binds tighter than
    the addition, so [res] counts structures of 512 bytes. *)
Definition fat_sync : FM Z :=
  v ← getv;
  let write_fsinfo :=
    with_sector 1 None (λ res b,
      let fsi := res * sizeof_fsinfo in
      write_data b (fsi + fsi_free_clusters_ofs) (le32 (v_free_clusters v));;
      write_data b (fsi + fsi_next_free_ofs) (le32 (v_next_free v));;
      fat_dirtybuf b false;;
      modv (λ v, v <| v_fsinfo_changed := false |>);;
      mret 0) in
  res ←? (if bool_decide (v_fat_type (v_geo v) = FAT32) && v_fsinfo_changed v
          then write_fsinfo else mret 0);
  nb ← geo v_num_buffers;
  flush_all 0 (Z.to_nat nb).
End buffer.
