(* ===== verification/FatCache.v ===== *)
(** Correctness of the sector buffers ([FatBuffer]): the invariant of the
    buffers, the contents of the volume they present ([view], the sectors as
    the driver sees them), and the specifications of the operations over it.

    The abstract specification of the component is a disk: reading a sector
    gives its bytes, a store through a buffer changes these bytes and no
    others, whatever is buffered and whatever has been written back. *)
From S2P Require Import Prelude Errno Lists Nls Slab FatTypes FatDisk FatBuffer.

Section cache.
Context {W : Type} `{FW : FatWorld W} `{FD : !FixedDisk W} `{FL : Fuel}.
Notation FM := (M (fs W)).
Implicit Types (g : Geometry) (c : Cache) (w : W) (v : Volume) (s : fs W).

(** * The invariant *)

(** A geometry the buffers work with: sectors are blocks of the device, and a
    buffer is a power of two of them. *)
Record geo_ok g : Prop := {
  go_bps : v_bytes_per_sector g = disk_block;
  go_log : 9 ≤ v_log_bytes_per_sector g ≤ 12 ∧ v_bytes_per_sector g = 2 ^ v_log_bytes_per_sector g;
  go_spb : ∃ k, 0 ≤ k < 16 ∧ v_sectors_per_buffer g = 2 ^ k;
  go_small : v_bytes_per_sector g * v_sectors_per_buffer g < 2 ^ 31;
  go_two : 2 ≤ v_num_buffers g }.

Definition valid (b : Buffer) : Prop := has (b_flags b) BUF_VALID = true.
Definition dirty (b : Buffer) : Prop := has (b_flags b) BUF_DIRTY = true.
#[local] Instance valid_dec b : Decision (valid b) := decide (_ = true).
#[local] Instance dirty_dec b : Decision (dirty b) := decide (_ = true).

(** The bytes of a sector in a buffer that holds it. *)
Definition buf_sector g (b : Buffer) (n : Z) : bytes :=
  slice (b_data b) ((n - b_sector b) * v_bytes_per_sector g) (v_bytes_per_sector g).

Record buf_ok g w (b : Buffer) : Prop := {
  bo_len : Z.of_nat (length (b_data b)) = v_bytes_per_sector g * v_sectors_per_buffer g;
  bo_flags : b_flags b = 0 ∨ b_flags b = BUF_VALID ∨ b_flags b = Z.lor BUF_VALID BUF_DIRTY;
  bo_valid : valid b →
    0 ≤ b_sector b < disk_size w ∧ b_sector b mod v_sectors_per_buffer g = 0
    ∧ b_count b = Z.min (v_sectors_per_buffer g) (disk_size w - b_sector b) }.

(** [X] are the buffers that have been stored to and not been marked dirty yet. *)
Record cinv g (X : list nat) c w : Prop := {
  ci_geo : geo_ok g;
  ci_size : disk_size w < 2 ^ 32;
  ci_len : length (v_buffers c) = Z.to_nat (v_num_buffers g);
  ci_lru : v_buffers_lru c ≡ₚ seq 0 (Z.to_nat (v_num_buffers g));
  ci_buf k b : v_buffers c !! k = Some b → buf_ok g w b;
  ci_once k1 k2 b1 b2 :
    v_buffers c !! k1 = Some b1 → v_buffers c !! k2 = Some b2 → valid b1 → valid b2 →
    b_sector b1 = b_sector b2 → k1 = k2;
  ci_clean k b n :
    v_buffers c !! k = Some b → k ∉ X → valid b → ¬ dirty b →
    buffers_sector n b = true → buf_sector g b n = disk w n }.

(** The sectors as the driver sees them. *)
Definition view g c w (n : Z) : bytes :=
  match find_from n 0 (v_buffers c) with
  | Some k => default [] ((λ b, buf_sector g b n) <$> v_buffers c !! k)
  | None => disk w n
  end.

(** Offset [ofs] of buffer [k] is where sector [n] starts. *)
Definition at_sector g c (k : nat) (ofs n : Z) : Prop :=
  ∃ b, v_buffers c !! k = Some b ∧ buffers_sector n b = true
       ∧ ofs = (n - b_sector b) * v_bytes_per_sector g.

(** Buffer [k] replaced. *)
Definition setbuf (k : nat) (b : Buffer) c : Cache := c <| v_buffers ::= <[k := b]> |>.

(** * Finding a sector *)

Lemma find_from_spec n k bs :
  match find_from n k bs with
  | Some j => ∃ b, (k ≤ j)%nat ∧ bs !! (j - k)%nat = Some b ∧ buffers_sector n b = true
  | None => ∀ b, b ∈ bs → buffers_sector n b = false
  end.
Proof.
  revert k; induction bs as [|b bs IH]; intros k; simpl; [set_solver|].
  destruct (buffers_sector n b) eqn:Hb.
  - exists b. rewrite Nat.sub_diag. auto.
  - specialize (IH (S k)). destruct (find_from n (S k) bs) as [j|].
    + destruct IH as (b' & Hle & Hl & Hs). exists b'. split; [lia|].
      replace (j - k)%nat with (S (j - S k)) by lia. done.
    + set_solver.
Qed.

Lemma buffers_sector_valid n b : buffers_sector n b = true → valid b.
Proof. unfold buffers_sector, valid. by rewrite !andb_true_iff; intros [[? _] _]. Qed.

Lemma spb_pos g : geo_ok g → 0 < v_sectors_per_buffer g.
Proof. intros H. destruct (go_spb _ H) as (k & Hk & ->). lia. Qed.
Lemma bps_pos g : geo_ok g → 0 < v_bytes_per_sector g.
Proof. intros H. rewrite (go_bps _ H). apply disk_block_pos. Qed.

(** A valid buffer holds the sectors of the device from its first one on. *)
Lemma buffers_sector_spec g w b n :
  geo_ok g → disk_size w < 2 ^ 32 → buf_ok g w b → valid b → 0 ≤ n →
  buffers_sector n b = true ↔ b_sector b = n - n mod v_sectors_per_buffer g ∧ n < disk_size w.
Proof.
  intros Hg Hsz Hb Hv Hn. destruct (bo_valid _ _ _ Hb Hv) as (Hr & Hm & Hc).
  pose proof (spb_pos g Hg) as Hp. unfold buffers_sector.
  rewrite Hv, !andb_true_iff, Z.leb_le, Z.ltb_lt. rewrite u32_small by lia.
  pose proof (Z.div_mod n (v_sectors_per_buffer g)).
  pose proof (Z.mod_pos_bound n (v_sectors_per_buffer g)).
  pose proof (Z.div_mod (b_sector b) (v_sectors_per_buffer g)).
  split.
  - intros [[_ Hle] Hlt]. split; [|lia]. rewrite Hm, Z.add_0_r in *.
    assert (n / v_sectors_per_buffer g = b_sector b / v_sectors_per_buffer g) by nia. nia.
  - intros [Heq Hlt]. split_and!; [done|lia..].
Qed.

Definition in_disk w (n : Z) : Prop := 0 ≤ n < disk_size w.

Lemma held_once g X c w n k1 k2 b1 b2 :
  cinv g X c w → 0 ≤ n → v_buffers c !! k1 = Some b1 → v_buffers c !! k2 = Some b2 →
  buffers_sector n b1 = true → buffers_sector n b2 = true → k1 = k2.
Proof.
  intros I Hn H1 H2 Hs1 Hs2.
  pose proof (buffers_sector_valid _ _ Hs1) as V1. pose proof (buffers_sector_valid _ _ Hs2) as V2.
  apply (buffers_sector_spec g w) in Hs1; eauto using ci_geo, ci_size, ci_buf.
  apply (buffers_sector_spec g w) in Hs2; eauto using ci_geo, ci_size, ci_buf.
  eapply ci_once; eauto. destruct Hs1, Hs2; congruence.
Qed.

Lemma view_held g X c w n k b :
  cinv g X c w → 0 ≤ n → v_buffers c !! k = Some b → buffers_sector n b = true →
  view g c w n = buf_sector g b n.
Proof.
  intros I Hn Hk Hs. unfold view. pose proof (find_from_spec n 0 (v_buffers c)) as Hf.
  destruct (find_from n 0 (v_buffers c)) as [j|].
  - destruct Hf as (b' & _ & Hl & Hs'). rewrite Nat.sub_0_r in Hl.
    assert (j = k) as -> by eauto using held_once. by rewrite Hk.
  - rewrite Hf in Hs; [done|]. by eapply list_elem_of_lookup_2.
Qed.

Lemma view_not_held g c w n :
  (∀ k b, v_buffers c !! k = Some b → buffers_sector n b = false) → view g c w n = disk w n.
Proof.
  intros Hn. unfold view. pose proof (find_from_spec n 0 (v_buffers c)) as Hf.
  destruct (find_from n 0 (v_buffers c)) as [j|]; [|done].
  destruct Hf as (b' & _ & Hl & Hs'). rewrite Nat.sub_0_r in Hl.
  apply Hn in Hl. congruence.
Qed.

(** Either nobody holds the sector, or one buffer does. *)
Lemma held_dec c n :
  (∃ k b, v_buffers c !! k = Some b ∧ buffers_sector n b = true)
  ∨ ∀ k b, v_buffers c !! k = Some b → buffers_sector n b = false.
Proof.
  pose proof (find_from_spec n 0 (v_buffers c)) as Hf.
  destruct (find_from n 0 (v_buffers c)) as [j|].
  - destruct Hf as (b' & _ & Hl & Hs'). rewrite Nat.sub_0_r in Hl. left; eauto.
  - right. intros k b Hk. apply Hf. by eapply list_elem_of_lookup_2.
Qed.

(** Two caches present the same volume when a sector they both hold has the
    same bytes, and a sector only one of them holds is the device's there. *)
Lemma view_clean g c w n k b :
  cinv g [] c w → 0 ≤ n → v_buffers c !! k = Some b → buffers_sector n b = true → ¬ dirty b →
  view g c w n = disk w n.
Proof.
  intros I Hn Hk Hs Hd. erewrite view_held by eauto.
  eapply ci_clean; eauto using buffers_sector_valid, not_elem_of_nil.
Qed.

(** * States that differ in the buffers and the world *)

Definition setc s c w : fs W :=
  s <| fs_world := w |> <| fs_vol ::= fmap (λ v, v <| v_cache := c |>) |>.

Lemma setc_setc s c w c' w' : setc (setc s c w) c' w' = setc s c' w'.
Proof. unfold setc. by destruct s as [? [[]|] ?????]. Qed.

Lemma setc_id s v : fs_vol s = Some v → setc s (v_cache v) (fs_world s) = s.
Proof. unfold setc. destruct s as [? [[]|] ?????]; intros [= <-]. done. Qed.

Lemma wp_setc_id {A} (m : FM A) s v (Q : A → fs W → Prop) :
  fs_vol s = Some v → wp m Q (setc s (v_cache v) (fs_world s)) → wp m Q s.
Proof. intros Hv. by rewrite setc_id. Qed.

Section with_volume.
Context (s : fs W) (v : Volume) (Hv : fs_vol s = Some v).

Lemma wp_getv_c c w (Q : Volume → fs W → Prop) :
  Q (v <| v_cache := c |>) (setc s c w) → wp getv Q (setc s c w).
Proof.
  intros HQ. unfold getv. apply wp_bind, wp_gets. eapply wp_deref; [|exact HQ].
  unfold setc. simpl. by rewrite Hv.
Qed.

Lemma wp_geo_c {A} (f : Geometry → A) c w (Q : A → fs W → Prop) :
  Q (f (v_geo v)) (setc s c w) → wp (geo f) Q (setc s c w).
Proof. intros HQ. unfold geo. apply wp_bind, wp_getv_c. done. Qed.

Lemma wp_modcache_c f c w (Q : () → fs W → Prop) :
  Q () (setc s (f c) w) → wp (modcache f) Q (setc s c w).
Proof.
  intros HQ. unfold modcache, modv. apply wp_bind, wp_getv_c. apply wp_modify.
  replace (upd _ _ _) with (setc s (f c) w); [done|].
  unfold setc. simpl. by rewrite Hv.
Qed.

Lemma wp_getbuf_c k b c w (Q : Buffer → fs W → Prop) :
  v_buffers c !! k = Some b → Q b (setc s c w) → wp (getbuf k) Q (setc s c w).
Proof.
  intros Hk HQ. unfold getbuf. apply wp_bind, wp_getv_c. by eapply wp_deref.
Qed.

Lemma wp_modbuf_c k b f c w (Q : () → fs W → Prop) :
  v_buffers c !! k = Some b → Q () (setc s (c <| v_buffers ::= <[k := f b]> |>) w) →
  wp (modbuf k f) Q (setc s c w).
Proof.
  intros Hk HQ. unfold modbuf. apply wp_bind. eapply wp_getbuf_c; [done|].
  by apply wp_modcache_c.
Qed.

Lemma wp_call_c {A} (f : W → A * W) c w (Q : A → fs W → Prop) :
  Q (f w).1 (setc s c (f w).2) → wp (call f) Q (setc s c w).
Proof. intros HQ. unfold call. do 2 apply wp_bind. unfold setc in *; simpl in *. done. Qed.
End with_volume.

Lemma view_intro g c w n l :
  (∀ k b, v_buffers c !! k = Some b → buffers_sector n b = true → buf_sector g b n = l) →
  ((∀ k b, v_buffers c !! k = Some b → buffers_sector n b = false) → disk w n = l) →
  view g c w n = l.
Proof.
  intros H1 H2. unfold view. pose proof (find_from_spec n 0 (v_buffers c)) as Hf.
  destruct (find_from n 0 (v_buffers c)) as [j|].
  - destruct Hf as (b' & _ & Hl & Hs'). rewrite Nat.sub_0_r in Hl. rewrite Hl. simpl. eauto.
  - apply H2. intros k b Hk. apply Hf. by eapply list_elem_of_lookup_2.
Qed.

(** * Writing a buffer back *)

(** What a flush leaves of the buffer. *)
Definition flushed (b : Buffer) : Buffer := b <| b_flags ::= λ f, Z.land f (Z.lnot BUF_DIRTY) |>.

Lemma flushed_flags g w b : buf_ok g w b → b_flags (flushed b) = 0 ∨ b_flags (flushed b) = BUF_VALID.
Proof. intros H. destruct (bo_flags _ _ _ H) as [E|[E|E]]; simpl; rewrite E; auto. Qed.

Lemma flushed_valid b : valid (flushed b) ↔ valid b.
Proof.
  unfold valid, has, flushed. simpl. f_equiv. f_equal.
  apply Z.bits_inj'. intros i Hi. rewrite !Z.land_spec. unfold BUF_VALID, BUF_DIRTY.
  rewrite Z.lnot_spec by lia. change 1 with (2 ^ 0). change 2 with (2 ^ 1).
  rewrite !Z.pow2_bits_eqb by lia.
  destruct (Z.eqb_spec 0 i), (Z.eqb_spec 1 i); subst; try lia; cbn [negb]; by rewrite ?andb_false_r, ?andb_true_r.
Qed.

Lemma flushed_sector n b : buffers_sector n (flushed b) = buffers_sector n b.
Proof.
  unfold buffers_sector. f_equal. f_equal. apply eq_bool_prop_intro.
  pose proof (flushed_valid b). unfold valid in *.
  rewrite !Is_true_true. done.
Qed.

Lemma buf_ok_flushed g w b : buf_ok g w b → buf_ok g w (flushed b).
Proof.
  intros H. pose proof (flushed_flags _ _ _ H). destruct H as [Hl Hf Hval].
  split; [done|tauto|]. intros Hv. apply (proj1 (flushed_valid b)) in Hv. by apply Hval.
Qed.

(** The driver's write of a whole buffer. *)
Definition written_back w (b : Buffer) w' : Prop :=
  disk_size w' = disk_size w
  ∧ ∀ n, disk w' n = if (b_sector b <=? n) && (n <? b_sector b + b_count b)
                     then slice (b_data b) ((n - b_sector b) * disk_block) disk_block
                     else disk w n.

Lemma wp_blockdev_write s v c w k b g (Q : Z → fs W → Prop) :
  fs_vol s = Some v → v_geo v = g → geo_ok g → buf_ok g w b → valid b →
  v_buffers c !! k = Some b →
  (∀ w', written_back w b w' → Q (b_count b) (setc s c w')) →
  wp (fat_blockdev_write k (b_count b) (b_sector b)) Q (setc s c w).
Proof.
  intros Hv Hg Hgo Hb Hval Hk HQ. destruct (bo_valid _ _ _ Hb Hval) as (Hr & _ & Hc).
  pose proof (bps_pos g Hgo) as Hp. pose proof (spb_pos g Hgo) as Hs.
  pose proof (bo_len _ _ _ Hb) as Hl. pose proof (go_bps _ Hgo) as Hbps.
  unfold fat_blockdev_write. simpl. apply wp_bind, wp_bind.
  eapply wp_getbuf_c; [done..|]. apply wp_bind. eapply wp_geo_c; [done|]. rewrite Hg.
  rewrite in_block_true by nia. apply wp_call_c.
  destruct (disk_write (slice (b_data b) 0 (b_count b * v_bytes_per_sector g))
              (b_sector b) (b_count b) w) as (Hres & Hsz & Hd); [lia..| |].
  { rewrite length_slice; nia. }
  rewrite Hres. rewrite (proj2 (Z.leb_le _ _)) by lia. simpl. apply wp_ret, HQ.
  split; [done|]. intros n. rewrite Hd.
  destruct (Z.leb_spec (b_sector b) n), (Z.ltb_spec n (b_sector b + b_count b)); simpl; try done.
  rewrite slice_slice by nia. done.
Qed.

Lemma cinv_flush g c w w' k b :
  cinv g [] c w → v_buffers c !! k = Some b → valid b → written_back w b w' →
  let c' := setbuf k (flushed b) c in
  cinv g [] c' w' ∧ ∀ n, 0 ≤ n → view g c' w' n = view g c w n.
Proof.
  intros I Hk Hval [Hsz Hd]. cbv zeta. unfold setbuf.
  pose proof (ci_geo _ _ _ _ I) as Hgo. pose proof (ci_buf _ _ _ _ I _ _ Hk) as Hb.
  assert (∀ n, 0 ≤ n → (b_sector b <=? n) && (n <? b_sector b + b_count b) = buffers_sector n b) as Hin.
  { intros n Hn. destruct (bo_valid _ _ _ Hb Hval) as (Hr & _ & Hc).
    pose proof (ci_size _ _ _ _ I). pose proof (spb_pos g Hgo).
    unfold buffers_sector. rewrite Hval, u32_small by lia. done. }
  assert (∀ j bj n, v_buffers c !! j = Some bj → j ≠ k → 0 ≤ n → buffers_sector n bj = true →
    disk w' n = disk w n) as Hother.
  { intros j bj n Hj Hne Hn Hs. rewrite Hd, Hin by done.
    destruct (buffers_sector n b) eqn:E; [|done]. exfalso. eauto using held_once. }
  assert (∀ n, 0 ≤ n → buffers_sector n b = true → disk w' n = buf_sector g b n) as Hme.
  { intros n Hn Hs. rewrite Hd, Hin, Hs by done. unfold buf_sector. by rewrite (go_bps _ Hgo). }
  assert (∀ j bj, <[k:=flushed b]> (v_buffers c) !! j = Some bj →
    (j = k ∧ bj = flushed b) ∨ (j ≠ k ∧ v_buffers c !! j = Some bj)) as Hlk.
  { intros j bj. rewrite list_lookup_insert_Some. naive_solver. }
  split.
  - split; simpl; try apply I.
    + rewrite Hsz. apply I.
    + rewrite length_insert. apply I.
    + intros j bj Hj. assert (buf_ok g w bj) as [? ? Hv'].
      { apply Hlk in Hj as [[-> ->]|[_ Hj]]; [by apply buf_ok_flushed|by eapply ci_buf]. }
      split; [done..|]. rewrite Hsz. done.
    + intros j1 j2 b1 b2 H1 H2 V1 V2 E.
      apply Hlk in H1 as [[-> ->]|[N1 H1]], H2 as [[-> ->]|[N2 H2]]; try done;
        rewrite ?flushed_valid in *; eapply (ci_once _ _ _ _ I); eauto.
    + intros j bj n Hj _ Vj Dj Hs. apply Hlk in Hj as [[-> ->]|[N1 Hj]].
      * rewrite flushed_sector in Hs. assert (0 ≤ n).
        { destruct (bo_valid _ _ _ Hb Hval) as (? & _). unfold buffers_sector in Hs.
          rewrite !andb_true_iff, Z.leb_le in Hs. lia. }
        by rewrite Hme.
      * assert (0 ≤ n).
        { destruct (bo_valid _ _ _ (ci_buf _ _ _ _ I _ _ Hj) Vj) as (? & _).
          unfold buffers_sector in Hs. rewrite !andb_true_iff, Z.leb_le in Hs. lia. }
        erewrite Hother by eauto. eapply (ci_clean _ _ _ _ I); eauto using not_elem_of_nil.
  - intros n Hn. apply view_intro; simpl.
    + intros j bj Hj Hs. apply Hlk in Hj as [[-> ->]|[N1 Hj]].
      * rewrite flushed_sector in Hs. erewrite view_held by eauto. done.
      * by erewrite view_held by eauto.
    + intros Hno. rewrite (view_not_held g c w n).
      * rewrite Hd, Hin by done. destruct (buffers_sector n b) eqn:E; [|done].
        specialize (Hno k (flushed b)). rewrite list_lookup_insert_eq in Hno by eauto using lookup_lt_Some.
        rewrite flushed_sector in Hno. by rewrite Hno in E.
      * intros j bj Hj. destruct (decide (j = k)) as [->|].
        -- simplify_eq. rewrite <- flushed_sector. apply (Hno k).
           apply list_lookup_insert_eq. eauto using lookup_lt_Some.
        -- apply (Hno j). by rewrite list_lookup_insert_ne.
Qed.

(** The volume presented is the same. *)
Definition same_view g c w c' w' : Prop :=
  disk_size w' = disk_size w ∧ ∀ n, 0 ≤ n → view g c' w' n = view g c w n.

Lemma same_view_refl g c w : same_view g c w c w.
Proof. done. Qed.
Lemma same_view_trans g c w c1 w1 c2 w2 :
  same_view g c w c1 w1 → same_view g c1 w1 c2 w2 → same_view g c w c2 w2.
Proof. intros [E1 H1] [E2 H2]. split; [congruence|]. intros n Hn. by rewrite H2, H1. Qed.

Definition flush_cache (k : nat) (b : Buffer) c : Cache := setbuf k (flushed b) c.

Lemma flushed_id g w b : buf_ok g w b → ¬ (valid b ∧ dirty b) → flushed b = b.
Proof.
  intros H Hn. destruct b as [sec cnt f d]. unfold flushed. simpl. f_equal.
  destruct (bo_flags _ _ _ H) as [E|[E|E]]; simpl in E; subst; try done. by destruct Hn.
Qed.

Lemma flush_cache_id g X c w k b :
  cinv g X c w → v_buffers c !! k = Some b → ¬ (valid b ∧ dirty b) → flush_cache k b c = c.
Proof.
  intros I Hk Hn. unfold flush_cache, setbuf. erewrite flushed_id by eauto using ci_buf.
  destruct c. simpl in *. by rewrite list_insert_id.
Qed.

Lemma flags_both g w b : buf_ok g w b →
  (Z.land (b_flags b) (Z.lor BUF_VALID BUF_DIRTY) =? Z.lor BUF_VALID BUF_DIRTY) = true
  ↔ valid b ∧ dirty b.
Proof.
  intros H. unfold valid, dirty.
  destruct (bo_flags _ _ _ H) as [E|[E|E]]; rewrite E; vm_compute; naive_solver.
Qed.

Lemma wp_flush_buffer s v c w k b g (Q : Z → fs W → Prop) :
  fs_vol s = Some v → v_geo v = g → cinv g [] c w → v_buffers c !! k = Some b →
  (∀ w', cinv g [] (flush_cache k b c) w' → same_view g c w (flush_cache k b c) w' →
         Q 0 (setc s (flush_cache k b c) w')) →
  wp (flush_buffer k) Q (setc s c w).
Proof.
  intros Hv Hg I Hk HQ. unfold flush_buffer. apply wp_bind. eapply wp_getbuf_c; [done..|].
  pose proof (ci_buf _ _ _ _ I _ _ Hk) as Hb.
  destruct (Z.eqb_spec (Z.land (b_flags b) (Z.lor BUF_VALID BUF_DIRTY)) (Z.lor BUF_VALID BUF_DIRTY))
    as [E|E].
  - destruct (proj1 (flags_both g w b Hb)) as [Hval Hd]; [by apply Z.eqb_eq|].
    apply wp_bind. eapply wp_blockdev_write; eauto using ci_geo. intros w' Hw.
    destruct (cinv_flush _ _ _ _ _ _ I Hk Hval Hw) as [I' Hview].
    apply wp_bind. eapply wp_getbuf_c; [done..|].
    destruct (bo_valid _ _ _ Hb Hval) as (Hr & _ & Hc).
    pose proof (spb_pos g (ci_geo _ _ _ _ I)).
    rewrite (proj2 (Z.ltb_ge _ _)), Z.eqb_refl by lia. simpl.
    apply wp_bind. eapply wp_modbuf_c; [done..|]. apply wp_ret, HQ; [done|].
    split; [apply Hw|done].
  - apply wp_ret. assert (¬ (valid b ∧ dirty b)) as Hn.
    { rewrite <- (flags_both g w b Hb), Z.eqb_eq. done. }
    specialize (HQ w). erewrite flush_cache_id in HQ by eauto. by apply HQ.
Qed.

(** * Reading a buffer *)

(** A buffer whose contents do not matter any more. *)
Lemma cinv_drop g c w k b b' :
  cinv g [] c w → v_buffers c !! k = Some b → ¬ dirty b → b_flags b' = 0 →
  length (b_data b') = length (b_data b) →
  let c' := setbuf k b' c in
  cinv g [] c' w ∧ same_view g c w c' w.
Proof.
  intros I Hk Hd Hf Hlen. cbv zeta. unfold setbuf. pose proof (ci_geo _ _ _ _ I) as Hgo.
  pose proof (ci_buf _ _ _ _ I _ _ Hk) as Hb.
  assert (¬ valid b') as Hnv. { unfold valid. by rewrite Hf. }
  assert (∀ n, buffers_sector n b' = false) as Hns.
  { intros n. destruct (buffers_sector n b') eqn:E; [|done]. by apply buffers_sector_valid in E. }
  assert (∀ j bj, <[k:=b']> (v_buffers c) !! j = Some bj →
    (j = k ∧ bj = b') ∨ (j ≠ k ∧ v_buffers c !! j = Some bj)) as Hlk.
  { intros j bj. rewrite list_lookup_insert_Some. naive_solver. }
  split; [split; simpl; try apply I|split; [done|]].
  - rewrite length_insert. apply I.
  - intros j bj Hj. apply Hlk in Hj as [[-> ->]|[_ Hj]]; [|by eapply ci_buf].
    split; [rewrite Hlen; apply Hb|auto|done].
  - intros j1 j2 b1 b2 H1 H2 V1 V2 E.
    apply Hlk in H1 as [[-> ->]|[N1 H1]], H2 as [[-> ->]|[N2 H2]]; try done.
    eapply (ci_once _ _ _ _ I); eauto.
  - intros j bj n Hj _ Vj Dj Hs. apply Hlk in Hj as [[-> ->]|[N1 Hj]]; [done|].
    eapply (ci_clean _ _ _ _ I); eauto using not_elem_of_nil.
  - intros n Hn. apply view_intro; simpl.
    + intros j bj Hj Hs. apply Hlk in Hj as [[-> ->]|[N1 Hj]].
      * by rewrite Hns in Hs.
      * by erewrite view_held by eauto.
    + intros Hno. destruct (held_dec c n) as [(j & bj & Hj & Hs)|Hnone].
      * destruct (decide (j = k)) as [->|].
        -- simplify_eq. by erewrite view_clean by eauto.
        -- specialize (Hno j bj). rewrite list_lookup_insert_ne in Hno by done.
           rewrite Hno in Hs; done.
      * by rewrite view_not_held.
Qed.

(** The buffer [b'] just read from the device at a sector nobody holds. *)
Definition loaded g w (b' : Buffer) : Prop :=
  b_flags b' = BUF_VALID ∧ buf_ok g w b'
  ∧ ∀ n, buffers_sector n b' = true → buf_sector g b' n = disk w n.

Lemma cinv_load g c w k b b' :
  cinv g [] c w → v_buffers c !! k = Some b → b_flags b = 0 → loaded g w b' →
  (∀ j bj, v_buffers c !! j = Some bj → valid bj → b_sector bj ≠ b_sector b') →
  let c' := setbuf k b' c in
  cinv g [] c' w ∧ same_view g c w c' w.
Proof.
  intros I Hk Hf (Hf' & Hok & Hdata) Hnew. cbv zeta. unfold setbuf. pose proof (ci_geo _ _ _ _ I) as Hgo.
  assert (∀ j bj, <[k:=b']> (v_buffers c) !! j = Some bj →
    (j = k ∧ bj = b') ∨ (j ≠ k ∧ v_buffers c !! j = Some bj)) as Hlk.
  { intros j bj. rewrite list_lookup_insert_Some. naive_solver. }
  assert (∀ n, buffers_sector n b = false) as Hns.
  { intros n. unfold buffers_sector. by rewrite Hf. }
  assert (cinv g [] (c <| v_buffers ::= <[k := b']> |>) w) as I'.
  { split; simpl; try apply I.
    - rewrite length_insert. apply I.
    - intros j bj Hj. apply Hlk in Hj as [[-> ->]|[_ Hj]]; [done|by eapply ci_buf].
    - intros j1 j2 b1 b2 H1 H2 V1 V2 E.
      apply Hlk in H1 as [[-> ->]|[N1 H1]], H2 as [[-> ->]|[N2 H2]]; try done.
      + exfalso. eapply Hnew; eauto.
      + exfalso. eapply Hnew; eauto.
      + eapply (ci_once _ _ _ _ I); eauto.
    - intros j bj n Hj _ Vj Dj Hs. apply Hlk in Hj as [[-> ->]|[N1 Hj]]; [by apply Hdata|].
      eapply (ci_clean _ _ _ _ I); eauto using not_elem_of_nil. }
  split; [done|]. split; [done|]. intros n Hn. apply view_intro; simpl.
  - intros j bj Hj Hs. apply Hlk in Hj as [[-> ->]|[N1 Hj]].
    + rewrite Hdata by done. symmetry. apply view_not_held. intros j bj Hj.
      destruct (buffers_sector n bj) eqn:E; [|done]. exfalso.
      destruct (decide (j = k)) as [->|]; [simplify_eq; by rewrite Hns in E|].
      assert (j = k) as ->; [|done].
      eapply (held_once _ _ _ _ n _ _ _ _ I' Hn); simpl; [| |exact E|exact Hs].
      * by rewrite list_lookup_insert_ne.
      * apply list_lookup_insert_eq. eauto using lookup_lt_Some.
    + by erewrite view_held by eauto.
  - intros Hno. symmetry. apply view_not_held. intros j bj Hj.
    destruct (decide (j = k)) as [->|]; [simplify_eq; apply Hns|].
    apply (Hno j). by rewrite list_lookup_insert_ne.
Qed.

Lemma setbuf_setbuf k b b' c : setbuf k b' (setbuf k b c) = setbuf k b' c.
Proof. unfold setbuf. simpl. by rewrite list_insert_insert_eq. Qed.
Lemma setbuf_lookup k b b0 c : v_buffers c !! k = Some b0 → v_buffers (setbuf k b c) !! k = Some b.
Proof. intros Hk. apply list_lookup_insert_eq. by eapply lookup_lt_Some. Qed.

Lemma setbuf_lookup_ne k j b c : j ≠ k → v_buffers (setbuf k b c) !! j = v_buffers c !! j.
Proof. intros Hj. by apply list_lookup_insert_ne. Qed.

Lemma wp_modbuf_set s v c w k b b' f (Q : () → fs W → Prop) :
  fs_vol s = Some v → v_buffers c !! k = Some b →
  Q () (setc s (setbuf k (f b') c) w) → wp (modbuf k f) Q (setc s (setbuf k b' c) w).
Proof.
  intros Hv Hk HQ. eapply wp_modbuf_c; [done|by eapply setbuf_lookup|].
  change (Q () (setc s (setbuf k (f b') (setbuf k b' c)) w)). by rewrite setbuf_setbuf.
Qed.

Lemma wp_getbuf_set s v c w k b b' (Q : Buffer → fs W → Prop) :
  fs_vol s = Some v → v_buffers c !! k = Some b →
  Q b' (setc s (setbuf k b' c) w) → wp (getbuf k) Q (setc s (setbuf k b' c) w).
Proof. intros Hv Hk HQ. eapply wp_getbuf_c; [done|by eapply setbuf_lookup|done]. Qed.

(** Reading a whole buffer: at least up to [sector], which is in the disk. *)
Lemma wp_blockdev_read s v c w k b b' g (Q : Z → fs W → Prop) :
  fs_vol s = Some v → v_geo v = g → geo_ok g → v_buffers c !! k = Some b →
  Z.of_nat (length (b_data b')) = v_bytes_per_sector g * v_sectors_per_buffer g →
  in_disk w (b_sector b') →
  (let count := Z.min (v_sectors_per_buffer g) (disk_size w - b_sector b') in
   ∀ w', disk_size w' = disk_size w → (∀ n, disk w' n = disk w n) →
   Q count (setc s (setbuf k (b' <| b_data ::= λ d, poke d 0 (blocks (disk w) (b_sector b') count) |>) c) w')) →
  wp (fat_blockdev_read k (v_sectors_per_buffer g) (b_sector b')) Q (setc s (setbuf k b' c) w).
Proof.
  intros Hv Hg Hgo Hk Hl Hin HQ. red in Hin. cbv zeta in HQ.
  pose proof (bps_pos g Hgo) as Hp. pose proof (spb_pos g Hgo) as Hs.
  pose proof (go_bps _ Hgo) as Hbps.
  unfold fat_blockdev_read. simpl. apply wp_bind, wp_bind, wp_call_c.
  destruct (disk_read (b_sector b') (v_sectors_per_buffer g) w) as (Hres & Hsz & Hd); [lia..|].
  rewrite Hres. simpl. apply wp_bind. eapply wp_getbuf_set; [done..|].
  assert (Z.of_nat (length (blocks (disk w) (b_sector b')
    (Z.min (v_sectors_per_buffer g) (disk_size w - b_sector b'))))
    = Z.min (v_sectors_per_buffer g) (disk_size w - b_sector b') * disk_block) as Hbl.
  { apply length_blocks; [lia|]. intros j Hj. apply disk_length. lia. }
  rewrite in_block_true by nia.
  apply wp_bind. eapply wp_modbuf_set; [done..|]. apply wp_ret.
  rewrite (proj2 (Z.leb_le _ _)) by lia. apply wp_ret. by apply HQ.
Qed.

(** Which buffer [fat_readbuf] loads. *)
Definition victim c (buffer : option nat) : option nat :=
  match buffer with Some b => Some b | None => head (v_buffers_lru c) end.

Lemma victim_lookup g X c w buffer :
  cinv g X c w → (∀ k, buffer = Some k → is_Some (v_buffers c !! k)) →
  ∃ k b, victim c buffer = Some k ∧ v_buffers c !! k = Some b.
Proof.
  intros I Hb. destruct buffer as [k|]; simpl.
  { destruct (Hb k eq_refl) as [b Hk]. eauto. }
  pose proof (ci_lru _ _ _ _ I) as Hp. pose proof (go_two _ (ci_geo _ _ _ _ I)).
  destruct (v_buffers_lru c) as [|k l] eqn:E.
  { apply Permutation_nil_l in Hp. apply (f_equal length) in Hp. rewrite length_seq in Hp. simpl in Hp. lia. }
  assert (k ∈ seq 0 (Z.to_nat (v_num_buffers g))) as Hin.
  { rewrite <- Hp. set_solver. }
  apply elem_of_seq in Hin.
  destruct (lookup_lt_is_Some_2 (v_buffers c) k) as [b Hk].
  { rewrite (ci_len _ _ _ _ I). lia. }
  exists k, b. done.
Qed.

(** The buffer as the device fills it. *)
Definition read_buffer g w (d : bytes) (sec : Z) : Buffer :=
  let count := Z.min (v_sectors_per_buffer g) (disk_size w - sec) in
  mkBuffer sec count BUF_VALID (poke d 0 (blocks (disk w) sec count)).

Lemma read_buffer_loaded g w d sec :
  geo_ok g → disk_size w < 2 ^ 32 →
  Z.of_nat (length d) = v_bytes_per_sector g * v_sectors_per_buffer g →
  in_disk w sec → sec mod v_sectors_per_buffer g = 0 → loaded g w (read_buffer g w d sec).
Proof.
  intros Hgo Hsz Hd Hin Hmod. unfold in_disk in *. pose proof (spb_pos g Hgo).
  pose proof (bps_pos g Hgo). pose proof (go_bps _ Hgo) as Hbps.
  set (count := Z.min (v_sectors_per_buffer g) (disk_size w - sec)).
  assert (∀ j, sec ≤ j < sec + count → Z.of_nat (length (disk w j)) = disk_block) as Hblk.
  { intros j Hj. apply disk_length. lia. }
  assert (Z.of_nat (length (blocks (disk w) sec count)) = count * disk_block) as Hbl.
  { apply length_blocks; [lia|done]. }
  assert (length (poke d 0 (blocks (disk w) sec count)) = length d) as Hlen.
  { apply length_poke; [done|]. nia. }
  split; [done|]. split.
  { split; [simpl; fold count; by rewrite Hlen|by right; left|]. intros _. done. }
  intros n Hn. unfold buffers_sector in Hn. rewrite !andb_true_iff, Z.leb_le, Z.ltb_lt in Hn.
  destruct Hn as [[_ Hn1] Hn2]. simpl in Hn1, Hn2. fold count in Hn2. rewrite u32_small in Hn2 by lia.
  unfold buf_sector. simpl. fold count.
  rewrite <- (Z.add_0_l ((n - sec) * v_bytes_per_sector g)).
  rewrite slice_poke_within by nia.
  rewrite Hbps, (slice_blocks _ disk_block); [f_equal; lia|lia|done|lia].
Qed.

Lemma cinv_same_disk g X c w w' :
  disk_size w' = disk_size w → (∀ n, disk w' n = disk w n) → cinv g X c w →
  cinv g X c w' ∧ same_view g c w c w'.
Proof.
  intros Hsz Hd I. split.
  - destruct I. split; try done.
    + lia.
    + intros j bj Hj. destruct (ci_buf0 _ _ Hj) as [? ? Hvj]. split; [done..|]. by rewrite Hsz.
    + intros. rewrite Hd. eauto.
  - split; [done|]. intros n Hn. apply view_intro.
    + intros. symmetry. by eapply view_held.
    + intros Hnone. rewrite Hd. symmetry. by apply view_not_held.
Qed.

(** What loading leaves: the volume is the same, buffer [k] holds [sector], and
    the other buffers are those there were. *)
Definition loads g c w sector k c' w' : Prop :=
  cinv g [] c' w' ∧ same_view g c w c' w' ∧ v_buffers_lru c' = v_buffers_lru c
  ∧ (∃ b, v_buffers c' !! k = Some b ∧ buffers_sector sector b = true)
  ∧ ∀ j, j ≠ k → v_buffers c' !! j = v_buffers c !! j.

Lemma wp_load_buffer s v c w g sector buffer k (Q : Z + nat → fs W → Prop) :
  fs_vol s = Some v → v_geo v = g → cinv g [] c w → in_disk w sector →
  (∀ k b, v_buffers c !! k = Some b → buffers_sector sector b = false) →
  (∀ k, buffer = Some k → is_Some (v_buffers c !! k)) →
  victim c buffer = Some k →
  (∀ c' w', loads g c w sector k c' w' → Q (inr k) (setc s c' w')) →
  wp (load_buffer sector buffer) Q (setc s c w).
Proof.
  intros Hv Hg I Hin Hno Hbuf Hvic HQ. pose proof (ci_geo _ _ _ _ I) as Hgo.
  destruct (victim_lookup _ _ _ _ _ I Hbuf) as (k' & b & Hk' & Hk).
  assert (k' = k) as -> by congruence. clear Hk'.
  unfold load_buffer. apply wp_bind. eapply wp_getv_c; [done|]. apply wp_bind.
  assert (∀ Q' : nat → fs W → Prop, Q' k (setc s c w) →
    wp (match buffer with Some b => mret b
        | None => deref (head (v_buffers_lru (v_cache (v <| v_cache := c |>)))) end) Q' (setc s c w)) as Hwp.
  { intros Q' HQ'. destruct buffer; simpl in *; [naive_solver|]. rewrite Hvic. done. }
  apply Hwp. clear Hwp. apply wp_bind. eapply wp_flush_buffer; [done..|]. intros w1 I1 V1. simpl.
  change (flush_cache k b c) with (setbuf k (flushed b) c) in *.
  apply wp_bind. eapply wp_modbuf_set; [done..|]. apply wp_bind. eapply wp_geo_c; [done|].
  apply wp_bind. eapply wp_modbuf_set; [done..|]. apply wp_bind. eapply wp_getbuf_set; [done..|].
  rewrite Hg.
  set (b2 := (flushed b) <| b_flags := 0 |>
    <| b_sector := Z.land sector (u32 (Z.lnot (v_sectors_per_buffer g - 1))) |>).
  pose proof (ci_buf _ _ _ _ I _ _ Hk) as Hb. pose proof (spb_pos g Hgo) as Hs.
  assert (b_sector b2 = sector - sector mod v_sectors_per_buffer g) as Hsec.
  { transitivity (Z.land sector (u32 (Z.lnot (v_sectors_per_buffer g - 1)))); [done|].
    destruct (go_spb _ Hgo) as (e & He & ->).
    apply land_align; [lia|]. pose proof (ci_size _ _ _ _ I). unfold in_disk in *. lia. }
  destruct V1 as [Hsz V1]. unfold in_disk in *.
  pose proof (Z.mod_pos_bound sector (v_sectors_per_buffer g) Hs).
  pose proof (Z.mod_le sector (v_sectors_per_buffer g) ltac:(lia) Hs).
  destruct (cinv_drop g (setbuf k (flushed b) c) w1 k (flushed b) b2) as [I2 V2];
    [done|by eapply setbuf_lookup| |done|done|].
  { unfold dirty, has. destruct (flushed_flags _ _ _ Hb) as [E|E]; by rewrite E. }
  apply wp_bind. apply (wp_blockdev_read s v c w1 k b b2 g); [done..| | |].
  { apply Hb. }
  { rewrite Hsec. split; lia. }
  cbv zeta. intros w3 Hsz3 Hd3. set (count := Z.min _ _). set (b3 := b2 <| b_data ::= λ d, poke d 0 (blocks (disk w1) (b_sector b2) count) |>).
  rewrite (proj2 (Z.ltb_ge count 0)) by lia.
  apply wp_bind. eapply wp_getbuf_set; [done..|].
  assert (u32 (b_sector b3 + count) = b_sector b2 + count) as ->.
  { apply u32_small. pose proof (ci_size _ _ _ _ I). change (b_sector b3) with (b_sector b2). lia. }
  rewrite (proj2 (Z.leb_gt _ sector)) by lia.
  apply wp_bind. eapply wp_modbuf_set; [done..|]. apply wp_bind. eapply wp_modbuf_set; [done..|].
  apply wp_ret. set (b4 := b3 <| b_count := count |> <| b_flags := BUF_VALID |>).
  assert (loaded g w1 b4) as Hload.
  { apply (read_buffer_loaded g w1 (b_data b) (b_sector b2)); [done|apply I1|apply Hb|split; lia|].
    rewrite Hsec. rewrite Zminus_mod_idemp_r, Z.sub_diag. done. }
  destruct (cinv_load g (setbuf k b2 c) w1 k b2 b4) as [I4 V4];
    [by rewrite <- (setbuf_setbuf k (flushed b))|by eapply setbuf_lookup|done|done| |].
  { intros j bj Hj Hvj Heq. change (b_sector b4) with (b_sector b2) in Heq.
    destruct (decide (j = k)) as [->|].
    - erewrite setbuf_lookup in Hj by done. simplify_eq. done.
    - rewrite setbuf_lookup_ne in Hj by done.
      specialize (Hno _ _ Hj). apply not_true_iff_false in Hno. apply Hno.
      apply (buffers_sector_spec g w); eauto using ci_geo, ci_size, ci_buf; [lia|].
      split; [congruence|lia]. }
  destruct (cinv_same_disk _ _ _ _ _ Hsz3 Hd3 I4) as [I5 V5].
  apply HQ. rewrite <- (setbuf_setbuf k b2 b4). split; [done|]. split; [|split; [done|split]].
  - eapply same_view_trans; [split; [exact Hsz|exact V1]|].
    rewrite setbuf_setbuf in V2. eapply same_view_trans; [exact V2|].
    by eapply same_view_trans.
  - exists b4. split; [by eapply setbuf_lookup, setbuf_lookup|].
    destruct Hload as (Hf4 & Hok4 & _).
    apply (buffers_sector_spec g w1 b4 sector);
      [done|apply I1|done|unfold valid; by rewrite Hf4|lia|]. split; [exact Hsec|lia].
  - intros j Hj. by rewrite setbuf_setbuf, setbuf_lookup_ne.
Qed.

(** * Reading a sector *)

(** The most recently used buffer goes last. *)
Lemma touch_perm (k : nat) l n : l ≡ₚ seq 0 n → (k < n)%nat → push_back k (erase k l) ≡ₚ seq 0 n.
Proof.
  intros Hp Hk. unfold push_back, erase.
  assert (NoDup l) as Hnd. { rewrite Hp. apply NoDup_seq. }
  assert (k ∈ l) as Hin. { rewrite Hp. apply elem_of_seq. lia. }
  rewrite <- Hp. clear Hp Hk.
  induction l as [|x l IH]; [set_solver|]. apply NoDup_cons in Hnd as [Hx Hnd].
  destruct (decide (x = k)) as [->|Hne].
  - rewrite filter_cons_False by naive_solver. rewrite filter_all by set_solver.
    by rewrite (Permutation_app_comm l [k]).
  - rewrite filter_cons_True by done. simpl. constructor. apply IH; set_solver.
Qed.

Lemma cinv_lru g X c w c' :
  v_buffers c' = v_buffers c → v_buffers_lru c' ≡ₚ v_buffers_lru c → cinv g X c w → cinv g X c' w.
Proof.
  intros Hb Hl I. destruct I. split; try rewrite Hb; try done. by rewrite Hl.
Qed.

Lemma at_sector_lookup g c k ofs n : at_sector g c k ofs n → is_Some (v_buffers c !! k).
Proof. intros (b & Hk & _). eauto. Qed.

Record readbuf_post g c w (sector : Z) (buffer : option nat) ofs (k : nat) c' w' : Prop := {
  rb_inv : cinv g [] c' w';
  rb_view : same_view g c w c' w';
  rb_at : at_sector g c' k ofs sector;
  rb_last : last (v_buffers_lru c') = Some k;
  rb_keep j n ofs' : buffer = None → last (v_buffers_lru c) = Some j →
    at_sector g c j ofs' n → at_sector g c' j ofs' n }.

Lemma last_not_victim g X c w k j :
  cinv g X c w → victim c None = Some k → last (v_buffers_lru c) = Some j → j ≠ k.
Proof.
  intros I Hh Hl. simpl in Hh. pose proof (ci_lru _ _ _ _ I) as Hp.
  pose proof (go_two _ (ci_geo _ _ _ _ I)).
  assert (NoDup (v_buffers_lru c)) as Hnd. { rewrite Hp. apply NoDup_seq. }
  destruct (v_buffers_lru c) as [|x l]; [done|]. simpl in Hh. simplify_eq.
  destruct l as [|y l].
  { apply (f_equal length) in Hp || apply Permutation_length in Hp.
    rewrite length_seq in Hp. simpl in Hp. lia. }
  rewrite last_cons_cons in Hl. apply NoDup_cons in Hnd as [Hx _].
  intros ->. apply Hx. apply last_Some in Hl as [l' ->]. set_solver.
Qed.

(** The tail of [fat_readbuf], from the buffer found or loaded. *)
Definition readbuf_tail (sector : Z) (b : nat) : FM (Z * option nat) :=
  modcache (λ c, c <| v_buf_access ::= λ n, u32 (n + 1) |>);;
  modcache (λ c, c <| v_buffers_lru ::= erase b |>);;
  modcache (λ c, c <| v_buffers_lru ::= push_back b |>);;
  x ← getbuf b;
  lb ← geo v_log_bytes_per_sector;
  mret (s32 (Z.shiftl (u32 (sector - b_sector x)) lb), Some b).

Lemma wp_readbuf_tail s v c w g sector k b (Q : Z * option nat → fs W → Prop) :
  fs_vol s = Some v → v_geo v = g → cinv g [] c w → in_disk w sector →
  v_buffers c !! k = Some b → buffers_sector sector b = true →
  (∀ c' ofs, v_buffers c' = v_buffers c → cinv g [] c' w → at_sector g c' k ofs sector →
     last (v_buffers_lru c') = Some k → Q (ofs, Some k) (setc s c' w)) →
  wp (readbuf_tail sector k) Q (setc s c w).
Proof.
  intros Hv Hg I Hin Hk Hs HQ. pose proof (ci_geo _ _ _ _ I) as Hgo. unfold in_disk in Hin.
  unfold readbuf_tail. do 3 (apply wp_bind; eapply wp_modcache_c; [done|]).
  apply wp_bind. eapply wp_getbuf_c; [done..|]. apply wp_bind. eapply wp_geo_c; [done|].
  apply wp_ret. rewrite Hg.
  pose proof (ci_buf _ _ _ _ I _ _ Hk) as Hb. pose proof (buffers_sector_valid _ _ Hs) as Hval.
  destruct (bo_valid _ _ _ Hb Hval) as (Hr & _ & Hc).
  destruct (go_log _ Hgo) as [Hlog Hbps]. pose proof (ci_size _ _ _ _ I).
  pose proof (go_small _ Hgo). pose proof (bps_pos _ Hgo). pose proof (spb_pos _ Hgo).
  pose proof Hs as Hs'. apply (buffers_sector_spec g w) in Hs' as [Hsec _]; [|done..|lia].
  pose proof (Z.mod_pos_bound sector (v_sectors_per_buffer g) ltac:(lia)).
  apply HQ; [done| | |].
  - eapply cinv_lru; [| |exact I]; [done|]. simpl. etrans; [|symmetry; apply I].
    apply touch_perm; [apply I|]. rewrite <- (ci_len _ _ _ _ I). by eapply lookup_lt_Some.
  - exists b. split; [done|]. split; [done|]. rewrite u32_small by lia.
    rewrite shiftl_mul, <- Hbps by lia. apply s32_small. nia.
  - simpl. unfold push_back. by rewrite last_snoc.
Qed.

Lemma wp_readbuf s v c w g sector buffer rt (Q : Z * option nat → fs W → Prop) :
  fs_vol s = Some v → v_geo v = g → cinv g [] c w → in_disk w sector →
  (∀ k, buffer = Some k → is_Some (v_buffers c !! k)) →
  (∀ c' w' ofs k, readbuf_post g c w sector buffer ofs k c' w' → Q (ofs, Some k) (setc s c' w')) →
  wp (fat_readbuf sector buffer rt) Q (setc s c w).
Proof.
  intros Hv Hg I Hin Hbuf HQ. unfold fat_readbuf.
  apply wp_bind. eapply wp_modcache_c; [done|]. set (c1 := upd _ _ c).
  assert (cinv g [] c1 w) as I1 by (eapply cinv_lru; [| |exact I]; done).
  apply wp_bind. eapply wp_getv_c; [done|]. unfold find_buffer. simpl.
  pose proof (find_from_spec sector 0 (v_buffers c)) as Hf.
  destruct (find_from sector 0 (v_buffers c)) as [k|].
  - destruct Hf as (b & _ & Hk & Hs). rewrite Nat.sub_0_r in Hk.
    apply wp_bind, wp_ret. eapply wp_readbuf_tail; [done..|].
    intros c' ofs Hb' I' Hat Hlast. apply HQ. split; [done| |done|done|].
    + split; [done|]. intros n _. unfold view. by rewrite Hb'.
    + intros j n ofs' _ _ (bj & Hj & ?). exists bj. by rewrite Hb'.
  - apply wp_bind, wp_bind. eapply wp_modcache_c; [done|]. apply wp_bind. eapply wp_modcache_c; [done|].
    match goal with |- context [setc s ?x w] => set (c2 := x) end.
    assert (cinv g [] c2 w) as I2 by (eapply cinv_lru; [| |exact I1]; done).
    destruct (victim_lookup g [] c2 w buffer I2 Hbuf) as (k & b & Hvic & Hk).
    eapply wp_load_buffer; [done..| | |done|].
    + intros j bj Hj. apply Hf. by eapply list_elem_of_lookup_2.
    + done.
    + intros c3 w3 (I3 & V3 & Hlru & (b3 & Hk3 & Hs3) & Hothers).
      eapply wp_readbuf_tail; [done..| |done|done|].
      { unfold in_disk. destruct V3 as [-> _]. done. }
      intros c' ofs Hb' I' Hat Hlast. apply HQ. split; [done| |done|done|].
      * destruct V3 as [Hsz V3]. split; [done|]. intros n Hn.
        transitivity (view g c3 w3 n); [unfold view; by rewrite Hb'|]. by apply V3.
      * intros j n ofs' -> Hlastc (bj & Hj & ?). exists bj. rewrite Hb', Hothers; [done|].
        eapply (last_not_victim g [] c2 w); done.
Qed.

(** * Access to the bytes of a sector *)

Lemma at_sector_bounds g X c w k ofs n b :
  cinv g X c w → 0 ≤ n → v_buffers c !! k = Some b → buffers_sector n b = true →
  ofs = (n - b_sector b) * v_bytes_per_sector g →
  0 ≤ ofs ∧ ofs + v_bytes_per_sector g ≤ Z.of_nat (length (b_data b)).
Proof.
  intros I Hn Hk Hs ->. pose proof (ci_geo _ _ _ _ I) as Hgo.
  pose proof (ci_buf _ _ _ _ I _ _ Hk) as Hb. pose proof (buffers_sector_valid _ _ Hs) as Hval.
  destruct (bo_valid _ _ _ Hb Hval) as (Hr & _ & Hc).
  pose proof Hs as Hs'. apply (buffers_sector_spec g w) in Hs' as [Hsec Hlt]; [|done|apply I|done..].
  pose proof (bps_pos _ Hgo). pose proof (spb_pos _ Hgo) as Hp.
  pose proof (Z.mod_pos_bound n (v_sectors_per_buffer g) Hp).
  rewrite (bo_len _ _ _ Hb). nia.
Qed.

Lemma view_at g X c w k ofs n b :
  cinv g X c w → 0 ≤ n → v_buffers c !! k = Some b → buffers_sector n b = true →
  ofs = (n - b_sector b) * v_bytes_per_sector g →
  view g c w n = slice (b_data b) ofs (v_bytes_per_sector g).
Proof. intros I Hn Hk Hs ->. by erewrite view_held. Qed.

Lemma view_length g X c w n :
  cinv g X c w → in_disk w n → Z.of_nat (length (view g c w n)) = v_bytes_per_sector g.
Proof.
  intros I Hn. destruct (held_dec c n) as [(k & b & Hk & Hs)|Hnone].
  - destruct Hn as [Hn _]. destruct (at_sector_bounds _ _ _ _ _ _ _ _ I Hn Hk Hs eq_refl).
    erewrite view_at by eauto. pose proof (bps_pos _ (ci_geo _ _ _ _ I)). apply length_slice; lia.
  - rewrite view_not_held by done. rewrite disk_length by apply Hn. symmetry. apply I.
Qed.

Lemma wp_read_data s v c w g X k ofs n o len (Q : bytes → fs W → Prop) :
  fs_vol s = Some v → v_geo v = g → cinv g X c w → 0 ≤ n → at_sector g c k ofs n →
  0 ≤ o → 0 ≤ len → o + len ≤ v_bytes_per_sector g →
  Q (slice (view g c w n) o len) (setc s c w) →
  wp (read_data k (ofs + o) len) Q (setc s c w).
Proof.
  intros Hv Hg I Hn (b & Hk & Hs & Hofs) Ho Hl Hle HQ.
  destruct (at_sector_bounds _ _ _ _ _ _ _ _ I Hn Hk Hs Hofs) as [Hb1 Hb2].
  unfold read_data. apply wp_bind. eapply wp_getbuf_c; [done..|].
  rewrite in_block_true by lia. apply wp_ret.
  erewrite view_at in HQ by eauto. by rewrite slice_slice in HQ by lia.
Qed.

(** Bytes [bs] stored at offset [o] of sector [n]. *)
Definition store_view (f : Z → bytes) (n o : Z) (bs : bytes) (m : Z) : bytes :=
  if m =? n then poke (f n) o bs else f m.

Record store_post g X c w (k : nat) (n o : Z) (bs : bytes) c' : Prop := {
  st_inv : cinv g (k :: X) c' w;
  st_view m : 0 ≤ m → view g c' w m = store_view (view g c w) n o bs m;
  st_lru : v_buffers_lru c' = v_buffers_lru c;
  st_at j ofs m : at_sector g c j ofs m → at_sector g c' j ofs m }.

Lemma buffers_sector_data n b d : buffers_sector n (b <| b_data := d |>) = buffers_sector n b.
Proof. done. Qed.

Lemma cinv_store g X c w k b n o ofs bs :
  cinv g X c w → in_disk w n → v_buffers c !! k = Some b → buffers_sector n b = true →
  ofs = (n - b_sector b) * v_bytes_per_sector g →
  0 ≤ o → o + Z.of_nat (length bs) ≤ v_bytes_per_sector g →
  store_post g X c w k n o bs (setbuf k (b <| b_data ::= λ d, poke d (ofs + o) bs |>) c).
Proof.
  intros I Hn Hk Hs Hofs Ho Hle. destruct (Hn) as [Hn0 _].
  destruct (at_sector_bounds _ _ _ _ _ _ _ _ I Hn0 Hk Hs Hofs) as [Hb1 Hb2].
  set (b' := b <| b_data ::= λ d, poke d (ofs + o) bs |>).
  assert (∀ m, buffers_sector m b' = buffers_sector m b) as Hbs by done.
  pose proof (ci_buf _ _ _ _ I _ _ Hk) as Hb.
  assert (length (b_data b') = length (b_data b)) as Hlen by (apply length_poke; lia).
  assert (∀ j bj, v_buffers (setbuf k b' c) !! j = Some bj →
    (j = k ∧ bj = b') ∨ (j ≠ k ∧ v_buffers c !! j = Some bj)) as Hlk.
  { intros j bj. unfold setbuf. simpl. rewrite list_lookup_insert_Some. naive_solver. }
  assert (cinv g (k :: X) (setbuf k b' c) w) as I'.
  { split; try apply I.
    - unfold setbuf. simpl. rewrite length_insert. apply I.
    - intros j bj Hj. apply Hlk in Hj as [[-> ->]|[_ Hj]]; [|by eapply ci_buf].
      destruct Hb as [Hbl ? ?]. split; [by rewrite Hlen|done..].
    - intros j1 j2 b1 b2 H1 H2 V1 V2 E.
      apply Hlk in H1 as [[-> ->]|[N1 H1]], H2 as [[-> ->]|[N2 H2]]; try done;
        eapply (ci_once _ _ _ _ I); eauto.
    - intros j bj m Hj Hx Vj Dj Hsj. apply Hlk in Hj as [[-> ->]|[N1 Hj]]; [set_solver|].
      eapply (ci_clean _ _ _ _ I); eauto. set_solver. }
  split; [done| |done|].
  - intros m Hm. apply view_intro.
    + intros j bj Hj Hsj. apply Hlk in Hj as [[-> ->]|[N1 Hj]].
      * rewrite Hbs in Hsj. unfold store_view. unfold buf_sector. change (b_sector b') with (b_sector b).
        change (b_data b') with (poke (b_data b) (ofs + o) bs).
        destruct (Z.eqb_spec m n) as [->|Hne].
        -- rewrite <- Hofs. rewrite slice_poke_inside by lia. by erewrite view_at by eauto.
        -- erewrite view_held by eauto. unfold buf_sector.
           pose proof (bps_pos _ (ci_geo _ _ _ _ I)) as Hp.
           destruct (at_sector_bounds _ _ _ _ _ _ _ _ I Hm Hk Hsj eq_refl) as [Hm1 Hm2].
           rewrite slice_poke_outside; [done|lia|lia|lia|lia|].
           subst ofs. destruct (decide (m < n)); [left|right]; nia.
      * unfold store_view. destruct (Z.eqb_spec m n) as [->|Hne].
        -- exfalso. apply N1. exact (held_once _ _ _ _ _ _ _ _ _ I Hm Hj Hk Hsj Hs).
        -- by erewrite view_held by eauto.
    + intros Hnone. unfold store_view. destruct (Z.eqb_spec m n) as [->|Hne].
      * specialize (Hnone k b'). rewrite Hbs, Hs in Hnone.
        discriminate Hnone. by eapply setbuf_lookup.
      * symmetry. apply view_not_held. intros j bj Hj. destruct (decide (j = k)) as [->|].
        -- simplify_eq. rewrite <- Hbs. apply (Hnone k). by eapply setbuf_lookup.
        -- apply (Hnone j). by rewrite setbuf_lookup_ne.
  - intros j ofs' m (bj & Hj & Hsj & Hoj). destruct (decide (j = k)) as [->|].
    + simplify_eq. exists b'. split; [by eapply setbuf_lookup|done].
    + exists bj. by rewrite setbuf_lookup_ne.
Qed.

Lemma wp_write_data s v c w g X k ofs n o bs (Q : () → fs W → Prop) :
  fs_vol s = Some v → v_geo v = g → cinv g X c w → in_disk w n → at_sector g c k ofs n →
  0 ≤ o → o + Z.of_nat (length bs) ≤ v_bytes_per_sector g →
  (∀ c', store_post g X c w k n o bs c' → Q () (setc s c' w)) →
  wp (write_data k (ofs + o) bs) Q (setc s c w).
Proof.
  intros Hv Hg I Hn (b & Hk & Hs & Hofs) Ho Hle HQ. destruct (Hn) as [Hn0 _].
  destruct (at_sector_bounds _ _ _ _ _ _ _ _ I Hn0 Hk Hs Hofs) as [Hb1 Hb2].
  unfold write_data. apply wp_bind. eapply wp_getbuf_c; [done..|].
  rewrite in_block_true by lia. eapply wp_modbuf_c; [done..|]. apply HQ. by apply cinv_store.
Qed.

(** * Marking a buffer dirty *)

Record dirty_post g X c w c' : Prop := {
  di_inv : cinv g X c' w;
  di_view m : 0 ≤ m → view g c' w m = view g c w m;
  di_lru : v_buffers_lru c' = v_buffers_lru c;
  di_at j ofs m : at_sector g c j ofs m → at_sector g c' j ofs m }.

Lemma cinv_dirty g X X' c w k b :
  cinv g X c w → v_buffers c !! k = Some b → valid b → (∀ j, j ∈ X → j = k ∨ j ∈ X') →
  dirty_post g X' c w (setbuf k (b <| b_flags ::= λ f, Z.lor f BUF_DIRTY |>) c).
Proof.
  intros I Hk Hval HX. set (b' := b <| b_flags ::= λ f, Z.lor f BUF_DIRTY |>).
  pose proof (ci_buf _ _ _ _ I _ _ Hk) as Hb.
  assert (b_flags b' = Z.lor BUF_VALID BUF_DIRTY) as Hf.
  { unfold b', valid in *. simpl. destruct (bo_flags _ _ _ Hb) as [E|[E|E]];
      rewrite E in *; try done. }
  assert (valid b') as Hval'. { unfold valid. by rewrite Hf. }
  assert (dirty b') as Hdir. { unfold dirty. by rewrite Hf. }
  assert (∀ m, buffers_sector m b' = buffers_sector m b) as Hbs.
  { intros m. unfold buffers_sector. rewrite Hval, Hval'. done. }
  assert (∀ j bj, v_buffers (setbuf k b' c) !! j = Some bj →
    (j = k ∧ bj = b') ∨ (j ≠ k ∧ v_buffers c !! j = Some bj)) as Hlk.
  { intros j bj. unfold setbuf. simpl. rewrite list_lookup_insert_Some. naive_solver. }
  split; [| |done|].
  - split; try apply I.
    + unfold setbuf. simpl. rewrite length_insert. apply I.
    + intros j bj Hj. apply Hlk in Hj as [[-> ->]|[_ Hj]]; [|by eapply ci_buf].
      destruct Hb as [? ? Hv]. split; [done|by right; right|]. intros _. by apply Hv.
    + intros j1 j2 b1 b2 H1 H2 V1 V2 E.
      apply Hlk in H1 as [[-> ->]|[N1 H1]], H2 as [[-> ->]|[N2 H2]]; try done;
        eapply (ci_once _ _ _ _ I); eauto.
    + intros j bj m Hj Hx Vj Dj Hsj. apply Hlk in Hj as [[-> ->]|[N1 Hj]]; [done|].
      eapply (ci_clean _ _ _ _ I); eauto. intros HjX. destruct (HX _ HjX); done.
  - intros m Hm. apply view_intro.
    + intros j bj Hj Hsj. apply Hlk in Hj as [[-> ->]|[N1 Hj]].
      * rewrite Hbs in Hsj. by erewrite view_held by eauto.
      * by erewrite view_held by eauto.
    + intros Hnone. symmetry. apply view_not_held. intros j bj Hj. destruct (decide (j = k)) as [->|].
      * simplify_eq. rewrite <- Hbs. apply (Hnone k). by eapply setbuf_lookup.
      * apply (Hnone j). by rewrite setbuf_lookup_ne.
  - intros j ofs' m (bj & Hj & Hsj & Hoj). destruct (decide (j = k)) as [->|].
    + simplify_eq. exists b'. rewrite Hbs. split; [by eapply setbuf_lookup|done].
    + exists bj. by rewrite setbuf_lookup_ne.
Qed.

Lemma wp_dirtybuf s v c w g X X' k ofs n (Q : Z → fs W → Prop) :
  fs_vol s = Some v → v_geo v = g → cinv g X c w → at_sector g c k ofs n →
  (∀ j, j ∈ X → j = k ∨ j ∈ X') →
  (∀ c', dirty_post g X' c w c' → Q 0 (setc s c' w)) →
  wp (fat_dirtybuf k false) Q (setc s c w).
Proof.
  intros Hv Hg I (b & Hk & Hs & _) HX HQ. pose proof (buffers_sector_valid _ _ Hs) as Hval.
  unfold fat_dirtybuf. apply wp_bind. eapply wp_getbuf_c; [done..|]. rewrite Hval.
  apply wp_bind. eapply wp_modbuf_c; [done..|]. apply wp_ret, HQ. by eapply cinv_dirty.
Qed.

(** * Writing everything back *)

Lemma flushed_not_dirty g w b : buf_ok g w b → ¬ dirty (flushed b).
Proof. intros H. unfold dirty, has. destruct (flushed_flags _ _ _ H) as [E|E]; by rewrite E. Qed.

Lemma wp_flush_all s v g c w k n (Q : Z → fs W → Prop) :
  fs_vol s = Some v → v_geo v = g → cinv g [] c w → (k + n = length (v_buffers c))%nat →
  (∀ j b, (j < k)%nat → v_buffers c !! j = Some b → ¬ dirty b) →
  (∀ c' w', cinv g [] c' w' → same_view g c w c' w' →
     (∀ j b, v_buffers c' !! j = Some b → ¬ dirty b) → Q 0 (setc s c' w')) →
  wp (flush_all k n) Q (setc s c w).
Proof.
  intros Hv Hg. revert c w k. induction n as [|n IH]; intros c w k I Hlen Hd HQ; simpl.
  - apply wp_ret, HQ; [done..|]. intros j b Hj. apply (Hd j); [|done]. apply lookup_lt_Some in Hj. lia.
  - destruct (lookup_lt_is_Some_2 (v_buffers c) k) as [b Hk]; [lia|].
    pose proof (ci_buf _ _ _ _ I _ _ Hk) as Hb.
    apply wp_bind. eapply wp_flush_buffer; [done..|]. intros w' I' V'. simpl.
    unfold flush_cache in *. apply IH; [done| | |].
    + unfold setbuf. simpl. rewrite length_insert. lia.
    + intros j bj Hj Hl. destruct (decide (j = k)) as [->|].
      * erewrite setbuf_lookup in Hl by done. simplify_eq. by eapply flushed_not_dirty.
      * rewrite setbuf_lookup_ne in Hl by done. eapply (Hd j); [lia|done].
    + intros c2 w2 I2 V2 D2. apply HQ; [done| |done]. by eapply same_view_trans.
Qed.

(** The state is that of a mounted volume whose buffers are in order. *)
Definition cache_ok s v : Prop :=
  fs_vol s = Some v ∧ cinv (v_geo v) [] (v_cache v) (fs_world s).

(** The sectors of the volume in a state. *)
Definition sectors s (n : Z) : bytes :=
  match fs_vol s with
  | Some v => view (v_geo v) (v_cache v) (fs_world s) n
  | None => disk (fs_world s) n
  end.

Lemma sectors_setc s v c w n : fs_vol s = Some v → sectors (setc s c w) n = view (v_geo v) c w n.
Proof. intros Hv. unfold sectors, setc. simpl. by rewrite Hv. Qed.

Lemma cache_ok_setc s v c w :
  fs_vol s = Some v → cinv (v_geo v) [] c w → cache_ok (setc s c w) (v <| v_cache := c |>).
Proof. intros Hv I. split; [|done]. unfold setc. simpl. by rewrite Hv. Qed.

Lemma fat_sync_flushes s v :
  cache_ok s v → (v_fat_type (v_geo v) = FAT32 → v_fsinfo_changed v = false) →
  ∃ s', fat_sync s = Done 0 s' ∧
    ∀ n, in_disk (fs_world s) n → disk (fs_world s') n = sectors s n.
Proof.
  intros [Hv I] Hfsi.
  cut (wp fat_sync (λ r s', r = 0 ∧ ∀ n, in_disk (fs_world s) n →
         disk (fs_world s') n = sectors s n) s).
  { intros H. apply wp_done in H as (r & s' & Hr & -> & Hd). eauto. }
  assert (sectors s = view (v_geo v) (v_cache v) (fs_world s)) as Hsec.
  { unfold sectors. by rewrite Hv. }
  eapply wp_setc_id; [done|]. unfold fat_sync.
  apply wp_bind. eapply wp_getv_c; [done|].
  replace (bool_decide _ && _) with false.
  2: { symmetry. apply andb_false_iff. simpl. destruct (decide (v_fat_type (v_geo v) = FAT32)) as [E|E];
       [right; auto|left; by apply bool_decide_eq_false]. }
  apply wp_bind, wp_ret. simpl. apply wp_bind. eapply wp_geo_c; [done|].
  eapply wp_flush_all; [done..| |lia|].
  { rewrite (ci_len _ _ _ _ I). lia. }
  intros c' w' I' [Hsz V'] D'. split; [done|]. intros n [Hn _].
  rewrite Hsec. rewrite <- (V' n Hn). symmetry.
  destruct (held_dec c' n) as [(k & b & Hk & Hs)|Hnone].
  - eapply view_clean; eauto.
  - by apply view_not_held.
Qed.

(** * State-level statements *)

Lemma fat_readbuf_done s v n buffer rt :
  cache_ok s v → in_disk (fs_world s) n →
  (∀ k, buffer = Some k → is_Some (v_buffers (v_cache v) !! k)) →
  ∃ ofs k c' w', fat_readbuf n buffer rt s = Done (ofs, Some k) (setc s c' w') ∧
    readbuf_post (v_geo v) (v_cache v) (fs_world s) n buffer ofs k c' w'.
Proof.
  intros [Hv I] Hin Hbuf.
  cut (wp (fat_readbuf n buffer rt) (λ r s', ∃ ofs k c' w', r = (ofs, Some k) ∧ s' = setc s c' w' ∧
    readbuf_post (v_geo v) (v_cache v) (fs_world s) n buffer ofs k c' w') s).
  { intros H. apply wp_done in H as (r & s' & -> & ofs & k & c' & w' & -> & -> & Hp). eauto 10. }
  eapply wp_setc_id; [done|]. eapply wp_readbuf; eauto 10.
Qed.

Lemma fat_sync_fat32_out_of_bounds s v :
  cache_ok s v → v_fat_type (v_geo v) = FAT32 → v_fsinfo_changed v = true →
  v_sectors_per_buffer (v_geo v) = FAT_READ_AHEAD → in_disk (fs_world s) 1 →
  fat_sync s = Fault.
Proof.
  intros [Hv I] Ht Hf Hspb Hin. unfold fat_sync.
  erewrite bind_eq by (unfold getv, mbind, M_bind, gets; rewrite Hv; done).
  rewrite Ht, Hf. simpl. apply bind_fault. unfold with_sector.
  destruct (fat_readbuf_done s v 1 None false) as (ofs & k & c' & w' & Hr & Hp); [done..|].
  erewrite bind_eq by exact Hr. clear Hr.
  destruct (rb_at _ _ _ _ _ _ _ _ _ Hp) as (b & Hk & Hs & ->). pose proof (rb_inv _ _ _ _ _ _ _ _ _ Hp) as I'.
  pose proof (ci_geo _ _ _ _ I') as Hgo. pose proof (bps_pos _ Hgo).
  pose proof (ci_buf _ _ _ _ I' _ _ Hk) as Hb. pose proof (buffers_sector_valid _ _ Hs) as Hval.
  apply (buffers_sector_spec (v_geo v) w') in Hs as [Hsec _]; [|done|apply I'|done..].
  rewrite Hspb in Hsec. change (1 - 1 mod FAT_READ_AHEAD) with 0 in Hsec. rewrite Hsec. cbn beta iota.
  rewrite (proj2 (Z.ltb_ge _ _)) by lia. unfold guard_ret.
  erewrite bind_eq by done. apply bind_fault. unfold write_data.
  erewrite bind_eq by (unfold getbuf, getv, mbind, M_bind, gets, setc; simpl; rewrite Hv; simpl; by rewrite Hk).
  replace (in_block _ _ _) with false; [done|]. symmetry. apply not_true_iff_false.
  unfold in_block. rewrite !andb_true_iff, !Z.leb_le, (bo_len _ _ _ Hb), Hspb.
  unfold sizeof_fsinfo, fsi_free_clusters_ofs, FAT_READ_AHEAD. simpl. nia.
Qed.
End cache.
