(* ===== verification/FatAlloc.v ===== *)
(** The file allocation table ([src/fd32/modules/fat/alloc.c]): locating,
    reading and writing its entries, following and changing cluster chains. *)
From S2P Require Import Prelude Errno Lists Slab FatTypes FatBuffer.

(** Results are [int]; positive results of the entry readers are entry values. *)
Section alloc.
Context {W : Type} `{FatWorld W} `{Fuel}.
Notation FM := (M (fs W)).

(** * Seek: the sector and the byte offset of a FAT entry *)

(** [offset] is where the entry starts in the FAT; the common tail of the three
    functions. *)
Definition seek_offset (g : Geometry) (offset fat_num : Z) : Z * Z :=
  (u32 (fat_num * v_fat_size g + v_fat_start g + Z.shiftr offset (v_log_bytes_per_sector g)),
   Z.land offset (v_bytes_per_sector g - 1)).

Definition fat12_seek (g : Geometry) (n fat_num : Z) : Z * Z :=
  if u32 (v_data_clusters g + 1) <? n then (0, - ENXIO)
  else seek_offset g (u32 (n + Z.shiftr n 1)) fat_num.
Definition fat16_seek (g : Geometry) (n fat_num : Z) : Z * Z :=
  if u32 (v_data_clusters g + 1) <? n then (0, - ENXIO)
  else seek_offset g (u32 (Z.shiftl n 1)) fat_num.
Definition fat32_seek (g : Geometry) (n fat_num : Z) : Z * Z :=
  if u32 (v_data_clusters g + 1) <? n then (0, - ENXIO)
  else seek_offset g (u32 (Z.shiftl n 2)) fat_num.

(** * Read *)

Definition fat12_read (n fat_num : Z) : FM Z :=
  g ← geo id;
  let '(sector, offset) := fat12_seek g n fat_num in
  guard_ret (offset <? 0) offset (
  with_sector sector None (λ res b,
  let finish c :=
    let c := if has n 1 then Z.shiftr c 4 else Z.land c 0x0FFF in
    let c := if IS_FAT12_EOC c then FAT_EOC else c in
    mret c in
  if offset <? v_bytes_per_sector g - 1 then
    l ← read_data b (offset + res) 2; finish (le16_at l 0)
  else
    with_sector (u32 (sector + 1)) None (λ res2 b2,
    lo ← read_data b (offset + res) 1;
    hi ← read_data b2 res2 1;
    finish (byte_at lo 0 + Z.shiftl (byte_at hi 0) 8)))).

Definition fat16_read (n fat_num : Z) : FM Z :=
  g ← geo id;
  let '(sector, offset) := fat16_seek g n fat_num in
  guard_ret (offset <? 0) offset (
  with_sector sector None (λ res b,
  l ← read_data b (offset + res) 2;
  let c := le16_at l 0 in
  let c := if IS_FAT16_EOC c then FAT_EOC else c in
  mret c)).

Definition fat32_read (n fat_num : Z) : FM Z :=
  g ← geo id;
  let '(sector, offset) := fat32_seek g n fat_num in
  guard_ret (offset <? 0) offset (
  with_sector sector None (λ res b,
  l ← read_data b (offset + res) 4;
  let c := Z.land (le32_at l 0) 0x0FFFFFFF in
  let c := if IS_FAT32_EOC c then FAT_EOC else c in
  mret c)).

(** [v->fat_read] and [v->fat_write], set by [fat_mount] from the FAT type. *)
Definition fat_read_fn (n fat_num : Z) : FM Z :=
  t ← geo v_fat_type;
  match t with
  | FAT12 => fat12_read n fat_num
  | FAT16 => fat16_read n fat_num
  | FAT32 => fat32_read n fat_num
  end.

Definition read_fat_entry (n : Z) : FM Z :=
  active ← geo v_active_fat;
  fat_read_fn n active.

(** * Write *)

(** The end of [fat12_write]: [lsb] and [msb] are offsets in the buffers [b1] and
    [msb_buf], [b2] is null unless the entry spans across two sectors. *)
Definition fat12_store (n value : Z) (b1 : nat) (lsb : Z) (msb_buf : nat) (msb : Z)
    (b2 : option nat) : FM Z :=
  let value := if value =? FAT_EOC then FAT12_EOC else value in
  let odd := has n 1 in
  let value := if odd then u32 (Z.shiftl value 4) else Z.land value 0x0FFF in
  l ← read_data b1 lsb 1;
  write_data b1 lsb [if odd then Z.land (byte_at l 0) 0x0F else 0x00];;
  m ← read_data msb_buf msb 1;
  write_data msb_buf msb [if odd then 0x00 else Z.land (byte_at m 0) 0xF0];;
  l ← read_data b1 lsb 1;
  write_data b1 lsb [Z.lor (byte_at l 0) (u8 value)];;
  m ← read_data msb_buf msb 1;
  write_data msb_buf msb [Z.lor (byte_at m 0) (u8 (Z.shiftr value 8))];;
  res ← fat_dirtybuf b1 false;
  match b2 with
  | Some b2 => if res <? 0 then mret res else fat_dirtybuf b2 false
  | None => mret res
  end.

Definition fat12_write (n fat_num value : Z) : FM Z :=
  g ← geo id;
  let '(sector, offset) := fat12_seek g n fat_num in
  guard_ret (offset <? 0) offset (
  with_sector sector None (λ res b1,
  let lsb := offset + res in
  if offset <? v_bytes_per_sector g - 1 then fat12_store n value b1 lsb b1 (lsb + 1) None
  else with_sector (u32 (sector + 1)) None (λ res b2,
       fat12_store n value b1 lsb b2 res (Some b2)))).

Definition fat16_write (n fat_num value : Z) : FM Z :=
  g ← geo id;
  let '(sector, offset) := fat16_seek g n fat_num in
  guard_ret (offset <? 0) offset (
  with_sector sector None (λ res b,
  let value := if value =? FAT_EOC then FAT16_EOC else value in
  write_data b (offset + res) (le16 (u16 value));;
  fat_dirtybuf b false)).

Definition fat32_write (n fat_num value : Z) : FM Z :=
  g ← geo id;
  let '(sector, offset) := fat32_seek g n fat_num in
  guard_ret (offset <? 0) offset (
  with_sector sector None (λ res b,
  let value := if value =? FAT_EOC then FAT32_EOC else value in
  let value := Z.land value 0x0FFFFFFF in
  l ← read_data b (offset + res) 4;
  write_data b (offset + res) (le32 (Z.land (le32_at l 0) 0xF0000000));;
  l ← read_data b (offset + res) 4;
  write_data b (offset + res) (le32 (Z.lor (le32_at l 0) value));;
  fat_dirtybuf b false)).

Definition fat_write_fn (n fat_num value : Z) : FM Z :=
  t ← geo v_fat_type;
  match t with
  | FAT12 => fat12_write n fat_num value
  | FAT16 => fat16_write n fat_num value
  | FAT32 => fat32_write n fat_num value
  end.

(** [for (k = 0; k < v->num_fats; k++)] *)
Fixpoint write_fats (k : Z) (count : nat) (n value : Z) : FM Z :=
  match count with
  | O => mret 0
  | S count => res ←? fat_write_fn n k value; write_fats (k + 1) count n value
  end.

Definition write_fat_entry (n value : Z) : FM Z :=
  num_fats ← geo v_num_fats;
  write_fats 0 (Z.to_nat num_fats) n value.

(** * Sectors of a file *)

(** [while (c->cluster_index < cluster_index)]: one iteration per missing
    cluster. Zero when the cluster has been reached. *)
Fixpoint follow_chain (steps : nat) (c : Z) : FM Z :=
  match steps with
  | O => mret 0
  | S steps =>
      ch ← getchannel c;
      nc ← read_fat_entry (c_cluster ch);
      guard_ret (nc <? 0) nc (
      guard_ret (nc =? FAT_EOC) 1 (
      dc ← geo v_data_clusters;
      guard_ret ((nc <? 2) || (u32 (dc + 1) <? nc)) (- EIO) (
      modchannel c (λ ch, ch <| c_cluster_index ::= λ i, u32 (i + 1) |>);;
      modchannel c (λ ch, ch <| c_cluster := nc |>);;
      follow_chain steps c)))
  end.

(** Returns the C result and [*sector]. *)
Definition fat_get_file_sector (c sector_index : Z) : FM (Z * Z) :=
  ch ← getchannel c;
  f ← getfile (c_f ch);
  g ← geo id;
  if negb (nz (f_de_sector f)) && negb (nz (f_first_cluster f)) then
    if v_root_size g <=? sector_index then mret (1, 0)
    else mret (0, u32 (sector_index + v_root_sector g))
  else
    let cluster_index := Z.shiftr sector_index (v_log_sectors_per_cluster g) in
    let sector_in_cluster := Z.land sector_index (v_sectors_per_cluster g - 1) in
    if negb (nz (f_first_cluster f)) then mret (1, 0)
    else
      (if negb (nz (c_cluster_index ch)) || (cluster_index <? c_cluster_index ch) then
         modchannel c (λ ch, ch <| c_cluster_index := 0 |>);;
         modchannel c (λ ch, ch <| c_cluster := f_first_cluster f |>)
       else mret ());;
      ch ← getchannel c;
      res ← follow_chain (Z.to_nat (cluster_index - c_cluster_index ch)) c;
      if negb (res =? 0) then mret (res, 0)
      else
        ch ← getchannel c;
        mret (0, u32 (Z.shiftl (u32 (c_cluster ch - 2)) (v_log_sectors_per_cluster g)
                      + v_data_start g + sector_in_cluster)).

(** * Free clusters *)

(** [for (k = from; k < to; k++)] *)
Fixpoint find_free_cluster_from (k : Z) (count : nat) : FM Z :=
  match count with
  | O => mret (- ENOSPC)
  | S count =>
      res ← read_fat_entry k;
      guard_ret (res <? 0) res (
      if negb (nz res) then
        modv (λ v, v <| v_next_free := k |>);;
        modv (λ v, v <| v_fsinfo_changed := true |>);;
        mret k
      else find_free_cluster_from (u32 (k + 1)) count)
  end.
Definition find_free_cluster_in_range (from to : Z) : FM Z :=
  find_free_cluster_from from (Z.to_nat (to - from)).

Definition find_free_cluster : FM Z :=
  v ← getv;
  let dc := v_data_clusters (v_geo v) in
  let hint := v_next_free v in
  let hint := if (hint =? FAT_FSI_NA) || (hint <? 2) || (u32 (dc + 1) <? hint) then 2 else hint in
  res ← find_free_cluster_in_range hint (u32 (dc + 2));
  guard_ret (negb (res =? - ENOSPC)) res (
  res ← find_free_cluster_in_range 2 hint;
  guard_ret (negb (res =? - ENOSPC)) res (
  modv (λ v, v <| v_next_free := FAT_FSI_NA |>);;
  modv (λ v, v <| v_fsinfo_changed := true |>);;
  mret (- ENOSPC))).

Definition fat_append_cluster (c : Z) : FM Z :=
  ch ← getchannel c;
  f ← getfile (c_f ch);
  guard_ret (negb (nz (f_de_sector f)) && negb (nz (f_first_cluster f))) (- EFBIG) (
  cluster ←? find_free_cluster;
  ch ← getchannel c;
  res ←? (if negb (nz (f_first_cluster f)) then
            modfile (c_f ch) (λ f, f <| f_first_cluster := cluster |>);;
            modfile (c_f ch) (λ f, f <| f_de ::=
              λ d, d <| de_first_cluster_hi := u16 (Z.shiftr cluster 16) |> |>);;
            modfile (c_f ch) (λ f, f <| f_de ::= λ d, d <| de_first_cluster_lo := u16 cluster |> |>);;
            modfile (c_f ch) (λ f, f <| f_de_changed := true |>);;
            mret 0
          else write_fat_entry (c_cluster ch) cluster);
  modv (λ v, v <| v_free_clusters ::= λ n, u32 (n - 1) |>);;
  modv (λ v, v <| v_fsinfo_changed := true |>);;
  res ←? write_fat_entry cluster FAT_EOC;
  mret cluster).

(** * Deletion of a chain *)

(** [do ... while (next != FAT_EOC)] *)
Fixpoint delete_chain (k : nat) (from : Z) : FM Z :=
  match k with
  | O => nofuel
  | S k =>
      next ←? read_fat_entry from;
      res ←? write_fat_entry from 0;
      modv (λ v, v <| v_free_clusters ::= λ n, u32 (n + 1) |>);;
      modv (λ v, v <| v_fsinfo_changed := true |>);;
      if next =? FAT_EOC then mret 0 else delete_chain k next
  end.

Definition fat_delete_clusters (from : Z) : FM Z := delete_chain fuel from.

Definition fat_delete_file_clusters (f new_last_cluster : Z) : FM Z :=
  x ← getfile f;
  if nz new_last_cluster then
    next ←? read_fat_entry new_last_cluster;
    res ←? write_fat_entry new_last_cluster FAT_EOC;
    fat_delete_clusters next
  else
    modfile f (λ f, f <| f_first_cluster := 0 |>);;
    modfile f (λ f, f <| f_de ::= λ d, d <| de_first_cluster_hi := 0 |> |>);;
    modfile f (λ f, f <| f_de ::= λ d, d <| de_first_cluster_lo := 0 |> |>);;
    modfile f (λ f, f <| f_de_changed := true |>);;
    fat_delete_clusters (f_first_cluster x).
End alloc.
