(* ===== verification/FatTable.v ===== *)
(** Correctness of the file allocation table ([FatAlloc]): the entry readers
    and writers against an abstract table, the entries as functions of the
    bytes of the volume. *)
From S2P Require Import Prelude Errno Lists Nls Slab FatTypes FatDisk FatBuffer FatAlloc FatCache.

(** [lia] on quotients and remainders. *)
#[local] Ltac Zify.zify_post_hook ::= Z.div_mod_to_equations.

(** * The volume as an array of bytes *)



(** Bytes [l] at address [a]. *)
Definition put (img : Z → Z) (a : Z) (l : bytes) (x : Z) : Z :=
  if (a <=? x) && (x <? a + Z.of_nat (length l)) then byte_at l (x - a) else img x.

Lemma put_in img a l x :
  a ≤ x < a + Z.of_nat (length l) → put img a l x = byte_at l (x - a).
Proof. intros. unfold put. rewrite (proj2 (Z.leb_le _ _)), (proj2 (Z.ltb_lt _ _)) by lia. done. Qed.
Lemma put_out img a l x :
  x < a ∨ a + Z.of_nat (length l) ≤ x → put img a l x = img x.
Proof.
  intros. unfold put. destruct (Z.leb_spec a x), (Z.ltb_spec x (a + Z.of_nat (length l))); try done; lia.
Qed.
Lemma put_ext img img' a l x : img x = img' x → put img a l x = put img' a l x.
Proof. intros H. unfold put. by rewrite H. Qed.

Definition bytes_ok (img : Z → Z) : Prop := ∀ x, 0 ≤ x → is_byte (img x).

Lemma put_bytes img a l :
  bytes_ok img → Forall is_byte l → bytes_ok (put img a l).
Proof.
  intros Hi Hl x Hx. unfold put. destruct (_ && _) eqn:E; [|by apply Hi].
  unfold byte_at. destruct (l !! Z.to_nat (x - a)) eqn:El; simpl; [|done].
  by eapply Forall_lookup in Hl.
Qed.


(** Little-endian values in the image. *)
Definition img16 (img : Z → Z) (a : Z) : Z := img a + 256 * img (a + 1).
Definition img32 (img : Z → Z) (a : Z) : Z := img16 img a + 65536 * img16 img (a + 2).



Lemma img16_put img a v : 0 ≤ v < 65536 → img16 (put img a (le16 v)) a = v.
Proof.
  intros Hv. unfold img16. rewrite !put_in by (simpl; lia).
  rewrite Z.sub_diag, Z.add_simpl_l. by apply le16_value.
Qed.
Lemma img32_put img a v : 0 ≤ v < 4294967296 → img32 (put img a (le32 v)) a = v.
Proof.
  intros Hv. unfold img32, img16. rewrite !put_in by (simpl; lia).
  rewrite Z.sub_diag, Z.add_simpl_l.
  replace (a + 2 - a) with 2 by lia. replace (a + 2 + 1 - a) with 3 by lia.
  by apply le32_value.
Qed.
Lemma img16_out img a l x :
  x + 2 ≤ a ∨ a + Z.of_nat (length l) ≤ x → img16 (put img a l) x = img16 img x.
Proof. intros. unfold img16. rewrite !put_out by lia. done. Qed.
Lemma img32_out img a l x :
  x + 4 ≤ a ∨ a + Z.of_nat (length l) ≤ x → img32 (put img a l) x = img32 img x.
Proof. intros. unfold img32. rewrite !img16_out by lia. done. Qed.

(** * The abstract table *)

(** Where the entry of cluster [n] starts in a copy, and its size. *)
Definition entry_ofs (t : FatType) (n : Z) : Z :=
  match t with FAT12 => n + n / 2 | FAT16 => 2 * n | FAT32 => 4 * n end.
Definition entry_size (t : FatType) : Z := match t with FAT32 => 4 | _ => 2 end.
Definition fat_addr (g : Geometry) (k : Z) : Z :=
  (k * v_fat_size g + v_fat_start g) * v_bytes_per_sector g.
Definition entry_addr (g : Geometry) (k n : Z) : Z := fat_addr g k + entry_ofs (v_fat_type g) n.

(** The bits of the entry, and its value: end-of-chain marks become [FAT_EOC]. *)
Definition entry_bits (t : FatType) (img : Z → Z) (a n : Z) : Z :=
  match t with
  | FAT12 => if has n 1 then img16 img a / 16 else img16 img a mod 4096
  | FAT16 => img16 img a
  | FAT32 => img32 img a mod 2 ^ 28
  end.
Definition eoc_mark (t : FatType) : Z :=
  match t with FAT12 => 0xFF8 | FAT16 => 0xFFF8 | FAT32 => 0x0FFFFFF8 end.
Definition entry_value (t : FatType) (c : Z) : Z := if eoc_mark t <=? c then FAT_EOC else c.
Definition fat_entry (g : Geometry) (img : Z → Z) (k n : Z) : Z :=
  entry_value (v_fat_type g) (entry_bits (v_fat_type g) img (entry_addr g k n) n).

(** A geometry whose tables fit, on a disk of [size] sectors. *)
Record fat_ok (g : Geometry) (size : Z) : Prop := {
  fo_clusters : 0 ≤ v_data_clusters g < 2 ^ 28 - 16;
  fo_type : v_fat_type g = FAT12 → v_data_clusters g < 4085;
  fo_type16 : v_fat_type g = FAT16 → v_data_clusters g < 65525;
  fo_start : 0 ≤ v_fat_start g;
  fo_fit : entry_ofs (v_fat_type g) (v_data_clusters g + 1) + entry_size (v_fat_type g)
           ≤ v_fat_size g * v_bytes_per_sector g;
  fo_disk : v_fat_start g + v_num_fats g * v_fat_size g ≤ size;
  fo_active : 0 ≤ v_active_fat g < v_num_fats g }.

Section table.
Context {W : Type} `{FW : FatWorld W} `{FD : !FixedDisk W} `{FL : Fuel}.
Notation FM := (M (fs W)).
Implicit Types (g : Geometry) (c : Cache) (w : W) (v : Volume) (s : fs W).

Definition image g (f : Z → bytes) (a : Z) : Z :=
  byte_at (f (a / v_bytes_per_sector g)) (a mod v_bytes_per_sector g).

Lemma image_at g f n i :
  geo_ok g → 0 ≤ i < v_bytes_per_sector g →
  image g f (n * v_bytes_per_sector g + i) = byte_at (f n) i.
Proof.
  intros Hg Hi. unfold image. rewrite Z.div_add_l, Z.div_small, Z.add_0_r by lia.
  rewrite Z.add_comm, Z.mod_add, Z.mod_small by lia. done.
Qed.

Lemma image_store g f n o bs x :
  geo_ok g → 0 ≤ o → o + Z.of_nat (length bs) ≤ v_bytes_per_sector g →
  Z.of_nat (length (f n)) = v_bytes_per_sector g →
  image g (store_view f n o bs) x = put (image g f) (n * v_bytes_per_sector g + o) bs x.
Proof.
  intros Hg Ho Hle Hlen. pose proof (bps_pos g Hg) as Hp.
  pose proof (Z.div_mod x (v_bytes_per_sector g) ltac:(lia)) as Hx.
  pose proof (Z.mod_pos_bound x (v_bytes_per_sector g) Hp) as Hm.
  unfold image at 1, store_view. destruct (Z.eqb_spec (x / v_bytes_per_sector g) n) as [<-|Hne].
  - rewrite byte_at_poke by lia. unfold put, image.
    set (q := x / v_bytes_per_sector g) in *. set (r := x mod v_bytes_per_sector g) in *.
    replace (q * v_bytes_per_sector g + o <=? x) with (o <=? r).
    2: { destruct (Z.leb_spec o r); symmetry; [apply Z.leb_le|apply Z.leb_gt]; lia. }
    replace (x <? _) with (r <? o + Z.of_nat (length bs)).
    2: { destruct (Z.ltb_spec r (o + Z.of_nat (length bs))); symmetry;
         [apply Z.ltb_lt|apply Z.ltb_ge]; lia. }
    destruct (_ && _); [f_equal; lia|done].
  - rewrite put_out; [done|].
    destruct (decide (x / v_bytes_per_sector g < n)); [left|right]; nia.
Qed.

(** * Seeking *)

(** The sector and the offset are those of the byte at [fat_addr g k + o]. *)
Lemma seek_offset_spec g size k o :
  geo_ok g → fat_ok g size → size < 2 ^ 32 → 0 ≤ k < v_num_fats g →
  0 ≤ o < v_fat_size g * v_bytes_per_sector g →
  let '(sector, offset) := seek_offset g o k in
  sector = k * v_fat_size g + v_fat_start g + o / v_bytes_per_sector g ∧
  offset = o mod v_bytes_per_sector g ∧ 0 ≤ sector ∧
  sector < k * v_fat_size g + v_fat_start g + v_fat_size g ∧ sector < size.
Proof.
  intros Hg Hf Hsz Hk Ho. unfold seek_offset. destruct (go_log _ Hg) as [Hl Hb].
  pose proof (bps_pos _ Hg) as Hp. pose proof (fo_disk _ _ Hf). pose proof (fo_start _ _ Hf).
  rewrite shiftr_div, <- Hb by lia.
  replace (Z.land o (v_bytes_per_sector g - 1)) with (o mod v_bytes_per_sector g).
  2: { rewrite Hb, land_pow2_mod by lia. done. }
  assert (0 ≤ o / v_bytes_per_sector g < v_fat_size g).
  { split; [apply Z.div_pos; lia|]. apply Z.div_lt_upper_bound; lia. }
  assert (k * v_fat_size g + v_fat_size g ≤ v_num_fats g * v_fat_size g) by nia.
  rewrite u32_small by nia. split_and!; nia.
Qed.

Lemma bps_mod4 g : geo_ok g → ∃ q, 0 < q ∧ v_bytes_per_sector g = 4 * q.
Proof.
  intros Hg. destruct (go_log _ Hg) as [Hl ->]. exists (2 ^ (v_log_bytes_per_sector g - 2)).
  split; [apply Z.pow_pos_nonneg; lia|]. change 4 with (2 ^ 2). rewrite <- Z.pow_add_r by lia.
  f_equal. lia.
Qed.

(** The offset of the entry, as the three functions compute it. *)
Definition code_ofs (t : FatType) (n : Z) : Z :=
  match t with
  | FAT12 => u32 (n + Z.shiftr n 1) | FAT16 => u32 (Z.shiftl n 1) | FAT32 => u32 (Z.shiftl n 2)
  end.

Definition in_table g (n : Z) : Prop := 0 ≤ n ≤ v_data_clusters g + 1.

Lemma code_ofs_eq g size n :
  fat_ok g size → in_table g n → code_ofs (v_fat_type g) n = entry_ofs (v_fat_type g) n.
Proof.
  intros Hf Hn. pose proof (fo_clusters _ _ Hf). unfold in_table in Hn.
  unfold code_ofs, entry_ofs. destruct (v_fat_type g);
    rewrite ?shiftr_div, ?shiftl_mul by done; change (2 ^ 1) with 2; change (2 ^ 2) with 4;
    rewrite u32_small; lia.
Qed.

Lemma entry_ofs_mono g n m : 0 ≤ n ≤ m →
  0 ≤ entry_ofs (v_fat_type g) n ≤ entry_ofs (v_fat_type g) m.
Proof. intros. unfold entry_ofs. destruct (v_fat_type g); lia. Qed.

Definition fat_seek (t : FatType) g n k : Z * Z :=
  match t with FAT12 => fat12_seek g n k | FAT16 => fat16_seek g n k | FAT32 => fat32_seek g n k end.

Lemma fat_seek_spec g size n k :
  geo_ok g → fat_ok g size → size < 2 ^ 32 → 0 ≤ k < v_num_fats g → in_table g n →
  let '(sector, offset) := fat_seek (v_fat_type g) g n k in
  sector * v_bytes_per_sector g + offset = entry_addr g k n ∧
  0 ≤ offset < v_bytes_per_sector g ∧ 0 ≤ sector < size ∧
  (offset + entry_size (v_fat_type g) ≤ v_bytes_per_sector g ∨
   v_fat_type g = FAT12 ∧ offset = v_bytes_per_sector g - 1 ∧ sector + 1 < size).
Proof.
  intros Hg Hf Hsz Hk Hn. pose proof (fo_clusters _ _ Hf) as Hc. pose proof (fo_fit _ _ Hf) as Hfit.
  pose proof (bps_pos _ Hg) as Hp.
  assert (fat_seek (v_fat_type g) g n k = seek_offset g (code_ofs (v_fat_type g) n) k) as ->.
  { unfold fat_seek, fat12_seek, fat16_seek, fat32_seek, code_ofs.
    unfold in_table in Hn. rewrite u32_small by lia. rewrite (proj2 (Z.ltb_ge _ _)) by lia.
    by destruct (v_fat_type g). }
  rewrite (code_ofs_eq _ _ _ Hf Hn). set (o := entry_ofs (v_fat_type g) n).
  assert (0 ≤ o ∧ o + entry_size (v_fat_type g) ≤ v_fat_size g * v_bytes_per_sector g) as [Ho1 Ho2].
  { unfold in_table in Hn. pose proof (entry_ofs_mono g n (v_data_clusters g + 1)). lia. }
  assert (0 < entry_size (v_fat_type g)) as Hes by (destruct (v_fat_type g); done).
  pose proof (seek_offset_spec g size k o Hg Hf Hsz Hk) as Hs.
  destruct (seek_offset g o k) as [sector offset]. destruct Hs as (-> & -> & H1 & H2 & H3); [lia|].
  unfold entry_addr, fat_addr. fold o.
  pose proof (Z.div_mod o (v_bytes_per_sector g) ltac:(lia)).
  pose proof (Z.mod_pos_bound o (v_bytes_per_sector g) Hp).
  split_and!; [lia|lia|lia|lia|lia|].
  destruct (decide (v_fat_type g = FAT12)) as [E|E].
  - destruct (decide (o mod v_bytes_per_sector g = v_bytes_per_sector g - 1)) as [El|El].
    + right. split_and!; [done|done|]. rewrite E in Ho2. simpl in Ho2.
      pose proof (fo_disk _ _ Hf). pose proof (fo_start _ _ Hf).
      assert (o / v_bytes_per_sector g + 1 < v_fat_size g) by nia.
      assert (k * v_fat_size g + v_fat_size g ≤ v_num_fats g * v_fat_size g) by nia. lia.
    + left. rewrite E. simpl. lia.
  - left. pose proof (bps_mod4 g Hg) as (q & Hq & Hb). unfold o in *.
    rewrite Hb in *. destruct (v_fat_type g); [done| |]; simpl in *.
    + replace (4 * q) with (2 * (2 * q)) in * by lia. rewrite Z.mul_mod_distr_l in * by lia.
      pose proof (Z.mod_pos_bound n (2 * q)). lia.
    + rewrite Z.mul_mod_distr_l in * by lia. pose proof (Z.mod_pos_bound n q). lia.
Qed.

(** * Reading an entry *)

Lemma readbuf_ofs g c w n b ofs k c' w' :
  readbuf_post g c w n b ofs k c' w' → 0 ≤ n → 0 ≤ ofs.
Proof.
  intros Hp Hn. destruct (rb_at _ _ _ _ _ _ _ _ _ Hp) as (x & Hk & Hs & Hofs).
  by destruct (at_sector_bounds _ _ _ _ _ _ _ _ (rb_inv _ _ _ _ _ _ _ _ _ Hp) Hn Hk Hs Hofs).
Qed.

Lemma wp_with_sector s v c w g n kont (Q : Z → fs W → Prop) :
  fs_vol s = Some v → v_geo v = g → cinv g [] c w → in_disk w n →
  (∀ c' w' ofs k, readbuf_post g c w n None ofs k c' w' → wp (kont ofs k) Q (setc s c' w')) →
  wp (with_sector n None kont) Q (setc s c w).
Proof.
  intros Hv Hg I Hin HQ. unfold with_sector. apply wp_bind.
  eapply wp_readbuf; [done..|]. intros c' w' ofs k Hp.
  pose proof (readbuf_ofs _ _ _ _ _ _ _ _ _ Hp (proj1 Hin)).
  rewrite (proj2 (Z.ltb_ge _ _)) by lia. unfold guard_ret. apply wp_bind.
  eapply wp_deref; [done|]. by apply HQ.
Qed.

Definition img_eq (img img' : Z → Z) : Prop := ∀ x, 0 ≤ x → img x = img' x.

Lemma image_same g c w c' w' :
  geo_ok g → same_view g c w c' w' → img_eq (image g (view g c' w')) (image g (view g c w)).
Proof.
  intros Hg [_ H] x Hx. pose proof (bps_pos _ Hg). unfold image. rewrite H; [done|].
  by apply Z.div_pos.
Qed.

Lemma entry_bits_ext t img img' a n : 0 ≤ a → img_eq img img' → entry_bits t img a n = entry_bits t img' a n.
Proof.
  intros Ha He. unfold entry_bits, img32, img16. rewrite !He by lia. done.
Qed.

Lemma fat_addr_pos g size k : geo_ok g → fat_ok g size → 0 ≤ k → 0 ≤ fat_addr g k.
Proof.
  intros Hg Hf Hk. unfold fat_addr. pose proof (bps_pos _ Hg). pose proof (fo_start _ _ Hf).
  pose proof (fo_fit _ _ Hf). pose proof (fo_clusters _ _ Hf).
  pose proof (entry_ofs_mono g 0 (v_data_clusters g + 1)).
  assert (0 < entry_size (v_fat_type g)) by by destruct (v_fat_type g).
  assert (0 ≤ v_fat_size g) by nia. nia.
Qed.

Lemma entry_addr_pos g size k n :
  geo_ok g → fat_ok g size → 0 ≤ k → in_table g n → 0 ≤ entry_addr g k n.
Proof.
  intros Hg Hf Hk Hn. pose proof (fat_addr_pos _ _ _ Hg Hf Hk). unfold entry_addr, in_table in *.
  pose proof (entry_ofs_mono g n n). lia.
Qed.

Lemma fat_entry_ext g size img img' k n :
  geo_ok g → fat_ok g size → 0 ≤ k → in_table g n → img_eq img img' →
  fat_entry g img k n = fat_entry g img' k n.
Proof.
  intros. unfold fat_entry. f_equal. apply entry_bits_ext; [|done]. by eapply entry_addr_pos.
Qed.

Lemma has_1 n : has n 1 = Z.odd n.
Proof.
  unfold has, nz. change 1 with (Z.ones 1). rewrite Z.land_ones by done. change (2 ^ 1) with 2.
  rewrite Zmod_odd. by destruct (Z.odd n).
Qed.

(** The last step of the three readers. *)
Definition finish12 (n c : Z) : Z :=
  let c := if has n 1 then Z.shiftr c 4 else Z.land c 0x0FFF in
  if IS_FAT12_EOC c then FAT_EOC else c.

Lemma finish12_eq img a n :
  finish12 n (img16 img a) = entry_value FAT12 (entry_bits FAT12 img a n).
Proof.
  unfold finish12, entry_value, entry_bits, IS_FAT12_EOC. simpl eoc_mark.
  rewrite shiftr_div by done. change 0xFFF with (2 ^ 12 - 1). rewrite land_pow2_mod by done. done.
Qed.

Lemma wp_read_image s v c w g X k ofs n o len (Q : bytes → fs W → Prop) :
  fs_vol s = Some v → v_geo v = g → cinv g X c w → 0 ≤ n → at_sector g c k ofs n →
  0 ≤ o → 0 ≤ len → o + len ≤ v_bytes_per_sector g →
  (∀ l, (∀ i, 0 ≤ i < len →
           byte_at l i = image g (view g c w) (n * v_bytes_per_sector g + o + i)) →
        Q l (setc s c w)) →
  wp (read_data k (o + ofs) len) Q (setc s c w).
Proof.
  intros Hv Hg I Hn Hat Ho Hl Hle HQ. rewrite (Z.add_comm o).
  eapply (wp_read_data s v c w g X k ofs n); [done..|]. apply HQ. intros i Hi.
  rewrite byte_at_slice by lia. rewrite <- Z.add_assoc, image_at by (apply I || lia). done.
Qed.

(** The second of two sectors in a row: the first one is still in its buffer. *)
Lemma readbuf_twice g c w n1 n2 ofs1 k1 ofs2 k2 c1 w1 c2 w2 :
  readbuf_post g c w n1 None ofs1 k1 c1 w1 → readbuf_post g c1 w1 n2 None ofs2 k2 c2 w2 →
  at_sector g c2 k1 ofs1 n1 ∧ same_view g c w c2 w2.
Proof.
  intros H1 H2. split.
  - eapply rb_keep; [done..| |]; apply H1.
  - eapply same_view_trans; [apply H1|apply H2].
Qed.

Ltac start_access Hv Hs Hg :=
  apply wp_bind; (eapply wp_geo_c; [exact Hv|]); unfold id; rewrite Hg;
  match goal with |- context [let '(_, _) := ?p in _] =>
    let E := fresh in destruct p as [sector offset] eqn:E; simpl in Hs; rewrite ?E in Hs end;
  destruct Hs as (Ha & Ho & Hsec & Hspan);
  rewrite (proj2 (Z.ltb_ge _ _)) by lia; unfold guard_ret.

Lemma wp_fat12_read s v c w g n k (Q : Z → fs W → Prop) :
  fs_vol s = Some v → v_geo v = g → cinv g [] c w → fat_ok g (disk_size w) →
  0 ≤ k < v_num_fats g → in_table g n → v_fat_type g = FAT12 →
  (∀ c' w', cinv g [] c' w' → same_view g c w c' w' →
     Q (fat_entry g (image g (view g c w)) k n) (setc s c' w')) →
  wp (fat12_read n k) Q (setc s c w).
Proof.
  intros Hv Hg I Hf Hk Hn Ht HQ. pose proof (ci_geo _ _ _ _ I) as Hgo.
  pose proof (fat_seek_spec g _ n k Hgo Hf (ci_size _ _ _ _ I) Hk Hn) as Hs.
  pose proof (entry_addr_pos _ _ k n Hgo Hf (proj1 Hk) Hn) as Hap.
  unfold fat_entry in HQ. rewrite Ht in HQ, Hs. unfold fat12_read. start_access Hv Hs Hg.
  eapply wp_with_sector; [done..|]. intros c1 w1 ofs k1 Hp1.
  assert (∀ c2 w2, cinv g [] c2 w2 → same_view g c w c2 w2 →
    Q (finish12 n (img16 (image g (view g c2 w2)) (entry_addr g k n))) (setc s c2 w2)) as HQ'.
  { intros c2 w2 I2 V2. rewrite finish12_eq.
    rewrite (entry_bits_ext _ _ (image g (view g c w))); [by apply HQ|done|].
    by apply image_same. }
  fold (finish12 n). destruct (Z.ltb_spec offset (v_bytes_per_sector g - 1)).
  - apply wp_bind. eapply (wp_read_image s v c1 w1 g [] k1 ofs sector); [done|done|apply Hp1|lia|apply Hp1|lia..|].
    intros l Hl.
    apply wp_ret. change (Q (finish12 n (le16_at l 0)) (setc s c1 w1)).
    rewrite le16_at_eq, !Hl by lia. rewrite Ha, Z.add_0_r. apply HQ'; apply Hp1.
  - destruct Hspan as [Hspan|(_ & Hoff & Hnext)]; [simpl in Hspan; lia|].
    pose proof (ci_size _ _ _ _ I) as Hsz. destruct (rb_view _ _ _ _ _ _ _ _ _ Hp1) as [Hsz1 _].
    rewrite u32_small by lia.
    eapply wp_with_sector; [done|done|apply Hp1| |].
    { unfold in_disk. lia. }
    intros c2 w2 ofs2 k2 Hp2. destruct (readbuf_twice _ _ _ _ _ _ _ _ _ _ _ _ _ Hp1 Hp2) as [Hat1 V2].
    pose proof (rb_inv _ _ _ _ _ _ _ _ _ Hp2) as I2.
    apply wp_bind. eapply (wp_read_image s v c2 w2 g [] k1 ofs sector);
      [done|done|exact I2|lia|exact Hat1|lia..|]. intros lo Hlo.
    apply wp_bind. rewrite <- (Z.add_0_l ofs2).
    eapply (wp_read_image s v c2 w2 g [] k2 ofs2 (sector + 1));
      [done|done|exact I2|lia|apply Hp2|lia..|]. intros hi Hhi.
    apply wp_ret.
    change (Q (finish12 n (byte_at lo 0 + Z.shiftl (byte_at hi 0) 8)) (setc s c2 w2)).
    rewrite shiftl_mul, Hlo, Hhi by lia. change (2 ^ 8) with 256. rewrite (Z.mul_comm _ 256).
    replace ((sector + 1) * v_bytes_per_sector g + 0 + 0) with (entry_addr g k n + 1) by lia.
    rewrite Ha, Z.add_0_r. by apply HQ'.
Qed.

Lemma wp_fat_read_fn s v c w g n k (Q : Z → fs W → Prop) :
  fs_vol s = Some v → v_geo v = g → cinv g [] c w → fat_ok g (disk_size w) →
  0 ≤ k < v_num_fats g → in_table g n →
  (∀ c' w', cinv g [] c' w' → same_view g c w c' w' →
     Q (fat_entry g (image g (view g c w)) k n) (setc s c' w')) →
  wp (fat_read_fn n k) Q (setc s c w).
Proof.
  intros Hv Hg I Hf Hk Hn HQ. pose proof (ci_geo _ _ _ _ I) as Hgo.
  unfold fat_read_fn. apply wp_bind. eapply wp_geo_c; [done|]. rewrite Hg.
  destruct (v_fat_type g) eqn:Ht.
  { by eapply wp_fat12_read. }
  all: pose proof (fat_seek_spec g _ n k Hgo Hf (ci_size _ _ _ _ I) Hk Hn) as Hs;
    pose proof (entry_addr_pos _ _ k n Hgo Hf (proj1 Hk) Hn) as Hap;
    unfold fat_entry in HQ; rewrite Ht in HQ, Hs;
    cbv iota; first [progress unfold fat16_read|progress unfold fat32_read]; start_access Hv Hs Hg;
    destruct Hspan as [Hspan|[? _]]; [|done]; simpl in Hspan;
    (eapply wp_with_sector; [done..|]); intros c1 w1 ofs k1 Hp1;
    pose proof (rb_inv _ _ _ _ _ _ _ _ _ Hp1) as I1; pose proof (rb_view _ _ _ _ _ _ _ _ _ Hp1) as V1;
    apply wp_bind; (eapply (wp_read_image s v c1 w1 g [] k1 ofs sector); [done|done|exact I1|lia|apply Hp1|lia..|]); intros l Hl;
    apply wp_ret; specialize (HQ c1 w1 I1 V1);
    rewrite <- (entry_bits_ext _ (image g (view g c1 w1))) in HQ by (done || by apply image_same);
    unfold entry_bits in HQ.
  - rewrite le16_at_eq, !Hl by lia. rewrite Ha, Z.add_0_r. exact HQ.
  - rewrite le32_at_eq, !Hl by lia. rewrite Ha, Z.add_0_r.
    change 0x0FFFFFFF with (2 ^ 28 - 1). rewrite land_pow2_mod by done.
    unfold img32, img16 in HQ. rewrite <- !Z.add_assoc in *. exact HQ.
Qed.

Lemma wp_read_fat_entry s v c w g n (Q : Z → fs W → Prop) :
  fs_vol s = Some v → v_geo v = g → cinv g [] c w → fat_ok g (disk_size w) → in_table g n →
  (∀ c' w', cinv g [] c' w' → same_view g c w c' w' →
     Q (fat_entry g (image g (view g c w)) (v_active_fat g) n) (setc s c' w')) →
  wp (read_fat_entry n) Q (setc s c w).
Proof.
  intros Hv Hg I Hf Hn HQ. unfold read_fat_entry. apply wp_bind. eapply wp_geo_c; [done|].
  rewrite Hg. eapply wp_fat_read_fn; try done. apply Hf.
Qed.

(** * Writing an entry *)

(** A cache that presents the image [img], with sectors at known places; [X] are
    the buffers stored to since they were last marked dirty. *)
Record acc g (X : list nat) (img : Z → Z) (ats : list (nat * Z * Z)) c w : Prop := {
  ac_inv : cinv g X c w;
  ac_img : img_eq (image g (view g c w)) img;
  ac_at k ofs n : (k, ofs, n) ∈ ats → at_sector g c k ofs n ∧ in_disk w n }.

Lemma wp_acc_read s v c w g X img ats k ofs n o len (Q : bytes → fs W → Prop) :
  fs_vol s = Some v → v_geo v = g → acc g X img ats c w → (k, ofs, n) ∈ ats →
  0 ≤ o → 0 ≤ len → o + len ≤ v_bytes_per_sector g →
  (∀ l, (∀ i, 0 ≤ i < len → byte_at l i = img (n * v_bytes_per_sector g + o + i)) →
        Q l (setc s c w)) →
  wp (read_data k (o + ofs) len) Q (setc s c w).
Proof.
  intros Hv Hg A Hin Ho Hl Hle HQ. destruct (ac_at _ _ _ _ _ _ A _ _ _ Hin) as [Hat Hn].
  pose proof (bps_pos _ (ci_geo _ _ _ _ (ac_inv _ _ _ _ _ _ A))).
  eapply (wp_read_image s v c w g X k ofs n); [done|done|apply A|apply Hn|done..|].
  intros l Hl'. apply HQ. intros i Hi. rewrite Hl' by done. apply A.
  unfold in_disk in Hn. nia.
Qed.

Lemma wp_acc_write s v c w g X img ats k ofs n o bs (Q : () → fs W → Prop) :
  fs_vol s = Some v → v_geo v = g → acc g X img ats c w → (k, ofs, n) ∈ ats →
  0 ≤ o → o + Z.of_nat (length bs) ≤ v_bytes_per_sector g →
  (∀ c', acc g (k :: X) (put img (n * v_bytes_per_sector g + o) bs) ats c' w →
         Q () (setc s c' w)) →
  wp (write_data k (o + ofs) bs) Q (setc s c w).
Proof.
  intros Hv Hg A Hin Ho Hle HQ. destruct (ac_at _ _ _ _ _ _ A _ _ _ Hin) as [Hat Hn].
  pose proof (ac_inv _ _ _ _ _ _ A) as I. pose proof (ci_geo _ _ _ _ I) as Hgo.
  rewrite Z.add_comm. eapply (wp_write_data s v c w g X k ofs n); [done..|].
  intros c' Hst. apply HQ. split.
  - apply Hst.
  - intros x Hx. rewrite <- (put_ext (image g (view g c w))) by by apply A.
    rewrite <- image_store; [|done|done|done|by eapply view_length].
    unfold image. rewrite (st_view _ _ _ _ _ _ _ _ _ Hst); [done|].
    apply Z.div_pos; [done|by apply bps_pos].
  - intros k' ofs' n' Hin'. destruct (ac_at _ _ _ _ _ _ A _ _ _ Hin') as [Hat' Hn'].
    split; [by apply Hst|done].
Qed.

Lemma wp_acc_dirty s v c w g X X' img ats k ofs n (Q : Z → fs W → Prop) :
  fs_vol s = Some v → v_geo v = g → acc g X img ats c w → (k, ofs, n) ∈ ats →
  (∀ j, j ∈ X → j = k ∨ j ∈ X') →
  (∀ c', acc g X' img ats c' w → Q 0 (setc s c' w)) →
  wp (fat_dirtybuf k false) Q (setc s c w).
Proof.
  intros Hv Hg A Hin HX HQ. destruct (ac_at _ _ _ _ _ _ A _ _ _ Hin) as [Hat Hn].
  pose proof (ac_inv _ _ _ _ _ _ A) as I. pose proof (bps_pos _ (ci_geo _ _ _ _ I)) as Hp.
  eapply (wp_dirtybuf s v c w g X X' k ofs n); [done..|]. intros c' Hd. apply HQ. split.
  - apply Hd.
  - intros x Hx. rewrite <- (ac_img _ _ _ _ _ _ A x Hx). unfold image.
    rewrite (di_view _ _ _ _ _ Hd); [done|]. by apply Z.div_pos.
  - intros k' ofs' n' Hin'. destruct (ac_at _ _ _ _ _ _ A _ _ _ Hin') as [Hat' Hn'].
    split; [by apply Hd|done].
Qed.

(** The value as it is stored, and the image afterwards. *)
Definition stored_value (t : FatType) (value : Z) : Z :=
  if value =? FAT_EOC then
    match t with FAT12 => FAT12_EOC | FAT16 => FAT16_EOC | FAT32 => FAT32_EOC end
  else value.
Definition entry_put (t : FatType) (img : Z → Z) (a n value : Z) : Z → Z :=
  let v := stored_value t value in
  match t with
  | FAT12 =>
      let v := if has n 1 then u32 (Z.shiftl v 4) else Z.land v 0x0FFF in
      put (put img a [Z.lor (if has n 1 then Z.land (img a) 0x0F else 0) (u8 v)])
        (a + 1) [Z.lor (if has n 1 then 0 else Z.land (img (a + 1)) 0xF0) (u8 (Z.shiftr v 8))]
  | FAT16 => put img a (le16 (u16 v))
  | FAT32 => put img a (le32 (Z.lor (Z.land (img32 img a) 0xF0000000) (Z.land v 0x0FFFFFFF)))
  end.

(** Two bytes stored twice. *)
Lemma put_same_twice img a l1 m1 l2 m2 y :
  put (put (put (put img a [l1]) (a + 1) [m1]) a [l2]) (a + 1) [m2] y
  = put (put img a [l2]) (a + 1) [m2] y.
Proof.
  destruct (decide (y = a + 1)) as [->|]; [by rewrite !(put_in _ (a + 1)) by (simpl; lia)|].
  rewrite !(put_out _ (a + 1)) by (simpl; lia).
  destruct (decide (y = a)) as [->|]; [by rewrite !(put_in _ a) by (simpl; lia)|].
  by rewrite !(put_out _ a), ?(put_out _ (a + 1)), ?(put_out _ a) by (simpl; lia).
Qed.

Lemma byte_at_one x : byte_at [x] 0 = x.
Proof. done. Qed.

Lemma wp_fat12_store s v c w g img n value b1 ofs1 sec1 o1 b2 ofs2 sec2 o2 two (Q : Z → fs W → Prop) :
  fs_vol s = Some v → v_geo v = g →
  acc g [] img [(b1, ofs1, sec1); (b2, ofs2, sec2)] c w →
  0 ≤ o1 → o1 + 1 ≤ v_bytes_per_sector g → 0 ≤ o2 → o2 + 1 ≤ v_bytes_per_sector g →
  let a := sec1 * v_bytes_per_sector g + o1 in
  sec2 * v_bytes_per_sector g + o2 = a + 1 →
  (two = Some b2 ∨ two = None ∧ b2 = b1) →
  (∀ c', cinv g [] c' w → img_eq (image g (view g c' w)) (entry_put FAT12 img a n value) →
     Q 0 (setc s c' w)) →
  wp (fat12_store n value b1 (o1 + ofs1) b2 (o2 + ofs2) two) Q (setc s c w).
Proof.
  cbv zeta. intros Hv Hg A Ho1 Hl1 Ho2 Hl2 Ha Htwo HQ. unfold fat12_store.
  change (if value =? FAT_EOC then FAT12_EOC else value) with (stored_value FAT12 value).
  set (a := sec1 * v_bytes_per_sector g + o1) in *.
  set (x := if has n 1 then u32 (Z.shiftl (stored_value FAT12 value) 4)
            else Z.land (stored_value FAT12 value) 0x0FFF).
  assert ((b1, ofs1, sec1) ∈ [(b1, ofs1, sec1); (b2, ofs2, sec2)]) as In1 by set_solver.
  assert ((b2, ofs2, sec2) ∈ [(b1, ofs1, sec1); (b2, ofs2, sec2)]) as In2 by set_solver.
  apply wp_bind. eapply wp_acc_read; [done|done|exact A|exact In1|lia..|]. intros l Hl.
  rewrite Hl by lia. fold a. rewrite Z.add_0_r.
  apply wp_bind. eapply wp_acc_write; [done|done|exact A|exact In1|done|done|]. clear A l Hl. intros c1 A.
  fold a in A.
  apply wp_bind. eapply wp_acc_read; [done|done|exact A|exact In2|lia..|]. intros m Hm.
  rewrite Hm, Ha, Z.add_0_r, put_out by (simpl; lia).
  apply wp_bind. eapply wp_acc_write; [done|done|exact A|exact In2|done|done|]. clear A m Hm. intros c2 A.
  rewrite Ha in A.
  apply wp_bind. eapply wp_acc_read; [done|done|exact A|exact In1|lia..|]. intros l Hl.
  rewrite Hl by lia. fold a. rewrite Z.add_0_r, put_out, put_in, Z.sub_diag, byte_at_one by (simpl; lia).
  apply wp_bind. eapply wp_acc_write; [done|done|exact A|exact In1|done|done|]. clear A l Hl. intros c3 A.
  fold a in A.
  apply wp_bind. eapply wp_acc_read; [done|done|exact A|exact In2|lia..|]. intros m Hm.
  rewrite Hm, Ha, Z.add_0_r, put_out, put_in, Z.sub_diag, byte_at_one by (simpl; lia).
  apply wp_bind. eapply wp_acc_write; [done|done|exact A|exact In2|done|done|]. clear A m Hm. intros c4 A.
  rewrite Ha in A.
  apply wp_bind. eapply (wp_acc_dirty _ _ _ _ _ _ (if two then [b2] else [])); [done|done|exact A|exact In1| |].
  { destruct Htwo as [->|[-> ->]]; set_solver. }
  clear A. intros c5 A.
  assert (∀ c', acc g [] (entry_put FAT12 img a n value) [] c' w → Q 0 (setc s c' w)) as HQ'.
  { intros c' A'. apply HQ; apply A'. }
  assert (∀ X ats c', acc g X (put (put (put (put img a [if has n 1 then Z.land (img a) 15 else 0])
     (a + 1) [if has n 1 then 0 else Z.land (img (a + 1)) 240]) a
     [Z.lor (if has n 1 then Z.land (img a) 15 else 0) (u8 x)]) (a + 1)
     [Z.lor (if has n 1 then 0 else Z.land (img (a + 1)) 240) (u8 (Z.shiftr x 8))]) ats c' w →
     acc g X (entry_put FAT12 img a n value) [] c' w) as Hfin.
  { intros X ats c' A'. split; [apply A'| |set_solver]. intros y Hy. rewrite (ac_img _ _ _ _ _ _ A' y Hy).
    apply put_same_twice. }
  destruct Htwo as [->|[-> ->]].
  - cbn [Z.ltb Z.compare]. eapply (wp_acc_dirty _ _ _ _ _ _ []); [done|done|exact A|exact In2|set_solver|].
    clear A. intros c6 A. eapply HQ', Hfin, A.
  - apply wp_ret. eapply HQ', Hfin, A.
Qed.

Lemma put_same img a l1 l2 y :
  length l1 = length l2 → put (put img a l1) a l2 y = put img a l2 y.
Proof. intros Hl. unfold put. rewrite Hl. by destruct (_ && _). Qed.

Lemma land_high_nibble x : Z.land x 0xF0000000 = (x / 2 ^ 28) mod 2 ^ 4 * 2 ^ 28.
Proof.
  change 0xF0000000 with (Z.shiftl (Z.ones 4) 28).
  rewrite <- Z.land_ones, <- shiftr_div, <- shiftl_mul by done.
  apply Z.bits_inj'. intros i Hi. rewrite Z.land_spec.
  destruct (decide (i < 28)).
  - rewrite !Z.shiftl_spec_low by done. by rewrite andb_false_r.
  - rewrite !Z.shiftl_spec by done. rewrite Z.land_spec, Z.shiftr_spec by lia.
    by replace (i - 28 + 28) with i by lia.
Qed.

Lemma acc_readbuf g c w n b ofs k c' w' :
  geo_ok g → readbuf_post g c w n b ofs k c' w' → in_disk w n →
  acc g [] (image g (view g c w)) [(k, ofs, n)] c' w'.
Proof.
  intros Hg Hp Hin. split; [apply Hp|apply image_same; [done|apply Hp]|].
  intros k' ofs' n' E. apply list_elem_of_singleton in E. simplify_eq.
  split; [apply Hp|]. destruct (rb_view _ _ _ _ _ _ _ _ _ Hp) as [Hsz _].
  unfold in_disk in *. lia.
Qed.

Lemma wp_fat_write_fn s v c w g n k value (Q : Z → fs W → Prop) :
  fs_vol s = Some v → v_geo v = g → cinv g [] c w → fat_ok g (disk_size w) →
  0 ≤ k < v_num_fats g → in_table g n →
  (∀ c' w', cinv g [] c' w' → disk_size w' = disk_size w →
     img_eq (image g (view g c' w'))
       (entry_put (v_fat_type g) (image g (view g c w)) (entry_addr g k n) n value) →
     Q 0 (setc s c' w')) →
  wp (fat_write_fn n k value) Q (setc s c w).
Proof.
  intros Hv Hg I Hf Hk Hn HQ. pose proof (ci_geo _ _ _ _ I) as Hgo.
  pose proof (fat_seek_spec g _ n k Hgo Hf (ci_size _ _ _ _ I) Hk Hn) as Hs.
  pose proof (entry_addr_pos _ _ k n Hgo Hf (proj1 Hk) Hn) as Hap.
  unfold fat_write_fn. apply wp_bind. eapply wp_geo_c; [done|]. rewrite Hg.
  destruct (v_fat_type g) eqn:Ht.
  - unfold fat12_write. start_access Hv Hs Hg.
    eapply wp_with_sector; [done..|]. intros c1 w1 ofs1 k1 Hp1.
    destruct (rb_view _ _ _ _ _ _ _ _ _ Hp1) as [Hsz1 _].
    pose proof (acc_readbuf _ _ _ _ _ _ _ _ _ Hgo Hp1 Hsec) as A1.
    destruct (Z.ltb_spec offset (v_bytes_per_sector g - 1)).
    + replace (offset + ofs1 + 1) with ((offset + 1) + ofs1) by lia.
      eapply (wp_fat12_store _ _ _ _ _ (image g (view g c w)) _ _ _ ofs1 sector _ _ ofs1 sector);
        [done|done| |lia|lia|lia|lia|lia|by right|].
      { split; [apply A1..|]. intros k' ofs' n' E. eapply A1. set_solver. }
      intros c2 I2 E2. apply HQ; [done..|]. by rewrite Ha in E2.
    + destruct Hspan as [Hspan|(_ & Hoff & Hnext)]; [simpl in Hspan; lia|].
      pose proof (ci_size _ _ _ _ I) as Hsz. rewrite u32_small by lia.
      assert (in_disk w1 (sector + 1)) as Hin2 by (unfold in_disk; lia).
      eapply wp_with_sector; [done|done|apply Hp1|done|].
      intros c2 w2 ofs2 k2 Hp2.
      destruct (readbuf_twice _ _ _ _ _ _ _ _ _ _ _ _ _ Hp1 Hp2) as [Hat1 V2].
      pose proof (acc_readbuf _ _ _ _ _ _ _ _ _ Hgo Hp2 Hin2) as A2.
      rewrite <- (Z.add_0_l ofs2).
      eapply (wp_fat12_store _ _ _ _ _ (image g (view g c w)) _ _ _ _ sector _ _ _ (sector + 1));
        [done|done| |lia|lia|lia|lia|lia|by left|].
      { split; [apply Hp2|by apply image_same|]. intros k' ofs' n' E.
        apply elem_of_cons in E as [E|E]; [|by eapply A2]. simplify_eq. split; [done|].
        destruct V2 as [Hsz2 _]. unfold in_disk. lia. }
      intros c3 I3 E3. apply HQ; [done|by destruct V2|]. by rewrite Ha in E3.
  - unfold fat16_write. start_access Hv Hs Hg.
    eapply wp_with_sector; [done..|]. intros c1 w1 ofs1 k1 Hp1.
    destruct (rb_view _ _ _ _ _ _ _ _ _ Hp1) as [Hsz1 _].
    pose proof (acc_readbuf _ _ _ _ _ _ _ _ _ Hgo Hp1 Hsec) as A1.
    destruct Hspan as [Hspan|[? _]]; [|done]. simpl in Hspan.
    assert ((k1, ofs1, sector) ∈ [(k1, ofs1, sector)]) as In1 by set_solver.
    apply wp_bind. eapply wp_acc_write; [done|done|exact A1|exact In1|lia|simpl; lia|].
    intros c2 A2. rewrite Ha in A2.
    eapply (wp_acc_dirty _ _ _ _ _ _ []); [done|done|exact A2|exact In1|set_solver|].
    intros c3 A3. apply HQ; [apply A3|done|]. apply A3.
  - unfold fat32_write. start_access Hv Hs Hg.
    eapply wp_with_sector; [done..|]. intros c1 w1 ofs1 k1 Hp1.
    destruct (rb_view _ _ _ _ _ _ _ _ _ Hp1) as [Hsz1 _].
    pose proof (acc_readbuf _ _ _ _ _ _ _ _ _ Hgo Hp1 Hsec) as A1.
    destruct Hspan as [Hspan|[? _]]; [|done]. simpl in Hspan.
    set (img := image g (view g c w)) in *.
    assert ((k1, ofs1, sector) ∈ [(k1, ofs1, sector)]) as In1 by set_solver.
    assert (∀ l img', (∀ i, 0 ≤ i < 4 → byte_at l i = img' (sector * v_bytes_per_sector g + offset + i)) →
      le32_at l 0 = img32 img' (entry_addr g k n)) as Hle.
    { intros l img' Hl. rewrite le32_at_eq, !Hl, Ha, Z.add_0_r by lia. unfold img32, img16.
      by rewrite <- !Z.add_assoc. }
    apply wp_bind. eapply wp_acc_read; [done|done|exact A1|exact In1|lia..|]. intros l Hl.
    rewrite (Hle _ _ Hl).
    apply wp_bind. eapply wp_acc_write; [done|done|exact A1|exact In1|lia|simpl; lia|].
    intros c2 A2. rewrite Ha in A2.
    apply wp_bind. eapply wp_acc_read; [done|done|exact A2|exact In1|lia..|]. intros l2 Hl2.
    rewrite (Hle _ _ Hl2). set (hi := Z.land (img32 img (entry_addr g k n)) 0xF0000000).
    assert (0 ≤ hi < 4294967296) as Hhi.
    { unfold hi. rewrite land_high_nibble. lia. }
    rewrite img32_put by done.
    apply wp_bind. eapply wp_acc_write; [done|done|exact A2|exact In1|lia|simpl; lia|].
    intros c3 A3. rewrite Ha in A3.
    eapply (wp_acc_dirty _ _ _ _ _ _ []); [done|done|exact A3|exact In1|set_solver|].
    intros c4 A4. apply HQ; [apply A4|done|].
    intros y Hy. rewrite (ac_img _ _ _ _ _ _ A4 y Hy). unfold entry_put.
    fold img hi. change (if value =? FAT_EOC then FAT32_EOC else value) with (stored_value FAT32 value).
    by rewrite put_same.
Qed.
End table.

(** * The abstract table after a write *)

(** What the driver stores in an entry: free, a cluster, or the end of a chain. *)
Definition legal (g : Geometry) (value : Z) : Prop :=
  value = 0 ∨ 2 ≤ value ≤ v_data_clusters g + 1 ∨ value = FAT_EOC.

Section abstract.
Context (g : Geometry) (size : Z) (Hg : 0 < v_bytes_per_sector g) (Hf : fat_ok g size).
Implicit Types (img : Z → Z).
Local Notation t := (v_fat_type g).

Lemma parity n : n mod 2 = if has n 1 then 1 else 0.
Proof. rewrite has_1. apply Zmod_odd. Qed.

Lemma land_nibble x : Z.land x 0xF0 = (x / 16) mod 16 * 16.
Proof.
  change 0xF0 with (Z.shiftl (Z.ones 4) 4). change 16 with (2 ^ 4).
  rewrite <- Z.land_ones, <- shiftr_div, <- shiftl_mul by done.
  apply Z.bits_inj'. intros i Hi. rewrite Z.land_spec.
  destruct (decide (i < 4)).
  - rewrite !Z.shiftl_spec_low by done. by rewrite andb_false_r.
  - rewrite !Z.shiftl_spec by done. rewrite Z.land_spec, Z.shiftr_spec by lia.
    by replace (i - 4 + 4) with i by lia.
Qed.

Lemma lor_nibbles h l : 0 ≤ l < 16 → Z.lor (h * 16) l = h * 16 + l.
Proof. intros. pose proof (lor_shiftl_add h l 4) as E. rewrite shiftl_mul in E by done. by apply E. Qed.

Lemma legal_stored value : legal g value → 0 ≤ stored_value t value < 2 ^ 28 ∧
  (t = FAT12 → stored_value t value < 4096) ∧ (t = FAT16 → stored_value t value < 65536) ∧
  entry_value t (stored_value t value) = value.
Proof.
  intros Hl. pose proof (fo_clusters _ _ Hf) as Hc. pose proof (fo_type _ _ Hf) as Hc12.
  pose proof (fo_type16 _ _ Hf) as Hc16. unfold stored_value, entry_value, legal in *.
  destruct (Z.eqb_spec value FAT_EOC) as [->|]; [by destruct t|].
  destruct t; [specialize (Hc12 eq_refl)|specialize (Hc16 eq_refl)|];
    rewrite (proj2 (Z.leb_gt _ _)) by (simpl; lia); split_and!; intros; try done; lia.
Qed.

(** The two bytes of a 12-bit entry. *)
Definition lo12 (odd : bool) (old v : Z) : Z := if odd then v mod 16 * 16 + old mod 16 else v mod 256.
Definition hi12 (odd : bool) (old v : Z) : Z :=
  if odd then v / 16 else (old / 16) mod 16 * 16 + v / 256.

Lemma entry_put12 img a n value x :
  0 ≤ stored_value FAT12 value < 4096 →
  entry_put FAT12 img a n value x =
    put (put img a [lo12 (has n 1) (img a) (stored_value FAT12 value)])
      (a + 1) [hi12 (has n 1) (img (a + 1)) (stored_value FAT12 value)] x.
Proof.
  intros Hv. unfold entry_put. set (v := stored_value FAT12 value) in *. unfold lo12, hi12.
  destruct (has n 1).
  - rewrite shiftl_mul by done. change (2 ^ 4) with 16. rewrite u32_small by lia.
    rewrite shiftr_div by done. change (2 ^ 8) with 256.
    replace (u8 (v * 16)) with (v mod 16 * 16) by (unfold u8; lia).
    replace (u8 (v * 16 / 256)) with (v / 16) by (unfold u8; lia).
    change 15 with (2 ^ 4 - 1). rewrite land_pow2_mod by done. change (2 ^ 4) with 16.
    rewrite Z.lor_comm, lor_nibbles, Z.lor_0_l by lia. done.
  - change 0xFFF with (2 ^ 12 - 1). rewrite land_pow2_mod by done.
    rewrite (Z.mod_small v) by lia. rewrite shiftr_div by done. change (2 ^ 8) with 256.
    replace (u8 (v / 256)) with (v / 256) by (unfold u8; lia).
    rewrite land_nibble, lor_nibbles, Z.lor_0_l by lia. done.
Qed.

Lemma entry_put_same img k n value :
  legal g value → fat_entry g (entry_put t img (entry_addr g k n) n value) k n = value.
Proof.
  intros Hl. destruct (legal_stored _ Hl) as (Hr & H12 & H16 & He). unfold fat_entry.
  rewrite <- He at 2. f_equal. set (a := entry_addr g k n). set (v := stored_value t value) in *.
  unfold entry_bits. destruct t eqn:Ht; unfold v in *.
  - unfold img16. rewrite !entry_put12 by lia. rewrite put_out, !put_in by (simpl; lia).
    rewrite !Z.sub_diag, !byte_at_one. unfold lo12, hi12. destruct (has n 1); lia.
  - unfold entry_put. rewrite u16_small, img16_put by lia. done.
  - unfold entry_put. rewrite land_high_nibble. change 0xFFFFFFF with (2 ^ 28 - 1).
    rewrite land_pow2_mod, (Z.mod_small (stored_value _ _)) by lia.
    rewrite <- shiftl_mul, lor_shiftl_add by lia. rewrite img32_put by lia. lia.
Qed.

Lemma entry_put_out img a n value x :
  x < a ∨ a + entry_size t ≤ x → entry_put t img a n value x = img x.
Proof.
  intros Hx. unfold entry_put. destruct t; simpl in Hx; rewrite ?put_out by (simpl; lia); done.
Qed.

Lemma entry_put_bytes img a n value :
  bytes_ok img → 0 ≤ a → legal g value → bytes_ok (entry_put t img a n value).
Proof.
  intros Hb Ha Hl. destruct (legal_stored _ Hl) as (Hr & H12 & H16 & He).
  destruct t eqn:Ht.
  - intros x Hx. rewrite entry_put12 by lia. revert x Hx.
    apply put_bytes; [apply put_bytes; [done|]|];
      repeat constructor; unfold lo12, hi12; destruct (has n 1); lia.
  - apply put_bytes; [done|apply le16_bytes].
  - apply put_bytes; [done|apply le32_bytes].
Qed.

Lemma entry_bits_agree img img' a m :
  (∀ x, a ≤ x < a + entry_size t → img x = img' x) → entry_bits t img a m = entry_bits t img' a m.
Proof.
  intros H. unfold entry_bits, img32, img16. destruct t; simpl in H; rewrite !H by lia; done.
Qed.

(** Entries of one copy overlap only when two 12-bit ones share a byte. *)
Lemma entry_ofs_apart n m :
  0 ≤ n → 0 ≤ m → n ≠ m →
  entry_ofs t m + entry_size t ≤ entry_ofs t n ∨ entry_ofs t n + entry_size t ≤ entry_ofs t m
  ∨ t = FAT12 ∧ m = n + 1 ∧ has n 1 = false ∧ entry_ofs t m = entry_ofs t n + 1
  ∨ t = FAT12 ∧ n = m + 1 ∧ has m 1 = false ∧ entry_ofs t n = entry_ofs t m + 1.
Proof.
  intros Hn Hm Hne. unfold entry_ofs. pose proof (parity n) as Pn. pose proof (parity m) as Pm.
  destruct t; simpl; try lia.
  destruct (decide (m = n + 1)) as [->|]; [|destruct (decide (n = m + 1)) as [->|]; [|lia]].
  - destruct (has n 1); [lia|]. right; right; left. split_and!; [done..|lia].
  - destruct (has m 1); [lia|]. right; right; right. split_and!; [done..|lia].
Qed.

Lemma has_succ n : has (n + 1) 1 = negb (has n 1).
Proof. rewrite !has_1, Z.add_1_r, Z.odd_succ, <- Z.negb_odd. done. Qed.

Lemma entry_put_other img k n m value :
  bytes_ok img → 0 ≤ k → legal g value → in_table g n → in_table g m → n ≠ m →
  0 ≤ fat_addr g k →
  fat_entry g (entry_put t img (entry_addr g k n) n value) k m = fat_entry g img k m.
Proof.
  intros Hb Hk Hl Hn Hm Hne Hpos. unfold in_table in *.
  destruct (legal_stored _ Hl) as (Hr & H12 & _).
  unfold fat_entry. f_equal. unfold entry_addr at 2 3.
  pose proof (entry_ofs_mono g n n ltac:(lia)).
  destruct (entry_ofs_apart n m) as [Hd|[Hd|[(Ht & -> & Hp & Ho)|(Ht & -> & Hp & Ho)]]]; try lia.
  1, 2: apply entry_bits_agree; intros x Hx; apply entry_put_out; unfold entry_addr; lia.
  - rewrite Ht in *. rewrite Ho. unfold entry_bits. rewrite has_succ, Hp. simpl negb. cbv iota.
    unfold img16, entry_addr. rewrite Ht in *. rewrite !entry_put12 by lia. rewrite Hp.
    set (a := fat_addr g k + entry_ofs FAT12 n) in *.
    replace (fat_addr g k + (entry_ofs FAT12 n + 1)) with (a + 1) by lia.
    rewrite (put_in _ (a + 1) _ (a + 1)) by (simpl; lia).
    rewrite (put_out _ (a + 1) _ (a + 1 + 1)), (put_out _ a _ (a + 1 + 1)) by (simpl; lia).
    rewrite Z.sub_diag, byte_at_one. unfold hi12.
    pose proof (Hb (a + 1) ltac:(lia)). unfold is_byte in *. lia.
  - rewrite Ht in *. unfold entry_bits. rewrite Hp. simpl negb. cbv iota.
    unfold img16, entry_addr. rewrite Ht in *. rewrite !entry_put12 by lia. rewrite has_succ, Hp.
    rewrite Ho. set (b := fat_addr g k + entry_ofs FAT12 m) in *.
    replace (fat_addr g k + (entry_ofs FAT12 m + 1)) with (b + 1) by lia.
    rewrite (put_out _ _ _ b), (put_out _ _ _ b) by (simpl; lia).
    rewrite (put_out _ _ _ (b + 1)), put_in by (simpl; lia).
    rewrite Z.sub_diag, byte_at_one. unfold lo12. simpl. lia.
Qed.

Lemma entry_in_copy k n :
  0 ≤ k → in_table g n →
  fat_addr g k ≤ entry_addr g k n ∧ entry_addr g k n + entry_size t ≤ fat_addr g (k + 1).
Proof.
  intros Hk Hn. unfold entry_addr, fat_addr, in_table in *. pose proof (fo_fit _ _ Hf).
  pose proof (entry_ofs_mono g n (v_data_clusters g + 1) ltac:(lia)). nia.
Qed.

Lemma fat_addr_mono k k' : 0 ≤ k ≤ k' → fat_addr g k ≤ fat_addr g k'.
Proof.
  intros Hk. unfold fat_addr. pose proof (fo_fit _ _ Hf). pose proof (fo_clusters _ _ Hf).
  pose proof (entry_ofs_mono g 0 (v_data_clusters g + 1) ltac:(lia)).
  assert (0 < entry_size t) by by destruct t. assert (0 ≤ v_fat_size g) by nia. nia.
Qed.

Lemma entry_put_other_copy img k k' n m value :
  0 ≤ k → 0 ≤ k' → k ≠ k' → in_table g n → in_table g m →
  fat_entry g (entry_put t img (entry_addr g k n) n value) k' m = fat_entry g img k' m.
Proof.
  intros Hk Hk' Hne Hn Hm. unfold fat_entry. f_equal. apply entry_bits_agree.
  intros x Hx. apply entry_put_out.
  pose proof (entry_in_copy k n Hk Hn). pose proof (entry_in_copy k' m Hk' Hm).
  destruct (decide (k < k')).
  - pose proof (fat_addr_mono (k + 1) k'). lia.
  - pose proof (fat_addr_mono (k' + 1) k). lia.
Qed.

(** Copies [k0] and on have the new value, everything else is as before. *)
Record table_after (k0 : Z) img img' (n value : Z) : Prop := {
  ta_bytes : bytes_ok img';
  ta_entry k m : 0 ≤ k < v_num_fats g → in_table g m →
    fat_entry g img' k m = if (k0 <=? k) && (m =? n) then value else fat_entry g img k m;
  ta_out x : 0 ≤ x → x < fat_addr g 0 ∨ fat_addr g (v_num_fats g) ≤ x → img' x = img x }.

Lemma table_after_nil img n value :
  bytes_ok img → table_after (v_num_fats g) img img n value.
Proof.
  intros Hb. split; [done| |done]. intros k m Hk _.
  by rewrite (proj2 (Z.leb_gt _ _)) by lia.
Qed.

Lemma table_after_put img k n value :
  bytes_ok img → 0 ≤ k < v_num_fats g → in_table g n → legal g value → 0 ≤ fat_addr g 0 →
  let img1 := entry_put t img (entry_addr g k n) n value in
  bytes_ok img1 ∧
  ∀ img2, table_after (k + 1) img1 img2 n value → table_after k img img2 n value.
Proof.
  intros Hb Hk Hn Hl Hp. cbv zeta.
  pose proof (entry_in_copy k n ltac:(lia) Hn) as Hin.
  pose proof (fat_addr_mono 0 k ltac:(lia)). pose proof (fat_addr_mono (k + 1) (v_num_fats g) ltac:(lia)).
  assert (0 ≤ fat_addr g k) by lia.
  split; [apply entry_put_bytes; [done|lia|done]|].
  intros img2 H2. split; [apply H2| |].
  - intros k' m Hk' Hm. rewrite (ta_entry _ _ _ _ _ H2) by done.
    destruct (Z.leb_spec (k + 1) k'), (Z.leb_spec k k'), (Z.eqb_spec m n) as [->|]; simpl; try done; try lia.
    + apply entry_put_other_copy; (lia || done).
    + replace k' with k by lia. by apply entry_put_same.
    + replace k' with k by lia. apply entry_put_other; (lia || done).
    + apply entry_put_other_copy; (lia || done).
    + apply entry_put_other_copy; (lia || done).
  - intros x Hx Hx'. rewrite (ta_out _ _ _ _ _ H2) by done. apply entry_put_out. lia.
Qed.

Lemma fat_entry_congr img img' k n :
  0 ≤ fat_addr g 0 → img_eq img img' → 0 ≤ k → in_table g n → fat_entry g img k n = fat_entry g img' k n.
Proof.
  intros Hp He Hk Hn. unfold fat_entry. f_equal. apply entry_bits_agree. intros x Hx. apply He.
  pose proof (entry_in_copy k n Hk Hn). pose proof (fat_addr_mono 0 k ltac:(lia)). lia.
Qed.

Lemma table_after_congr k0 img img1 img' img1' n value :
  0 ≤ fat_addr g 0 → img_eq img img1 → img_eq img' img1' →
  table_after k0 img img' n value → table_after k0 img1 img1' n value.
Proof.
  intros Hp E E' H. split.
  - intros x Hx. rewrite <- E' by done. by apply H.
  - intros k m Hk Hm. rewrite <- (fat_entry_congr img') by (done || lia).
    rewrite (ta_entry _ _ _ _ _ H) by done. destruct (_ && _); [done|].
    apply fat_entry_congr; (done || lia).
  - intros x Hx Ho. rewrite <- E', <- E by done. by apply H.
Qed.
End abstract.

Section table_write.
Context {W : Type} `{FW : FatWorld W} `{FD : !FixedDisk W} `{FL : Fuel}.
Implicit Types (g : Geometry) (c : Cache) (w : W) (v : Volume) (s : fs W).

Lemma wp_write_fats s v g n value count k c w (Q : Z → fs W → Prop) :
  fs_vol s = Some v → v_geo v = g → cinv g [] c w → fat_ok g (disk_size w) →
  0 ≤ k → k + Z.of_nat count = v_num_fats g → in_table g n → legal g value →
  bytes_ok (image g (view g c w)) →
  (∀ c' w', cinv g [] c' w' → disk_size w' = disk_size w →
     table_after g k (image g (view g c w)) (image g (view g c' w')) n value →
     Q 0 (setc s c' w')) →
  wp (write_fats k count n value) Q (setc s c w).
Proof.
  intros Hv Hg. revert k c w. induction count as [|count IH]; intros k c w I Hf Hk Hc Hn Hl Hb HQ;
    cbn [write_fats].
  - apply wp_ret, HQ; [done..|]. replace k with (v_num_fats g) by lia. by apply table_after_nil.
  - pose proof (ci_geo _ _ _ _ I) as Hgo. pose proof (bps_pos _ Hgo) as Hp.
    pose proof (fat_addr_pos _ _ 0 Hgo Hf ltac:(lia)) as H0.
    apply wp_bind. eapply wp_fat_write_fn; [done|done|done|done|lia|done|].
    intros c1 w1 I1 Hsz1 E1. cbn [Z.ltb Z.compare].
    destruct (table_after_put g (disk_size w) Hp Hf (image g (view g c w)) k n value)
      as [Hb1 Hstep]; [done|lia|done..|].
    apply IH; [done|by rewrite Hsz1|lia|lia|done|done| |].
    { intros x Hx. rewrite E1 by done. by apply Hb1. }
    intros c2 w2 I2 Hsz2 T2. apply HQ; [done|congruence|]. apply Hstep.
    eapply (table_after_congr g (disk_size w) Hp Hf); [done| | |exact T2]; done.
Qed.

Lemma wp_write_fat_entry s v g n value c w (Q : Z → fs W → Prop) :
  fs_vol s = Some v → v_geo v = g → cinv g [] c w → fat_ok g (disk_size w) →
  in_table g n → legal g value → bytes_ok (image g (view g c w)) →
  (∀ c' w', cinv g [] c' w' → disk_size w' = disk_size w →
     table_after g 0 (image g (view g c w)) (image g (view g c' w')) n value →
     Q 0 (setc s c' w')) →
  wp (write_fat_entry n value) Q (setc s c w).
Proof.
  intros Hv Hg I Hf Hn Hl Hb HQ. unfold write_fat_entry. apply wp_bind. eapply wp_geo_c; [done|].
  rewrite Hg. pose proof (fo_active _ _ Hf). eapply wp_write_fats; try done. lia.
Qed.
End table_write.
