(* ===== verification/FatChain.v ===== *)
(** Correctness of cluster chains ([FatAlloc]): following a chain, looking for
    a free cluster, extending a chain and deleting one, against the table of
    [FatTable]. A file system state is described by its table and its sectors;
    what an operation leaves alone is stated by [frame]. *)
From S2P Require Import Prelude Errno Lists Nls Slab FatTypes FatDisk FatBuffer FatAlloc FatCache FatTable.

(** * Chains of a table *)

(** A cluster that may belong to a file. *)
Definition cluster (g : Geometry) (n : Z) : Prop := 2 ≤ n ≤ v_data_clusters g + 1.

(** The clusters of a file from [n] on, in order. *)
Inductive chain (g : Geometry) (T : Z → Z) : Z → list Z → Prop :=
| chain_last n : cluster g n → T n = FAT_EOC → chain g T n [n]
| chain_next n m l : cluster g n → T n = m → chain g T m l → chain g T n (n :: l).

Section chain.
Context (g : Geometry) (T : Z → Z).

Lemma chain_head n l : chain g T n l → head l = Some n.
Proof. by destruct 1. Qed.
Lemma chain_cluster n l : chain g T n l → Forall (cluster g) l.
Proof. induction 1; auto. Qed.
Lemma chain_first n l : chain g T n l → cluster g n.
Proof. by destruct 1. Qed.
Lemma chain_ext T' n l : (∀ x, x ∈ l → T x = T' x) → chain g T n l → chain g T' n l.
Proof.
  intros He H. induction H as [n Hn HT|n m l Hn HT Hc IH].
  - apply chain_last; [done|]. rewrite <- He; [done|set_solver].
  - eapply chain_next; [done| |apply IH; set_solver]. rewrite <- He; [done|set_solver].
Qed.

(** A cluster starts at most one chain, and a chain has no cycle. *)
Lemma chain_unique n l l' : (∀ x, cluster g x → x ≠ FAT_EOC) → chain g T n l → chain g T n l' → l = l'.
Proof.
  intros Hne H. revert l'. induction H as [n Hn HT|n m l Hn HT Hc IH]; intros l' H'; inversion H'; subst.
  - done.
  - exfalso. eapply Hne; [|exact HT]. by eapply chain_first.
  - exfalso. eapply Hne; [|done]. by eapply chain_first.
  - f_equal. by apply IH.
Qed.

Lemma chain_suffix n l k m : chain g T n l → l !! k = Some m → chain g T m (drop k l).
Proof.
  intros H. revert k m. induction H as [n Hn HT|n m l Hn HT Hc IH]; intros [|k] x Hk; simplify_eq/=.
  - by apply chain_last.
  - by eapply chain_next.
  - by apply IH.
Qed.

Lemma chain_link n l k a b : chain g T n l → l !! k = Some a → l !! S k = Some b → T a = b.
Proof.
  intros H. revert k. induction H as [n Hn HT|n m l Hn HT Hc IH]; intros [|k] Ha Hb; simplify_eq/=.
  - apply chain_head in Hc. rewrite head_lookup in Hc. congruence.
  - by eapply IH.
Qed.

Lemma chain_end n l a : chain g T n l → last l = Some a → T a = FAT_EOC.
Proof.
  induction 1 as [n Hn HT|n m l Hn HT Hc IH]; simpl; [congruence|].
  intros Hl. apply IH. destruct l; [by inversion Hc|done].
Qed.

Lemma chain_NoDup n l : (∀ x, cluster g x → x ≠ FAT_EOC) → chain g T n l → NoDup l.
Proof.
  intros Hne H. assert (∀ k m a b, l !! k = Some a → l !! m = Some b → (k < m)%nat → a ≠ b) as Hd.
  { intros k m a b Hk Hm Hlt ->. pose proof (chain_suffix _ _ _ _ H Hk) as H1.
    pose proof (chain_suffix _ _ _ _ H Hm) as H2.
    pose proof (chain_unique _ _ _ Hne H1 H2) as E. apply (f_equal length) in E.
    rewrite !length_drop in E. apply lookup_lt_Some in Hm. lia. }
  apply NoDup_alt. intros i j x Hi Hj. destruct (Nat.lt_total i j) as [Hl|[?|Hl]]; [|done|].
  - by destruct (Hd i j x x).
  - by destruct (Hd j i x x).
Qed.
End chain.

(** * States *)

Section states.
Context {W : Type} `{FW : FatWorld W} `{FD : !FixedDisk W}.
Implicit Types (s : fs W) (v : Volume) (g : Geometry).

(** The bytes of the volume, the entry of a cluster in a copy of the table and
    in the active one. *)
Definition volume_bytes s (a : Z) : Z :=
  match fs_vol s with Some v => image (v_geo v) (sectors s) a | None => 0 end.
Definition entry s (k n : Z) : Z :=
  match fs_vol s with Some v => fat_entry (v_geo v) (volume_bytes s) k n | None => 0 end.
Definition table s (n : Z) : Z :=
  match fs_vol s with Some v => entry s (v_active_fat (v_geo v)) n | None => 0 end.

(** The data area: it follows the tables and fits the disk of [size] sectors. *)
Record data_ok (g : Geometry) (size : Z) : Prop := {
  do_log : 0 ≤ v_log_sectors_per_cluster g < 8;
  do_spc : v_sectors_per_cluster g = 2 ^ v_log_sectors_per_cluster g;
  do_start : v_fat_start g + v_num_fats g * v_fat_size g ≤ v_data_start g;
  do_fit : v_data_start g + v_data_clusters g * v_sectors_per_cluster g ≤ size }.

(** A volume is mounted, its buffers are in order and its tables fit the disk. *)
Record mounted s v : Prop := {
  mt_cache : cache_ok s v;
  mt_fat : fat_ok (v_geo v) (disk_size (fs_world s));
  mt_data : data_ok (v_geo v) (disk_size (fs_world s));
  mt_bytes : bytes_ok (volume_bytes s) }.

(** What the operations of this file may change: the buffers, the world, the
    count and the hint of free clusters, the open files and the channels. *)
Record frame v (files : gmap Z File) (chs : gmap Z Channel) s v' s' : Prop := {
  fr_mounted : mounted s' v';
  fr_vol : v' = v <| v_cache := v_cache v' |> <| v_free_clusters := v_free_clusters v' |>
                  <| v_next_free := v_next_free v' |> <| v_fsinfo_changed := v_fsinfo_changed v' |>;
  fr_mem : s' = s <| fs_world := fs_world s' |> <| fs_vol := Some v' |>
                  <| fs_files := files |> <| fs_channels := chs |>;
  fr_size : disk_size (fs_world s') = disk_size (fs_world s) }.

(** The entries in [U] have their new values in every copy of the table; all
    other entries and everything outside the tables is as before. *)
Record rewritten (U : gmap Z Z) g s s' : Prop := {
  rw_entry k m : 0 ≤ k < v_num_fats g → in_table g m → entry s' k m = default (entry s k m) (U !! m);
  rw_out x : 0 ≤ x → x < fat_addr g 0 ∨ fat_addr g (v_num_fats g) ≤ x →
    volume_bytes s' x = volume_bytes s x;
  rw_none x : U = ∅ → 0 ≤ x → volume_bytes s' x = volume_bytes s x }.

Lemma mounted_vol s v : mounted s v → fs_vol s = Some v.
Proof. intros H. apply H. Qed.
Lemma mounted_geo s v : mounted s v → geo_ok (v_geo v).
Proof. intros H. eapply ci_geo, H. Qed.

Lemma frame_refl s v : mounted s v → frame v (fs_files s) (fs_channels s) s v s.
Proof.
  intros H. split; [done|by destruct v| |done]. pose proof (mounted_vol _ _ H) as Hv.
  destruct s. simpl in *. by subst.
Qed.

Lemma frame_trans v f1 h1 s v1 s1 f2 h2 v2 s2 :
  frame v f1 h1 s v1 s1 → frame v1 f2 h2 s1 v2 s2 → frame v f2 h2 s v2 s2.
Proof.
  intros [M1 V1 S1 Z1] [M2 V2 S2 Z2]. split; [done| | |congruence].
  - rewrite V2, V1. done.
  - rewrite S2, S1. done.
Qed.

Lemma frame_geo v f h s v' s' : frame v f h s v' s' → v_geo v' = v_geo v.
Proof. intros H. by rewrite (fr_vol _ _ _ _ _ _ H). Qed.
Lemma frame_files v f h s v' s' : frame v f h s v' s' → fs_files s' = f.
Proof. intros H. by rewrite (fr_mem _ _ _ _ _ _ H). Qed.
Lemma frame_channels v f h s v' s' : frame v f h s v' s' → fs_channels s' = h.
Proof. intros H. by rewrite (fr_mem _ _ _ _ _ _ H). Qed.

(** A change of the memory that leaves the buffers alone. *)
Lemma frame_mem v s v' s' :
  mounted s v → fs_vol s' = Some v' → v_geo v' = v_geo v → v_cache v' = v_cache v →
  fs_world s' = fs_world s →
  mounted s' v' ∧ (∀ x, volume_bytes s' x = volume_bytes s x) ∧
  (∀ k n, entry s' k n = entry s k n) ∧ ∀ n, table s' n = table s n.
Proof.
  intros [[Hv I] Hf Hd Hb] Hv' Hg Hc Hw.
  assert (∀ x, volume_bytes s' x = volume_bytes s x) as Hx.
  { intros x. unfold volume_bytes, sectors. by rewrite Hv, Hv', Hg, Hc, Hw. }
  assert (∀ k n, entry s' k n = entry s k n) as He.
  { intros k n. unfold entry. rewrite Hv, Hv', Hg. unfold volume_bytes, sectors.
    by rewrite Hv, Hv', Hg, Hc, Hw. }
  split_and!; [|done|done|].
  - split; [split; [done|by rewrite Hg, Hc, Hw]|by rewrite Hg, Hw|by rewrite Hg, Hw|].
    intros x Hpos. rewrite Hx. by apply Hb.
  - intros n. unfold table. by rewrite Hv, Hv', Hg, He.
Qed.

Lemma rewritten_same g s s' :
  (∀ k n, entry s' k n = entry s k n) → (∀ x, volume_bytes s' x = volume_bytes s x) →
  rewritten ∅ g s s'.
Proof. intros He Hx. by split; intros. Qed.

Lemma rewritten_trans U1 U2 g s s1 s2 :
  rewritten U1 g s s1 → rewritten U2 g s1 s2 → rewritten (U2 ∪ U1) g s s2.
Proof.
  intros [E1 O1 N1] [E2 O2 N2]. split.
  - intros k m Hk Hm. rewrite E2, E1, lookup_union by done.
    destruct (U2 !! m), (U1 !! m); done.
  - intros x Hx Ho. by rewrite O2, O1.
  - intros x He Hx. pose proof (map_positive_l _ _ He) as ->. rewrite (left_id_L ∅ (∪)) in He.
    by rewrite N2, N1.
Qed.

Lemma step_trans U1 U2 v f1 h1 s v1 s1 f2 h2 v2 s2 :
  frame v f1 h1 s v1 s1 → rewritten U1 (v_geo v) s s1 →
  frame v1 f2 h2 s1 v2 s2 → rewritten U2 (v_geo v1) s1 s2 →
  frame v f2 h2 s v2 s2 ∧ rewritten (U2 ∪ U1) (v_geo v) s s2.
Proof.
  intros F1 R1 F2 R2. split; [by eapply frame_trans|]. rewrite (frame_geo _ _ _ _ _ _ F1) in R2.
  by eapply rewritten_trans.
Qed.

Lemma rewritten_table U s v s' v' n :
  mounted s v → fs_vol s' = Some v' → v_geo v' = v_geo v → rewritten U (v_geo v) s s' →
  in_table (v_geo v) n → table s' n = default (table s n) (U !! n).
Proof.
  intros M Hv' Hg R Hn. unfold table. rewrite Hv', Hg, (mounted_vol _ _ M).
  apply R; [apply (mt_fat _ _ M)|done].
Qed.
End states.

(** * One entry *)

Section entries.
Context {W : Type} `{FW : FatWorld W} `{FD : !FixedDisk W} `{FL : Fuel}.
Implicit Types (s : fs W) (v : Volume) (g : Geometry).

(** Only the buffers changed. *)
Definition quiet v v' : Prop := v' = v <| v_cache := v_cache v' |>.

Lemma setc_frame s v c w :
  mounted s v → cinv (v_geo v) [] c w → disk_size w = disk_size (fs_world s) →
  bytes_ok (image (v_geo v) (view (v_geo v) c w)) →
  let v' := v <| v_cache := c |> in
  frame v (fs_files s) (fs_channels s) s v' (setc s c w) ∧ quiet v v' ∧
  (∀ x, 0 ≤ x → volume_bytes (setc s c w) x = image (v_geo v) (view (v_geo v) c w) x) ∧
  fs_vol (setc s c w) = Some v'.
Proof.
  intros M I Hsz Hb. pose proof (mounted_vol _ _ M) as Hv. cbv zeta.
  assert (fs_vol (setc s c w) = Some (v <| v_cache := c |>)) as Hv'.
  { unfold setc. simpl. by rewrite Hv. }
  assert (∀ x, volume_bytes (setc s c w) x = image (v_geo v) (view (v_geo v) c w) x) as Hx.
  { intros x. unfold volume_bytes. rewrite Hv'. unfold image. by rewrite (sectors_setc _ _ _ _ _ Hv). }
  split_and!; try done. split.
  - split; [by apply cache_ok_setc|by simpl; rewrite Hsz; apply M|by simpl; rewrite Hsz; apply M|].
    intros x Hp. rewrite Hx. by apply Hb.
  - by destruct v.
  - unfold setc. destruct s; simpl in *. by subst.
  - done.
Qed.

Lemma volume_bytes_view s v x :
  fs_vol s = Some v → volume_bytes s x = image (v_geo v) (view (v_geo v) (v_cache v) (fs_world s)) x.
Proof. intros Hv. unfold volume_bytes, sectors. by rewrite Hv. Qed.

Lemma wp_entry_read s v n (Q : Z → fs W → Prop) :
  mounted s v → in_table (v_geo v) n →
  (∀ v' s', frame v (fs_files s) (fs_channels s) s v' s' → quiet v v' →
     rewritten ∅ (v_geo v) s s' → Q (table s n) s') →
  wp (read_fat_entry n) Q s.
Proof.
  intros M Hn HQ. pose proof (mounted_vol _ _ M) as Hv. destruct (mt_cache _ _ M) as [_ I].
  assert (bytes_ok (image (v_geo v) (view (v_geo v) (v_cache v) (fs_world s)))) as Hb.
  { intros x Hx. rewrite <- volume_bytes_view by done. by apply M. }
  eapply wp_setc_id; [done|].
  eapply wp_read_fat_entry; [done|done|done|apply M|done|]. intros c' w' I' V'.
  pose proof (image_same _ _ _ _ _ (mounted_geo _ _ M) V') as Him.
  destruct (setc_frame s v c' w' M I') as (F & Q' & Hx & Hv').
  { apply V'. }
  { intros x Hx. rewrite Him by done. by apply Hb. }
  replace (fat_entry _ _ _ _) with (table s n).
  2: { unfold table, entry. rewrite Hv. unfold volume_bytes, sectors. by rewrite Hv. }
  eapply HQ; [done..|].
  assert (∀ x, 0 ≤ x → volume_bytes (setc s c' w') x = volume_bytes s x) as Hsame.
  { intros x Hp. rewrite Hx, Him by done. by rewrite (volume_bytes_view s v). }
  split; [|intros; by apply Hsame|intros; by apply Hsame]. intros k m Hk Hm. rewrite lookup_empty. simpl.
  unfold entry. rewrite Hv, Hv'. eapply fat_entry_ext; [by apply (mounted_geo s)|apply M|lia|done|done].
Qed.

Lemma wp_entry_write s v n value (Q : Z → fs W → Prop) :
  mounted s v → in_table (v_geo v) n → legal (v_geo v) value →
  (∀ v' s', frame v (fs_files s) (fs_channels s) s v' s' → quiet v v' →
     rewritten {[n := value]} (v_geo v) s s' → Q 0 s') →
  wp (write_fat_entry n value) Q s.
Proof.
  intros M Hn Hl HQ. pose proof (mounted_vol _ _ M) as Hv. destruct (mt_cache _ _ M) as [_ I].
  assert (bytes_ok (image (v_geo v) (view (v_geo v) (v_cache v) (fs_world s)))) as Hb.
  { intros x Hx. rewrite <- volume_bytes_view by done. by apply M. }
  pose proof (mounted_geo _ _ M) as Hgo. pose proof (fat_addr_pos _ _ 0 Hgo (mt_fat _ _ M) ltac:(lia)) as H0.
  eapply wp_setc_id; [done|].
  eapply wp_write_fat_entry; [done|done|done|apply M|done|done|done|]. intros c' w' I' Hsz T.
  destruct (setc_frame s v c' w' M I' Hsz) as (F & Q' & Hx & Hv').
  { apply T. }
  eapply HQ; [done..|]. split.
  - intros k m Hk Hm. unfold entry. rewrite Hv, Hv'. simpl.
    rewrite (fat_entry_ext _ (disk_size (fs_world s)) _ (image (v_geo v) (view (v_geo v) c' w')));
      [|done|apply M|lia|done|done].
    rewrite (ta_entry _ _ _ _ _ _ T) by done. rewrite (proj2 (Z.leb_le 0 k)) by lia. simpl.
    destruct (Z.eqb_spec m n) as [->|Hne].
    + by rewrite lookup_singleton_eq.
    + rewrite lookup_singleton_ne by done. simpl. unfold volume_bytes, sectors. by rewrite Hv.
  - intros x Hp Ho. rewrite Hx by done. rewrite (ta_out _ _ _ _ _ _ T) by done.
    by rewrite (volume_bytes_view s v).
  - intros x He. by apply map_non_empty_singleton in He.
Qed.
End entries.

(** * Accesses to the memory *)

Section mem.
Context {W : Type} `{FW : FatWorld W}.
Implicit Types (s : fs W) (v : Volume).

Lemma wp_getv s v (Q : Volume → fs W → Prop) : fs_vol s = Some v → Q v s → wp getv Q s.
Proof. intros Hv HQ. unfold getv. apply wp_bind, wp_gets. by eapply wp_deref. Qed.
Lemma wp_geo {A} (f : Geometry → A) s v (Q : A → fs W → Prop) :
  fs_vol s = Some v → Q (f (v_geo v)) s → wp (geo f) Q s.
Proof. intros Hv HQ. unfold geo. apply wp_bind. by eapply wp_getv. Qed.
Lemma wp_modv f s v (Q : () → fs W → Prop) :
  fs_vol s = Some v → Q () (s <| fs_vol := Some (f v) |>) → wp (modv f) Q s.
Proof. intros Hv HQ. unfold modv. apply wp_bind. by eapply wp_getv. Qed.
Lemma wp_getchannel c ch s (Q : Channel → fs W → Prop) :
  fs_channels s !! c = Some ch → Q ch s → wp (getchannel c) Q s.
Proof. intros Hc HQ. unfold getchannel. apply wp_bind, wp_gets. by eapply wp_deref. Qed.
Lemma wp_modchannel c ch f s (Q : () → fs W → Prop) :
  c ≠ 0 → fs_channels s !! c = Some ch → Q () (s <| fs_channels ::= <[c := f ch]> |>) →
  wp (modchannel c f) Q s.
Proof.
  intros Hn Hc HQ. unfold modchannel. apply wp_bind. eapply wp_getchannel; [done|].
  unfold putchannel, nz. rewrite (proj2 (Z.eqb_neq _ _)) by done. by apply wp_modify.
Qed.
Lemma wp_getfile f x s (Q : File → fs W → Prop) :
  fs_files s !! f = Some x → Q x s → wp (getfile f) Q s.
Proof. intros Hc HQ. unfold getfile. apply wp_bind, wp_gets. by eapply wp_deref. Qed.
Lemma wp_modfile f x h s (Q : () → fs W → Prop) :
  f ≠ 0 → fs_files s !! f = Some x → Q () (s <| fs_files ::= <[f := h x]> |>) →
  wp (modfile f h) Q s.
Proof.
  intros Hn Hc HQ. unfold modfile. apply wp_bind. eapply wp_getfile; [done|].
  unfold putfile, nz. rewrite (proj2 (Z.eqb_neq _ _)) by done. by apply wp_modify.
Qed.
End mem.

(** The position reached after [steps] links of a chain. *)
Definition reach (steps : nat) (l : list Z) : nat := Nat.min steps (length l - 1).

Section follow.
Context {W : Type} `{FW : FatWorld W} `{FD : !FixedDisk W} `{FL : Fuel}.
Implicit Types (s : fs W) (v : Volume) (g : Geometry).

Lemma table_rewritten s v s' v' files chs n :
  mounted s v → frame v files chs s v' s' → rewritten ∅ (v_geo v) s s' →
  in_table (v_geo v) n → table s' n = table s n.
Proof.
  intros M F R Hn. rewrite (rewritten_table ∅ s v s' v'); eauto using frame_geo.
  eapply mounted_vol, F.
Qed.

Lemma cluster_in_table g n : cluster g n → in_table g n.
Proof. unfold cluster, in_table. lia. Qed.

Lemma cluster_not_eoc s v n : mounted s v → cluster (v_geo v) n → n ≠ FAT_EOC.
Proof. intros M. pose proof (fo_clusters _ _ (mt_fat _ _ M)). unfold cluster, FAT_EOC. lia. Qed.

Lemma chain_rewritten s v s' v' files chs n l :
  mounted s v → frame v files chs s v' s' → rewritten ∅ (v_geo v) s s' →
  chain (v_geo v) (table s) n l → chain (v_geo v') (table s') n l.
Proof.
  intros M F R Hc. rewrite (frame_geo _ _ _ _ _ _ F). eapply chain_ext; [|done].
  intros x Hx. symmetry. eapply table_rewritten; [done..|]. apply cluster_in_table.
  apply chain_cluster in Hc. by eapply Forall_forall in Hc.
Qed.

(** Storing a channel. *)
Lemma frame_channel s v c ch :
  mounted s v →
  let s' := s <| fs_channels ::= <[c := ch]> |> in
  frame v (fs_files s) (<[c := ch]> (fs_channels s)) s v s' ∧ rewritten ∅ (v_geo v) s s'.
Proof.
  intros M. cbv zeta. pose proof (mounted_vol _ _ M) as Hv.
  destruct (frame_mem v s v (s <| fs_channels ::= <[c := ch]> |>) M) as (M' & Hx & He & Ht); try done.
  split; [|by apply rewritten_same]. split; [done|by destruct v| |done].
  destruct s. simpl in *. by subst.
Qed.

Lemma quiet_trans v v1 v2 : quiet v v1 → quiet v1 v2 → quiet v v2.
Proof. unfold quiet. intros H1 H2. rewrite H2, H1. done. Qed.

Lemma wp_follow_chain steps s v c ch l (Q : Z → fs W → Prop) :
  mounted s v → c ≠ 0 → fs_channels s !! c = Some ch →
  chain (v_geo v) (table s) (c_cluster ch) l →
  0 ≤ c_cluster_index ch → c_cluster_index ch + Z.of_nat steps < 2 ^ 32 →
  (∀ v' s', frame v (fs_files s)
       (<[c := ch <| c_cluster_index ::= λ i, i + Z.of_nat (reach steps l) |>
                  <| c_cluster := nth (reach steps l) l 0 |>]> (fs_channels s)) s v' s' →
     quiet v v' → rewritten ∅ (v_geo v) s s' →
     Q (if (steps <? length l)%nat then 0 else 1) s') →
  wp (follow_chain steps c) Q s.
Proof.
  intros M Hc0. revert s v ch l M. induction steps as [|steps IH]; intros s v ch l M Hch Hl Hi Hlt HQ; simpl.
  - apply wp_ret. pose proof (chain_head _ _ _ _ Hl) as Hh. destruct l as [|x l]; [done|].
    injection Hh as ->. apply (HQ v s); [|by destruct v|by apply rewritten_same].
    replace (<[c:=_]> (fs_channels s)) with (fs_channels s); [by apply frame_refl|].
    rewrite insert_id; [done|]. rewrite Hch. simpl. rewrite Z.add_0_r. by destruct ch.
  - apply wp_bind. eapply wp_getchannel; [done|].
    apply wp_bind. eapply wp_entry_read; [done|by eapply cluster_in_table, chain_first|].
    intros v1 s1 F1 Q1 R1. pose proof (fr_mounted _ _ _ _ _ _ F1) as M1.
    inversion Hl as [n Hn HT E1 E2|n m l' Hn HT Hl' E1 E2]; subst.
    + rewrite HT. simpl. unfold guard_ret. simpl. apply wp_ret.
      replace (steps <? 0)%nat with false by done.
      apply (HQ v1 s1); [|done..]. replace (reach (S steps) [c_cluster ch]) with 0%nat by (unfold reach; simpl; lia).
      simpl. rewrite Z.add_0_r, insert_id; [done|]. rewrite Hch. by destruct ch.
    + pose proof (chain_first _ _ _ _ Hl') as Hcl. pose proof Hcl as [Hm1 Hm2].
      pose proof (fo_clusters _ _ (mt_fat _ _ M)) as Hdc. unfold guard_ret.
      rewrite (proj2 (Z.ltb_ge _ _)) by lia.
      rewrite (proj2 (Z.eqb_neq _ _)) by exact (cluster_not_eoc _ _ _ M Hcl).
      apply wp_bind. eapply wp_geo; [by eapply mounted_vol|]. rewrite (frame_geo _ _ _ _ _ _ F1).
      rewrite u32_small by lia. rewrite (proj2 (Z.ltb_ge (table s (c_cluster ch)) 2)) by lia.
      rewrite (proj2 (Z.ltb_ge (v_data_clusters (v_geo v) + 1) _)) by lia. simpl.
      assert (fs_channels s1 !! c = Some ch) as Hch1 by by rewrite (frame_channels _ _ _ _ _ _ F1).
      apply wp_bind. eapply wp_modchannel; [done|exact Hch1|].
      apply wp_bind. eapply wp_modchannel; [done|apply lookup_insert_eq|].
      set (ch2 := ch <| c_cluster_index ::= λ i, u32 (i + 1) |> <| c_cluster := table s (c_cluster ch) |>).
      set (s2 := s1 <| fs_channels ::= <[c := ch2]> |>).
      match goal with |- wp _ _ ?x => replace x with s2
        by (unfold s2; destruct s1; simpl; by rewrite insert_insert_eq) end.
      destruct (frame_channel s1 v1 c ch2 M1) as [F2 R2]. fold s2 in F2, R2.
      pose proof (frame_trans _ _ _ _ _ _ _ _ _ _ F1 F2) as F12.
      rewrite (frame_geo _ _ _ _ _ _ F1) in R2.
      pose proof (rewritten_trans _ _ _ _ _ _ R1 R2) as R12.
      rewrite (left_id_L ∅ (∪)) in R12.
      eapply (IH s2 v1 ch2 l'); [apply F2|by rewrite (frame_channels _ _ _ _ _ _ F2), lookup_insert_eq| | | |].
      * eapply chain_rewritten; [exact M|exact F12|exact R12|exact Hl'].
      * unfold ch2. simpl. apply u32_range.
      * unfold ch2. simpl. rewrite u32_small by lia. lia.
      * intros v3 s3 F3 Q3 R3.
        assert (reach (S steps) (c_cluster ch :: l') = S (reach steps l')) as Hre.
        { pose proof (chain_head _ _ _ _ Hl'). destruct l'; [done|]. unfold reach. simpl. lia. }
        pose proof (frame_trans _ _ _ _ _ _ _ _ _ _ F12 F3) as F13.
        rewrite (frame_geo _ _ _ _ _ _ F1) in R3.
        pose proof (rewritten_trans _ _ _ _ _ _ R12 R3) as R13. rewrite (left_id_L ∅ (∪)) in R13.
        apply (HQ v3 s3); [|by eapply quiet_trans|done].
        rewrite (frame_files _ _ _ _ _ _ F2), (frame_files _ _ _ _ _ _ F1),
          (frame_channels _ _ _ _ _ _ F2), (frame_channels _ _ _ _ _ _ F1), insert_insert_eq in F13.
        rewrite Hre. replace (_ <| c_cluster_index ::= _ |> <| c_cluster := _ |>) with
          (ch2 <| c_cluster_index ::= λ i, i + Z.of_nat (reach steps l') |>
               <| c_cluster := nth (reach steps l') l' 0 |>); [exact F13|].
        unfold ch2. destruct ch; simpl in *. rewrite u32_small by lia. f_equal; lia.
Qed.

(** * The sectors of a file *)

(** The cached position of a channel, if any, is a cluster of the file. *)
Definition position_ok (l : list Z) (ch : Channel) : Prop :=
  c_cluster_index ch = 0 ∨
  0 ≤ c_cluster_index ch ∧ l !! Z.to_nat (c_cluster_index ch) = Some (c_cluster ch).

(** A channel at the cluster of index [k] of the file, or at its last one. *)
Definition at_cluster (l : list Z) (k : nat) (ch : Channel) : Channel :=
  ch <| c_cluster_index := Z.of_nat (reach k l) |> <| c_cluster := nth (reach k l) l 0 |>.

(** Sector [i] of cluster [n]. *)
Definition cluster_sector g (n i : Z) : Z :=
  v_data_start g + (n - 2) * v_sectors_per_cluster g + i.

Lemma cluster_sector_range g size n i :
  fat_ok g size → data_ok g size → cluster g n → 0 ≤ i < v_sectors_per_cluster g →
  v_fat_start g + v_num_fats g * v_fat_size g ≤ cluster_sector g n i < size.
Proof.
  intros Hf Hd Hc Hi. unfold cluster_sector, cluster in *.
  pose proof (do_start _ _ Hd). pose proof (do_fit _ _ Hd). nia.
Qed.

Lemma spc_pos g size : data_ok g size → 0 < v_sectors_per_cluster g.
Proof. intros H. rewrite (do_spc _ _ H). pose proof (do_log _ _ H). apply Z.pow_pos_nonneg; lia. Qed.

Lemma fat_size_pos g size : geo_ok g → fat_ok g size → 0 < v_fat_size g.
Proof.
  intros Hg Hf. pose proof (bps_pos _ Hg). pose proof (fo_fit _ _ Hf). pose proof (fo_clusters _ _ Hf).
  pose proof (entry_ofs_mono g 0 (v_data_clusters g + 1)).
  assert (0 < entry_size (v_fat_type g)) by by destruct (v_fat_type g). nia.
Qed.

Lemma sector_of_eq g size n i :
  geo_ok g → fat_ok g size → data_ok g size → size < 2 ^ 32 → cluster g n → 0 ≤ i < v_sectors_per_cluster g →
  u32 (Z.shiftl (u32 (n - 2)) (v_log_sectors_per_cluster g) + v_data_start g + i) = cluster_sector g n i.
Proof.
  intros Hg Hf Hd Hsz Hc Hi. pose proof (fat_size_pos _ _ Hg Hf). pose proof (cluster_sector_range _ _ _ _ Hf Hd Hc Hi) as Hr.
  pose proof (fo_clusters _ _ Hf). pose proof (do_log _ _ Hd). pose proof (fo_start _ _ Hf).
  pose proof (fo_fit _ _ Hf). pose proof (fo_active _ _ Hf).
  unfold cluster in Hc. rewrite (u32_small (n - 2)), shiftl_mul by lia.
  rewrite <- (do_spc _ _ Hd). unfold cluster_sector in *.
  rewrite u32_small; [lia|]. pose proof (do_start _ _ Hd). pose proof (do_fit _ _ Hd).
  assert (0 ≤ v_data_start g) by nia. nia.
Qed.

(** The end of [fat_get_file_sector], from a position that is not past the
    cluster [k] looked for. *)
Lemma wp_sector_from s v c ch l n j ci i (Q : Z * Z → fs W → Prop) :
  mounted s v → c ≠ 0 → fs_channels s !! c = Some ch →
  chain (v_geo v) (table s) n l → c_cluster_index ch = Z.of_nat j → l !! j = Some (c_cluster ch) →
  Z.of_nat j ≤ ci < 2 ^ 32 → 0 ≤ i < v_sectors_per_cluster (v_geo v) →
  (∀ v' s', frame v (fs_files s) (<[c := at_cluster l (Z.to_nat ci) ch]> (fs_channels s)) s v' s' →
     quiet v v' → rewritten ∅ (v_geo v) s s' →
     Q (match l !! Z.to_nat ci with
        | Some n => (0, cluster_sector (v_geo v) n i)
        | None => (1, 0)
        end) s') →
  wp (ch ← getchannel c;
      res ← follow_chain (Z.to_nat (ci - c_cluster_index ch)) c;
      if negb (res =? 0) then mret (res, 0)
      else
        ch ← getchannel c;
        mret (0, u32 (Z.shiftl (u32 (c_cluster ch - 2)) (v_log_sectors_per_cluster (v_geo v))
                      + v_data_start (v_geo v) + i))) Q s.
Proof.
  intros M Hc0 Hch Hl Hj Hlj Hci Hi HQ. set (k := Z.to_nat ci) in *.
  assert (j < length l)%nat as Hjl by by eapply lookup_lt_Some.
  assert (nth (reach (k - j) (drop j l)) (drop j l) 0 = nth (reach k l) l 0) as Hn.
  { rewrite !nth_lookup, lookup_drop. do 2 f_equal. unfold reach. rewrite length_drop. lia. }
  apply wp_bind. eapply wp_getchannel; [done|]. apply wp_bind.
  eapply (wp_follow_chain _ s v c ch (drop j l)); [done|done|done|by eapply chain_suffix|lia|lia|].
  intros v1 s1 F1 Q1 R1. rewrite Hj in *. replace (Z.to_nat (ci - Z.of_nat j)) with (k - j)%nat in * by lia.
  replace (_ <| c_cluster_index ::= _ |> <| c_cluster := _ |>) with (at_cluster l k ch) in F1.
  2: { unfold at_cluster. rewrite Hn. destruct ch; simpl in *. f_equal.
       unfold reach. rewrite length_drop. lia. }
  rewrite length_drop. destruct (Nat.ltb_spec (k - j) (length l - j)) as [Hlt|Hge]; simpl.
  - apply wp_bind. eapply wp_getchannel; [by rewrite (frame_channels _ _ _ _ _ _ F1), lookup_insert_eq|].
    apply wp_ret. destruct (lookup_lt_is_Some_2 l k) as [m Hm]; [lia|].
    assert (nth (reach k l) l 0 = m) as Hre.
    { rewrite nth_lookup. replace (reach k l) with k by (unfold reach; lia). by rewrite Hm. }
    specialize (HQ v1 s1 F1 Q1 R1). rewrite Hm in HQ. simpl. rewrite Hre.
    erewrite sector_of_eq; [exact HQ|by eapply mounted_geo|apply M|apply M|exact (ci_size _ _ _ _ (proj2 (mt_cache _ _ M)))| |done].
    apply chain_cluster in Hl. by eapply Forall_lookup in Hl.
  - apply wp_ret. specialize (HQ v1 s1 F1 Q1 R1). rewrite (lookup_ge_None_2 l k) in HQ by lia. done.
Qed.

Lemma wp_get_file_sector s v c ch f l sector_index (Q : Z * Z → fs W → Prop) :
  mounted s v → c ≠ 0 → fs_channels s !! c = Some ch → fs_files s !! c_f ch = Some f →
  chain (v_geo v) (table s) (f_first_cluster f) l → position_ok l ch →
  0 ≤ sector_index < 2 ^ 32 →
  let g := v_geo v in
  let k := Z.to_nat (sector_index / v_sectors_per_cluster g) in
  (∀ v' s', frame v (fs_files s) (<[c := at_cluster l k ch]> (fs_channels s)) s v' s' →
     quiet v v' → rewritten ∅ g s s' →
     Q (match l !! k with
        | Some n => (0, cluster_sector g n (sector_index mod v_sectors_per_cluster g))
        | None => (1, 0)
        end) s') →
  wp (fat_get_file_sector c sector_index) Q s.
Proof.
  intros M Hc0 Hch Hf Hl Hpos Hsi. cbv zeta. intros HQ. pose proof (mounted_vol _ _ M) as Hv.
  set (g := v_geo v) in *. pose proof (mt_data _ _ M) as Hd. fold g in Hd.
  pose proof (do_log _ _ Hd) as Hlog. pose proof (do_spc _ _ Hd) as Hspc.
  pose proof (spc_pos _ _ Hd) as Hp. pose proof (chain_first _ _ _ _ Hl) as Hcl.
  assert (nz (f_first_cluster f) = true) as Hnz.
  { unfold nz. rewrite (proj2 (Z.eqb_neq _ _)); [done|]. unfold cluster in Hcl. lia. }
  unfold fat_get_file_sector.
  apply wp_bind. eapply wp_getchannel; [done|]. apply wp_bind. eapply wp_getfile; [done|].
  apply wp_bind. eapply wp_geo; [done|]. unfold id. fold g. rewrite Hnz, andb_false_r. simpl.
  rewrite shiftr_div, <- Hspc by lia.
  replace (Z.land sector_index (v_sectors_per_cluster g - 1)) with (sector_index mod v_sectors_per_cluster g)
    by (rewrite Hspc, land_pow2_mod by lia; done).
  set (ci := sector_index / v_sectors_per_cluster g) in *.
  assert (0 ≤ ci < 2 ^ 32) as Hci.
  { split; [apply Z.div_pos; lia|]. apply Z.div_lt_upper_bound; nia. }
  assert (0 ≤ sector_index mod v_sectors_per_cluster g < v_sectors_per_cluster g) as Hsc
    by by apply Z.mod_pos_bound.
  apply wp_bind. destruct (negb (nz (c_cluster_index ch)) || (ci <? c_cluster_index ch)) eqn:Hr.
  - apply wp_bind. eapply wp_modchannel; [done|done|].
    eapply wp_modchannel; [done|apply lookup_insert_eq|].
    set (ch1 := ch <| c_cluster_index := 0 |> <| c_cluster := f_first_cluster f |>).
    set (s1 := s <| fs_channels ::= <[c := ch1]> |>).
    match goal with |- wp _ _ ?x => replace x with s1
      by (unfold s1; destruct s; simpl; by rewrite insert_insert_eq) end.
    destruct (frame_channel s v c ch1 M) as [F1 R1]. fold s1 in F1, R1.
    eapply (wp_sector_from s1 v c ch1 l _ 0%nat ci); [apply F1|done|by rewrite (frame_channels _ _ _ _ _ _ F1), lookup_insert_eq| |done| | | |].
    + eapply chain_rewritten; [exact M|exact F1|exact R1|exact Hl].
    + apply chain_head in Hl. by rewrite <- head_lookup.
    + lia.
    + done.
    + intros v2 s2 F2 Q2 R2. fold g in R1, R2. pose proof (frame_trans _ _ _ _ _ _ _ _ _ _ F1 F2) as F12.
      pose proof (rewritten_trans _ _ _ _ _ _ R1 R2) as R12. rewrite (left_id_L ∅ (∪)) in R12.
      apply (HQ v2 s2); [|done|done].
      rewrite (frame_files _ _ _ _ _ _ F1), (frame_channels _ _ _ _ _ _ F1), insert_insert_eq in F12.
      exact F12.
  - apply orb_false_iff in Hr as [Hr1 Hr2]. apply negb_false_iff in Hr1. unfold nz in Hr1.
    apply negb_true_iff, Z.eqb_neq in Hr1. apply Z.ltb_ge in Hr2.
    destruct Hpos as [?|[Hpos1 Hpos2]]; [done|]. apply wp_ret.
    eapply (wp_sector_from s v c ch l _ (Z.to_nat (c_cluster_index ch)) ci);
      [done|done|done|done|lia|done|lia|done|]. exact HQ.
Qed.
End follow.

(** * Free clusters *)

(** The order in which the clusters are looked at, and the first free one. *)
Definition clamp_hint (g : Geometry) (hint : Z) : Z :=
  if (hint =? FAT_FSI_NA) || (hint <? 2) || (v_data_clusters g + 1 <? hint) then 2 else hint.
Definition search_order (g : Geometry) (hint : Z) : list Z :=
  let h := clamp_hint g hint in seqZ h (v_data_clusters g + 2 - h) ++ seqZ 2 (h - 2).
Definition first_free (T : Z → Z) (l : list Z) : option Z := List.find (λ n, T n =? 0) l.

Lemma first_free_some T l n : first_free T l = Some n → n ∈ l ∧ T n = 0.
Proof. intros H. apply find_some in H as [H1 H2]. simpl in H2. rewrite list_elem_of_In. split; [done|lia]. Qed.
Lemma first_free_none T l n : first_free T l = None → n ∈ l → T n ≠ 0.
Proof. intros H Hn. eapply find_none in H; [|by apply list_elem_of_In]. simpl in H. lia. Qed.

Lemma first_free_app T l1 l2 :
  first_free T (l1 ++ l2) = match first_free T l1 with Some x => Some x | None => first_free T l2 end.
Proof. unfold first_free. induction l1 as [|x l1 IH]; simpl; [done|]. by destruct (T x =? 0). Qed.
Lemma find_ext {A} (f h : A → bool) l : (∀ x, x ∈ l → f x = h x) → List.find f l = List.find h l.
Proof.
  induction l as [|x l IH]; simpl; intros H; [done|]. rewrite H by set_solver.
  destruct (h x); [done|]. apply IH. set_solver.
Qed.

Lemma clamp_hint_range g h : 0 ≤ v_data_clusters g → 2 ≤ clamp_hint g h ≤ v_data_clusters g + 2.
Proof.
  intros Hd. unfold clamp_hint. destruct (h =? FAT_FSI_NA); simpl; [lia|].
  destruct (Z.ltb_spec h 2); simpl; [lia|]. destruct (Z.ltb_spec (v_data_clusters g + 1) h); lia.
Qed.

(** Every cluster is looked at. *)
Lemma search_order_all g h n :
  0 ≤ v_data_clusters g → n ∈ search_order g h ↔ cluster g n.
Proof.
  intros Hd. pose proof (clamp_hint_range g h Hd). unfold search_order, cluster.
  rewrite elem_of_app, !elem_of_seqZ. lia.
Qed.

Section free.
Context {W : Type} `{FW : FatWorld W} `{FD : !FixedDisk W} `{FL : Fuel}.
Implicit Types (s : fs W) (v : Volume) (g : Geometry).

Lemma table_nonneg s v n : mounted s v → in_table (v_geo v) n → 0 ≤ table s n.
Proof.
  intros M Hn. pose proof (mounted_vol _ _ M) as Hv. unfold table, entry. rewrite Hv.
  set (g := v_geo v) in *. pose proof (entry_addr_pos g _ (v_active_fat g) n (mounted_geo _ _ M) (mt_fat _ _ M)
    (proj1 (fo_active _ _ (mt_fat _ _ M))) Hn) as Ha.
  assert (∀ x, 0 ≤ x → 0 ≤ volume_bytes s x < 256) as Hb by apply (mt_bytes _ _ M).
  unfold fat_entry, entry_value. destruct (_ <=? _); [done|].
  set (a := entry_addr _ _ _) in *. pose proof (Hb a Ha). pose proof (Hb (a + 1) ltac:(lia)).
  pose proof (Hb (a + 2) ltac:(lia)). pose proof (Hb (a + 2 + 1) ltac:(lia)).
  unfold entry_bits, img32, img16. destruct (v_fat_type g); [|lia|].
  - destruct (has n 1); [apply Z.div_pos|apply Z.mod_pos_bound]; lia.
  - by apply Z.mod_pos_bound.
Qed.

(** Storing the counters of free clusters. *)
Lemma frame_counters s v fc nf ch :
  mounted s v →
  let v' := v <| v_free_clusters := fc |> <| v_next_free := nf |> <| v_fsinfo_changed := ch |> in
  let s' := s <| fs_vol := Some v' |> in
  frame v (fs_files s) (fs_channels s) s v' s' ∧ rewritten ∅ (v_geo v) s s'.
Proof.
  intros M. cbv zeta. pose proof (mounted_vol _ _ M) as Hv.
  set (v' := v <| v_free_clusters := fc |> <| v_next_free := nf |> <| v_fsinfo_changed := ch |>).
  destruct (frame_mem v s v' (s <| fs_vol := Some v' |>) M) as (M' & Hx & He & Ht); done.
Qed.

(** What a search leaves in the volume. *)
Definition searched v (r : option Z) v' : Prop :=
  v_free_clusters v' = v_free_clusters v ∧
  match r with
  | Some n => v_next_free v' = n ∧ v_fsinfo_changed v' = true
  | None => v_next_free v' = v_next_free v ∧ v_fsinfo_changed v' = v_fsinfo_changed v
  end.

Lemma first_free_rewritten s v s' v' files chs l :
  mounted s v → frame v files chs s v' s' → rewritten ∅ (v_geo v) s s' → Forall (in_table (v_geo v)) l →
  first_free (table s') l = first_free (table s) l.
Proof.
  intros M F R Hl. apply find_ext. intros n Hn. rewrite Forall_forall in Hl.
  by rewrite (table_rewritten s v s' v' files chs) by auto.
Qed.

Lemma wp_find_free_from count s v k (Q : Z → fs W → Prop) :
  mounted s v → 2 ≤ k → k + Z.of_nat count ≤ v_data_clusters (v_geo v) + 2 →
  (∀ v' s' r, frame v (fs_files s) (fs_channels s) s v' s' → rewritten ∅ (v_geo v) s s' →
     r = first_free (table s) (seqZ k (Z.of_nat count)) → searched v r v' →
     Q (default (- ENOSPC) r) s') →
  wp (find_free_cluster_from k count) Q s.
Proof.
  revert s v k. induction count as [|count IH]; intros s v k M Hk Hle HQ; cbn [find_free_cluster_from].
  - apply wp_ret, (HQ v s None); [by apply frame_refl|by apply rewritten_same|done..].
  - pose proof (fo_clusters _ _ (mt_fat _ _ M)) as Hdc.
    assert (in_table (v_geo v) k) as Hin by (unfold in_table; lia).
    pose proof (table_nonneg s v k M Hin) as Hpos.
    rewrite seqZ_cons in HQ by lia. replace (Z.pred (Z.of_nat (S count))) with (Z.of_nat count) in HQ by lia.
    apply wp_bind. eapply wp_entry_read; [done|done|]. intros v1 s1 F1 Q1 R1.
    unfold guard_ret. rewrite (proj2 (Z.ltb_ge _ _)) by done.
    pose proof (fr_mounted _ _ _ _ _ _ F1) as M1. pose proof (mounted_vol _ _ M1) as Hv1.
    unfold first_free in HQ. simpl in HQ. unfold nz. destruct (Z.eqb_spec (table s k) 0) as [E|E]; simpl.
    + apply wp_bind. eapply wp_modv; [done|]. apply wp_bind. eapply wp_modv; [done|]. apply wp_ret.
      destruct (frame_counters s1 v1 (v_free_clusters v1) k true M1) as [F2 R2].
      match type of F2 with frame _ _ _ _ ?vv ?ss => set (v2 := vv) in *; set (s2 := ss) in * end.
      match goal with |- Q _ ?x => replace x with s2 by (unfold s2, v2; by destruct v1) end.
      pose proof (frame_trans _ _ _ _ _ _ _ _ _ _ F1 F2) as F.
      rewrite (frame_files _ _ _ _ _ _ F1), (frame_channels _ _ _ _ _ _ F1) in F.
      rewrite (frame_geo _ _ _ _ _ _ F1) in R2. pose proof (rewritten_trans _ _ _ _ _ _ R1 R2) as R.
      rewrite (left_id_L ∅ (∪)) in R. apply (HQ v2 s2 (Some k)); [done..|].
      split; [|done]. unfold v2. simpl. by rewrite Q1.
    + rewrite u32_small by lia. apply (IH s1 v1); [done|lia|by rewrite (frame_geo _ _ _ _ _ _ F1); lia|].
      intros v2 s2 r F2 R2 Hr Hs. pose proof (frame_trans _ _ _ _ _ _ _ _ _ _ F1 F2) as F.
      rewrite (frame_files _ _ _ _ _ _ F1), (frame_channels _ _ _ _ _ _ F1) in F.
      rewrite (frame_geo _ _ _ _ _ _ F1) in R2. pose proof (rewritten_trans _ _ _ _ _ _ R1 R2) as R.
      rewrite (left_id_L ∅ (∪)) in R. apply (HQ v2 s2 r); [done|done| |].
      * rewrite Hr. eapply first_free_rewritten; [done..|]. apply Forall_forall. intros x.
        rewrite elem_of_seqZ. unfold in_table. lia.
      * destruct Hs as [Hs1 Hs2]. rewrite Q1 in Hs1, Hs2. done.
Qed.

Lemma wp_find_free_cluster s v (Q : Z → fs W → Prop) :
  mounted s v →
  (∀ v' s' r, frame v (fs_files s) (fs_channels s) s v' s' → rewritten ∅ (v_geo v) s s' →
     r = first_free (table s) (search_order (v_geo v) (v_next_free v)) →
     v_free_clusters v' = v_free_clusters v → v_next_free v' = default FAT_FSI_NA r →
     v_fsinfo_changed v' = true → Q (default (- ENOSPC) r) s') →
  wp find_free_cluster Q s.
Proof.
  intros M HQ. pose proof (mounted_vol _ _ M) as Hv. pose proof (fo_clusters _ _ (mt_fat _ _ M)) as Hdc.
  unfold find_free_cluster. apply wp_bind. eapply wp_getv; [done|].
  rewrite (u32_small (v_data_clusters _ + 1)) by lia. fold (clamp_hint (v_geo v) (v_next_free v)).
  unfold search_order in HQ. set (h := clamp_hint _ _) in *.
  pose proof (clamp_hint_range (v_geo v) (v_next_free v) (proj1 Hdc)) as Hh. fold h in Hh.
  unfold find_free_cluster_in_range. rewrite u32_small by lia.
  apply wp_bind. eapply wp_find_free_from; [done|lia|lia|]. intros v1 s1 r1 F1 R1 Hr1 S1.
  rewrite Z2Nat.id in Hr1 by lia. setoid_rewrite first_free_app in HQ.
  rewrite <- Hr1 in HQ.
  destruct r1 as [n|]; simpl.
  { pose proof (first_free_some _ _ _ (eq_sym Hr1)) as [Hn _]. apply elem_of_seqZ in Hn.
    unfold guard_ret. rewrite (proj2 (Z.eqb_neq _ _)) by (unfold ENOSPC; lia). simpl. apply wp_ret.
    destruct S1 as (Hfc & Hnf & Hch). by apply (HQ v1 s1 (Some n)). }
  unfold guard_ret. simpl. pose proof (fr_mounted _ _ _ _ _ _ F1) as M1.
  apply wp_bind. eapply wp_find_free_from; [done|lia|rewrite (frame_geo _ _ _ _ _ _ F1); lia|].
  intros v2 s2 r2 F2 R2 Hr2 S2. rewrite Z2Nat.id in Hr2 by lia.
  rewrite (first_free_rewritten s v s1 v1 _ _ _ M F1 R1) in Hr2
    by (apply Forall_forall; intros x; rewrite elem_of_seqZ; unfold in_table; lia).
  destruct (step_trans _ _ _ _ _ _ _ _ _ _ _ _ F1 R1 F2 R2) as [F12 R12]. rewrite (left_id_L ∅ (∪)) in R12.
  rewrite (frame_files _ _ _ _ _ _ F1), (frame_channels _ _ _ _ _ _ F1) in F12.
  destruct S1 as (Hfc & Hnf & Hch). rewrite <- Hr2 in HQ. pose proof (fr_mounted _ _ _ _ _ _ F2) as M2.
  destruct r2 as [n|]; simpl.
  { pose proof (first_free_some _ _ _ (eq_sym Hr2)) as [Hn _]. apply elem_of_seqZ in Hn.
    rewrite (proj2 (Z.eqb_neq _ _)) by (unfold ENOSPC; lia). simpl. apply wp_ret.
    destruct S2 as (Hfc2 & Hnf2 & Hch2). apply (HQ v2 s2 (Some n)); [done..|congruence|done|done]. }
  simpl. apply wp_bind. eapply wp_modv; [by apply mounted_vol|]. apply wp_bind. eapply wp_modv; [done|].
  apply wp_ret. destruct S2 as (Hfc2 & Hnf2 & Hch2).
  destruct (frame_counters s2 v2 (v_free_clusters v2) FAT_FSI_NA true M2) as [F3 R3].
  destruct (step_trans _ _ _ _ _ _ _ _ _ _ _ _ F12 R12 F3 R3) as [F R]. rewrite (left_id_L ∅ (∪)) in R.
  rewrite (frame_files _ _ _ _ _ _ F12), (frame_channels _ _ _ _ _ _ F12) in F.
  match type of F with frame _ _ _ _ ?vv ?ss => set (v3 := vv) in *; set (s3 := ss) in * end.
  match goal with |- Q _ ?x => replace x with s3 by (unfold s3, v3; by destruct v2) end.
  apply (HQ v3 s3 None); [done..|unfold v3; simpl; congruence|done|done].
Qed.
End free.

(** * Extending a chain *)

Section append.
Context {W : Type} `{FW : FatWorld W} `{FD : !FixedDisk W} `{FL : Fuel}.
Implicit Types (s : fs W) (v : Volume) (g : Geometry).

(** An entry of a chain is not free, and the new end of a chain extends it. *)
Lemma chain_not_free g T n l x : chain g T n l → x ∈ l → T x ≠ 0.
Proof.
  induction 1 as [n Hn HT|n m l Hn HT Hc IH]; rewrite ?list_elem_of_singleton, ?elem_of_cons.
  - intros ->. rewrite HT. done.
  - intros [->|Hx]; [|by apply IH]. rewrite HT. apply chain_first in Hc. unfold cluster in Hc. lia.
Qed.

Lemma chain_app g T T' n l last_ m l' :
  chain g T n l → last l = Some last_ → NoDup l → (∀ x, x ∈ l → x ≠ last_ → T' x = T x) →
  T' last_ = m → chain g T' m l' → chain g T' n (l ++ l').
Proof.
  intros H. induction H as [n Hn HT|n k l Hn HT Hc IH]; intros Hl Hnd Heq Hm Hc'.
  - injection Hl as <-. by eapply chain_next.
  - apply NoDup_cons in Hnd as [Hni Hnd]. destruct l as [|y l]; [by inversion Hc|].
    assert (last (y :: l) = Some last_) as Hl' by done. simpl app.
    eapply chain_next; [done| |apply IH; [done|done|intros x Hx; apply Heq; set_solver|done|done]].
    rewrite Heq; [done|set_solver|]. intros ->. apply Hni. by eapply last_Some_elem_of.
Qed.

(** The file after its first cluster has been allocated. *)
Definition start_at (n : Z) (f : File) : File :=
  f <| f_first_cluster := n |> <| f_de ::= λ d, d <| de_first_cluster_hi := u16 (Z.shiftr n 16) |>
      <| de_first_cluster_lo := u16 n |> |> <| f_de_changed := true |>.

Lemma frame_file s v f x :
  mounted s v →
  let s' := s <| fs_files ::= <[f := x]> |> in
  frame v (<[f := x]> (fs_files s)) (fs_channels s) s v s' ∧ rewritten ∅ (v_geo v) s s'.
Proof.
  intros M. cbv zeta. pose proof (mounted_vol _ _ M) as Hv.
  destruct (frame_mem v s v (s <| fs_files ::= <[f := x]> |>) M) as (M' & Hx & He & Ht); try done.
  split; [|by apply rewritten_same]. split; [done|by destruct v| |done].
  destruct s. simpl in *. by subst.
Qed.

(** Linking the new cluster: the middle of [fat_append_cluster]. *)
Lemma wp_link_cluster s v c ch f n (Q : Z → fs W → Prop) :
  mounted s v → fs_channels s !! c = Some ch → fs_files s !! c_f ch = Some f → c_f ch ≠ 0 →
  cluster (v_geo v) n → (nz (f_first_cluster f) = true → cluster (v_geo v) (c_cluster ch)) →
  (∀ v' s', frame v (if nz (f_first_cluster f) then fs_files s
                     else <[c_f ch := start_at n f]> (fs_files s)) (fs_channels s) s v' s' →
     quiet v v' →
     rewritten (if nz (f_first_cluster f) then {[c_cluster ch := n]} else ∅) (v_geo v) s s' →
     Q 0 s') →
  wp (if negb (nz (f_first_cluster f)) then
            modfile (c_f ch) (λ f, f <| f_first_cluster := n |>);;
            modfile (c_f ch) (λ f, f <| f_de ::=
              λ d, d <| de_first_cluster_hi := u16 (Z.shiftr n 16) |> |>);;
            modfile (c_f ch) (λ f, f <| f_de ::= λ d, d <| de_first_cluster_lo := u16 n |> |>);;
            modfile (c_f ch) (λ f, f <| f_de_changed := true |>);;
            mret 0
          else write_fat_entry (c_cluster ch) n) Q s.
Proof.
  intros M Hch Hf Hf0 Hn Hcl HQ. destruct (nz (f_first_cluster f)); simpl.
  - eapply wp_entry_write; [done|by apply cluster_in_table, Hcl|right; left; exact Hn|done].
  - apply wp_bind. eapply wp_modfile; [done|done|].
    do 3 (apply wp_bind; eapply wp_modfile; [done|apply lookup_insert_eq|]).
    apply wp_ret. destruct (frame_file s v (c_f ch) (start_at n f) M) as [F R].
    match goal with |- Q _ ?x => replace x with (s <| fs_files ::= <[c_f ch := start_at n f]> |>) end.
    + apply (HQ v); [exact F|by destruct v|exact R].
    + unfold start_at. destruct s; simpl. by rewrite !insert_insert_eq.
Qed.

Lemma wp_append_cluster s v c ch f (Q : Z → fs W → Prop) :
  mounted s v → fs_channels s !! c = Some ch → fs_files s !! c_f ch = Some f → c_f ch ≠ 0 →
  nz (f_de_sector f) || nz (f_first_cluster f) = true →
  (nz (f_first_cluster f) = true → cluster (v_geo v) (c_cluster ch)) →
  (∀ v' s', match first_free (table s) (search_order (v_geo v) (v_next_free v)) with
     | Some n =>
         frame v (if nz (f_first_cluster f) then fs_files s
                  else <[c_f ch := start_at n f]> (fs_files s)) (fs_channels s) s v' s' ∧
         rewritten ({[n := FAT_EOC]} ∪ if nz (f_first_cluster f) then {[c_cluster ch := n]} else ∅)
           (v_geo v) s s' ∧
         v_free_clusters v' = u32 (v_free_clusters v - 1) ∧ v_next_free v' = n ∧
         v_fsinfo_changed v' = true → Q n s'
     | None =>
         frame v (fs_files s) (fs_channels s) s v' s' ∧ rewritten ∅ (v_geo v) s s' → Q (- ENOSPC) s'
     end) →
  wp (fat_append_cluster c) Q s.
Proof.
  intros M Hch Hf Hf0 Hroot Hcl HQ. unfold fat_append_cluster.
  apply wp_bind. eapply wp_getchannel; [done|]. apply wp_bind. eapply wp_getfile; [done|].
  unfold guard_ret. rewrite <- negb_orb, Hroot. simpl.
  apply wp_check. eapply wp_find_free_cluster; [done|]. intros v1 s1 r F1 R1 Hr Hfc Hnf Hfi.
  specialize (λ v' s', HQ v' s'). rewrite <- Hr in HQ. destruct r as [n|]; simpl.
  2: { split; [|done]. intros _. by apply (HQ v1). }
  pose proof (first_free_some _ _ _ (eq_sym Hr)) as [Hn _].
  apply search_order_all in Hn; [|apply (mt_fat _ _ M)].
  split; [unfold cluster in Hn; lia|]. intros _. pose proof (fr_mounted _ _ _ _ _ _ F1) as M1.
  pose proof (frame_geo _ _ _ _ _ _ F1) as G1. pose proof (frame_channels _ _ _ _ _ _ F1) as C1.
  pose proof (frame_files _ _ _ _ _ _ F1) as E1.
  apply wp_bind. eapply wp_getchannel; [by rewrite C1|]. apply wp_check.
  eapply (wp_link_cluster s1 v1 c ch f n); rewrite ?C1, ?E1, ?G1; [done..|].
  intros v2 s2 F2 Q2 R2. split; [lia|]. intros _. pose proof (fr_mounted _ _ _ _ _ _ F2) as M2.
  rewrite <- G1 in R2. destruct (step_trans _ _ _ _ _ _ _ _ _ _ _ _ F1 R1 F2 R2) as [F12 R12].
  rewrite (right_id_L ∅ (∪)) in R12.
  apply wp_bind. eapply wp_modv; [by apply mounted_vol|]. apply wp_bind. eapply wp_modv; [done|].
  destruct (frame_counters s2 v2 (u32 (v_free_clusters v2 - 1)) (v_next_free v2) true M2) as [F3 R3].
  match type of F3 with frame _ _ _ _ ?vv _ => set (v3 := vv) in * end.
  match type of F3 with frame _ _ _ _ _ ?ss => set (s3 := ss) in * end.
  destruct (step_trans _ _ _ _ _ _ _ _ _ _ _ _ F12 R12 F3 R3) as [F13 R13]. rewrite (left_id_L ∅ (∪)) in R13.
  match goal with |- wp _ _ ?x => replace x with s3 by (unfold s3, v3; by destruct v2) end.
  pose proof (fr_mounted _ _ _ _ _ _ F3) as M3. pose proof (frame_geo _ _ _ _ _ _ F13) as G3.
  apply wp_check. eapply wp_entry_write; [done|by rewrite G3; apply cluster_in_table|by right; right|].
  intros v4 s4 F4 Q4 R4. split; [lia|]. intros _. apply wp_ret. apply (HQ v4).
  destruct (step_trans _ _ _ _ _ _ _ _ _ _ _ _ F13 R13 F4 R4) as [F R].
  rewrite (frame_files _ _ _ _ _ _ F13), (frame_channels _ _ _ _ _ _ F13) in F.
  rewrite (frame_files _ _ _ _ _ _ F2), (frame_channels _ _ _ _ _ _ F2) in F.
  split; [exact F|]. split; [exact R|]. rewrite Q4. unfold v3. simpl. rewrite Q2. simpl.
  by rewrite Hfc, Hnf.
Qed.
(** The clusters of a file that may be empty. *)
Definition file_chain s v (f : File) (l : list Z) : Prop :=
  (f_first_cluster f = 0 ∧ l = []) ∨ chain (v_geo v) (table s) (f_first_cluster f) l.

Lemma file_chain_cluster s v f l : file_chain s v f l → Forall (cluster (v_geo v)) l.
Proof. intros [[_ ->]|H]; [done|by eapply chain_cluster]. Qed.

Lemma file_chain_NoDup s v f l : mounted s v → file_chain s v f l → NoDup l.
Proof.
  intros M [[_ ->]|H]; [by constructor|]. eapply chain_NoDup; [|exact H]. intros x. by apply (cluster_not_eoc s v).
Qed.

Lemma file_chain_first s v f l : file_chain s v f l → nz (f_first_cluster f) = bool_decide (l ≠ []).
Proof.
  intros [[E ->]|H].
  - rewrite E. done.
  - rewrite bool_decide_eq_true_2 by by inversion H. apply chain_first in H. unfold cluster, nz in *. lia.
Qed.

(** The table after [fat_append_cluster]: the chain has one more cluster, the
    others are as before. *)
Lemma appended_chain s v s' v' f l e n :
  mounted s v → mounted s' v' → v_geo v' = v_geo v → file_chain s v f l → (l ≠ [] → last l = Some e) →
  cluster (v_geo v) n → table s n = 0 →
  rewritten ({[n := FAT_EOC]} ∪ if nz (f_first_cluster f) then {[e := n]} else ∅) (v_geo v) s s' →
  chain (v_geo v) (table s') (if nz (f_first_cluster f) then f_first_cluster f else n) (l ++ [n]) ∧
  ∀ m k, chain (v_geo v) (table s) m k → (∀ x, x ∈ k → x ∉ l) →
    chain (v_geo v) (table s') m k ∧ ∀ x, x ∈ k → x ∉ l ++ [n].
Proof.
  intros M M' Hg Hl He Hn HT R.
  assert (∀ x, in_table (v_geo v) x → table s' x = default (table s x)
    (({[n := FAT_EOC]} ∪ if nz (f_first_cluster f) then {[e := n]} else ∅ : gmap Z Z) !! x)) as Htab.
  { intros x Hx. by eapply rewritten_table; [..|by apply mounted_vol| | |]. }
  assert (table s' n = FAT_EOC) as Hend.
  { rewrite Htab by by apply cluster_in_table. rewrite lookup_union, lookup_singleton_eq.
    by destruct (nz _); [destruct ({[e := n]} !! n)|rewrite lookup_empty]. }
  assert (∀ x, cluster (v_geo v) x → x ≠ n → x ∉ l ∨ last l ≠ Some x → table s' x = table s x) as Hother.
  { intros x Hx N1 N2. rewrite Htab, lookup_union, lookup_singleton_ne by (done || by apply cluster_in_table).
    rewrite (file_chain_first _ _ _ _ Hl). case_bool_decide as Hne; [|by rewrite lookup_empty].
    rewrite lookup_singleton_ne; [done|]. intros ->. destruct N2 as [N2|N2]; [|by rewrite He in N2].
    by apply N2, last_Some_elem_of, He. }
  assert (∀ m k x, chain (v_geo v) (table s) m k → x ∈ k → cluster (v_geo v) x ∧ x ≠ n) as Hin.
  { intros m k x Hk Hx. split; [apply chain_cluster in Hk; by eapply Forall_forall in Hk|].
    intros ->. by eapply chain_not_free in Hk. }
  split.
  - rewrite (file_chain_first _ _ _ _ Hl). destruct Hl as [[_ ->]|Hl].
    { simpl. by apply chain_last. }
    assert (l ≠ []) as Hne by by inversion Hl. rewrite bool_decide_eq_true_2 by done.
    eapply chain_app; [exact Hl|by apply He|eapply chain_NoDup; [|exact Hl]; intros x; by apply (cluster_not_eoc s v)
      | | |by apply chain_last].
    + intros x Hx Hxe. destruct (Hin _ _ _ Hl Hx). apply Hother; [done|done|]. right. rewrite He by done. congruence.
    + assert (e ∈ l) as Hel by by apply last_Some_elem_of, He. destruct (Hin _ _ _ Hl Hel) as [He1 He2].
      rewrite Htab, lookup_union, lookup_singleton_ne by (done || by apply cluster_in_table).
      pose proof (chain_first _ _ _ _ Hl) as Hf1. unfold nz, cluster in *. rewrite (proj2 (Z.eqb_neq _ _)) by lia. simpl.
      by rewrite lookup_singleton_eq.
  - intros m k Hk Hdis. split.
    + eapply chain_ext; [|exact Hk]. intros x Hx. destruct (Hin _ _ _ Hk Hx). symmetry. apply Hother; [done|done|].
      left. by apply Hdis.
    + intros x Hx [Hxl|Hxn]%elem_of_app; [by eapply Hdis|]. apply list_elem_of_singleton in Hxn as ->.
      by destruct (Hin _ _ _ Hk Hx).
Qed.
End append.

(** * Deleting a chain *)

Section delete.
Context {W : Type} `{FW : FatWorld W} `{FD : !FixedDisk W} `{FL : Fuel}.
Implicit Types (s : fs W) (v : Volume) (g : Geometry).

(** The entries of [l] set free. *)
Definition freed (l : list Z) : gmap Z Z := gset_to_gmap 0 (list_to_set l).

Lemma freed_lookup l n : freed l !! n = if decide (n ∈ l) then Some 0 else None.
Proof.
  unfold freed. case_decide as H.
  - apply lookup_gset_to_gmap_Some. by rewrite elem_of_list_to_set.
  - apply lookup_gset_to_gmap_None. by rewrite elem_of_list_to_set.
Qed.

Lemma freed_cons n l : freed l ∪ {[n := 0]} = freed (n :: l).
Proof.
  apply map_eq. intros m. rewrite lookup_union, !freed_lookup.
  destruct (decide (m = n)) as [->|Hne].
  - rewrite lookup_singleton_eq, (decide_True (P := n ∈ n :: l)) by set_solver. by case_decide.
  - rewrite lookup_singleton_ne by done. repeat case_decide; try done; set_solver.
Qed.

Lemma freed_one n : freed [n] = {[n := 0]}.
Proof.
  rewrite <- freed_cons. apply map_eq. intros m. rewrite lookup_union, freed_lookup. simpl.
  by destruct (_ !! m).
Qed.

(** One iteration: the entry is set free and counted. *)
Lemma delete_chain_step s v n k :
  mounted s v → in_table (v_geo v) n →
  ∃ v' s', delete_chain (S k) n s = (if table s n =? FAT_EOC then mret 0 else delete_chain k (table s n)) s' ∧
    frame v (fs_files s) (fs_channels s) s v' s' ∧ rewritten {[n := 0]} (v_geo v) s s' ∧
    v_free_clusters v' = u32 (v_free_clusters v + 1) ∧ v_fsinfo_changed v' = true.
Proof.
  intros M Hn. pose proof (table_nonneg s v n M Hn) as Hpos. cbn [delete_chain].
  assert (wp (read_fat_entry n) (λ r s', r = table s n ∧ ∃ v', frame v (fs_files s) (fs_channels s) s v' s' ∧
    quiet v v' ∧ rewritten ∅ (v_geo v) s s') s) as H by (eapply wp_entry_read; eauto 10).
  apply wp_done in H as (? & s1 & Hr & -> & v1 & F1 & Q1 & R1).
  erewrite bind_eq by exact Hr. rewrite (proj2 (Z.ltb_ge _ _)) by done. clear Hr.
  pose proof (fr_mounted _ _ _ _ _ _ F1) as M1. pose proof (frame_geo _ _ _ _ _ _ F1) as G1.
  assert (wp (write_fat_entry n 0) (λ r s', r = 0 ∧ ∃ v', frame v1 (fs_files s1) (fs_channels s1) s1 v' s' ∧
    quiet v1 v' ∧ rewritten {[n := 0]} (v_geo v1) s1 s') s1) as H.
  { eapply wp_entry_write; [done|by rewrite G1|by left|]. eauto 10. }
  apply wp_done in H as (? & s2 & Hr & -> & v2 & F2 & Q2 & R2).
  erewrite bind_eq by exact Hr. simpl. clear Hr. pose proof (fr_mounted _ _ _ _ _ _ F2) as M2.
  destruct (step_trans _ _ _ _ _ _ _ _ _ _ _ _ F1 R1 F2 R2) as [F12 R12]. rewrite (right_id_L ∅ (∪)) in R12.
  destruct (frame_counters s2 v2 (u32 (v_free_clusters v2 + 1)) (v_next_free v2) true M2) as [F3 R3].
  match type of F3 with frame _ _ _ _ ?vv _ => set (v3 := vv) in * end.
  match type of F3 with frame _ _ _ _ _ ?ss => set (s3 := ss) in * end.
  destruct (step_trans _ _ _ _ _ _ _ _ _ _ _ _ F12 R12 F3 R3) as [F R]. rewrite (left_id_L ∅ (∪)) in R.
  rewrite (frame_files _ _ _ _ _ _ F12), (frame_channels _ _ _ _ _ _ F12),
    (frame_files _ _ _ _ _ _ F1), (frame_channels _ _ _ _ _ _ F1) in F.
  exists v3, s3. split; [|split; [exact F|split; [exact R|split; [|done]]]].
  - unfold s3, v3, modv, getv, mbind, M_bind, gets, modify. rewrite (mounted_vol _ _ M2). by destruct v2.
  - unfold v3. simpl. by rewrite Q2, Q1.
Qed.

Lemma u32_add a b : u32 (u32 a + b) = u32 (a + b).
Proof. unfold u32. by rewrite Zplus_mod_idemp_l. Qed.

Lemma wp_delete_chain k s v n l (Q : Z → fs W → Prop) :
  mounted s v → chain (v_geo v) (table s) n l → (length l ≤ k)%nat →
  (∀ v' s', frame v (fs_files s) (fs_channels s) s v' s' → rewritten (freed l) (v_geo v) s s' →
     v_free_clusters v' = u32 (v_free_clusters v + Z.of_nat (length l)) → v_fsinfo_changed v' = true →
     Q 0 s') →
  wp (delete_chain k n) Q s.
Proof.
  intros M Hl. revert k s v n M Hl Q. induction l as [|x l IH]; intros k s v n M Hl Q Hk HQ; [by inversion Hl|].
  destruct k as [|k]; [simpl in Hk; lia|]. pose proof (chain_head _ _ _ _ Hl) as [= ->].
  pose proof (chain_NoDup _ _ _ _ (λ x, cluster_not_eoc s v x M) Hl) as Hnd.
  apply NoDup_cons in Hnd as [Hni Hnd].
  destruct (delete_chain_step s v n k M) as (v1 & s1 & Heq & F1 & R1 & Hfc & Hch);
    [by eapply cluster_in_table, chain_first|].
  unfold wp. rewrite Heq. change (wp (if table s n =? FAT_EOC then mret 0 else delete_chain k (table s n)) Q s1).
  pose proof (frame_geo _ _ _ _ _ _ F1) as G1.
  inversion Hl as [a Hn HT E1 E2|a m b Hn HT Hl' E1 E2]; subst.
  - rewrite HT, Z.eqb_refl. apply wp_ret, (HQ v1 s1); [done| |done|done]. by rewrite freed_one.
  - rewrite (proj2 (Z.eqb_neq _ _)) by exact (cluster_not_eoc s v _ M (chain_first _ _ _ _ Hl')).
    eapply (IH k s1 v1); [apply F1| |simpl in Hk; lia|].
    + rewrite G1. eapply chain_ext; [|exact Hl']. intros x Hx. symmetry.
      rewrite (rewritten_table _ s v s1 v1 x M (mounted_vol _ _ (fr_mounted _ _ _ _ _ _ F1)) G1 R1).
      * rewrite lookup_singleton_ne; [done|]. by intros ->.
      * apply cluster_in_table. apply chain_cluster in Hl'. by eapply Forall_forall in Hl'.
    + intros v2 s2 F2 R2 Hfc2 Hch2. destruct (step_trans _ _ _ _ _ _ _ _ _ _ _ _ F1 R1 F2 R2) as [F R].
      rewrite freed_cons in R. rewrite (frame_files _ _ _ _ _ _ F1), (frame_channels _ _ _ _ _ _ F1) in F.
      apply (HQ v2 s2); [done|done| |done]. rewrite Hfc2, Hfc, u32_add. f_equal. simpl length. lia.
Qed.

(** Entry 0 is no cluster: it holds the media byte, which reads as the end of a
    chain. Deleting from it clears it, and deleting from it again never ends. *)
Lemma delete_chain_zero_once k s v :
  mounted s v → table s 0 = FAT_EOC →
  wp (delete_chain (S k) 0) (λ r s', r = 0 ∧ table s' 0 = 0 ∧
    ∃ v', mounted s' v' ∧ v_free_clusters v' = u32 (v_free_clusters v + 1)) s.
Proof.
  intros M HT. pose proof (fo_clusters _ _ (mt_fat _ _ M)) as Hdc.
  assert (in_table (v_geo v) 0) as H0 by (unfold in_table; lia).
  destruct (delete_chain_step s v 0 k M H0) as (v' & s' & Heq & F & R & Hfc & Hch).
  unfold wp. rewrite Heq, HT. simpl.
  pose proof (fr_mounted _ _ _ _ _ _ F) as M'.
  rewrite (rewritten_table _ s v s' v' 0 M (mounted_vol _ _ M') (frame_geo _ _ _ _ _ _ F) R H0).
  rewrite lookup_singleton_eq. eauto.
Qed.

Lemma delete_chain_zero_again k s v : mounted s v → table s 0 = 0 → delete_chain k 0 s = NoFuel.
Proof.
  revert s v. induction k as [|k IH]; intros s v M HT; [done|].
  pose proof (fo_clusters _ _ (mt_fat _ _ M)) as Hdc.
  assert (in_table (v_geo v) 0) as H0 by (unfold in_table; lia).
  destruct (delete_chain_step s v 0 k M H0) as (v' & s' & -> & F & R & _).
  rewrite HT. simpl. pose proof (fr_mounted _ _ _ _ _ _ F) as M'. apply (IH s' v' M').
  rewrite (rewritten_table _ s v s' v' 0 M (mounted_vol _ _ M') (frame_geo _ _ _ _ _ _ F) R H0).
  by rewrite lookup_singleton_eq.
Qed.
End delete.

(** * Changes of the world that leave the disk alone *)

Section world.
Context {W : Type} `{FW : FatWorld W} `{FD : !FixedDisk W}.
Implicit Types (s : fs W) (v : Volume) (w : W) (g : Geometry) (c : Cache).

Definition same_disk w w' : Prop := disk_size w' = disk_size w ∧ ∀ n, disk w' n = disk w n.

Lemma same_disk_trans w1 w2 w3 : same_disk w1 w2 → same_disk w2 w3 → same_disk w1 w3.
Proof. intros [E1 H1] [E2 H2]. split; [congruence|]. intros n. by rewrite H2. Qed.

Lemma cinv_disk_eq g X c w w' : cinv g X c w → same_disk w w' → cinv g X c w' ∧ ∀ n, view g c w' n = view g c w n.
Proof.
  intros I [Hsz Hd]. split.
  - destruct I as [? ? ? ? Hb ? Hcl]. split; try done.
    + by rewrite Hsz.
    + intros k b Hk. destruct (Hb k b Hk) as [? ? Hv]. split; [done..|]. by rewrite Hsz.
    + intros k b n. rewrite Hd. by apply Hcl.
  - intros n. unfold view. destruct (find_from _ _ _); [done|]. apply Hd.
Qed.

(** A change of the memory and of the world that leaves the buffers and the
    disk alone. *)
Lemma mounted_same_disk s v s' v' :
  mounted s v → fs_vol s' = Some v' → v_geo v' = v_geo v → v_cache v' = v_cache v →
  same_disk (fs_world s) (fs_world s') →
  mounted s' v' ∧ (∀ x, volume_bytes s' x = volume_bytes s x) ∧
  (∀ k n, entry s' k n = entry s k n) ∧ ∀ n, table s' n = table s n.
Proof.
  intros [[Hv I] Hf Hd Hb] Hv' Hg Hc Hw. destruct (cinv_disk_eq _ _ _ _ _ I Hw) as [I' V'].
  assert (∀ x, volume_bytes s' x = volume_bytes s x) as Hx.
  { intros x. rewrite (volume_bytes_view s v), (volume_bytes_view s' v') by done.
    unfold image. by rewrite Hg, Hc, V'. }
  assert (∀ k n, entry s' k n = entry s k n) as He.
  { intros k n. unfold entry. rewrite Hv, Hv', Hg. unfold fat_entry. f_equal.
    apply entry_bits_agree. intros x _. apply Hx. }
  split_and!; [|done|done|].
  - split; [split; [done|by rewrite Hg, Hc]| | |].
    1, 2: by rewrite Hg, (proj1 Hw).
    intros x Hp. rewrite Hx. by apply Hb.
  - intros n. unfold table. by rewrite Hv, Hv', Hg, He.
Qed.

Lemma wp_call_s {A} (f : W → A * W) s (Q : A → fs W → Prop) :
  Q (f (fs_world s)).1 (s <| fs_world := (f (fs_world s)).2 |>) → wp (call f) Q s.
Proof. done. Qed.


Lemma frame_world s v w' :
  mounted s v → same_disk (fs_world s) w' →
  let s' := s <| fs_world := w' |> in
  frame v (fs_files s) (fs_channels s) s v s' ∧ rewritten ∅ (v_geo v) s s'.
Proof.
  intros M Hw. cbv zeta. pose proof (mounted_vol _ _ M) as Hv.
  destruct (mounted_same_disk s v (s <| fs_world := w' |>) v M) as (M' & Hx & He & Ht); try done.
  split.
  - split; [done|by destruct v| |apply Hw]. destruct s. simpl in *. by subst.
  - by apply rewritten_same.
Qed.
End world.

(** * Cutting a chain *)

Section cut.
Context {W : Type} `{FW : FatWorld W} `{FD : !FixedDisk W} `{FL : Fuel}.
Implicit Types (s : fs W) (v : Volume) (g : Geometry).

(** A chain up to one of its clusters, once that is marked as the last. *)
Lemma chain_cut g T T' n l1 x l2 :
  chain g T n (l1 ++ x :: l2) → (∀ y, y ∈ l1 → T' y = T y) → T' x = FAT_EOC → chain g T' n (l1 ++ [x]).
Proof.
  revert n. induction l1 as [|y l1 IH]; intros n H He Hx.
  - pose proof (chain_head _ _ _ _ H) as [= ->]. apply chain_last; [by eapply chain_first|done].
  - pose proof (chain_head _ _ _ _ H) as [= ->]. simpl in *. destruct l1 as [|z l1].
    + inversion H as [|? m ? Hn HT Hc]; subst. eapply chain_next; [done| |apply IH; [exact Hc|set_solver|done]].
      apply He. set_solver.
    + inversion H as [|? m ? Hn HT Hc]; subst. eapply chain_next; [done| |apply IH; [exact Hc|set_solver|done]].
      apply He. set_solver.
Qed.

(** No entry exists past the last cluster. *)
Lemma read_entry_outside s v n :
  mounted s v → v_data_clusters (v_geo v) + 1 < n → read_fat_entry n s = Done (- ENXIO) s.
Proof.
  intros M Hn. pose proof (mounted_vol _ _ M) as Hv. pose proof (fo_clusters _ _ (mt_fat _ _ M)) as Hdc.
  assert (∀ A (f : Geometry → A), geo f s = Done (f (v_geo v)) s) as Hgeo.
  { intros A f. unfold geo, getv, mbind, M_bind, gets. by rewrite Hv. }
  assert ((u32 (v_data_clusters (v_geo v) + 1) <? n) = true) as Hlt.
  { rewrite u32_small by lia. lia. }
  unfold read_fat_entry, fat_read_fn. do 2 (erewrite bind_eq by apply Hgeo).
  destruct (v_fat_type (v_geo v)); unfold fat12_read, fat16_read, fat32_read;
    (erewrite bind_eq by apply Hgeo); unfold id, fat12_seek, fat16_seek, fat32_seek; by rewrite Hlt.
Qed.

(** The cluster [x] becomes the last one, those after it are freed. *)
Lemma wp_delete_file_clusters s v f y first l1 x l2 (Q : Z → fs W → Prop) :
  mounted s v → fs_files s !! f = Some y → chain (v_geo v) (table s) first (l1 ++ x :: l2) → l2 ≠ [] →
  (length l2 ≤ fuel)%nat →
  (∀ v' s', frame v (fs_files s) (fs_channels s) s v' s' →
     rewritten (freed l2 ∪ {[x := FAT_EOC]}) (v_geo v) s s' →
     v_free_clusters v' = u32 (v_free_clusters v + Z.of_nat (length l2)) → Q 0 s') →
  wp (fat_delete_file_clusters f x) Q s.
Proof.
  intros M Hf Hc Hne Hfuel HQ. pose proof (chain_cluster _ _ _ _ Hc) as Hcl.
  pose proof (chain_NoDup _ _ _ _ (λ z, cluster_not_eoc s v z M) Hc) as Hnd.
  assert (cluster (v_geo v) x) as Hx by (eapply Forall_forall; [exact Hcl|set_solver]).
  destruct l2 as [|y2 l2]; [done|].
  assert ((l1 ++ x :: y2 :: l2) !! length l1 = Some x) as Hlx by by rewrite list_lookup_middle.
  pose proof (chain_suffix _ _ _ _ _ _ Hc Hlx) as Hsuf. rewrite drop_app_length in Hsuf.
  inversion Hsuf as [|? m ? Hn HT Hc2]; subst. set (m := table s x) in *.
  unfold fat_delete_file_clusters. apply wp_bind. eapply wp_getfile; [done|].
  assert (nz x = true) as -> by (unfold nz, cluster in *; lia).
  apply wp_check. eapply wp_entry_read; [done|by apply cluster_in_table|].
  intros v1 s1 F1 Q1 R1. pose proof (table_nonneg s v x M (cluster_in_table _ _ Hx)) as Hpos.
  split; [lia|]. intros _. fold m. pose proof (fr_mounted _ _ _ _ _ _ F1) as M1.
  pose proof (frame_geo _ _ _ _ _ _ F1) as G1.
  apply wp_check. eapply wp_entry_write; [done|by rewrite G1; apply cluster_in_table|by right; right|].
  intros v2 s2 F2 Q2 R2. split; [lia|]. intros _. pose proof (frame_geo _ _ _ _ _ _ F2) as G2.
  destruct (step_trans _ _ _ _ _ _ _ _ _ _ _ _ F1 R1 F2 R2) as [F12 R12]. rewrite (right_id_L ∅ (∪)) in R12.
  pose proof (fr_mounted _ _ _ _ _ _ F2) as M2.
  eapply wp_delete_chain; [exact M2| |exact Hfuel|].
  - rewrite G2, G1. eapply chain_ext; [|exact Hc2]. intros z Hz. symmetry.
    rewrite (rewritten_table _ s v s2 v2 z M (mounted_vol _ _ M2) (frame_geo _ _ _ _ _ _ F12) R12).
    + rewrite lookup_singleton_ne; [done|]. intros ->.
      apply NoDup_app in Hnd as (_ & _ & Hnd). apply NoDup_cons in Hnd as [Hni _]. done.
    + apply cluster_in_table. apply chain_cluster in Hc2. by eapply Forall_forall in Hc2.
  - intros v3 s3 F3 R3 Hfc _. destruct (step_trans _ _ _ _ _ _ _ _ _ _ _ _ F12 R12 F3 R3) as [F R].
    rewrite (frame_files _ _ _ _ _ _ F12), (frame_channels _ _ _ _ _ _ F12),
      (frame_files _ _ _ _ _ _ F1), (frame_channels _ _ _ _ _ _ F1) in F.
    eapply HQ; [exact F|exact R|]. rewrite Hfc, Q2, Q1. done.
Qed.

(** When [x] is the last cluster already, the function goes on with the end mark as if it
    were a cluster, and fails. *)
Lemma wp_delete_file_clusters_last s v f y first l x (Q : Z → fs W → Prop) :
  mounted s v → fs_files s !! f = Some y → chain (v_geo v) (table s) first l → last l = Some x → fuel ≠ 0%nat →
  (∀ v' s', frame v (fs_files s) (fs_channels s) s v' s' → quiet v v' → rewritten {[x := FAT_EOC]} (v_geo v) s s' →
     Q (- ENXIO) s') →
  wp (fat_delete_file_clusters f x) Q s.
Proof.
  intros M Hf Hc Hl Hfuel HQ. pose proof (chain_cluster _ _ _ _ Hc) as Hcl.
  assert (cluster (v_geo v) x) as Hx by (eapply Forall_forall; [exact Hcl|by apply last_Some_elem_of]).
  pose proof (chain_end _ _ _ _ _ Hc Hl) as HT.
  unfold fat_delete_file_clusters. apply wp_bind. eapply wp_getfile; [done|].
  assert (nz x = true) as -> by (unfold nz, cluster in *; lia).
  apply wp_check. eapply wp_entry_read; [done|by apply cluster_in_table|].
  intros v1 s1 F1 Q1 R1. rewrite HT. split; [done|]. intros _.
  pose proof (fr_mounted _ _ _ _ _ _ F1) as M1. pose proof (frame_geo _ _ _ _ _ _ F1) as G1.
  apply wp_check. eapply wp_entry_write; [done|by rewrite G1; apply cluster_in_table|by right; right|].
  intros v2 s2 F2 Q2 R2. split; [lia|]. intros _. pose proof (fr_mounted _ _ _ _ _ _ F2) as M2.
  destruct (step_trans _ _ _ _ _ _ _ _ _ _ _ _ F1 R1 F2 R2) as [F12 R12]. rewrite (right_id_L ∅ (∪)) in R12.
  rewrite (frame_files _ _ _ _ _ _ F1), (frame_channels _ _ _ _ _ _ F1) in F12.
  unfold fat_delete_clusters. destruct (fuel : nat) as [|k]; [done|]. cbn [delete_chain].
  unfold wp. erewrite bind_eq.
  2: { apply (read_entry_outside s2 v2); [done|]. rewrite (frame_geo _ _ _ _ _ _ F2), G1.
       pose proof (fo_clusters _ _ (mt_fat _ _ M)). unfold FAT_EOC. lia. }
  simpl. eapply HQ; [exact F12| |exact R12]. by rewrite Q2, Q1.
Qed.
End cut.
