(* ===== verification/FatFile.v ===== *)
(** Access to open files ([src/fd32/modules/fat/file.c]): seek, read, write,
    truncate, attributes and time stamps. *)
From S2P Require Import Prelude Errno Lists Slab FatTypes FatBuffer FatAlloc.

Definition SEEK_SET : Z := 0.
Definition SEEK_CUR : Z := 1.
Definition SEEK_END : Z := 2.
Definition UINT16_MAX : Z := 65535.
Definition UINT32_MAX : Z := 4294967295.

Definition IS_NOT_READABLE (c : Channel) : bool :=
  negb (Z.land (c_flags c) O_ACCMODE =? O_RDONLY) && negb (Z.land (c_flags c) O_ACCMODE =? O_RDWR).
Definition IS_NOT_WRITEABLE (c : Channel) : bool :=
  negb (Z.land (c_flags c) O_ACCMODE =? O_RDWR) && negb (Z.land (c_flags c) O_ACCMODE =? O_WRONLY).

(** A directory is exempt from the end-of-file tests on the file size. *)
Definition is_dir (f : File) : bool := has (de_attr (f_de f)) FAT_ADIR.

(** Parameters of get/set attributes ([fd32_fs_attr_t] of filesys.h). *)
Record fd32_fs_attr_t := mkFsAttr {
  a_Size : Z; a_Attr : Z; a_MDate : Z; a_MTime : Z; a_ADate : Z; a_CDate : Z; a_CTime : Z;
  a_CHund : Z }.
#[export] Instance fs_attr_eta : Eta fd32_fs_attr_t := λ r,
  mkFsAttr (a_Size r) (a_Attr r) (a_MDate r) (a_MTime r) (a_ADate r) (a_CDate r) (a_CTime r)
    (a_CHund r).
Definition sizeof_fs_attr : Z := 20.

(** DOS time stamps of a date and a time. *)
Definition dos_date (day mon year : Z) : Z :=
  u16 (Z.land day 0x1F + Z.shiftl (Z.land mon 0x0F) 5 + Z.shiftl (Z.land (year - 1980) 0xFF) 9).
Definition dos_time (hour min sec : Z) : Z :=
  u16 (Z.land (sec / 2) 0x1F + Z.shiftl (Z.land min 0x3F) 5 + Z.shiftl (Z.land hour 0x1F) 11).
Definition dos_hund (sec hund : Z) : Z := u8 (hund + sec mod 2 * 100).

Section file.
Context {W : Type} `{FatWorld W} `{Fuel}.
Notation FM := (M (fs W)).

(** Returns [*dos_time], [*dos_date] and [*dos_hund]; the caller ignores those
    it passes a null pointer for. *)
Definition fat_timestamps : FM (Z * Z * Z) :=
  d ← call fd32_get_date;
  t ← call fd32_get_time;
  let '(day, mon, year) := d in
  let '(hour, min, sec, hund) := t in
  mret (dos_time hour min sec, dos_date day mon year, dos_hund sec hund).

Definition fat_lseek (c offset whence : Z) : FM Z :=
  guard_ret (negb (nz c)) (- EFAULT) (
  ch ← getchannel c;
  guard_ret (negb (c_magic ch =? FAT_CHANNEL_MAGIC)) (- EBADF) (
  f ← getfile (c_f ch);
  let res :=
    if whence =? SEEK_SET then offset
    else if whence =? SEEK_CUR then offset + c_file_pointer ch
    else if whence =? SEEK_END then
      if negb (is_dir f) then offset + de_file_size (f_de f) else - EINVAL
    else - EINVAL in
  guard_ret (res <? 0) (- EINVAL) (
  modchannel c (λ ch, ch <| c_file_pointer := res |>);;
  mret res))).

(** * Read *)

(** How many bytes one iteration transfers. *)
Definition read_count (g : Geometry) (f : File) (size k offset : Z) : Z :=
  let byte_in_sector := Z.land offset (v_bytes_per_sector g - 1) in
  let count := u32 (v_bytes_per_sector g - byte_in_sector) in
  let count := if negb (is_dir f) && (de_file_size (f_de f) <=? offset + count)
               then u32 (de_file_size (f_de f) - offset) else count in
  if size <? u32 (k + count) then u32 (size - k) else count.

(** [while (k < size)]. Every iteration transfers at least one byte, so [size]
    iterations are enough. Returns the error or 0, [offset], [k] and the bytes
    stored in the buffer so far. *)
Fixpoint read_loop (n : nat) (c size k offset : Z) (b : option nat) (acc : bytes)
    : FM (Z * Z * Z * bytes) :=
  if size <=? k then mret (0, offset, k, acc)
  else match n with
  | O => nofuel
  | S n =>
      ch ← getchannel c;
      f ← getfile (c_f ch);
      g ← geo id;
      if negb (is_dir f) && (de_file_size (f_de f) <=? offset) then mret (0, offset, k, acc)
      else
        r ← fat_get_file_sector c (u32 (Z.shiftr offset (v_log_bytes_per_sector g)));
        let '(res, sector) := r in
        if res <? 0 then mret (res, offset, k, acc)
        else if 0 <? res then mret (0, offset, k, acc)
        else
          let byte_in_sector := Z.land offset (v_bytes_per_sector g - 1) in
          let count := read_count g f size k offset in
          r ← fat_readbuf sector b false;
          let '(res, b) := r in
          if res <? 0 then mret (res, offset, k, acc)
          else
            b' ← deref b;
            l ← read_data b' (res + byte_in_sector) count;
            read_loop n c size (u32 (k + count)) (offset + count) b (acc ++ l)
  end.

(** Returns the C result and the bytes stored at [buffer]. *)
Definition fat_read (c : Z) (buffer : bool) (size : Z) : FM (Z * bytes) :=
  ch ← getchannel c;
  f ← getfile (c_f ch);
  guard_ret (negb (nz c) || negb buffer) (- EFAULT, []) (
  guard_ret (negb (c_magic ch =? FAT_CHANNEL_MAGIC)) (- EBADF, []) (
  guard_ret (IS_NOT_READABLE ch) (- EBADF, []) (
  r ← read_loop (Z.to_nat size) c size 0 (c_file_pointer ch) None [];
  let '(res, offset, k, acc) := r in
  guard_ret (res <? 0) (res, acc) (
  (if negb (has (c_flags ch) O_NOATIME) && negb (is_dir f) then
     t ← fat_timestamps;
     let '(_, acc_date, _) := t in
     modfile (c_f ch) (λ f, f <| f_de ::= λ d, d <| de_acc_date := acc_date |> |>
                              <| f_de_changed := true |>)
   else mret ());;
  modchannel c (λ ch, ch <| c_file_pointer := offset |>);;
  mret (s32 k, acc))))).

(** * Write *)

(** [while (k < size)]; a null [buffer] writes zeroes. Returns the error or 0,
    and [k]. *)
Fixpoint write_loop (n : nat) (c : Z) (buffer : option bytes) (size k offset : Z)
    (b : option nat) : FM (Z * Z) :=
  if size <=? k then mret (0, k)
  else match n with
  | O => nofuel
  | S n =>
      ch ← getchannel c;
      f ← getfile (c_f ch);
      g ← geo id;
      r ← fat_get_file_sector c (u32 (Z.shiftr offset (v_log_bytes_per_sector g)));
      let '(res, sector) := r in
      if 0 <? res then
        res ← fat_append_cluster c;
        if (res =? - ENOSPC) && nz k then mret (0, k)
        else if res <? 0 then mret (res, k)
        else write_loop n c buffer size k offset b
      else if res <? 0 then mret (res, k)
      else
        let byte_in_sector := Z.land offset (v_bytes_per_sector g - 1) in
        let count := u32 (v_bytes_per_sector g - byte_in_sector) in
        let count := if size <? u32 (k + count) then u32 (size - k) else count in
        (if negb (is_dir f) && (de_file_size (f_de f) <=? offset + count) then
           modfile (c_f ch) (λ f, f <| f_de ::= λ d, d <| de_file_size := u32 (offset + count) |> |>)
         else mret ());;
        r ← fat_readbuf sector b false;
        let '(res, b) := r in
        if res <? 0 then mret (res, k)
        else
          b' ← deref b;
          (match buffer with
           | Some l =>
               if in_block l k count then write_data b' (res + byte_in_sector) (slice l k count)
               else fault
           | None => write_data b' (res + byte_in_sector) (zeroes count)
           end);;
          res ← fat_dirtybuf b' (has (c_flags ch) O_FSYNC);
          if res <? 0 then mret (res, k)
          else write_loop n c buffer size (u32 (k + count)) (offset + count) b
  end.

Definition fat_do_write (c : Z) (buffer : option bytes) (size offset : Z) : FM Z :=
  ch ← getchannel c;
  f ← getfile (c_f ch);
  guard_ret (offset <? 0) (- EINVAL) (
  guard_ret (negb (nz size)) 0 (
  guard_ret (if is_dir f then UINT16_MAX * sizeof_direntry <? offset + size
             else UINT32_MAX <? offset + size) (- EFBIG) (
  r ← write_loop fuel c buffer size 0 offset None;
  let '(res, k) := r in
  guard_ret (res <? 0) res (
  f ← getfile (c_f ch);
  (if negb (is_dir f) then
     t ← fat_timestamps;
     let '(time, date, _) := t in
     modfile (c_f ch) (λ f, f <| f_de ::= λ d,
       d <| de_mod_time := time |> <| de_mod_date := date |> <| de_acc_date := date |>
         <| de_attr ::= λ a, Z.lor a FAT_AARCHIV |> |> <| f_de_changed := true |>)
   else mret ());;
  res ←? (if has (c_flags ch) O_SYNC then fat_sync else mret 0);
  mret (s32 k))))).

Definition fat_write (c : Z) (buffer : option bytes) (size : Z) : FM Z :=
  guard_ret (negb (nz c) || negb (bool_decide (is_Some buffer))) (- EFAULT) (
  ch ← getchannel c;
  guard_ret (negb (c_magic ch =? FAT_CHANNEL_MAGIC)) (- EBADF) (
  f ← getfile (c_f ch);
  guard_ret (IS_NOT_WRITEABLE ch) (- EBADF) (
  guard_ret (is_dir f) (- EBADF) (
  guard_ret (negb (nz size)) 0 (
  (if has (c_flags ch) O_APPEND then
     modchannel c (λ ch, ch <| c_file_pointer := de_file_size (f_de f) |>)
   else mret ());;
  ch ← getchannel c;
  let fsize := de_file_size (f_de f) in
  pad ← (if fsize <? c_file_pointer ch then
           res ← fat_do_write c None (u32 (c_file_pointer ch - fsize)) fsize;
           (* the file size is read again, after the padding changed it *)
           f ← getfile (c_f ch);
           ch ← getchannel c;
           if res <? c_file_pointer ch - de_file_size (f_de f) then mret (inl res)
           else mret (inr res)
         else mret (inr 0));
  match pad with
  | inl res => mret res
  | inr num_written =>
      ch ← getchannel c;
      res ←? fat_do_write c buffer size (c_file_pointer ch);
      modchannel c (λ ch, ch <| c_file_pointer ::= λ p, p + res |>);;
      mret (s32 (num_written + res))
  end))))).

(** [for (c = channels_open.begin; c; c = c->next)] *)
Fixpoint reset_cached_cluster (f : Z) (open : list Z) : FM () :=
  match open with
  | [] => mret ()
  | c :: open =>
      ch ← getchannel c;
      (if c_f ch =? f then modchannel c (λ ch, ch <| c_cluster_index := 0 |>) else mret ());;
      reset_cached_cluster f open
  end.

Definition fat_ftruncate (c length : Z) : FM Z :=
  guard_ret (negb (nz c) || (length <? 0)) (- EINVAL) (
  ch ← getchannel c;
  guard_ret (IS_NOT_WRITEABLE ch) (- EBADF) (
  let f := c_f ch in
  x ← getfile f;
  guard_ret (is_dir x) (- EBADF) (
  let fsize := de_file_size (f_de x) in
  if length <? fsize then
    lb ← geo v_log_bytes_per_sector;
    r ← (if nz length then
           r ← fat_get_file_sector c (u32 (Z.shiftr (length - 1) lb));
           let res := fst r in
           if res <? 0 then mret (inl res)
           else if 0 <? res then mret (inl (- EIO))
           else ch ← getchannel c; mret (inr (c_cluster ch))
         else mret (inr 0));
    match r with
    | inl res => mret res
    | inr new_last_cluster =>
        res ←? fat_delete_file_clusters f new_last_cluster;
        t ← fat_timestamps;
        let '(time, date, _) := t in
        modfile f (λ f, f <| f_de ::= λ d,
          d <| de_mod_time := time |> <| de_mod_date := date |> <| de_acc_date := date |>
            <| de_file_size := u32 length |> <| de_attr ::= λ a, Z.lor a FAT_AARCHIV |> |>
          <| f_de_changed := true |>);;
        res ←? (if has (c_flags ch) O_SYNC then fat_sync else mret 0);
        v ← getv;
        reset_cached_cluster f (v_channels_open v);;
        mret 0
    end
  else if fsize <? length then fat_do_write c None (u32 (length - fsize)) fsize
  else mret 0))).

(** * Attributes *)

Definition fat_get_attr (c : Z) (a : fd32_fs_attr_t) : FM (Z * fd32_fs_attr_t) :=
  ch ← getchannel c;
  guard_ret (negb (c_magic ch =? FAT_CHANNEL_MAGIC)) (- EBADF, a) (
  f ← getfile (c_f ch);
  guard_ret (a_Size a <? sizeof_fs_attr) (- EINVAL, a) (
  let d := f_de f in
  mret (0, mkFsAttr (a_Size a) (de_attr d) (de_mod_date d) (de_mod_time d) (de_acc_date d)
             (de_cre_date d) (de_cre_time d) (de_cre_time_hund d)))).

Definition fat_set_attr (c : Z) (a : fd32_fs_attr_t) : FM Z :=
  ch ← getchannel c;
  f ← getfile (c_f ch);
  guard_ret (a_Size a <? sizeof_fs_attr) (- EINVAL) (
  modfile (c_f ch) (λ f, f <| f_de ::= λ d,
    d <| de_attr := u8 (a_Attr a) |> <| de_mod_date := a_MDate a |> <| de_mod_time := a_MTime a |>
      <| de_acc_date := a_ADate a |> <| de_cre_date := a_CDate a |>
      <| de_cre_time := a_CTime a |> <| de_cre_time_hund := u8 (a_CHund a) |> |>
    <| f_de_changed := true |>);;
  mret 0).
End file.
