(* ===== verification/FatNames.v ===== *)
(** File names of the FAT driver ([src/fd32/modules/fat/dir.c]): conversion to
    and from the FCB format of short names, long names in directory slots, and
    the short alias of a long name.

    A pointer into a string is the list of the bytes from there on, with the
    number of bytes the caller allows next to it, as in the code. *)
From S2P Require Import Prelude Errno Unicode Nls FatTypes.
Import Utf8 Utf16.

(** * Short names *)

(** The string of the characters not allowed in a short name. *)
Definition invalid_sfn_characters : list Z :=
  [34; 43; 44; 46; 47; 58; 59; 60; 61; 62; 91; 92; 93; 124; 42; 63].

Definition is_invalid_sfn (c : Z) : bool := existsb (Z.eqb c) invalid_sfn_characters.

(** [while ( *src && src_size)]: [dest] is the whole name, [pos] the offset the
    part is written at. Every iteration consumes a byte of [src], so the length
    of [src] bounds the iterations. *)
Fixpoint build_part_loop (n : nat) (nls : nls_operations) (dest : bytes) (pos dest_size : Z)
    (src : bytes) (src_size : Z) (wildcards : bool) (res : Z) : Z * bytes :=
  match n with
  | O => (res, dest)
  | S n =>
      if negb (nz (byte_at src 0)) || negb (nz src_size) then (res, dest)
      else
        let '(skip, wc) := unicode_utf8_to_wchar src src_size in
        if skip <? 0 then (skip, dest)
        else
          let src_size := u32 (src_size - skip) in
          let src := drop (Z.to_nat skip) src in
          if wildcards && (wc =? 42) then
            (res, poke dest pos (replicate (Z.to_nat dest_size) 63))
          else
            let '(skip, s) := nls_wctomb nls wc dest_size in
            let dest := if 0 <? skip then poke dest pos s else dest in
            let c := byte_at dest pos in
            if (0 <? skip) && (c <? 0x20) then (- EINVAL, dest)
            else if (0 <? skip) && negb (wildcards && (c =? 63)) && is_invalid_sfn c
            then (- EINVAL, dest)
            else
              let dest := if 0 <? skip then poke dest pos [u8 (nls_toupper nls c)] else dest in
              let '(skip, dest, res) :=
                if skip =? - EINVAL then
                  let '(skip, s) := nls_wctomb nls 95 dest_size in
                  (skip, (if 0 <? skip then poke dest pos s else dest), 1)
                else (skip, dest, res) in
              if skip =? - ENAMETOOLONG then (1, dest)
              else if skip <? 0 then (skip, dest)
              else build_part_loop n nls dest (pos + skip) (u32 (dest_size - skip))
                     src src_size wildcards res
  end.

Definition build_fcb_name_part (nls : nls_operations) (dest : bytes) (pos dest_size : Z)
    (src : bytes) (src_size : Z) (wildcards : bool) : Z * bytes :=
  build_part_loop (length src) nls dest pos dest_size src src_size wildcards 0.

(** [memchr(src, c, size)], as an offset. *)
Fixpoint memchr (src : bytes) (c : Z) (size : nat) : option nat :=
  match size, src with
  | S size, b :: src => if b =? c then Some O else option_map S (memchr src c size)
  | _, _ => None
  end.

(** After [src = dot + 1], [dot - src + 1] is zero: [src_size] is not reduced. *)
Definition fat_build_fcb_name (nls : nls_operations) (src : bytes) (src_size : Z)
    (wildcards : bool) : Z * bytes :=
  let dest := replicate 11 0x20 in
  if (src_size =? 1) && (byte_at src 0 =? 46) then (0, poke dest 0 [46])
  else if (src_size =? 2) && (le16_at src 0 =? 0x2E2E) then (0, poke dest 0 (le16 0x2E2E))
  else
    let finish res1 res2 dest :=
      if byte_at dest 0 =? 32 then (- EINVAL, dest)
      else
        let dest := if byte_at dest 0 =? FAT_FREEENT then poke dest 0 [0x05] else dest in
        ((if nz res1 || nz res2 then 1 else 0), dest) in
    match memchr src 46 (Z.to_nat src_size) with
    | Some dot =>
        let '(res1, dest) := build_fcb_name_part nls dest 0 8 src (Z.of_nat dot) wildcards in
        if res1 <? 0 then (res1, dest)
        else
          let src := drop (S dot) src in
          let src_size := u32 (src_size - (-1 + 1)) in
          let '(res2, dest) := build_fcb_name_part nls dest 8 3 src src_size wildcards in
          if res2 <? 0 then (res2, dest) else finish res1 res2 dest
    | None =>
        let '(res1, dest) := build_fcb_name_part nls dest 0 8 src src_size wildcards in
        if res1 <? 0 then (res1, dest) else finish res1 0 dest
    end.

(** [for (end = source + k; *end == ' '; end--) if (end == source) return -EINVAL] *)
Fixpoint skip_spaces (source : bytes) (k : nat) : option nat :=
  if byte_at source (Z.of_nat k) =? 32 then
    match k with O => None | S k => skip_spaces source k end
  else Some k.

(** The null-terminated string [aux]: name, dot, extension. *)
Definition fcb_to_string (source : bytes) (name_end ext_end : nat) : bytes :=
  let esc := byte_at source 0 =? 0x05 in
  let s := if esc then 1 else 0 in
  (if esc then [FAT_FREEENT] else []) ++
  slice source s (Z.of_nat name_end + 1 - s) ++
  (if (8 <=? ext_end)%nat then [46] else []) ++
  slice source 8 (Z.of_nat ext_end + 1 - 8).

(** [for (a = aux, res = 0; *a; dest++, dest_size--, res++)] *)
Fixpoint expand_loop (n : nat) (nls : nls_operations) (a : bytes) (left : Z) (dest_size res : Z)
    (dest : list Z) : Z * list Z :=
  match n with
  | O => (res, dest)
  | S n =>
      if negb (nz (byte_at a 0)) then (res, dest)
      else if negb (nz dest_size) then (- ENAMETOOLONG, dest)
      else
        let '(skip, wc) := nls_mbtowc nls a left in
        if skip <? 0 then (skip, dest)
        else expand_loop n nls (drop (Z.to_nat skip) a) (left - skip) (dest_size - 1) (res + 1)
               (dest ++ [wc])
  end.

Definition expand_fcb_name (nls : nls_operations) (dest_size : Z) (source : bytes)
    : Z * list Z :=
  match skip_spaces source 7, skip_spaces source 10 with
  | Some name_end, Some ext_end =>
      let aux := fcb_to_string source name_end ext_end in
      expand_loop (length aux) nls aux 13 dest_size 0 []
  | _, _ => (- EINVAL, [])
  end.

(** * Long names *)

Definition LFN_CHARS_PER_SLOT : Z := 13.
(** Byte offsets of the 16-bit characters in a slot. *)
Definition lfn_chars : list Z := [1; 3; 5; 7; 9; 14; 16; 18; 20; 22; 24; 28; 30].

(** Fields of [struct fat_lfnentry] in the 32 bytes of a slot. *)
Definition slot_order (l : bytes) : Z := byte_at l 0.
Definition slot_attr (l : bytes) : Z := byte_at l 11.
Definition slot_checksum (l : bytes) : Z := byte_at l 13.

Definition lfn_checksum (name : bytes) : Z :=
  foldl (λ sum b,
    Z.lor (Z.shiftl (Z.land sum 1) 7) (Z.shiftr (Z.land sum 0xFE) 1) + b) 0 (take 11 name).

(** The state of the character loop of [fetch_lfn]. *)
Record lfn_state := mkLfnState {
  ls_semi : bool;
  ls_wc : Z;
  ls_lfn : list Z;
  ls_length : Z }.

(** [for (j = 0; j < LFN_CHARS_PER_SLOT; j++)]: an error, or the state. *)
Fixpoint fetch_chars (ofs : list Z) (slot : bytes) (s : lfn_state) : Z + lfn_state :=
  match ofs with
  | [] => inr s
  | o :: ofs =>
      let c := Z.lor (byte_at slot o) (Z.shiftl (byte_at slot (o + 1)) 8) in
      if ls_semi s && negb (Z.land c 0xFC00 =? 0xDC00) then inl (- EILSEQ)
      else
        let '(wc, semi) :=
          if negb (ls_semi s) then
            if Z.land c 0xFC00 =? 0xD800
            then (Z.shiftl (Z.land c 0x03FF) 10 + 0x010000, true)
            else (c, false)
          else (Z.lor (ls_wc s) (Z.land c 0x03FF), false) in
        if semi then fetch_chars ofs slot (mkLfnState true wc (ls_lfn s) (ls_length s))
        else if negb (nz wc) then inr (mkLfnState false wc (ls_lfn s) (ls_length s))
        else if ls_length s + 1 =? FAT_LFN_MAX then inl (- ENAMETOOLONG)
        else fetch_chars ofs slot
               (mkLfnState false wc (<[Z.to_nat (ls_length s) := wc]> (ls_lfn s))
                  (ls_length s + 1))
  end.

(** [for (order = 1, k = lud->cde_pos; ; order++)]: the order field is at most
    31, so the loop stops before the 32nd slot. *)
Fixpoint fetch_slots (n : nat) (file_pointer checksum order k : Z) (s : lfn_state)
    (lud : LookupData) : Z * LookupData :=
  match n with
  | O => (0, lud <| lud_lfn := ls_lfn s |>)
  | S n =>
      if negb (nz k) && (file_pointer <? LFN_FETCH_SLOTS * sizeof_direntry)
      then (0, lud <| lud_lfn := ls_lfn s |>)
      else
        let k := (if negb (nz k) then LFN_FETCH_SLOTS else k) - 1 in
        let slot := default [] (lud_cde lud !! Z.to_nat k) in
        if negb (slot_attr slot =? FAT_ALFN)
           || negb (order =? Z.land (slot_order slot) 0x1F)
           || negb (checksum =? slot_checksum slot)
        then (0, lud <| lud_lfn := ls_lfn s |>)
        else
          match fetch_chars lfn_chars slot s with
          | inl e => (e, lud <| lud_lfn := ls_lfn s |>)
          | inr s =>
              if has (slot_order slot) 0x40 then
                (0, lud <| lud_lfn := ls_lfn s |> <| lud_lfn_entries := order |>
                        <| lud_lfn_length := ls_length s |>)
              else fetch_slots n file_pointer checksum (order + 1) k s lud
          end
  end.

Definition fetch_lfn (file_pointer : Z) (lud : LookupData) : Z * LookupData :=
  let checksum := u8 (lfn_checksum (de_name (decode_direntry
    (default [] (lud_cde lud !! Z.to_nat (lud_cde_pos lud)))))) in
  let lud := lud <| lud_lfn_entries := 0 |> <| lud_lfn_length := 0 |> in
  fetch_slots 32 file_pointer checksum 1 (lud_cde_pos lud) (mkLfnState false 0 (lud_lfn lud) 0) lud.

(** The state of [split_lfn]: position in the name and in the slot, order and
    index of the slot, the array of slots. *)
Record split_state := mkSplit {
  sp_name_pos : Z;
  sp_slot_pos : Z;
  sp_order : Z;
  sp_slot : Z;
  sp_cde : list bytes }.

Definition put_slot (cde : list bytes) (slot ofs : Z) (bs : bytes) : list bytes :=
  alter (λ l, poke l ofs bs) (Z.to_nat slot) cde.
Definition char_ofs (slot_pos : Z) : Z := default 0 (lfn_chars !! Z.to_nat slot_pos).

(** The body of [for (k = 0; k < res; k++)] for one 16-bit unit. *)
Definition split_unit (checksum unit : Z) (s : split_state) : Z + split_state :=
  let '(slot_pos, slot) :=
    if sp_slot_pos s =? LFN_CHARS_PER_SLOT then (0, sp_slot s - 1)
    else (sp_slot_pos s, sp_slot s) in
  let '(order, cde) :=
    if negb (nz slot_pos) then
      let order := sp_order s + 1 in
      (order,
       put_slot (put_slot (put_slot (sp_cde s) slot 0 [u8 order])
                          slot 11 [FAT_ALFN; 0; u8 checksum]) slot 26 (le16 0))
    else (sp_order s, sp_cde s) in
  let cde := put_slot cde slot (char_ofs slot_pos) (le16 unit) in
  let name_pos := sp_name_pos s + 1 in
  if name_pos =? FAT_LFN_MAX then inl (- ENAMETOOLONG)
  else inr (mkSplit name_pos (slot_pos + 1) order slot cde).

Fixpoint split_units (checksum : Z) (units : list Z) (s : split_state) : Z + split_state :=
  match units with
  | [] => inr s
  | u :: units =>
      match split_unit checksum u s with
      | inl e => inl e
      | inr s => split_units checksum units s
      end
  end.

(** [while (fnsize)]; every iteration consumes a byte of the name. *)
Fixpoint split_loop (n : nat) (fn : bytes) (fnsize checksum : Z) (s : split_state)
    : Z + split_state :=
  if negb (nz fnsize) then inr s
  else match n with
  | O => inr s
  | S n =>
      let '(res, wc) := unicode_utf8_to_wchar fn fnsize in
      if res <? 0 then inl res
      else
        let '(res', utf16) := unicode_wchar_to_utf16le wc 2 in
        if res' <? 0 then inl res'
        else match split_units checksum utf16 s with
             | inl e => inl e
             | inr s => split_loop n (drop (Z.to_nat res) fn) (fnsize - res) checksum s
             end
  end.

(** [while (slot_pos < LFN_CHARS_PER_SLOT)]: the padding of the last slot. *)
Fixpoint pad_slot (ofs : list Z) (slot unit : Z) (cde : list bytes) : list bytes :=
  match ofs with
  | [] => cde
  | o :: ofs => pad_slot ofs slot 0xFFFF (put_slot cde slot o (le16 unit))
  end.

Definition split_lfn (fn : bytes) (fnsize checksum : Z) (lud : LookupData) : Z * LookupData :=
  match split_loop (Z.to_nat fnsize) fn fnsize checksum
          (mkSplit 0 0 0 (LFN_FETCH_SLOTS - 2) (lud_cde lud)) with
  | inl e => (e, lud)
  | inr s =>
      let order := slot_order (default [] (sp_cde s !! Z.to_nat (sp_slot s))) in
      let cde := put_slot (sp_cde s) (sp_slot s) 0 [Z.lor order 0x40] in
      let cde := pad_slot (drop (Z.to_nat (sp_slot_pos s)) lfn_chars) (sp_slot s) 0x0000 cde in
      (0, lud <| lud_cde := cde |> <| lud_lfn_entries := sp_order s |>)
  end.

(** * Short aliases *)

Definition valid_lfn_characters : list Z := [0x2B; 0x2C; 0x3B; 0x3D; 0x5B; 0x5D].

(** [while (src_size)] *)
Fixpoint gen_part_loop (n : nat) (nls : nls_operations) (dest : bytes) (pos dest_size : Z)
    (src : bytes) (src_size res : Z) : Z * bytes :=
  if negb (nz src_size) then (res, dest)
  else match n with
  | O => (res, dest)
  | S n =>
      let '(skip, wc) := unicode_utf8_to_wchar src src_size in
      if skip <? 0 then (skip, dest)
      else
        let src_size := u32 (src_size - skip) in
        let src := drop (Z.to_nat skip) src in
        if (wc =? 32) || (wc =? 46) then
          gen_part_loop n nls dest pos dest_size src src_size (Z.lor res 2)
        else
          let '(wc, res) := if existsb (Z.eqb wc) valid_lfn_characters
                            then (95, Z.lor res 2) else (wc, res) in
          let '(skip, s) := nls_wctomb nls wc dest_size in
          let dest := if 0 <? skip then poke dest pos s else dest in
          let c := byte_at dest pos in
          let up := nls_toupper nls c in
          if (0 <? skip) && (0 <=? up) && ((up <? 0x20) || is_invalid_sfn up)
          then (- EINVAL, dest)
          else
            let '(skip, dest, res) :=
              if 0 <? skip then
                if 0 <=? up then
                  (skip, poke dest pos [u8 up], if negb (up =? c) then Z.lor res 1 else res)
                else (- EINVAL, dest, res)
              else (skip, dest, res) in
            let '(skip, dest, res) :=
              if skip =? - EINVAL then
                let '(skip, s) := nls_wctomb nls 95 dest_size in
                (skip, (if 0 <? skip then poke dest pos s else dest), Z.lor res 2)
              else (skip, dest, res) in
            if skip =? - ENAMETOOLONG then (2, dest)
            else if skip <? 0 then (skip, dest)
            else gen_part_loop n nls dest (pos + skip) (u32 (dest_size - skip)) src src_size res
  end.

Definition gen_short_fname_part (nls : nls_operations) (dest : bytes) (pos dest_size : Z)
    (src : bytes) (src_size : Z) : Z * bytes :=
  gen_part_loop (Z.to_nat src_size) nls dest pos dest_size src src_size 0.

(** [for (s++, n--; n--; s++)]: at the body, [i] is the offset of [s] and [n]
    the number of bytes after it. *)
Fixpoint last_dot_from (s : bytes) (i : nat) (k : nat) (dot : option nat) : option nat :=
  match k with
  | O => dot
  | S n =>
      let z := Z.of_nat i in
      let dot := if (byte_at s z =? 46) && negb (byte_at s (z - 1) =? 46) && (1 <? n)%nat
                    && negb (byte_at s (z + 1) =? 46) then Some i else dot in
      last_dot_from s (S i) n dot
  end.

Definition last_embedded_dot (s : bytes) (n : Z) : option nat :=
  if 2 <? n then last_dot_from s 1 (Z.to_nat (n - 1)) None else None.

Definition gen_short_fname1 (nls : nls_operations) (src : bytes) (src_size : Z) : Z * bytes :=
  let dest := replicate 11 0x20 in
  if (src_size =? 1) && (byte_at src 0 =? 46) then (0, poke dest 0 [46])
  else if (src_size =? 2) && bool_decide (slice src 0 2 = [46; 46]) then (0, poke dest 0 [46; 46])
  else
    let finish res1 res2 dest :=
      if byte_at dest 0 =? 32 then (- EINVAL, dest)
      else
        let dest := if byte_at dest 0 =? FAT_FREEENT then poke dest 0 [0x05] else dest in
        (Z.lor res1 res2, dest) in
    match last_embedded_dot src src_size with
    | Some dot =>
        let '(res1, dest) := gen_short_fname_part nls dest 0 8 src (Z.of_nat dot) in
        if res1 <? 0 then (res1, dest)
        else
          let src_size := u32 (src_size - (Z.of_nat dot + 1)) in
          let '(res2, dest) := gen_short_fname_part nls dest 8 3 (drop (S dot) src) src_size in
          if res2 <? 0 then (res2, dest) else finish res1 res2 dest
    | None =>
        let '(res1, dest) := gen_short_fname_part nls dest 0 8 src src_size in
        if res1 <? 0 then (res1, dest) else finish res1 0 dest
    end.

(** * Matching names ([open.c], [dos.c]) *)

(** [while (n1 && n2)] of [compare_without_wildcards]: [n1] bytes of UTF-8
    against [n2] wide characters. *)
Fixpoint compare_loop (fold : Z → Z) (s1 : bytes) (n1 : Z) (s2 : list Z) (n2 : nat) : Z :=
  match n2 with
  | O => if nz n1 then 1 else 0
  | S n2' =>
      if negb (nz n1) then 1
      else
        let '(skip, wc) := unicode_utf8_to_wchar s1 n1 in
        if skip <? 0 then skip
        else if negb (fold wc =? fold (default 0 (head s2))) then 1
        else compare_loop fold (drop (Z.to_nat skip) s1) (n1 - skip) (tail s2) n2'
  end.
