(* ===== verification/FatOpen.v ===== *)
(** Open files of the FAT driver ([src/fd32/modules/fat/open.c]): file
    descriptions shared by their open instances, the cache of directory nodes
    with its reference counts, opening and closing. *)
From S2P Require Import Prelude Errno Lists Nls Slab FatTypes FatBuffer FatAlloc FatFile.
Import Slab.

Definition FD32_OROPEN : Z := 1.

(** [((Cluster) de->first_cluster_hi << 16) | (Cluster) de->first_cluster_lo] *)
Definition de_first_cluster (de : fat_direntry) : Z :=
  Z.lor (Z.shiftl (de_first_cluster_hi de) 16) (de_first_cluster_lo de).

(** A directory entry of zeroes but for the attributes and the first cluster. *)
Definition synthetic_dir (first_cluster : Z) : fat_direntry :=
  (decode_direntry (zeroes 32)) <| de_attr := FAT_ADIR |>
    <| de_first_cluster_hi := u16 (Z.shiftr first_cluster 16) |>
    <| de_first_cluster_lo := u16 first_cluster |>.

Section open.
Context {W : Type} `{FatWorld W} `{Fuel}.
Notation FM := (M (fs W)).

(** * File descriptions *)

Definition file_init (f : Z) (de : fat_direntry) (de_sector de_secofs : Z) : FM () :=
  putfile f (mkFile de false de_sector de_secofs (de_first_cluster de) 0);;
  modv (λ v, v <| v_files_open ::= push_front f |>).

(** The loop condition of [file_get] that stops at an open file. *)
Definition same_file (first de_sector de_secofs : Z) (x : File) : bool :=
  (nz first && (f_first_cluster x =? first))
  || (negb (nz first) && (f_de_sector x =? de_sector) && (f_de_secofs x =? de_secofs)).

Fixpoint find_file (first de_sector de_secofs : Z) (fs : list Z) : FM (option Z) :=
  match fs with
  | [] => mret None
  | f :: fs =>
      x ← getfile f;
      if same_file first de_sector de_secofs x then mret (Some f)
      else find_file first de_sector de_secofs fs
  end.

(** The result of [slabmem_alloc] is not tested. *)
Definition file_get (de : fat_direntry) (de_sector de_secofs : Z) : FM Z :=
  v ← getv;
  r ← find_file (de_first_cluster de) de_sector de_secofs (v_files_open v);
  f ← match r with
      | Some f => mret f
      | None =>
          f ← on_files_slab slabmem_alloc;
          file_init f de de_sector de_secofs;;
          mret f
      end;
  modfile f (λ x, x <| f_references ::= λ n, u32 (n + 1) |>);;
  mret f.

Definition file_put (f : Z) : FM () :=
  modfile f (λ x, x <| f_references ::= λ n, u32 (n - 1) |>);;
  x ← getfile f;
  if f_references x =? 0 then
    modv (λ v, v <| v_files_open ::= erase f |>);;
    free_file f
  else mret ().

(** * Cached directory nodes *)

Definition fat_dget (d : Z) : FM () :=
  moddentry d (λ x, x <| d_references ::= λ n, u32 (n + 1) |>);;
  modv (λ v, v <| v_num_dentries ::= λ n, u32 (n + 1) |>).

Definition dentry_init (d parent de_entcnt de_sector attr lfn_entries : Z) : FM () :=
  putdentry d (mkDentry parent [] 0 de_sector (u16 de_entcnt) (u8 attr) (u8 lfn_entries));;
  fat_dget parent;;
  moddentry parent (λ x, x <| d_children ::= push_front d |>).

Fixpoint find_child (de_entcnt : Z) (ds : list Z) : FM (option Z) :=
  match ds with
  | [] => mret None
  | d :: ds =>
      x ← getdentry d;
      if de_entcnt =? d_de_entcnt x then mret (Some d) else find_child de_entcnt ds
  end.

(** Zero is the null pointer. *)
Definition dentry_get (parent de_entcnt de_sector attr lfn_entries : Z) : FM Z :=
  p ← getdentry parent;
  r ← find_child de_entcnt (d_children p);
  match r with
  | Some d => fat_dget d;; mret d
  | None =>
      d ← on_dentries_slab slabmem_alloc;
      guard_ret (negb (nz d)) 0 (
      dentry_init d parent de_entcnt de_sector attr lfn_entries;;
      fat_dget d;;
      mret d)
  end.

(** [while (d)]: from a node towards the root. *)
Fixpoint dput_loop (k : nat) (d : Z) : FM () :=
  if negb (nz d) then mret ()
  else match k with
  | O => nofuel
  | S k =>
      moddentry d (λ x, x <| d_references ::= λ n, u32 (n - 1) |>);;
      modv (λ v, v <| v_num_dentries ::= λ n, u32 (n - 1) |>);;
      x ← getdentry d;
      if nz (d_references x) then mret ()
      else
        let parent := d_parent x in
        (if nz parent then
           moddentry parent (λ p, p <| d_children ::= erase d |>);;
           free_dentry d
         else mret ());;
        dput_loop k parent
  end.
Definition fat_dput (d : Z) : FM () := dput_loop fuel d.

(** * Channels *)

Definition channel_init (c f d flags : Z) : FM () :=
  putchannel c (mkChannel 0 f FAT_CHANNEL_MAGIC flags 1 0 0 d);;
  modv (λ v, v <| v_channels_open ::= push_front c |>).

Definition channel_get (f d flags : Z) : FM Z :=
  c ← on_channels_slab slabmem_alloc;
  (if nz c then
     channel_init c f d flags;;
     if nz d then fat_dget d else mret ()
   else mret ());;
  mret c.

(** The tail of [fat_open] and [fat_reopen_dir]: an open instance of a file. *)
Definition open_instance (f d flags : Z) : FM (Z * Z) :=
  guard_ret (negb (nz f)) (- ENOMEM, 0) (
  c ← channel_get f d flags;
  if negb (nz c) then file_put f;; mret (- ENOMEM, 0) else mret (0, c)).

(** The permission tests of [fat_open]. *)
Definition open_check (attr flags : Z) : Z :=
  if (has flags O_WRONLY || has flags O_RDWR || has flags O_TRUNC) && has attr FAT_ARDONLY
  then - EACCES
  else if (has flags O_WRONLY || has flags O_RDWR || has flags O_TRUNC)
          && negb (has flags O_DIRECTORY) && has attr FAT_ADIR
  then - EISDIR
  else if has flags O_DIRECTORY && negb (has attr FAT_ADIR) then - ENOTDIR
  else 0.

(** Returns the C result and [*channel], 0 if it is not stored. *)
Definition fat_open (dentry flags : Z) : FM (Z * Z) :=
  x ← getdentry dentry;
  g ← geo id;
  let de_secofs := Z.land (d_de_entcnt x * sizeof_direntry) (v_bytes_per_sector g - 1) in
  let res := open_check (d_attr x) flags in
  guard_ret (res <? 0) (res, 0) (
  r ← (if nz (d_parent x) then
         r ← fat_readbuf (d_de_sector x) None false;
         let '(res, b) := r in
         if res <? 0 then mret (inl res)
         else
           b ← deref b;
           l ← read_data b (res + de_secofs) sizeof_direntry;
           mret (inr (decode_direntry l))
       else mret (inr (synthetic_dir (v_root_cluster g))));
  match r with
  | inl res => mret (res, 0)
  | inr de =>
      f ← file_get de (d_de_sector x) de_secofs;
      open_instance f dentry flags
  end).

Definition fat_reopen_dir (first_cluster entry_count : Z) : FM (Z * Z) :=
  f ← file_get (synthetic_dir first_cluster) 0 0;
  r ← open_instance f 0 (Z.lor O_RDONLY O_DIRECTORY);
  let '(res, c) := r in
  guard_ret (res <? 0) (res, 0) (
  modchannel c (λ ch, ch <| c_file_pointer := Z.shiftl entry_count 5 |>);;
  mret (FD32_OROPEN, c)).

Definition fat_fsync (c : Z) (datasync : bool) : FM Z :=
  ch ← getchannel c;
  guard_ret (negb (c_magic ch =? FAT_CHANNEL_MAGIC)) (- EBADF) (
  f ← getfile (c_f ch);
  res ←? (if negb datasync && f_de_changed f && nz (f_de_sector f)
             && negb (f_de_sector f =? FAT_UNLINKED) then
            with_sector (f_de_sector f) None (λ res b,
            write_data b (res + f_de_secofs f) (encode_direntry (f_de f));;
            modfile (c_f ch) (λ f, f <| f_de_changed := false |>);;
            fat_dirtybuf b false)
          else mret 0);
  fat_sync).

Definition fat_close (c : Z) : FM Z :=
  ch ← getchannel c;
  guard_ret (negb (c_magic ch =? FAT_CHANNEL_MAGIC) || negb (nz (c_references ch))) (- EBADF) (
  f ← getfile (c_f ch);
  modchannel c (λ ch, ch <| c_references ::= λ n, u32 (n - 1) |>);;
  ch ← getchannel c;
  res ← (if negb (nz (c_references ch)) && (f_de_sector f =? FAT_UNLINKED)
         then fat_delete_clusters (f_first_cluster f) else mret 0);
  res ← (if negb (nz res) then fat_fsync c false else mret res);
  (if negb (nz (c_references ch)) then
     (if nz (c_dentry ch) then fat_dput (c_dentry ch) else mret ());;
     file_put (c_f ch);;
     modchannel c (λ ch, ch <| c_magic := 0 |>);;
     modv (λ v, v <| v_channels_open ::= erase c |>);;
     free_channel c
   else mret ());;
  mret res).
End open.
