(* ===== verification/FatDir.v ===== *)
(** Directories of the FAT driver ([src/fd32/modules/fat/dir.c], and the
    directory operations of [open.c]): reading entries, looking names up,
    creating, removing and renaming links.

    The [LookupData] the operations pass around is the one of the volume. *)
From S2P Require Import Prelude Errno Lists SimpleFold Unicode Nls Slab.
From S2P Require Import FatTypes FatBuffer FatAlloc FatFile FatNames FatOpen.
Import Slab Utf8 Utf16.

(** [ksprintf(strcounter, "~%d", counter)] *)
Fixpoint decimal_digits (n : nat) (z : Z) (acc : bytes) : bytes :=
  match n with
  | O => acc
  | S n =>
      let acc := 48 + z mod 10 :: acc in
      if z / 10 =? 0 then acc else decimal_digits n (z / 10) acc
  end.
Definition numeric_tail (counter : Z) : bytes := 126 :: decimal_digits 10 counter [].

(** [for (k = 8 - len; k && *b != ' '; k -= res, b += res)]: where the tail is
    put in the 11 bytes of [aux]. *)
Fixpoint tail_pos (n : nat) (nls : nls_operations) (aux : bytes) (b k : Z) : option Z :=
  match n with
  | O => None
  | S n =>
      if negb (nz k) || (byte_at aux b =? 32) then Some b
      else
        let res := nls_mblen nls (drop (Z.to_nat b) aux) k in
        if res <? 0 then Some b else tail_pos n nls aux (b + res) (k - res)
  end.

(** [-> true] when a short entry other than a label holds the name. *)
Definition is_collision (de aux : bytes) : bool :=
  negb (byte_at de 0 =? FAT_FREEENT) && negb (has (byte_at de 11) FAT_AVOLID)
  && bool_decide (take 11 de = aux).

Definition compare_without_wildcards (s1 : bytes) (n1 : Z) (s2 : list Z) (n2 : Z) : Z :=
  compare_loop SimpleFold.unicode_simple_fold s1 n1 s2 (Z.to_nat n2).

Definition DOT_NAME : bytes := [46; 32; 32; 32; 32; 32; 32; 32; 32; 32; 32].
Definition DOTDOT_NAME : bytes := [46; 46; 32; 32; 32; 32; 32; 32; 32; 32; 32].

Section dir.
Context {W : Type} `{FatWorld W} `{Fuel}.
Notation FM := (M (fs W)).

(** [fat_read(c, &de, sizeof(struct fat_direntry))]: the result, and the bytes
    of [de] known afterwards, [de] holding those known before. *)
Definition read_direntry (c : Z) (de : bytes) : FM (Z * bytes) :=
  r ← fat_read c true sizeof_direntry;
  let '(res, l) := r in
  mret (res, l ++ drop (length l) de).

(** [de.name[0]], which must have been read. *)
Definition first_byte (de : bytes) : FM Z := deref (head de).

(** * Reading a directory *)

Definition direntry_location (c : Z) : FM () :=
  ch ← getchannel c;
  f ← getfile (c_f ch);
  g ← geo id;
  let dirofs := c_file_pointer ch - sizeof_direntry in
  let sector := u32 (Z.shiftr dirofs (v_log_bytes_per_sector g)) in
  let sector :=
    if negb (nz (f_de_sector f)) && negb (nz (f_first_cluster f)) then
      u32 (sector + v_root_sector g)
    else u32 (Z.land sector (v_sectors_per_cluster g - 1)
              + Z.shiftl (u32 (c_cluster ch - 2)) (v_log_sectors_per_cluster g) + v_data_start g) in
  modlud (λ l, l <| lud_de_dirofs := dirofs |> <| lud_de_sector := sector |>
                 <| lud_de_secofs := Z.land dirofs (v_bytes_per_sector g - 1) |>).

Definition get_cde (k : Z) : FM bytes :=
  v ← getv; deref (lud_cde (v_lud v) !! Z.to_nat k).
Definition set_cde (k : Z) (l : bytes) : FM () :=
  modlud (λ u, u <| lud_cde ::= <[Z.to_nat k := l]> |>).
(** [&lud->cde[lud->cde_pos]] *)
Definition cur_cde : FM fat_direntry :=
  v ← getv; l ← get_cde (lud_cde_pos (v_lud v)); mret (decode_direntry l).

(** An entry that [fat_do_readdir] reports: in use, and a short entry. *)
Definition is_short_entry (de : fat_direntry) : bool :=
  negb (byte_at (de_name de) 0 =? FAT_FREEENT)
  && (negb (has (de_attr de) FAT_AVOLID) || (de_attr de =? FAT_AVOLID)).

Fixpoint readdir_loop (k : nat) (c : Z) : FM Z :=
  match k with
  | O => nofuel
  | S k =>
      v ← getv;
      let pos := lud_cde_pos (v_lud v) in
      de ← get_cde pos;
      r ← read_direntry c de;
      let '(num_read, de) := r in
      set_cde pos de;;
      guard_ret (num_read <? 0) num_read (
      guard_ret (negb (nz num_read)) (- ENMFILE) (
      guard_ret (negb (num_read =? sizeof_direntry)) (- EFTYPE) (
      let e := decode_direntry de in
      guard_ret (byte_at (de_name e) 0 =? FAT_ENDOFDIR) (- ENMFILE) (
      if is_short_entry e then
        ch ← getchannel c;
        v ← getv;
        let '(res, lud) := fetch_lfn (c_file_pointer ch) (v_lud v) in
        modlud (λ _, lud);;
        guard_ret (res <? 0) res (
        nls ← deref (v_nls v);
        let '(res, sfn) := expand_fcb_name nls FAT_SFN_MAX (de_name e) in
        modlud (λ l, l <| lud_sfn ::= λ old, sfn ++ drop (length sfn) old |>);;
        guard_ret (res <? 0) res (
        modlud (λ l, l <| lud_sfn_length := res |>);;
        direntry_location c;;
        mret 0))
      else
        let pos := pos + 1 in
        modlud (λ l, l <| lud_cde_pos := if pos =? LFN_FETCH_SLOTS then 0 else pos |>);;
        readdir_loop k c))))
  end.

Definition fat_do_readdir (c : Z) : FM Z :=
  ch ← getchannel c;
  f ← getfile (c_f ch);
  guard_ret (negb (is_dir f)) (- EBADF) (
  modlud (λ l, l <| lud_cde_pos := 0 |>);;
  readdir_loop fuel c).

(** [for (;;)] of [fat_lookup]: an error, or 0 for the entry found. *)
Fixpoint lookup_loop (k : nat) (c : Z) (fn : bytes) (fnsize : Z) : FM Z :=
  match k with
  | O => nofuel
  | S k =>
      res ← fat_do_readdir c;
      guard_ret (res <? 0) (if res =? - ENMFILE then - ENOENT else res) (
      de ← cur_cde;
      if has (de_attr de) FAT_AVOLID then lookup_loop k c fn fnsize
      else
        v ← getv;
        let lud := v_lud v in
        let res := compare_without_wildcards fn fnsize (lud_lfn lud) (lud_lfn_length lud) in
        guard_ret (negb (nz res)) 0 (
        guard_ret (res <? 0) res (
        let res := compare_without_wildcards fn fnsize (lud_sfn lud) (lud_sfn_length lud) in
        guard_ret (negb (nz res)) 0 (
        guard_ret (res <? 0) res (
        lookup_loop k c fn fnsize)))))
  end.

(** Returns the C result and [*dentry]. *)
Definition fat_lookup (dentry : Z) (fn : bytes) (fnsize : Z) : FM (Z * Z) :=
  x ← getdentry dentry;
  if negb (nz fnsize) || ((fnsize =? 1) && (byte_at fn 0 =? 46)) then
    mret (if has (d_attr x) FAT_ADIR then 0 else - ENOTDIR, dentry)
  else if (fnsize =? 2) && bool_decide (slice fn 0 2 = [46; 46]) then
    let d := d_parent x in
    if nz d then fat_dget d;; fat_dput dentry;; mret (0, d) else mret (0, dentry)
  else
    r ← fat_open dentry (Z.lor O_RDONLY O_DIRECTORY);
    let '(res, c) := r in
    guard_ret (res <? 0) (res, dentry) (
    res ← lookup_loop fuel c fn fnsize;
    r ← (if res <? 0 then mret (res, dentry)
         else
           v ← getv;
           let lud := v_lud v in
           de ← cur_cde;
           d ← dentry_get dentry (u32 (lud_de_dirofs lud / sizeof_direntry)) (lud_de_sector lud)
                 (de_attr de) (lud_lfn_entries lud);
           if nz d then fat_dput dentry;; mret (0, d) else mret (- ENOMEM, dentry));
    fat_close c;;
    mret r).

(** * Changing a directory *)

(** [while (count--)] *)
Fixpoint delete_entries_loop (count : nat) (c from : Z) : FM Z :=
  match count with
  | O => mret 0
  | S count =>
      res ←? fat_do_write c (Some [FAT_FREEENT]) 1 from;
      if negb (res =? 1) then mret (- EIO)
      else delete_entries_loop count c (from + sizeof_direntry)
  end.
Definition delete_entries (c from count : Z) : FM Z :=
  delete_entries_loop (Z.to_nat count) c (from * sizeof_direntry).

(** The search of [find_free_entries]: an offset, or the last [fat_read] result
    when the loop ends. *)
Fixpoint find_free_loop (k : nat) (c num_entries found entry_offset : Z) (de : bytes)
    : FM (Z + Z) :=
  match k with
  | O => nofuel
  | S k =>
      r ← read_direntry c de;
      let '(res, de) := r in
      if negb (res =? sizeof_direntry) then mret (inr res)
      else
        ch ← getchannel c;
        let '(found, entry_offset) :=
          if (byte_at de 0 =? FAT_FREEENT) || (byte_at de 0 =? FAT_ENDOFDIR) then
            if 0 <? found then (found + 1, entry_offset) else (1, s32 (c_file_pointer ch - res))
          else (0, entry_offset) in
        if found =? num_entries then mret (inl entry_offset)
        else find_free_loop k c num_entries found entry_offset de
  end.

Definition find_free_entries (c num_entries : Z) : FM Z :=
  modchannel c (λ ch, ch <| c_file_pointer := 0 |>);;
  r ← find_free_loop fuel c num_entries 0 0 [];
  match r with
  | inl entry_offset => mret entry_offset
  | inr res =>
      guard_ret (res <? 0) res (
      guard_ret (nz res) (- EIO) (
      ch ← getchannel c;
      g ← geo id;
      let entry_offset := s32 (c_file_pointer ch) in
      let found := Z.shiftl 1 (v_log_bytes_per_sector g + v_log_sectors_per_cluster g) in
      res ←? fat_do_write c None found (c_file_pointer ch);
      if negb (res =? found) then mret (- EIO) else mret entry_offset))
  end.

(** The search for a collision: [None] to try the next number. *)
Fixpoint collision_loop (k : nat) (c : Z) (aux de : bytes) : FM (option Z * bytes) :=
  match k with
  | O => nofuel
  | S k =>
      r ← read_direntry c de;
      let '(res, de) := r in
      e ← (if negb (nz res) then mret 0 else first_byte de);
      if negb (nz res) || (e =? FAT_ENDOFDIR) then mret (Some 1, de)
      else if res <? 0 then mret (Some res, de)
      else if negb (res =? sizeof_direntry) then mret (Some (- EIO), de)
      else if is_collision de aux then mret (None, de)
      else collision_loop k c aux de
  end.

(** [for (counter = hint; counter <= UINT16_MAX; counter++)] *)
Fixpoint tail_loop (n : nat) (nls : nls_operations) (c : Z) (dest de : bytes) (counter : Z)
    : FM (Z * bytes) :=
  match n with
  | O => mret (- EEXIST, dest)
  | S n =>
      let str := numeric_tail counter in
      let len := Z.of_nat (length str) in
      b ← match tail_pos 9 nls dest 0 (8 - len) with Some b => mret b | None => nofuel end;
      if 11 <? b + len then fault
      else
        let aux := poke dest b str in
        modchannel c (λ ch, ch <| c_file_pointer := 0 |>);;
        r ← collision_loop fuel c aux de;
        let '(res, de) := r in
        match res with
        | Some res => mret (res, if res =? 1 then aux else dest)
        | None => tail_loop n nls c dest de (counter + 1)
        end
  end.

Definition gen_short_fname (c : Z) (src : bytes) (src_size hint : Z) : FM (Z * bytes) :=
  v ← getv;
  nls ← deref (v_nls v);
  let '(res, dest) := gen_short_fname1 nls src src_size in
  guard_ret (res <=? 1) (res, dest) (
  tail_loop (Z.to_nat (UINT16_MAX + 1 - hint)) nls c dest [] hint).

(** [for (k = lud->lfn_entries + 1; k--; de++)] *)
Fixpoint link_loop (k : nat) (c de : Z) : FM Z :=
  match k with
  | O => mret 0
  | S k =>
      l ← get_cde de;
      ch ← getchannel c;
      res ←? fat_do_write c (Some l) sizeof_direntry (c_file_pointer ch);
      if negb (res =? sizeof_direntry) then mret (- EIO)
      else
        modchannel c (λ ch, ch <| c_file_pointer ::= λ p, p + res |>);;
        link_loop k c (de + 1)
  end.

Definition fat_link (c : Z) (fn : bytes) (fnsize attr hint : Z) : FM Z :=
  let slot := LFN_FETCH_SLOTS - 1 in
  modlud (λ l, l <| lud_cde_pos := slot |>);;
  modlud (λ l, l <| lud_lfn_entries := 0 |>);;
  r ← gen_short_fname c fn fnsize hint;
  let '(res, name) := r in
  l ← get_cde slot;
  set_cde slot (poke l 0 name);;
  guard_ret (res <? 0) res (
  res ←? (if nz res then
            v ← getv;
            let '(res, lud) := split_lfn fn fnsize (lfn_checksum name) (v_lud v) in
            modlud (λ _, lud);;
            mret res
          else mret 0);
  v ← getv;
  res ←? find_free_entries c (lud_lfn_entries (v_lud v) + 1);
  t ← fat_timestamps;
  let '(time, date, hund) := t in
  l ← get_cde slot;
  set_cde slot (encode_direntry (mkDirentry (take 11 l) (u8 attr) 0 hund time date date 0
                                   time date 0 0));;
  modchannel c (λ ch, ch <| c_file_pointer := res |>);;
  v ← getv;
  let n := lud_lfn_entries (v_lud v) in
  res ←? link_loop (Z.to_nat (n + 1)) c (slot - n);
  direntry_location c;;
  mret 0).

(** [for (;;)] of [directory_is_empty]. *)
Fixpoint empty_loop (k : nat) (c : Z) (de : bytes) : FM Z :=
  match k with
  | O => nofuel
  | S k =>
      r ← read_direntry c de;
      let '(res, de) := r in
      guard_ret (res <? 0) res (
      guard_ret (negb (res =? sizeof_direntry)) (- EIO) (
      guard_ret (byte_at de 0 =? FAT_ENDOFDIR) 0 (
      guard_ret (negb (has (byte_at de 11) FAT_AVOLID) && negb (byte_at de 0 =? FAT_FREEENT))
        (- ENOTEMPTY) (
      empty_loop k c de))))
  end.

Definition directory_is_empty (c : Z) : FM Z :=
  r ← read_direntry c [];
  let '(res, de) := r in
  guard_ret (res <? 0) res (
  guard_ret (negb (res =? sizeof_direntry)) (- EIO) (
  guard_ret (negb (bool_decide (take 11 de = DOT_NAME))) (- EIO) (
  r ← read_direntry c de;
  let '(res, de) := r in
  guard_ret (res <? 0) res (
  guard_ret (negb (res =? sizeof_direntry)) (- EIO) (
  guard_ret (negb (bool_decide (take 11 de = DOTDOT_NAME))) (- EIO) (
  empty_loop fuel c de)))))).
End dir.
