(* ===== verification/FatLink.v ===== *)
(** Operations of the FAT driver on links: creating files and directories
    ([fat_create] of [src/fd32/modules/fat/open.c], [fat_mkdir] of [dir.c]),
    removing and renaming them ([fat_remove], [fat_rename] of [dir.c]).

    A [goto error] is an early return through the exit code of the function;
    a channel variable that is still null is 0. *)
From S2P Require Import Prelude Errno Lists Nls Slab.
From S2P Require Import FatTypes FatBuffer FatAlloc FatFile FatOpen FatDir.
Import Slab.

Section link.
Context {W : Type} `{FatWorld W} `{Fuel}.
Notation FM := (M (fs W)).

(** [if (c) fat_close(c)], the result ignored. *)
Definition close_if (c : Z) : FM () := if nz c then fat_close c;; mret () else mret ().

(** [if (res < 0) goto error; if (res != n) goto critical; k] *)
Definition whole (res n : Z) (exit : Z → FM Z) (k : FM Z) : FM Z :=
  if res <? 0 then exit res else if negb (res =? n) then exit (- EIO) else k.

(** * Creation *)

Definition create_error (f d c cparent res : Z) : FM (Z * Z) :=
  (if nz f then free_file f else mret ());;
  (if nz d then free_dentry d else mret ());;
  (if nz c then free_channel c else mret ());;
  close_if cparent;;
  mret (res, 0).

(** Returns the C result and [*channel]. *)
Definition fat_create (dparent : Z) (fn : bytes) (fnsize flags mode : Z) : FM (Z * Z) :=
  let mode := if has flags O_DIRECTORY then Z.lor mode FAT_ADIR else mode in
  r ← fat_open dparent (Z.lor O_RDWR O_DIRECTORY);
  let '(res, cparent) := r in
  guard_ret (res <? 0) (res, 0) (
  f ← on_files_slab slabmem_alloc;
  d ← on_dentries_slab slabmem_alloc;
  c ← on_channels_slab slabmem_alloc;
  if negb (nz f) || negb (nz d) || negb (nz c) then create_error f d c cparent (- ENOMEM)
  else
    res ← fat_link cparent fn fnsize mode 1;
    if res <? 0 then create_error f d c cparent res
    else
      res ← fat_close cparent;
      if res <? 0 then create_error f d c cparent res
      else
        v ← getv;
        let lud := v_lud v in
        de ← cur_cde;
        file_init f de (lud_de_sector lud) (lud_de_secofs lud);;
        modfile f (λ x, x <| f_references := 1 |>);;
        dentry_init d dparent (u32 (lud_de_dirofs lud / sizeof_direntry)) (lud_de_sector lud)
          (de_attr de) (lud_lfn_entries lud);;
        fat_dget d;;
        channel_init c f d flags;;
        mret (0, c)).

Definition fat_mkdir (dparent : Z) (fn : bytes) (fnsize mode : Z) : FM Z :=
  g ← geo id;
  let bytes_per_cluster := Z.shiftl 1 (v_log_bytes_per_sector g + v_log_sectors_per_cluster g) in
  r ← fat_create dparent fn fnsize
        (Z.lor (Z.lor (Z.lor O_WRONLY O_DIRECTORY) O_CREAT) O_EXCL) mode;
  let '(res, c) := r in
  guard_ret (res <? 0) res (
  let exit res := fat_close c;; mret res in
  res ← fat_do_write c None bytes_per_cluster 0;
  whole res bytes_per_cluster exit (
  ch ← getchannel c;
  f ← getfile (c_f ch);
  let de := (f_de f) <| de_name := DOT_NAME |> in
  res ← fat_do_write c (Some (encode_direntry de)) sizeof_direntry 0;
  whole res sizeof_direntry exit (
  let de := de <| de_first_cluster_hi := 0 |> <| de_first_cluster_lo := 0 |> in
  x ← getdentry dparent;
  r ← (if nz (d_parent x) then
         r ← fat_readbuf (d_de_sector x) None false;
         let '(res, b) := r in
         if res <? 0 then mret (inl res)
         else
           b ← deref b;
           let p := res + Z.land (d_de_entcnt x * sizeof_direntry) (v_bytes_per_sector g - 1) in
           hi ← read_data b (p + 20) 2;
           lo ← read_data b (p + 26) 2;
           mret (inr (de <| de_first_cluster_hi := le16_at hi 0 |>
                         <| de_first_cluster_lo := le16_at lo 0 |>))
       else mret (inr de));
  match r with
  | inl res => exit res
  | inr de =>
      let de := de <| de_name := DOTDOT_NAME |> in
      res ← fat_do_write c (Some (encode_direntry de)) sizeof_direntry sizeof_direntry;
      whole res sizeof_direntry exit (fat_close c)
  end))).

(** * Removal *)

(** The tests of [fat_remove] on the open file. *)
Definition remove_check (c : Z) (dir : bool) : FM Z :=
  ch ← getchannel c;
  f ← getfile (c_f ch);
  if dir then
    if negb (is_dir f) then mret (- ENOTDIR) else directory_is_empty c
  else if is_dir f then mret (- EPERM) else mret 0.

(** The file and its node are marked as unlinked. *)
Definition mark_unlinked (c d : Z) : FM () :=
  ch ← getchannel c;
  modfile (c_f ch) (λ f, f <| f_de_sector := FAT_UNLINKED |>);;
  moddentry d (λ x, x <| d_de_sector := FAT_UNLINKED |>).

Definition fat_remove (d : Z) (dir : bool) : FM Z :=
  x ← getdentry d;
  let dparent := d_parent x in
  guard_ret (negb (nz dparent)) (if dir then - EBUSY else - EPERM) (
  r ← fat_open dparent (Z.lor O_WRONLY O_DIRECTORY);
  let '(res, cparent) := r in
  guard_ret (res <? 0) res (
  r ← fat_open d 0;
  let '(res, c) := r in
  let error res := close_if cparent;; close_if c;; mret res in
  if res <? 0 then error res
  else
    res ← remove_check c dir;
    if res <? 0 then error res
    else
      x ← getdentry d;
      res ← delete_entries cparent (d_de_entcnt x - d_lfn_entries x) (d_lfn_entries x + 1);
      if res <? 0 then error res
      else
        mark_unlinked c d;;
        res ← fat_close c;
        if res <? 0 then error res
        else fat_close cparent)).

Definition fat_unlink (d : Z) : FM Z := fat_remove d false.
Definition fat_rmdir (d : Z) : FM Z := fat_remove d true.

(** * Renaming *)

(** [for (d = ndparent; d; d = d->parent)] *)
Fixpoint is_in_path (k : nat) (od d : Z) : FM bool :=
  if negb (nz d) then mret false
  else match k with
  | O => nofuel
  | S k =>
      if d =? od then mret true
      else x ← getdentry d; is_in_path k od (d_parent x)
  end.

(** The open instances of [fat_rename], in the order its exit code closes them. *)
Record rename_channels := mkRename { rc_ocparent : Z; rc_ncparent : Z; rc_oc : Z; rc_nc : Z }.
#[export] Instance rename_channels_eta : Eta rename_channels :=
  λ r, mkRename (rc_ocparent r) (rc_ncparent r) (rc_oc r) (rc_nc r).

Definition rename_error (r : rename_channels) (res : Z) : FM Z :=
  close_if (rc_ocparent r);;
  close_if (rc_ncparent r);;
  close_if (rc_oc r);;
  close_if (rc_nc r);;
  mret res.

(** A file with the new name exists: may it be replaced? *)
Definition rename_check (oc nc : Z) : FM Z :=
  och ← getchannel oc;
  ofile ← getfile (c_f och);
  nch ← getchannel nc;
  nfile ← getfile (c_f nch);
  if negb (is_dir ofile) then
    if is_dir nfile then mret (- EISDIR) else mret 0
  else if negb (is_dir nfile) then mret (- ENOTDIR)
  else directory_is_empty nc.

(** The new name: a new link, or the file that has it, opened. *)
Definition rename_target (ndparent : Z) (nn : bytes) (nnsize : Z) (r : rename_channels)
    (k : rename_channels → FM Z) : FM Z :=
  fat_dget ndparent;;
  l ← fat_lookup ndparent nn nnsize;
  let '(res, d) := l in
  if res =? - ENOENT then
    fat_dput d;;
    res ← fat_link (rc_ncparent r) nn nnsize 0 1;
    if res <? 0 then rename_error r res else k r
  else if res <? 0 then rename_error r res
  else
    o ← fat_open d 0;
    let '(res, nc) := o in
    fat_dput d;;
    let r := r <| rc_nc := nc |> in
    if res <? 0 then rename_error r res
    else
      res ← rename_check (rc_oc r) nc;
      if res <? 0 then rename_error r res else k r.

(** The ".." entry of a directory that has moved. *)
Definition update_dotdot (od : Z) (r : rename_channels) (k : rename_channels → FM Z) : FM Z :=
  o ← fat_open od (Z.lor O_RDWR O_DIRECTORY);
  let '(res, nc) := o in
  let r := if res <? 0 then r else r <| rc_nc := nc |> in
  if res <? 0 then rename_error r res
  else
    modchannel nc (λ ch, ch <| c_file_pointer := sizeof_direntry |>);;
    d ← read_direntry nc [];
    let '(res, dotdot) := d in
    whole res sizeof_direntry (rename_error r) (
    if negb (bool_decide (take 11 dotdot = DOTDOT_NAME)) then rename_error r (- EIO)
    else
      ch ← getchannel (rc_ncparent r);
      f ← getfile (c_f ch);
      let dotdot := (decode_direntry dotdot)
        <| de_first_cluster_hi := u16 (Z.shiftr (f_first_cluster f) 16) |>
        <| de_first_cluster_lo := u16 (f_first_cluster f) |> in
      res ← fat_do_write nc (Some (encode_direntry dotdot)) sizeof_direntry sizeof_direntry;
      whole res sizeof_direntry (rename_error r) (
      res ← fat_close nc;
      if res <? 0 then rename_error r res else k r)).

(** The cached node moves to its new parent. *)
Definition move_dentry (od odparent ndparent : Z) : FM () :=
  moddentry odparent (λ x, x <| d_children ::= erase od |>);;
  fat_dput odparent;;
  moddentry ndparent (λ x, x <| d_children ::= push_front od |>);;
  fat_dget ndparent;;
  moddentry od (λ x, x <| d_parent := ndparent |>).

(** The new link gets everything but the name of the old one. *)
Definition write_new_link (r : rename_channels) (k : FM Z) : FM Z :=
  v ← getv;
  let pos := lud_cde_pos (v_lud v) in
  l ← get_cde pos;
  ch ← getchannel (rc_oc r);
  f ← getfile (c_f ch);
  let l := poke l 11 (drop 11 (encode_direntry (f_de f))) in
  set_cde pos l;;
  res ← fat_do_write (rc_ncparent r) (Some l) sizeof_direntry (lud_de_dirofs (v_lud v));
  whole res sizeof_direntry (rename_error r) k.

Definition rename_finish (r : rename_channels) : FM Z :=
  res ← fat_close (rc_oc r);
  if res <? 0 then rename_error r res else
  res ← fat_close (rc_ocparent r);
  if res <? 0 then rename_error r res else
  res ← fat_close (rc_ncparent r);
  if res <? 0 then rename_error r res else
  mret 0.

(** From the deletion of the old link on. *)
Definition rename_commit (od odparent ndparent : Z) (r : rename_channels) : FM Z :=
  x ← getdentry od;
  res ← delete_entries (rc_ocparent r) (d_de_entcnt x - d_lfn_entries x) (d_lfn_entries x + 1);
  if res <? 0 then rename_error r res else
  v ← getv;
  let lud := v_lud v in
  ch ← getchannel (rc_oc r);
  modfile (c_f ch) (λ f, f <| f_de_sector := lud_de_sector lud |>
                           <| f_de_secofs := lud_de_secofs lud |>);;
  moddentry od (λ x, x <| d_de_sector := lud_de_sector lud |>
                       <| d_de_entcnt := u16 (lud_de_dirofs lud / sizeof_direntry) |>
                       <| d_lfn_entries := u8 (lud_lfn_entries lud) |>);;
  if negb (ndparent =? odparent) then
    move_dentry od odparent ndparent;;
    x ← getdentry od;
    if has (d_attr x) FAT_ADIR then update_dotdot od r rename_finish else rename_finish r
  else rename_finish r.

Definition fat_rename (od ndparent : Z) (nn : bytes) (nnsize : Z) : FM Z :=
  x ← getdentry od;
  let odparent := d_parent x in
  let r := mkRename 0 0 0 0 in
  if negb (nz odparent) then rename_error r (- EBUSY) else
  inside ← is_in_path fuel od ndparent;
  if (inside : bool) then rename_error r (- EINVAL) else
  o ← fat_open odparent (Z.lor O_WRONLY O_DIRECTORY);
  let r := r <| rc_ocparent := snd o |> in
  if fst o <? 0 then rename_error r (fst o) else
  o ← fat_open ndparent (Z.lor O_RDWR O_DIRECTORY);
  let r := r <| rc_ncparent := snd o |> in
  if fst o <? 0 then rename_error r (fst o) else
  o ← fat_open od 0;
  let r := r <| rc_oc := snd o |> in
  if fst o <? 0 then rename_error r (fst o) else
  rename_target ndparent nn nnsize r (λ r,
  write_new_link r (
  if nz (rc_nc r) then
    ch ← getchannel (rc_nc r);
    mark_unlinked (rc_nc r) (c_dentry ch);;
    res ← fat_close (rc_nc r);
    let r := r <| rc_nc := 0 |> in
    if res <? 0 then rename_error r res else rename_commit od odparent ndparent r
  else rename_commit od odparent ndparent r)).
End link.
