(* ===== verification/FatDos.v ===== *)
(** The DOS search services of the FAT driver ([src/fd32/modules/fat/dos.c]):
    FindFirst and FindNext on short names, the long name FindFile, and their
    name matching.

    The strings of the matching functions are counted: a string argument is the
    list of its characters, and its size the length of the list. *)
From S2P Require Import Prelude Errno Lists SimpleFold Unicode Nls Slab.
From S2P Require Import FatTypes FatBuffer FatAlloc FatFile FatNames FatOpen FatDir.
Import Utf8 SimpleFold.

(** * Name matching *)

(** [s] and [sw] are the 11 bytes of names in FCB format. *)
Fixpoint compare_fcb_from (k : nat) (s sw : bytes) : Z :=
  match k with
  | O => 0
  | S k =>
      if negb (byte_at sw 0 =? 63) && negb (byte_at s 0 =? byte_at sw 0) then 1
      else compare_fcb_from k (tail s) (tail sw)
  end.
Definition compare_fcb_names (s sw : bytes) : Z := compare_fcb_from 11 s sw.

(** [while (n1 && n2)]: [s1] in UTF-8, [s2] in wide characters. *)
Fixpoint compare_pattern_from (s1 : bytes) (s2 : list Z) (res : Z) : Z :=
  match s1, s2 with
  | [], _ => res
  | _ :: _, [] => 0
  | _ :: _, c :: s2 =>
      let '(skip, wc) := unicode_utf8_to_wchar s1 (Z.of_nat (length s1)) in
      if skip <? 0 then skip
      else if negb (wc =? 63) && negb (unicode_simple_fold wc =? unicode_simple_fold c) then 0
      else compare_pattern_from (drop (Z.to_nat skip) s1) s2 (res + 1)
  end.
Definition compare_pattern (s1 : bytes) (s2 : list Z) : Z := compare_pattern_from s1 s2 0.

(** [for (; n2; n2--, s2++)]: the result and what is left of [s2]. *)
Fixpoint scan_pattern (s1 : bytes) (s2 : list Z) : Z * list Z :=
  match s2 with
  | [] => (0, [])
  | _ :: s2' =>
      let res := compare_pattern s1 s2 in
      if nz res then (res, s2) else scan_pattern s1 s2'
  end.

(** [while (n1)]: every iteration consumes a byte of [s1]. *)
Fixpoint compare_wildcards_loop (n : nat) (shift : bool) (s1 : bytes) (s2 : list Z) : Z :=
  match s1, n with
  | [], _ | _, O => if nz (Z.of_nat (length s1)) || nz (Z.of_nat (length s2)) then 1 else 0
  | c :: s1', S n =>
      if c =? 42 then
        if negb (nz (Z.of_nat (length s1'))) then 0 else compare_wildcards_loop n true s1' s2
      else if negb (nz (Z.of_nat (length s2))) then 1
      else
        let nsub := default (length s1) (memchr s1 42 (length s1)) in
        let '(res, s2) := if shift then scan_pattern (take nsub s1) s2
                          else (compare_pattern (take nsub s1) s2, s2) in
        if res <? 0 then res
        else if negb (nz res) then 1
        else compare_wildcards_loop n shift (drop nsub s1) (drop (Z.to_nat res) s2)
  end.
Definition compare_with_wildcards (s1 : bytes) (s2 : list Z) : Z :=
  compare_wildcards_loop (length s1) false s1 s2.

(** [memrchr] and [wmemrchr]: the offset of the last occurrence. *)
Fixpoint memrchr_from (s : list Z) (c : Z) (i : nat) (res : option nat) : option nat :=
  match s with
  | [] => res
  | x :: s => memrchr_from s c (S i) (if x =? c then Some i else res)
  end.
Definition memrchr (s : list Z) (c : Z) : option nat := memrchr_from s c 0 None.

Definition compare_with_wildcards_compat (s1 : bytes) (s2 : list Z) : Z :=
  match memrchr s1 46 with
  | Some s1dot =>
      let '(s2nam, s2ext) :=
        match memrchr s2 46 with
        | Some s2dot => (take s2dot s2, drop (S s2dot) s2)
        | None => (s2, [])
        end in
      let res1 := compare_with_wildcards (take s1dot s1) s2nam in
      if res1 <? 0 then res1
      else
        let res2 := compare_with_wildcards (drop (S s1dot) s1) s2ext in
        if res2 <? 0 then res2
        else if nz res1 || nz res2 then 1 else 0
  | None => compare_with_wildcards s1 s2
  end.

(** * Results *)

(** [while ( *src && src_size)], the size left of [dest] passed on. *)
Fixpoint wchar_to_utf8_loop (dest : bytes) (dest_size : Z) (src : list Z) : Z * bytes :=
  let finish :=
    if dest_size <? 1 then (- ENAMETOOLONG, dest)
    else (Z.of_nat (length dest) + 1, dest ++ [0]) in
  match src with
  | [] => finish
  | wc :: src =>
      if negb (nz wc) then finish
      else
        let '(res, l) := unicode_wchar_to_utf8 wc dest_size in
        if res <? 0 then (res, dest)
        else wchar_to_utf8_loop (dest ++ l) (dest_size - res) src
  end.
Definition wchar_string_to_utf8 (dest_size : Z) (src : list Z) : Z * bytes :=
  wchar_to_utf8_loop [] dest_size src.

Definition expand_fcb_name_mb (source : bytes) : Z * bytes :=
  match skip_spaces source 7, skip_spaces source 10 with
  | Some name_end, Some ext_end =>
      let l := fcb_to_string source name_end ext_end ++ [0] in (Z.of_nat (length l), l)
  | _, _ => (- EINVAL, [])
  end.

(** [fd32_fs_dosfind_t], its private fields as in [struct DosFindData]. *)
Record fd32_fs_dosfind_t := mkDosFind {
  df_search_template : bytes;
  df_search_attr : Z;
  df_entry_count : Z;
  df_first_dir_cluster : Z;
  df_Attr : Z;
  df_MTime : Z;
  df_MDate : Z;
  df_Size : Z;
  df_Name : bytes }.
#[export] Instance dosfind_eta : Eta fd32_fs_dosfind_t := λ r,
  mkDosFind (df_search_template r) (df_search_attr r) (df_entry_count r) (df_first_dir_cluster r)
    (df_Attr r) (df_MTime r) (df_MDate r) (df_Size r) (df_Name r).

(** [fd32_fs_lfnfind_t] *)
Record fd32_fs_lfnfind_t := mkLfnFind {
  lf_Attr : Z;
  lf_CTime : Z;
  lf_ATime : Z;
  lf_MTime : Z;
  lf_SizeHi : Z;
  lf_SizeLo : Z;
  lf_LongName : bytes;
  lf_ShortName : bytes }.
#[export] Instance lfnfind_eta : Eta fd32_fs_lfnfind_t := λ r,
  mkLfnFind (lf_Attr r) (lf_CTime r) (lf_ATime r) (lf_MTime r) (lf_SizeHi r) (lf_SizeLo r)
    (lf_LongName r) (lf_ShortName r).
Definition sizeof_LongName : Z := 260.

(** The attribute tests of [dos_find] and [fat_findfile]. *)
Definition dos_attr_match (search_attr attr : Z) : bool :=
  let unallowed_attr := u8 (Z.lnot (Z.lor (Z.lor search_attr FAT_AARCHIV) FAT_ARDONLY)) in
  if negb (search_attr =? FAT_AVOLID) then negb (has attr unallowed_attr)
  else attr =? FAT_AVOLID.
Definition lfn_attr_match (flags attr : Z) : bool :=
  let unallowed_attr := Z.lnot (Z.lor (Z.lor (Z.land flags 0x00FF) FAT_AARCHIV) FAT_ARDONLY) in
  let required_attr := Z.shiftr (Z.land flags 0xFF00) 8 in
  negb (has attr unallowed_attr) && (Z.land attr required_attr =? required_attr).

Section dos.
Context {W : Type} `{FatWorld W} `{Fuel}.
Notation FM := (M (fs W)).

(** [while ((res = fat_do_readdir(c, lud)) == 0)] *)
Fixpoint dos_find_loop (k : nat) (c : Z) (df : fd32_fs_dosfind_t) : FM (Z * fd32_fs_dosfind_t) :=
  match k with
  | O => nofuel
  | S k =>
      res ← fat_do_readdir c;
      if nz res then mret (res, df)
      else
        de ← cur_cde;
        if negb (dos_attr_match (df_search_attr df) (de_attr de)) then dos_find_loop k c df
        else if compare_fcb_names (de_name de) (df_search_template df) =? 0 then
          let df := df <| df_Attr := de_attr de |> <| df_MTime := de_mod_time de |>
                       <| df_MDate := de_mod_date de |> <| df_Size := de_file_size de |> in
          let '(res, name) := expand_fcb_name_mb (de_name de) in
          if res <? 0 then mret (res, df)
          else
            ch ← getchannel c;
            f ← getfile (c_f ch);
            mret (0, df <| df_Name := name |>
                        <| df_entry_count := u16 (Z.shiftr (c_file_pointer ch) 5) |>
                        <| df_first_dir_cluster := f_first_cluster f |>)
        else dos_find_loop k c df
  end.

Definition dos_find (c : Z) (df : fd32_fs_dosfind_t) : FM (Z * fd32_fs_dosfind_t) :=
  r ← dos_find_loop fuel c df;
  fat_close c;;
  mret r.

Definition fat_findfirst (dparent : Z) (fn : bytes) (fnsize attr : Z) (df : fd32_fs_dosfind_t)
    : FM (Z * fd32_fs_dosfind_t) :=
  v ← getv;
  nls ← deref (v_nls v);
  let '(res, template) := fat_build_fcb_name nls fn fnsize true in
  let df := df <| df_search_template := template |> in
  guard_ret (res <? 0) (res, df) (
  guard_ret (0 <? res) (- ENOENT, df) (
  let df := df <| df_search_attr := u8 attr |> in
  r ← fat_open dparent (Z.lor O_RDONLY O_DIRECTORY);
  let '(res, c) := r in
  guard_ret (res <? 0) (res, df) (
  r ← dos_find c df;
  let '(res, df) := r in
  mret (if res =? - ENMFILE then - ENOENT else res, df)))).

Definition fat_findnext (df : fd32_fs_dosfind_t) : FM (Z * fd32_fs_dosfind_t) :=
  r ← fat_reopen_dir (df_first_dir_cluster df) (df_entry_count df);
  let '(res, c) := r in
  guard_ret (res <? 0) (res, df) (dos_find c df).

(** [while ((res = fat_do_readdir(c, lud)) == 0)]; the result is what
    [lfnfind] holds afterwards. *)
Fixpoint fat_findfile_loop (k : nat) (c : Z) (fn : bytes) (flags : Z) (lfnfind : fd32_fs_lfnfind_t)
    : FM (Z * fd32_fs_lfnfind_t) :=
  match k with
  | O => nofuel
  | S k =>
      res ← fat_do_readdir c;
      if nz res then mret (res, lfnfind)
      else
        de ← cur_cde;
        v ← getv;
        let lud := v_lud v in
        let lfn := take (Z.to_nat (lud_lfn_length lud)) (lud_lfn lud) in
        let sfn := take (Z.to_nat (lud_sfn_length lud)) (lud_sfn lud) in
        if lfn_attr_match flags (de_attr de)
           && ((nz (lud_lfn_length lud) && negb (nz (compare_with_wildcards_compat fn lfn)))
               || negb (nz (compare_with_wildcards_compat fn sfn))) then
          let r := lfnfind
            <| lf_Attr := de_attr de |>
            <| lf_CTime := Z.lor (de_cre_time de) (Z.shiftl (de_cre_date de) 16) |>
            <| lf_ATime := Z.shiftl (de_acc_date de) 16 |>
            <| lf_MTime := Z.lor (de_mod_time de) (Z.shiftl (de_mod_date de) 16) |>
            <| lf_SizeHi := 0 |>
            <| lf_SizeLo := de_file_size de |> in
          let '(res, name) := wchar_string_to_utf8 sizeof_LongName
                                (if nz (lud_lfn_length lud) then lfn else sfn) in
          let r := r <| lf_LongName := name |> in
          if res <? 0 then mret (res, r)
          else
            let '(res, name) := expand_fcb_name_mb (de_name de) in
            if res <? 0 then mret (res, r) else mret (0, r <| lf_ShortName := name |>)
        else fat_findfile_loop k c fn flags lfnfind
  end.
Definition fat_findfile (c : Z) (fn : bytes) (flags : Z) (lfnfind : fd32_fs_lfnfind_t)
    : FM (Z * fd32_fs_lfnfind_t) := fat_findfile_loop fuel c fn flags lfnfind.
End dos.

(** What the wild card matching of the long name searches decides
    ([compare_with_wildcards] of [src/fd32/modules/fat/dos.c]): the relation
    [glob] is the standard meaning of the two wild cards; the function is sound
    for it, and decides it for patterns without an asterisk or ending with one. *)
Module FatMatch.
Import Utf8 SimpleFold.

(** ** Patterns *)

(** The pattern [ws] in UTF-8. *)
Definition utf8 (ws : list Z) : bytes := ws ≫= λ wc, snd (unicode_wchar_to_utf8 wc 4).

Definition is_char (wc : Z) : Prop := 0 ≤ wc < 0x200000.

(** A character of a pattern against a character of a name. *)
Definition same (w c : Z) : bool := (w =? 63) || (unicode_simple_fold w =? unicode_simple_fold c).

(** The standard meaning of [*] (42) and [?] (63). *)
Inductive glob : list Z → list Z → Prop :=
  | glob_nil : glob [] []
  | glob_star p s s' : glob p s' → glob (42 :: p) (s ++ s')
  | glob_char w c p s : w ≠ 42 → same w c = true → glob p s → glob (w :: p) (c :: s).

(** [seg] matches the beginning of [s]. *)
Fixpoint starts (seg s : list Z) : bool :=
  match seg, s with
  | [], _ => true
  | _ :: _, [] => false
  | w :: seg, c :: s => same w c && starts seg s
  end.

(** ** The characters of a pattern in UTF-8 *)

Lemma high_bit v : Z.testbit v 7 = true → u8 v ≠ 42.
Proof.
  intros H E. assert (Z.testbit (u8 v) 7 = true) as H7
    by (unfold u8; change 256 with (2 ^ 8); by rewrite Z.mod_pow2_bits_low by lia).
  by rewrite E in H7.
Qed.

(** The only byte 42 is the one of an asterisk. *)
Lemma utf8_char wc : is_char wc →
  ∃ n bs, unicode_wchar_to_utf8 wc 4 = (n, bs) ∧ 0 < n ∧ Z.of_nat (length bs) = n ∧
    (wc = 42 ∧ bs = [42] ∨ wc ≠ 42 ∧ bs ≠ [] ∧ Forall (λ b, b ≠ 42) bs).
Proof.
  intros Hw. unfold is_char in Hw. destruct (decide (wc = 42)) as [->|Hn]; [by eexists _, _; split_and!; auto|].
  unfold unicode_wchar_to_utf8. rewrite (proj2 (Z.leb_le 0 wc)) by lia.
  repeat case_match; rewrite ?Z.ltb_lt, ?Z.ltb_ge in *; try lia;
    (eexists _, _; split_and!; [reflexivity|lia|done|right; split_and!; [done..|]]);
    repeat apply Forall_cons_2; try apply Forall_nil_2;
    try (apply high_bit; rewrite Z.lor_spec; done).
  by rewrite u8_small by lia.
Qed.

Lemma utf8_cons wc ws : utf8 (wc :: ws) = snd (unicode_wchar_to_utf8 wc 4) ++ utf8 ws.
Proof. done. Qed.
Lemma utf8_app ws ws' : utf8 (ws ++ ws') = utf8 ws ++ utf8 ws'.
Proof. apply bind_app. Qed.

Lemma utf8_decode wc ws : is_char wc →
  ∃ n, unicode_utf8_to_wchar (utf8 (wc :: ws)) (Z.of_nat (length (utf8 (wc :: ws)))) = (n, wc) ∧ 0 < n ∧
    drop (Z.to_nat n) (utf8 (wc :: ws)) = utf8 ws.
Proof.
  intros Hw. destruct (utf8_char wc Hw) as (n & bs & E & Hn & Hl & _). exists n. rewrite utf8_cons, E. simpl.
  split_and!; [|done|rewrite <- Hl, Nat2Z.id; apply drop_app_length].
  eapply utf8_roundtrip_lemma; [exact E|]. rewrite length_app. lia.
Qed.

Lemma utf8_nil ws : Forall is_char ws → (length (utf8 ws) = 0)%nat → ws = [].
Proof.
  destruct ws as [|wc ws]; [done|]. intros [Hw _]%Forall_cons. rewrite utf8_cons, length_app.
  destruct (utf8_char wc Hw) as (n & bs & E & Hn & Hl & _). rewrite E. simpl. lia.
Qed.

(** A segment is a pattern without asterisks. *)
Lemma utf8_segment seg : Forall is_char seg → 42 ∉ seg → Forall (λ b, b ≠ 42) (utf8 seg).
Proof.
  induction 1 as [|wc seg Hw _ IH]; [constructor|]. rewrite not_elem_of_cons. intros [Hn Hs]. rewrite utf8_cons.
  apply Forall_app; split; [|by apply IH]. destruct (utf8_char wc Hw) as (n & bs & -> & _ & _ & [[? _]|(_ & _ & H)]); [by subst|exact H].
Qed.

Lemma memchr_none l n : Forall (λ b, b ≠ 42) l → memchr l 42 n = None.
Proof.
  intros H. revert n. induction H as [|b l Hb _ IH]; intros [|n]; try done. simpl.
  rewrite (proj2 (Z.eqb_neq b 42)) by done. by rewrite IH.
Qed.
Lemma memchr_here l r n : Forall (λ b, b ≠ 42) l → (length l < n)%nat → memchr (l ++ 42 :: r) 42 n = Some (length l).
Proof.
  intros H. revert n. induction H as [|b l Hb _ IH]; intros [|n] Hn; simpl in *; try lia; [done|].
  rewrite (proj2 (Z.eqb_neq b 42)) by done. by rewrite IH by lia.
Qed.

(** What the code takes up to the next asterisk is the segment. *)
Lemma next_segment seg rest : Forall is_char seg → 42 ∉ seg → rest = [] ∨ head rest = Some 42 →
  default (length (utf8 (seg ++ rest))) (memchr (utf8 (seg ++ rest)) 42 (length (utf8 (seg ++ rest)))) = length (utf8 seg).
Proof.
  intros Hc Hs H. pose proof (utf8_segment _ Hc Hs) as Hb. rewrite utf8_app. destruct H as [->|H].
  - rewrite (app_nil_r (utf8 seg) : utf8 seg ++ utf8 [] = _). by rewrite memchr_none.
  - destruct rest as [|w rest]; [done|]. injection H as ->. change (utf8 (42 :: rest)) with (42 :: utf8 rest).
    rewrite memchr_here; [done|done|]. rewrite length_app. simpl. lia.
Qed.

(** ** One segment *)

Lemma starts_length seg s : starts seg s = true → (length seg ≤ length s)%nat.
Proof.
  revert s. induction seg as [|w seg IH]; intros [|c s]; simpl; try done; try lia.
  intros [_ H]%andb_true_iff. apply IH in H. lia.
Qed.

Lemma compare_pattern_from_starts seg s res : Forall is_char seg →
  compare_pattern_from (utf8 seg) s res = if starts seg s then res + Z.of_nat (length seg) else 0.
Proof.
  intros H. revert s res. induction H as [|w seg Hw _ IH]; intros s res; [destruct s; symmetry; apply Z.add_0_r|].
  destruct (utf8_decode w seg Hw) as (n & E & Hn & Hd).
  destruct (utf8 (w :: seg)) as [|b l] eqn:Eb; [vm_compute in E; injection E as <- _; lia|].
  destruct s as [|c s]; [done|]. cbn [compare_pattern_from]. rewrite E, (proj2 (Z.ltb_ge n 0)) by lia.
  cbn [starts]. unfold same. rewrite Hd, IH. destruct (w =? 63), (_ =? _); simpl; try done; case_match; lia.
Qed.
Lemma compare_pattern_starts seg s : Forall is_char seg →
  compare_pattern (utf8 seg) s = if starts seg s then Z.of_nat (length seg) else 0.
Proof. intros H. unfold compare_pattern. rewrite compare_pattern_from_starts by done. case_match; lia. Qed.

(** The scan stops at the first place where the segment matches. *)
Lemma scan_pattern_starts seg s : Forall is_char seg → seg ≠ [] →
  (scan_pattern (utf8 seg) s = (0, []) ∧ ∀ k, starts seg (drop k s) = false) ∨
  ∃ k, scan_pattern (utf8 seg) s = (Z.of_nat (length seg), drop k s) ∧ starts seg (drop k s) = true ∧
    ∀ j, (j < k)%nat → starts seg (drop j s) = false.
Proof.
  intros Hc Hn. induction s as [|c s IH].
  { left. split; [done|]. intros k. rewrite drop_nil. by destruct seg. }
  cbn [scan_pattern]. rewrite compare_pattern_starts by done.
  destruct (starts seg (c :: s)) eqn:E.
  - right. exists 0%nat. assert (nz (Z.of_nat (length seg)) = true) as -> by (destruct seg; [done|done]).
    split_and!; [done|done|lia].
  - cbn [nz negb Z.eqb]. destruct IH as [[-> H]|(k & -> & H1 & H2)].
    + left. split; [done|]. intros [|k]; [done|apply H].
    + right. exists (S k). split_and!; [done|done|]. intros [|j] Hj; [done|]. apply H2. lia.
Qed.

(** ** Patterns in segments *)

Lemma glob_segment seg p s : 42 ∉ seg → starts seg s = true → glob p (drop (length seg) s) → glob (seg ++ p) s.
Proof.
  revert s. induction seg as [|w seg IH]; intros s; [done|]. destruct s as [|c s]; [done|]. simpl.
  rewrite not_elem_of_cons, andb_true_iff. intros [Hw Hs] [H1 H2] Hg. apply glob_char; [done|done|]. by apply IH.
Qed.
Lemma glob_segment_inv seg p s : 42 ∉ seg → glob (seg ++ p) s → starts seg s = true ∧ glob p (drop (length seg) s).
Proof.
  revert s. induction seg as [|w seg IH]; intros s; [done|]. rewrite not_elem_of_cons. intros [Hw Hs] Hg.
  simpl in Hg. inversion Hg as [|p' s1 s2 H' E1|w' c p' s' H1 H2 H3]; subst; [done|].
  apply IH in H3 as [H3 H4]; [|done]. simpl. by rewrite H2, H3.
Qed.
Lemma glob_star_inv p s : glob (42 :: p) s → ∃ k, glob p (drop k s).
Proof.
  intros Hg. inversion Hg as [|p' s1 s2 H' E1|]; subst; [|done]. exists (length s1). by rewrite drop_app_length.
Qed.
Lemma glob_star_drop p s k : glob p (drop k s) → glob (42 :: p) s.
Proof. intros H. rewrite <- (take_drop k s). by apply glob_star. Qed.
(** An asterisk absorbs what precedes. *)
Lemma glob_star_more p s j k : (j ≤ k)%nat → glob (42 :: p) (drop k s) → glob (42 :: p) (drop j s).
Proof.
  intros Hk (i & H)%glob_star_inv. rewrite drop_drop in H. apply (glob_star_drop _ _ (k + i - j)). rewrite drop_drop.
  by replace (j + (k + i - j))%nat with (k + i)%nat by lia.
Qed.

(** A pattern is a segment followed by nothing or by an asterisk. *)
Lemma split_pattern ws : ∃ seg rest, ws = seg ++ rest ∧ 42 ∉ seg ∧ (rest = [] ∨ ∃ r, rest = 42 :: r).
Proof.
  induction ws as [|w ws (seg & rest & -> & Hs & H)]; [exists [], []; set_solver|].
  destruct (decide (w = 42)) as [->|Hn]; [exists [], (42 :: seg ++ rest); split_and!; [done|set_solver|eauto]|].
  exists (w :: seg), rest. split_and!; [done| |done]. rewrite not_elem_of_cons. done.
Qed.

(** ** The whole pattern *)

Lemma loop_nil n shift s : compare_wildcards_loop n shift [] s = 0 ↔ s = [].
Proof. destruct n, s; done. Qed.

(** One asterisk. *)
Lemma loop_star n shift r s : Forall is_char r →
  compare_wildcards_loop (S n) shift (utf8 (42 :: r)) s =
  if decide (r = []) then 0 else compare_wildcards_loop n true (utf8 r) s.
Proof.
  intros Hr. change (utf8 (42 :: r)) with (42 :: utf8 r). cbn [compare_wildcards_loop]. rewrite Z.eqb_refl.
  case_decide as E; [by subst|]. destruct (utf8 r) eqn:Eu; [|done]. destruct E. apply utf8_nil; [done|by rewrite Eu].
Qed.

(** One segment. *)
Lemma loop_segment n shift seg rest s : Forall is_char (seg ++ rest) → seg ≠ [] → 42 ∉ seg →
  rest = [] ∨ (∃ r, rest = 42 :: r) →
  compare_wildcards_loop (S n) shift (utf8 (seg ++ rest)) s =
  let '(res, s) := if shift then scan_pattern (utf8 seg) s else (compare_pattern (utf8 seg) s, s) in
  if res <? 0 then res else if negb (nz res) then 1
  else compare_wildcards_loop n shift (utf8 rest) (drop (Z.to_nat res) s).
Proof.
  intros [Hc Hr]%Forall_app Hn H42 Hrest.
  assert (rest = [] ∨ head rest = Some 42) as Hh by (destruct Hrest as [->|[r ->]]; auto).
  pose proof (next_segment _ _ Hc H42 Hh) as E. pose proof (utf8_segment _ Hc H42) as Hb.
  destruct (utf8 (seg ++ rest)) as [|b l] eqn:Eu.
  { destruct Hn. apply (utf8_nil seg); [done|]. rewrite utf8_app in Eu. by apply app_nil in Eu as [-> _]. }
  cbn [compare_wildcards_loop].
  assert (b ≠ 42) as Hb42.
  { rewrite utf8_app in Eu. destruct (utf8 seg) as [|b' l'] eqn:Es; [destruct Hn; apply utf8_nil; [done|by rewrite Es]|].
    injection Eu as -> _. by apply Forall_cons in Hb as [? _]. }
  rewrite (proj2 (Z.eqb_neq b 42)) by done. destruct s as [|c s].
  { cbn [length nz Z.of_nat Z.eqb negb]. destruct shift; [done|]. rewrite compare_pattern_starts by done. by destruct seg. }
  change (nz (Z.of_nat (length (c :: s)))) with true. cbn [negb]. cbv zeta.
  rewrite E, <- Eu, utf8_app, take_app_length, drop_app_length. done.
Qed.

(** A segment is matched at the first place that is allowed. *)
Definition allowed (shift : bool) (k : nat) : Prop := shift = false → k = O.

Lemma loop_place n shift seg rest s : Forall is_char (seg ++ rest) → seg ≠ [] → 42 ∉ seg →
  rest = [] ∨ (∃ r, rest = 42 :: r) →
  (∃ k, allowed shift k ∧ starts seg (drop k s) = true ∧ (∀ j, (j < k)%nat → starts seg (drop j s) = false) ∧
     compare_wildcards_loop (S n) shift (utf8 (seg ++ rest)) s =
     compare_wildcards_loop n shift (utf8 rest) (drop (length seg) (drop k s))) ∨
  ((∀ k, allowed shift k → starts seg (drop k s) = false) ∧ compare_wildcards_loop (S n) shift (utf8 (seg ++ rest)) s = 1).
Proof.
  intros Hc Hn H42 Hr. rewrite loop_segment by done. pose proof Hc as [Hcs _]%Forall_app.
  assert ((Z.of_nat (length seg) <? 0) = false) as E1 by (apply Z.ltb_ge; lia).
  assert (nz (Z.of_nat (length seg)) = true) as E2 by by destruct seg.
  unfold allowed. destruct shift.
  - destruct (scan_pattern_starts seg s Hcs Hn) as [[-> H]|(k & -> & H1 & H2)]; [by right|].
    left. exists k. by rewrite E1, E2, Nat2Z.id.
  - rewrite compare_pattern_starts by done. destruct (starts seg s) eqn:H1.
    + left. exists 0%nat. rewrite E1, E2, Nat2Z.id. split_and!; [done|done|lia|done].
    + right. split; [|done]. by intros k ->.
Qed.

(** Soundness: whatever is matched is an instance of the pattern. *)
Lemma loop_sound n shift ws s : Forall is_char ws → (length (utf8 ws) ≤ n)%nat →
  compare_wildcards_loop n shift (utf8 ws) s = 0 →
  (shift = false ∨ ws = [] ∨ head ws = Some 42 → glob ws s) ∧ (shift = true → glob (42 :: ws) s).
Proof.
  revert shift ws s. induction n as [n IH] using (well_founded_induction lt_wf). intros shift ws s Hc Hn H.
  destruct (split_pattern ws) as (seg & rest & -> & H42 & Hr). destruct seg as [|w seg].
  - simpl in *. destruct Hr as [->|[r ->]].
    { apply loop_nil in H as ->. split; intros; [constructor|]. apply (glob_star [] []). constructor. }
    apply Forall_cons in Hc as [_ Hc].
    assert (glob (42 :: r) s) as Hg; [|split; intros; [done|by apply (glob_star_drop _ _ 0)]].
    change (utf8 (42 :: r)) with (42 :: utf8 r) in Hn. destruct n as [|n]; simpl in Hn; [lia|].
    rewrite loop_star in H by done. case_decide as E.
    + subst. rewrite <- (app_nil_r s). apply glob_star. constructor.
    + apply IH in H; [by apply H|lia|done|lia].
  - rewrite utf8_app, length_app in Hn. pose proof Hc as [Hcs Hcr]%Forall_app.
    assert (length (utf8 (w :: seg)) ≠ 0)%nat as Hl by (intros ?%utf8_nil; done).
    destruct n as [|n]; [lia|].
    destruct (loop_place n shift (w :: seg) rest s) as [(k & Ha & H1 & _ & E)|[_ E]]; [done..| |by rewrite E in H].
    rewrite E in H. apply IH in H as [H _]; [|lia|done|lia]. specialize (H ltac:(destruct Hr as [->|[r ->]]; auto)).
    assert (glob ((w :: seg) ++ rest) (drop k s)) as Hg by by apply glob_segment.
    split; [|intros _; by apply (glob_star_drop _ _ k)].
    intros [->|[?|[= ->]]]; [by rewrite Ha in Hg|done|]. by destruct H42; left.
Qed.

(** The patterns that are decided: without asterisk, or ending with one. *)
Definition decided (ws : list Z) : Prop := 42 ∉ ws ∨ last ws = Some 42.

Lemma decided_tail seg rest : decided (seg ++ rest) → rest ≠ [] → decided rest.
Proof.
  intros [H|H] Hr; [left; set_solver|right]. rewrite last_app in H. destruct (last rest) eqn:E; [done|].
  by apply last_None in E.
Qed.
Lemma decided_star r : decided (42 :: r) → r ≠ [] → last r = Some 42.
Proof. intros [H|H] Hr; [by destruct H; left|]. destruct r; [done|]. by rewrite last_cons_cons in H. Qed.

(** Completeness: matching a segment as early as possible loses nothing as long
    as an asterisk follows. *)
Lemma loop_complete n (shift : bool) ws s : Forall is_char ws → (length (utf8 ws) ≤ n)%nat →
  (if shift then last ws = Some 42 else decided ws) → glob (if shift then 42 :: ws else ws) s →
  compare_wildcards_loop n shift (utf8 ws) s = 0.
Proof.
  revert shift ws s. induction n as [n IH] using (well_founded_induction lt_wf). intros shift ws s Hc Hn Hd Hg.
  assert (decided ws) as Hdec by (destruct shift; [by right|done]).
  destruct (split_pattern ws) as (seg & rest & -> & H42 & Hr). destruct seg as [|w seg].
  - simpl in *. destruct Hr as [->|[r ->]].
    { destruct shift; [done|]. inversion Hg. by apply loop_nil. }
    apply Forall_cons in Hc as [_ Hc]. change (utf8 (42 :: r)) with (42 :: utf8 r) in Hn.
    destruct n as [|n]; simpl in Hn; [lia|]. rewrite loop_star by done. case_decide as E; [done|].
    apply IH; [lia|done|lia|by apply decided_star|]. destruct shift; [|done].
    apply glob_star_inv in Hg as (k & Hg). apply (glob_star_more _ _ 0 k); [lia|done].
  - rewrite utf8_app, length_app in Hn. pose proof Hc as [Hcs Hcr]%Forall_app.
    assert (length (utf8 (w :: seg)) ≠ 0)%nat as Hl by (intros ?%utf8_nil; done).
    destruct n as [|n]; [lia|].
    assert (∃ k, allowed shift k ∧ glob ((w :: seg) ++ rest) (drop k s)) as (k & Ha & Hk).
    { destruct shift; [apply glob_star_inv in Hg as [k Hg]; by exists k|by exists 0%nat]. }
    apply glob_segment_inv in Hk as [H1 H2]; [|done].
    destruct (loop_place n shift (w :: seg) rest s) as [(j & Hj & H3 & Hmin & ->)|[H _]]; [done..| |by rewrite H in H1].
    assert (j ≤ k)%nat as Hjk by (apply Nat.nlt_ge; intros Hlt; by rewrite Hmin in H1).
    destruct shift.
    + destruct Hr as [->|[r ->]].
      { rewrite app_nil_r in Hd. destruct H42. by apply last_Some_elem_of in Hd. }
      apply IH; [lia|done|lia| |].
      * rewrite last_app in Hd. by destruct (last (42 :: r)) eqn:E; [|apply last_None in E].
      * apply (glob_star_drop _ _ 0). rewrite drop_0, drop_drop. rewrite drop_drop in H2.
        eapply glob_star_more; [|exact H2]. lia.
    + rewrite Hj by done. rewrite Ha in H2 by done. apply IH; [lia|done|lia| |done].
      destruct (decide (rest = [])) as [->|]; [left; set_solver|]. by eapply decided_tail.
Qed.

Lemma loop_result n shift ws s : Forall is_char ws → (length (utf8 ws) ≤ n)%nat →
  compare_wildcards_loop n shift (utf8 ws) s = 0 ∨ compare_wildcards_loop n shift (utf8 ws) s = 1.
Proof.
  revert shift ws s. induction n as [n IH] using (well_founded_induction lt_wf). intros shift ws s Hc Hn.
  destruct (split_pattern ws) as (seg & rest & -> & H42 & Hr). destruct seg as [|w seg].
  - simpl in *. destruct Hr as [->|[r ->]]; [destruct n, s; auto|].
    apply Forall_cons in Hc as [_ Hc]. change (utf8 (42 :: r)) with (42 :: utf8 r) in Hn.
    destruct n as [|n]; simpl in Hn; [lia|]. rewrite loop_star by done. case_decide; [by left|]. apply IH; [lia|done|lia].
  - rewrite utf8_app, length_app in Hn. pose proof Hc as [Hcs Hcr]%Forall_app.
    assert (length (utf8 (w :: seg)) ≠ 0)%nat as Hl by (intros ?%utf8_nil; done). destruct n as [|n]; [lia|].
    destruct (loop_place n shift (w :: seg) rest s) as [(k & _ & _ & _ & ->)|[_ ->]]; [done..| |by right].
    apply IH; [lia|done|lia].
Qed.

(** * Theorems *)

(** C22: [compare_with_wildcards] on a valid UTF-8 pattern answers 0 or 1, answers
    0 only for names that are instances of the pattern, and decides this for every
    pattern that has no asterisk or ends with one. (For the others it is too
    strict: [wildcards_greedy].) *)
Theorem compare_with_wildcards_glob ws s : Forall is_char ws →
  (compare_with_wildcards (utf8 ws) s = 0 ∨ compare_with_wildcards (utf8 ws) s = 1) ∧
  (compare_with_wildcards (utf8 ws) s = 0 → glob ws s) ∧
  (42 ∉ ws ∨ last ws = Some 42 → glob ws s → compare_with_wildcards (utf8 ws) s = 0).
Proof.
  intros Hc. unfold compare_with_wildcards. split_and!.
  - by apply loop_result.
  - intros H. apply loop_sound in H as [H _]; [|done..]. auto.
  - intros Hd Hg. by apply (loop_complete _ false).
Qed.

Lemma compare_with_wildcards_glob_witness :
  glob [82; 42; 42; 46; 63; 42] [114; 233; 46; 97] ∧ compare_with_wildcards (utf8 [0x20AC; 42]) [0x20AC; 1] = 0.
Proof.
  destruct (compare_with_wildcards_glob [82; 42; 42; 46; 63; 42] [114; 233; 46; 97]) as (_ & H & _);
    [repeat constructor; done|].
  destruct (compare_with_wildcards_glob [0x20AC; 42] [0x20AC; 1]) as (_ & _ & H'); [repeat constructor; done|].
  split; [apply H; vm_compute; reflexivity|]. apply H'; [by right|].
  apply glob_char; [done|vm_compute; reflexivity|]. apply (glob_star [] [1] []). constructor.
Defined.

(** The name [aa] is an instance of the pattern [*a]. *)
Lemma wildcards_greedy : glob [42; 97] [97; 97] ∧ compare_with_wildcards (utf8 [42; 97]) [97; 97] = 1.
Proof.
  split; [|by vm_compute]. apply (glob_star [97] [97]). apply glob_char; [done|by vm_compute|constructor].
Qed.
End FatMatch.
