(* ===== verification/FatPath.v ===== *)
(** Path name resolution of the FAT driver ([src/fd32/modules/fat/pathreso.c]).
    A path name is its bytes from the pointer on, with its size. *)
From S2P Require Import Prelude Errno Lists Nls Slab.
From S2P Require Import FatTypes FatBuffer FatAlloc FatFile FatOpen FatDir FatLink FatDos.

Definition FD32_ORTRUNC : Z := 3.
Definition FD32_ORCREAT : Z := 2.
Definition EMPTY_PATHNAME_ERROR : Z := EINVAL.

Definition is_sep (c : Z) : bool := c =? FAT_PATH_SEP.

(** [for (; pnsize; pn++, pnsize--)]: the offset of the last component; [i] is
    the offset of [pn]. *)
Fixpoint base_from (pn : bytes) (n : nat) (i res : Z) : Z :=
  match n with
  | O => res
  | S n => base_from (tail pn) n (i + 1) (if is_sep (byte_at pn 0) then i + 1 else res)
  end.
Definition get_base_name (pn : bytes) (pnsize : Z) : Z := base_from pn (Z.to_nat pnsize) 0 0.

(** [while (pnsize && P( *pn)) pn++, pnsize--] *)
Fixpoint skip_while (P : Z → bool) (pn : bytes) (n : nat) : bytes * nat :=
  match n with
  | O => (pn, O)
  | S n' => if P (byte_at pn 0) then skip_while P (tail pn) n' else (pn, n)
  end.

(** One iteration of the outer loop of [resolve_path]: the component and its
    size, and what is left of the path name. *)
Definition next_component (pn : bytes) (pnsize : nat) : (bytes * nat) * (bytes * nat) :=
  let '(comp, n) := skip_while is_sep pn pnsize in
  let '(pn, n') := skip_while (λ c, negb (is_sep c)) comp n in
  ((comp, (n - n')%nat), (pn, n')).

Section path.
Context {W : Type} `{FatWorld W} `{Fuel}.
Notation FM := (M (fs W)).

(** [while (pnsize)]: every iteration consumes a byte. Returns the C result and
    [*dentry]. *)
Fixpoint resolve_loop (k : nat) (dentry : Z) (pn : bytes) (pnsize : nat) : FM (Z * Z) :=
  match pnsize, k with
  | O, _ => mret (0, dentry)
  | S _, O => nofuel
  | S _, S k =>
      let '((comp, n), (pn, pnsize)) := next_component pn pnsize in
      r ← fat_lookup dentry comp (Z.of_nat n);
      let '(res, dentry) := r in
      guard_ret (res <? 0) (res, dentry) (resolve_loop k dentry pn pnsize)
  end.
Definition resolve_path (dentry : Z) (pn : bytes) (pnsize : Z) : FM (Z * Z) :=
  resolve_loop (Z.to_nat pnsize) dentry pn (Z.to_nat pnsize).

(** Returns the C result and [*channel]. *)
Definition fat_open_pr (dentry : Z) (pn : bytes) (pnsize flags mode : Z) : FM (Z * Z) :=
  guard_ret (negb (nz pnsize)) (- EMPTY_PATHNAME_ERROR, 0) (
  let bn := get_base_name pn pnsize in
  let bnsize := pnsize - bn in
  let base := drop (Z.to_nat bn) pn in
  fat_dget dentry;;
  let quit (dentry : Z) (r : Z * Z) := fat_dput dentry;; mret r in
  r ← resolve_path dentry pn bn;
  let '(res, dentry) := r in
  if res <? 0 then quit dentry (res, 0)
  else
    r ← resolve_path dentry base bnsize;
    let '(res, dentry) := r in
    if negb (nz res) then
      if has flags O_CREAT && has flags O_EXCL then quit dentry (- EEXIST, 0)
      else
        r ← fat_open dentry flags;
        let '(res, c) := r in
        if res <? 0 then quit dentry (res, 0)
        else if has flags O_TRUNC then
          res ← fat_ftruncate c 0;
          if res <? 0 then fat_close c;; quit dentry (res, c)
          else quit dentry (FD32_ORTRUNC, c)
        else quit dentry (FD32_OROPEN, c)
    else if (res =? - ENOENT) && has flags O_CREAT then
      r ← fat_create dentry base bnsize flags mode;
      let '(res, c) := r in
      if res <? 0 then quit dentry (res, 0) else quit dentry (FD32_ORCREAT, c)
    else quit dentry (res, 0)).

(** The functions below resolve a path name in a reference of their own. *)
Definition with_path (dentry : Z) (pn : bytes) (pnsize : Z) (k : Z → FM Z) : FM Z :=
  fat_dget dentry;;
  r ← resolve_path dentry pn pnsize;
  let '(res, dentry) := r in
  res ← (if negb (nz res) then k dentry else mret res);
  fat_dput dentry;;
  mret res.

Definition fat_unlink_pr (dentry : Z) (pn : bytes) (pnsize : Z) : FM Z :=
  guard_ret (negb (nz pnsize)) (- EMPTY_PATHNAME_ERROR) (
  with_path dentry pn pnsize fat_unlink).

Definition fat_rename_pr (odentry : Z) (on : bytes) (onsize : Z)
    (ndentry : Z) (nn : bytes) (nnsize : Z) : FM Z :=
  guard_ret (negb (nz onsize) || negb (nz nnsize)) (- EMPTY_PATHNAME_ERROR) (
  with_path odentry on onsize (λ odentry,
  let bn := get_base_name nn nnsize in
  let bnsize := nnsize - bn in
  with_path ndentry nn bn (λ ndentry,
  fat_rename odentry ndentry (drop (Z.to_nat bn) nn) bnsize))).

Definition fat_rmdir_pr (dentry : Z) (pn : bytes) (pnsize : Z) : FM Z :=
  guard_ret (negb (nz pnsize)) (- EMPTY_PATHNAME_ERROR) (
  with_path dentry pn pnsize fat_rmdir).

Definition fat_mkdir_pr (dentry : Z) (pn : bytes) (pnsize mode : Z) : FM Z :=
  guard_ret (negb (nz pnsize)) (- EMPTY_PATHNAME_ERROR) (
  let bn := get_base_name pn pnsize in
  let bnsize := pnsize - bn in
  let base := drop (Z.to_nat bn) pn in
  fat_dget dentry;;
  r ← resolve_path dentry pn bn;
  let '(res, dentry) := r in
  r ← (if negb (nz res) then
         r ← resolve_path dentry base bnsize;
         let '(res, dentry) := r in
         if res =? - ENOENT then
           res ← fat_mkdir dentry base bnsize mode; mret (res, dentry)
         else if negb (nz res) then mret (- EEXIST, dentry)
         else mret (res, dentry)
       else mret (res, dentry));
  let '(res, dentry) := r in
  fat_dput dentry;;
  mret res).

Definition fat_findfirst_pr (dentry : Z) (pn : bytes) (pnsize attr : Z) (df : fd32_fs_dosfind_t)
    : FM (Z * fd32_fs_dosfind_t) :=
  guard_ret (negb (nz pnsize)) (- EMPTY_PATHNAME_ERROR, df) (
  let bn := get_base_name pn pnsize in
  let bnsize := pnsize - bn in
  fat_dget dentry;;
  r ← resolve_path dentry pn bn;
  let '(res, dentry) := r in
  r ← (if negb (nz res) then fat_findfirst dentry (drop (Z.to_nat bn) pn) bnsize attr df
       else mret (res, df));
  fat_dput dentry;;
  mret r).
End path.
