(* ===== verification/FatVolume.v ===== *)
(** Mounting a FAT volume ([src/fd32/modules/fat/volume.c]): the geometry in
    the boot sector, the count of the free clusters, and the informative
    requests. *)
From S2P Require Import Prelude Errno Lists Nls Slab.
From S2P Require Import FatTypes FatBuffer FatAlloc.
Import Slab.

(** * The boot sector *)

(** The two [switch] statements: the logarithm, or -1. *)
Definition log_bytes_per_sector (n : Z) : Z :=
  if n =? 512 then 9 else if n =? 1024 then 10 else if n =? 2048 then 11
  else if n =? 4096 then 12 else -1.
Definition log_sectors_per_cluster (n : Z) : Z :=
  if n =? 1 then 0 else if n =? 2 then 1 else if n =? 4 then 2 else if n =? 8 then 3
  else if n =? 16 then 4 else if n =? 32 then 5 else if n =? 64 then 6
  else if n =? 128 then 7 else -1.

Definition vol_sectors (s : bytes) : Z :=
  if nz (bpb_num_sectors_16 s) then bpb_num_sectors_16 s else bpb_num_sectors_32 s.

(** The tests of [fat_mount] on the boot sector. *)
Definition bpb_valid (s : bytes) (total_blocks : Z) : bool :=
  (le16_at s 510 =? 0xAA55)
  && nz (vol_sectors s)
  && (vol_sectors s <=? total_blocks)
  && (0 <=? log_bytes_per_sector (bpb_bytes_per_sector s))
  && (0 <=? log_sectors_per_cluster (bpb_sectors_per_cluster s))
  && ((bpb_media_id s =? 0xF0) || (0xF8 <=? bpb_media_id s)).

Definition fat_type_of (data_clusters : Z) : FatType :=
  if data_clusters <? 4085 then FAT12
  else if data_clusters <? 65525 then FAT16
  else FAT32.

Definition mount_geometry (s : bytes) : Geometry :=
  let log_bps := log_bytes_per_sector (bpb_bytes_per_sector s) in
  let bps := Z.shiftl 1 log_bps in
  let log_spc := log_sectors_per_cluster (bpb_sectors_per_cluster s) in
  let fat_size := if nz (bpb_fat_size_16 s) then bpb_fat_size_16 s else bpb32_fat_size_32 s in
  let fat_start := bpb_reserved_sectors s in
  let num_fats := bpb_num_fats s in
  let root_sector := u32 (fat_start + num_fats * fat_size) in
  let root_size := Z.shiftr (u32 (bpb_root_entries s * sizeof_direntry + (bps - 1))) log_bps in
  let data_start := u32 (root_sector + root_size) in
  let data_clusters := Z.shiftr (u32 (vol_sectors s - data_start)) log_spc in
  {| v_fat_type := fat_type_of data_clusters;
     v_num_fats := num_fats;
     v_bytes_per_sector := bps;
     v_log_bytes_per_sector := log_bps;
     v_sectors_per_cluster := Z.shiftl 1 log_spc;
     v_log_sectors_per_cluster := log_spc;
     v_active_fat := 0;
     v_serial_number := bpb16_serial_number s;
     v_volume_label := bpb16_volume_label s;
     v_fat_size := fat_size;
     v_fat_start := fat_start;
     v_root_sector := root_sector;
     v_root_size := root_size;
     v_data_start := data_start;
     v_root_cluster := 0;
     v_data_clusters := data_clusters;
     v_sectors_per_buffer := FAT_READ_AHEAD;
     v_num_buffers := FAT_NUM_BUFFERS |}.

(** * Before mounting *)

(** The structure filled with zeroes. *)
Definition empty_geometry : Geometry :=
  mkGeometry FAT12 0 0 0 0 0 0 0 (zeroes 11) 0 0 0 0 0 0 0 0 0.
Definition empty_lud : LookupData :=
  mkLud (zeroes FAT_SFN_MAX) 0 (replicate (Z.to_nat LFN_FETCH_SLOTS) (zeroes 32))
    (zeroes FAT_LFN_MAX) 0 0 0 0 0 0.
Definition empty_volume (self : Z) : Volume := {|
  v_geo := empty_geometry;
  v_cache := mkCache [] [] 0 0 0;
  v_nls := None;
  v_blk_open := false;
  v_blk_bops := false;
  v_magic := FAT_VOL_MAGIC;
  v_free_clusters := 0;
  v_next_free := 0;
  v_fsinfo_changed := false;
  v_buffers_ptr := 0;
  v_buffer_data_ptr := 0;
  v_num_dentries := 1;
  v_dentries_slab := mkSlabCache 0 sizeof_Dentry 0;
  v_files_slab := mkSlabCache 0 sizeof_File 0;
  v_channels_slab := mkSlabCache 0 sizeof_Channel 0;
  v_files_open := [];
  v_channels_open := [];
  v_lud := empty_lud;
  v_self := self |}.
Definition root_node : Dentry := mkDentry 0 [] 1 0 0 FAT_ADIR 0.

(** The buffers just allocated: not valid, so their data does not matter. *)
Definition fresh_cache (g : Geometry) : Cache :=
  mkCache (replicate (Z.to_nat (v_num_buffers g))
             (mkBuffer 0 0 0 (zeroes (v_bytes_per_sector g * v_sectors_per_buffer g))))
    (seq 0 (Z.to_nat (v_num_buffers g))) 0 0 0.

(** * Parameters of requests *)

Definition partition_types : list Z := [0x01; 0x04; 0x06; 0x0B; 0x0C; 0x0E; 0x1B; 0x1C; 0x1E].
Definition fat_partcheck (id : Z) : Z := if existsb (Z.eqb id) partition_types then 0 else -1.

Definition FD32_FSICASEPRES : Z := Z.shiftl 1 1.
Definition FD32_FSIUNICODE : Z := Z.shiftl 1 2.
Definition FD32_FSILFN : Z := Z.shiftl 1 14.
Definition FD32_LFNPMAX : Z := 260.
Definition FD32_LFNMAX : Z := 256.

(** [fd32_fs_info_t]; [fi_FSName] is the buffer the pointer designates. *)
Record fd32_fs_info_t := mkFsInfo {
  fi_Size : Z; fi_FSNameSize : Z; fi_FSName : bytes; fi_Flags : Z; fi_NameMax : Z; fi_PathMax : Z }.
Definition sizeof_fs_info : Z := 24.

(** [strncpy(dest, src, n)] writes exactly [n] bytes. *)
Definition strncpy_bytes (src : bytes) (n : Z) : bytes :=
  take (Z.to_nat n) src ++ zeroes (n - Z.of_nat (length src)).

(** [None] when the copy leaves the buffer. *)
Definition fat_get_fsinfo (p : fd32_fs_info_t) : option (Z * fd32_fs_info_t) :=
  if fi_Size p <? sizeof_fs_info then Some (- EINVAL, p)
  else
    let n := u32 (fi_FSNameSize p - 1) in
    if in_block (fi_FSName p) 0 n then
      Some (0, mkFsInfo (fi_Size p) (fi_FSNameSize p)
                 (poke (fi_FSName p) 0 (strncpy_bytes [70; 65; 84] n))
                 (Z.lor (Z.lor FD32_FSICASEPRES FD32_FSIUNICODE) FD32_FSILFN)
                 FD32_LFNMAX FD32_LFNPMAX)
    else None.

Record fd32_getfsfree_t := mkFsFree {
  ff_Size : Z; ff_SecPerClus : Z; ff_BytesPerSec : Z; ff_AvailClus : Z; ff_TotalClus : Z }.
Definition sizeof_fsfree : Z := 24.

Section volume.
Context {W : Type} `{FatWorld W} `{Fuel}.
Notation FM := (M (fs W)).

(** [for (k = 2; k < v->data_clusters + 2; k++)] *)
Fixpoint scan_free_from (k : Z) (count : nat) (free_clusters : Z) : FM Z :=
  match count with
  | O => mret (s32 free_clusters)
  | S count =>
      res ← read_fat_entry k;
      guard_ret (res <? 0) res (
      scan_free_from (k + 1) count (if negb (nz res) then u32 (free_clusters + 1) else free_clusters))
  end.
Definition scan_free_clusters : FM Z :=
  dc ← geo v_data_clusters;
  scan_free_from 2 (Z.to_nat (u32 (dc + 2) - 2)) 0.

(** The exit code of [fat_mount] on error; [secbuf] is 0 if not allocated. *)
Definition abort_mount (secbuf block_size res : Z) : FM (Z * Z) :=
  (if nz secbuf then call_ (fd32_kmem_free secbuf block_size) else mret ());;
  free_volume;;
  mret (res, 0).

(** The buffers of the volume. *)
Definition alloc_buffers (g : Geometry) (k : FM (Z * Z)) (abort : Z → FM (Z * Z)) : FM (Z * Z) :=
  p ← call (fd32_kmem_get (u32 (sizeof_Buffer * v_num_buffers g)));
  modv (λ v, v <| v_buffers_ptr := p |>);;
  if negb (nz p) then abort (- ENOMEM)
  else
    d ← call (fd32_kmem_get (u32 (v_bytes_per_sector g * v_sectors_per_buffer g * v_num_buffers g)));
    modv (λ v, v <| v_buffer_data_ptr := d |>);;
    if negb (nz d) then abort (- ENOMEM)
    else modcache (λ _, fresh_cache g);; k.

(** The FSInfo sector of a FAT32 volume. *)
Definition mount_fat32 (secbuf : bytes) (k : FM (Z * Z)) (abort : Z → FM (Z * Z)) : FM (Z * Z) :=
  if nz (bpb32_fs_version secbuf) then abort (- ENODEV)
  else
    r ← fat_readbuf (bpb32_fsinfo_sector secbuf) None false;
    let '(res, b) := r in
    if res <? 0 then abort res
    else
      b ← deref b;
      fsi ← read_data b res sizeof_fsinfo;
      if negb (le32_at fsi fsi_sig1_ofs =? FAT_FSI_SIG1)
         || negb (le32_at fsi fsi_sig2_ofs =? FAT_FSI_SIG2)
         || negb (le32_at fsi fsi_sig3_ofs =? FAT_FSI_SIG3)
      then abort (- ENODEV)
      else
        modv (λ v, v <| v_free_clusters := le32_at fsi fsi_free_clusters_ofs |>
                     <| v_next_free := le32_at fsi fsi_next_free_ofs |>
                     <| v_geo ::= λ g, g <| v_active_fat := Z.land (bpb32_ext_flags secbuf) 0x0F |>
                          <| v_root_cluster := bpb32_root_cluster secbuf |>
                          <| v_serial_number := bpb32_serial_number secbuf |>
                          <| v_volume_label := bpb32_volume_label secbuf |> |>);;
        k.

(** From the count of the free clusters to the end. *)
Definition mount_finish (secbuf block_size : Z) : FM (Z * Z) :=
  let abort := abort_mount secbuf block_size in
  v ← getv;
  res ← (if (v_free_clusters v =? FAT_FSI_NA)
            || (u32 (v_data_clusters (v_geo v) + 1) <? v_free_clusters v)
         then
           res ← scan_free_clusters;
           (if res <? 0 then mret () else modv (λ v, v <| v_free_clusters := res |>));;
           mret res
         else mret 0);
  if res <? 0 then abort res
  else
    r ← call nls_get_default;
    let '(res, nls) := r in
    if res <? 0 then abort res
    else
      modv (λ v, v <| v_nls := nls |>);;
      call_ (fd32_kmem_free secbuf block_size);;
      mret (0, v_self v).

(** Returns the C result and [*volume]. *)
Definition fat_mount (blk_name : bytes) : FM (Z * Z) :=
  self ← call (fd32_kmem_get sizeof_Volume);
  guard_ret (negb (nz self)) (- ENOMEM, 0) (
  modify (λ s, s <| fs_vol := Some (empty_volume self) |> <| fs_files := ∅ |>
                 <| fs_dentries := {[ root_dentry := root_node ]} |> <| fs_channels := ∅ |>);;
  res ← call (block_get blk_name);
  if res <? 0 then abort_mount 0 512 res else
  modv (λ v, v <| v_blk_bops := true |>);;
  res ← call bops_open;
  if res <? 0 then abort_mount 0 512 res else
  modv (λ v, v <| v_blk_open := true |>);;
  r ← call bops_get_medium_info;
  let '(res, (total_blocks, block_size)) := r in
  if res <? 0 then abort_mount 0 512 res else
  secbuf ← call (fd32_kmem_get block_size);
  if negb (nz secbuf) then abort_mount 0 block_size (- ENOMEM) else
  let abort := abort_mount secbuf block_size in
  r ← call (bops_read 0 1 0);
  let '(res, s) := r in
  if res <? 0 then abort (- EIO)
  else if negb (in_block s 0 512) then fault
  else if negb (bpb_valid s total_blocks) then abort (- ENODEV)
  else
    modv (λ v, v <| v_geo := mount_geometry s |>);;
    g ← geo id;
    alloc_buffers g (
      modv (λ v, v <| v_free_clusters := FAT_FSI_NA |> <| v_next_free := FAT_FSI_NA |>
                   <| v_fsinfo_changed := false |>);;
      match v_fat_type g with
      | FAT32 => mount_fat32 s (mount_finish secbuf block_size) abort
      | _ => mount_finish secbuf block_size
      end) abort).

Definition fat_get_fsfree (p : fd32_getfsfree_t) : FM (Z * fd32_getfsfree_t) :=
  guard_ret (ff_Size p <? sizeof_fsfree) (- EINVAL, p) (
  v ← getv;
  guard_ret (negb (v_magic v =? FAT_VOL_MAGIC)) (- ENODEV, p) (
  res ← fat_blockdev_test_unit_ready;
  guard_ret (res <? 0) (res, p) (
  v ← getv;
  let g := v_geo v in
  mret (0, mkFsFree (ff_Size p) (v_sectors_per_cluster g) (v_bytes_per_sector g)
             (v_free_clusters v) (v_data_clusters g))))).
End volume.
