(* ===== verification/FatRead.v ===== *)
(** Correctness of [fat_read] and [fat_lseek] ([FatFile]): a file is the bytes
    of the clusters of its chain, cut at its size; a read returns those from the
    file pointer on and advances the pointer. *)
From S2P Require Import Prelude Errno Lists Nls Slab FatTypes FatDisk FatBuffer FatAlloc FatFile.
From S2P Require Import FatCache FatTable FatChain.

(** * Files as bytes *)

(** The address in the volume of byte [i] of the file with the clusters [l]. *)
Definition file_addr (g : Geometry) (l : list Z) (i : Z) : Z :=
  let si := i / v_bytes_per_sector g in
  cluster_sector g (nth (Z.to_nat (si / v_sectors_per_cluster g)) l 0) (si mod v_sectors_per_cluster g)
  * v_bytes_per_sector g + i mod v_bytes_per_sector g.

Definition cluster_bytes (g : Geometry) : Z := v_sectors_per_cluster g * v_bytes_per_sector g.

(** Where the bytes of a file end: at its size, unless it is a directory, and
    with the last cluster. *)
Definition file_limit (g : Geometry) (f : File) (l : list Z) : Z :=
  let n := Z.of_nat (length l) * cluster_bytes g in
  if is_dir f then n else Z.min (de_file_size (f_de f)) n.

(** How many bytes a read of [size] bytes at [offset] returns. *)
Definition read_len (g : Geometry) (f : File) (l : list Z) (size offset : Z) : Z :=
  Z.max 0 (Z.min size (file_limit g f l - offset)).

(** [n] consecutive values of a function. *)
Definition tabulate (h : Z → Z) (from n : Z) : bytes := (λ j, h (from + Z.of_nat j)) <$> seq 0 (Z.to_nat n).

Lemma length_tabulate h from n : 0 ≤ n → Z.of_nat (length (tabulate h from n)) = n.
Proof. intros. unfold tabulate. rewrite length_fmap, length_seq. lia. Qed.

Lemma tabulate_add h from a b :
  0 ≤ a → 0 ≤ b → tabulate h from (a + b) = tabulate h from a ++ tabulate h (from + a) b.
Proof.
  intros Ha Hb. unfold tabulate. rewrite Z2Nat.inj_add, seq_app, fmap_app by done. f_equal.
  apply list_eq. intros i. rewrite !list_lookup_fmap. destruct (decide (i < Z.to_nat b)%nat) as [Hi|Hi].
  - rewrite !lookup_seq_lt by done. simpl. do 2 f_equal. lia.
  - rewrite !lookup_seq_ge by lia. done.
Qed.

Lemma tabulate_ext h h' from n : (∀ i, from ≤ i < from + n → h i = h' i) → tabulate h from n = tabulate h' from n.
Proof.
  intros H. unfold tabulate. apply list_fmap_ext. intros k j Hj. apply lookup_seq in Hj as [-> Hj].
  apply H. lia.
Qed.

Lemma tabulate_shift h h' from from' n :
  (∀ i, 0 ≤ i < n → h (from + i) = h' (from' + i)) → tabulate h from n = tabulate h' from' n.
Proof.
  intros H. unfold tabulate. apply list_fmap_ext. intros k j Hj. apply lookup_seq in Hj as [-> Hj].
  apply H. lia.
Qed.

Lemma slice_tabulate l o n :
  0 ≤ o → 0 ≤ n → o + n ≤ Z.of_nat (length l) → slice l o n = tabulate (byte_at l) o n.
Proof.
  intros Ho Hn Hle. apply list_eq. intros i. unfold tabulate. rewrite list_lookup_fmap.
  unfold slice. destruct (decide (i < Z.to_nat n)%nat) as [Hi|Hi].
  - rewrite lookup_take_lt by done. rewrite lookup_drop, lookup_seq_lt by done. simpl.
    unfold byte_at. destruct (lookup_lt_is_Some_2 l (Z.to_nat o + i)) as [x Hx]; [lia|].
    replace (Z.to_nat (o + Z.of_nat i)) with (Z.to_nat o + i)%nat by lia. by rewrite Hx.
  - rewrite lookup_take_ge by lia. rewrite lookup_seq_ge by lia. done.
Qed.

Lemma slice_of_tabulate h from n o len :
  0 ≤ o → 0 ≤ len → o + len ≤ n → slice (tabulate h from n) o len = tabulate h (from + o) len.
Proof.
  intros Ho Hlen Hle. rewrite slice_tabulate by (rewrite ?length_tabulate; lia).
  apply tabulate_shift. intros i Hi. unfold tabulate, byte_at.
  rewrite list_lookup_fmap, lookup_seq_lt by lia. simpl. f_equal. lia.
Qed.

Section addr.
Context (g : Geometry) (size : Z) (Hb : 0 < v_bytes_per_sector g) (Hf : fat_ok g size) (Hd : data_ok g size).
Context (l : list Z) (Hl : Forall (cluster g) l).

Lemma cluster_bytes_pos : 0 < cluster_bytes g.
Proof. pose proof (spc_pos g size Hd). unfold cluster_bytes. nia. Qed.

Lemma cluster_index_eq i : i / v_bytes_per_sector g / v_sectors_per_cluster g = i / cluster_bytes g.
Proof. pose proof (spc_pos g size Hd). rewrite Zdiv_Zdiv by lia. unfold cluster_bytes. f_equal. lia. Qed.

Lemma cluster_index_lt i :
  0 ≤ i → (Z.to_nat (i / v_bytes_per_sector g / v_sectors_per_cluster g) < length l)%nat ↔
  i < Z.of_nat (length l) * cluster_bytes g.
Proof.
  intros Hi. rewrite cluster_index_eq. pose proof cluster_bytes_pos as Hp.
  assert (0 ≤ i / cluster_bytes g) by (apply Z.div_pos; lia).
  pose proof (Z.mul_div_le i _ Hp). pose proof (Z.mul_succ_div_gt i _ Hp).
  split; intros H'; nia.
Qed.
End addr.

(** * Sectors through the buffers *)

Section read.
Context {W : Type} `{FW : FatWorld W} `{FD : !FixedDisk W} `{FL : Fuel}.
Implicit Types (s : fs W) (v : Volume) (g : Geometry).

Definition buffer_ok v (b : option nat) : Prop := ∀ k, b = Some k → is_Some (v_buffers (v_cache v) !! k).

Lemma buffer_ok_num s v b :
  mounted s v → buffer_ok v b ↔ ∀ k, b = Some k → (k < Z.to_nat (v_num_buffers (v_geo v)))%nat.
Proof.
  intros M. destruct (mt_cache _ _ M) as [_ I]. rewrite <- (ci_len _ _ _ _ I).
  unfold buffer_ok. by setoid_rewrite lookup_lt_is_Some.
Qed.

Lemma buffer_ok_frame s v f h v' s' b :
  mounted s v → frame v f h s v' s' → buffer_ok v b → buffer_ok v' b.
Proof.
  intros M F. rewrite (buffer_ok_num s v), (buffer_ok_num s' v') by (done || apply F).
  by rewrite (frame_geo _ _ _ _ _ _ F).
Qed.

(** Sector [n] starts at offset [ofs] of buffer [k]. *)
Definition holds v (k : nat) (ofs n : Z) : Prop := at_sector (v_geo v) (v_cache v) k ofs n ∧ 0 ≤ ofs.

Lemma view_image s v n :
  mounted s v → in_disk (fs_world s) n →
  view (v_geo v) (v_cache v) (fs_world s) n =
  tabulate (volume_bytes s) (n * v_bytes_per_sector (v_geo v)) (v_bytes_per_sector (v_geo v)).
Proof.
  intros M Hn. destruct (mt_cache _ _ M) as [Hv I]. pose proof (mounted_geo _ _ M) as Hg.
  pose proof (bps_pos _ Hg) as Hp. pose proof (view_length _ _ _ _ _ I Hn) as Hlen.
  rewrite <- (slice_full (view (v_geo v) (v_cache v) (fs_world s) n) (v_bytes_per_sector (v_geo v))) by done.
  rewrite slice_tabulate by lia.
  apply tabulate_shift. intros i Hi. rewrite (volume_bytes_view s v) by done. by rewrite image_at.
Qed.

Lemma wp_readbuf_s s v n b (Q : Z * option nat → fs W → Prop) :
  mounted s v → in_disk (fs_world s) n → buffer_ok v b →
  (∀ v' s' ofs k, frame v (fs_files s) (fs_channels s) s v' s' → quiet v v' →
     rewritten ∅ (v_geo v) s s' → holds v' k ofs n → Q (ofs, Some k) s') →
  wp (fat_readbuf n b false) Q s.
Proof.
  intros M Hn Hb HQ. destruct (mt_cache _ _ M) as [Hv I].
  destruct (fat_readbuf_done s v n b false (mt_cache _ _ M) Hn Hb) as (ofs & k & c' & w' & Hr & Hp).
  unfold wp. rewrite Hr. pose proof (rb_inv _ _ _ _ _ _ _ _ _ Hp) as I'.
  pose proof (rb_view _ _ _ _ _ _ _ _ _ Hp) as V'. pose proof (mounted_geo _ _ M) as Hg.
  pose proof (image_same _ _ _ _ _ Hg V') as Him.
  destruct (setc_frame s v c' w' M I') as (F & Q' & Hx & Hv').
  { apply V'. }
  { intros x Hpos. rewrite Him by done. rewrite <- (volume_bytes_view s v) by done. by apply M. }
  assert (∀ x, 0 ≤ x → volume_bytes (setc s c' w') x = volume_bytes s x) as Hsame.
  { intros x Hpos. rewrite Hx, Him by done. by rewrite (volume_bytes_view s v). }
  eapply HQ; [exact F|exact Q'| |].
  - split; [|intros; by apply Hsame|intros; by apply Hsame]. intros j m Hj Hm. rewrite lookup_empty. simpl.
    unfold entry. rewrite Hv, Hv'. eapply fat_entry_ext; [done|apply M|lia|done|done].
  - split; [apply Hp|]. by eapply readbuf_ofs; [|apply Hn].
Qed.

Lemma wp_read_data_s s v k ofs n o len (Q : bytes → fs W → Prop) :
  mounted s v → in_disk (fs_world s) n → holds v k ofs n → 0 ≤ o → 0 ≤ len →
  o + len ≤ v_bytes_per_sector (v_geo v) →
  Q (tabulate (volume_bytes s) (n * v_bytes_per_sector (v_geo v) + o) len) s →
  wp (read_data k (ofs + o) len) Q s.
Proof.
  intros M Hn [Hat _] Ho Hlen Hle HQ. destruct (mt_cache _ _ M) as [Hv I].
  eapply wp_setc_id; [done|]. eapply wp_read_data; [done|done|exact I|apply Hn|done..|].
  rewrite setc_id by done. rewrite (view_image s v) by done.
  by rewrite slice_of_tabulate.
Qed.

(** * The loop *)

(** The size of one transfer, without wrap-around. *)
Lemma read_count_eq g f size k offset :
  0 < v_bytes_per_sector g < 2 ^ 31 → (∃ j, 0 ≤ j ∧ v_bytes_per_sector g = 2 ^ j) →
  0 ≤ k < size → size < 2 ^ 31 → 0 ≤ offset →
  (is_dir f = false → offset < de_file_size (f_de f)) →
  read_count g f size k offset =
    Z.min (size - k)
      (if is_dir f then v_bytes_per_sector g - offset mod v_bytes_per_sector g
       else Z.min (de_file_size (f_de f) - offset) (v_bytes_per_sector g - offset mod v_bytes_per_sector g)).
Proof.
  intros Hb (j & Hj & Hp) Hk Hs Ho Hsz. unfold read_count.
  replace (Z.land offset (v_bytes_per_sector g - 1)) with (offset mod v_bytes_per_sector g)
    by (rewrite Hp, land_pow2_mod by done; done).
  pose proof (Z.mod_pos_bound offset _ (proj1 Hb)) as Hm. set (o := offset mod v_bytes_per_sector g) in *.
  rewrite (u32_small (v_bytes_per_sector g - o)) by lia.
  destruct (is_dir f); simpl.
  - rewrite !u32_small by lia. destruct (Z.ltb_spec size (k + (v_bytes_per_sector g - o))); lia.
  - specialize (Hsz eq_refl).
    destruct (Z.leb_spec (de_file_size (f_de f)) (offset + (v_bytes_per_sector g - o)));
      [rewrite (u32_small (de_file_size _ - _)) by lia|]; rewrite !u32_small by lia;
      match goal with |- context [?a <? ?b] => destruct (Z.ltb_spec a b) end; lia.
Qed.

(** Only the cached position of the channel changes. *)
Definition same_channel (ch ch' : Channel) : Prop :=
  ch' = ch <| c_cluster_index := c_cluster_index ch' |> <| c_cluster := c_cluster ch' |>.

Lemma same_channel_refl ch : same_channel ch ch.
Proof. by destruct ch. Qed.
Lemma same_channel_trans ch ch1 ch2 : same_channel ch ch1 → same_channel ch1 ch2 → same_channel ch ch2.
Proof. unfold same_channel. intros H1 H2. rewrite H2, H1. done. Qed.

Lemma at_cluster_ok l k ch : l ≠ [] → position_ok l (at_cluster l k ch) ∧ same_channel ch (at_cluster l k ch).
Proof.
  intros Hl. split; [|by destruct ch]. right. unfold at_cluster. simpl. split; [lia|]. rewrite Nat2Z.id.
  rewrite nth_lookup. destruct (lookup_lt_is_Some_2 l (reach k l)) as [x Hx].
  - unfold reach. destruct l; simpl; [done|lia].
  - by rewrite Hx.
Qed.

(** Bytes of one sector of the file. *)
Lemma file_addr_sector g size l i j n :
  0 < v_bytes_per_sector g → data_ok g size → 0 ≤ i →
  l !! Z.to_nat (i / v_bytes_per_sector g / v_sectors_per_cluster g) = Some n →
  0 ≤ j < v_bytes_per_sector g - i mod v_bytes_per_sector g →
  file_addr g l (i + j) =
    cluster_sector g n (i / v_bytes_per_sector g mod v_sectors_per_cluster g) * v_bytes_per_sector g
    + (i mod v_bytes_per_sector g + j).
Proof.
  intros Hb Hd Hi Hn Hj. pose proof (Z.div_mod i (v_bytes_per_sector g) ltac:(lia)) as Hdm.
  pose proof (Z.mod_pos_bound i _ Hb) as Hm.
  assert ((i + j) / v_bytes_per_sector g = i / v_bytes_per_sector g) as E1.
  { symmetry. apply (Z.div_unique _ _ _ (i mod v_bytes_per_sector g + j)); lia. }
  assert ((i + j) mod v_bytes_per_sector g = i mod v_bytes_per_sector g + j) as E2.
  { symmetry. apply (Z.mod_unique _ _ (i / v_bytes_per_sector g)); lia. }
  unfold file_addr. rewrite E1, E2, nth_lookup, Hn. done.
Qed.

(** The bytes [n] of the file from [offset] on. *)
Definition file_bytes s g l (offset n : Z) : bytes := tabulate (λ i, volume_bytes s (file_addr g l i)) offset n.

Lemma cluster_sector_in_disk s v n i :
  mounted s v → cluster (v_geo v) n → 0 ≤ i < v_sectors_per_cluster (v_geo v) →
  0 ≤ cluster_sector (v_geo v) n i < disk_size (fs_world s).
Proof.
  intros M Hn Hi. pose proof (cluster_sector_range _ _ _ _ (mt_fat _ _ M) (mt_data _ _ M) Hn Hi).
  pose proof (fo_start _ _ (mt_fat _ _ M)). pose proof (fo_active _ _ (mt_fat _ _ M)).
  pose proof (fat_size_pos _ _ (mounted_geo _ _ M) (mt_fat _ _ M)). nia.
Qed.

Lemma file_addr_nonneg s v l i :
  mounted s v → Forall (cluster (v_geo v)) l → 0 ≤ i < Z.of_nat (length l) * cluster_bytes (v_geo v) →
  0 ≤ file_addr (v_geo v) l i ∧
  in_disk (fs_world s) (file_addr (v_geo v) l i / v_bytes_per_sector (v_geo v)).
Proof.
  intros M Hl Hi. set (g := v_geo v) in *. pose proof (bps_pos _ (mounted_geo _ _ M)) as Hb. fold g in Hb.
  pose proof (mt_fat _ _ M) as Hf. pose proof (mt_data _ _ M) as Hd. fold g in Hf, Hd.
  pose proof (spc_pos _ _ Hd) as Hs.
  assert (is_Some (l !! Z.to_nat (i / v_bytes_per_sector g / v_sectors_per_cluster g))) as [n Hn].
  { apply lookup_lt_is_Some_2. rewrite (cluster_index_lt g _ Hb Hd l i); lia. }
  pose proof (Z.mod_pos_bound i _ Hb) as Hm. rewrite <- (Z.add_0_r i).
  rewrite (file_addr_sector g _ l i 0 n Hb Hd (proj1 Hi) Hn) by lia.
  pose proof (Z.mod_pos_bound (i / v_bytes_per_sector g) _ Hs) as Hms.
  eapply Forall_lookup in Hl; [|exact Hn]. pose proof (cluster_sector_in_disk _ _ _ _ M Hl Hms) as Hr. fold g in Hr.
  split; [nia|]. rewrite Z.div_add_l, Z.add_0_r, (Z.div_small (i mod _)) by lia. unfold in_disk. lia.
Qed.

Lemma file_bytes_same s v s' l offset n :
  mounted s v → rewritten ∅ (v_geo v) s s' → Forall (cluster (v_geo v)) l →
  0 ≤ offset → offset + n ≤ Z.of_nat (length l) * cluster_bytes (v_geo v) →
  file_bytes s' (v_geo v) l offset n = file_bytes s (v_geo v) l offset n.
Proof.
  intros M R Hl Ho Hle. apply tabulate_ext. intros i Hi. apply (rw_none _ _ _ _ R); [done|].
  eapply file_addr_nonneg; [done..|lia].
Qed.

(** What a read may assume of the channel and of its file. *)
Record open_file s v (c : Z) (ch : Channel) (f : File) (l : list Z) : Prop := {
  of_mounted : mounted s v;
  of_handle : c ≠ 0;
  of_channel : fs_channels s !! c = Some ch;
  of_file : fs_files s !! c_f ch = Some f;
  of_chain : chain (v_geo v) (table s) (f_first_cluster f) l;
  of_position : position_ok l ch;
  of_size : 0 ≤ de_file_size (f_de f) < 2 ^ 32 }.

Lemma open_file_frame s v c ch f l v' s' ch' :
  open_file s v c ch f l → frame v (fs_files s) (<[c := ch']> (fs_channels s)) s v' s' →
  rewritten ∅ (v_geo v) s s' → position_ok l ch' → same_channel ch ch' →
  open_file s' v' c ch' f l.
Proof.
  intros [M Hc Hch Hf Hl Hp Hs] F R Hp' Hsc. split; try done.
  - apply F.
  - by rewrite (frame_channels _ _ _ _ _ _ F), lookup_insert_eq.
  - rewrite (frame_files _ _ _ _ _ _ F), Hsc. done.
  - by eapply chain_rewritten.
Qed.

Lemma open_file_clusters s v c ch f l :
  open_file s v c ch f l → l ≠ [] ∧ Forall (cluster (v_geo v)) l ∧ data_ok (v_geo v) (disk_size (fs_world s)).
Proof.
  intros O. pose proof (of_chain _ _ _ _ _ _ O) as Hl. split_and!.
  - by inversion Hl.
  - by eapply chain_cluster.
  - apply O.
Qed.

(** Each step leads from a state to a state where the channel is the same but
    for the cached position, and the sectors are those of before. *)
Definition advanced s v c ch l v' s' ch' : Prop :=
  frame v (fs_files s) (<[c := ch']> (fs_channels s)) s v' s' ∧ quiet v v' ∧
  rewritten ∅ (v_geo v) s s' ∧ position_ok l ch' ∧ same_channel ch ch'.

Lemma advanced_trans s v c ch l v1 s1 ch1 v2 s2 ch2 :
  advanced s v c ch l v1 s1 ch1 → advanced s1 v1 c ch1 l v2 s2 ch2 → advanced s v c ch l v2 s2 ch2.
Proof.
  intros (F1 & Q1 & R1 & P1 & C1) (F2 & Q2 & R2 & P2 & C2).
  destruct (step_trans _ _ _ _ _ _ _ _ _ _ _ _ F1 R1 F2 R2) as [F R]. rewrite (left_id_L ∅ (∪)) in R.
  rewrite (frame_files _ _ _ _ _ _ F1), (frame_channels _ _ _ _ _ _ F1), insert_insert_eq in F.
  split_and!; [done|by eapply quiet_trans|done|done|by eapply same_channel_trans].
Qed.

Lemma advanced_read s v c ch l v1 s1 ch1 v2 s2 :
  advanced s v c ch l v1 s1 ch1 → frame v1 (fs_files s1) (fs_channels s1) s1 v2 s2 →
  quiet v1 v2 → rewritten ∅ (v_geo v1) s1 s2 → advanced s v c ch l v2 s2 ch1.
Proof.
  intros (F1 & Q1 & R1 & P1 & C1) F2 Q2 R2.
  destruct (step_trans _ _ _ _ _ _ _ _ _ _ _ _ F1 R1 F2 R2) as [F R]. rewrite (left_id_L ∅ (∪)) in R.
  rewrite (frame_files _ _ _ _ _ _ F1), (frame_channels _ _ _ _ _ _ F1) in F.
  split_and!; [done|by eapply quiet_trans|done|done|done].
Qed.

Lemma read_len_split g f l size offset a :
  0 ≤ a ≤ read_len g f l size offset → a + read_len g f l (size - a) (offset + a) = read_len g f l size offset.
Proof. unfold read_len. lia. Qed.

Lemma advanced_refl s v c ch f l : open_file s v c ch f l → advanced s v c ch l v s ch.
Proof.
  intros O. split_and!; [|by destruct v|by apply rewritten_same|apply O|apply same_channel_refl].
  rewrite insert_id by apply O. apply frame_refl, O.
Qed.

Lemma wp_file_sector s v c ch f l si (Q : Z * Z → fs W → Prop) :
  open_file s v c ch f l → 0 ≤ si < 2 ^ 32 →
  (∀ v' s' ch', advanced s v c ch l v' s' ch' →
     Q (match l !! Z.to_nat (si / v_sectors_per_cluster (v_geo v)) with
        | Some n => (0, cluster_sector (v_geo v) n (si mod v_sectors_per_cluster (v_geo v)))
        | None => (1, 0)
        end) s') →
  wp (fat_get_file_sector c si) Q s.
Proof.
  intros O Hsi HQ. destruct (open_file_clusters _ _ _ _ _ _ O) as (Hne & _).
  eapply wp_get_file_sector; try apply O; [done|]. intros v' s' F Q1 R. eapply HQ.
  split_and!; [exact F|done|done|by apply at_cluster_ok..].
Qed.

(** One transfer stays within a sector, within the file and within the chain. *)
Lemma read_count_bounds s v c ch f l size k offset :
  open_file s v c ch f l → 0 ≤ k < size → size < 2 ^ 31 → 0 ≤ offset < file_limit (v_geo v) f l →
  let g := v_geo v in let n := read_count g f size k offset in
  0 < n ∧ n ≤ read_len g f l (size - k) offset ∧ n ≤ v_bytes_per_sector g - offset mod v_bytes_per_sector g.
Proof.
  intros O Hk Hs Ho. cbv zeta. destruct (open_file_clusters _ _ _ _ _ _ O) as (Hne & Hcl & Hd).
  pose proof (mounted_geo _ _ (of_mounted _ _ _ _ _ _ O)) as Hg. set (g := v_geo v) in *.
  pose proof (bps_pos _ Hg) as Hb. destruct (go_log _ Hg) as [Hlg Hp].
  assert (v_bytes_per_sector g < 2 ^ 31) by (rewrite Hp; apply Z.pow_lt_mono_r; lia).
  unfold file_limit in Ho. rewrite read_count_eq;
    [|lia|exists (v_log_bytes_per_sector g); lia|done|done|lia|by destruct (is_dir f); [|lia]].
  pose proof (Z.mod_pos_bound offset _ Hb) as Hm. pose proof (Z.div_mod offset (v_bytes_per_sector g) ltac:(lia)).
  assert (offset - offset mod v_bytes_per_sector g + v_bytes_per_sector g ≤ Z.of_nat (length l) * cluster_bytes g).
  { unfold cluster_bytes in *. assert (offset < Z.of_nat (length l) * v_sectors_per_cluster g * v_bytes_per_sector g)
      by (destruct (is_dir f); lia).
    assert (offset / v_bytes_per_sector g < Z.of_nat (length l) * v_sectors_per_cluster g)
      by (apply Z.div_lt_upper_bound; lia). nia. }
  unfold read_len, file_limit. destruct (is_dir f); lia.
Qed.

Lemma wp_read_loop n s v c ch f l size k offset b acc (Q : Z * Z * Z * bytes → fs W → Prop) :
  open_file s v c ch f l → 0 ≤ k ≤ size → size < 2 ^ 31 → size - k ≤ Z.of_nat n →
  0 ≤ offset → offset + (size - k) ≤ 2 ^ 40 → buffer_ok v b →
  (∀ v' s' ch', advanced s v c ch l v' s' ch' →
     let m := read_len (v_geo v) f l (size - k) offset in
     Q (0, offset + m, k + m, acc ++ file_bytes s (v_geo v) l offset m) s') →
  wp (read_loop n c size k offset b acc) Q s.
Proof.
  revert s v ch k offset b acc. induction n as [|n IH]; intros s v ch k offset b acc O Hk Hs Hn Ho Hmax Hb HQ;
    destruct (open_file_clusters _ _ _ _ _ _ O) as (Hne & Hcl & Hd);
    set (g := v_geo v) in *; cbn [read_loop].
  1: rewrite (proj2 (Z.leb_le _ _)) by lia.
  2: destruct (Z.leb_spec size k) as [Hge|Hlt].
  1, 2: apply wp_ret; specialize (HQ v s ch (advanced_refl _ _ _ _ _ _ O)); cbv zeta in HQ;
    replace (read_len g f l (size - k) offset) with 0 in HQ by (unfold read_len; lia);
    by rewrite !Z.add_0_r, app_nil_r in HQ.
  pose proof (of_mounted _ _ _ _ _ _ O) as M. pose proof (mounted_geo _ _ M) as Hg.
  pose proof (bps_pos _ Hg) as Hbp. destruct (go_log _ Hg) as [Hlg Hp]. fold g in Hbp, Hlg, Hp.
  apply wp_bind. eapply wp_getchannel; [apply O|]. apply wp_bind. eapply wp_getfile; [apply O|].
  apply wp_bind. eapply wp_geo; [by apply mounted_vol|]. unfold id. fold g.
  assert (∀ v1 s1 ch1, advanced s v c ch l v1 s1 ch1 → read_len g f l (size - k) offset = 0 →
    Q (0, offset, k, acc) s1) as Hstop.
  { intros v1 s1 ch1 A E. specialize (HQ v1 s1 ch1 A). cbv zeta in HQ. rewrite E in HQ.
    by rewrite !Z.add_0_r, app_nil_r in HQ. }
  destruct (negb (is_dir f) && (de_file_size (f_de f) <=? offset)) eqn:Eeof.
  { apply wp_ret, (Hstop v s ch); [by eapply advanced_refl|]. apply andb_true_iff in Eeof as [E1 E2].
    unfold read_len, file_limit. apply negb_true_iff in E1. rewrite E1. lia. }
  rewrite shiftr_div, <- Hp by lia.
  assert (0 ≤ offset / v_bytes_per_sector g < 2 ^ 32) as Hsi.
  { split; [apply Z.div_pos; lia|]. apply Z.div_lt_upper_bound; [lia|].
    assert (2 ^ 9 ≤ v_bytes_per_sector g) by (rewrite Hp; apply Z.pow_le_mono_r; lia). lia. }
  rewrite (u32_small (offset / _)) by done. apply wp_bind. eapply wp_file_sector; [done|done|]. fold g.
  intros v1 s1 ch1 A1. pose proof (cluster_index_lt g _ Hbp Hd l offset Ho) as Hlt'.
  destruct (l !! Z.to_nat (offset / v_bytes_per_sector g / v_sectors_per_cluster g)) as [m|] eqn:Em.
  2: { simpl. apply wp_ret, (Hstop v1 s1 ch1 A1). apply lookup_ge_None_1 in Em.
       unfold read_len, file_limit. destruct (is_dir f); lia. }
  simpl. pose proof (lookup_lt_Some _ _ _ Em) as Hml. apply Hlt' in Hml.
  assert (0 ≤ offset < file_limit g f l) as Hlim.
  { unfold file_limit. destruct (is_dir f) eqn:Ed; [lia|]. simpl in Eeof. lia. }
  destruct (read_count_bounds s v c ch f l size k offset O ltac:(lia) Hs Hlim) as (Hc1 & Hc2 & Hc3).
  fold g in Hc1, Hc2, Hc3. set (cnt := read_count g f size k offset) in *.
  destruct A1 as (F1 & Q1 & R1 & P1 & C1). pose proof (fr_mounted _ _ _ _ _ _ F1) as M1.
  assert (in_disk (fs_world s1) (cluster_sector g m (offset / v_bytes_per_sector g mod v_sectors_per_cluster g))) as Hin.
  { unfold in_disk. rewrite (fr_size _ _ _ _ _ _ F1). apply cluster_sector_in_disk; [done| |].
    - by eapply Forall_lookup in Hcl.
    - apply Z.mod_pos_bound. by eapply spc_pos. }
  apply wp_bind. eapply wp_readbuf_s; [done|done|exact (buffer_ok_frame _ _ _ _ _ _ _ M F1 Hb)|].
  intros v2 s2 ofs kb F2 Q2 R2 Hh. rewrite (proj2 (Z.ltb_ge _ _)) by apply Hh.
  apply wp_bind. eapply wp_deref; [done|].
  assert (advanced s v c ch l v2 s2 ch1) as A2.
  { eapply advanced_read; [|exact F2|exact Q2|exact R2]. done. }
  pose proof (fr_mounted _ _ _ _ _ _ F2) as M2. pose proof (frame_geo _ _ _ _ _ _ F1) as G1.
  pose proof (frame_geo _ _ _ _ _ _ F2) as G2. rewrite G1 in G2. fold g in G1, G2.
  replace (Z.land offset (v_bytes_per_sector g - 1)) with (offset mod v_bytes_per_sector g)
    by (rewrite Hp, land_pow2_mod by lia; done).
  pose proof (Z.mod_pos_bound offset _ Hbp) as Hm.
  apply wp_bind. eapply wp_read_data_s; [done| |exact Hh|lia|lia|rewrite G2; lia|].
  { unfold in_disk. rewrite (fr_size _ _ _ _ _ _ F2). exact Hin. }
  rewrite G2. replace (tabulate (volume_bytes s2) _ _) with (file_bytes s g l offset cnt).
  2: { pose proof (file_bytes_same s v s2 l offset cnt M) as Efb. fold g in Efb. rewrite <- Efb; [|apply A2|done|done|].
       - apply tabulate_shift. intros i Hi. rewrite (file_addr_sector g _ l offset i m Hbp Hd Ho Em) by lia.
         f_equal. lia.
       - unfold read_len, file_limit in Hc2. destruct (is_dir f); fold g; lia. }
  pose proof (read_len_split g f l (size - k) offset cnt ltac:(lia)) as Hsplit.
  assert (cnt ≤ size - k) as Hck by (unfold read_len in Hc2; lia).
  rewrite u32_small by lia.
  eapply (IH s2 v2 ch1).
  - eapply open_file_frame; [exact O|apply A2..].
  - lia.
  - lia.
  - lia.
  - lia.
  - lia.
  - intros k' [= <-]. destruct Hh as [(x & Hx & _) _]. eauto.
  - intros v3 s3 ch3 A3. cbv zeta. rewrite G2. replace (size - (k + cnt)) with (size - k - cnt) by lia.
    specialize (HQ v3 s3 ch3 (advanced_trans _ _ _ _ _ _ _ _ _ _ _ A2 A3)). cbv zeta in HQ.
    rewrite <- Hsplit in HQ. set (m' := read_len g f l (size - k - cnt) (offset + cnt)) in *.
    assert (0 ≤ m') by (unfold m', read_len; lia).
    pose proof (file_bytes_same s v s2 l (offset + cnt) m' M) as Efb. fold g in Efb. rewrite Efb;
      [|apply A2|done|lia|unfold m', read_len, file_limit in *; destruct (is_dir f); lia].
    unfold file_bytes in *. rewrite tabulate_add in HQ by lia. rewrite !Z.add_assoc, app_assoc in HQ. exact HQ.
Qed.

(** * The whole operation *)

(** The clock is read: nothing else happens. *)
Lemma wp_timestamps s v (Q : Z * Z * Z → fs W → Prop) :
  mounted s v →
  (∀ s' t, frame v (fs_files s) (fs_channels s) s v s' → rewritten ∅ (v_geo v) s s' → Q t s') →
  wp fat_timestamps Q s.
Proof.
  intros M HQ. unfold fat_timestamps. apply wp_bind, wp_call_s.
  destruct (disk_date (fs_world s)) as [D1 D2].
  destruct (frame_world s v (fd32_get_date (fs_world s)).2 M) as [F1 R1]; [done|]. set (s1 := _ <| fs_world := _ |>) in *.
  pose proof (fr_mounted _ _ _ _ _ _ F1) as M1. apply wp_bind, wp_call_s.
  destruct (frame_world s1 v (fd32_get_time (fs_world s1)).2 M1) as [F2 R2]; [apply disk_time|].
  destruct (step_trans _ _ _ _ _ _ _ _ _ _ _ _ F1 R1 F2 R2) as [F R]. rewrite (left_id_L ∅ (∪)) in R.
  rewrite (frame_files _ _ _ _ _ _ F1), (frame_channels _ _ _ _ _ _ F1) in F.
  destruct (fd32_get_date _).1 as [[d m] y]. destruct (fd32_get_time (fs_world s1)) as [[[[h mi] se] hu] w2].
  by eapply HQ.
Qed.

(** The file after a read: the access date may have changed. *)
Definition accessed (f f' : File) : Prop :=
  f' = f ∨ ∃ d, f' = f <| f_de ::= λ e, e <| de_acc_date := d |> |> <| f_de_changed := true |>.

Lemma wp_fat_read s v c ch f l size (Q : Z * bytes → fs W → Prop) :
  open_file s v c ch f l → c_f ch ≠ 0 → c_magic ch = FAT_CHANNEL_MAGIC → IS_NOT_READABLE ch = false →
  0 ≤ size < 2 ^ 31 → 0 ≤ c_file_pointer ch → c_file_pointer ch + size ≤ 2 ^ 40 →
  (∀ v' s' ch' f', frame v (<[c_f ch := f']> (fs_files s)) (<[c := ch']> (fs_channels s)) s v' s' →
     rewritten ∅ (v_geo v) s s' → position_ok l ch' → accessed f f' →
     let n := read_len (v_geo v) f l size (c_file_pointer ch) in
     same_channel (ch <| c_file_pointer ::= λ p, p + n |>) ch' →
     Q (n, file_bytes s (v_geo v) l (c_file_pointer ch) n) s') →
  wp (fat_read c true size) Q s.
Proof.
  intros O Hf0 Hmag Hrd Hsz Hfp Hmax HQ. unfold fat_read.
  apply wp_bind. eapply wp_getchannel; [apply O|]. apply wp_bind. eapply wp_getfile; [apply O|].
  pose proof (of_handle _ _ _ _ _ _ O) as Hc. unfold nz, guard_ret. rewrite (proj2 (Z.eqb_neq c 0)) by done.
  rewrite Hmag, Z.eqb_refl, Hrd. simpl.
  apply wp_bind. eapply wp_read_loop; [exact O|lia|lia|lia|done|lia|done|].
  intros v1 s1 ch1 A1. cbv zeta. rewrite Z.sub_0_r, Z.add_0_l. simpl app.
  set (n := read_len (v_geo v) f l size (c_file_pointer ch)) in *. simpl.
  destruct A1 as (F1 & Q1 & R1 & P1 & C1). pose proof (fr_mounted _ _ _ _ _ _ F1) as M1.
  pose proof (frame_files _ _ _ _ _ _ F1) as E1. pose proof (frame_channels _ _ _ _ _ _ F1) as H1.
  pose proof (of_file _ _ _ _ _ _ O) as Hf.
  assert (∀ f' s2, accessed f f' → frame v1 (<[c_f ch := f']> (fs_files s1)) (fs_channels s1) s1 v1 s2 →
    rewritten ∅ (v_geo v1) s1 s2 →
    wp (modchannel c (λ x, x <| c_file_pointer := c_file_pointer ch + n |>);;
        mret (s32 n, file_bytes s (v_geo v) l (c_file_pointer ch) n)) Q s2) as Hend.
  { intros f' s2 Ha F2 R2. pose proof (frame_channels _ _ _ _ _ _ F2) as H2.
    set (ch2 := ch1 <| c_file_pointer := c_file_pointer ch + n |>).
    apply wp_bind. eapply wp_modchannel; [done|by rewrite H2, H1, lookup_insert_eq|]. apply wp_ret.
    destruct (frame_channel s2 v1 c ch2 (fr_mounted _ _ _ _ _ _ F2)) as [F3 R3].
    destruct (step_trans _ _ _ _ _ _ _ _ _ _ _ _ F1 R1 F2 R2) as [F12 R12]. rewrite (left_id_L ∅ (∪)) in R12.
    destruct (step_trans _ _ _ _ _ _ _ _ _ _ _ _ F12 R12 F3 R3) as [F R]. rewrite (left_id_L ∅ (∪)) in R.
    rewrite (frame_files _ _ _ _ _ _ F2), E1, H2, H1, insert_insert_eq in F.
    assert (0 ≤ n ≤ size) as Hn by (unfold n, read_len; lia). rewrite s32_small by lia.
    refine (HQ _ _ ch2 f' F R _ Ha _); unfold ch2.
    - destruct P1 as [P1|P1]; [by left|by right].
    - rewrite C1. done. }
  apply wp_bind. destruct (_ && _).
  - apply wp_bind. eapply wp_timestamps; [done|]. intros s2 [[? d] ?] F2 R2.
    eapply wp_modfile; [done|by rewrite (frame_files _ _ _ _ _ _ F2), E1|].
    set (f' := f <| f_de ::= λ e, e <| de_acc_date := d |> |> <| f_de_changed := true |>).
    destruct (frame_file s2 v1 (c_f ch) f' (fr_mounted _ _ _ _ _ _ F2)) as [F3 R3].
    destruct (step_trans _ _ _ _ _ _ _ _ _ _ _ _ F2 R2 F3 R3) as [F R]. rewrite (left_id_L ∅ (∪)) in R.
    rewrite (frame_files _ _ _ _ _ _ F2), (frame_channels _ _ _ _ _ _ F2) in F.
    eapply (Hend f'); [by right; exists d|exact F|exact R].
  - apply wp_ret. eapply (Hend f); [by left| |by apply rewritten_same].
    rewrite E1, insert_id by done. rewrite <- E1. by apply frame_refl.
Qed.
End read.
