(* ===== verification/FatMount.v ===== *)
(** Correctness of mounting ([FatVolume]): the geometry computed from a boot
    sector that describes a volume consistently, the state of the buffers after
    the mount, and the count of the free clusters. *)
From S2P Require Import Prelude Errno Lists Nls Slab FatTypes FatDisk FatBuffer FatAlloc FatVolume.
From S2P Require Import FatCache FatTable FatChain.

(** * The geometry *)

(** What a boot sector must satisfy besides the tests of [fat_mount]: the tables
    have room for all clusters, and the parts of the volume follow each other
    without leaving it. *)
Record layout_ok (s : bytes) : Prop := {
  ly_fats : 1 ≤ bpb_num_fats s;
  ly_bytes : ∀ i, 0 ≤ byte_at s i < 256;
  ly_room : let g := mount_geometry s in
    entry_ofs (v_fat_type g) (v_data_clusters g + 1) + entry_size (v_fat_type g)
    ≤ v_fat_size g * v_bytes_per_sector g;
  ly_max : v_data_clusters (mount_geometry s) < 2 ^ 28 - 16;
  ly_start : bpb_reserved_sectors s + bpb_num_fats s * v_fat_size (mount_geometry s)
    + v_root_size (mount_geometry s) ≤ vol_sectors s }.

Lemma log_bytes_per_sector_spec n :
  0 ≤ log_bytes_per_sector n → 9 ≤ log_bytes_per_sector n ≤ 12 ∧ n = 2 ^ log_bytes_per_sector n.
Proof.
  unfold log_bytes_per_sector. repeat match goal with |- context [n =? ?k] =>
    destruct (Z.eqb_spec n k) as [->|]; [by intros _|] end. by intros ?.
Qed.
Lemma log_sectors_per_cluster_spec n :
  0 ≤ log_sectors_per_cluster n → 0 ≤ log_sectors_per_cluster n < 8 ∧ n = 2 ^ log_sectors_per_cluster n.
Proof.
  unfold log_sectors_per_cluster. repeat match goal with |- context [n =? ?k] =>
    destruct (Z.eqb_spec n k) as [->|]; [by intros _|] end. by intros ?.
Qed.

Lemma bpb_valid_spec s total :
  bpb_valid s total = true →
  le16_at s 510 = 0xAA55 ∧ vol_sectors s ≠ 0 ∧ vol_sectors s ≤ total ∧
  0 ≤ log_bytes_per_sector (bpb_bytes_per_sector s) ∧
  0 ≤ log_sectors_per_cluster (bpb_sectors_per_cluster s).
Proof.
  unfold bpb_valid. rewrite !andb_true_iff, !Z.leb_le, Z.eqb_eq. unfold nz.
  rewrite negb_true_iff, Z.eqb_neq. tauto.
Qed.

Lemma fat_type_of_range n :
  (fat_type_of n = FAT12 → n < 4085) ∧ (fat_type_of n = FAT16 → n < 65525).
Proof.
  unfold fat_type_of. destruct (Z.ltb_spec n 4085), (Z.ltb_spec n 65525); split; intros; (lia || done).
Qed.


Section geometry.
Context (s : bytes) (total : Z) (Hv : bpb_valid s total = true) (Hl : layout_ok s) (Ht : total < 2 ^ 32).
Local Notation g := (mount_geometry s).

Lemma mount_bytes_per_sector : v_bytes_per_sector g = bpb_bytes_per_sector s.
Proof.
  destruct (bpb_valid_spec _ _ Hv) as (_ & _ & _ & H & _).
  destruct (log_bytes_per_sector_spec _ H) as [H1 H2]. simpl. rewrite shiftl_mul, Z.mul_1_l by lia. done.
Qed.
Lemma mount_sectors_per_cluster : v_sectors_per_cluster g = bpb_sectors_per_cluster s.
Proof.
  destruct (bpb_valid_spec _ _ Hv) as (_ & _ & _ & _ & H).
  destruct (log_sectors_per_cluster_spec _ H) as [H1 H2]. simpl. rewrite shiftl_mul, Z.mul_1_l by lia. done.
Qed.

Lemma fat_size_range : 0 ≤ v_fat_size g < 2 ^ 32.
Proof.
  simpl. unfold bpb_fat_size_16, bpb32_fat_size_32. pose proof (le16_range s 22 (ly_bytes _ Hl)).
  pose proof (le32_range s 36 (ly_bytes _ Hl)). destruct (nz _); lia.
Qed.
Lemma vol_sectors_range : 0 < vol_sectors s ≤ total.
Proof.
  destruct (bpb_valid_spec _ _ Hv) as (_ & H & H' & _). revert H. unfold vol_sectors in *.
  unfold bpb_num_sectors_16, bpb_num_sectors_32 in *. pose proof (le16_range s 19 (ly_bytes _ Hl)).
  pose proof (le32_range s 32 (ly_bytes _ Hl)). destruct (nz _); lia.
Qed.

(** The parts of the volume, without wrap-around. *)
Lemma mount_layout :
  v_root_sector g = v_fat_start g + v_num_fats g * v_fat_size g ∧
  v_data_start g = v_root_sector g + v_root_size g ∧ 0 ≤ v_fat_start g ∧ 0 ≤ v_root_size g ∧
  v_data_clusters g = (vol_sectors s - v_data_start g) / v_sectors_per_cluster g ∧
  v_data_start g ≤ vol_sectors s.
Proof.
  pose proof fat_size_range as Hf. pose proof vol_sectors_range as Hs. pose proof (ly_start _ Hl) as Hst.
  pose proof (le16_range s 14 (ly_bytes _ Hl)) as Hr. pose proof (ly_fats _ Hl) as Hn.
  destruct (bpb_valid_spec _ _ Hv) as (_ & _ & _ & Hlb & Hls).
  destruct (log_bytes_per_sector_spec _ Hlb) as [Hlb1 _].
  destruct (log_sectors_per_cluster_spec _ Hls) as [Hls1 _].
  assert (0 ≤ v_root_size g) as Hroot.
  { simpl. apply Z.shiftr_nonneg. apply u32_range. }
  fold (bpb_reserved_sectors s) in Hr.
  assert (v_root_sector g = v_fat_start g + v_num_fats g * v_fat_size g) as E1.
  { simpl in *. rewrite u32_small; [done|]. nia. }
  assert (v_data_start g = v_root_sector g + v_root_size g) as E2.
  { rewrite E1. change (v_data_start g) with (u32 (v_root_sector g + v_root_size g)). rewrite E1.
    change (v_fat_start g) with (bpb_reserved_sectors s). change (v_num_fats g) with (bpb_num_fats s).
    rewrite u32_small; [done|]. nia. }
  change (v_fat_start g) with (bpb_reserved_sectors s) in *. change (v_num_fats g) with (bpb_num_fats s) in *.
  split_and!; [done|done|lia|done| |lia].
  change (v_data_clusters g) with (Z.shiftr (u32 (vol_sectors s - v_data_start g)) (v_log_sectors_per_cluster g)).
  rewrite u32_small by nia. rewrite shiftr_div by (simpl; lia). f_equal. simpl.
  rewrite shiftl_mul by lia. lia.
Qed.

Lemma mount_geo_ok {W} `{FW : FatWorld W} `{FD : !FixedDisk W} :
  bpb_bytes_per_sector s = disk_block → geo_ok g.
Proof.
  intros Hb. destruct (bpb_valid_spec _ _ Hv) as (_ & _ & _ & Hlg & _).
  destruct (log_bytes_per_sector_spec _ Hlg) as [H1 H2]. split.
  - by rewrite mount_bytes_per_sector.
  - rewrite mount_bytes_per_sector. done.
  - by exists 3.
  - rewrite mount_bytes_per_sector, H2. change (v_sectors_per_buffer g) with (2 ^ 3).
    rewrite <- Z.pow_add_r by lia. apply Z.pow_lt_mono_r; lia.
  - done.
Qed.

Lemma mount_fat_ok : fat_ok g total.
Proof.
  destruct mount_layout as (E1 & E2 & H1 & H2 & E3 & H3). pose proof vol_sectors_range as Hs.
  destruct (fat_type_of_range (v_data_clusters g)) as [T1 T2].
  destruct (bpb_valid_spec _ _ Hv) as (_ & _ & _ & _ & Hlg).
  destruct (log_sectors_per_cluster_spec _ Hlg) as [_ Hp].
  split; try done.
  - pose proof (ly_max _ Hl). rewrite E3 in *. rewrite mount_sectors_per_cluster in *. split; [|done].
    apply Z.div_pos; [lia|]. rewrite Hp. apply Z.pow_pos_nonneg; lia.
  - exact (ly_room _ Hl).
  - lia.
  - pose proof (ly_fats _ Hl). simpl. lia.
Qed.

Lemma mount_data_ok : data_ok g total.
Proof.
  destruct mount_layout as (E1 & E2 & H1 & H2 & E3 & H3). pose proof vol_sectors_range as Hs.
  destruct (bpb_valid_spec _ _ Hv) as (_ & _ & _ & _ & Hlg).
  destruct (log_sectors_per_cluster_spec _ Hlg) as [Hr Hp]. split.
  - exact Hr.
  - rewrite mount_sectors_per_cluster. exact Hp.
  - lia.
  - assert (0 < v_sectors_per_cluster g) as Hpos.
    { rewrite mount_sectors_per_cluster, Hp. apply Z.pow_pos_nonneg; lia. }
    rewrite E3. pose proof (Z.mul_div_le (vol_sectors s - v_data_start g) _ Hpos). lia.
Qed.
End geometry.

(** * Fresh buffers *)

Section fresh.
Context {W : Type} `{FW : FatWorld W} `{FD : !FixedDisk W} `{FL : Fuel}.
Implicit Types (s : fs W) (v : Volume) (w : W).

Lemma fresh_cinv g w : geo_ok g → disk_size w < 2 ^ 32 → cinv g [] (fresh_cache g) w.
Proof.
  intros Hg Hsz. pose proof (bps_pos _ Hg). pose proof (spb_pos _ Hg).
  assert (∀ k b, v_buffers (fresh_cache g) !! k = Some b →
    b = mkBuffer 0 0 0 (zeroes (v_bytes_per_sector g * v_sectors_per_buffer g))) as Hb.
  { intros k b Hk. unfold fresh_cache in Hk. simpl in Hk. by apply lookup_replicate in Hk as [-> _]. }
  split; try done.
  - simpl. apply length_replicate.
  - intros k b ->%Hb. split; [simpl; unfold zeroes; rewrite length_replicate; lia|by left|done].
  - by intros k1 k2 b1 b2 ->%Hb _ [=].
  - by intros k b n ->%Hb _ [=].
Qed.

Lemma fresh_view g w n : view g (fresh_cache g) w n = disk w n.
Proof.
  apply view_not_held. intros k b Hk. simpl in Hk. by apply lookup_replicate in Hk as [-> _].
Qed.

Definition disk_bytes w : Prop := ∀ n, 0 ≤ n → Forall is_byte (disk w n).


Lemma fresh_mounted s v :
  fs_vol s = Some v → v_cache v = fresh_cache (v_geo v) → geo_ok (v_geo v) →
  fat_ok (v_geo v) (disk_size (fs_world s)) → data_ok (v_geo v) (disk_size (fs_world s)) →
  disk_size (fs_world s) < 2 ^ 32 → disk_bytes (fs_world s) → mounted s v.
Proof.
  intros Hv Hc Hg Hf Hd Hsz Hb. split; [split; [done|rewrite Hc; by apply fresh_cinv]|done|done|].
  intros x Hx. rewrite (volume_bytes_view s v x Hv), Hc. unfold image. rewrite fresh_view.
  apply byte_at_byte, Hb. apply Z.div_pos; [done|by apply bps_pos].
Qed.

(** * Counting the free clusters *)

(** The number of the entries of [l] that are free. *)
Definition count_free (T : Z → Z) (l : list Z) : nat := length (filter (λ n, T n = 0) l).

Lemma count_free_cons T n l : count_free T (n :: l) = ((if decide (T n = 0%Z) then 1 else 0) + count_free T l)%nat.
Proof. unfold count_free. rewrite filter_cons. by case_decide. Qed.

Lemma count_free_ext T T' l : (∀ n, n ∈ l → T n = T' n) → count_free T l = count_free T' l.
Proof.
  induction l as [|n l IH]; intros H; [done|]. rewrite !count_free_cons, IH by set_solver.
  rewrite H by set_solver. done.
Qed.

Lemma wp_scan_from count s v k n (Q : Z → fs W → Prop) :
  mounted s v → 2 ≤ k → k + Z.of_nat count ≤ v_data_clusters (v_geo v) + 2 →
  0 ≤ n → n + Z.of_nat count < 2 ^ 31 →
  (∀ v' s', frame v (fs_files s) (fs_channels s) s v' s' → quiet v v' → rewritten ∅ (v_geo v) s s' →
     Q (n + Z.of_nat (count_free (table s) (seqZ k (Z.of_nat count)))) s') →
  wp (scan_free_from k count n) Q s.
Proof.
  revert s v k n. induction count as [|count IH]; intros s v k n M Hk Hle Hn Hmax HQ; cbn [scan_free_from].
  - rewrite s32_small by lia. apply wp_ret. rewrite <- (Z.add_0_r n) at 1.
    apply (HQ v s); [by apply frame_refl|by destruct v|by apply rewritten_same].
  - pose proof (fo_clusters _ _ (mt_fat _ _ M)) as Hdc.
    assert (in_table (v_geo v) k) as Hin by (unfold in_table; lia).
    pose proof (table_nonneg s v k M Hin) as Hpos.
    rewrite seqZ_cons in HQ by lia. replace (Z.pred (Z.of_nat (S count))) with (Z.of_nat count) in HQ by lia.
    apply wp_bind. eapply wp_entry_read; [done|done|]. intros v1 s1 F1 Q1 R1.
    unfold guard_ret. rewrite (proj2 (Z.ltb_ge _ _)) by done.
    pose proof (fr_mounted _ _ _ _ _ _ F1) as M1.
    rewrite count_free_cons in HQ. unfold nz.
    set (n1 := if negb (negb (table s k =? 0)) then u32 (n + 1) else n).
    assert (n1 = n + if decide (table s k = 0) then 1 else 0) as En1.
    { unfold n1. destruct (Z.eqb_spec (table s k) 0); simpl; case_decide; try done; [|lia].
      apply u32_small. lia. }
    apply (IH s1 v1); [done|lia|rewrite (frame_geo _ _ _ _ _ _ F1); lia|case_decide; lia|case_decide; lia|].
    intros v2 s2 F2 Q2 R2. destruct (step_trans _ _ _ _ _ _ _ _ _ _ _ _ F1 R1 F2 R2) as [F R].
    rewrite (left_id_L ∅ (∪)) in R. rewrite (frame_files _ _ _ _ _ _ F1), (frame_channels _ _ _ _ _ _ F1) in F.
    specialize (HQ v2 s2 F (quiet_trans _ _ _ Q1 Q2) R).
    rewrite (count_free_ext (table s1) (table s)), En1.
    + unfold Z.succ in HQ. match type of HQ with Q ?x _ =>
        match goal with |- Q ?y _ => replace y with x; [exact HQ|] end end.
      case_decide; lia.
    + intros x. rewrite elem_of_seqZ. intros Hx.
      rewrite (table_rewritten s v s1 v1 _ _ x M F1 R1); [done|]. unfold in_table. lia.
Qed.

Lemma wp_scan_free_clusters s v (Q : Z → fs W → Prop) :
  mounted s v →
  (∀ v' s', frame v (fs_files s) (fs_channels s) s v' s' → quiet v v' → rewritten ∅ (v_geo v) s s' →
     Q (Z.of_nat (count_free (table s) (seqZ 2 (v_data_clusters (v_geo v))))) s') →
  wp scan_free_clusters Q s.
Proof.
  intros M HQ. pose proof (fo_clusters _ _ (mt_fat _ _ M)) as Hdc. unfold scan_free_clusters.
  apply wp_bind. eapply wp_geo; [by apply mounted_vol|]. rewrite u32_small by lia.
  replace (v_data_clusters (v_geo v) + 2 - 2) with (v_data_clusters (v_geo v)) by lia.
  eapply wp_scan_from; [done|lia|lia|lia|lia|]. rewrite Z2Nat.id by lia. exact HQ.
Qed.
End fresh.

(** * Mounting a FAT12 or FAT16 volume *)

Section mount.
Context {W : Type} `{FW : FatWorld W} `{FD : !FixedDisk W} `{FL : Fuel}.
Implicit Types (s : fs W) (v : Volume) (w : W).

(** The device exists and is not in use, memory is available and there is a
    current code page; none of the calls changes the blocks. *)
Record device_ready (name : bytes) : Prop := {
  dr_get w : 0 ≤ (block_get name w).1 ∧ same_disk w (block_get name w).2;
  dr_open w : 0 ≤ (bops_open w).1 ∧ same_disk w (bops_open w).2;
  dr_info w : (bops_get_medium_info w).1 = (0, (disk_size w, disk_block))
    ∧ same_disk w (bops_get_medium_info w).2;
  dr_nls w : 0 ≤ (nls_get_default w).1.1 ∧ same_disk w (nls_get_default w).2;
  dr_memory z w : (fd32_kmem_get z w).1 ≠ 0 }.

(** The memory right after the structure of the volume has been allocated. *)
Definition bare s w v : fs W :=
  mkFs w (Some v) ∅ {[ root_dentry := root_node ]} ∅ (fs_words s) (fs_pages s).

Section bare.
Context (s : fs W).
Lemma wp_bare_modv f w v (Q : () → fs W → Prop) : Q () (bare s w (f v)) → wp (modv f) Q (bare s w v).
Proof. done. Qed.
Lemma wp_bare_call {A} (f : W → A * W) w v (Q : A → fs W → Prop) :
  same_disk w (f w).2 → (∀ w', same_disk w w' → Q (f w).1 (bare s w' v)) → wp (call f) Q (bare s w v).
Proof. intros Hs HQ. exact (HQ _ Hs). Qed.
Lemma wp_bare_call_ (f : W → W) w v (Q : () → fs W → Prop) :
  same_disk w (f w) → (∀ w', same_disk w w' → Q () (bare s w' v)) → wp (call_ f) Q (bare s w v).
Proof. intros Hs HQ. exact (HQ _ Hs). Qed.
End bare.

(** A volume as [fat_mount] leaves it: nothing is open, the free clusters have
    been counted, and the bytes are those of the disk. *)
Record fresh_volume g w v s : Prop := {
  fv_mounted : mounted s v;
  fv_geo : v_geo v = g;
  fv_files : fs_files s = ∅;
  fv_channels : fs_channels s = ∅;
  fv_free : v_free_clusters v = Z.of_nat (count_free (table s) (seqZ 2 (v_data_clusters g)));
  fv_bytes x : 0 ≤ x → volume_bytes s x = image g (disk w) x }.

(** Everything of a volume is inside the disk, so that bytes outside the tables
    and table entries are all there is. *)
Lemma wp_mount_finish s w v secbuf size name (Q : Z * Z → fs W → Prop) :
  device_ready name → mounted (bare s w v) v → v_cache v = fresh_cache (v_geo v) →
  v_free_clusters v = FAT_FSI_NA →
  (∀ v' s', fresh_volume (v_geo v) w v' s' → Q (0, v_self v') s') →
  wp (mount_finish secbuf size) Q (bare s w v).
Proof.
  intros Hr M Hc Hna HQ. pose proof (fo_clusters _ _ (mt_fat _ _ M)) as Hdc. unfold mount_finish.
  apply wp_bind. eapply wp_getv; [done|]. apply wp_bind. rewrite Hna. simpl.
  apply wp_bind. eapply wp_scan_free_clusters; [done|]. intros v1 s1 F1 Q1 R1.
  set (n := Z.of_nat _). rewrite (proj2 (Z.ltb_ge n 0)) by lia. pose proof (fr_mounted _ _ _ _ _ _ F1) as M1.
  pose proof (frame_geo _ _ _ _ _ _ F1) as G1.
  apply wp_bind. eapply wp_modv; [by apply mounted_vol|]. apply wp_ret.
  rewrite (proj2 (Z.ltb_ge n 0)) by lia. set (s2 := _ <| fs_vol := _ |>).
  destruct (dr_nls _ Hr (fs_world s2)) as [Hn Hsame].
  apply wp_bind. apply wp_call_s.
  destruct (nls_get_default (fs_world s2)) as [[res nls] w3] eqn:En. simpl in Hn, Hsame. simpl.
  rewrite (proj2 (Z.ltb_ge _ _)) by done. 
  apply wp_bind. eapply wp_modv; [done|]. apply wp_bind, wp_modify, wp_ret.
  set (s' := _ <| fs_world ::= _ |>). destruct (fs_vol s') as [v'|] eqn:Ev; [|done].
  assert (v_geo v' = v_geo v1 ∧ v_cache v' = v_cache v1 ∧ v_free_clusters v' = n ∧ v_self v' = v_self v1)
    as (Eg & Ec & En' & Es) by by injection Ev as <-.
  assert (same_disk (fs_world s1) (fs_world s')) as Hsd.
  { eapply same_disk_trans; [exact Hsame|]. apply disk_kmem_free. }
  destruct (mounted_same_disk s1 v1 s' v' M1 Ev Eg Ec Hsd) as (M' & Hx & _ & Ht).
  replace (v_self v) with (v_self v') by by rewrite Es, Q1. apply HQ. split.
  - exact M'.
  - congruence.
  - change (fs_files s1 = ∅). by rewrite (frame_files _ _ _ _ _ _ F1).
  - change (fs_channels s1 = ∅). by rewrite (frame_channels _ _ _ _ _ _ F1).
  - rewrite En'. unfold n. f_equal. apply count_free_ext. intros x Hin%elem_of_seqZ. rewrite Ht.
    symmetry. eapply table_rewritten; [exact M|exact F1|exact R1|]. unfold in_table. lia.
  - intros x Hp. rewrite Hx, (rw_none _ _ _ _ R1) by done.
    rewrite (volume_bytes_view _ v) by done. unfold image. by rewrite Hc, fresh_view.
Qed.

Lemma wp_fat_mount s name (Q : Z * Z → fs W → Prop) :
  let w := fs_world s in let boot := disk w 0 in
  device_ready name → 0 < disk_size w < 2 ^ 32 → disk_bytes w →
  bpb_valid boot (disk_size w) = true → layout_ok boot → bpb_bytes_per_sector boot = disk_block →
  v_fat_type (mount_geometry boot) ≠ FAT32 →
  (∀ v' s', fresh_volume (mount_geometry boot) w v' s' → Q (0, v_self v') s') →
  wp (fat_mount name) Q s.
Proof.
  cbv zeta. set (w := fs_world s). set (boot := disk w 0). intros Hr Hsz Hb Hv Hl Hbps Ht HQ.
  unfold fat_mount. apply wp_bind, wp_call_s. fold w.
  assert (∀ z w, nz (fd32_kmem_get z w).1 = true) as Hnz.
  { intros z w0. unfold nz. by rewrite (proj2 (Z.eqb_neq _ _)) by apply (dr_memory _ Hr). }
  rewrite Hnz. unfold guard_ret. cbn [negb]. set (w1 := (fd32_kmem_get _ w).2).
  assert (same_disk w w1) as D1 by apply disk_kmem_get. clearbody w1.
  apply wp_bind, wp_modify. set (v1 := empty_volume _).
  match goal with |- wp ?m ?Q _ => change (wp m Q (bare s w1 v1)) end.
  apply wp_bind, wp_bare_call; [apply (dr_get _ Hr)|]. intros w2 D2%(same_disk_trans _ _ _ D1).
  rewrite (proj2 (Z.ltb_ge _ _)) by apply (dr_get _ Hr).
  apply wp_bind, wp_bare_modv, wp_bind, wp_bare_call; [apply (dr_open _ Hr)|].
  intros w3 D3%(same_disk_trans _ _ _ D2). rewrite (proj2 (Z.ltb_ge _ _)) by apply (dr_open _ Hr).
  apply wp_bind, wp_bare_modv, wp_bind, wp_bare_call; [apply (dr_info _ Hr)|].
  intros w4 D4%(same_disk_trans _ _ _ D3). rewrite (proj1 (dr_info _ Hr _)). simpl.
  apply wp_bind, wp_bare_call; [apply disk_kmem_get|]. intros w5 D5%(same_disk_trans _ _ _ D4).
  rewrite Hnz. cbn [negb]. set (secbuf := (fd32_kmem_get _ _).1). clearbody secbuf.
  destruct (disk_read 0 1 w5) as (Er & Dr1 & Dr2); [rewrite (proj1 D5); lia|lia|].
  apply wp_bind, wp_bare_call; [done|]. intros w6 D6%(same_disk_trans _ _ _ D5).
  rewrite Er, Z.min_l by (rewrite (proj1 D5); lia).
  assert (blocks (disk w5) 0 1 = boot) as Eb.
  { change 1 with (0 + 1). rewrite blocks_S by done. unfold blocks. simpl. rewrite app_nil_r. apply D5. }
  rewrite Eb. replace (disk_size w3) with (disk_size w) by by rewrite (proj1 D3). rewrite Hv. cbn [negb].
  pose proof (mount_geo_ok boot _ Hv Hbps) as Hgo.
  assert (512 ≤ Z.of_nat (length boot)) as Hlen.
  { unfold boot. rewrite disk_length by (fold w; lia). pose proof (go_log _ Hgo) as [Hlg Hp].
    rewrite (go_bps _ Hgo) in Hp. rewrite Hp. change 512 with (2 ^ 9). apply Z.pow_le_mono_r; lia. }
  rewrite in_block_true by lia.
  simpl negb. set (g := mount_geometry boot) in *. cbn [Z.ltb Z.compare].
  apply wp_bind, wp_bare_modv, wp_bind. eapply wp_geo; [done|]. cbn [v_geo]. 
  unfold alloc_buffers.
  apply wp_bind, wp_bare_call; [apply disk_kmem_get|]. intros w7 D7%(same_disk_trans _ _ _ D6).
  apply wp_bind, wp_bare_modv. rewrite Hnz. cbn [negb].
  apply wp_bind, wp_bare_call; [apply disk_kmem_get|]. intros w8 D8%(same_disk_trans _ _ _ D7).
  apply wp_bind, wp_bare_modv. rewrite Hnz. cbn [negb].
  apply wp_bind, wp_bare_modv, wp_bind, wp_bare_modv.
  match goal with |- wp _ _ (bare s w8 ?x) => set (v9 := x) end.
  assert (v_geo v9 = g) as G9 by done. assert (v_cache v9 = fresh_cache g) as C9 by done.
  assert (v_free_clusters v9 = FAT_FSI_NA) as N9 by done. clearbody v9. cbv beta.
  unfold id. cbn [v_geo]. match goal with |- wp ?m _ _ =>
    replace m with (mount_finish (W := W) secbuf disk_block) by (revert Ht; by destruct (v_fat_type g)) end.
  assert (disk_size w8 = disk_size w) as Z8 by apply D8.
  eapply (wp_mount_finish s w8 v9 _ _ name); [done| |by rewrite G9|done|].
  - apply fresh_mounted; rewrite ?G9; cbn [bare fs_world fs_vol]; rewrite ?Z8; try done.
    + apply mount_fat_ok; (done || lia).
    + apply mount_data_ok; (done || lia).
    + lia.
    + intros n Hn. rewrite (proj2 D8). by apply Hb.
  - intros v' s' Hfv. rewrite G9 in Hfv. apply HQ. destruct Hfv as [? ? ? ? ? Hbytes]. split; try done.
    intros x Hx. rewrite Hbytes by done. unfold image. by rewrite (proj2 D8).
Qed.
End mount.
