(* ===== verification/FatRequest.v ===== *)
(** The request function of the FAT driver ([fat_request] of
    [src/fd32/modules/fat/fd32.c]): what the kernel calls. *)
From S2P Require Import Prelude Errno Lists Nls Slab.
From S2P Require Import FatTypes FatBuffer FatAlloc FatFile FatOpen FatDir FatLink FatDos FatPath.
From S2P Require Import FatVolume.

(** A function code with the fields of its parameters the driver reads. The
    volume of a request is the mounted one. *)
Inductive request :=
| FD32_READ (DeviceId : Z) (Buffer : bool) (BufferBytes : Z)
| FD32_WRITE (DeviceId : Z) (Buffer : option bytes) (BufferBytes : Z)
| FD32_LSEEK (DeviceId Offset Origin : Z)
| FD32_OPENFILE (FileName : bytes) (Mode Attr : Z)
| FD32_CLOSE (DeviceId : Z)
| FD32_FINDFIRST (path : bytes) (attrib : Z) (find_data : fd32_fs_dosfind_t)
| FD32_FINDNEXT (find_data : fd32_fs_dosfind_t)
| FD32_FINDFILE (dir : Z) (name : bytes) (flags : Z) (find_data : fd32_fs_lfnfind_t)
| FD32_FFLUSH (DeviceId : Z)
| FD32_OPEN (DeviceId : Z)
| FD32_GETATTR (FileId : Z) (Attr : fd32_fs_attr_t)
| FD32_SETATTR (FileId : Z) (Attr : fd32_fs_attr_t)
| FD32_UNLINK (FileName : bytes)
| FD32_RENAME (OldName NewName : bytes)
| FD32_MKDIR (DirName : bytes)
| FD32_RMDIR (DirName : bytes)
| FD32_MOUNT (BlkDev : bytes)
| FD32_UNMOUNT
| FD32_PARTCHECK (PartId : Z)
| FD32_GETFSINFO (FSInfo : fd32_fs_info_t)
| FD32_GETFSFREE (params : fd32_getfsfree_t)
| FD32_OTHER (function : Z).

(** What a request stores through its parameters. *)
Inductive reply :=
| RNothing
| RBytes (l : bytes)
| ROffset (p : Z)
| RHandle (c : Z)
| RDosFind (df : fd32_fs_dosfind_t)
| RLfnFind (lf : fd32_fs_lfnfind_t)
| RAttr (a : fd32_fs_attr_t)
| RFsInfo (i : fd32_fs_info_t)
| RFsFree (i : fd32_getfsfree_t).

Section request.
Context {W : Type} `{FatWorld W} `{Fuel}.
Notation FM := (M (fs W)).

(** [res = fat_blockdev_test_unit_ready(v); if (res < 0) return res] *)
Definition when_ready (k : FM (Z * reply)) : FM (Z * reply) :=
  res ← fat_blockdev_test_unit_ready;
  guard_ret (res <? 0) (res, RNothing) k.

(** [c->f->v] is read first. *)
Definition on_channel (c : Z) (k : FM (Z * reply)) : FM (Z * reply) :=
  ch ← getchannel c;
  _ ← getfile (c_f ch);
  when_ready k.

(** [if (v->magic != FAT_VOL_MAGIC) return -ENODEV] *)
Definition on_volume (k : FM (Z * reply)) : FM (Z * reply) :=
  v ← getv;
  guard_ret (negb (v_magic v =? FAT_VOL_MAGIC)) (- ENODEV, RNothing) (when_ready k).

(** [if (c->magic != FAT_CHANNEL_MAGIC) return -EBADF] *)
Definition valid_channel (c : Z) (k : FM (Z * reply)) : FM (Z * reply) :=
  ch ← getchannel c;
  guard_ret (negb (c_magic ch =? FAT_CHANNEL_MAGIC)) (- EBADF, RNothing) k.

Definition plain (m : FM Z) : FM (Z * reply) := r ← m; mret (r, RNothing).
Definition with_reply {A} (f : A → reply) (m : FM (Z * A)) : FM (Z * reply) :=
  r ← m; mret (r.1, f r.2).
Definition size_of (s : bytes) : Z := Z.of_nat (length s).

Definition fat_request (function : request) : FM (Z * reply) :=
  match function with
  | FD32_READ c buffer n => on_channel c (with_reply RBytes (fat_read c buffer n))
  | FD32_WRITE c buffer n => on_channel c (plain (fat_write c buffer n))
  | FD32_LSEEK c offset origin =>
      res ← fat_lseek c offset origin;
      if res <? 0 then mret (s32 res, RNothing) else mret (0, ROffset res)
  | FD32_OPENFILE name mode attr =>
      when_ready (with_reply RHandle (fat_open_pr root_dentry name (size_of name) mode attr))
  | FD32_CLOSE c => on_channel c (plain (fat_close c))
  | FD32_FINDFIRST path attrib df =>
      on_volume (with_reply RDosFind (fat_findfirst_pr root_dentry path (size_of path) attrib df))
  | FD32_FINDNEXT df => on_volume (with_reply RDosFind (fat_findnext df))
  | FD32_FINDFILE c name flags lf =>
      valid_channel c (on_channel c (with_reply RLfnFind (fat_findfile c name flags lf)))
  | FD32_FFLUSH c => on_channel c (plain (fat_fsync c false))
  | FD32_OPEN c =>
      valid_channel c (
        modchannel c (λ ch, ch <| c_references ::= λ n, u32 (n + 1) |>);;
        ch ← getchannel c;
        mret (s32 (c_references ch), RNothing))
  | FD32_GETATTR c a => with_reply RAttr (fat_get_attr c a)
  | FD32_SETATTR c a => valid_channel c (on_channel c (plain (fat_set_attr c a)))
  | FD32_UNLINK name => on_volume (plain (fat_unlink_pr root_dentry name (size_of name)))
  | FD32_RENAME old new =>
      on_volume (plain (fat_rename_pr root_dentry old (size_of old) root_dentry new (size_of new)))
  | FD32_MKDIR name => on_volume (plain (fat_mkdir_pr root_dentry name (size_of name) 0))
  | FD32_RMDIR name => on_volume (plain (fat_rmdir_pr root_dentry name (size_of name)))
  | FD32_MOUNT blk => with_reply RHandle (fat_mount blk)
  | FD32_UNMOUNT => on_volume (plain fat_unmount)
  | FD32_PARTCHECK id => mret (fat_partcheck id, RNothing)
  | FD32_GETFSINFO i => r ← deref (fat_get_fsinfo i); mret (r.1, RFsInfo r.2)
  | FD32_GETFSFREE p => with_reply RFsFree (fat_get_fsfree p)
  | FD32_OTHER _ => mret (- ENOTSUP, RNothing)
  end.
End request.
