(* ===== verification/FatWrite.v ===== *)
(** Correctness of [fat_do_write] and [fat_write] ([FatFile]): the bytes of the
    buffer become the bytes of the file from the offset on, clusters being added
    to its chain as needed; other files and the rest of the file stay as they
    are. A full volume cuts the write short. *)
From S2P Require Import Prelude Errno Lists Nls Slab FatTypes FatDisk FatBuffer FatAlloc FatFile.
From S2P Require Import FatCache FatTable FatChain FatRead.

(** * Addresses of the bytes of files *)

(** Where cluster [n] starts. *)
Definition cluster_base (g : Geometry) (n : Z) : Z :=
  cluster_sector g n 0 * v_bytes_per_sector g.

Section addr.
Context (g : Geometry) (size : Z) (Hb : 0 < v_bytes_per_sector g) (Hd : data_ok g size).
Implicit Types (l : list Z).

Lemma cluster_base_apart n m :
  n ≠ m → cluster_base g n + cluster_bytes g ≤ cluster_base g m ∨ cluster_base g m + cluster_bytes g ≤ cluster_base g n.
Proof.
  intros Hne. pose proof (spc_pos _ _ Hd). unfold cluster_base, cluster_sector, cluster_bytes.
  destruct (Z.lt_total n m) as [?|[?|?]]; [left|done|right]; nia.
Qed.

(** A byte of a file lies in its cluster. *)
Lemma file_addr_base l i n :
  0 ≤ i → l !! Z.to_nat (i / cluster_bytes g) = Some n →
  file_addr g l i = cluster_base g n + i mod cluster_bytes g.
Proof.
  intros Hi Hn. pose proof (spc_pos _ _ Hd) as Hs. unfold file_addr. rewrite (cluster_index_eq g size Hb Hd), nth_lookup, Hn.
  simpl. unfold cluster_base, cluster_sector, cluster_bytes in *.
  set (b := v_bytes_per_sector g) in *. set (sp := v_sectors_per_cluster g) in *.
  rewrite (Z.mul_comm sp b), Z.rem_mul_r by lia. lia.
Qed.

Lemma file_addr_lookup l i :
  0 ≤ i < Z.of_nat (length l) * cluster_bytes g → is_Some (l !! Z.to_nat (i / cluster_bytes g)).
Proof.
  intros Hi. apply lookup_lt_is_Some_2. rewrite <- (cluster_index_eq g size Hb Hd).
  rewrite (cluster_index_lt g size Hb Hd l i); lia.
Qed.

Lemma file_addr_prefix l l' i :
  l `prefix_of` l' → 0 ≤ i < Z.of_nat (length l) * cluster_bytes g → file_addr g l' i = file_addr g l i.
Proof.
  intros [k ->] Hi. destruct (file_addr_lookup l i Hi) as [n Hn].
  rewrite (file_addr_base l i n), (file_addr_base (l ++ k) i n); [done|lia|by apply lookup_app_l_Some|lia|done].
Qed.

(** Bytes of different clusters, and different bytes of a file, have different
    addresses; the bytes of a sector follow one another. *)
Lemma file_addr_apart l l2 i j len :
  (∀ x, x ∈ l2 → x ∉ l) → 0 ≤ i < Z.of_nat (length l) * cluster_bytes g →
  i mod cluster_bytes g + len ≤ cluster_bytes g →
  0 ≤ j < Z.of_nat (length l2) * cluster_bytes g →
  file_addr g l2 j < file_addr g l i ∨ file_addr g l i + len ≤ file_addr g l2 j.
Proof.
  intros Hdis Hi Hlen Hj. pose proof (cluster_bytes_pos g size Hb Hd) as Hc.
  destruct (file_addr_lookup l i Hi) as [n Hn]. destruct (file_addr_lookup l2 j Hj) as [m Hm].
  rewrite (file_addr_base l i n), (file_addr_base l2 j m) by (done || lia).
  pose proof (Z.mod_pos_bound i _ Hc). pose proof (Z.mod_pos_bound j _ Hc).
  assert (n ≠ m) as Hne.
  { intros ->. apply (Hdis m); by eapply list_elem_of_lookup_2. }
  destruct (cluster_base_apart n m Hne); lia.
Qed.

Lemma file_addr_other l i j len :
  NoDup l → 0 ≤ i < Z.of_nat (length l) * cluster_bytes g →
  i mod cluster_bytes g + len ≤ cluster_bytes g → j < i ∨ i + len ≤ j →
  0 ≤ j < Z.of_nat (length l) * cluster_bytes g →
  file_addr g l j < file_addr g l i ∨ file_addr g l i + len ≤ file_addr g l j.
Proof.
  intros Hnd Hi Hlen Ho Hj. pose proof (cluster_bytes_pos g size Hb Hd) as Hc.
  destruct (file_addr_lookup l i Hi) as [n Hn]. destruct (file_addr_lookup l j Hj) as [m Hm].
  rewrite (file_addr_base l i n), (file_addr_base l j m) by (done || lia).
  pose proof (Z.mod_pos_bound i _ Hc). pose proof (Z.mod_pos_bound j _ Hc).
  pose proof (Z.div_mod i (cluster_bytes g) ltac:(lia)). pose proof (Z.div_mod j (cluster_bytes g) ltac:(lia)).
  destruct (decide (n = m)) as [->|Hne]; [|destruct (cluster_base_apart n m Hne); lia].
  pose proof (NoDup_lookup _ _ _ _ Hnd Hn Hm) as E. apply Z2Nat.inj in E; [|apply Z.div_pos; lia..].
  rewrite E in *. lia.
Qed.

Lemma file_addr_succ l i k :
  0 ≤ i → 0 ≤ k → i mod cluster_bytes g + k < cluster_bytes g → i + k < Z.of_nat (length l) * cluster_bytes g →
  file_addr g l (i + k) = file_addr g l i + k.
Proof.
  intros Hi Hk Hle Hlt. pose proof (cluster_bytes_pos g size Hb Hd) as Hc.
  destruct (file_addr_lookup l i ltac:(lia)) as [n Hn]. pose proof (Z.mod_pos_bound i _ Hc).
  pose proof (Z.div_mod i (cluster_bytes g) ltac:(lia)) as E.
  assert ((i + k) / cluster_bytes g = i / cluster_bytes g) as E1
    by (symmetry; apply (Z.div_unique _ _ _ (i mod cluster_bytes g + k)); lia).
  assert ((i + k) mod cluster_bytes g = i mod cluster_bytes g + k) as E2
    by (symmetry; apply (Z.mod_unique _ _ (i / cluster_bytes g)); lia).
  rewrite (file_addr_base l (i + k) n), (file_addr_base l i n) by (rewrite ?E1; done || lia). lia.
Qed.

(** The data area lies behind the tables. *)
Lemma file_addr_data l i :
  Forall (cluster g) l → 0 ≤ i < Z.of_nat (length l) * cluster_bytes g →
  v_data_start g * v_bytes_per_sector g ≤ file_addr g l i.
Proof.
  intros Hl Hi. destruct (file_addr_lookup l i Hi) as [n Hn]. rewrite (file_addr_base l i n) by (done || lia).
  eapply Forall_lookup in Hl; [|exact Hn]. pose proof (spc_pos _ _ Hd).
  pose proof (Z.mod_pos_bound i _ (cluster_bytes_pos g size Hb Hd)). unfold cluster_base, cluster_sector, cluster in *. nia.
Qed.
End addr.

Section write.
Context {W : Type} `{FW : FatWorld W} `{FD : !FixedDisk W} `{FL : Fuel}.
Implicit Types (s : fs W) (v : Volume) (g : Geometry).

(** * Storing bytes in a sector *)

Lemma wp_store_s {A} s v k ofs n o bs (K : Z → M (fs W) A) (Q : A → fs W → Prop) :
  mounted s v → in_disk (fs_world s) n → holds v k ofs n → 0 ≤ o →
  o + Z.of_nat (length bs) ≤ v_bytes_per_sector (v_geo v) → Forall is_byte bs →
  (∀ v' s', frame v (fs_files s) (fs_channels s) s v' s' → quiet v v' → holds v' k ofs n →
     (∀ x, 0 ≤ x → volume_bytes s' x = put (volume_bytes s) (n * v_bytes_per_sector (v_geo v) + o) bs x) →
     wp (K 0) Q s') →
  wp (write_data k (ofs + o) bs;; res ← fat_dirtybuf k false; K res) Q s.
Proof.
  intros M Hn [Hat Hofs] Ho Hle Hbs HQ. destruct (mt_cache _ _ M) as [Hv I]. pose proof (mounted_geo _ _ M) as Hg.
  set (g := v_geo v) in *. eapply wp_setc_id; [done|].
  assert (acc g [] (image g (view g (v_cache v) (fs_world s))) [(k, ofs, n)] (v_cache v) (fs_world s)) as A0.
  { split; [done|done|]. intros k' ofs' n' Hin. apply list_elem_of_singleton in Hin. by simplify_eq. }
  assert ((k, ofs, n) ∈ [(k, ofs, n)]) as Hin by set_solver.
  rewrite Z.add_comm. apply wp_bind. eapply wp_acc_write; [done|done|exact A0|exact Hin|done|done|].
  intros c1 A1. apply wp_bind. eapply (wp_acc_dirty _ _ _ _ _ _ []); [done|done|exact A1|exact Hin|set_solver|].
  intros c2 A2. pose proof (ac_inv _ _ _ _ _ _ A2) as I2.
  set (img := put _ _ _) in A2.
  assert (∀ x, 0 ≤ x → image g (view g c2 (fs_world s)) x = img x) as Him.
  { intros x Hx. by apply (ac_img _ _ _ _ _ _ A2). }
  destruct (setc_frame s v c2 (fs_world s) M I2) as (F & Q' & Hx & Hv'); [done| |].
  { intros x Hpos. fold g. rewrite Him by done. apply put_bytes; [|done|done]. intros y Hy.
    rewrite <- (volume_bytes_view s v) by done. by apply M. }
  eapply HQ; [exact F|exact Q'| |].
  - split; [|done]. by destruct (ac_at _ _ _ _ _ _ A2 _ _ _ Hin).
  - intros x Hpos. rewrite Hx by done. fold g. rewrite Him by done. apply put_ext.
    by rewrite (volume_bytes_view s v).
Qed.

(** Data beyond the tables leaves every entry as it is. *)
Lemma entry_beyond s v s' v' k n :
  mounted s v → fs_vol s' = Some v' → v_geo v' = v_geo v → 0 ≤ k < v_num_fats (v_geo v) → in_table (v_geo v) n →
  (∀ x, 0 ≤ x < fat_addr (v_geo v) (v_num_fats (v_geo v)) → volume_bytes s' x = volume_bytes s x) →
  entry s' k n = entry s k n.
Proof.
  intros M Hv' Hg Hk Hn He. unfold entry. rewrite (mounted_vol _ _ M), Hv', Hg. unfold fat_entry. f_equal.
  pose proof (mt_fat _ _ M) as Hf. apply entry_bits_agree. intros x Hx. apply He.
  pose proof (entry_in_copy _ _ Hf k n ltac:(lia) Hn).
  pose proof (fat_addr_mono _ _ (bps_pos _ (mounted_geo _ _ M)) Hf (k + 1) (v_num_fats (v_geo v)) ltac:(lia)).
  pose proof (fat_addr_pos _ _ k (mounted_geo _ _ M) Hf ltac:(lia)). lia.
Qed.

(** * Files being written *)

Record writer s v (c : Z) (ch : Channel) (f : File) (l : list Z) : Prop := {
  wt_mounted : mounted s v;
  wt_handle : c ≠ 0 ∧ c_f ch ≠ 0;
  wt_channel : fs_channels s !! c = Some ch;
  wt_file : fs_files s !! c_f ch = Some f;
  wt_entry : f_de_sector f ≠ 0;
  wt_chain : file_chain s v f l;
  wt_position : position_ok l ch;
  wt_size : 0 ≤ de_file_size (f_de f) < 2 ^ 32 }.

Lemma writer_open s v c ch f l : writer s v c ch f l → l ≠ [] → open_file s v c ch f l.
Proof. intros [M [Hc Hcf] Hch Hf He [[H1 H2]|Hl] Hp Hs] Hne; [done|]. by split. Qed.

(** What a write changes of the file: its size, the first cluster of an empty
    file, its dates and archive attribute, and the mark that the entry has
    changed. *)
Definition written_entry (f f' : File) : Prop :=
  (de_attr (f_de f') = de_attr (f_de f) ∨ de_attr (f_de f') = Z.lor (de_attr (f_de f)) FAT_AARCHIV) ∧
  f' = f <| f_de ::= λ d, d <| de_first_cluster_hi := de_first_cluster_hi (f_de f') |>
               <| de_first_cluster_lo := de_first_cluster_lo (f_de f') |>
               <| de_file_size := de_file_size (f_de f') |> <| de_attr := de_attr (f_de f') |>
               <| de_mod_time := de_mod_time (f_de f') |> <| de_mod_date := de_mod_date (f_de f') |>
               <| de_acc_date := de_acc_date (f_de f') |> |>
         <| f_first_cluster := f_first_cluster f' |> <| f_de_changed := f_de_changed f' |>.

(** The size after a write up to [n]; a directory has no size. *)
Definition grown (f : File) (n : Z) : Z :=
  if is_dir f then de_file_size (f_de f) else Z.max (de_file_size (f_de f)) n.

(** A channel that has moved: its cached position and its file pointer. *)
Definition moved (ch ch' : Channel) : Prop :=
  ch' = ch <| c_cluster_index := c_cluster_index ch' |> <| c_cluster := c_cluster ch' |>
           <| c_file_pointer := c_file_pointer ch' |>.

(** The bytes [data] have been written at [offset]: from the file of clusters [l]
    in state [s] to the one of clusters [l'] in state [s']. *)
Record wrote s v c ch f l (offset : Z) (data : bytes) s' v' ch' f' l' : Prop := {
  wr_frame : frame v (<[c_f ch := f']> (fs_files s)) (<[c := ch']> (fs_channels s)) s v' s';
  wr_writer : writer s' v' c ch' f' l';
  wr_channel : moved ch ch';
  wr_file : written_entry f f';
  wr_size : de_file_size (f_de f') = grown f (offset + Z.of_nat (length data));
  wr_prefix : l `prefix_of` l';
  wr_data : file_bytes s' (v_geo v) l' offset (Z.of_nat (length data)) = data;
  wr_room : offset + Z.of_nat (length data) ≤ Z.of_nat (length l') * cluster_bytes (v_geo v);
  wr_kept i : 0 ≤ i < Z.of_nat (length l) * cluster_bytes (v_geo v) →
    i < offset ∨ offset + Z.of_nat (length data) ≤ i →
    volume_bytes s' (file_addr (v_geo v) l i) = volume_bytes s (file_addr (v_geo v) l i);
  wr_others m l2 : chain (v_geo v) (table s) m l2 → (∀ x, x ∈ l2 → x ∉ l) →
    chain (v_geo v) (table s') m l2 ∧ (∀ x, x ∈ l2 → x ∉ l') ∧
    ∀ i, 0 ≤ i < Z.of_nat (length l2) * cluster_bytes (v_geo v) →
      volume_bytes s' (file_addr (v_geo v) l2 i) = volume_bytes s (file_addr (v_geo v) l2 i);
  wr_out x : 0 ≤ x < v_data_start (v_geo v) * v_bytes_per_sector (v_geo v) →
    x < fat_addr (v_geo v) 0 ∨ fat_addr (v_geo v) (v_num_fats (v_geo v)) ≤ x →
    volume_bytes s' x = volume_bytes s x }.

Lemma moved_refl ch : moved ch ch.
Proof. by destruct ch. Qed.
Lemma moved_trans ch ch1 ch2 : moved ch ch1 → moved ch1 ch2 → moved ch ch2.
Proof. unfold moved. intros H1 H2. rewrite H2, H1. done. Qed.
Lemma same_channel_moved ch ch' : same_channel ch ch' → moved ch ch' ∧ c_file_pointer ch' = c_file_pointer ch.
Proof. unfold same_channel. intros ->. by destruct ch. Qed.

Lemma written_entry_refl f : written_entry f f.
Proof. split; [by left|]. by destruct f as [[] ?????]. Qed.
Lemma written_entry_trans f f1 f2 : written_entry f f1 → written_entry f1 f2 → written_entry f f2.
Proof.
  intros [A1 H1] [A2 H2]. split; [|by rewrite H2, H1].
  destruct A2 as [->| ->], A1 as [->| ->]; auto. right. by rewrite <- Z.lor_assoc, Z.lor_diag.
Qed.
Lemma written_entry_dir f f' : written_entry f f' → is_dir f' = is_dir f.
Proof.
  intros [[A|A] _]; unfold is_dir; rewrite A; [done|]. unfold has. by rewrite Z.land_lor_distr_l, Z.lor_0_r.
Qed.
Lemma written_entry_sector f f' : written_entry f f' → f_de_sector f' = f_de_sector f.
Proof. intros [_ ->]. done. Qed.

(** An offset inside the file, as [fat_do_write] expects. *)
Definition inside v (f : File) (l : list Z) (offset : Z) : Prop :=
  0 ≤ offset ≤ Z.of_nat (length l) * cluster_bytes (v_geo v) ∧
  (is_dir f = false → offset ≤ de_file_size (f_de f)).

Lemma wrote_refl s v c ch f l offset :
  writer s v c ch f l → inside v f l offset → wrote s v c ch f l offset [] s v ch f l.
Proof.
  intros Wt [Ho1 Ho2]. split; try done.
  - rewrite !insert_id by apply Wt. apply frame_refl, Wt.
  - apply moved_refl.
  - apply written_entry_refl.
  - unfold grown. simpl. destruct (is_dir f); [done|]. specialize (Ho2 eq_refl). lia.
  - simpl. lia.
Qed.

Lemma wrote_trans s v c ch f l offset d1 s1 v1 ch1 f1 l1 d2 s2 v2 ch2 f2 l2 :
  0 ≤ offset → wrote s v c ch f l offset d1 s1 v1 ch1 f1 l1 →
  wrote s1 v1 c ch1 f1 l1 (offset + Z.of_nat (length d1)) d2 s2 v2 ch2 f2 l2 →
  wrote s v c ch f l offset (d1 ++ d2) s2 v2 ch2 f2 l2.
Proof.
  intros Ho W1 W2. pose proof (frame_geo _ _ _ _ _ _ (wr_frame _ _ _ _ _ _ _ _ _ _ _ _ _ W1)) as G.
  destruct W1 as [F1 Wt1 C1 E1 S1 P1 D1 R1 K1 O1 X1], W2 as [F2 Wt2 C2 E2 S2 P2 D2 R2 K2 O2 X2]. rewrite G in *.
  pose proof (mounted_geo _ _ (wt_mounted _ _ _ _ _ _ Wt1)) as Hg. rewrite G in Hg.
  pose proof (bps_pos _ Hg) as Hb. pose proof (mt_data _ _ (wt_mounted _ _ _ _ _ _ Wt1)) as Hd. rewrite G in Hd.
  split; rewrite ?length_app, ?Nat2Z.inj_add, ?Z.add_assoc.
  - pose proof (frame_trans _ _ _ _ _ _ _ _ _ _ F1 F2) as F.
    rewrite (frame_files _ _ _ _ _ _ F1), (frame_channels _ _ _ _ _ _ F1), insert_insert_eq in F.
    replace (c_f ch1) with (c_f ch) in F by by rewrite C1. by rewrite insert_insert_eq in F.
  - done.
  - by eapply moved_trans.
  - by eapply written_entry_trans.
  - rewrite S2. unfold grown in *. rewrite (written_entry_dir _ _ E1), S1. destruct (is_dir f); [done|]. lia.
  - by etrans.
  - unfold file_bytes in *. rewrite tabulate_add by lia. rewrite D2. f_equal. rewrite <- D1 at 2.
    apply tabulate_ext. intros i Hi. rewrite (file_addr_prefix _ _ Hb Hd l1 l2) by (done || lia).
    apply K2; lia.
  - done.
  - intros i Hi Hout. pose proof (prefix_length _ _ P1). pose proof (cluster_bytes_pos _ _ Hb Hd).
    rewrite <- K1 by lia. rewrite <- (file_addr_prefix _ _ Hb Hd l l1) by done. apply K2; nia.
  - intros m k Hk Hdis. destruct (O1 m k Hk Hdis) as (H1 & H2 & H3). destruct (O2 m k H1 H2) as (H4 & H5 & H6).
    split_and!; [done|done|]. intros i Hi. by rewrite H6, H3.
  - intros x Hx Hout. by rewrite X2, X1.
Qed.

(** * The steps of the loop *)

Lemma file_chain_rewritten s v s' v' files chs f l :
  mounted s v → frame v files chs s v' s' → rewritten ∅ (v_geo v) s s' →
  file_chain s v f l → file_chain s' v' f l.
Proof. intros M F R [H|H]; [by left|right]. by eapply chain_rewritten. Qed.

(** A step that changes no byte of the volume. *)
Lemma wrote_quiet s v c ch f l offset v' s' ch' f' :
  writer s v c ch f l → inside v f l offset →
  frame v (<[c_f ch := f']> (fs_files s)) (<[c := ch']> (fs_channels s)) s v' s' → rewritten ∅ (v_geo v) s s' →
  position_ok l ch' → moved ch ch' → written_entry f f' → f_first_cluster f' = f_first_cluster f →
  de_file_size (f_de f') = de_file_size (f_de f) →
  wrote s v c ch f l offset [] s' v' ch' f' l.
Proof.
  intros Wt [Ho1 Ho2] F R P C E E1 E2. pose proof (wt_mounted _ _ _ _ _ _ Wt) as M.
  pose proof (mounted_geo _ _ M) as Hg. pose proof (bps_pos _ Hg) as Hb. pose proof (mt_data _ _ M) as Hd.
  assert (∀ k i, Forall (cluster (v_geo v)) k → 0 ≤ i < Z.of_nat (length k) * cluster_bytes (v_geo v) →
    volume_bytes s' (file_addr (v_geo v) k i) = volume_bytes s (file_addr (v_geo v) k i)) as Hsame.
  { intros k i Hk Hi. apply (rw_none _ _ _ _ R); [done|]. by eapply file_addr_nonneg. }
  pose proof (file_chain_cluster _ _ _ _ (wt_chain _ _ _ _ _ _ Wt)) as Hl.
  split; try done.
  - assert (c_f ch' = c_f ch) as Ec by by rewrite C.
    split; rewrite ?Ec; try apply Wt; try done.
    + apply F.
    + by rewrite (frame_channels _ _ _ _ _ _ F), lookup_insert_eq.
    + by rewrite (frame_files _ _ _ _ _ _ F), lookup_insert_eq.
    + rewrite (written_entry_sector _ _ E). apply Wt.
    + eapply file_chain_rewritten; [done..|]. unfold file_chain. rewrite E1. apply Wt.
    + rewrite E2. apply Wt.
  - rewrite E2. unfold grown. simpl. destruct (is_dir f); [done|]. specialize (Ho2 eq_refl). lia.
  - simpl. lia.
  - intros i Hi _. by apply Hsame.
  - intros m k Hk Hdis. split_and!; [|done|].
    + rewrite <- (frame_geo _ _ _ _ _ _ F). by eapply chain_rewritten.
    + intros i Hi. apply Hsame; [by eapply chain_cluster|done].
  - intros x Hx _. apply (rw_none _ _ _ _ R); [done|lia].
Qed.

Lemma wp_sector_w s v c ch f l offset si (Q : Z * Z → fs W → Prop) :
  writer s v c ch f l → inside v f l offset → 0 ≤ si < 2 ^ 32 →
  (∀ v' s' ch', wrote s v c ch f l offset [] s' v' ch' f l → c_file_pointer ch' = c_file_pointer ch →
     let k := Z.to_nat (si / v_sectors_per_cluster (v_geo v)) in
     (l !! k = None → l ≠ [] → last l = Some (c_cluster ch')) →
     Q (match l !! k with
        | Some n => (0, cluster_sector (v_geo v) n (si mod v_sectors_per_cluster (v_geo v)))
        | None => (1, 0)
        end) s') →
  wp (fat_get_file_sector c si) Q s.
Proof.
  intros Wt Hin Hsi HQ. destruct (decide (l = [])) as [->|Hne].
  - pose proof (file_chain_first _ _ _ _ (wt_chain _ _ _ _ _ _ Wt)) as Hz. simpl in Hz.
    unfold fat_get_file_sector. apply wp_bind. eapply wp_getchannel; [apply Wt|].
    apply wp_bind. eapply wp_getfile; [apply Wt|].
    apply wp_bind. eapply wp_geo; [by eapply mounted_vol, Wt|]. unfold id.
    rewrite Hz.
    assert (nz (f_de_sector f) = true) as -> by (apply nz_true, Wt). simpl. apply wp_ret.
    eapply (HQ v s ch); [by apply wrote_refl|done|done].
  - pose proof (writer_open _ _ _ _ _ _ Wt Hne) as O. eapply wp_get_file_sector; try apply O; [done|].
    intros v' s' F Q' R. destruct (at_cluster_ok l (Z.to_nat (si / v_sectors_per_cluster (v_geo v))) ch Hne) as [P C].
    destruct (same_channel_moved _ _ C) as [C1 C2].
    eapply HQ.
    + eapply wrote_quiet; [done|done| |done|done|done|apply written_entry_refl|done|done].
      by rewrite insert_id by apply Wt.
    + exact C2.
    + intros Hk _. apply lookup_ge_None_1 in Hk. unfold at_cluster. simpl. rewrite last_lookup, nth_lookup.
      unfold reach. rewrite Nat.min_r by lia. replace (Nat.pred (length l)) with (length l - 1)%nat by lia.
      destruct (lookup_lt_is_Some_2 l (length l - 1)) as [x Hx]; [destruct l; simpl in *; [done|lia]|]. by rewrite Hx.
Qed.

(** The bytes of a file lie behind the tables. *)
Lemma file_addr_behind s v l i :
  mounted s v → Forall (cluster (v_geo v)) l → 0 ≤ i < Z.of_nat (length l) * cluster_bytes (v_geo v) →
  0 ≤ fat_addr (v_geo v) (v_num_fats (v_geo v)) ≤ v_data_start (v_geo v) * v_bytes_per_sector (v_geo v) ∧
  fat_addr (v_geo v) (v_num_fats (v_geo v)) ≤ file_addr (v_geo v) l i.
Proof.
  intros M Hl Hi. pose proof (mounted_geo _ _ M) as Hg. pose proof (bps_pos _ Hg) as Hb.
  pose proof (mt_data _ _ M) as Hd. pose proof (file_addr_data _ _ Hb Hd _ _ Hl Hi).
  pose proof (do_start _ _ Hd). pose proof (fo_active _ _ (mt_fat _ _ M)).
  pose proof (fat_addr_pos _ _ (v_num_fats (v_geo v)) Hg (mt_fat _ _ M) ltac:(lia)).
  unfold fat_addr in *. nia.
Qed.

Lemma wp_append_w s v c ch f l offset (Q : Z → fs W → Prop) :
  writer s v c ch f l → inside v f l offset → (l ≠ [] → last l = Some (c_cluster ch)) →
  (∀ n s' v' f', 0 ≤ n → wrote s v c ch f l offset [] s' v' ch f' (l ++ [n]) → Q n s') →
  (∀ s' v', (∀ m, cluster (v_geo v) m → table s' m ≠ 0) → wrote s v c ch f l offset [] s' v' ch f l →
     Q (- ENOSPC) s') →
  wp (fat_append_cluster c) Q s.
Proof.
  intros Wt [Ho1 Ho2] He HQ1 HQ2. destruct (Wt) as [M [Hc Hcf] Hch Hf Hent Hl Hp Hsz].
  pose proof (file_chain_first _ _ _ _ Hl) as Hnz. pose proof (file_chain_cluster _ _ _ _ Hl) as Hcl.
  eapply wp_append_cluster; [exact M|exact Hch|exact Hf|exact Hcf| | |].
  { by rewrite (proj2 (nz_true _) Hent). }
  { intros E. rewrite E in Hnz. symmetry in Hnz. apply bool_decide_eq_true_1 in Hnz.
    eapply Forall_forall; [exact Hcl|]. by apply last_Some_elem_of, He. }
  intros v' s'. destruct (first_free (table s) (search_order (v_geo v) (v_next_free v))) as [n|] eqn:En.
  - intros (F & R & Hfc & Hnf & _). destruct (first_free_some _ _ _ En) as [Hn%search_order_all HT]; [|apply (mt_fat _ _ M)].
    set (f' := if nz (f_first_cluster f) then f else start_at n f).
    assert (written_entry f f' ∧ de_file_size (f_de f') = de_file_size (f_de f) ∧ f_first_cluster f' =
      if nz (f_first_cluster f) then f_first_cluster f else n) as (E1 & E2 & E3).
    { unfold f'. destruct (nz (f_first_cluster f)); [split; [apply written_entry_refl|done]|].
      split; [|done]. split; [by left|]. by destruct f as [[] ?????]. }
    assert (frame v (<[c_f ch := f']> (fs_files s)) (fs_channels s) s v' s') as F'.
    { unfold f'. destruct (nz (f_first_cluster f)); [|exact F]. by rewrite insert_id. }
    clear F. rename F' into F. pose proof (fr_mounted _ _ _ _ _ _ F) as M'. pose proof (frame_geo _ _ _ _ _ _ F) as G.
    destruct (appended_chain _ _ _ _ _ _ _ _ M M' G Hl He Hn HT R) as [Hl' Hoth].
    assert (∀ k i, Forall (cluster (v_geo v)) k → 0 ≤ i < Z.of_nat (length k) * cluster_bytes (v_geo v) →
      volume_bytes s' (file_addr (v_geo v) k i) = volume_bytes s (file_addr (v_geo v) k i)) as Hsame.
    { intros k i Hk Hi. destruct (file_addr_behind _ _ _ _ M Hk Hi) as [H1 H2]. apply (rw_out _ _ _ _ R); [lia|]. by right. }
    apply (HQ1 n s' v' f'); [unfold cluster in Hn; lia|]. split; try done.
    + by rewrite (insert_id (fs_channels s)) by done.
    + split; try done.
      * by rewrite (frame_channels _ _ _ _ _ _ F).
      * by rewrite (frame_files _ _ _ _ _ _ F), lookup_insert_eq.
      * by rewrite (written_entry_sector _ _ E1).
      * right. rewrite G, E3. exact Hl'.
      * destruct Hp as [Hp|[Hp1 Hp2]]; [by left|right]. split; [done|]. by apply lookup_app_l_Some.
      * by rewrite E2.
    + apply moved_refl.
    + rewrite E2. unfold grown. simpl. destruct (is_dir f); [done|]. specialize (Ho2 eq_refl). lia.
    + by apply prefix_app_r.
    + simpl. rewrite length_app. pose proof (cluster_bytes_pos _ _ (bps_pos _ (mounted_geo _ _ M)) (mt_data _ _ M)). simpl. nia.
    + intros i Hi _. by apply Hsame.
    + intros m k Hk Hdis. destruct (Hoth m k Hk Hdis) as [H1 H2]. split_and!; [done|done|].
      intros i Hi. apply Hsame; [by eapply chain_cluster|done].
    + intros x Hx Hout. apply (rw_out _ _ _ _ R); [lia|done].
  - intros (F & R). apply (HQ2 s' v').
    + intros m Hm. rewrite (table_rewritten s v s' v' _ _ m M F R) by by apply cluster_in_table.
      eapply first_free_none; [exact En|]. apply search_order_all; [apply (mt_fat _ _ M)|done].
    + eapply wrote_quiet; try done; [|apply moved_refl|apply written_entry_refl].
      by rewrite !insert_id.
Qed.

(** The file once its size covers the bytes up to [n]. *)
Definition cover (n : Z) (f : File) : File :=
  if negb (is_dir f) && (de_file_size (f_de f) <=? n)
  then f <| f_de ::= λ d, d <| de_file_size := n |> |> else f.

Lemma cover_spec n f :
  written_entry f (cover n f) ∧ de_file_size (f_de (cover n f)) = grown f n ∧
  f_first_cluster (cover n f) = f_first_cluster f.
Proof.
  unfold cover, grown. destruct (is_dir f) eqn:Ed; simpl; [by split; [apply written_entry_refl|]|].
  destruct (Z.leb_spec (de_file_size (f_de f)) n).
  - split; [split; [by left|]; by destruct f as [[] ?????]|]. simpl. split; [lia|done].
  - split; [apply written_entry_refl|]. split; [lia|done].
Qed.

Lemma wrote_stored s v c ch f l offset bs v' s' :
  writer s v c ch f l → inside v f l offset →
  (is_dir f = false → offset + Z.of_nat (length bs) < 2 ^ 32) →
  (bs ≠ []) → offset mod cluster_bytes (v_geo v) + Z.of_nat (length bs) ≤ cluster_bytes (v_geo v) →
  offset + Z.of_nat (length bs) ≤ Z.of_nat (length l) * cluster_bytes (v_geo v) →
  frame v (<[c_f ch := cover (offset + Z.of_nat (length bs)) f]> (fs_files s)) (fs_channels s) s v' s' →
  (∀ x, 0 ≤ x → volume_bytes s' x = put (volume_bytes s) (file_addr (v_geo v) l offset) bs x) →
  wrote s v c ch f l offset bs s' v' ch (cover (offset + Z.of_nat (length bs)) f) l.
Proof.
  intros Wt [Ho1 Ho2] Hmax Hbs Hfit Hroom F Hx. destruct (Wt) as [M [Hc Hcf] Hch Hf Hent Hl Hp Hsz].
  set (n := offset + Z.of_nat (length bs)) in *. destruct (cover_spec n f) as (E1 & E2 & E3). set (f' := cover n f) in *.
  pose proof (file_chain_cluster _ _ _ _ Hl) as Hcl. pose proof (file_chain_NoDup _ _ _ _ M Hl) as Hnd.
  pose proof (bps_pos _ (mounted_geo _ _ M)) as Hb. pose proof (mt_data _ _ M) as Hd.
  pose proof (cluster_bytes_pos _ _ Hb Hd) as Hcb. set (g := v_geo v) in *.
  assert (0 < Z.of_nat (length bs)) as Hlen by (destruct bs; [done|simpl; lia]).
  assert (0 ≤ offset < Z.of_nat (length l) * cluster_bytes g) as Hoff by (unfold n in Hroom; lia).
  destruct (file_addr_behind _ _ _ _ M Hcl Hoff) as [Hfat Hbeh]. fold g in Hfat, Hbeh.
  pose proof (frame_geo _ _ _ _ _ _ F) as G. pose proof (mounted_vol _ _ (fr_mounted _ _ _ _ _ _ F)) as Hv'.
  assert (∀ x, 0 ≤ x → x < v_data_start g * v_bytes_per_sector g → volume_bytes s' x = volume_bytes s x) as Hlow.
  { intros x H0 H1. rewrite Hx by done. apply put_out. left.
    pose proof (file_addr_data g _ Hb Hd l offset Hcl Hoff). lia. }
  assert (∀ m, in_table g m → table s' m = table s m) as Htab.
  { intros m Hm. unfold table. rewrite Hv', (mounted_vol _ _ M), G. fold g.
    eapply entry_beyond; [exact M|exact Hv'|exact G|apply (mt_fat _ _ M)|exact Hm|]. fold g. intros x H0. apply Hlow; lia. }
  assert (∀ m k, chain g (table s) m k → chain g (table s') m k) as Hchains.
  { intros m k Hk. eapply chain_ext; [|exact Hk]. intros x Hxk. symmetry. apply Htab, cluster_in_table.
    apply chain_cluster in Hk. by eapply Forall_forall in Hk. }
  split; fold g; try done.
  - by rewrite (insert_id (fs_channels s)).
  - split; try done.
    + apply F.
    + by rewrite (frame_channels _ _ _ _ _ _ F).
    + by rewrite (frame_files _ _ _ _ _ _ F), lookup_insert_eq.
    + by rewrite (written_entry_sector _ _ E1).
    + unfold file_chain. rewrite E3, G. destruct Hl as [Hl|Hl]; [by left|right]. by apply Hchains.
    + rewrite E2. unfold grown. destruct (is_dir f); [done|]. specialize (Hmax eq_refl). lia.
  - apply moved_refl.
  - unfold file_bytes. rewrite <- (slice_full bs (Z.of_nat (length bs))) at 2 by done.
    rewrite slice_tabulate by lia. apply tabulate_shift. intros i Hi.
    rewrite (file_addr_succ g _ Hb Hd) by (unfold n in Hroom; lia). rewrite Hx by lia.
    rewrite put_in by lia. f_equal. lia.
  - intros i Hi Hout. destruct (file_addr_behind _ _ _ _ M Hcl Hi) as [_ Hbi]. fold g in Hbi.
    rewrite Hx by lia. apply put_out. apply (file_addr_other g _ Hb Hd l offset i); done.
  - intros m k Hk Hdis. split_and!; [by apply Hchains|done|]. intros i Hi.
    destruct (file_addr_behind _ _ _ _ M (chain_cluster _ _ _ _ Hk) Hi) as [_ Hbi]. fold g in Hbi.
    rewrite Hx by lia. apply put_out. by apply (file_addr_apart g _ Hb Hd l k offset i).
  - intros x Hx0 _. apply Hlow; lia.
Qed.

(** The size is set before the bytes are stored. *)
Lemma wp_cover s v c ch f l n (Q : () → fs W → Prop) :
  writer s v c ch f l → (is_dir f = false → 0 ≤ n < 2 ^ 32) →
  (∀ s', frame v (<[c_f ch := cover n f]> (fs_files s)) (fs_channels s) s v s' → rewritten ∅ (v_geo v) s s' → Q tt s') →
  wp (if negb (is_dir f) && (de_file_size (f_de f) <=? n)
      then modfile (c_f ch) (λ f, f <| f_de ::= λ d, d <| de_file_size := u32 n |> |>)
      else mret ()) Q s.
Proof.
  intros Wt Hn HQ. destruct (Wt) as [M [Hc Hcf] Hch Hf Hent Hl Hp Hsz]. unfold cover in HQ.
  destruct (frame_file s v (c_f ch) (f <| f_de ::= λ d, d <| de_file_size := n |> |>) M) as [F R].
  destruct (is_dir f) eqn:Ed; simpl in *.
  - apply wp_ret, HQ; [|by apply rewritten_same]. rewrite insert_id by done. by apply frame_refl.
  - destruct (Z.leb_spec (de_file_size (f_de f)) n).
    + eapply wp_modfile; [done|done|]. rewrite u32_small by auto. by apply HQ.
    + apply wp_ret, HQ; [|by apply rewritten_same]. rewrite insert_id by done. by apply frame_refl.
Qed.

(** One transfer: the bytes [bs] within a sector of the file. *)
Lemma wp_transfer {A} s v c ch f l offset bs cnt m b (wr : nat → Z → M (fs W) ()) (fail : Z → A) K (Q : A → fs W → Prop) :
  writer s v c ch f l → inside v f l offset → Z.of_nat (length bs) = cnt → bs ≠ [] → Forall is_byte bs →
  (is_dir f = false → offset + Z.of_nat (length bs) < 2 ^ 32) →
  let g := v_geo v in
  offset mod v_bytes_per_sector g + cnt ≤ v_bytes_per_sector g →
  l !! Z.to_nat (offset / v_bytes_per_sector g / v_sectors_per_cluster g) = Some m →
  buffer_ok v b → (∀ k o, wr k o = write_data k o bs) →
  (∀ s' v' f' kb, wrote s v c ch f l offset bs s' v' ch f' l → buffer_ok v' (Some kb) → wp (K (Some kb)) Q s') →
  wp ((if negb (is_dir f) && (de_file_size (f_de f) <=? offset + cnt)
       then modfile (c_f ch) (λ f, f <| f_de ::= λ d, d <| de_file_size := u32 (offset + cnt) |> |>)
       else mret ());;
      r ← fat_readbuf (cluster_sector g m (offset / v_bytes_per_sector g mod v_sectors_per_cluster g)) b false;
      let '(res, b) := r in
      if res <? 0 then mret (fail res)
      else
        b' ← deref b;
        wr b' (res + offset mod v_bytes_per_sector g);;
        res ← fat_dirtybuf b' false;
        if res <? 0 then mret (fail res) else K b) Q s.
Proof.
  intros Wt Hin <- Hbs Hby Hmax g Hfit Hm Hb Hwr HQ. pose proof (wt_mounted _ _ _ _ _ _ Wt) as M.
  pose proof (mounted_geo _ _ M) as Hg. pose proof (bps_pos _ Hg) as Hbp. pose proof (mt_data _ _ M) as Hd. fold g in Hbp, Hd.
  pose proof (spc_pos _ _ Hd) as Hs. pose proof (file_chain_cluster _ _ _ _ (wt_chain _ _ _ _ _ _ Wt)) as Hcl.
  destruct Hin as [Ho1 Ho2]. pose proof (Z.mod_pos_bound offset _ Hbp) as Hmod.
  pose proof (lookup_lt_Some _ _ _ Hm) as Hlt. apply (cluster_index_lt g _ Hbp Hd l offset (proj1 Ho1)) in Hlt.
  assert (Z.of_nat (length bs) ≤ cluster_bytes g ∧
    offset mod cluster_bytes g + Z.of_nat (length bs) ≤ cluster_bytes g ∧
    offset + Z.of_nat (length bs) ≤ Z.of_nat (length l) * cluster_bytes g) as (_ & Hfit' & Hroom).
  { pose proof (Z.div_mod offset (v_bytes_per_sector g) ltac:(lia)) as Ed.
    assert (offset mod cluster_bytes g = offset mod v_bytes_per_sector g +
      v_bytes_per_sector g * (offset / v_bytes_per_sector g mod v_sectors_per_cluster g)) as ->.
    { unfold cluster_bytes. by rewrite (Z.mul_comm (v_sectors_per_cluster g)), Z.rem_mul_r by lia. }
    pose proof (Z.mod_pos_bound (offset / v_bytes_per_sector g) _ Hs).
    unfold cluster_bytes in *. assert (offset / v_bytes_per_sector g < Z.of_nat (length l) * v_sectors_per_cluster g).
    { apply Z.div_lt_upper_bound; lia. }
    split_and!; nia. }
  apply wp_bind. eapply wp_cover; [exact Wt|intros Hdir; specialize (Hmax Hdir); lia|]. intros s1 F1 R1.
  pose proof (fr_mounted _ _ _ _ _ _ F1) as M1.
  assert (∀ k s', disk_size (fs_world s') = disk_size (fs_world s) → k = cluster_sector g m (offset / v_bytes_per_sector g mod v_sectors_per_cluster g) →
    in_disk (fs_world s') k) as Hdisk.
  { intros k s' Hsz ->. unfold in_disk. rewrite Hsz. eapply (cluster_sector_in_disk s v); [done| |by apply Z.mod_pos_bound].
    by eapply Forall_lookup in Hcl. }
  apply wp_bind. eapply wp_readbuf_s; [done| |done|].
  { apply Hdisk; [apply (fr_size _ _ _ _ _ _ F1)|done]. }
  intros v2 s2 ofs kb F2 Q2 R2 Hh. rewrite (proj2 (Z.ltb_ge _ _)) by apply Hh.
  apply wp_bind. eapply wp_deref; [done|]. rewrite Hwr. pose proof (fr_mounted _ _ _ _ _ _ F2) as M2.
  pose proof (frame_geo _ _ _ _ _ _ F2) as G2. fold g in G2.
  destruct (step_trans _ _ _ _ _ _ _ _ _ _ _ _ F1 R1 F2 R2) as [F12 R12]. rewrite (left_id_L ∅ (∪)) in R12.
  rewrite (frame_files _ _ _ _ _ _ F1), (frame_channels _ _ _ _ _ _ F1) in F12.
  eapply (wp_store_s s2 v2); [done| |exact Hh|lia|rewrite G2; lia|done|].
  { apply Hdisk; [apply (fr_size _ _ _ _ _ _ F12)|done]. }
  intros v3 s3 F3 Q3 Hh3 Hx. rewrite (proj2 (Z.ltb_ge 0 0)) by lia.
  pose proof (frame_trans _ _ _ _ _ _ _ _ _ _ F12 F3) as F.
  rewrite (frame_files _ _ _ _ _ _ F12), (frame_channels _ _ _ _ _ _ F12) in F.
  eapply (HQ s3 v3 _ kb).
  - eapply wrote_stored; try done. intros x Hpos. rewrite Hx, G2 by done.
    pose proof (file_addr_sector g _ l offset 0 m Hbp Hd (proj1 Ho1) Hm ltac:(lia)) as Ea. rewrite !Z.add_0_r in Ea.
    fold g. rewrite Ea.
    apply put_ext. by apply (rw_none _ _ _ _ R12).
  - intros k' [= <-]. destruct Hh3 as [(x & Hk & _) _]. eauto.
Qed.

(** * The loop *)

(** What is written: a null buffer stands for zeroes. *)
Definition source (buffer : option bytes) (size : Z) : bytes :=
  match buffer with Some l => l | None => zeroes size end.

(** How many bytes one iteration transfers. *)
Lemma write_count_eq g size k offset :
  geo_ok g → 0 ≤ k < size → size < 2 ^ 31 →
  let n := u32 (v_bytes_per_sector g - Z.land offset (v_bytes_per_sector g - 1)) in
  (if size <? u32 (k + n) then u32 (size - k) else n)
  = Z.min (size - k) (v_bytes_per_sector g - offset mod v_bytes_per_sector g).
Proof.
  intros Hg Hk Hs. pose proof (bps_pos _ Hg) as Hb. destruct (go_log _ Hg) as [Hl Hp]. cbv zeta.
  assert (v_bytes_per_sector g < 2 ^ 31) by (rewrite Hp; apply Z.pow_lt_mono_r; lia).
  replace (Z.land offset (v_bytes_per_sector g - 1)) with (offset mod v_bytes_per_sector g)
    by (rewrite Hp, land_pow2_mod by lia; done).
  pose proof (Z.mod_pos_bound offset _ Hb).
  rewrite (u32_small (v_bytes_per_sector g - _)), !u32_small by lia.
  destruct (Z.ltb_spec size (k + (v_bytes_per_sector g - offset mod v_bytes_per_sector g))); lia.
Qed.

Lemma slice_app (l : bytes) o a b : 0 ≤ o → 0 ≤ a → 0 ≤ b → slice l o (a + b) = slice l o a ++ slice l (o + a) b.
Proof.
  intros. unfold slice. rewrite Z2Nat.inj_add, (Z2Nat.inj_add o a), <- take_take_drop, drop_drop by done. done.
Qed.

Lemma slice_zeroes n k m : 0 ≤ k → 0 ≤ m → k + m ≤ n → slice (zeroes n) k m = zeroes m.
Proof.
  intros. unfold slice, zeroes. rewrite drop_replicate, take_replicate. f_equal. lia.
Qed.

Lemma wrote_inside s v c ch f l offset data s' v' ch' f' l' :
  wrote s v c ch f l offset data s' v' ch' f' l' → 0 ≤ offset → inside v' f' l' (offset + Z.of_nat (length data)).
Proof.
  intros Wr Ho. pose proof (wr_room _ _ _ _ _ _ _ _ _ _ _ _ _ Wr) as Hr.
  pose proof (wr_size _ _ _ _ _ _ _ _ _ _ _ _ _ Wr) as Hs.
  rewrite <- (frame_geo _ _ _ _ _ _ (wr_frame _ _ _ _ _ _ _ _ _ _ _ _ _ Wr)) in Hr. split; [lia|].
  rewrite Hs. unfold grown. rewrite (written_entry_dir _ _ (wr_file _ _ _ _ _ _ _ _ _ _ _ _ _ Wr)). intros ->. lia.
Qed.

Lemma wrote_trans_nil s v c ch f l offset s1 v1 ch1 f1 l1 d2 s2 v2 ch2 f2 l2 :
  0 ≤ offset → wrote s v c ch f l offset [] s1 v1 ch1 f1 l1 →
  wrote s1 v1 c ch1 f1 l1 offset d2 s2 v2 ch2 f2 l2 → wrote s v c ch f l offset d2 s2 v2 ch2 f2 l2.
Proof. intros Ho W1 W2. eapply (wrote_trans _ _ _ _ _ _ _ []); [done|exact W1|]. by rewrite Z.add_0_r. Qed.

Lemma moved_flags ch ch' : moved ch ch' → c_flags ch' = c_flags ch ∧ c_f ch' = c_f ch.
Proof. by intros ->. Qed.

(** [n'] bytes have been written, fewer than asked for only when the volume is full. *)
Definition full s v : Prop := ∀ m, cluster (v_geo v) m → table s m ≠ 0.
Definition loop_result (size k n' : Z) : Z := if (k + n' =? 0) && (0 <? size) then - ENOSPC else 0.

Lemma wp_write_loop n s v c ch f l buffer size k offset b (Q : Z * Z → fs W → Prop) :
  writer s v c ch f l → inside v f l offset → 0 ≤ k ≤ size → size < 2 ^ 31 →
  size ≤ Z.of_nat (length (source buffer size)) → Forall is_byte (source buffer size) → buffer_ok v b →
  has (c_flags ch) O_FSYNC = false → offset + (size - k) < 2 ^ 32 →
  2 * (size - k) ≤ Z.of_nat n + (if offset <? Z.of_nat (length l) * cluster_bytes (v_geo v) then 1 else 0) →
  (∀ n' s' v' ch' f' l', 0 ≤ n' ≤ size - k →
     wrote s v c ch f l offset (slice (source buffer size) k n') s' v' ch' f' l' →
     c_file_pointer ch' = c_file_pointer ch → (n' < size - k → full s' v') → Q (loop_result size k n', k + n') s') →
  wp (write_loop n c buffer size k offset b) Q s.
Proof.
  set (src := source buffer size). revert s v ch f l k offset b.
  induction n as [|n IH]; intros s v ch f l k offset b Wt Hin Hk Hsz Hlen Hby Hb Hfl Hmax Hn HQ; cbn [write_loop].
  1: rewrite (proj2 (Z.leb_le size k)) by (destruct (_ <? _); lia).
  2: destruct (Z.leb_spec size k) as [Hge|Hlt].
  1, 2: assert (k = size) as -> by (destruct (_ <? _); lia); apply wp_ret;
    specialize (HQ 0 s v ch f l ltac:(lia)); rewrite Z.add_0_r in HQ;
    replace (loop_result size size 0) with 0 in HQ by (unfold loop_result; rewrite Z.add_0_r;
      destruct (Z.eqb_spec size 0) as [->|]; done);
    apply HQ; [by apply wrote_refl|done|lia].
  pose proof (wt_mounted _ _ _ _ _ _ Wt) as M. pose proof (mounted_geo _ _ M) as Hg.
  pose proof (bps_pos _ Hg) as Hbp. pose proof (mt_data _ _ M) as Hd. destruct (go_log _ Hg) as [Hlg Hp].
  pose proof (cluster_bytes_pos _ _ Hbp Hd) as Hcb. pose proof (proj1 Hin) as Ho.
  set (g := v_geo v) in *.
  apply wp_bind. eapply wp_getchannel; [apply Wt|]. apply wp_bind. eapply wp_getfile; [apply Wt|].
  apply wp_bind. eapply wp_geo; [by apply mounted_vol|]. unfold id. fold g.
  rewrite shiftr_div, <- Hp by lia.
  assert (0 ≤ offset / v_bytes_per_sector g < 2 ^ 32) as Hsi.
  { split; [apply Z.div_pos; lia|]. apply Z.div_lt_upper_bound; nia. }
  rewrite (u32_small (offset / _)) by done. apply wp_bind. eapply wp_sector_w; [done|done|done|].
  cbv zeta. fold g. intros v1 s1 ch1 W1 Efp Hend. pose proof (wr_frame _ _ _ _ _ _ _ _ _ _ _ _ _ W1) as F1.
  pose proof (wr_writer _ _ _ _ _ _ _ _ _ _ _ _ _ W1) as Wt1. pose proof (frame_geo _ _ _ _ _ _ F1) as G1. fold g in G1.
  pose proof (wrote_inside _ _ _ _ _ _ _ _ _ _ _ _ _ W1 (proj1 Ho)) as Hin1. simpl in Hin1. rewrite Z.add_0_r in Hin1.
  destruct (moved_flags _ _ (wr_channel _ _ _ _ _ _ _ _ _ _ _ _ _ W1)) as [Efl Ecf].
  pose proof (buffer_ok_frame _ _ _ _ _ _ _ M F1 Hb) as Hb1.
  destruct (l !! _) as [m|] eqn:Em; simpl.
  - (* a sector of the file *)
    set (cnt := Z.min (size - k) (v_bytes_per_sector g - offset mod v_bytes_per_sector g)).
    set (bs := slice src k cnt). pose proof (Z.mod_pos_bound offset _ Hbp) as Hmod.
    assert (Z.of_nat (length bs) = cnt) as Hlbs by (unfold bs; apply length_slice; lia).
    assert (bs ≠ []) as Hne by (intros E; rewrite E in Hlbs; simpl in Hlbs; lia).
    pose proof (write_count_eq g size k offset Hg ltac:(lia) Hsz) as Hcnt. cbv zeta in Hcnt. fold cnt in Hcnt. rewrite Hcnt.
    rewrite Hfl. rewrite <- Ecf.
    replace (Z.land offset (v_bytes_per_sector g - 1)) with (offset mod v_bytes_per_sector g)
      by (rewrite Hp, land_pow2_mod by lia; done).
    assert (0 < cnt ≤ size - k ∧ offset mod v_bytes_per_sector g + cnt ≤ v_bytes_per_sector g) as [Hc1 Hc2] by lia.
    rewrite <- G1 in Em |- *. clearbody cnt. clear Hcnt.
    eapply (wp_transfer s1 v1 c ch1 f l offset bs cnt m b
      (λ b' o, match buffer with
               | Some l => if in_block l k cnt then write_data b' o (slice l k cnt) else fault
               | None => write_data b' o (zeroes cnt)
               end) (λ e, (e, k)) (λ b, write_loop n c buffer size (u32 (k + cnt)) (offset + cnt) b));
      [exact Wt1|exact Hin1|done|done| |lia|by rewrite G1|exact Em|done| |].
    + unfold bs, slice. by apply Forall_take, Forall_drop.
    + intros k' o. unfold bs, src, source in *. destruct buffer as [l0|].
      * by rewrite in_block_true by lia.
      * by rewrite slice_zeroes by lia.
    + intros s2 v2 f2 kb W2 Hb2. rewrite u32_small by lia.
      pose proof (wrote_trans_nil _ _ _ _ _ _ _ _ _ _ _ _ _ _ _ _ _ _ (proj1 Ho) W1 W2) as W12.
      pose proof (frame_geo _ _ _ _ _ _ (wr_frame _ _ _ _ _ _ _ _ _ _ _ _ _ W12)) as G2. fold g in G2.
      pose proof (wr_room _ _ _ _ _ _ _ _ _ _ _ _ _ W12) as Hroom. fold g in Hroom. rewrite Hlbs in Hroom.
      pose proof (wrote_inside _ _ _ _ _ _ _ _ _ _ _ _ _ W12 (proj1 Ho)) as Hin2. rewrite Hlbs in Hin2.
      eapply (IH s2 v2 ch1 f2 l); [apply W2|exact Hin2|lia|done|done|done|done|by rewrite Efl|lia| |].
      * destruct (_ <? _), (_ <? _); lia.
      * intros n' s3 v3 ch3 f3 l3 Hn' W3 Hfp Hfull. rewrite <- Hlbs in W3.
        pose proof (wrote_trans _ _ _ _ _ _ _ _ _ _ _ _ _ _ _ _ _ _ _ (proj1 Ho) W12 W3) as W13.
        replace (bs ++ slice src (k + Z.of_nat (length bs)) n') with (slice src k (cnt + n')) in W13.
        2: { rewrite Hlbs. unfold bs. apply slice_app; lia. }
        replace (loop_result size (k + cnt) n') with (loop_result size k (cnt + n')) by (unfold loop_result; by rewrite Z.add_assoc).
        replace (k + cnt + n') with (k + (cnt + n')) by lia.
        eapply HQ; [lia|exact W13|by rewrite Hfp|]. intros Hlt'. apply Hfull. lia.
  - (* past the last cluster *)
    apply wp_bind. eapply wp_append_w; [exact Wt1|exact Hin1|by apply Hend| |].
    + intros m s2 v2 f2 Hm0 W2. rewrite (proj2 (Z.eqb_neq _ _)) by (unfold ENOSPC; lia).
      rewrite (proj2 (Z.ltb_ge _ _)) by done. simpl.
      pose proof (wrote_trans_nil _ _ _ _ _ _ _ _ _ _ _ _ _ _ _ _ _ _ (proj1 Ho) W1 W2) as W12.
      pose proof (wrote_inside _ _ _ _ _ _ _ _ _ _ _ _ _ W12 (proj1 Ho)) as Hin2. simpl in Hin2. rewrite Z.add_0_r in Hin2.
      pose proof (frame_geo _ _ _ _ _ _ (wr_frame _ _ _ _ _ _ _ _ _ _ _ _ _ W12)) as G2. fold g in G2.
      eapply (IH s2 v2 ch1 f2 (l ++ [m])); [apply W2|exact Hin2|lia|done|done|done| |by rewrite Efl|lia| |].
      * eapply (buffer_ok_frame s1 v1); [apply Wt1|apply (wr_frame _ _ _ _ _ _ _ _ _ _ _ _ _ W2)|done].
      * rewrite G2, length_app. simpl. destruct (Z.ltb_spec offset (Z.of_nat (length l + 1) * cluster_bytes g)); [|nia].
        apply lookup_ge_None_1 in Em. pose proof (cluster_index_lt g _ Hbp Hd l offset (proj1 Ho)) as Hci.
        rewrite (proj2 (Z.ltb_ge _ _)) in Hn by lia. lia.
      * intros n' s3 v3 ch3 f3 l3 Hn' W3 Hfp Hfull. eapply HQ; [done| |by rewrite Hfp|done].
        eapply wrote_trans_nil; [apply Ho|exact W12|exact W3].
    + intros s2 v2 Hfull W2. pose proof (wrote_trans_nil _ _ _ _ _ _ _ _ _ _ _ _ _ _ _ _ _ _ (proj1 Ho) W1 W2) as W12.
      specialize (HQ 0 s2 v2 ch1 f l ltac:(lia) W12). rewrite Z.add_0_r in HQ.
      assert (full s2 v2) as Hf2.
      { intros x Hx. apply Hfull. by rewrite <- (frame_geo _ _ _ _ _ _ (wr_frame _ _ _ _ _ _ _ _ _ _ _ _ _ W2)). }
      specialize (HQ Efp (λ _, Hf2)). unfold loop_result in HQ. rewrite Z.add_0_r, (proj2 (Z.ltb_lt 0 size)) in HQ by lia.
      unfold nz. simpl. destruct (k =? 0); simpl in *; by apply wp_ret.
Qed.

(** * The whole operations *)

(** The date and the archive attribute of a file that has been written. *)
Definition stamped (time date : Z) (f : File) : File :=
  f <| f_de ::= λ d, d <| de_mod_time := time |> <| de_mod_date := date |> <| de_acc_date := date |>
         <| de_attr ::= λ a, Z.lor a FAT_AARCHIV |> |> <| f_de_changed := true |>.

Lemma wp_do_write s v c ch f l buffer size offset (Q : Z → fs W → Prop) :
  writer s v c ch f l → inside v f l offset → 0 ≤ size < 2 ^ 31 →
  size ≤ Z.of_nat (length (source buffer size)) → Forall is_byte (source buffer size) →
  has (c_flags ch) O_SYNC = false →
  offset + size ≤ (if is_dir f then UINT16_MAX * sizeof_direntry else UINT32_MAX) →
  2 * size ≤ Z.of_nat fuel →
  (∀ n s' v' ch' f' l', 0 ≤ n ≤ size → wrote s v c ch f l offset (slice (source buffer size) 0 n) s' v' ch' f' l' →
     c_file_pointer ch' = c_file_pointer ch → (n < size → full s' v') → Q (if (n =? 0) && (0 <? size) then - ENOSPC else n) s') →
  wp (fat_do_write c buffer size offset) Q s.
Proof.
  intros Wt Hin Hsz Hlen Hby Hsync Hmax Hfuel HQ. pose proof (proj1 Hin) as Ho. unfold fat_do_write.
  apply wp_bind. eapply wp_getchannel; [apply Wt|]. apply wp_bind. eapply wp_getfile; [apply Wt|].
  unfold guard_ret. rewrite (proj2 (Z.ltb_ge offset 0)) by lia. unfold nz. destruct (Z.eqb_spec size 0) as [->|Hnz]; simpl.
  { apply wp_ret. apply (HQ 0 s v ch f l); [done|by apply wrote_refl|done|lia]. }
  rewrite (proj2 (Z.ltb_lt 0 size)) in HQ by lia.
  replace (if is_dir f then _ <? _ else _ <? _) with false by (destruct (is_dir f); symmetry; apply Z.ltb_ge; lia).
  apply wp_bind. eapply wp_write_loop; [done|done|lia|lia|done|done|done|done|
    unfold UINT16_MAX, sizeof_direntry, UINT32_MAX in Hmax; destruct (is_dir f); lia|destruct (_ <? _); lia|].
  intros n s1 v1 ch1 f1 l1 Hn W1 Hfp Hfull. rewrite Z.sub_0_r in Hn, Hfull. unfold loop_result. rewrite !Z.add_0_l.
  rewrite (proj2 (Z.ltb_lt 0 size)), andb_true_r by lia.
  specialize (HQ n). rewrite andb_true_r in HQ. destruct (Z.eqb_spec n 0) as [E|Hn0].
  { subst n. rewrite (proj2 (Z.ltb_lt _ 0)) by done. apply wp_ret. by eapply HQ. }
  simpl. pose proof (wr_writer _ _ _ _ _ _ _ _ _ _ _ _ _ W1) as Wt1.
  destruct (moved_flags _ _ (wr_channel _ _ _ _ _ _ _ _ _ _ _ _ _ W1)) as [Efl Ecf].
  pose proof (wt_mounted _ _ _ _ _ _ Wt1) as M1. pose proof (wt_file _ _ _ _ _ _ Wt1) as Hf1. rewrite Ecf in Hf1.
  apply wp_bind. eapply wp_getfile; [exact Hf1|].
  assert (∀ f' s2, written_entry f1 f' → f_first_cluster f' = f_first_cluster f1 →
    de_file_size (f_de f') = de_file_size (f_de f1) →
    frame v1 (<[c_f ch := f']> (fs_files s1)) (fs_channels s1) s1 v1 s2 → rewritten ∅ (v_geo v1) s1 s2 →
    wp (mret (s32 n)) Q s2) as Hend.
  { intros f' s2 E1 E2 E3 F2 R2. apply wp_ret. rewrite s32_small by lia.
    eapply (HQ s2 v1 ch1 f' l1); [lia| |exact Hfp|].
    - rewrite <- (app_nil_r (slice _ _ _)). eapply wrote_trans; [lia|exact W1|].
      eapply wrote_quiet; [exact Wt1|by eapply wrote_inside; [|lia]| |exact R2|apply Wt1|apply moved_refl|done|done|done].
      rewrite Ecf, (insert_id (fs_channels s1)) by apply Wt1. exact F2.
    - intros Hlt x Hx. rewrite (table_rewritten s1 v1 s2 v1 _ _ x M1 F2 R2) by by apply cluster_in_table.
      by apply Hfull. }
  rewrite Hsync. apply wp_bind. rewrite (written_entry_dir _ _ (wr_file _ _ _ _ _ _ _ _ _ _ _ _ _ W1)).
  destruct (is_dir f); simpl.
  - apply wp_ret. apply wp_check, wp_ret. split; [lia|]. intros _.
    eapply (Hend f1); [apply written_entry_refl|done|done| |by apply rewritten_same]. rewrite insert_id by done. by apply frame_refl.
  - apply wp_bind. eapply wp_timestamps; [done|]. intros s2 [[time date] ?] F2 R2.
    eapply wp_modfile; [apply Wt|by rewrite (frame_files _ _ _ _ _ _ F2)|]. fold (stamped time date f1).
    destruct (frame_file s2 v1 (c_f ch) (stamped time date f1) (fr_mounted _ _ _ _ _ _ F2)) as [F3 R3].
    destruct (step_trans _ _ _ _ _ _ _ _ _ _ _ _ F2 R2 F3 R3) as [F R]. rewrite (left_id_L ∅ (∪)) in R.
    rewrite (frame_files _ _ _ _ _ _ F2), (frame_channels _ _ _ _ _ _ F2) in F.
    apply wp_check, wp_ret. split; [lia|]. intros _. eapply (Hend (stamped time date f1)); [|done|done|exact F|exact R].
    split; [by right|]. by destruct f1 as [[] ?????].
Qed.

(** Where [fat_write] starts. *)
Definition write_start (ch : Channel) (f : File) : Z :=
  if has (c_flags ch) O_APPEND then de_file_size (f_de f) else c_file_pointer ch.

(** A channel with another file pointer. *)
Lemma wrote_from_pointer s v c ch f l p offset data s' v' ch' f' l' :
  writer s v c ch f l →
  wrote (s <| fs_channels ::= <[c := ch <| c_file_pointer := p |>]> |>) v c (ch <| c_file_pointer := p |>) f l
    offset data s' v' ch' f' l' → inside v f l offset →
  wrote s v c ch f l offset data s' v' ch' f' l'.
Proof.
  intros Wt Wr Hin. set (ch0 := ch <| c_file_pointer := p |>) in *.
  destruct (frame_channel s v c ch0 (wt_mounted _ _ _ _ _ _ Wt)) as [F R].
  eapply wrote_trans_nil; [apply Hin| |exact Wr].
  eapply wrote_quiet; [exact Wt|exact Hin| |exact R| | |apply written_entry_refl|done|done].
  - by rewrite (insert_id (fs_files s)) by apply Wt.
  - destruct (wt_position _ _ _ _ _ _ Wt) as [H|H]; [by left|by right].
  - unfold moved, ch0. by destruct ch.
Qed.

Lemma wrote_to_pointer s v c ch f l p offset data s1 v1 ch1 f1 l1 :
  wrote s v c ch f l offset data s1 v1 ch1 f1 l1 → 0 ≤ offset →
  wrote s v c ch f l offset data (s1 <| fs_channels ::= <[c := ch1 <| c_file_pointer := p |>]> |>) v1
    (ch1 <| c_file_pointer := p |>) f1 l1.
Proof.
  intros Wr Ho. rewrite <- (app_nil_r data). eapply wrote_trans; [done|exact Wr|].
  pose proof (wr_writer _ _ _ _ _ _ _ _ _ _ _ _ _ Wr) as Wt.
  destruct (frame_channel s1 v1 c (ch1 <| c_file_pointer := p |>) (wt_mounted _ _ _ _ _ _ Wt)) as [F R].
  eapply wrote_quiet; [exact Wt|by eapply wrote_inside| |exact R| | |apply written_entry_refl|done|done].
  - by rewrite (insert_id (fs_files s1)) by apply Wt.
  - destruct (wt_position _ _ _ _ _ _ Wt) as [H|H]; [by left|by right].
  - unfold moved. by destruct ch1.
Qed.

Lemma wp_fat_write s v c ch f l data size (Q : Z → fs W → Prop) :
  writer s v c ch f l → inside v f l (write_start ch f) → c_magic ch = FAT_CHANNEL_MAGIC →
  IS_NOT_WRITEABLE ch = false → is_dir f = false → has (c_flags ch) O_SYNC = false →
  0 < size < 2 ^ 31 → size ≤ Z.of_nat (length data) → Forall is_byte data →
  write_start ch f + size ≤ UINT32_MAX → 2 * size ≤ Z.of_nat fuel →
  (∀ n s' v' ch' f' l', 0 ≤ n ≤ size → wrote s v c ch f l (write_start ch f) (slice data 0 n) s' v' ch' f' l' →
     c_file_pointer ch' = write_start ch f + n → (n < size → full s' v') →
     Q (if n =? 0 then - ENOSPC else n) s') →
  wp (fat_write c (Some data) size) Q s.
Proof.
  intros Wt Hin Hmag Hw Hdir Hsync Hsz Hlen Hby Hmax Hfuel HQ. set (start := write_start ch f) in *.
  pose proof (proj1 Hin) as Ho. destruct (wt_handle _ _ _ _ _ _ Wt) as [Hc Hcf].
  unfold fat_write, guard_ret. rewrite (proj2 (nz_true c) Hc). simpl.
  apply wp_bind. eapply wp_getchannel; [apply Wt|]. rewrite Hmag. simpl.
  apply wp_bind. eapply wp_getfile; [apply Wt|]. rewrite Hw, Hdir.
  rewrite (proj2 (nz_true size)) by lia. simpl.
  set (ch0 := ch <| c_file_pointer := start |>). set (s0 := s <| fs_channels ::= <[c := ch0]> |>).
  assert (s0 = s ∨ has (c_flags ch) O_APPEND = true) as Hs0.
  { unfold s0, ch0, start, write_start. destruct (has (c_flags ch) O_APPEND); [by right|left].
    replace (ch <| c_file_pointer := c_file_pointer ch |>) with ch by by destruct ch.
    destruct s as [??? fc ?]. simpl. f_equal. rewrite insert_id; [done|]. apply Wt. }
  assert (wrote s v c ch f l start [] s0 v ch0 f l) as W0 by (apply wrote_to_pointer; [by apply wrote_refl|lia]).
  pose proof (wr_writer _ _ _ _ _ _ _ _ _ _ _ _ _ W0) as Wt0.
  apply wp_bind. eapply (wp_mono _ (λ _ s', s' = s0)).
  2: { destruct (has (c_flags ch) O_APPEND) eqn:Ea.
       - eapply wp_modchannel; [done|apply Wt|]. unfold s0, ch0, start, write_start. by rewrite Ea.
       - apply wp_ret. destruct Hs0 as [E|E]; [done|done]. }
  intros _ ? ->. apply wp_bind. eapply wp_getchannel; [apply Wt0|].
  rewrite (proj2 (Z.ltb_ge _ (c_file_pointer ch0))) by (unfold ch0; simpl; by apply Hin).
  apply wp_bind, wp_ret. apply wp_bind. eapply wp_getchannel; [apply Wt0|].
  apply wp_check. eapply (wp_do_write s0 v c ch0 f l); [done|done|lia|done|done|done|by rewrite Hdir|done|].
  change (c_file_pointer ch0) with start. intros n s1 v1 ch1 f1 l1 Hn W1 Hfp Hfull.
  rewrite (proj2 (Z.ltb_lt 0 size)), andb_true_r by lia.
  pose proof (wrote_from_pointer _ _ _ _ _ _ _ _ _ _ _ _ _ _ Wt W1 Hin) as Wr.
  specialize (HQ n). destruct (Z.eqb_spec n 0) as [E|Hn0]; (split; [intros Hneg|intros Hpos]).
  - subst n. apply (HQ s1 v1 ch1 f1 l1); [done|done|by rewrite Hfp, Z.add_0_r|done].
  - by unfold ENOSPC in Hpos.
  - lia.
  - apply wp_bind. eapply wp_modchannel; [done|apply (wr_writer _ _ _ _ _ _ _ _ _ _ _ _ _ W1)|].
    apply wp_ret. rewrite Z.add_0_l, s32_small by lia. rewrite Hfp. change (c_file_pointer ch0) with start.
    eapply HQ; [done|apply wrote_to_pointer; [exact Wr|lia]|done|]. intros Hlt x Hx.
    specialize (Hfull Hlt x Hx). destruct (frame_channel s1 v1 c (ch1 <| c_file_pointer := start + n |>)
      (wt_mounted _ _ _ _ _ _ (wr_writer _ _ _ _ _ _ _ _ _ _ _ _ _ W1))) as [F R].
    intros E. apply Hfull. rewrite <- E. symmetry.
    apply (table_rewritten s1 v1 _ v1 _ _ x (wt_mounted _ _ _ _ _ _ (wr_writer _ _ _ _ _ _ _ _ _ _ _ _ _ W1)) F R).
    by apply cluster_in_table.
Qed.
End write.
