(* ===== verification/FatExample.v ===== *)
(** A sample volume in memory, for concrete runs of the driver: a FAT12 disk of
    40 sectors with a file of 1100 bytes in the clusters 2, 3 and 5, and the
    state of the driver with that file open. *)
From S2P Require Import Prelude Errno Lists Nls Slab.
From S2P Require Import FatTypes FatDisk FatBuffer FatAlloc FatFile FatOpen FatDir FatLink FatDos FatPath.
From S2P Require Import FatVolume FatRequest FatCache FatTable FatChain FatRead FatMount.

Module Example.
#[export] Instance ex_fuel : Fuel := 300%nat.

Definition boot : bytes :=
  pad_block (poke (poke (zeroes 512) 510 [0x55; 0xAA]) 11
    (le16 512 ++ [1] ++ le16 1 ++ [2] ++ le16 16 ++ le16 40 ++ [0xF8] ++ le16 1)).

(** The entries 0xFF8, 0xFFF, 3, 5, 0, 0xFFF, 12 bits each. *)
Definition fat : bytes := pad_block [0xF8; 0xFF; 0xFF; 0x03; 0x50; 0x00; 0x00; 0xF0; 0xFF].
Definition empty_fat : bytes := pad_block [0xF8; 0xFF; 0xFF].

(** The entry of the file in the root directory. *)
Definition file_entry : fat_direntry :=
  mkDirentry ([65] ++ replicate 7 32 ++ [84; 32; 32]) FAT_AARCHIV 0 0 0 0 0 0 0 0 2 1100.

Definition data (k : Z) : bytes := replicate 512 k.
Definition image : list bytes :=
  [boot; fat; fat; pad_block (encode_direntry file_entry); data 7; data 8; zeroes 512; data 9]
  ++ replicate 32 (zeroes 512).
Definition empty_image : list bytes := [boot; empty_fat; empty_fat] ++ replicate 37 (zeroes 512).

Definition world (l : list bytes) : ramdisk := mkRam l 65536 (1, 2, 2006) (10, 20, 30, 0).
Definition geometry : Geometry := mount_geometry boot.

Definition volume : Volume :=
  (empty_volume 4096) <| v_geo := geometry |> <| v_cache := fresh_cache geometry |>
    <| v_free_clusters := 33 |> <| v_next_free := FAT_FSI_NA |>
    <| v_files_open := [16] |> <| v_channels_open := [8] |>.
Definition file : File := mkFile file_entry false 3 0 2 1.
Definition channel : Channel := mkChannel 500 16 FAT_CHANNEL_MAGIC O_RDWR 1 0 0 root_dentry.

Definition state : fs ramdisk :=
  mkFs (world image) (Some volume) {[ 16 := file ]} {[ root_dentry := root_node ]} {[ 8 := channel ]} ∅ [].
(** Nothing mounted. *)
Definition unmounted : fs ramdisk := mkFs (world empty_image) None ∅ ∅ ∅ ∅ [].

(** The channel at the last cluster of its file. *)
Definition end_channel : Channel := channel <| c_cluster_index := 2 |> <| c_cluster := 5 |>.
Definition end_state : fs ramdisk := state <| fs_channels := {[ 8 := end_channel ]} |>.

(** The same disk read as a FAT32 volume. *)
Definition volume32 : Volume :=
  volume <| v_geo ::= λ g, g <| v_fat_type := FAT32 |> |> <| v_fsinfo_changed := true |>.
Definition state32 : fs ramdisk := state <| fs_vol := Some volume32 |>.

(** A sequence of requests. *)
Fixpoint run (l : list request) (s : fs ramdisk) : outcome (fs ramdisk) (list (Z * reply)) :=
  match l with
  | [] => Done [] s
  | r :: l =>
      match fat_request r s with
      | Done a s => match run l s with Done b s => Done (a :: b) s | Fault => Fault | NoFuel => NoFuel end
      | Fault => Fault
      | NoFuel => NoFuel
      end
  end.

(** * The sample volume is in order *)

Definition all_bytes (l : bytes) : bool := forallb (λ b, (0 <=? b) && (b <? 256)) l.
Lemma all_bytes_spec l : all_bytes l = true → Forall is_byte l.
Proof.
  unfold all_bytes. intros H. apply Forall_forall. intros x Hx. rewrite forallb_forall in H.
  specialize (H x (proj1 (list_elem_of_In _ _) Hx)). unfold is_byte. lia.
Qed.

Lemma world_bytes l : forallb all_bytes l = true → disk_bytes (world l).
Proof.
  intros H n Hn. simpl. unfold ram_block. rewrite (proj2 (Z.ltb_ge n 0)) by done.
  unfold pad_block. apply Forall_take, Forall_app. split; [|by apply Forall_replicate].
  simpl. destruct (l !! Z.to_nat n) as [b|] eqn:E; [|done]. simpl. apply all_bytes_spec.
  rewrite forallb_forall in H. apply H, list_elem_of_In. by eapply list_elem_of_lookup_2.
Qed.

Lemma boot_valid : bpb_valid boot 40 = true.
Proof. vm_compute. reflexivity. Qed.

Lemma boot_layout : layout_ok boot.
Proof.
  split; try (vm_compute; done). intros i. apply byte_at_byte, all_bytes_spec. vm_compute. reflexivity.
Qed.

Lemma boot_block : bpb_bytes_per_sector boot = disk_block.
Proof. vm_compute. reflexivity. Qed.

Lemma geometry_clusters : v_data_clusters geometry = 36.
Proof. vm_compute. reflexivity. Qed.

Lemma geometry_fats : v_num_fats geometry = 2.
Proof. vm_compute. reflexivity. Qed.

(** Bounds on the clusters and the tables of the sample volume. *)
Ltac in_volume :=
  unfold legal, in_table, cluster; change (v_geo volume) with geometry;
  rewrite ?geometry_clusters, ?geometry_fats; lia.

Lemma state_mounted : mounted state volume.
Proof.
  apply fresh_mounted; [done|done| | | |done|].
  - by apply (mount_geo_ok boot 40 boot_valid).
  - apply (mount_fat_ok boot 40 boot_valid boot_layout). done.
  - apply (mount_data_ok boot 40 boot_valid boot_layout). done.
  - apply world_bytes. vm_compute. reflexivity.
Qed.

Lemma state_chain : chain geometry (table state) 2 [2; 3; 5].
Proof.
  eapply chain_next; [in_volume|vm_compute; reflexivity|].
  eapply chain_next; [in_volume|vm_compute; reflexivity|].
  apply chain_last; [in_volume|vm_compute; reflexivity].
Qed.

Lemma state_open : open_file state volume 8 channel file [2; 3; 5].
Proof. split; [exact state_mounted|done|done|done|exact state_chain|by left|done]. Qed.

Lemma end_state_mounted : mounted end_state volume.
Proof. by apply (frame_mem volume state volume end_state state_mounted). Qed.

Lemma end_state_open : open_file end_state volume 8 end_channel file [2; 3; 5].
Proof.
  split; [exact end_state_mounted|done|done|done| |by right|done].
  eapply chain_ext; [|exact state_chain]. intros x _. symmetry.
  by apply (frame_mem volume state volume end_state state_mounted).
Qed.

Lemma state32_mounted : mounted state32 volume32.
Proof.
  pose proof (mount_geo_ok boot 40 boot_valid boot_block) as [? ? ? ? ?].
  pose proof (mount_fat_ok boot 40 boot_valid boot_layout eq_refl) as [? ? ? ? ? ? ?].
  pose proof (mount_data_ok boot 40 boot_valid boot_layout eq_refl) as [? ? ? ?].
  apply fresh_mounted; [done|done|by split| |by split|done|].
  - by split.
  - apply world_bytes. vm_compute. reflexivity.
Qed.

Lemma ram_ready name : device_ready (W := ramdisk) name.
Proof. split; try (intros; done). intros z w. simpl. lia. Qed.
End Example.
