(* ===== verification/FatNodes.v ===== *)
(** The tree of cached directory nodes ([fat_dget], [dentry_get] and [fat_dput] of
    [src/fd32/modules/fat/open.c]): its reference counts, and what taking and
    releasing references does to it. *)
From S2P Require Import Prelude Errno Lists Slab FatTypes FatDisk FatChain FatOpen FatVolume FatExample.
Import SlabSpec.
Import Slab.

(** ** Trees of nodes *)

(** The sum of all reference counts. *)
Definition total (m : gmap Z Dentry) : Z := map_fold (λ _ x n, d_references x + n) 0 m.

(** [rooted m d n]: following the parents from [d] reaches the root in [n] steps. *)
Inductive rooted (m : gmap Z Dentry) : Z → nat → Prop :=
  | rooted_root : rooted m root_dentry O
  | rooted_child d x n :
      d ≠ root_dentry → m !! d = Some x → rooted m (d_parent x) n → rooted m d (S n).

(** The nodes form a tree with the root at its top. A node is referred to once by
    each of its children and [ext d] times from outside the tree: by open
    instances of files and by the operations in progress. All nodes but the root
    are referred to. *)
Record tree (m : gmap Z Dentry) (ext : Z → Z) : Prop := {
  tr_root : ∃ x, m !! root_dentry = Some x ∧ d_parent x = 0;
  tr_null : m !! 0 = None;
  tr_parent d x : m !! d = Some x → d ≠ root_dentry → ∃ y, m !! d_parent x = Some y ∧ d ∈ d_children y;
  tr_child d x c : m !! d = Some x → c ∈ d_children x → c ≠ root_dentry ∧ ∃ y, m !! c = Some y ∧ d_parent y = d;
  tr_nodup d x : m !! d = Some x → NoDup (d_children x);
  tr_refs d x : m !! d = Some x → 0 ≤ ext d ∧ d_references x = ext d + Z.of_nat (length (d_children x));
  tr_used d x : m !! d = Some x → d ≠ root_dentry → 0 < d_references x;
  tr_rooted d x : m !! d = Some x → ∃ n, rooted m d n;
  tr_none d : m !! d = None → ext d = 0 }.

(** One reference more or less from outside. *)
Definition refer (d k : Z) (ext : Z → Z) : Z → Z := λ e, if decide (e = d) then ext e + k else ext e.

#[export] Instance tree_proper m : Proper (pointwise_relation Z eq ==> iff) (tree m).
Proof.
  intros e1 e2 He. split; intros [T1 T2 T3 T4 T5 T6 T7 T8 T9]; split; try done;
    try (intros d x Hd; first [rewrite <- He|rewrite He]; by apply T6);
    intros d Hd; first [rewrite <- He|rewrite He]; by apply T9.
Qed.
#[export] Instance refer_proper d k : Proper (pointwise_relation Z eq ==> pointwise_relation Z eq) (refer d k).
Proof. intros e1 e2 He d'. unfold refer. by rewrite He. Qed.

Lemma total_insert m d x : m !! d = None → total (<[d := x]> m) = d_references x + total m.
Proof. intros Hd. unfold total. apply (map_fold_insert_L (λ (_ : Z) y n, d_references y + n)); [|done]. intros. lia. Qed.
Lemma total_delete m d x : m !! d = Some x → total m = d_references x + total (delete d m).
Proof. intros Hd. unfold total. apply (map_fold_delete_L (λ (_ : Z) y n, d_references y + n)); [|done]. intros. lia. Qed.
Lemma total_update m d x y : m !! d = Some x → total (<[d := y]> m) = total m - d_references x + d_references y.
Proof.
  intros Hd. rewrite <- insert_delete_eq, total_insert by apply lookup_delete_eq.
  rewrite (total_delete m d x Hd). lia.
Qed.
Lemma total_nonneg m : (∀ d x, m !! d = Some x → 0 ≤ d_references x) → 0 ≤ total m.
Proof.
  induction m as [|d x m Hd IH] using map_ind; intros H; [done|]. rewrite total_insert by done.
  pose proof (H d x ltac:(by rewrite lookup_insert_eq)). enough (0 ≤ total m) by lia.
  apply IH. intros d' y Hy. apply (H d'). rewrite lookup_insert_ne; [done|]. by intros ->; rewrite Hd in Hy.
Qed.
Lemma total_le m d x : (∀ d x, m !! d = Some x → 0 ≤ d_references x) → m !! d = Some x → d_references x ≤ total m.
Proof.
  intros H Hd. rewrite (total_delete m d x Hd). enough (0 ≤ total (delete d m)) by lia. apply total_nonneg.
  intros d' y Hy. apply lookup_delete_Some in Hy as [_ Hy]. by eapply H.
Qed.

Section tree.
Context (m : gmap Z Dentry) (ext : Z → Z) (T : tree m ext).

Lemma tree_nonneg d x : m !! d = Some x → 0 ≤ d_references x.
Proof. intros Hd. pose proof (tr_refs _ _ T _ _ Hd). lia. Qed.

Lemma tree_ext_le d x : m !! d = Some x → ext d ≤ d_references x.
Proof. intros Hd. pose proof (tr_refs _ _ T _ _ Hd). lia. Qed.

Lemma rooted_parent d x n : m !! d = Some x → d ≠ root_dentry → rooted m d n → ∃ k, n = S k ∧ rooted m (d_parent x) k.
Proof. intros Hd Hn H. inversion H as [|d' x' k H1 H2 H3]; subst; [done|]. assert (x' = x) as -> by congruence. eauto. Qed.

Lemma rooted_det d n k : rooted m d n → rooted m d k → n = k.
Proof.
  intros H. revert k. induction H as [|d x n Hn Hd _ IH]; intros k Hk.
  - by inversion Hk.
  - apply (rooted_parent d x) in Hk as (j & -> & Hj); [|done..]. f_equal. by apply IH.
Qed.

(** A node is not its own ancestor, so the tree is at most as deep as it has
    nodes. *)
Lemma rooted_path d n : is_Some (m !! d) → rooted m d n →
  ∃ l, length l = S n ∧ (∀ i e, l !! i = Some e → is_Some (m !! e) ∧ rooted m e (n - i)).
Proof.
  intros Hd H. induction H as [|d x n Hn Hx Hr IH].
  - exists [root_dentry]. split; [done|]. intros [|i] e He; [|done]. injection He as <-. split; [done|constructor].
  - destruct IH as (l & Hl & H).
    { destruct (tr_parent _ _ T _ _ Hx Hn) as (y & Hy & _). by exists y. }
    exists (d :: l). split; [simpl; lia|]. intros [|i] e He; [injection He as <-|by apply H].
    split; [done|]. by eapply rooted_child.
Qed.

Lemma rooted_size d n : is_Some (m !! d) → rooted m d n → (n < size m)%nat.
Proof.
  intros Hd Hr. destruct (rooted_path d n Hd Hr) as (l & Hl & H).
  assert (NoDup l) as Hnd.
  { apply NoDup_alt. intros i j e Hi Hj. destruct (H i e Hi) as [_ H1], (H j e Hj) as [_ H2].
    pose proof (rooted_det _ _ _ H1 H2). apply lookup_lt_Some in Hi, Hj. lia. }
  assert (list_to_set l ⊆@{gset Z} dom m) as Hsub.
  { intros e He. apply elem_of_list_to_set, list_elem_of_lookup in He as [i Hi]. by apply elem_of_dom, (H i). }
  apply subseteq_size in Hsub. rewrite size_list_to_set, size_dom in Hsub by done. lia.
Qed.
End tree.

(** ** References *)

Definition set_refs (k : Z) (x : Dentry) : Dentry := x <| d_references := k |>.

(** An update that keeps the shape of a node keeps the paths to the root. *)
Lemma rooted_update m d x y e n :
  m !! d = Some x → d_parent y = d_parent x → rooted m e n → rooted (<[d := y]> m) e n.
Proof.
  intros Hd Hp. induction 1 as [|e z n Hn He _ IH]; [constructor|]. destruct (decide (e = d)) as [->|Hne].
  - assert (z = x) as -> by congruence. eapply rooted_child; [done|apply lookup_insert_eq|by rewrite Hp].
  - eapply rooted_child; [done|by rewrite lookup_insert_ne|done].
Qed.

Lemma tree_refer m ext d x k :
  tree m ext → m !! d = Some x → 0 ≤ ext d + k → (d ≠ root_dentry → 0 < d_references x + k) →
  tree (<[d := set_refs (d_references x + k) x]> m) (refer d k ext).
Proof.
  intros T Hd Hk Hu. pose proof T as [T1 T2 T3 T4 T5 T6 T7 T8 T9].
  assert (∀ e z, <[d := set_refs (d_references x + k) x]> m !! e = Some z → ∃ z', m !! e = Some z' ∧
    d_parent z = d_parent z' ∧ d_children z = d_children z' ∧
    d_references z = d_references z' + (if decide (e = d) then k else 0)) as Hl.
  { intros e z He. destruct (decide (e = d)) as [->|Hne].
    - rewrite lookup_insert_eq in He. injection He as <-. eauto.
    - rewrite lookup_insert_ne in He by done. exists z. split_and!; [done..|lia]. }
  assert (∀ e z, m !! e = Some z → ∃ z', <[d := set_refs (d_references x + k) x]> m !! e = Some z' ∧
    d_parent z' = d_parent z ∧ d_children z' = d_children z) as Hr.
  { intros e z He. destruct (decide (e = d)) as [->|Hne]; [rewrite lookup_insert_eq|rewrite lookup_insert_ne by done]; [|eauto].
    assert (z = x) as -> by congruence. eauto. }
  split.
  - destruct T1 as (z & Hz & Hp). destruct (Hr _ _ Hz) as (z' & Hz' & E & _). exists z'. by rewrite E.
  - rewrite lookup_insert_ne; [done|]. by intros ->; rewrite T2 in Hd.
  - intros e z He Hn. destruct (Hl _ _ He) as (z0 & Hz & -> & _ & _). destruct (T3 _ _ Hz Hn) as (y & Hy & Hc).
    destruct (Hr _ _ Hy) as (y' & Hy' & _ & E). exists y'. by rewrite E.
  - intros e z c He Hc. destruct (Hl _ _ He) as (z0 & Hz & _ & E & _). rewrite E in Hc.
    destruct (T4 _ _ _ Hz Hc) as (Hn & y & Hy & Hp). destruct (Hr _ _ Hy) as (y' & Hy' & E' & _). split; [done|].
    exists y'. by rewrite E'.
  - intros e z He. destruct (Hl _ _ He) as (z0 & Hz & _ & -> & _). by eapply T5.
  - intros e z He. destruct (Hl _ _ He) as (z0 & Hz & _ & -> & ->). pose proof (T6 _ _ Hz). unfold refer.
    case_decide; [subst|]; lia.
  - intros e z He Hn. destruct (Hl _ _ He) as (z0 & Hz & _ & _ & ->). pose proof (T7 _ _ Hz Hn).
    case_decide; [subst|lia]. assert (z0 = x) as -> by congruence. auto.
  - intros e z He. destruct (Hl _ _ He) as (z0 & Hz & _). destruct (T8 _ _ Hz) as [n Hn]. exists n.
    by eapply rooted_update.
  - intros e He. unfold refer. destruct (decide (e = d)) as [->|]; [by rewrite lookup_insert_eq in He|].
    rewrite lookup_insert_ne in He by done. by apply T9.
Qed.

(** A node that is referred to once and from outside goes; that reference passes
    to its parent, for the one the node held. *)
Lemma erase_length (d : Z) l : NoDup l → d ∈ l → length l = S (length (erase d l)).
Proof.
  intros Hl Hd. apply list_elem_of_split in Hd as (l1 & l2 & ->). rewrite erase_middle by done.
  rewrite !length_app. simpl. lia.
Qed.
Lemma elem_of_erase (d e : Z) l : e ∈ erase d l ↔ e ∈ l ∧ e ≠ d.
Proof. unfold erase. rewrite list_elem_of_filter. tauto. Qed.

Definition detach (d : Z) (x : Dentry) : Dentry := x <| d_children ::= erase d |>.
Arguments detach : simpl never.

Lemma tree_parent_ne m ext d x : tree m ext → m !! d = Some x → d ≠ root_dentry → d_parent x ≠ d.
Proof.
  intros T Hd Hn Hp. destruct (tr_rooted _ _ T _ _ Hd) as [n Hr].
  pose proof Hr as H2. apply (rooted_parent m d x) in H2 as (k & -> & Hk); [|done..]. rewrite Hp in Hk.
  pose proof (rooted_det m _ _ _ Hr Hk). lia.
Qed.

Lemma tree_last_reference m ext d x :
  tree m ext → m !! d = Some x → 1 ≤ ext d → d_references x - 1 = 0 → d_children x = [] ∧ ext d = 1.
Proof.
  intros T Hd He Hr. pose proof (tr_refs _ _ T _ _ Hd). destruct (d_children x); [|simpl in *; lia]. split; [done|]. simpl in *. lia.
Qed.

Lemma tree_detach m ext d x p :
  tree m ext → m !! d = Some x → d ≠ root_dentry → d_children x = [] → ext d = 1 → m !! d_parent x = Some p →
  tree (delete d (<[d_parent x := detach d p]> m)) (refer d (-1) (refer (d_parent x) 1 ext)).
Proof.
  intros T Hd Hnr Hc Hext Hp. pose proof (tree_parent_ne _ _ _ _ T Hd Hnr) as Hpd. pose proof T as [T1 T2 T3 T4 T5 T6 T7 T8 T9].
  set (m' := delete d _). assert (d ∈ d_children p) as Hin.
  { destruct (T3 _ _ Hd Hnr) as (y & Hy & Hin). congruence. }
  assert (∀ e z, m' !! e = Some z → e ≠ d ∧ ∃ z', m !! e = Some z' ∧ d_parent z = d_parent z' ∧
    d_references z = d_references z' ∧ (∀ c, c ∈ d_children z ↔ c ∈ d_children z' ∧ c ≠ d) ∧
    d_children z = (if decide (e = d_parent x) then erase d (d_children z') else d_children z')) as Hl.
  { intros e z He. apply lookup_delete_Some in He as [Hne He]. split; [done|]. destruct (decide (e = d_parent x)) as [->|Hep].
    - rewrite lookup_insert_eq in He. injection He as <-. exists p. split_and!; try done. intros c. apply elem_of_erase.
    - rewrite lookup_insert_ne in He by done. exists z. split_and!; try done. intros c. split; [|tauto]. intros Hcz. split; [done|].
      intros ->. destruct (T4 _ _ _ He Hcz) as (_ & y & Hy & E). congruence. }
  assert (∀ e z, m !! e = Some z → e ≠ d → ∃ z', m' !! e = Some z' ∧ d_parent z' = d_parent z ∧
    (∀ c, c ∈ d_children z → c ≠ d → c ∈ d_children z')) as Hr.
  { intros e z He Hne. unfold m'. rewrite lookup_delete_ne by done. destruct (decide (e = d_parent x)) as [->|Hep].
    - rewrite lookup_insert_eq. assert (z = p) as -> by congruence. eexists. split; [done|]. split; [done|].
      intros c. simpl. rewrite elem_of_erase. done.
    - rewrite lookup_insert_ne by done. eauto. }
  split.
  - destruct T1 as (z & Hz & E). destruct (Hr _ _ Hz) as (z' & Hz' & E' & _); [done|]. exists z'. by rewrite E'.
  - unfold m'. rewrite lookup_delete_None. right. rewrite lookup_insert_ne; [done|]. intros E. by rewrite E, T2 in Hp.
  - intros e z He Hn. destruct (Hl _ _ He) as (Hne & z0 & Hz & -> & _). destruct (T3 _ _ Hz Hn) as (y & Hy & Hcy).
    destruct (Hr _ _ Hy) as (y' & Hy' & _ & H); [|eauto]. intros E. rewrite E in Hy.
    assert (y = x) as -> by congruence. rewrite Hc in Hcy. set_solver.
  - intros e z c He Hcz. destruct (Hl _ _ He) as (Hne & z0 & Hz & _ & _ & H & _). apply H in Hcz as [Hcz Hcd].
    destruct (T4 _ _ _ Hz Hcz) as (Hn & y & Hy & E). destruct (Hr _ _ Hy Hcd) as (y' & Hy' & E' & _). split; [done|].
    exists y'. by rewrite E'.
  - intros e z He. destruct (Hl _ _ He) as (Hne & z0 & Hz & _ & _ & _ & ->). case_decide; [apply NoDup_filter|]; by eapply T5.
  - intros e z He. destruct (Hl _ _ He) as (Hne & z0 & Hz & _ & -> & _ & ->). pose proof (T6 _ _ Hz). unfold refer.
    rewrite (decide_False (P := e = d)) by done. case_decide; [subst|lia]. assert (z0 = p) as -> by congruence.
    rewrite (erase_length d (d_children p)) in H by (done || by eapply T5). lia.
  - intros e z He Hn. destruct (Hl _ _ He) as (Hne & z0 & Hz & _ & -> & _). by eapply T7.
  - intros e z He. destruct (Hl _ _ He) as (Hne & z0 & Hz & _). destruct (T8 _ _ Hz) as [n Hn]. exists n. clear He Hl.
    revert z0 Hz. induction Hn as [|e y n Hn He Hre IH]; intros z0 Hz; [constructor|].
    destruct (Hr _ _ He Hne) as (y' & Hy' & E & _). eapply rooted_child; [done|exact Hy'|]. rewrite E.
    destruct (T3 _ _ He Hn) as (w & Hw & Hcw). apply (IH ltac:(intros Ed; rewrite Ed in Hw; assert (w = x) as -> by congruence; rewrite Hc in Hcw; set_solver) w Hw).
  - intros e He. unfold refer. destruct (decide (e = d)) as [->|Hne]; [by rewrite decide_False by done; rewrite Hext|].
    unfold m' in He. rewrite lookup_delete_ne, lookup_insert_None in He by done. destruct He as [He Hep].
    rewrite decide_False by done. by apply T9.
Qed.

Lemma rooted_detach m d q p e i :
  m !! q = Some p → rooted (delete d (<[q := detach d p]> m)) e i → rooted m e i.
Proof.
  intros Hp. induction 1 as [|e y i Hn Hy _ IH]; [constructor|]. apply lookup_delete_Some in Hy as [Hed Hy].
  destruct (decide (e = q)) as [->|Hep].
  - rewrite lookup_insert_eq in Hy. injection Hy as <-. by eapply (rooted_child _ _ p).
  - rewrite lookup_insert_ne in Hy by done. by eapply rooted_child.
Qed.

(** A new node below [p]. *)
Lemma tree_attach m ext d p y z :
  tree m ext → m !! d = None → d ≠ 0 → m !! p = Some y → d_parent z = p → d_children z = [] → d_references z = 1 →
  tree (<[d := z]> (<[p := y <| d_references ::= λ n, n + 1 |> <| d_children ::= push_front d |>]> m)) (refer d 1 ext).
Proof.
  intros T Hd H0 Hp Hz Hc Hz1. pose proof T as [T1 T2 T3 T4 T5 T6 T7 T8 T9].
  set (y' := y <| d_references ::= _ |> <| d_children ::= _ |>). set (m' := <[d := z]> _).
  assert (d ≠ root_dentry) as Hdr by (intros ->; destruct T1 as (x & Hx & _); congruence).
  assert (d ≠ p) as Hdp by (intros ->; congruence).
  assert (m' !! d = Some z) as Ed by apply lookup_insert_eq.
  assert (m' !! p = Some y') as Ep by (unfold m'; rewrite lookup_insert_ne by done; apply lookup_insert_eq).
  assert (∀ e, e ≠ d → e ≠ p → m' !! e = m !! e) as Ee by (intros; unfold m'; by rewrite !lookup_insert_ne by done).
  assert (∀ e x, m !! e = Some x → ∃ x', m' !! e = Some x' ∧ d_parent x' = d_parent x ∧ ∀ c, c ∈ d_children x → c ∈ d_children x') as Hr.
  { intros e x He. destruct (decide (e = d)) as [->|Hne]; [congruence|]. destruct (decide (e = p)) as [->|Hnp].
    - assert (x = y) as -> by congruence. exists y'. split_and!; [done..|]. intros c Hcy. by apply list_elem_of_further.
    - exists x. rewrite Ee by done. done. }
  assert (∀ e n, rooted m e n → rooted m' e n) as Hro.
  { intros e n. induction 1 as [|e x n Hn He _ IH]; [constructor|]. destruct (Hr _ _ He) as (x' & Hx' & E & _).
    eapply rooted_child; [done|exact Hx'|]. by rewrite E. }
  split.
  - destruct T1 as (x & Hx & E). destruct (Hr _ _ Hx) as (x' & Hx' & E' & _). exists x'. by rewrite E'.
  - rewrite Ee; [done|done|congruence].
  - intros e x He Hn. destruct (decide (e = d)) as [->|Hne].
    + assert (x = z) as -> by congruence. rewrite Hz. exists y'. split; [done|]. apply list_elem_of_here.
    + assert (∃ x0, m !! e = Some x0 ∧ d_parent x = d_parent x0) as (x0 & Hx0 & ->).
      { destruct (decide (e = p)) as [->|]; [exists y; by replace x with y' by congruence|]. rewrite Ee in He by done. eauto. }
      destruct (T3 _ _ Hx0 Hn) as (w & Hw & Hcw). destruct (Hr _ _ Hw) as (w' & Hw' & _ & H). eauto.
  - intros e x c He Hcx. destruct (decide (e = d)) as [->|Hne].
    { assert (x = z) as -> by congruence. rewrite Hc in Hcx. set_solver. }
    assert (e = p ∧ c = d ∨ ∃ x0, m !! e = Some x0 ∧ c ∈ d_children x0) as [[-> ->]|(x0 & Hx0 & Hc0)].
    { destruct (decide (e = p)) as [->|]; [|rewrite Ee in He by done; eauto]. assert (x = y') as -> by congruence.
      apply elem_of_cons in Hcx as [->|Hcx]; eauto. }
    + split; [done|]. exists z. done.
    + destruct (T4 _ _ _ Hx0 Hc0) as (Hn & w & Hw & E). destruct (Hr _ _ Hw) as (w' & Hw' & E' & _). split; [done|].
      exists w'. by rewrite E'.
  - intros e x He. destruct (decide (e = d)) as [->|Hne]; [assert (x = z) as -> by congruence; rewrite Hc; constructor|].
    destruct (decide (e = p)) as [->|]; [|rewrite Ee in He by done; by eapply T5]. assert (x = y') as -> by congruence.
    apply NoDup_cons. split; [|exact (T5 _ _ Hp)]. intros Hin. destruct (T4 _ _ _ Hp Hin) as (_ & w & Hw & _). congruence.
  - intros e x He. unfold refer. destruct (decide (e = d)) as [->|Hne].
    { assert (x = z) as -> by congruence. rewrite Hc, Hz1, (T9 d Hd). done. }
    destruct (decide (e = p)) as [->|]; [|rewrite Ee in He by done; by apply T6]. assert (x = y') as -> by congruence.
    pose proof (T6 _ _ Hp). simpl. lia.
  - intros e x He Hn. destruct (decide (e = d)) as [->|Hne]; [assert (x = z) as -> by congruence; lia|].
    destruct (decide (e = p)) as [->|]; [|rewrite Ee in He by done; by eapply T7]. assert (x = y') as -> by congruence.
    pose proof (T6 _ _ Hp). simpl. lia.
  - intros e x He. destruct (decide (e = d)) as [->|Hne].
    + assert (x = z) as -> by congruence. destruct (T8 _ _ Hp) as [n Hn]. exists (S n). eapply rooted_child; [done..|].
      rewrite Hz. by apply Hro.
    + assert (is_Some (m !! e)) as [x0 Hx0].
      { destruct (decide (e = p)) as [->|]; [by exists y|]. rewrite Ee in He by done. by exists x. }
      destruct (T8 _ _ Hx0) as [n Hn]. exists n. by apply Hro.
  - intros e He. unfold refer. destruct (decide (e = d)) as [->|Hne]; [congruence|].
    destruct (decide (e = p)) as [->|]; [congruence|]. rewrite Ee in He by done. by apply T9.
Qed.

(** ** The operations *)

Section nodes.
Context {W : Type} `{FW : FatWorld W} `{FL : Fuel}.
Implicit Types (s : fs W) (v : Volume).

Definition node_arena s : arena W := mkArena (fs_words s) (fs_pages s) (fs_world s).

(** The nodes of the volume: the tree, the count of all references, and the
    memory of the nodes, objects of the slab other than the free ones [l] in its
    pages [ps]. *)
Record nodes s v (ext : Z → Z) (l ps : list Z) : Prop := {
  nd_vol : fs_vol s = Some v;
  nd_tree : tree (fs_dentries s) ext;
  nd_count : v_num_dentries v = total (fs_dentries s);
  nd_max : v_num_dentries v < 2 ^ 32;
  nd_slab : slab (v_dentries_slab v) (node_arena s) l ps;
  nd_object d : is_Some (fs_dentries s !! d) → d ≠ root_dentry →
    d ∉ l ∧ ∃ p, p ∈ ps ∧ d ∈ slots (obj_size (v_dentries_slab v)) p;
  nd_apart p : p ∈ ps → root_dentry < p }.

Lemma wp_getdentry d x s (Q : Dentry → fs W → Prop) : fs_dentries s !! d = Some x → Q x s → wp (getdentry d) Q s.
Proof. intros Hd HQ. unfold getdentry. apply wp_bind, wp_gets. by eapply wp_deref. Qed.
Lemma wp_putdentry d x s (Q : () → fs W → Prop) :
  d ≠ 0 → Q () (s <| fs_dentries ::= <[d := x]> |>) → wp (putdentry d x) Q s.
Proof. intros Hn HQ. unfold putdentry. rewrite (proj2 (nz_true d) Hn). by apply wp_modify. Qed.
Lemma wp_moddentry d x f s (Q : () → fs W → Prop) :
  d ≠ 0 → fs_dentries s !! d = Some x → Q () (s <| fs_dentries ::= <[d := f x]> |>) → wp (moddentry d f) Q s.
Proof. intros Hn Hd HQ. unfold moddentry. apply wp_bind. eapply wp_getdentry; [done|]. by apply wp_putdentry. Qed.

Lemma wp_on_dentries {A} (m : M (SlabCache * arena W) A) s v (Q : A → fs W → Prop) :
  fs_vol s = Some v →
  wp m (λ a r, Q a (s <| fs_vol := Some (v <| v_dentries_slab := r.1 |>) |> <| fs_words := words r.2 |>
    <| fs_pages := held r.2 |> <| fs_world := source r.2 |>)) (v_dentries_slab v, node_arena s) →
  wp (on_dentries_slab m) Q s.
Proof.
  intros Hv H. unfold on_dentries_slab, with_slab. apply wp_bind. eapply wp_getv; [done|]. apply wp_bind, wp_gets.
  apply wp_done in H as (a & [c ar] & E & HQ). unfold node_arena in E. rewrite E. by apply wp_bind, wp_modify, wp_ret.
Qed.

Lemma nodes_null s v ext l ps d x : nodes s v ext l ps → fs_dentries s !! d = Some x → d ≠ 0.
Proof. intros N Hd ->. by rewrite (tr_null _ _ (nd_tree _ _ _ _ _ N)) in Hd. Qed.

Lemma nodes_refs s v ext l ps d x :
  nodes s v ext l ps → fs_dentries s !! d = Some x → 0 ≤ d_references x ≤ v_num_dentries v ∧ v_num_dentries v < 2 ^ 32.
Proof.
  intros N Hd. pose proof (tree_nonneg _ _ (nd_tree _ _ _ _ _ N)) as H. split; [|apply N].
  rewrite (nd_count _ _ _ _ _ N). split; [by eapply H|by eapply total_le].
Qed.

(** Changing the count of references from outside. *)
Lemma nodes_refer s v ext l ps d x k v' s' :
  nodes s v ext l ps → fs_dentries s !! d = Some x → 0 ≤ ext d + k → (d ≠ root_dentry → 0 < d_references x + k) →
  v_num_dentries v + k < 2 ^ 32 →
  v' = v <| v_num_dentries := v_num_dentries v + k |> →
  s' = s <| fs_dentries ::= <[d := set_refs (d_references x + k) x]> |> <| fs_vol := Some v' |> →
  nodes s' v' (refer d k ext) l ps.
Proof.
  intros [N1 N2 N3 N4 N5 N6 N7] Hd Hk Hu Hm -> ->. split; simpl; try done.
  - by apply tree_refer.
  - rewrite (total_update _ _ x) by done. simpl. lia.
  - intros e He Hn. apply N6; [|done]. destruct (decide (e = d)) as [->|]; [by exists x|].
    by rewrite lookup_insert_ne in He.
Qed.

Lemma wp_fat_dget s v ext l ps d x (Q : () → fs W → Prop) :
  nodes s v ext l ps → fs_dentries s !! d = Some x → v_num_dentries v + 1 < 2 ^ 32 →
  (∀ s' v', nodes s' v' (refer d 1 ext) l ps → v_num_dentries v' = v_num_dentries v + 1 →
     fs_dentries s' = <[d := set_refs (d_references x + 1) x]> (fs_dentries s) → Q () s') →
  wp (fat_dget d) Q s.
Proof.
  intros N Hd Hm HQ. pose proof (nodes_refs _ _ _ _ _ _ _ N Hd) as Hr. unfold fat_dget. apply wp_bind.
  eapply wp_moddentry; [by eapply nodes_null|done|]. eapply wp_modv; [apply N|]. simpl.
  rewrite !u32_small by lia. eapply HQ; [eapply (nodes_refer s v ext l ps d x 1)| |]; try done.
  - pose proof (tr_refs _ _ (nd_tree _ _ _ _ _ N) _ _ Hd). lia.
  - lia.
Qed.

(** Releasing the last reference to a node other than the root: the steps of one
    iteration of the loop. *)
Lemma nodes_detach s v ext l ps d x p :
  nodes s v ext l ps → fs_dentries s !! d = Some x → d ≠ root_dentry → d_children x = [] → ext d = 1 →
  d_references x = 1 → fs_dentries s !! d_parent x = Some p →
  wp (moddentry (d_parent x) (λ p, p <| d_children ::= erase d |>);; free_dentry d)
    (λ _ s', ∃ v', nodes s' v' (refer d (-1) (refer (d_parent x) 1 ext)) (d :: l) ps ∧
      fs_dentries s' = delete d (<[d_parent x := detach d p]> (fs_dentries s)))
    (s <| fs_dentries ::= <[d := set_refs 0 x]> |> <| fs_vol := Some (v <| v_num_dentries := v_num_dentries v - 1 |>) |>).
Proof.
  intros N Hd Hn Hc He Hx Hp. pose proof N as [N1 N2 N3 N4 N5 N6 N7].
  pose proof (tree_parent_ne _ _ _ _ N2 Hd Hn) as Hpd. apply wp_bind.
  eapply wp_moddentry; [by eapply nodes_null|simpl; by rewrite lookup_insert_ne|]. simpl.
  unfold free_dentry. apply wp_bind. eapply wp_on_dentries; [done|]. simpl.
  destruct (N6 d (ex_intro _ _ Hd) Hn) as (Hfree & q & Hq & Hslot).
  eapply wp_mono; [|by eapply wp_slabmem_free]. intros _ [c a] [S E]. simpl in *. apply wp_modify.
  match goal with |- ∃ v', nodes ?S _ _ _ _ ∧ _ =>
    assert (fs_dentries S = delete d (<[d_parent x := detach d p]> (fs_dentries s))) as Em end.
  { simpl. rewrite (insert_insert_ne (fs_dentries s)) by done. by rewrite delete_insert_eq. }
  eexists. split; [|exact Em]. split; [reflexivity|..]; rewrite ?Em; simpl; try done.
  - by apply tree_detach.
  - pose proof (total_delete (<[d_parent x := detach d p]> (fs_dentries s)) d x) as H.
    rewrite (total_update _ _ p) in H by done. assert (d_references (detach d p) = d_references p) as Er by done. rewrite lookup_insert_ne in H by done. specialize (H Hd).
    lia.
  - lia.
  - by destruct a.
  - intros e He' Hne. destruct (decide (e = d)) as [->|Hed]; [by rewrite lookup_delete_eq in He'; destruct He'|].
    rewrite lookup_delete_ne in He' by done.
    assert (is_Some (fs_dentries s !! e)) as Hes.
    { destruct (decide (e = d_parent x)) as [->|]; [by exists p|]. by rewrite lookup_insert_ne in He'. }
    destruct (N6 e Hes Hne) as [Hfe Hse]. rewrite E, not_elem_of_cons. done.
Qed.

(** What does not change in a node. *)
Definition same_node (x y : Dentry) : Prop :=
  d_parent y = d_parent x ∧ d_de_entcnt y = d_de_entcnt x ∧ d_de_sector y = d_de_sector x ∧ d_attr y = d_attr x.
Definition subtree (m' m : gmap Z Dentry) : Prop := ∀ e y, m' !! e = Some y → ∃ x, m !! e = Some x ∧ same_node x y.

Lemma subtree_refl m : subtree m m.
Proof. intros e y He. by exists y. Qed.
Lemma subtree_trans m1 m2 m3 : subtree m1 m2 → subtree m2 m3 → subtree m1 m3.
Proof.
  intros H1 H2 e z He. destruct (H1 e z He) as (y & Hy & E1 & E2 & E3 & E4).
  destruct (H2 e y Hy) as (x & Hx & ?). exists x. split; [done|]. unfold same_node in *. intuition congruence.
Qed.
Lemma subtree_insert m d x y : m !! d = Some x → same_node x y → subtree (<[d := y]> m) m.
Proof.
  intros Hd Hs e z He. destruct (decide (e = d)) as [->|Hne].
  - rewrite lookup_insert_eq in He. injection He as <-. eauto.
  - rewrite lookup_insert_ne in He by done. by exists z.
Qed.
Lemma subtree_delete m d : subtree (delete d m) m.
Proof. intros e y He. apply lookup_delete_Some in He as [_ He]. by exists y. Qed.

Lemma wp_dput_loop n k d s v ext l ps x :
  rooted (fs_dentries s) d n → (n < k)%nat → nodes s v ext l ps → fs_dentries s !! d = Some x → 1 ≤ ext d →
  wp (dput_loop k d) (λ _ s', ∃ v' l', nodes s' v' (refer d (-1) ext) l' ps ∧ subtree (fs_dentries s') (fs_dentries s)) s.
Proof.
  intros Hr. revert k d s v ext l x Hr. induction n as [|n IH]; intros k d s v ext l x Hr Hk N Hd He;
    (destruct k as [|k]; [lia|]);
    pose proof (nodes_null _ _ _ _ _ _ _ N Hd) as H0; pose proof (nodes_refs _ _ _ _ _ _ _ N Hd) as Hrf;
    pose proof (tree_ext_le _ _ (nd_tree _ _ _ _ _ N) _ _ Hd) as Hle; cbn [dput_loop];
    rewrite (proj2 (nz_true d) H0); simpl;
    (apply wp_bind; eapply wp_moddentry; [done..|]; apply wp_bind; eapply wp_modv; [apply N|]);
    (apply wp_bind; eapply wp_getdentry; [apply lookup_insert_eq|]); simpl; rewrite !u32_small by lia.
  - inversion Hr; subst d. destruct (tr_root _ _ (nd_tree _ _ _ _ _ N)) as (y & Hy & Hp). assert (y = x) as -> by congruence.
    assert (∃ v' l', nodes (s <| fs_dentries ::= <[root_dentry := set_refs (d_references x + -1) x]> |>
      <| fs_vol := Some (v <| v_num_dentries := v_num_dentries v + -1 |>) |>) v' (refer root_dentry (-1) ext) l' ps ∧
      subtree (<[root_dentry := set_refs (d_references x + -1) x]> (fs_dentries s)) (fs_dentries s)) as H.
    { eexists _, _. split; [eapply nodes_refer; [exact N|exact Hd|..|reflexivity|reflexivity]; [lia|done|lia]|].
      by eapply subtree_insert. }
    destruct (nz (d_references x - 1)); [by apply wp_ret|].
    assert (nz (d_parent x) = false) as Enp by by rewrite Hp. rewrite Enp. apply wp_bind, wp_ret.
    destruct k; cbn [dput_loop]; rewrite Enp; by apply wp_ret.
  - assert (d ≠ root_dentry) as Hnr by (intros ->; inversion Hr; done).
    destruct (rooted_parent _ d x _ Hd Hnr Hr) as (j & [= <-] & Hj).
    destruct (nz (d_references x - 1)) eqn:Enz.
    + apply nz_true in Enz. apply wp_ret. eexists _, _.
      split; [eapply nodes_refer; [exact N|exact Hd|..|reflexivity|reflexivity]; lia|by eapply subtree_insert].
    + apply nz_false in Enz. destruct (tree_last_reference _ _ _ _ (nd_tree _ _ _ _ _ N) Hd He Enz) as [Hc He1].
      destruct (tr_parent _ _ (nd_tree _ _ _ _ _ N) _ _ Hd Hnr) as (p & Hp & _).
      rewrite (proj2 (nz_true (d_parent x))) by (by eapply nodes_null). rewrite Enz. apply wp_bind.
      eapply wp_mono; [|eapply (nodes_detach s v ext l ps d x p); (done || lia)].
      intros _ s1 (v1 & N1 & E1). pose proof (tree_parent_ne _ _ _ _ (nd_tree _ _ _ _ _ N) Hd Hnr) as Hpd.
      assert (fs_dentries s1 !! d_parent x = Some (detach d p)) as Hp1
        by (rewrite E1, lookup_delete_ne by done; apply lookup_insert_eq).
      assert (rooted (fs_dentries s1) (d_parent x) n) as Hr1.
      { destruct (tr_rooted _ _ (nd_tree _ _ _ _ _ N1) _ _ Hp1) as [i Hi]. replace n with i; [done|].
        eapply (rooted_det (fs_dentries s)); [|exact Hj]. eapply rooted_detach; [exact Hp|]. by rewrite <- E1. }
      assert (1 ≤ refer d (-1) (refer (d_parent x) 1 ext) (d_parent x)) as He'.
      { unfold refer. rewrite decide_False, decide_True by done.
        pose proof (tr_refs _ _ (nd_tree _ _ _ _ _ N) _ _ Hp). lia. }
      eapply wp_mono; [|eapply (IH k _ s1 v1 _ (d :: l) _ Hr1); [lia|exact N1|exact Hp1|exact He']].
      intros _ s' (v' & l' & N' & Hsub). exists v', l'. split.
      * destruct N' as [M1 M2 M3 M4 M5 M6 M7]. split; try done. revert M2. apply tree_proper. intros e. unfold refer.
        repeat case_decide; subst; try lia; done.
      * eapply subtree_trans; [exact Hsub|]. rewrite E1. eapply subtree_trans; [apply subtree_delete|by eapply subtree_insert].
Qed.

Lemma wp_fat_dput d s v ext l ps x :
  nodes s v ext l ps → fs_dentries s !! d = Some x → 1 ≤ ext d → (size (fs_dentries s) ≤ fuel)%nat →
  wp (fat_dput d) (λ _ s', ∃ v' l', nodes s' v' (refer d (-1) ext) l' ps ∧ subtree (fs_dentries s') (fs_dentries s)) s.
Proof.
  intros N Hd He Hf. destruct (tr_rooted _ _ (nd_tree _ _ _ _ _ N) _ _ Hd) as [n Hn]. eapply wp_dput_loop; [done| |done..].
  eapply Nat.lt_le_trans; [|exact Hf]. eapply rooted_size; [apply N| |done]. by exists x.
Qed.

(** The search among the children. *)
Lemma wp_find_child n ds s (Q : option Z → fs W → Prop) :
  (∀ d, d ∈ ds → is_Some (fs_dentries s !! d)) →
  (∀ d x, d ∈ ds → fs_dentries s !! d = Some x → d_de_entcnt x = n → Q (Some d) s) →
  ((∀ d x, d ∈ ds → fs_dentries s !! d = Some x → d_de_entcnt x ≠ n) → Q None s) →
  wp (find_child n ds) Q s.
Proof.
  induction ds as [|d ds IH]; intros Hd HS HN; cbn [find_child].
  - apply wp_ret, HN. set_solver.
  - destruct (Hd d ltac:(set_solver)) as [x Hx]. apply wp_bind. eapply wp_getdentry; [done|].
    destruct (Z.eqb_spec n (d_de_entcnt x)) as [E|E]; [eapply wp_ret, HS; [set_solver|done|done]|].
    apply IH; [set_solver|intros e y He; apply HS; set_solver|]. intros H. apply HN.
    intros e y [->|He]%elem_of_cons Hy; [congruence|by eapply H].
Qed.

(** A new page of nodes, if one is needed, lies apart from the others and above the
    root node. *)
Definition fresh_nodes s (ps : list Z) : Prop :=
  fresh_page (node_arena s) ps ∧
  let p := (page_alloc (source (node_arena s))).1 in p ≠ 0 → root_dentry < p.

Lemma slot_above size (p o : Z) : 0 < size → o ∈ slots size p → root_dentry < p → root_dentry < o.
Proof. intros Hs Ho Hp. apply slot_range in Ho; [|done]. lia. Qed.

(** An object that was not allocated. *)
Lemma wp_alloc_node s v ext l ps (Q : Z → fs W → Prop) :
  nodes s v ext l ps → fresh_nodes s ps →
  (∀ r s' v' l' ps', nodes s' v' ext l' ps' → fs_dentries s' = fs_dentries s → v_num_dentries v' = v_num_dentries v →
     (r ≠ 0 → fs_dentries s !! r = None ∧ r ∉ l' ∧ ∃ p, p ∈ ps' ∧ r ∈ slots (obj_size (v_dentries_slab v')) p) → Q r s') →
  wp (on_dentries_slab slabmem_alloc) Q s.
Proof.
  intros N [Hf Hp] HQ. pose proof N as [N1 N2 N3 N4 N5 N6 N7]. pose proof (sl_size _ _ _ _ N5) as Hsz.
  eapply wp_on_dentries; [done|]. eapply wp_mono; [|by apply wp_slabmem_alloc]. intros r [c a] [Eo Hr]. simpl in *.
  assert (∀ l' ps', slab c a l' ps' → (∀ d, is_Some (fs_dentries s !! d) → d ≠ root_dentry → d ∉ l') →
    (∀ p, p ∈ ps → p ∈ ps') → (∀ p, p ∈ ps' → root_dentry < p) →
    (r ≠ 0 → fs_dentries s !! r = None ∧ r ∉ l' ∧ ∃ p, p ∈ ps' ∧ r ∈ slots (obj_size c) p) → Q r
      (s <| fs_vol := Some (v <| v_dentries_slab := c |>) |> <| fs_words := words a |>
         <| fs_pages := held a |> <| fs_world := source a |>)) as Hdone.
  { intros l' ps' S H1 H2 H3 H4. eapply HQ; [split; [reflexivity|exact N2|exact N3|exact N4|destruct a; exact S| |exact H3]|done|done|exact H4].
    intros d Hd Hn. simpl. rewrite Eo. split; [by apply H1|]. destruct (N6 d Hd Hn) as (_ & p & Hin & Hs). eauto. }
  assert (∀ q d, (q ∈ ps → d ∈ l) → q ∈ ps → d ∈ slots (obj_size c) q → fs_dentries s !! d = None) as Hfree.
  { intros q d Hl Hq Hs. apply eq_None_not_Some. intros Hd. assert (d ≠ root_dentry) as Hn.
    { pose proof (slot_above (obj_size c) q d ltac:(lia) Hs (N7 q Hq)). lia. }
    destruct (N6 d Hd Hn) as [H _]. auto. }
  destruct l as [|o l].
  - destruct Hr as [-> Hr]. revert Hr. destruct (Z.eqb_spec (fd32_kmem_get SLABMEM_PAGE_SIZE (fs_world s)).1 0) as [E0|E0]; intros Hr.
    + eapply (Hdone [] ps); [exact Hr|intros; apply not_elem_of_nil|done|done|done].
    + set (page := (fd32_kmem_get SLABMEM_PAGE_SIZE (fs_world s)).1) in *. destruct (Hf E0) as [Hpos Hap]. simpl in Hap. rewrite <- Eo in Hr.
      pose proof (slots_cons (obj_size c) page ltac:(lia)) as Ec. pose proof (slots_nodup (obj_size c) page ltac:(lia)) as Hnd.
      assert (∀ d, is_Some (fs_dentries s !! d) → d ∉ slots (obj_size c) page) as Hnew.
      { intros d Hd Hs. pose proof (slot_above (obj_size c) page d ltac:(lia) Hs (Hp E0)). destruct (N6 d Hd ltac:(lia)) as (_ & q & Hq & Hs').
        rewrite <- Eo in Hs'. apply slot_range in Hs, Hs'; [|lia..]. specialize (Hap q Hq). unfold apart, SLABMEM_PAGE_SIZE, sizeof_ptr in *. lia. }
      rewrite Ec in Hnd. apply NoDup_cons in Hnd as [Hnd _].
      eapply (Hdone _ (page :: ps)); [exact Hr| |set_solver| |].
      * intros d Hd Hn Hin. eapply Hnew; [exact Hd|]. rewrite Ec. by right.
      * intros q [->|Hq]%elem_of_cons; [by apply Hp|by apply N7].
      * intros _. split; [|split; [done|]].
        -- apply eq_None_not_Some. intros Hd. eapply Hnew; [exact Hd|]. rewrite Ec. by left.
        -- exists page. split; [by left|]. rewrite Ec. by left.
  - destruct Hr as (-> & -> & S). destruct (sl_slot _ _ _ _ N5 o ltac:(by left)) as (q & Hq & Hs).
    pose proof (sl_nodup _ _ _ _ N5) as [Hol _]%NoDup_cons.
    eapply (Hdone l ps); [exact S| |done|exact N7|].
    + intros d Hd Hn. destruct (N6 d Hd Hn) as [H _]. set_solver.
    + intros _. rewrite <- Eo in Hs. split; [eapply Hfree; [|exact Hq|exact Hs]; by left|]. split; [done|]. eauto.
Qed.

(** A new node with one reference from outside. *)
Lemma wp_new_node s v ext l ps d parent y n sector attr lfn (Q : Z → fs W → Prop) :
  nodes s v ext l ps → v_num_dentries v + 2 < 2 ^ 32 → fs_dentries s !! parent = Some y →
  d ≠ 0 → fs_dentries s !! d = None → d ∉ l → (∃ p, p ∈ ps ∧ d ∈ slots (obj_size (v_dentries_slab v)) p) →
  (∀ s' v', nodes s' v' (refer d 1 ext) l ps → subtree (fs_dentries s) (fs_dentries s') →
     fs_dentries s' !! d = Some (mkDentry parent [] 1 sector (u16 n) (u8 attr) (u8 lfn)) → Q d s') →
  wp (dentry_init d parent n sector attr lfn;; fat_dget d;; mret d) Q s.
Proof.
  intros N Hm Hp H0 Hd Hfree Hobj HQ. pose proof N as [N1 N2 N3 N4 N5 N6 N7].
  pose proof (nodes_refs _ _ _ _ _ _ _ N Hp) as Hrf. pose proof (nodes_null _ _ _ _ _ _ _ N Hp) as Hp0.
  assert (d ≠ parent) as Hdp by (intros ->; congruence). unfold dentry_init, fat_dget.
  apply wp_bind, wp_bind, wp_putdentry; [done|]. apply wp_bind, wp_bind.
  eapply wp_moddentry; [done|simpl; by rewrite lookup_insert_ne|]. eapply wp_modv; [done|].
  eapply wp_moddentry; [done|apply lookup_insert_eq|]. apply wp_bind, wp_bind.
  eapply wp_moddentry; [done|simpl; by rewrite !(lookup_insert_ne _ parent), lookup_insert_eq by done|].
  eapply wp_modv; [done|]. apply wp_ret. simpl.
  set (z := mkDentry parent [] 1 sector (u16 n) (u8 attr) (u8 lfn)).
  set (y' := y <| d_references ::= λ n, n + 1 |> <| d_children ::= push_front d |>).
  match goal with |- Q d ?S => assert (fs_dentries S = <[d := z]> (<[parent := y']> (fs_dentries s))) as Em end.
  { simpl. rewrite insert_insert_eq, (u32_small (d_references y + 1)) by lia.
    rewrite (insert_insert_ne _ parent d), insert_insert_eq by done. done. }
  assert (tree (<[d := z]> (<[parent := y']> (fs_dentries s))) (refer d 1 ext)) as Ht by (apply tree_attach; done).
  assert (subtree (fs_dentries s) (<[d := z]> (<[parent := y']> (fs_dentries s)))) as Hsub.
  { intros e x He. destruct (decide (e = d)) as [->|Hed]; [congruence|]. rewrite lookup_insert_ne by done.
    destruct (decide (e = parent)) as [->|]; [rewrite lookup_insert_eq|rewrite lookup_insert_ne by done; by exists x].
    assert (x = y) as -> by congruence. by exists y'. }
  eapply HQ; [split; [reflexivity|..]; rewrite ?Em; simpl|by rewrite Em|rewrite Em; apply lookup_insert_eq].
  - done.
  - rewrite total_insert, (total_update _ _ y) by (done || by rewrite lookup_insert_ne). simpl. rewrite (u32_small (v_num_dentries v + 1)), u32_small by lia. lia.
  - rewrite (u32_small (v_num_dentries v + 1)), u32_small by lia. lia.
  - done.
  - intros e He Hn. destruct (decide (e = d)) as [->|Hed]; [done|]. apply N6; [|done].
    rewrite lookup_insert_ne in He by done. destruct (decide (e = parent)) as [->|]; [by exists y|].
    by rewrite lookup_insert_ne in He.
  - done.
Qed.

Lemma wp_dentry_get s v ext l ps parent y n sector attr lfn (Q : Z → fs W → Prop) :
  nodes s v ext l ps → fresh_nodes s ps → v_num_dentries v + 2 < 2 ^ 32 → fs_dentries s !! parent = Some y →
  (∀ s' v' l' ps', nodes s' v' ext l' ps' → fs_dentries s' = fs_dentries s → Q 0 s') →
  (∀ r x s' v' l' ps', r ≠ 0 → nodes s' v' (refer r 1 ext) l' ps' → subtree (fs_dentries s) (fs_dentries s') →
     fs_dentries s' !! r = Some x → d_parent x = parent →
     (if fs_dentries s !! r then d_de_entcnt x = n
      else x = mkDentry parent [] 1 sector (u16 n) (u8 attr) (u8 lfn) ∧
           ∀ c z, c ∈ d_children y → fs_dentries s !! c = Some z → d_de_entcnt z ≠ n) → Q r s') →
  wp (dentry_get parent n sector attr lfn) Q s.
Proof.
  intros N Hf Hm Hp H0 HQ. pose proof (nd_tree _ _ _ _ _ N) as T. unfold dentry_get.
  apply wp_bind. eapply wp_getdentry; [done|]. apply wp_bind. eapply wp_find_child.
  - intros d Hd. destruct (tr_child _ _ T _ _ _ Hp Hd) as (_ & x & Hx & _). by exists x.
  - intros d x Hd Hx En. apply wp_bind. destruct (tr_child _ _ T _ _ _ Hp Hd) as (_ & x' & Hx' & Hpar).
    assert (x' = x) as -> by congruence.
    eapply wp_fat_dget; [exact N|exact Hx|lia|]. intros s' v' N' _ E. apply wp_ret.
    eapply HQ; [exact (nodes_null _ _ _ _ _ _ _ N Hx)|exact N'| |rewrite E; apply lookup_insert_eq|exact Hpar|by rewrite Hx].
    rewrite E. intros e z He. destruct (decide (e = d)) as [->|]; [|rewrite lookup_insert_ne by done; by exists z].
    rewrite lookup_insert_eq. eexists. split; [done|]. by assert (z = x) as -> by congruence.
  - intros Hnone. apply wp_bind. eapply wp_alloc_node; [exact N|done|].
    intros r s1 v1 l1 ps1 N1 E1 Ev Hr. unfold guard_ret. destruct (nz r) eqn:Er; simpl.
    + apply nz_true in Er. destruct (Hr Er) as (Hn & Hl & Hobj). rewrite <- E1 in Hp, Hn.
      eapply wp_new_node; [exact N1|lia|exact Hp|done|exact Hn|exact Hl|exact Hobj|].
      intros s' v' N' Hsub Hx. rewrite E1 in Hn, Hsub. eapply HQ; [exact Er|exact N'|exact Hsub|exact Hx|done|]. rewrite Hn. eauto.
    + apply nz_false in Er as ->. apply wp_ret. by eapply H0.
Qed.
End nodes.

(** * Theorems *)

Section theorems.
Context {W : Type} `{FW : FatWorld W} `{FL : Fuel}.
Implicit Types (s : fs W) (v : Volume).

(** C21: releasing a reference ends, and keeps the tree of nodes, its counts and
    the memory of the nodes in order with one reference from outside less. In
    particular every node that is left, but the root, is still referred to, and
    every node referred to from outside is left; what is left is as before. *)
Theorem fat_dput_correct d s v ext l ps x :
  nodes s v ext l ps → fs_dentries s !! d = Some x → 1 ≤ ext d → (size (fs_dentries s) ≤ fuel)%nat →
  ∃ s' v' l', fat_dput d s = Done () s' ∧ nodes s' v' (refer d (-1) ext) l' ps ∧
    subtree (fs_dentries s') (fs_dentries s) ∧
    (∀ e y, fs_dentries s' !! e = Some y → e ≠ root_dentry → 0 < d_references y) ∧
    (∀ e, refer d (-1) ext e ≠ 0 → is_Some (fs_dentries s' !! e)).
Proof.
  intros N Hd He Hf. pose proof (wp_fat_dput d s v ext l ps x N Hd He Hf) as H.
  apply wp_done in H as ([] & s' & Hr & v' & l' & N' & Hsub). exists s', v', l'. pose proof (nd_tree _ _ _ _ _ N') as T.
  split_and!; [done|done|done|apply T|]. intros e Hne. destruct (fs_dentries s' !! e) eqn:E; [done|].
  destruct Hne. by apply T.
Qed.

(** C20: [dentry_get] keeps the tree of nodes in order and returns the node of the
    directory entry below its parent with one reference from outside more: the
    one there was, or else a new one, for there was none with this entry. All
    other nodes are as before. Without memory it returns null and no node changes. *)
Theorem dentry_get_correct s v ext l ps parent y n sector attr lfn :
  nodes s v ext l ps → fresh_nodes s ps → v_num_dentries v + 2 < 2 ^ 32 → fs_dentries s !! parent = Some y →
  ∃ r s', dentry_get parent n sector attr lfn s = Done r s' ∧
    if r =? 0 then fs_dentries s' = fs_dentries s ∧ ∃ v' l' ps', nodes s' v' ext l' ps'
    else ∃ x v' l' ps', nodes s' v' (refer r 1 ext) l' ps' ∧ subtree (fs_dentries s) (fs_dentries s') ∧
      fs_dentries s' !! r = Some x ∧ d_parent x = parent ∧
      (if fs_dentries s !! r then d_de_entcnt x = n
       else x = mkDentry parent [] 1 sector (u16 n) (u8 attr) (u8 lfn) ∧
            ∀ c z, c ∈ d_children y → fs_dentries s !! c = Some z → d_de_entcnt z ≠ n).
Proof.
  intros N Hf Hm Hp.
  assert (wp (dentry_get parent n sector attr lfn) (λ r s',
    if r =? 0 then fs_dentries s' = fs_dentries s ∧ ∃ v' l' ps', nodes s' v' ext l' ps'
    else ∃ x v' l' ps', nodes s' v' (refer r 1 ext) l' ps' ∧ subtree (fs_dentries s) (fs_dentries s') ∧
      fs_dentries s' !! r = Some x ∧ d_parent x = parent ∧
      (if fs_dentries s !! r then d_de_entcnt x = n
       else x = mkDentry parent [] 1 sector (u16 n) (u8 attr) (u8 lfn) ∧
            ∀ c z, c ∈ d_children y → fs_dentries s !! c = Some z → d_de_entcnt z ≠ n)) s) as H.
  { eapply wp_dentry_get; [done..| |]; [simpl; eauto 8|]. intros r x s' v' l' ps' Hr.
    rewrite (proj2 (Z.eqb_neq r 0) Hr). eauto 12. }
  apply wp_done in H as (r & s' & Hr & H). eauto.
Qed.
End theorems.

(** ** A directory and a file in it, the file open *)
Module Tree.
Import FatExample.Example.

Definition memory : gmap Z Z := list_to_map [(6096, 7096); (7096, 0); (8188, 0)].
Definition tree_nodes : gmap Z Dentry := list_to_map
  [(root_dentry, mkDentry 0 [4096] 2 0 0 FAT_ADIR 0); (4096, mkDentry root_dentry [5096] 1 3 0 FAT_ADIR 0);
   (5096, mkDentry 4096 [] 1 7 2 FAT_AARCHIV 0)].
Definition holders : Z → Z := λ d, if decide (d = root_dentry) then 1 else if decide (d = 5096) then 1 else 0.
Definition tree_volume : Volume :=
  volume <| v_num_dentries := 4 |> <| v_dentries_slab := Slab.mkSlabCache 4096 1000 6096 |>.
Definition tree_state : fs ramdisk := mkFs (world []) (Some tree_volume) ∅ tree_nodes ∅ memory [4096].

Lemma tree_nodes_cases d x : tree_nodes !! d = Some x →
  d = root_dentry ∧ x = mkDentry 0 [4096] 2 0 0 FAT_ADIR 0 ∨ d = 4096 ∧ x = mkDentry root_dentry [5096] 1 3 0 FAT_ADIR 0 ∨
  d = 5096 ∧ x = mkDentry 4096 [] 1 7 2 FAT_AARCHIV 0.
Proof.
  intros H. apply elem_of_list_to_map_2 in H. set_solver.
Qed.

Lemma tree_state_tree : tree tree_nodes holders.
Proof.
  assert (rooted tree_nodes 4096 1) as H1 by (eapply (rooted_child _ _ _ 0); [done|reflexivity|constructor]).
  assert (rooted tree_nodes 5096 2) as H2 by (eapply (rooted_child _ _ _ 1); [done|reflexivity|exact H1]).
  split.
  - eexists. split; reflexivity.
  - reflexivity.
  - intros d x [[-> ->]|[[-> ->]|[-> ->]]]%tree_nodes_cases Hn; [done|..]; eexists; (split; [reflexivity|]); by left.
  - intros d x c [[-> ->]|[[-> ->]|[-> ->]]]%tree_nodes_cases Hc; simpl in Hc; [| |set_solver];
      apply list_elem_of_singleton in Hc as ->; (split; [done|]); eexists; split; reflexivity.
  - intros d x [[-> ->]|[[-> ->]|[-> ->]]]%tree_nodes_cases; repeat constructor; set_solver.
  - intros d x [[-> ->]|[[-> ->]|[-> ->]]]%tree_nodes_cases; vm_compute; split; (done || discriminate).
  - by intros d x [[-> ->]|[[-> ->]|[-> ->]]]%tree_nodes_cases Hn.
  - intros d x [[-> ->]|[[-> ->]|[-> ->]]]%tree_nodes_cases; [exists 0%nat; constructor|by exists 1%nat|by exists 2%nat].
  - intros d Hd. unfold holders. repeat case_decide; subst; done.
Qed.

Lemma tree_state_nodes : nodes tree_state tree_volume holders [6096; 7096] [4096].
Proof.
  split; try done; [exact tree_state_tree| | |].
  - split; simpl.
    + unfold SLABMEM_PAGE_SIZE, sizeof_ptr. lia.
    + repeat (split_and!; [done|done|eexists; split; [vm_compute; reflexivity|]]). done.
    + repeat (split_and!; [done|done|eexists; split; [vm_compute; reflexivity|]]). done.
    + apply (bool_decide_unpack _). vm_compute. exact I.
    + intros o Ho. exists 4096. split; [set_solver|].
      assert (o = 6096 ∨ o = 7096) as [->| ->] by set_solver; apply (bool_decide_unpack _); vm_compute; exact I.
    + intros p Hp. assert (p = 4096) as -> by set_solver. split; [set_solver|lia].
    + repeat constructor.
  - intros d [x [[-> ->]|[[-> ->]|[-> ->]]]%tree_nodes_cases] Hn; [done|..];
      (split; [set_solver|exists 4096; split; [by left|apply (bool_decide_unpack _); vm_compute; exact I]]).
  - intros p ->%list_elem_of_singleton. done.
Qed.
End Tree.
Import FatExample.Example Tree.

Lemma fat_dput_correct_witness :
  ∃ s' v' l', fat_dput 5096 tree_state = Done () s' ∧ nodes s' v' (refer 5096 (-1) holders) l' [4096] ∧
    is_Some (fs_dentries s' !! root_dentry) ∧ fs_dentries s' !! 4096 = None ∧ fs_dentries s' !! 5096 = None.
Proof.
  destruct (fat_dput_correct 5096 tree_state tree_volume holders _ _ _ tree_state_nodes eq_refl) as
    (s' & v' & l' & H & N & _ & _ & Hk); [vm_compute; discriminate|vm_compute; lia|].
  exists s', v', l'. split; [exact H|]. split; [exact N|]. split; [apply Hk; discriminate|].
  assert (match fat_dput 5096 tree_state with
    | Done _ s => fs_dentries s !! 4096 = None ∧ fs_dentries s !! 5096 = None | _ => False end) as E
    by (vm_compute; split; reflexivity).
  rewrite H in E. exact E.
Defined.

Lemma dentry_get_correct_witness :
  ∃ s' v' l' ps', dentry_get 4096 3 7 FAT_AARCHIV 0 tree_state = Done 6096 s' ∧ nodes s' v' (refer 6096 1 holders) l' ps' ∧
    subtree (fs_dentries tree_state) (fs_dentries s') ∧
    fs_dentries s' !! 6096 = Some (mkDentry 4096 [] 1 7 3 FAT_AARCHIV 0).
Proof.
  destruct (dentry_get_correct tree_state tree_volume holders [6096; 7096] [4096] 4096
    (mkDentry root_dentry [5096] 1 3 0 FAT_ADIR 0) 3 7 FAT_AARCHIV 0 tree_state_nodes) as (r & s' & H & Hr);
    [split; [intros _; split; [done|]; intros q ->%list_elem_of_singleton; right; vm_compute; discriminate|done]
    |vm_compute; reflexivity|reflexivity|].
  assert (match dentry_get 4096 3 7 FAT_AARCHIV 0 tree_state with Done r _ => r = 6096 | _ => False end) as E
    by (vm_compute; reflexivity).
  rewrite H in E. subst r. destruct Hr as (x & v' & l' & ps' & N & Hsub & Hx & _ & Hnew).
  exists s', v', l', ps'. split; [exact H|]. split; [exact N|]. split; [exact Hsub|]. rewrite Hx. f_equal. apply Hnew.
Defined.
