(* ===== verification/FatData.v ===== *)
(** On-disk directory entries and time stamps ([FatTypes], [FatFile]), and the
    operations on an open file that only touch the memory of the driver:
    [fat_lseek], [fat_get_attr], [fat_set_attr]. *)
From S2P Require Import Prelude Errno Lists Nls Slab.
From S2P Require Import FatTypes FatDisk FatBuffer FatAlloc FatFile FatCache FatTable FatChain FatExample.

(** * Directory entries *)

#[local] Arguments le16 : simpl never.
#[local] Arguments le32 : simpl never.
#[local] Arguments u8 : simpl never.

(** Fields that fit their width on disk. *)
Record direntry_ok (d : fat_direntry) : Prop := {
  dk_name : length (de_name d) = 11%nat;
  dk_bytes : Forall is_byte [de_attr d; de_nt_case d; de_cre_time_hund d];
  dk_words : Forall (λ z, 0 ≤ z < 65536)
    [de_cre_time d; de_cre_date d; de_acc_date d; de_first_cluster_hi d; de_mod_time d; de_mod_date d;
     de_first_cluster_lo d];
  dk_size : 0 ≤ de_file_size d < 2 ^ 32 }.

Lemma le16_le16_at a b : is_byte a → is_byte b → le16 (a + Z.shiftl b 8) = [a; b].
Proof.
  unfold is_byte. intros Ha Hb. unfold le16. rewrite shiftl_mul, shiftr_div by done. unfold u8.
  change (2 ^ 8) with 256. f_equal; [|f_equal].
  - by rewrite Z_mod_plus_full, Z.mod_small.
  - by rewrite Z.div_add, (Z.div_small a), Z.mod_small by lia.
Qed.

Lemma u8_lo a b : is_byte a → is_byte b → u8 (a + Z.shiftl b 8) = a.
Proof. intros Ha Hb. pose proof (le16_le16_at a b Ha Hb) as E. by injection E. Qed.
Lemma u8_hi a b : is_byte a → is_byte b → u8 (Z.shiftr (a + Z.shiftl b 8) 8) = b.
Proof. intros Ha Hb. pose proof (le16_le16_at a b Ha Hb) as E. by injection E. Qed.

Lemma le32_le32_at a b c d : is_byte a → is_byte b → is_byte c → is_byte d →
  le32 (a + Z.shiftl b 8 + Z.shiftl (c + Z.shiftl d 8) 16) = [a; b; c; d].
Proof.
  unfold is_byte. intros Ha Hb Hc Hd. unfold le32. rewrite !shiftl_mul, !shiftr_div by done. unfold u8.
  change (2 ^ 8) with 256. change (2 ^ 16) with 65536. change (2 ^ 24) with 16777216.
  repeat f_equal; Z.to_euclidean_division_equations; lia.
Qed.

(** A list of known length, element by element. *)
Ltac split_list l n :=
  lazymatch n with
  | O => destruct l; [|done]
  | S ?n => let x := fresh "b" in destruct l as [|x l]; [done|]; split_list l n
  end.

Lemma le16_split v : 0 ≤ v < 65536 → ∃ a b, le16 v = [a; b] ∧ a + Z.shiftl b 8 = v.
Proof.
  intros Hv. eexists _, _. split; [reflexivity|]. rewrite shiftl_mul, shiftr_div by done. unfold u8.
  change (2 ^ 8) with 256. Z.to_euclidean_division_equations; lia.
Qed.

Lemma le32_split v : 0 ≤ v < 2 ^ 32 → ∃ a b c d, le32 v = [a; b; c; d] ∧
  a + Z.shiftl b 8 + Z.shiftl (c + Z.shiftl d 8) 16 = v.
Proof.
  intros Hv. eexists _, _, _, _. split; [reflexivity|]. rewrite !shiftl_mul, !shiftr_div by done. unfold u8.
  change (2 ^ 8) with 256. change (2 ^ 16) with 65536. change (2 ^ 24) with 16777216.
  Z.to_euclidean_division_equations; lia.
Qed.

Lemma decode_encode d : direntry_ok d → decode_direntry (encode_direntry d) = d.
Proof.
  destruct d as [name attr nt hund ctime cdate adate hi mtime mdate lo size].
  intros [Hn Hb Hw Hs]; simpl in *. split_list name 11%nat.
  rewrite !Forall_cons in Hb. rewrite !Forall_cons in Hw. destruct Hb as (B1 & B2 & B3 & _).
  destruct Hw as (W1 & W2 & W3 & W4 & W5 & W6 & W7 & _).
  unfold decode_direntry, encode_direntry. cbn [de_name de_attr de_nt_case de_cre_time_hund de_cre_time
    de_cre_date de_acc_date de_first_cluster_hi de_mod_time de_mod_date de_first_cluster_lo de_file_size].
  rewrite !u8_small by done.
  destruct (le16_split _ W1) as (? & ? & -> & E1), (le16_split _ W2) as (? & ? & -> & E2),
    (le16_split _ W3) as (? & ? & -> & E3), (le16_split _ W4) as (? & ? & -> & E4),
    (le16_split _ W5) as (? & ? & -> & E5), (le16_split _ W6) as (? & ? & -> & E6),
    (le16_split _ W7) as (? & ? & -> & E7), (le32_split _ Hs) as (? & ? & ? & ? & -> & E8).
  unfold le32_at, le16_at, byte_at, slice. simpl. unfold id. by rewrite E1, E2, E3, E4, E5, E6, E7, E8.
Qed.

Lemma encode_decode l : length l = 32%nat → Forall is_byte l → encode_direntry (decode_direntry l) = l.
Proof.
  intros Hl Hb. split_list l 32%nat. rewrite !Forall_cons in Hb.
  destruct Hb as (?&?&?&?&?&?&?&?&?&?&?&?&?&?&?&?&?&?&?&?&?&?&?&?&?&?&?&?&?&?&?&?&_).
  unfold encode_direntry, decode_direntry, le32_at, le16_at, byte_at, slice. simpl. unfold id.
  rewrite !u8_hi, !u8_lo, le32_le32_at, !u8_small by done. done.
Qed.

(** a directory entry written to disk and read back is the same entry, and a
    block of 32 bytes read as an entry and written back is the same block. *)
Theorem direntry_roundtrip d l :
  direntry_ok d → length l = 32%nat → Forall is_byte l →
  decode_direntry (encode_direntry d) = d ∧ encode_direntry (decode_direntry l) = l.
Proof. intros Hd Hl Hb. split; [by apply decode_encode|by apply encode_decode]. Qed.

Lemma direntry_roundtrip_witness :
  decode_direntry (encode_direntry Example.file_entry) = Example.file_entry
  ∧ encode_direntry (decode_direntry (zeroes 32)) = zeroes 32.
Proof. apply direntry_roundtrip; [split; [reflexivity|repeat constructor; done..]|reflexivity|repeat constructor; done]. Defined.

(** * Time stamps *)

(** the DOS date and time words hold the day, month, year, hour, minute and
    second of any moment from 1980 to 2107, to the hundredth of a second. *)
Theorem dos_timestamps_decode day mon year hour min sec hund :
  1 ≤ day ≤ 31 → 1 ≤ mon ≤ 12 → 1980 ≤ year ≤ 2107 →
  0 ≤ hour < 24 → 0 ≤ min < 60 → 0 ≤ sec < 60 → 0 ≤ hund < 100 →
  let d := dos_date day mon year in let t := dos_time hour min sec in let h := dos_hund sec hund in
  d mod 32 = day ∧ d / 32 mod 16 = mon ∧ d / 512 + 1980 = year ∧
  t / 2048 = hour ∧ t / 32 mod 64 = min ∧ t mod 32 * 2 + h / 100 = sec ∧ h mod 100 = hund.
Proof.
  intros Hd Hm Hy Hh Hmi Hs Hhu. cbv zeta. unfold dos_date, dos_time, dos_hund.
  change 0x1F with (2 ^ 5 - 1). change 0x0F with (2 ^ 4 - 1). change 0xFF with (2 ^ 8 - 1).
  change 0x3F with (2 ^ 6 - 1). rewrite !land_pow2_mod, !shiftl_mul by done. unfold u16, u8.
  Z.to_euclidean_division_equations; lia.
Qed.

Lemma dos_timestamps_decode_witness : dos_date 2 1 2006 / 512 + 1980 = 2006.
Proof. apply (dos_timestamps_decode 2 1 2006 10 20 31 50); lia. Defined.

(** * The file pointer *)

Section memory.
Context {W : Type} `{FW : FatWorld W} `{FL : Fuel}.
Implicit Types (s : fs W).

(** Where a seek goes. *)
Definition seek_target (ch : Channel) (f : File) (offset whence : Z) : Z :=
  if whence =? SEEK_SET then offset
  else if whence =? SEEK_CUR then offset + c_file_pointer ch
  else if (whence =? SEEK_END) && negb (is_dir f) then offset + de_file_size (f_de f)
  else - EINVAL.

Lemma fat_lseek_done s c ch f offset whence :
  fs_channels s !! c = Some ch → fs_files s !! c_f ch = Some f →
  fat_lseek c offset whence s =
    if c =? 0 then Done (- EFAULT) s
    else if negb (c_magic ch =? FAT_CHANNEL_MAGIC) then Done (- EBADF) s
    else
      let p := seek_target ch f offset whence in
      if p <? 0 then Done (- EINVAL) s
      else Done p (s <| fs_channels ::= <[c := ch <| c_file_pointer := p |>]> |>).
Proof.
  intros Hc Hf. unfold fat_lseek, guard_ret, nz. destruct (c =? 0) eqn:E; [done|]. simpl.
  assert (getchannel c s = Done ch s) as Hg by (unfold getchannel, mbind, M_bind, gets; by rewrite Hc).
  erewrite bind_eq by exact Hg. destruct (c_magic ch =? FAT_CHANNEL_MAGIC); [|done]. simpl.
  erewrite bind_eq by (unfold getfile, mbind, M_bind, gets; by rewrite Hf).
  replace (if whence =? SEEK_SET then _ else _) with (seek_target ch f offset whence).
  2: { unfold seek_target. destruct (whence =? SEEK_SET), (whence =? SEEK_CUR), (whence =? SEEK_END), (is_dir f); done. }
  destruct (seek_target ch f offset whence <? 0); [done|].
  unfold modchannel. erewrite bind_eq; [|].
  2: { erewrite bind_eq by exact Hg. unfold putchannel, nz. rewrite E. reflexivity. }
  done.
Qed.

(** [fat_lseek] moves the file pointer to the offset counted from the start,
    the current position or the end of the file (directories have no end), and
    returns it; a negative target or an unknown origin is -EINVAL, an object that
    is no channel -EBADF, a null one -EFAULT, and none of these moves it. *)
Theorem fat_lseek_correct s c ch f offset whence :
  fs_channels s !! c = Some ch → fs_files s !! c_f ch = Some f →
  fat_lseek c offset whence s =
    if c =? 0 then Done (- EFAULT) s
    else if negb (c_magic ch =? FAT_CHANNEL_MAGIC) then Done (- EBADF) s
    else
      let p := seek_target ch f offset whence in
      if p <? 0 then Done (- EINVAL) s
      else Done p (s <| fs_channels ::= <[c := ch <| c_file_pointer := p |>]> |>).
Proof. apply fat_lseek_done. Qed.

Lemma wp_eq {A} (m : FM W A) s a s' : wp m (λ a' s'', a' = a ∧ s'' = s') s → m s = Done a s'.
Proof. unfold wp. destruct (m s); [by intros [-> ->]|done..]. Qed.

(** Attributes set with [fat_set_attr] are the ones [fat_get_attr] then
    returns, truncated to their width; the entry is marked as changed. *)
Theorem fat_attr_roundtrip s c ch f a b :
  fs_channels s !! c = Some ch → fs_files s !! c_f ch = Some f → c_f ch ≠ 0 →
  c_magic ch = FAT_CHANNEL_MAGIC → sizeof_fs_attr ≤ a_Size a → sizeof_fs_attr ≤ a_Size b →
  ∃ s' f', fat_set_attr c a s = Done 0 s' ∧ fs_files s' = <[c_f ch := f']> (fs_files s) ∧
    f_de_changed f' = true ∧ de_name (f_de f') = de_name (f_de f) ∧
    de_file_size (f_de f') = de_file_size (f_de f) ∧
    fat_get_attr c b s' = Done (0, mkFsAttr (a_Size b) (u8 (a_Attr a)) (a_MDate a) (a_MTime a)
      (a_ADate a) (a_CDate a) (a_CTime a) (u8 (a_CHund a))) s'.
Proof.
  intros Hc Hf Hf0 Hm Ha Hb.
  pose (f' := f <| f_de ::= λ d,
    d <| de_attr := u8 (a_Attr a) |> <| de_mod_date := a_MDate a |> <| de_mod_time := a_MTime a |>
      <| de_acc_date := a_ADate a |> <| de_cre_date := a_CDate a |>
      <| de_cre_time := a_CTime a |> <| de_cre_time_hund := u8 (a_CHund a) |> |>
    <| f_de_changed := true |>).
  exists (s <| fs_files ::= <[c_f ch := f']> |>), f'. split_and!; try done.
  - apply wp_eq. unfold fat_set_attr. apply wp_bind. eapply wp_getchannel; [done|].
    apply wp_bind. eapply wp_getfile; [done|]. unfold guard_ret. rewrite (proj2 (Z.ltb_ge _ _)) by done.
    apply wp_bind. eapply wp_modfile; [done|done|]. by apply wp_ret.
  - apply wp_eq. unfold fat_get_attr. apply wp_bind. eapply wp_getchannel; [done|].
    unfold guard_ret. rewrite Hm, Z.eqb_refl. simpl. apply wp_bind.
    eapply wp_getfile; [apply lookup_insert_eq|]. rewrite (proj2 (Z.ltb_ge _ _)) by done. by apply wp_ret.
Qed.
End memory.

Import Example.

Lemma fat_lseek_correct_witness : ∃ s', fat_lseek 8 (- 100) SEEK_END state = Done 1000 s'.
Proof.
  eexists. etransitivity; [apply (fat_lseek_correct state 8 channel file); reflexivity|]. reflexivity.
Defined.

Lemma fat_attr_roundtrip_witness :
  ∃ s' b, fat_set_attr 8 (mkFsAttr 20 33 1 2 3 4 5 6) state = Done 0 s' ∧
    fat_get_attr 8 (mkFsAttr 20 0 0 0 0 0 0 0) s' = Done (0, b) s' ∧ a_Attr b = 33.
Proof.
  destruct (fat_attr_roundtrip state 8 channel file (mkFsAttr 20 33 1 2 3 4 5 6) (mkFsAttr 20 0 0 0 0 0 0 0))
    as (s' & f' & H1 & _ & _ & _ & _ & H2); try reflexivity; [done..|].
  exists s'. eexists. split_and!; [exact H1|exact H2|reflexivity].
Defined.
