(* ===== verification/FatTheorems.v ===== *)
(** The properties of the FAT driver's buffers, table, chains, reads and mount,
    each about the code's own operations, with a run on the sample volume. *)
From S2P Require Import Prelude Errno Lists Nls Slab.
From S2P Require Import FatTypes FatDisk FatBuffer FatAlloc FatFile FatVolume.
From S2P Require Import FatCache FatTable FatChain FatRead FatMount FatExample.

Section theorems.
Context {W : Type} `{FW : FatWorld W} `{FD : !FixedDisk W} `{FL : Fuel}.
Implicit Types (s : fs W) (v : Volume) (g : Geometry).

(** C1: [fat_read] on a readable channel returns the bytes of the clusters of
    the file's chain from the file pointer on, as many as asked for, up to the
    end of the file, and advances the file pointer by that number; nothing but
    the access date of the file, the cached position of the channel and the
    buffers changes. *)
Theorem fat_read_correct s v c ch f l size :
  open_file s v c ch f l → c_f ch ≠ 0 → c_magic ch = FAT_CHANNEL_MAGIC → IS_NOT_READABLE ch = false →
  0 ≤ size < 2 ^ 31 → 0 ≤ c_file_pointer ch → c_file_pointer ch + size ≤ 2 ^ 40 →
  let n := read_len (v_geo v) f l size (c_file_pointer ch) in
  ∃ s' v' ch' f',
    fat_read c true size s = Done (n, file_bytes s (v_geo v) l (c_file_pointer ch) n) s' ∧
    frame v (<[c_f ch := f']> (fs_files s)) (<[c := ch']> (fs_channels s)) s v' s' ∧
    (∀ x, 0 ≤ x → volume_bytes s' x = volume_bytes s x) ∧ accessed f f' ∧ position_ok l ch' ∧
    same_channel (ch <| c_file_pointer ::= λ p, p + n |>) ch'.
Proof.
  intros O Hf Hm Hr Hs Hp Hmax n.
  assert (wp (fat_read c true size) (λ r s', ∃ v' ch' f', r = (n, file_bytes s (v_geo v) l (c_file_pointer ch) n) ∧
    frame v (<[c_f ch := f']> (fs_files s)) (<[c := ch']> (fs_channels s)) s v' s' ∧
    (∀ x, 0 ≤ x → volume_bytes s' x = volume_bytes s x) ∧ accessed f f' ∧ position_ok l ch' ∧
    same_channel (ch <| c_file_pointer ::= λ p, p + n |>) ch') s) as H.
  { eapply wp_fat_read; [done..|]. intros v' s' ch' f' F R P A n' C. exists v', ch', f'.
    split_and!; try done. intros x Hx. by apply (rw_none _ _ _ _ R). }
  apply wp_done in H as (r & s' & Hr' & v' & ch' & f' & -> & H). exists s', v', ch', f'. by rewrite Hr'.
Qed.

(** C8: [write_fat_entry] gives the entry of the cluster its new value in every
    copy of the table; all other entries, in every copy, and all bytes outside
    the tables keep theirs. *)
Theorem write_fat_entry_correct s v n value :
  mounted s v → in_table (v_geo v) n → legal (v_geo v) value →
  ∃ s' v', write_fat_entry n value s = Done 0 s' ∧ mounted s' v' ∧ v_geo v' = v_geo v ∧
    (∀ k m, 0 ≤ k < v_num_fats (v_geo v) → in_table (v_geo v) m →
       entry s' k m = if m =? n then value else entry s k m) ∧
    ∀ x, 0 ≤ x → x < fat_addr (v_geo v) 0 ∨ fat_addr (v_geo v) (v_num_fats (v_geo v)) ≤ x →
      volume_bytes s' x = volume_bytes s x.
Proof.
  intros M Hn Hl.
  assert (wp (write_fat_entry n value) (λ r s', r = 0 ∧ ∃ v', frame v (fs_files s) (fs_channels s) s v' s' ∧
    rewritten {[n := value]} (v_geo v) s s') s) as H by (eapply wp_entry_write; eauto 10).
  apply wp_done in H as (r & s' & Hr & -> & v' & F & R). exists s', v'.
  split_and!; [done|apply F|by eapply frame_geo| |apply R]. intros k m Hk Hm.
  rewrite (rw_entry _ _ _ _ R) by done. destruct (Z.eqb_spec m n) as [->|Hne].
  - by rewrite lookup_singleton_eq.
  - by rewrite lookup_singleton_ne.
Qed.

(** [fat_get_file_sector] gives the sector of the k-th cluster of the chain,
    or the end-of-file result past the last one, from any cached position; the
    channel remembers the last cluster reached. *)
Theorem fat_get_file_sector_correct s v c ch f l i :
  open_file s v c ch f l → 0 ≤ i < 2 ^ 32 →
  let g := v_geo v in
  let k := Z.to_nat (i / v_sectors_per_cluster g) in
  ∃ s' v', fat_get_file_sector c i s =
      Done (match l !! k with
            | Some n => (0, cluster_sector g n (i mod v_sectors_per_cluster g))
            | None => (1, 0)
            end) s' ∧
    frame v (fs_files s) (<[c := at_cluster l k ch]> (fs_channels s)) s v' s' ∧
    ∀ x, 0 ≤ x → volume_bytes s' x = volume_bytes s x.
Proof.
  intros O Hi g k.
  assert (wp (fat_get_file_sector c i) (λ r s', r = match l !! k with
    | Some n => (0, cluster_sector g n (i mod v_sectors_per_cluster g)) | None => (1, 0) end ∧
    ∃ v', frame v (fs_files s) (<[c := at_cluster l k ch]> (fs_channels s)) s v' s' ∧
    rewritten ∅ g s s') s) as H.
  { eapply wp_get_file_sector; try apply O; [done|]. eauto 10. }
  apply wp_done in H as (r & s' & Hr & -> & v' & F & R). exists s', v'. split_and!; [done|done|].
  intros x Hx. by apply (rw_none _ _ _ _ R).
Qed.
End theorems.

Section append.
Context {W : Type} `{FW : FatWorld W} `{FD : !FixedDisk W} `{FL : Fuel}.
Implicit Types (s : fs W) (v : Volume) (g : Geometry).

(** The last cluster is the cached one, as [fat_append_cluster] assumes. *)
Definition at_end (ch : Channel) (l : list Z) : Prop := last l = Some (c_cluster ch).

(** C6: [fat_append_cluster] takes the first free cluster in the order of the
    search, links it to the last cluster of the file and marks it as the end;
    the chains of the other files are as before. The count of the free clusters
    decreases by one. Without a free cluster the result is -ENOSPC. *)
Theorem fat_append_cluster_extends s v c ch f l :
  open_file s v c ch f l → c_f ch ≠ 0 → at_end ch l →
  match first_free (table s) (search_order (v_geo v) (v_next_free v)) with
  | Some n =>
      ∃ s' v', fat_append_cluster c s = Done n s' ∧ mounted s' v' ∧ v_geo v' = v_geo v ∧
        chain (v_geo v) (table s') (f_first_cluster f) (l ++ [n]) ∧
        (∀ m l', chain (v_geo v) (table s) m l' → (∀ x, x ∈ l → x ∉ l') → chain (v_geo v) (table s') m l') ∧
        v_free_clusters v' = u32 (v_free_clusters v - 1) ∧ v_next_free v' = n
  | None =>
      (∀ m, cluster (v_geo v) m → table s m ≠ 0) ∧
      ∃ s' v', fat_append_cluster c s = Done (- ENOSPC) s' ∧ mounted s' v' ∧
        ∀ x, 0 ≤ x → volume_bytes s' x = volume_bytes s x
  end.
Proof.
  intros O Hf0 Hend. pose proof (of_mounted _ _ _ _ _ _ O) as M. pose proof (of_chain _ _ _ _ _ _ O) as Hl.
  pose proof (chain_cluster _ _ _ _ Hl) as Hcl. pose proof (chain_first _ _ _ _ Hl) as H1.
  assert (nz (f_first_cluster f) = true) as Hnz.
  { unfold nz. rewrite (proj2 (Z.eqb_neq _ _)); [done|]. unfold cluster in H1. lia. }
  assert (c_cluster ch ∈ l) as Hlast by by apply last_Some_elem_of.
  assert (cluster (v_geo v) (c_cluster ch)) as Hlc by by eapply Forall_forall in Hcl.
  destruct (first_free (table s) (search_order (v_geo v) (v_next_free v))) as [n|] eqn:En.
  - assert (wp (fat_append_cluster c) (λ r s', r = n ∧ ∃ v', frame v (fs_files s) (fs_channels s) s v' s' ∧
      rewritten ({[n := FAT_EOC]} ∪ {[c_cluster ch := n]}) (v_geo v) s s' ∧
      v_free_clusters v' = u32 (v_free_clusters v - 1) ∧ v_next_free v' = n) s) as H.
    { eapply wp_append_cluster; try apply O; [done|by rewrite Hnz, orb_true_r|done|].
      rewrite En, Hnz. intros v' s' (F & R & Hfc & Hnf & _). eauto 10. }
    apply wp_done in H as (r & s' & Hr & -> & v' & F & R & Hfc & Hnf).
    destruct (first_free_some _ _ _ En) as [Hn%search_order_all HT]; [|apply (mt_fat _ _ M)].
    destruct (appended_chain s v s' v' f l (c_cluster ch) n) as [Hl' Hoth]; [done|apply F|by eapply frame_geo|by right|done|done|done|by rewrite Hnz|].
    rewrite Hnz in Hl'. exists s', v'. split_and!; [done|apply F|by eapply frame_geo|done| |done|done].
    intros m l' Hm Hdis. apply Hoth; [done|]. intros x Hx Hxl. by apply (Hdis x).
  - split.
    { intros m Hm. eapply first_free_none; [exact En|]. apply search_order_all; [apply (mt_fat _ _ M)|done]. }
    assert (wp (fat_append_cluster c) (λ r s', r = - ENOSPC ∧ ∃ v', frame v (fs_files s) (fs_channels s) s v' s' ∧
      rewritten ∅ (v_geo v) s s') s) as H.
    { eapply wp_append_cluster; try apply O; [done|by rewrite Hnz, orb_true_r|done|].
      rewrite En. intros v' s' (F & R). eauto. }
    apply wp_done in H as (r & s' & Hr & -> & v' & F & R). exists s', v'. split_and!; [done|apply F|].
    intros x Hx. by apply (rw_none _ _ _ _ R).
Qed.

(** C7: [fat_delete_clusters] frees every cluster of a chain and nothing else,
    counts them, and needs as many iterations as the chain has clusters. *)
Theorem fat_delete_clusters_frees s v n l :
  mounted s v → chain (v_geo v) (table s) n l → (length l ≤ fuel)%nat →
  ∃ s' v', fat_delete_clusters n s = Done 0 s' ∧ mounted s' v' ∧ v_geo v' = v_geo v ∧
    (∀ m, in_table (v_geo v) m → table s' m = if decide (m ∈ l) then 0 else table s m) ∧
    v_free_clusters v' = u32 (v_free_clusters v + Z.of_nat (length l)) ∧
    ∀ x, 0 ≤ x → x < fat_addr (v_geo v) 0 ∨ fat_addr (v_geo v) (v_num_fats (v_geo v)) ≤ x →
      volume_bytes s' x = volume_bytes s x.
Proof.
  intros M Hl Hfuel.
  assert (wp (fat_delete_clusters n) (λ r s', r = 0 ∧ ∃ v', frame v (fs_files s) (fs_channels s) s v' s' ∧
    rewritten (freed l) (v_geo v) s s' ∧
    v_free_clusters v' = u32 (v_free_clusters v + Z.of_nat (length l))) s) as H.
  { eapply wp_delete_chain; [done|done|done|]. eauto 10. }
  apply wp_done in H as (r & s' & Hr & -> & v' & F & R & Hfc). exists s', v'.
  split_and!; [done|apply F|by eapply frame_geo| |done|apply R]. intros m Hm.
  rewrite (rewritten_table _ s v s' v' m M (mounted_vol _ _ (fr_mounted _ _ _ _ _ _ F))
    (frame_geo _ _ _ _ _ _ F) R Hm), freed_lookup. by case_decide.
Qed.

(** deleting "from cluster 0", which is what closing an unlinked file without
    clusters asks for, clears the entry of the media byte and counts a free
    cluster that does not exist; done a second time it never ends. *)
Theorem fat_delete_clusters_zero s v :
  mounted s v → table s 0 = FAT_EOC → fuel ≠ 0%nat →
  ∃ s' v', fat_delete_clusters 0 s = Done 0 s' ∧ mounted s' v' ∧ table s' 0 = 0 ∧
    v_free_clusters v' = u32 (v_free_clusters v + 1) ∧
    ∀ k, delete_chain k 0 s' = NoFuel.
Proof.
  intros M HT Hfuel. unfold fat_delete_clusters. destruct (fuel : nat) as [|k]; [done|].
  destruct (wp_done _ _ _ (delete_chain_zero_once k s v M HT)) as (r & s' & Hr & -> & H0 & v' & M' & Hfc).
  exists s', v'. split_and!; try done. intros j. by eapply delete_chain_zero_again.
Qed.
End append.

Section more.
Context {W : Type} `{FW : FatWorld W} `{FD : !FixedDisk W} `{FL : Fuel}.
Implicit Types (s : fs W) (v : Volume) (g : Geometry).

(** [fat_delete_file_clusters] given a cluster of the file that is not its
    last one cuts the chain there: the cluster becomes the last, those after it
    are free and counted, and no other entry changes. *)
Theorem fat_delete_file_clusters_cuts s v f y first l1 x l2 :
  mounted s v → fs_files s !! f = Some y → chain (v_geo v) (table s) first (l1 ++ x :: l2) → l2 ≠ [] →
  (length l2 ≤ fuel)%nat →
  ∃ s' v', fat_delete_file_clusters f x s = Done 0 s' ∧ mounted s' v' ∧ v_geo v' = v_geo v ∧
    chain (v_geo v) (table s') first (l1 ++ [x]) ∧
    (∀ m, in_table (v_geo v) m → m ≠ x → table s' m = if decide (m ∈ l2) then 0 else table s m) ∧
    v_free_clusters v' = u32 (v_free_clusters v + Z.of_nat (length l2)).
Proof.
  intros M Hf Hc Hne Hfuel.
  assert (wp (fat_delete_file_clusters f x) (λ r s', r = 0 ∧ ∃ v', frame v (fs_files s) (fs_channels s) s v' s' ∧
    rewritten (freed l2 ∪ {[x := FAT_EOC]}) (v_geo v) s s' ∧
    v_free_clusters v' = u32 (v_free_clusters v + Z.of_nat (length l2))) s) as H.
  { eapply wp_delete_file_clusters; eauto 10. }
  apply wp_done in H as (r & s' & Hr & -> & v' & F & R & Hfc).
  pose proof (chain_NoDup _ _ _ _ (λ z, cluster_not_eoc s v z M) Hc) as Hnd.
  apply NoDup_app in Hnd as (_ & Hdis & Hnd). apply NoDup_cons in Hnd as [Hx2 _].
  pose proof (chain_cluster _ _ _ _ Hc) as Hcl.
  assert (∀ m, in_table (v_geo v) m → table s' m = default (table s m) ((freed l2 ∪ {[x := FAT_EOC]}) !! m)) as HT.
  { intros m Hm. exact (rewritten_table _ s v s' v' m M (mounted_vol _ _ (fr_mounted _ _ _ _ _ _ F))
      (frame_geo _ _ _ _ _ _ F) R Hm). }
  assert (∀ m, m ∈ l1 ++ x :: l2 → in_table (v_geo v) m) as Hin.
  { intros m Hm. apply cluster_in_table. by eapply Forall_forall in Hcl. }
  exists s', v'. split_and!; [done|apply F|by eapply frame_geo| | |done].
  - eapply chain_cut; [exact Hc| |].
    + intros m Hm. rewrite HT by (apply Hin; set_solver). pose proof (Hdis _ Hm) as Hmd.
      rewrite lookup_union, freed_lookup, decide_False, lookup_singleton_ne by set_solver. done.
    + rewrite HT by (apply Hin; set_solver).
      by rewrite lookup_union, freed_lookup, decide_False, lookup_singleton_eq by done.
  - intros m Hm Hmx. rewrite HT, lookup_union, freed_lookup, lookup_singleton_ne by done. by case_decide.
Qed.

(** given the last cluster of the file, which is what [fat_ftruncate] asks
    for when the new length ends in that cluster, the same function fails with
    -ENXIO, having only written the end mark that was there again. *)
Theorem fat_delete_file_clusters_last s v f y first l x :
  mounted s v → fs_files s !! f = Some y → chain (v_geo v) (table s) first l → last l = Some x →
  fuel ≠ 0%nat →
  ∃ s' v', fat_delete_file_clusters f x s = Done (- ENXIO) s' ∧ mounted s' v' ∧
    ∀ k m, 0 ≤ k < v_num_fats (v_geo v) → in_table (v_geo v) m →
      entry s' k m = if m =? x then FAT_EOC else entry s k m.
Proof.
  intros M Hf Hc Hl Hfuel.
  assert (wp (fat_delete_file_clusters f x) (λ r s', r = - ENXIO ∧ ∃ v', frame v (fs_files s) (fs_channels s) s v' s' ∧
    rewritten {[x := FAT_EOC]} (v_geo v) s s') s) as H by (eapply wp_delete_file_clusters_last; eauto).
  apply wp_done in H as (r & s' & Hr & -> & v' & F & R). exists s', v'. split_and!; [done|apply F|].
  intros k m Hk Hm. rewrite (rw_entry _ _ _ _ R) by done. destruct (Z.eqb_spec m x) as [->|Hne].
  - by rewrite lookup_singleton_eq.
  - by rewrite lookup_singleton_ne.
Qed.

(** C9: [fat_mount] of a FAT12 or FAT16 volume whose boot sector is valid and
    consistent succeeds: the buffers are in order, nothing is open, the free
    clusters have been counted, and the bytes presented are those of the disk. *)
Theorem fat_mount_correct s name :
  let w := fs_world s in let boot := disk w 0 in
  device_ready name → 0 < disk_size w < 2 ^ 32 → disk_bytes w →
  bpb_valid boot (disk_size w) = true → layout_ok boot → bpb_bytes_per_sector boot = disk_block →
  v_fat_type (mount_geometry boot) ≠ FAT32 →
  ∃ s' v, fat_mount name s = Done (0, v_self v) s' ∧ fresh_volume (mount_geometry boot) w v s'.
Proof.
  cbv zeta. intros Hr Hsz Hb Hv Hl Hbps Ht.
  assert (wp (fat_mount name) (λ r s', ∃ v, r = (0, v_self v) ∧
    fresh_volume (mount_geometry (disk (fs_world s) 0)) (fs_world s) v s') s) as H.
  { eapply wp_fat_mount; eauto. }
  apply wp_done in H as (r & s' & Hr' & v & -> & Hf). eauto.
Qed.

(** after [fat_sync] the disk holds what the driver presents: every store
    made through the buffers has been written back. (On a FAT32 volume, when the
    FSInfo sector need not be updated.) *)
Theorem fat_sync_correct s v :
  mounted s v → (v_fat_type (v_geo v) = FAT32 → v_fsinfo_changed v = false) →
  ∃ s', fat_sync s = Done 0 s' ∧
    ∀ n, in_disk (fs_world s) n → disk (fs_world s') n = sectors s n.
Proof. intros M Hf. by apply (fat_sync_flushes s v); [apply M|]. Qed.

(** C15: on a FAT32 volume whose FSInfo sector must be updated, [fat_sync] stores
    outside the buffer: the cast of [b->data] binds tighter than the addition of
    the offset, which therefore counts structures of 512 bytes. *)
Theorem fat_sync_fsinfo_out_of_bounds s v :
  mounted s v → v_fat_type (v_geo v) = FAT32 → v_fsinfo_changed v = true →
  v_sectors_per_buffer (v_geo v) = FAT_READ_AHEAD → 2 ≤ disk_size (fs_world s) →
  fat_sync s = Fault.
Proof.
  intros M Ht Hc Hspb Hsz. eapply fat_sync_fat32_out_of_bounds; try done; [apply M|].
  unfold in_disk. lia.
Qed.

(** C10: [fat_readbuf] finds or loads a sector of the disk: the buffer it returns
    holds the bytes of the sector, it is the most recently used one, and the
    volume presented has not changed, whatever was written back to make room. *)
Theorem fat_readbuf_correct s v n :
  mounted s v → in_disk (fs_world s) n →
  ∃ s' v' ofs k b, fat_readbuf n None false s = Done (ofs, Some k) s' ∧ mounted s' v' ∧
    v_buffers (v_cache v') !! k = Some b ∧
    slice (b_data b) ofs (v_bytes_per_sector (v_geo v)) = sectors s n ∧
    last (v_buffers_lru (v_cache v')) = Some k ∧
    ∀ x, 0 ≤ x → volume_bytes s' x = volume_bytes s x.
Proof.
  intros M Hn. destruct (mt_cache _ _ M) as [Hv I].
  destruct (fat_readbuf_done s v n None false (mt_cache _ _ M) Hn) as (ofs & k & c' & w' & Hr & Hp); [done|].
  pose proof (rb_inv _ _ _ _ _ _ _ _ _ Hp) as I'. pose proof (rb_view _ _ _ _ _ _ _ _ _ Hp) as V'.
  pose proof (image_same _ _ _ _ _ (mounted_geo _ _ M) V') as Him.
  destruct (setc_frame s v c' w' M I') as (F & Q' & Hx & Hv').
  { apply V'. }
  { intros x Hpos. rewrite Him, <- (volume_bytes_view s v) by done. by apply M. }
  destruct (rb_at _ _ _ _ _ _ _ _ _ Hp) as (b & Hk & Hs & Hofs).
  exists (setc s c' w'), (v <| v_cache := c' |>), ofs, k, b.
  split_and!; [done|apply F|done| |apply (rb_last _ _ _ _ _ _ _ _ _ Hp)|].
  - unfold sectors. rewrite Hv. rewrite <- (proj2 V' n) by apply Hn. symmetry.
    eapply view_at; [exact I'|apply Hn|done..].
  - intros x Hpos. rewrite Hx, Him by done. by rewrite (volume_bytes_view s v).
Qed.

(** [read_fat_entry] gives the value of the entry in the active table, end
    marks read as [FAT_EOC] for each of the three entry sizes, and leaves the
    volume as it is; past the last cluster the result is -ENXIO. *)
Theorem read_fat_entry_correct s v n :
  mounted s v → 0 ≤ n →
  if v_data_clusters (v_geo v) + 1 <? n then read_fat_entry n s = Done (- ENXIO) s
  else ∃ s' v', read_fat_entry n s = Done (table s n) s' ∧ mounted s' v' ∧
         ∀ x, 0 ≤ x → volume_bytes s' x = volume_bytes s x.
Proof.
  intros M Hn. destruct (Z.ltb_spec (v_data_clusters (v_geo v) + 1) n) as [Hlt|Hle].
  { by eapply read_entry_outside. }
  assert (wp (read_fat_entry n) (λ r s', r = table s n ∧ ∃ v', mounted s' v' ∧ rewritten ∅ (v_geo v) s s') s) as H.
  { eapply wp_entry_read; [done|by unfold in_table; lia|]. intros v' s' F Q R. split; [done|].
    exists v'. split; [apply F|done]. }
  apply wp_done in H as (r & s' & Hr & -> & v' & M' & R). exists s', v'. split_and!; [done|done|].
  intros x Hx. by apply (rw_none _ _ _ _ R).
Qed.

(** [find_free_cluster] returns the first free cluster from the hint on, or
    failing that from cluster 2 on, and keeps it as the next hint; -ENOSPC means
    that no cluster of the volume is free, and the hint is dropped. *)
Theorem find_free_cluster_correct s v :
  mounted s v →
  let r := first_free (table s) (search_order (v_geo v) (v_next_free v)) in
  ∃ s' v', find_free_cluster s = Done (default (- ENOSPC) r) s' ∧ mounted s' v' ∧
    v_next_free v' = default FAT_FSI_NA r ∧
    match r with
    | Some n => cluster (v_geo v) n ∧ table s n = 0
    | None => ∀ n, cluster (v_geo v) n → table s n ≠ 0
    end.
Proof.
  intros M r. pose proof (fo_clusters _ _ (mt_fat _ _ M)) as Hdc.
  assert (wp find_free_cluster (λ x s', x = default (- ENOSPC) r ∧ ∃ v', mounted s' v' ∧
    v_next_free v' = default FAT_FSI_NA r) s) as H.
  { eapply wp_find_free_cluster; [done|]. intros v' s' x F R -> _ Hnf _. split; [done|].
    exists v'. split; [apply F|done]. }
  apply wp_done in H as (x & s' & Hr & -> & v' & M' & Hnf). exists s', v'. split_and!; [done..|].
  unfold r. destruct (first_free _ _) as [n|] eqn:E.
  - apply first_free_some in E as [Hin HT]. split; [|done].
    by apply (search_order_all _ (v_next_free v)); [lia|].
  - intros n Hn. eapply first_free_none; [exact E|]. by apply search_order_all; [lia|].
Qed.
End more.

(** * Runs on the sample volume *)

Import Example.

Lemma fat_read_correct_witness :
  ∃ s', fat_read 8 true 100 state = Done (100, replicate 12 7 ++ replicate 88 8) s'.
Proof.
  destruct (fat_read_correct state volume 8 channel file [2; 3; 5] 100) as (s' & ? & ? & ? & H & _);
    [exact state_open|done..|].
  exists s'. etransitivity; [exact H|]. vm_compute. reflexivity.
Defined.

Lemma write_fat_entry_correct_witness :
  ∃ s', write_fat_entry 4 9 state = Done 0 s' ∧ entry s' 0 4 = 9 ∧ entry s' 1 4 = 9 ∧ entry s' 1 5 = FAT_EOC.
Proof.
  destruct (write_fat_entry_correct state volume 4 9) as (s' & v' & H & _ & _ & He & _);
    [exact state_mounted|in_volume|in_volume|].
  exists s'. split; [exact H|]. rewrite !He by in_volume. split_and!; vm_compute; reflexivity.
Defined.

Lemma fat_get_file_sector_correct_witness :
  ∃ s', fat_get_file_sector 8 2 state = Done (0, 7) s'.
Proof.
  destruct (fat_get_file_sector_correct state volume 8 channel file [2; 3; 5] 2) as (s' & v' & H & _);
    [exact state_open|done|]. exists s'. exact H.
Defined.

Lemma fat_append_cluster_extends_witness :
  ∃ s', fat_append_cluster 8 end_state = Done 4 s' ∧ chain geometry (table s') 2 [2; 3; 5; 4].
Proof.
  pose proof (fat_append_cluster_extends end_state volume 8 end_channel file [2; 3; 5] end_state_open) as H.
  replace (first_free _ _) with (Some 4) in H by (vm_compute; reflexivity).
  destruct H as (s' & v' & H & _ & _ & Hc & _); [done|done|]. exists s'. split; [exact H|exact Hc].
Defined.

Lemma fat_delete_clusters_frees_witness :
  ∃ s', fat_delete_clusters 2 state = Done 0 s' ∧ table s' 2 = 0 ∧ table s' 3 = 0 ∧ table s' 5 = 0.
Proof.
  destruct (fat_delete_clusters_frees state volume 2 [2; 3; 5]) as (s' & v' & H & _ & _ & HT & _);
    [exact state_mounted|exact state_chain|vm_compute; lia|].
  exists s'. split; [exact H|]. rewrite !HT by in_volume. split_and!; vm_compute; reflexivity.
Defined.

Lemma fat_delete_clusters_zero_witness :
  ∃ s', fat_delete_clusters 0 state = Done 0 s' ∧ delete_chain 10 0 s' = NoFuel.
Proof.
  destruct (fat_delete_clusters_zero state volume) as (s' & v' & H & _ & _ & _ & Hk);
    [exact state_mounted|vm_compute; reflexivity|done|]. eauto.
Defined.

Lemma fat_delete_file_clusters_cuts_witness :
  ∃ s', fat_delete_file_clusters 16 3 state = Done 0 s' ∧ chain geometry (table s') 2 [2; 3] ∧ table s' 5 = 0.
Proof.
  destruct (fat_delete_file_clusters_cuts state volume 16 file 2 [2] 3 [5]) as (s' & v' & H & _ & _ & Hc & HT & _);
    [exact state_mounted|done|exact state_chain|done|vm_compute; lia|].
  exists s'. split_and!; [exact H|exact Hc|]. rewrite HT by in_volume. reflexivity.
Defined.

Lemma fat_delete_file_clusters_last_witness :
  ∃ s', fat_delete_file_clusters 16 5 state = Done (- ENXIO) s'.
Proof.
  destruct (fat_delete_file_clusters_last state volume 16 file 2 [2; 3; 5] 5) as (s' & v' & H & _);
    [exact state_mounted|done|exact state_chain|done|done|]. eauto.
Defined.

Lemma fat_mount_correct_witness :
  ∃ s' v, fat_mount [] unmounted = Done (0, v_self v) s' ∧ v_geo v = geometry ∧ fs_channels s' = ∅.
Proof.
  destruct (fat_mount_correct unmounted []) as (s' & v & H & Hf).
  - apply ram_ready.
  - vm_compute. done.
  - apply world_bytes. vm_compute. reflexivity.
  - exact boot_valid.
  - exact boot_layout.
  - exact boot_block.
  - vm_compute. done.
  - exists s', v. split_and!; [exact H|exact (fv_geo _ _ _ _ Hf)|exact (fv_channels _ _ _ _ Hf)].
Defined.

Lemma fat_sync_correct_witness : ∃ s', fat_sync state = Done 0 s' ∧ disk (fs_world s') 4 = data 7.
Proof.
  destruct (fat_sync_correct state volume state_mounted) as (s' & H & Hd); [vm_compute; done|].
  exists s'. split; [exact H|]. rewrite Hd by (vm_compute; done). vm_compute. reflexivity.
Defined.

Lemma fat_sync_fsinfo_out_of_bounds_witness : fat_sync state32 = Fault.
Proof. by apply (fat_sync_fsinfo_out_of_bounds state32 volume32 state32_mounted). Defined.

Lemma fat_readbuf_correct_witness :
  ∃ s' ofs k, fat_readbuf 4 None false state = Done (ofs, Some k) s'.
Proof.
  destruct (fat_readbuf_correct state volume 4 state_mounted) as (s' & v' & ofs & k & b & H & _);
    [vm_compute; done|]. eauto.
Defined.

Lemma read_fat_entry_correct_witness : ∃ s', read_fat_entry 3 state = Done 5 s'.
Proof.
  pose proof (read_fat_entry_correct state volume 3 state_mounted ltac:(done)) as H.
  change (v_geo volume) with geometry in H. rewrite geometry_clusters in H.
  destruct H as (s' & v' & H & _). exists s'. etransitivity; [exact H|]. vm_compute. reflexivity.
Defined.

Lemma find_free_cluster_correct_witness : ∃ s', find_free_cluster state = Done 4 s'.
Proof.
  destruct (find_free_cluster_correct state volume state_mounted) as (s' & v' & H & _).
  exists s'. etransitivity; [exact H|]. vm_compute. reflexivity.
Defined.
