(* ===== verification/FatTruncate.v ===== *)
(** Correctness of [fat_ftruncate] ([FatFile]) when it shortens a file: the chain
    is cut after the last cluster that is needed and the rest of it is free. *)
From S2P Require Import Prelude Errno Lists Nls Slab FatTypes FatDisk FatBuffer FatAlloc FatFile.
From S2P Require Import FatCache FatTable FatChain FatRead FatWrite.
(** The number of clusters a file of [n] bytes needs. *)
Definition kept (g : Geometry) (n : Z) : nat :=
  if n =? 0 then 0%nat else S (Z.to_nat ((n - 1) / cluster_bytes g)).

(** The file that has lost its first cluster. *)
Definition emptied (f : File) : File :=
  f <| f_first_cluster := 0 |> <| f_de ::= λ d, d <| de_first_cluster_hi := 0 |> <| de_first_cluster_lo := 0 |> |>
    <| f_de_changed := true |>.

(** The cached positions in a file forgotten. *)
Definition forget (f : Z) (ch : Channel) : Channel := if c_f ch =? f then ch <| c_cluster_index := 0 |> else ch.
Definition forget_all (f : Z) (open : list Z) (chs : gmap Z Channel) : gmap Z Channel :=
  foldl (λ m c, alter (forget f) c m) chs open.

Lemma forget_all_lookup f open chs x ch :
  forget_all f open chs !! x = Some ch → ∃ ch0, chs !! x = Some ch0 ∧ (ch = ch0 ∧ (x ∈ open → c_f ch0 ≠ f) ∨ ch = forget f ch0).
Proof.
  revert chs. induction open as [|c open IH]; simpl; intros chs H.
  - exists ch. split; [done|left]. split; [done|set_solver].
  - destruct (IH _ H) as (ch1 & H1 & H2). destruct (decide (c = x)) as [->|Hne].
    + rewrite lookup_alter_eq in H1. destruct (chs !! x) as [ch0|] eqn:E; [|done]. simpl in H1. injection H1 as <-.
      exists ch0. split; [done|right]. destruct H2 as [[-> _]| ->]; [done|].
      unfold forget. destruct (c_f ch0 =? f) eqn:Ef; simpl; by rewrite Ef.
    + rewrite lookup_alter_ne in H1 by done. exists ch1. split; [done|].
      destruct H2 as [[-> H2]| ->]; [left|by right]. split; [done|]. set_solver.
Qed.

Section truncate.
Context {W : Type} `{FW : FatWorld W} `{FD : !FixedDisk W} `{FL : Fuel}.
Implicit Types (s : fs W) (v : Volume) (g : Geometry).

(** Every open channel is there. *)
Definition channels_ok s v : Prop := ∀ x, x ∈ v_channels_open v → x ≠ 0 ∧ is_Some (fs_channels s !! x).

Lemma wp_reset_cached f open s v (Q : () → fs W → Prop) :
  mounted s v → (∀ x, x ∈ open → x ≠ 0 ∧ is_Some (fs_channels s !! x)) →
  (∀ s', frame v (fs_files s) (forget_all f open (fs_channels s)) s v s' → rewritten ∅ (v_geo v) s s' → Q tt s') →
  wp (reset_cached_cluster f open) Q s.
Proof.
  revert s. induction open as [|c open IH]; simpl; intros s M Ho HQ.
  - apply wp_ret, HQ; [by apply frame_refl|by apply rewritten_same].
  - destruct (Ho c ltac:(set_solver)) as [Hc [ch Hch]]. apply wp_bind. eapply wp_getchannel; [done|]. apply wp_bind.
    assert (frame v (fs_files s) (alter (forget f) c (fs_channels s)) s v (s <| fs_channels ::= <[c := forget f ch]> |>) ∧
      rewritten ∅ (v_geo v) s (s <| fs_channels ::= <[c := forget f ch]> |>)) as [F R].
    { destruct (frame_channel s v c (forget f ch) M) as [F R]. split; [|done].
      replace (alter (forget f) c (fs_channels s)) with (<[c := forget f ch]> (fs_channels s)); [done|].
      apply map_eq. intros x. destruct (decide (x = c)) as [->|].
      - by rewrite lookup_alter_eq, lookup_insert_eq, Hch.
      - by rewrite lookup_alter_ne, lookup_insert_ne by done. }
    eapply (wp_mono _ (λ _ s', s' = s <| fs_channels ::= <[c := forget f ch]> |>)).
    2: { unfold forget. destruct (c_f ch =? f).
         - by eapply wp_modchannel.
         - apply wp_ret. destruct s as [??? fc ?]; simpl in *. f_equal. by rewrite insert_id. }
    intros _ s1 ->. apply IH; [apply F| |].
    + intros x Hx. destruct (Ho x ltac:(set_solver)) as [? [ch' Hx']]. split; [done|]. simpl.
      destruct (decide (x = c)) as [->|]; [rewrite lookup_insert_eq|rewrite lookup_insert_ne by done]; eauto.
    + intros s2 F2 R2. destruct (step_trans _ _ _ _ _ _ _ _ _ _ _ _ F R F2 R2) as [F' R'].
      rewrite (left_id_L ∅ (∪)) in R'. rewrite (frame_files _ _ _ _ _ _ F), (frame_channels _ _ _ _ _ _ F) in F'. by apply HQ.
Qed.

(** Cutting the chain after [k] clusters; cutting it after none empties the file. *)
Lemma wp_cut s v c ch f l k (Q : Z → fs W → Prop) :
  writer s v c ch f l → (k < length l)%nat → (length l ≤ fuel)%nat →
  (∀ v' s', let f' := if (k =? 0)%nat then emptied f else f in
     frame v (<[c_f ch := f']> (fs_files s)) (fs_channels s) s v' s' →
     rewritten (freed (drop k l) ∪ if (k =? 0)%nat then ∅ else {[nth (pred k) l 0 := FAT_EOC]}) (v_geo v) s s' →
     v_free_clusters v' = u32 (v_free_clusters v + Z.of_nat (length (drop k l))) → Q 0 s') →
  wp (fat_delete_file_clusters (c_f ch) (if (k =? 0)%nat then 0 else nth (pred k) l 0)) Q s.
Proof.
  intros Wt Hk Hfuel HQ. destruct (Wt) as [M [Hc Hcf] Hch Hf Hent Hl Hp Hsz].
  destruct Hl as [[_ ->]|Hl]; [simpl in Hk; lia|]. destruct k as [|k]; simpl in *.
  - unfold fat_delete_file_clusters. apply wp_bind. eapply wp_getfile; [done|]. simpl.
    apply wp_bind. eapply wp_modfile; [done|done|].
    do 3 (apply wp_bind; eapply wp_modfile; [done|apply lookup_insert_eq|]).
    destruct (frame_file s v (c_f ch) (emptied f) M) as [F R].
    match goal with |- wp _ _ ?x => replace x with (s <| fs_files ::= <[c_f ch := emptied f]> |>)
      by (unfold emptied; destruct s; simpl; by rewrite !insert_insert_eq) end.
    eapply wp_delete_chain; [apply F|by eapply chain_rewritten|done|].
    intros v' s' F' R' Hfc _. destruct (step_trans _ _ _ _ _ _ _ _ _ _ _ _ F R F' R') as [F2 R2].
    rewrite (frame_files _ _ _ _ _ _ F), (frame_channels _ _ _ _ _ _ F) in F2. eapply HQ; [exact F2| |exact Hfc]. by rewrite ?(right_id_L ∅ (∪)) in *.
  - destruct (lookup_lt_is_Some_2 l k) as [x Hx]; [lia|]. rewrite nth_lookup, Hx in *. simpl in *.
    pose proof (take_drop_middle _ _ _ Hx) as El. rewrite <- El in Hl.
    eapply wp_delete_file_clusters; [done|done|exact Hl| | |].
    + intros E. apply (f_equal length) in E. rewrite length_drop in E. simpl in E. lia.
    + rewrite length_drop. lia.
    + intros v' s' F R Hfc. eapply HQ; [|exact R|exact Hfc]. by rewrite insert_id.
Qed.

(** The file of clusters [l] has been cut to [length] bytes. *)
Record truncated s v (ch : Channel) f l (n : Z) s' v' f' : Prop := {
  tr_frame : frame v (<[c_f ch := f']> (fs_files s)) (fs_channels s') s v' s';
  tr_channels x ch' : fs_channels s' !! x = Some ch' → ∃ ch0, fs_channels s !! x = Some ch0 ∧ moved ch0 ch' ∧
    (x ∈ v_channels_open v → c_f ch0 = c_f ch → c_cluster_index ch' = 0);
  tr_entry : written_entry f f';
  tr_size : de_file_size (f_de f') = n;
  tr_chain : file_chain s' v' f' (take (kept (v_geo v) n) l);
  tr_free m : m ∈ drop (kept (v_geo v) n) l → table s' m = 0;
  tr_others m k : chain (v_geo v) (table s) m k → (∀ x, x ∈ k → x ∉ l) → chain (v_geo v) (table s') m k;
  tr_count : v_free_clusters v' = u32 (v_free_clusters v + Z.of_nat (length (drop (kept (v_geo v) n) l)));
  tr_bytes x : 0 ≤ x → x < fat_addr (v_geo v) 0 ∨ fat_addr (v_geo v) (v_num_fats (v_geo v)) ≤ x →
    volume_bytes s' x = volume_bytes s x }.

(** The last cluster to keep, as [fat_ftruncate] finds it. *)
Lemma wp_last_kept s v c ch f l n (Q : Z + Z → fs W → Prop) :
  writer s v c ch f l → 0 ≤ n < 2 ^ 32 → l ≠ [] → (kept (v_geo v) n ≤ length l)%nat →
  (∀ v' s' ch', frame v (fs_files s) (<[c := ch']> (fs_channels s)) s v' s' → quiet v v' → rewritten ∅ (v_geo v) s s' →
     same_channel ch ch' → position_ok l ch' →
     Q (inr (if (kept (v_geo v) n =? 0)%nat then 0 else nth (pred (kept (v_geo v) n)) l 0)) s') →
  wp (if nz n then
        r ← fat_get_file_sector c (u32 (Z.shiftr (n - 1) (v_log_bytes_per_sector (v_geo v))));
        let res := fst r in
        if res <? 0 then mret (inl res)
        else if 0 <? res then mret (inl (- EIO))
        else ch ← getchannel c; mret (inr (c_cluster ch))
      else mret (inr 0)) Q s.
Proof.
  intros Wt Hn Hne Hk HQ. pose proof (wt_mounted _ _ _ _ _ _ Wt) as M. unfold kept, nz in *.
  destruct (Z.eqb_spec n 0) as [E|Hn0]; simpl in *.
  { apply wp_ret, (HQ v s ch); [|by destruct v|by apply rewritten_same|apply same_channel_refl|apply Wt].
    rewrite insert_id by apply Wt. by apply frame_refl. }
  pose proof (writer_open _ _ _ _ _ _ Wt Hne) as O. pose proof (mounted_geo _ _ M) as Hg.
  pose proof (bps_pos _ Hg) as Hb. pose proof (mt_data _ _ M) as Hd. destruct (go_log _ Hg) as [Hlg Hp].
  pose proof (cluster_bytes_pos _ _ Hb Hd) as Hcb. set (g := v_geo v) in *.
  rewrite shiftr_div, <- Hp by lia.
  assert (0 ≤ (n - 1) / v_bytes_per_sector g < 2 ^ 32) as Hsi.
  { split; [apply Z.div_pos; lia|]. apply Z.div_lt_upper_bound; nia. }
  rewrite u32_small by done. apply wp_bind. eapply wp_get_file_sector; try apply O; [done|].
  fold g. intros v1 s1 F1 Q1 R1. rewrite (cluster_index_eq g _ Hb Hd (n - 1)) in F1 |- *.
  set (k := Z.to_nat ((n - 1) / cluster_bytes g)) in *.
  destruct (lookup_lt_is_Some_2 l k) as [m Hm]; [lia|]. rewrite Hm. simpl.
  apply wp_bind. eapply wp_getchannel; [by rewrite (frame_channels _ _ _ _ _ _ F1), lookup_insert_eq|]. apply wp_ret.
  destruct (at_cluster_ok l k ch Hne) as [P C]. simpl.
  replace (reach k l) with k by (unfold reach; lia). by eapply HQ.
Qed.

(** The table after the cut. *)
Lemma cut_chain s v s' v' f f' l k :
  mounted s v → mounted s' v' → v_geo v' = v_geo v → file_chain s v f l → (k < length l)%nat →
  f_first_cluster f' = (if (k =? 0)%nat then 0 else f_first_cluster f) →
  rewritten (freed (drop k l) ∪ if (k =? 0)%nat then ∅ else {[nth (pred k) l 0 := FAT_EOC]}) (v_geo v) s s' →
  file_chain s' v' f' (take k l) ∧ (∀ m, m ∈ drop k l → table s' m = 0) ∧
  ∀ m j, chain (v_geo v) (table s) m j → (∀ x, x ∈ j → x ∉ l) → chain (v_geo v) (table s') m j.
Proof.
  intros M M' Hg [[_ ->]|Hl] Hk Hf' R; [simpl in Hk; lia|].
  set (U := freed _ ∪ _) in R. pose proof (chain_cluster _ _ _ _ Hl) as Hcl.
  pose proof (chain_NoDup _ _ _ _ (λ x, cluster_not_eoc s v x M) Hl) as Hnd.
  assert (∀ x, cluster (v_geo v) x → table s' x = default (table s x) (U !! x)) as Htab.
  { intros x Hx. eapply rewritten_table; [exact M|by apply mounted_vol|exact Hg|exact R|by apply cluster_in_table]. }
  assert (∀ x, x ∈ l → cluster (v_geo v) x) as Hin by (intros x Hx; by eapply Forall_forall in Hcl).
  assert (∀ x, x ∈ drop k l → x ∈ l) as Hdrop by (intros x Hx; rewrite <- (take_drop k l); set_solver).
  split_and!.
  - destruct k as [|k]; [by left|right]. simpl in Hf'. rewrite Hf', Hg.
    destruct (lookup_lt_is_Some_2 l k) as [x Hx]; [lia|]. pose proof (take_drop_middle _ _ _ Hx) as El.
    rewrite (take_S_r _ _ _ Hx). rewrite <- El in Hnd, Hl.
    apply NoDup_app in Hnd as (_ & Hd1 & Hd2). apply NoDup_cons in Hd2 as [Hd2 _].
    assert (∀ y, y ∈ take k l → y ∈ l ∧ y ∉ drop (S k) l ∧ y ≠ x) as Htk.
    { intros y Hy. pose proof (Hd1 y Hy). split_and!; [rewrite <- (take_drop k l)|..]; set_solver. }
    eapply chain_cut; [exact Hl| |].
    + intros y Hy. destruct (Htk y Hy) as (H1 & H2 & H3). rewrite Htab by by apply Hin. unfold U. simpl.
      rewrite nth_lookup, Hx. simpl. by rewrite lookup_union, freed_lookup, decide_False, lookup_singleton_ne by done.
    + rewrite Htab by (apply Hin; by eapply list_elem_of_lookup_2). unfold U. simpl. rewrite nth_lookup, Hx. simpl.
      by rewrite lookup_union, freed_lookup, decide_False, lookup_singleton_eq by done.
  - intros m Hm. rewrite Htab by by apply Hin, Hdrop. unfold U.
    rewrite lookup_union, freed_lookup, decide_True by done. by destruct (_ !! m).
  - intros m j Hj Hdis. eapply chain_ext; [|exact Hj]. intros x Hx. symmetry.
    apply chain_cluster in Hj. eapply Forall_forall in Hj; [|exact Hx]. rewrite Htab by done. unfold U.
    rewrite lookup_union, freed_lookup, decide_False by (intros Hd; by eapply Hdis, Hdrop).
    destruct k as [|k]; simpl; [by rewrite lookup_empty|].
    rewrite lookup_singleton_ne; [done|]. intros E. eapply Hdis; [exact Hx|]. rewrite <- E.
    destruct (lookup_lt_is_Some_2 l k) as [y Hy]; [lia|]. rewrite nth_lookup, Hy. simpl. by eapply list_elem_of_lookup_2.
Qed.

(** The dates, the archive attribute and the size after truncation. *)
Definition shortened (time date n : Z) (f : File) : File :=
  f <| f_de ::= λ d, d <| de_mod_time := time |> <| de_mod_date := date |> <| de_acc_date := date |>
         <| de_file_size := u32 n |> <| de_attr ::= λ a, Z.lor a FAT_AARCHIV |> |> <| f_de_changed := true |>.

(** Nothing has changed but the position of the channel and how the end of a chain is
    marked in the table. *)
Record untouched s v c (ch : Channel) s' v' : Prop := {
  un_frame : ∃ ch', frame v (fs_files s) (<[c := ch']> (fs_channels s)) s v' s' ∧ same_channel ch ch';
  un_quiet : quiet v v';
  un_table m : cluster (v_geo v) m → table s' m = table s m;
  un_bytes x : 0 ≤ x → x < fat_addr (v_geo v) 0 ∨ fat_addr (v_geo v) (v_num_fats (v_geo v)) ≤ x →
    volume_bytes s' x = volume_bytes s x }.

(** The chain of the file, once its last cluster has been looked up. *)
Lemma writer_moved s v c ch f l s1 v1 ch1 :
  writer s v c ch f l → frame v (fs_files s) (<[c := ch1]> (fs_channels s)) s v1 s1 → rewritten ∅ (v_geo v) s s1 →
  same_channel ch ch1 → position_ok l ch1 → writer s1 v1 c ch1 f l.
Proof.
  intros [? ? Hch Hf He Hl Hp ?] F1 R1 C1 P1. assert (c_f ch1 = c_f ch) as Ec by by rewrite C1.
  split; rewrite ?Ec; try done; [apply F1|..].
  - by rewrite (frame_channels _ _ _ _ _ _ F1), lookup_insert_eq.
  - by rewrite (frame_files _ _ _ _ _ _ F1).
  - by eapply file_chain_rewritten.
Qed.

(** A new length in the last cluster: the end mark is taken for a cluster. *)
Lemma wp_ftruncate_fails s v c ch f l n (Q : Z → fs W → Prop) :
  writer s v c ch f l → IS_NOT_WRITEABLE ch = false → is_dir f = false →
  0 ≤ n < de_file_size (f_de f) → l ≠ [] → kept (v_geo v) n = length l → (length l ≤ fuel)%nat →
  (∀ s' v', untouched s v c ch s' v' → Q (- ENXIO) s') →
  wp (fat_ftruncate c n) Q s.
Proof.
  intros Wt Hw Hdir Hn Hne Hk Hfuel HQ. destruct (wt_handle _ _ _ _ _ _ Wt) as [Hc Hcf].
  pose proof (wt_mounted _ _ _ _ _ _ Wt) as M. pose proof (wt_size _ _ _ _ _ _ Wt) as Hsz.
  unfold fat_ftruncate, guard_ret. rewrite (proj2 (nz_true c) Hc), (proj2 (Z.ltb_ge n 0)) by lia. simpl.
  apply wp_bind. eapply wp_getchannel; [apply Wt|]. rewrite Hw.
  apply wp_bind. eapply wp_getfile; [apply Wt|]. rewrite Hdir, (proj2 (Z.ltb_lt n _)) by lia.
  apply wp_bind. eapply wp_geo; [by apply mounted_vol|]. apply wp_bind.
  eapply (wp_last_kept s v c ch f l n); [done|lia|done|by rewrite Hk|]. intros v1 s1 ch1 F1 Q1 R1 C1 P1.
  pose proof (writer_moved _ _ _ _ _ _ _ _ _ Wt F1 R1 C1 P1) as Wt1. pose proof (frame_geo _ _ _ _ _ _ F1) as G1.
  assert (c_f ch1 = c_f ch) as Ec by by rewrite C1.
  destruct (list_snoc_case l) as [->|(l0 & x & ->)]; [done|]. rewrite length_app in Hk, Hfuel. cbn [length] in Hk, Hfuel.
  rewrite Nat.add_comm in Hk. rewrite Hk. cbn [Nat.add Nat.eqb pred]. rewrite nth_middle. destruct (wt_chain _ _ _ _ _ _ Wt1) as [[_ E]|Hl]; [by destruct l0|].
  assert (last (l0 ++ [x]) = Some x) as Hlast by apply last_snoc.
  apply wp_check. rewrite <- Ec.
  eapply (wp_delete_file_clusters_last s1 v1 (c_f ch1) f _ _ x); [apply Wt1|apply Wt1|exact Hl|exact Hlast|lia|].
  intros v2 s2 F2 Q2 R2. split; [|done]. intros _.
  destruct (step_trans _ _ _ _ _ _ _ _ _ _ _ _ F1 R1 F2 R2) as [F R]. rewrite (right_id_L ∅ (∪)) in R.
  rewrite (frame_files _ _ _ _ _ _ F1), (frame_channels _ _ _ _ _ _ F1) in F. apply (HQ s2 v2). split.
  - by exists ch1.
  - unfold quiet in *. by rewrite Q2, Q1.
  - intros m Hm. rewrite (rewritten_table _ s v s2 v2 m M (mounted_vol _ _ (fr_mounted _ _ _ _ _ _ F)) (frame_geo _ _ _ _ _ _ F) R)
      by by apply cluster_in_table.
    destruct (decide (m = x)) as [->|Hmx]; [|by rewrite lookup_singleton_ne].
    rewrite lookup_singleton_eq. symmetry. destruct (wt_chain _ _ _ _ _ _ Wt) as [[_ E]|Hl0]; [by destruct l0|].
    by apply (chain_end _ _ _ _ _ Hl0 Hlast).
  - intros y Hy Ho. apply (rw_out _ _ _ _ R); done.
Qed.

Lemma wp_ftruncate_cuts s v c ch f l n (Q : Z → fs W → Prop) :
  writer s v c ch f l → IS_NOT_WRITEABLE ch = false → is_dir f = false → has (c_flags ch) O_SYNC = false →
  0 ≤ n < de_file_size (f_de f) → (kept (v_geo v) n < length l)%nat → (length l ≤ fuel)%nat → channels_ok s v →
  (∀ s' v' f', truncated s v ch f l n s' v' f' → Q 0 s') →
  wp (fat_ftruncate c n) Q s.
Proof.
  intros Wt Hw Hdir Hsync Hn Hk Hfuel Hch HQ. assert (l ≠ []) as Hne by (intros ->; simpl in Hk; lia). destruct (wt_handle _ _ _ _ _ _ Wt) as [Hc Hcf].
  pose proof (wt_mounted _ _ _ _ _ _ Wt) as M. pose proof (wt_size _ _ _ _ _ _ Wt) as Hsz.
  set (k := kept (v_geo v) n) in *. unfold fat_ftruncate, guard_ret.
  rewrite (proj2 (nz_true c) Hc), (proj2 (Z.ltb_ge n 0)) by lia. simpl.
  apply wp_bind. eapply wp_getchannel; [apply Wt|]. rewrite Hw.
  apply wp_bind. eapply wp_getfile; [apply Wt|]. rewrite Hdir, (proj2 (Z.ltb_lt n _)) by lia.
  apply wp_bind. eapply wp_geo; [by apply mounted_vol|]. apply wp_bind.
  eapply (wp_last_kept s v c ch f l n); [done|lia|done|unfold k in *; lia|]. fold k. intros v1 s1 ch1 F1 Q1 R1 C1 P1.
  assert (c_f ch1 = c_f ch) as Ec by by rewrite C1. pose proof (frame_geo _ _ _ _ _ _ F1) as G1.
  pose proof (writer_moved _ _ _ _ _ _ _ _ _ Wt F1 R1 C1 P1) as Wt1.
  apply wp_check. rewrite <- Ec. eapply (wp_cut s1 v1 c ch1 f l k); [done|done|done|].
  intros v2 s2 f2 F2 R2 Hfc. split; [lia|]. intros _. rewrite Ec in *.
  destruct (step_trans _ _ _ _ _ _ _ _ _ _ _ _ F1 R1 F2 R2) as [F12 R12]. rewrite (right_id_L ∅ (∪)) in R12.
  rewrite (frame_files _ _ _ _ _ _ F1), (frame_channels _ _ _ _ _ _ F1) in F12.
  apply wp_bind. eapply wp_timestamps; [apply F12|]. intros s3 [[time date] ?] F3 R3.
  apply wp_bind. eapply wp_modfile; [done|by rewrite (frame_files _ _ _ _ _ _ F3), (frame_files _ _ _ _ _ _ F12), lookup_insert_eq|].
  fold (shortened time date n f2). set (f' := shortened time date n f2).
  destruct (frame_file s3 v2 (c_f ch) f' (fr_mounted _ _ _ _ _ _ F3)) as [F4 R4].
  set (s4 := s3 <| fs_files ::= _ |>) in *.
  destruct (step_trans _ _ _ _ _ _ _ _ _ _ _ _ F3 R3 F4 R4) as [F34 R34]. rewrite (left_id_L ∅ (∪)) in R34.
  destruct (step_trans _ _ _ _ _ _ _ _ _ _ _ _ F12 R12 F34 R34) as [F14 R14]. rewrite (left_id_L ∅ (∪)) in R14.
  rewrite (frame_files _ _ _ _ _ _ F3), (frame_channels _ _ _ _ _ _ F3), (frame_files _ _ _ _ _ _ F12),
    (frame_channels _ _ _ _ _ _ F12), insert_insert_eq in F14.
  rewrite Hsync. apply wp_check, wp_ret. split; [lia|]. intros _.
  assert (v_channels_open v2 = v_channels_open v) as Eo by by rewrite (fr_vol _ _ _ _ _ _ F14).
  apply wp_bind. eapply wp_getv; [eapply mounted_vol, F14|]. rewrite Eo.
  apply wp_bind. eapply wp_reset_cached; [apply F14| |].
  { intros x Hx. destruct (Hch x Hx) as [? [y Hy]]. split; [done|]. rewrite (frame_channels _ _ _ _ _ _ F14).
    destruct (decide (x = c)) as [->|]; [rewrite lookup_insert_eq|rewrite lookup_insert_ne by done]; eauto. }
  intros s5 F5 R5. destruct (step_trans _ _ _ _ _ _ _ _ _ _ _ _ F14 R14 F5 R5) as [F R]. rewrite (left_id_L ∅ (∪)) in R.
  rewrite (frame_files _ _ _ _ _ _ F14) in F. apply wp_ret, (HQ s5 v2 f').
  assert (f_first_cluster f' = (if (k =? 0)%nat then 0 else f_first_cluster f) ∧ written_entry f f' ∧ de_file_size (f_de f') = n)
    as (E1 & E2 & E3).
  { unfold f', f2. destruct (k =? 0)%nat; (split; [done|]; split; [|simpl; rewrite u32_small by lia; done]);
      (split; [by right|]); unfold shortened, emptied; by destruct f as [[] ?????]. }
  destruct (cut_chain s v s5 v2 f f' l k) as (H1 & H2 & H3);
    [done|apply F|exact (frame_geo _ _ _ _ _ _ F)|apply Wt|done|done|exact R|].
  split; fold k; try done.
  - by rewrite (frame_channels _ _ _ _ _ _ F).
  - intros x ch'. rewrite (frame_channels _ _ _ _ _ _ F), (frame_channels _ _ _ _ _ _ F14). intros Hx.
    apply forget_all_lookup in Hx as (ch0 & Hx & Hor).
    assert (∃ ch00, fs_channels s !! x = Some ch00 ∧ moved ch00 ch0 ∧ c_f ch00 = c_f ch0) as (ch00 & E & Hmv & Ef).
    { destruct (decide (x = c)) as [->|].
      - rewrite lookup_insert_eq in Hx. injection Hx as <-. exists ch. split_and!; [apply Wt|apply same_channel_moved, C1|done].
      - rewrite lookup_insert_ne in Hx by done. exists ch0. split_and!; [done|apply moved_refl|done]. }
    exists ch00. split; [done|]. unfold forget in Hor. destruct (Z.eqb_spec (c_f ch0) (c_f ch)) as [Ec0|Ec0].
    + destruct Hor as [[-> Hno]| ->].
      * split; [done|]. intros Hin _. by destruct (Hno Hin).
      * split; [|done]. eapply moved_trans; [exact Hmv|]. by destruct ch0.
    + assert (ch' = ch0) as -> by by destruct Hor as [[-> _]| ->]. split; [done|]. intros _ Hcc. congruence.
  - rewrite Hfc. by rewrite Q1.
  - intros x Hx Ho. apply (rw_out _ _ _ _ R); done.
Qed.
End truncate.

From S2P Require Import FatVolume FatMount FatExample FatData.

(** The properties of writing to files and of changing their length, each about
    the code's own operations, with a run on the sample volume. *)
Module FatWriting.
Section theorems.
Context {W : Type} `{FW : FatWorld W} `{FD : !FixedDisk W} `{FL : Fuel}.
Implicit Types (s : fs W) (v : Volume) (g : Geometry).

(** What [fat_write] needs of its arguments: a writable channel on a regular file
    that starts writing inside the file. *)
Record writable s v c ch f l (data : bytes) (size : Z) : Prop := {
  wb_writer : writer s v c ch f l;
  wb_inside : inside v f l (write_start ch f);
  wb_magic : c_magic ch = FAT_CHANNEL_MAGIC;
  wb_mode : IS_NOT_WRITEABLE ch = false;
  wb_file : is_dir f = false;
  wb_sync : has (c_flags ch) O_SYNC = false;
  wb_size : 0 < size < 2 ^ 31;
  wb_data : size ≤ Z.of_nat (length data) ∧ Forall is_byte data;
  wb_max : write_start ch f + size ≤ UINT32_MAX;
  wb_fuel : 2 * size ≤ Z.of_nat fuel }.

(** C2: [fat_write] stores the first [n] bytes of the buffer in the file from the
    file pointer (or, with [O_APPEND], from the end of the file) on, adding
    clusters to its chain as needed, and advances the pointer by [n]; all other
    bytes of the file, the chains and bytes of the other files and the boot area
    are as before. [n] is the size asked for unless the volume is full. With
    nothing written the result is -ENOSPC. *)
Theorem fat_write_correct s v c ch f l data size :
  writable s v c ch f l data size →
  ∃ n s' v' ch' f' l',
    fat_write c (Some data) size s = Done (if n =? 0 then - ENOSPC else n) s' ∧ 0 ≤ n ≤ size ∧
    wrote s v c ch f l (write_start ch f) (slice data 0 n) s' v' ch' f' l' ∧
    c_file_pointer ch' = write_start ch f + n ∧ (n < size → full s' v').
Proof.
  intros [Wt Hin Hm Hw Hd Hs Hsz [Hl Hb] Hmax Hf].
  assert (wp (fat_write c (Some data) size) (λ r s', ∃ n v' ch' f' l', r = (if n =? 0 then - ENOSPC else n) ∧
    0 ≤ n ≤ size ∧ wrote s v c ch f l (write_start ch f) (slice data 0 n) s' v' ch' f' l' ∧
    c_file_pointer ch' = write_start ch f + n ∧ (n < size → full s' v')) s) as H.
  { eapply wp_fat_write; [done..|]. intros n s' v' ch' f' l' H1 H2 H3 H4. eauto 12. }
  apply wp_done in H as (r & s' & Hr & n & v' & ch' & f' & l' & -> & H). exists n, s', v', ch', f', l'. by rewrite Hr.
Qed.

(** C3: what has been written is read back: after [fat_write] on a channel open
    for both, seeking to where the write started and reading as many bytes
    returns the bytes of the buffer. *)
Theorem fat_write_read_back s v c ch f l data size :
  writable s v c ch f l data size → IS_NOT_READABLE ch = false →
  ∃ n s1, fat_write c (Some data) size s = Done (if n =? 0 then - ENOSPC else n) s1 ∧ 0 ≤ n ≤ size ∧
    (0 < n → ∃ s2 s3, fat_lseek c (write_start ch f) SEEK_SET s1 = Done (write_start ch f) s2 ∧
       fat_read c true n s2 = Done (n, slice data 0 n) s3).
Proof.
  intros [Wt Hin Hm Hw Hd Hs Hsz [Hl Hb] Hmax Hf] Hrd. set (p := write_start ch f) in *.
  assert (wp (fat_write c (Some data) size) (λ r s', ∃ n v' ch' f' l', r = (if n =? 0 then - ENOSPC else n) ∧
    0 ≤ n ≤ size ∧ wrote s v c ch f l p (slice data 0 n) s' v' ch' f' l') s) as H.
  { eapply wp_fat_write; [done..|]. intros n s' v' ch' f' l' H1 H2 H3 H4. eauto 12. }
  apply wp_done in H as (r & s1 & Hr & n & v1 & ch1 & f1 & l1 & -> & Hn & Wr). exists n, s1. split_and!; [done|lia|lia|].
  intros Hpos. pose proof (proj1 Hin) as Ho. pose proof (wr_writer _ _ _ _ _ _ _ _ _ _ _ _ _ Wr) as Wt1.
  assert (Z.of_nat (length (slice data 0 n)) = n) as Hlen by (apply length_slice; lia).
  destruct (moved_flags _ _ (wr_channel _ _ _ _ _ _ _ _ _ _ _ _ _ Wr)) as [Efl Ecf].
  assert (c_magic ch1 = FAT_CHANNEL_MAGIC) as Hm1 by by rewrite (wr_channel _ _ _ _ _ _ _ _ _ _ _ _ _ Wr).
  set (ch2 := ch1 <| c_file_pointer := p |>). set (s2 := s1 <| fs_channels ::= <[c := ch2]> |>).
  assert (fat_lseek c p SEEK_SET s1 = Done p s2) as Hseek.
  { rewrite (fat_lseek_done s1 c ch1 f1 p SEEK_SET) by apply Wt1.
    rewrite (proj2 (Z.eqb_neq c 0)) by apply Wt1. rewrite Hm1. unfold seek_target. simpl.
    rewrite (proj2 (Z.ltb_ge p 0)) by lia. done. }
  pose proof (wrote_to_pointer _ _ _ _ _ _ p _ _ _ _ _ _ _ Wr (proj1 Ho)) as Wr2. fold ch2 s2 in Wr2.
  pose proof (wr_writer _ _ _ _ _ _ _ _ _ _ _ _ _ Wr2) as Wt2. pose proof (wr_room _ _ _ _ _ _ _ _ _ _ _ _ _ Wr2) as Hroom.
  pose proof (frame_geo _ _ _ _ _ _ (wr_frame _ _ _ _ _ _ _ _ _ _ _ _ _ Wr2)) as G.
  rewrite Hlen in Hroom. assert (l1 ≠ []) as Hne by (intros ->; simpl in Hroom; lia).
  assert (read_len (v_geo v1) f1 l1 n p = n) as Hrl.
  { unfold read_len, file_limit. rewrite (written_entry_dir _ _ (wr_file _ _ _ _ _ _ _ _ _ _ _ _ _ Wr2)), Hd, G.
    rewrite (wr_size _ _ _ _ _ _ _ _ _ _ _ _ _ Wr2), Hlen. unfold grown. rewrite Hd. lia. }
  assert (wp (fat_read c true n) (λ r _, r = (n, slice data 0 n)) s2) as H.
  { eapply (wp_fat_read s2 v1 c ch2 f1 l1); [by apply writer_open|apply Wt2|done| |lia|simpl; lia|simpl; unfold UINT32_MAX in Hmax; lia|].
    - unfold IS_NOT_READABLE, ch2. simpl. by rewrite Efl.
    - intros v' s' ch' f' F R P A n' C. unfold n'. simpl. rewrite Hrl. f_equal.
      rewrite <- (wr_data _ _ _ _ _ _ _ _ _ _ _ _ _ Wr2), Hlen, G. done. }
  apply wp_done in H as (r & s3 & Hr3 & ->). eauto.
Qed.

(** C4: shortening a file, on a channel that is not open with O_SYNC, to a length its
    clusters cover. When fewer clusters are needed, the chain is cut after those that are
    kept and the others are freed and counted; the size is the new length, no open channel
    keeps a cached position in the file, and no byte outside the tables and no chain of
    another file changes. When the new length ends in the last cluster, the call fails
    with -ENXIO: the file keeps its size and its clusters, and nothing changes but the
    position of the channel and the way the end of the chain is marked. *)
Theorem fat_ftruncate_cuts s v c ch f l n :
  writer s v c ch f l → IS_NOT_WRITEABLE ch = false → is_dir f = false → has (c_flags ch) O_SYNC = false →
  0 ≤ n < de_file_size (f_de f) → l ≠ [] → (kept (v_geo v) n ≤ length l)%nat → (length l ≤ fuel)%nat → channels_ok s v →
  ∃ r s', fat_ftruncate c n s = Done r s' ∧
    if decide (kept (v_geo v) n < length l)%nat
    then r = 0 ∧ ∃ v' f', truncated s v ch f l n s' v' f'
    else r = - ENXIO ∧ ∃ v', untouched s v c ch s' v'.
Proof.
  intros Wt Hw Hd Hs Hn Hne Hk Hf Hch. case_decide as Hlt.
  - assert (wp (fat_ftruncate c n) (λ r s', r = 0 ∧ ∃ v' f', truncated s v ch f l n s' v' f') s) as H.
    { eapply wp_ftruncate_cuts; [done..|]. eauto. }
    apply wp_done in H as (r & s' & H). eauto.
  - assert (wp (fat_ftruncate c n) (λ r s', r = - ENXIO ∧ ∃ v', untouched s v c ch s' v') s) as H.
    { eapply (wp_ftruncate_fails s v c ch f l n); [done..|lia|done|]. eauto. }
    apply wp_done in H as (r & s' & H). eauto.
Qed.

(** C5: lengthening a file appends zeroes; all that was there stays. The result
    is the number of zeroes written, not 0 as the comment says. *)
Theorem fat_ftruncate_extends s v c ch f l n :
  writer s v c ch f l → IS_NOT_WRITEABLE ch = false → is_dir f = false → has (c_flags ch) O_SYNC = false →
  let size := de_file_size (f_de f) in
  size < n ≤ UINT32_MAX → n - size < 2 ^ 31 → size ≤ Z.of_nat (length l) * cluster_bytes (v_geo v) →
  2 * (n - size) ≤ Z.of_nat fuel →
  ∃ k s' v' ch' f' l', fat_ftruncate c n s = Done (if k =? 0 then - ENOSPC else k) s' ∧ 0 ≤ k ≤ n - size ∧
    wrote s v c ch f l size (zeroes k) s' v' ch' f' l' ∧ (k < n - size → full s' v').
Proof.
  intros Wt Hw Hd Hs size Hn Hmax Hroom Hf. pose proof (wt_size _ _ _ _ _ _ Wt) as Hsz. fold size in Hsz.
  unfold UINT32_MAX in *.
  assert (wp (fat_ftruncate c n) (λ r s', ∃ k v' ch' f' l', r = (if k =? 0 then - ENOSPC else k) ∧ 0 ≤ k ≤ n - size ∧
    wrote s v c ch f l size (zeroes k) s' v' ch' f' l' ∧ (k < n - size → full s' v')) s) as H.
  { unfold fat_ftruncate, guard_ret. rewrite (proj2 (nz_true c)) by apply Wt. rewrite (proj2 (Z.ltb_ge n 0)) by lia. simpl.
    apply wp_bind. eapply wp_getchannel; [apply Wt|]. rewrite Hw. apply wp_bind. eapply wp_getfile; [apply Wt|].
    rewrite Hd. fold size. rewrite (proj2 (Z.ltb_ge n size)), (proj2 (Z.ltb_lt size n)), u32_small by lia.
    eapply wp_do_write; [exact Wt|split; [lia|done]|lia| | |done|rewrite Hd; unfold UINT32_MAX; lia|done|].
    - unfold source, zeroes. rewrite length_replicate. lia.
    - by apply Forall_replicate.
    - intros k s' v' ch' f' l' Hk Wr _ Hfull. simpl in Wr. rewrite slice_zeroes in Wr by lia.
      rewrite (proj2 (Z.ltb_lt 0 (n - size))), andb_true_r by lia. exists k, v', ch', f', l'. by split_and!; [|lia|lia| |]. }
  apply wp_done in H as (r & s' & Hr & k & v' & ch' & f' & l' & -> & H). exists k, s', v', ch', f', l'. by rewrite Hr.
Qed.
End theorems.

Import Example.

Lemma state_writer : writer state volume 8 channel file [2; 3; 5].
Proof. split; try done; [exact state_mounted|by right; exact state_chain|by left]. Qed.


Lemma state_writable data size :
  0 < size ≤ 100 → size ≤ Z.of_nat (length data) → Forall is_byte data →
  writable state volume 8 channel file [2; 3; 5] data size.
Proof.
  intros Hs Hl Hb. split; try done.
  - split; try done; [exact state_mounted|by right; exact state_chain|by left].
  - lia.
  - unfold write_start, UINT32_MAX. simpl. lia.
  - change (Z.of_nat fuel) with 300. lia.
Qed.

(** The result of a concrete run. *)
Definition result {A} (o : outcome (fs ramdisk) A) : option A := match o with Done a _ => Some a | _ => None end.

Lemma fat_write_correct_witness :
  ∃ s' l', fat_write 8 (Some (replicate 100 1)) 100 state = Done 100 s'
    ∧ file_bytes s' geometry l' 500 100 = replicate 100 1.
Proof.
  destruct (fat_write_correct state volume 8 channel file [2; 3; 5] (replicate 100 1) 100) as
    (n & s' & v' & ch' & f' & l' & H & Hn & Wr & _); [apply state_writable; [done|done|repeat constructor; done]|].
  assert (result (fat_write 8 (Some (replicate 100 1)) 100 state) = Some 100) as E by (vm_compute; reflexivity).
  rewrite H in E. injection E as E. assert (n = 100) as -> by (destruct (n =? 0); [discriminate|exact E]).
  exists s', l'. split; [exact H|]. exact (wr_data _ _ _ _ _ _ _ _ _ _ _ _ _ Wr).
Defined.

Lemma fat_write_read_back_witness :
  ∃ s1 s2 s3, fat_write 8 (Some [1; 2; 3]) 3 state = Done 3 s1 ∧ fat_lseek 8 500 SEEK_SET s1 = Done 500 s2
    ∧ fat_read 8 true 3 s2 = Done (3, [1; 2; 3]) s3.
Proof.
  destruct (fat_write_read_back state volume 8 channel file [2; 3; 5] [1; 2; 3] 3) as (n & s1 & H & Hn & Hr);
    [apply state_writable; [done|done|repeat constructor; done]|done|].
  assert (result (fat_write 8 (Some [1; 2; 3]) 3 state) = Some 3) as E by (vm_compute; reflexivity).
  rewrite H in E. injection E as E. assert (n = 3) as -> by (destruct (n =? 0); [discriminate|exact E]).
  destruct (Hr eq_refl) as (s2 & s3 & H2 & H3). exists s1, s2, s3. split; [exact H|]. split; [exact H2|exact H3].
Defined.

Lemma fat_ftruncate_cuts_witness :
  (∃ s' v' f', fat_ftruncate 8 600 state = Done 0 s' ∧ file_chain s' v' f' [2; 3] ∧ table s' 5 = 0) ∧
  (∃ s' v', fat_ftruncate 8 1050 state = Done (- ENXIO) s' ∧ untouched state volume 8 channel s' v').
Proof.
  assert (Hch : channels_ok state volume) by (intros x ->%list_elem_of_singleton; split; [done|]; by exists channel).
  split.
  - destruct (fat_ftruncate_cuts state volume 8 channel file [2; 3; 5] 600) as (r & s' & H & Hr);
      [exact state_writer|done|done|done|done|done|vm_compute; lia|vm_compute; lia|exact Hch|].
    rewrite decide_True in Hr by (vm_compute; lia). destruct Hr as (-> & v' & f' & Htr).
    exists s', v', f'. split; [exact H|]. assert (kept geometry 600 = 2%nat) as E by (vm_compute; reflexivity).
    pose proof (tr_chain _ _ _ _ _ _ _ _ _ Htr) as Hc. change (v_geo volume) with geometry in Hc. rewrite E in Hc.
    split; [exact Hc|].
    apply (tr_free _ _ _ _ _ _ _ _ _ Htr). change (v_geo volume) with geometry. rewrite E. apply list_elem_of_here.
  - destruct (fat_ftruncate_cuts state volume 8 channel file [2; 3; 5] 1050) as (r & s' & H & Hr);
      [exact state_writer|done|done|done|done|done|vm_compute; lia|vm_compute; lia|exact Hch|].
    rewrite decide_False in Hr by (vm_compute; lia). destruct Hr as (-> & v' & Hu). exists s', v'. split; [exact H|exact Hu].
Defined.

Lemma fat_ftruncate_extends_witness :
  ∃ k s' l', fat_ftruncate 8 1200 state = Done k s' ∧ k = 100 ∧ file_bytes s' geometry l' 1100 100 = zeroes 100.
Proof.
  destruct (fat_ftruncate_extends state volume 8 channel file [2; 3; 5] 1200) as
    (k & s' & v' & ch' & f' & l' & H & Hk & Wr & _);
    [exact state_writer|done|done|done|done|done|vm_compute; discriminate|vm_compute; discriminate|].
  assert (result (fat_ftruncate 8 1200 state) = Some 100) as E by (vm_compute; reflexivity).
  rewrite H in E. injection E as E. assert (k = 100) as -> by (destruct (k =? 0); [discriminate|exact E]).
  exists 100, s', l'. split; [exact H|]. split; [reflexivity|]. exact (wr_data _ _ _ _ _ _ _ _ _ _ _ _ _ Wr).
Defined.
End FatWriting.
