(* ===== verification/KernelFs.v ===== *)
(** The state of the file system layer of the kernel ([src/fd32/filesys]): drives,
    SUBSTed drives and current directories, the job file table of the current
    process; and what the layer calls: file system drivers through their request
    functions, block devices, kernel memory, the console. *)
From S2P Require Import Prelude Errno Lists Slab Devices.
From S2P Require Import FatTypes FatFile FatDos FatVolume FatRequest.

Definition FD32_LFNPMAX : nat := 260.
Definition FD32_LFNMAX : nat := 256.
Definition FD32_TNSUBST : Z := Z.shiftl 1 0.
Definition FD32_TNDOTS : Z := Z.shiftl 1 1.
Definition FD32_ANONE : Z := 0.
Definition EXDEV : Z := 18.
Definition ENOTBLK : Z := 15.

(** A request function: none, one of the two of the layer itself ([jft.c]), or the
    one of a driver at an address. *)
Inductive fd32_request_t := NoRequest | FakeConsole | DummyRequest | DriverRequest (address : Z).
#[export] Instance fd32_request_eq_dec : EqDecision fd32_request_t.
Proof. solve_decision. Defined.
Definition is_null (r : fd32_request_t) : bool := bool_decide (r = NoRequest).

(** [struct BlockDeviceInfo] and [struct BlockMediumInfo]. *)
Record BlockDeviceInfo := mkBlockDeviceInfo { bdi_flags : Z; bdi_multiboot_id : Z }.
Record BlockMediumInfo := mkBlockMediumInfo { bmi_blocks_count : Z; bmi_block_bytes : Z }.

(** What the layer calls. A driver gets the volume a request is about and the
    fields of its parameters; the operations of a block device come with the
    address of their structure and the handle of the device. *)
Class KernelWorld (W : Type) := {
  kw_memory :: KernelMemory W;
  kw_pages :: Slab.PageSource W;
  driver : Z → Z → request → M W (Z * reply);
  block_enumerate : Z → W → option bytes * Z;
  block_get : option bytes → W → (Z * (Z * Z)) * W;
  get_device_info : Z → Z → W → (Z * BlockDeviceInfo) * W;
  get_medium_info : Z → Z → W → (Z * BlockMediumInfo) * W;
  dev_open : Z → Z → W → Z * W;
  dev_close : Z → Z → W → Z * W;
  dev_read : Z → Z → Z → Z → W → (Z * bytes) * W;
  dev_write : Z → Z → bytes → Z → Z → W → Z * W;
  req_release : Z → W → Z * W;
  cputs : bytes → W → W }.

(** [Drive] of [drives.c]. *)
Record Drive := mkDrive {
  blk_name : option bytes;
  req : fd32_request_t;
  handle : Z;
  dos_dpb : Z;
  dev_info : Z }.
#[export] Instance Drive_eta : Eta Drive := λ r,
  mkDrive (blk_name r) (req r) (handle r) (dos_dpb r) (dev_info r).

(** [tSubst] and [tCds] of [truename.c], with their addresses. *)
Record tSubst := mkSubst { s_at : Z; DriveAlias : bytes; Target : bytes }.
Record tCds := mkCds { c_at : Z; CdsDrive : bytes; CurDir : bytes }.

(** [struct JftEntry] and [struct Search] of [jft.c]. *)
Record JftEntry := mkJftEntry { j_request : fd32_request_t; j_file : Z; j_search : Z }.
#[export] Instance JftEntry_eta : Eta JftEntry := λ r, mkJftEntry (j_request r) (j_file r) (j_search r).
Record Search := mkSearch { sr_flags : Z; sr_name : bytes }.
#[export] Instance Search_eta : Eta Search := λ r, mkSearch (sr_flags r) (sr_name r).

(** The static data of the four files, the job file table and the list of current
    directories of the current process, and the memory of the open searches. *)
Record kernel (W : Type) := mkKernel {
  k_world : W;
  drives : list Drive;
  BootDevice : Z;
  DefaultDrive : Z;
  fsreq : list fd32_request_t;
  SubstList : list tSubst;
  CdsList : list tCds;
  jft : list JftEntry;
  searches : gmap Z Search;
  searches_cache : Slab.SlabCache;
  searches_open : list Z;
  k_words : gmap Z Z;
  k_pages : list Z }.
Arguments mkKernel {W}. Arguments k_world {W}. Arguments drives {W}. Arguments BootDevice {W}.
Arguments DefaultDrive {W}. Arguments fsreq {W}. Arguments SubstList {W}. Arguments CdsList {W}.
Arguments jft {W}. Arguments searches {W}. Arguments searches_cache {W}. Arguments searches_open {W}.
Arguments k_words {W}. Arguments k_pages {W}.
#[export] Instance kernel_eta W : Eta (kernel W) := λ r,
  mkKernel (k_world r) (drives r) (BootDevice r) (DefaultDrive r) (fsreq r) (SubstList r) (CdsList r)
    (jft r) (searches r) (searches_cache r) (searches_open r) (k_words r) (k_pages r).

Section calls.
Context {W : Type} `{KernelWorld W}.
Notation KM := (M (kernel W)).

(** A call that only the world sees. *)
Definition kcall {A} (f : W → A * W) : KM A :=
  r ← gets (λ s, f (k_world s)); modify (λ s, s <| k_world := snd r |>);; mret (fst r).

(** [r(function, &params)] of a driver. *)
Definition call_driver (address volume : Z) (r : request) : KM (Z * reply) :=
  λ s, match driver address volume r (k_world s) with
       | Done a w => Done a (s <| k_world := w |>)
       | Fault => Fault
       | NoFuel => NoFuel
       end.

(** ** The request functions of the layer ([jft.c]) *)

(** The characters of a string before its null. *)
Fixpoint cstring (l : bytes) : bytes :=
  match l with
  | [] => []
  | c :: l => if nz c then c :: cstring l else []
  end.

(** [while (count > 0)]: pieces of at most 254 characters. *)
Fixpoint console_loop (k : nat) (buffer : bytes) (count : Z) : KM () :=
  match k with
  | O => mret ()
  | S k =>
      if count <=? 0 then mret ()
      else
        let n := Z.min 254 count in
        if in_block buffer 0 n then
          modify (λ s, s <| k_world ::= cputs (cstring (slice buffer 0 n)) |>);;
          console_loop k (drop (Z.to_nat n) buffer) (count - n)
        else fault
  end.
Definition fake_console_write (buffer : option bytes) (size : Z) : KM Z :=
  (if 0 <? size then b ← deref buffer; console_loop (Z.to_nat size) b size else mret ());;
  mret size.

Definition fake_console_request (function : request) : KM (Z * reply) :=
  match function with
  | FD32_WRITE _ buffer n => res ← fake_console_write buffer (s32 n); mret (res, RNothing)
  | FD32_CLOSE _ => mret (0, RNothing)
  | _ => mret (- ENOTSUP, RNothing)
  end.

Definition dummy_request (function : request) : KM (Z * reply) :=
  match function with
  | FD32_CLOSE _ => mret (0, RNothing)
  | _ => mret (- ENOTSUP, RNothing)
  end.

(** [request(function, &params)] *)
Definition call_request (r : fd32_request_t) (volume : Z) (function : request) : KM (Z * reply) :=
  match r with
  | NoRequest => fault
  | FakeConsole => fake_console_request function
  | DummyRequest => dummy_request function
  | DriverRequest a => call_driver a volume function
  end.
End calls.

(** The identifier a request stores. *)
Definition opened (r : reply) : Z := match r with RHandle c => c | _ => 0 end.

(** [strchr(s, c)], as an offset; a string is its characters before the null. *)
Fixpoint strchr (s : bytes) (c : Z) : option nat :=
  match s with
  | [] => None
  | x :: s => if x =? c then Some O else option_map S (strchr s c)
  end.

(** Copying a string into an array of [n] characters: a fault if it does not fit
    with its null. *)
Definition fits {S} (n : nat) (s : bytes) : M S () :=
  if bool_decide (length s < n)%nat then mret () else fault.
