(* ===== verification/FsDrives.v ===== *)
(** Drives and their letters ([src/fd32/filesys/drives.c]). *)
From S2P Require Import Prelude Errno Lists Nls Slab Devices.
From S2P Require Import FatTypes FatFile FatDos FatVolume FatRequest KernelFs.

Definition NULBOOTDEV : Z := 0xFFFFFFFF.
Definition DRIVE_MAX_NUM : Z := 26.
Definition NumFSReq : nat := 20.

Definition BLOCK_DEVICE_INFO_PARTID : Z := 0xFF.
Definition BLOCK_DEVICE_INFO_TYPEMASK : Z := Z.shiftl 15 8.
Definition BLOCK_DEVICE_INFO_TACTIVE : Z := Z.shiftl 1 8.
Definition BLOCK_DEVICE_INFO_TLOGICAL : Z := Z.shiftl 2 8.
Definition BLOCK_DEVICE_INFO_TPRIMARY : Z := Z.shiftl 3 8.
Definition BLOCK_DEVICE_INFO_TFLOPPY : Z := Z.shiftl 4 8.
Definition BLOCK_DEVICE_INFO_TCDDVD : Z := Z.shiftl 5 8.

Definition no_drive : Drive := mkDrive None NoRequest 0 0 0.

Section drives.
Context {W : Type} `{KernelWorld W} `{Fuel}.
Notation KM := (M (kernel W)).

(** [drives[i]] *)
Definition drive (i : Z) : KM Drive :=
  x ← gets (λ s, if i <? 0 then None else drives s !! Z.to_nat i); deref x.
Definition set_drive (i : Z) (f : Drive → Drive) : KM () :=
  x ← drive i; modify (λ s, s <| drives ::= <[Z.to_nat i := f x]> |>).

Definition is_assigned (d : Drive) : bool := bool_decide (is_Some (blk_name d)).

(** [for (res = 0; res < NumFSReq; res++)]: some driver handles the partition. *)
Fixpoint partition_handled (rs : list fd32_request_t) (partid : Z) : KM bool :=
  match rs with
  | [] => mret false
  | r :: rs =>
      ok ← (if is_null r then mret false
            else x ← call_request r 0 (FD32_PARTCHECK partid); mret (x.1 =? 0));
      if (ok : bool) then mret true else partition_handled rs partid
  end.

(** [while (drives[d].blk_name) if (d++ == 'Z' - 'A') return -ENODEV] *)
Fixpoint next_letter (n : nat) (d : Z) : KM (option Z) :=
  match n with
  | O => nofuel
  | S n =>
      x ← drive d;
      if negb (is_assigned x) then mret (Some d)
      else if d =? 90 - 65 then mret None
      else next_letter n (d + 1)
  end.

(** The iteration of the loop of [dynamic_assign] for one device; [None] to return
    -ENODEV, else the drive number to go on with. *)
Definition assign_device (type : Z) (name : bytes) (d : Z) : KM (option Z) :=
  r ← kcall (block_get (Some name));
  let '(res, (bops, h)) := r in
  if res <? 0 then mret (Some d)
  else
    r ← kcall (get_device_info bops h);
    let '(res, bdi) := r in
    kcall (req_release bops);;
    if res <? 0 then mret (Some d)
    else
      ds ← gets drives;
      if existsb (λ x, handle x =? h) ds then mret (Some d)
      else if negb (Z.land (bdi_flags bdi) BLOCK_DEVICE_INFO_TYPEMASK =? type) then mret (Some d)
      else
        let partid := Z.land (bdi_flags bdi) BLOCK_DEVICE_INFO_PARTID in
        fs ← gets fsreq;
        ok ← (if nz partid then partition_handled fs partid else mret true);
        if negb ok then mret (Some d)
        else
          r ← next_letter (Z.to_nat DRIVE_MAX_NUM) d;
          match r with
          | None => mret None
          | Some d =>
              set_drive d (λ x, x <| blk_name := Some name |>);;
              set_drive d (λ x, x <| req := NoRequest |> <| handle := 0 |> <| dos_dpb := 0 |>);;
              set_drive d (λ x, x <| dev_info := bdi_flags bdi |>);;
              def ← gets DefaultDrive;
              boot ← gets BootDevice;
              (if negb (nz def) && ((boot =? NULBOOTDEV) || (boot =? bdi_multiboot_id bdi))
               then modify (λ s, s <| DefaultDrive := d + 65 |>) else mret ());;
              mret (Some d)
          end.

Fixpoint dynamic_assign_from (n : nat) (type d iterator : Z) : KM Z :=
  match n with
  | O => nofuel
  | S n =>
      r ← gets (λ s, block_enumerate iterator (k_world s));
      match r with
      | (None, _) => mret 0
      | (Some name, iterator) =>
          r ← assign_device type name d;
          match r with
          | None => mret (- ENODEV)
          | Some d => dynamic_assign_from n type d iterator
          end
      end
  end.
Definition dynamic_assign (type d : Z) : KM Z := dynamic_assign_from fuel type d 0.

(** All drives are forgotten first, the mounted ones as well. *)
Definition assign_drive_letters : KM Z :=
  modify (λ s, s <| drives := replicate (Z.to_nat DRIVE_MAX_NUM) no_drive |>);;
  dynamic_assign BLOCK_DEVICE_INFO_TACTIVE (67 - 65);;
  dynamic_assign BLOCK_DEVICE_INFO_TLOGICAL (67 - 65);;
  dynamic_assign BLOCK_DEVICE_INFO_TPRIMARY (67 - 65);;
  dynamic_assign BLOCK_DEVICE_INFO_TFLOPPY (65 - 65);;
  dynamic_assign BLOCK_DEVICE_INFO_TCDDVD (68 - 65);;
  mret 0.

(** [for (k = 0; k < NumFSReq; k++)]: the result to return, or [None] with the drive
    mounted by one of the drivers. *)
Fixpoint mount_drive (rs : list fd32_request_t) (i : Z) (blk : bytes) : KM (option Z) :=
  match rs with
  | [] => mret (Some (- ENODEV))
  | r :: rs =>
      if is_null r then mount_drive rs i blk
      else
        x ← call_request r 0 (FD32_MOUNT blk);
        let '(res, rep) := x in
        if res =? 0 then
          set_drive i (λ x, x <| req := r |> <| handle := opened rep |>);;
          mret None
        else if negb (res =? - ENODEV) then mret (Some res)
        else mount_drive rs i blk
  end.

(** The drive a file name is on, and the name without the drive. *)
Definition drive_letter (default : Z) (FileSpec : bytes) : option (Z * bytes) :=
  match strchr FileSpec 58 with
  | None => Some (default, FileSpec)
  | Some colon =>
      if negb (Nat.eqb colon 1) then None
      else
        let letter := CString.toupper (byte_at FileSpec 0) in
        if (letter <? 65) || (90 <? letter) then None
        else Some (letter, drop 2 FileSpec)
  end.

(** Returns the letter or an error, the request function, the volume and the
    path. *)
Definition fd32_get_drive (FileSpec : bytes) : KM (Z * (fd32_request_t * Z * bytes)) :=
  let fail e := mret (e, (NoRequest, 0, [])) in
  def ← gets DefaultDrive;
  match drive_letter def FileSpec with
  | None => fail (- ENODEV)
  | Some (letter, path) =>
      x ← drive (letter - 65);
      match blk_name x with
      | None => fail (- ENODEV)
      | Some blk =>
          fs ← gets fsreq;
          e ← (if is_null (req x) then mount_drive fs (letter - 65) blk else mret None);
          match e with
          | Some e => fail e
          | None => x ← drive (letter - 65); mret (letter, (req x, handle x, path))
          end
      end
  end.

(** [for (i = 0; i < DRIVE_MAX_NUM; i++)]; [strcmp] with the null name of a drive
    without device is a fault. *)
Fixpoint drive_letter_from (ds : list Drive) (device_name : bytes) (i : Z) : KM Z :=
  match ds with
  | [] => mret 0
  | x :: ds =>
      name ← deref (blk_name x);
      if bool_decide (device_name = name) then mret (65 + i)
      else drive_letter_from ds device_name (i + 1)
  end.
Definition fd32_get_drive_letter (device_name : bytes) : KM Z :=
  ds ← gets drives; drive_letter_from ds device_name 0.

(** The index is not converted to upper case. *)
Definition fd32_set_default_drive (d : Z) : KM Z :=
  let u := CString.toupper d in
  if (u <? 65) || (90 <? u) then mret (- ENODEV)
  else
    x ← drive (d - 65);
    (if is_assigned x then modify (λ s, s <| DefaultDrive := u |>) else mret ());;
    mret (90 - 65 + 1).

Definition fd32_get_default_drive : KM Z := gets DefaultDrive.

(** [for (k = 0; k < NumFSReq; k++) if (!fsreq[k])] *)
Fixpoint free_fsreq (rs : list fd32_request_t) : option nat :=
  match rs with
  | [] => None
  | r :: rs => if is_null r then Some O else option_map S (free_fsreq rs)
  end.
Definition fd32_add_fs (r : fd32_request_t) : KM Z :=
  fs ← gets fsreq;
  match free_fsreq fs with
  | Some k => modify (λ s, s <| fsreq ::= <[k := r]> |>);; assign_drive_letters
  | None => mret (- ENOMEM)
  end.

Definition fd32_set_boot_device (MultiBootId : Z) : KM () :=
  modify (λ s, s <| BootDevice := MultiBootId |>).

Definition fd32_get_block_dev_info (DriveNum : Z) : KM Z :=
  if DriveNum <? DRIVE_MAX_NUM then x ← drive DriveNum; mret (dev_info x) else mret (- EINVAL).

(** The device of a drive, claimed around an operation. *)
Definition with_device {A} (d : Z) (fail : A) (k : Z → Z → KM A) : KM A :=
  x ← drive (d - 65);
  r ← kcall (block_get (blk_name x));
  let '(res, (bops, h)) := r in
  if res =? 0 then
    kcall (dev_open bops h);;
    a ← k bops h;
    kcall (dev_close bops h);;
    kcall (req_release bops);;
    mret a
  else mret fail.

Definition fd32_drive_read (d start count : Z) : KM (Z * bytes) :=
  with_device d (- ENOTBLK, []) (λ bops h, kcall (dev_read bops h start count)).
Definition fd32_drive_write (d : Z) (buffer : bytes) (start count : Z) : KM Z :=
  with_device d (- ENOTBLK) (λ bops h, kcall (dev_write bops h buffer start count)).
Definition fd32_drive_get_sector_size (d : Z) : KM Z :=
  with_device d 0 (λ bops h, r ← kcall (get_medium_info bops h); mret (bmi_block_bytes r.2)).
Definition fd32_drive_get_sector_count (d : Z) : KM Z :=
  with_device d 0 (λ bops h, r ← kcall (get_medium_info bops h); mret (u32 (bmi_blocks_count r.2))).

Definition fd32_drive_count : KM Z :=
  gets (λ s, Z.of_nat (length (List.filter is_assigned (drives s)))).

(** [for (; i < DRIVE_MAX_NUM; i++) if (drives[i].blk_name) return 'A' + i] *)
Fixpoint assigned_from (ds : list Drive) (i : Z) : Z :=
  match ds with
  | [] => 0
  | x :: ds => if is_assigned x then 65 + i else assigned_from ds (i + 1)
  end.
Definition fd32_drive_get_first : KM Z := gets (λ s, assigned_from (drives s) 0).
Definition fd32_drive_get_next (d : Z) : KM Z :=
  let i := u32 (d - 65 + 1) in gets (λ s, assigned_from (drop (Z.to_nat i) (drives s)) i).

Definition fd32_drive_set_parameter_block (d p : Z) : KM () := set_drive (d - 65) (λ x, x <| dos_dpb := p |>).
Definition fd32_drive_get_parameter_block (d : Z) : KM Z := x ← drive (d - 65); mret (dos_dpb x).
End drives.
