(* ===== verification/FsPath.v ===== *)
(** Canonical path names, SUBSTed drives and current directories
    ([src/fd32/filesys/truename.c]).

    A string is its characters before the null; a character pointer into a buffer
    that is filled from its start is the list of the characters before it, and
    storing past the end of the buffer is a fault. *)
From S2P Require Import Prelude Errno Lists Nls Slab Devices.
From S2P Require Import FatTypes FatFile FatOpen FatDos FatVolume FatRequest KernelFs FsDrives.

Definition BACKSLASH : Z := 92.
Definition is_slash (c : Z) : bool := (c =? 92) || (c =? 47).

Definition sizeof_tSubst : Z := 524.
Definition sizeof_tCds : Z := 524.

(** * Canonicalization *)

(** [*pAux++ = c] in [char Aux[FD32_LFNPMAX]]. *)
Definition put (aux : bytes) (c : Z) : option bytes :=
  if bool_decide (length aux < FD32_LFNPMAX)%nat then Some (aux ++ [c]) else None.

(** [for (; ( *pAux = *s); pAux++, s++)]: the null is stored as well. *)
Fixpoint put_string (aux s : bytes) : option bytes :=
  match s with
  | [] => _ ← put aux 0; Some aux
  | c :: s => aux ← put aux c; put_string aux s
  end.

(** [*(pAux - k)]: a fault before the start of the buffer. *)
Definition before (aux : bytes) (k : nat) : option Z :=
  if bool_decide (k ≤ length aux)%nat then aux !! (length aux - k)%nat else None.

(** The drive specification: the drive and the rest after the colon; [Drive] is a
    buffer of [FD32_LFNPMAX] characters. *)
Definition split_drive (default_drive : Z) (source : bytes) : option (bytes * bytes) :=
  let n := default (length source) (strchr source 58) in
  if bool_decide (n < FD32_LFNPMAX)%nat then
    match strchr source 58 with
    | None => Some (if nz default_drive then [default_drive] else [], source)
    | Some n => Some (take n source, drop (S n) source)
    end
  else None.

(** [for (S = SubstList; S; S = S->Next)] *)
Definition find_subst (l : list tSubst) (d : bytes) : option tSubst :=
  List.find (λ x, CString.strcasecmp (DriveAlias x) d =? 0) l.
Definition find_cds (l : list tCds) (d : bytes) : option tCds :=
  List.find (λ x, CString.strcasecmp (CdsDrive x) d =? 0) l.

(** [fd32_getcwd]: it returns 0 always. *)
Definition getcwd (l : list tCds) (d : bytes) : bytes :=
  match find_cds l d with Some c => CurDir c | None => [BACKSLASH] end.

(** Up to the root: the drive, or the target of its alias without the trailing
    backslash. *)
Definition root_start (subst : list tSubst) (d : bytes) (Flags : Z) : option bytes :=
  _ ← (if bool_decide (length d < FD32_LFNPMAX)%nat then Some () else None);
  match (if has Flags FD32_TNSUBST then find_subst subst d else None) with
  | Some x =>
      let t := Target x in
      _ ← (if bool_decide (length t ≤ FD32_LFNPMAX)%nat then Some () else None);
      c ← before t 1;
      Some (if c =? BACKSLASH then take (length t - 1) t else t)
  | None => Some (d ++ [58])
  end.

(** The next component and the rest, past one slash. *)
Fixpoint next_partial (source : bytes) : bytes * bytes :=
  match source with
  | [] => ([], [])
  | c :: source =>
      if is_slash c then ([], source)
      else let '(comp, rest) := next_partial source in (c :: comp, rest)
  end.

(** The number of dots of a component of dots only, else 0. *)
Definition dots (comp : bytes) : nat := if forallb (λ c, c =? 46) comp then length comp else O.

(** [for (;;)]: back from [pAux] to the root; [inr] for -ENOTDIR. *)
Fixpoint rewind (n : nat) (aux : bytes) (root : nat) (Dots : nat) : option (bytes + unit) :=
  match n with
  | O => None
  | S n =>
      c ← before aux 1;
      let Dots := if c =? BACKSLASH then (Dots - 1)%nat else Dots in
      if Nat.eqb Dots 0 then Some (inl aux)
      else
        let aux := take (length aux - 1) aux in
        if Nat.eqb (length aux) root then Some (inr ()) else rewind n aux root Dots
  end.

(** [for (Dots--; Dots; Dots--)]: the dots as so many [..\]. *)
Fixpoint put_updirs (n : nat) (aux : bytes) : option bytes :=
  match n with
  | O => Some aux
  | S n => aux ← put aux 46; aux ← put aux 46; aux ← put aux BACKSLASH; put_updirs n aux
  end.

(** One component. *)
Definition put_component (aux comp : bytes) (root : nat) (Flags : Z) : option (bytes + unit) :=
  match dots comp with
  | O => aux ← put_string aux comp; aux ← put aux BACKSLASH; Some (inl aux)
  | S k =>
      if has Flags FD32_TNDOTS then
        if Nat.eqb k 0 then Some (inl aux) else rewind (S (length aux)) aux root (S k)
      else aux ← put_updirs k aux; Some (inl aux)
  end.

(** [while ( *Source)]: every iteration consumes a character. [Comp] is a buffer of
    [FD32_LFNMAX] characters. *)
Fixpoint truename_loop (n : nat) (aux source : bytes) (root : nat) (Flags : Z) : option (bytes + unit) :=
  match source, n with
  | [], _ => Some (inl aux)
  | _ :: _, O => None
  | _ :: _, S n =>
      let '(comp, rest) := next_partial source in
      if negb (bool_decide (length comp < FD32_LFNMAX)%nat) then None
      else match comp with
      | [] => truename_loop n aux rest root Flags
      | _ :: _ =>
          r ← put_component aux comp root Flags;
          match r with
          | inl aux => truename_loop n aux rest root Flags
          | inr () => Some (inr ())
          end
      end
  end.

(** A relative path starts with the current directory, copied through [Comp], and a
    backslash after it. *)
Definition put_cwd (cds : list tCds) (d aux : bytes) : option bytes :=
  let cwd := getcwd cds d in
  if negb (bool_decide (length cwd < FD32_LFNMAX)%nat) then None
  else
    aux ← put_string aux cwd;
    l ← before aux 1;
    if l =? BACKSLASH then Some aux else put aux BACKSLASH.

(** [byte_at source 0] is the null at the end of the string. *)
Definition start_path (cds : list tCds) (d aux source : bytes) : option (bytes * bytes) :=
  if is_slash (byte_at source 0) then aux ← put aux BACKSLASH; Some (aux, tail source)
  else aux ← put_cwd cds d aux; Some (aux, source).

(** The trailing backslash goes, but for the one of a root, and a null is stored. *)
Definition finish_path (aux : bytes) : option bytes :=
  c ← before aux 1;
  c2 ← before aux 2;
  let aux := if (c =? BACKSLASH) && negb (c2 =? 58) then take (length aux - 1) aux else aux in
  _ ← put aux 0;
  Some aux.

(** The result and [Dest]; [None] for an access outside a buffer. *)
Definition truename (default_drive : Z) (subst : list tSubst) (cds : list tCds) (source : bytes) (Flags : Z)
    : option (Z * bytes) :=
  p ← split_drive default_drive source;
  let '(d, source) := p in
  root ← root_start subst d Flags;
  p ← start_path cds d root source;
  let '(aux, source) := p in
  r ← truename_loop (length source) aux source (length root) Flags;
  match r with
  | inl aux => aux ← finish_path aux; Some (0, aux)
  | inr () => Some (- ENOTDIR, [])
  end.

Section path.
Context {W : Type} `{KernelWorld W} `{Fuel}.
Notation KM := (M (kernel W)).

Definition fd32_truename (source : bytes) (Flags : Z) : KM (Z * bytes) :=
  r ← gets (λ s, truename (DefaultDrive s) (SubstList s) (CdsList s) source Flags); deref r.

Definition fd32_getcwd (d : bytes) : KM (Z * bytes) :=
  l ← gets (λ s, getcwd (CdsList s) d); mret (0, l).

(** * SUBSTed drives *)

(** Whether a directory can be opened: [for (;;)] until it is no longer reported as
    not mounted, and the result. *)
Fixpoint open_directory (n : nat) (name : bytes) : KM (Z * (fd32_request_t * Z * Z)) :=
  match n with
  | O => nofuel
  | S n =>
      r ← fd32_get_drive name;
      let '(res, (r, v, path)) := r in
      if res <? 0 then mret (res, (r, v, 0))
      else
        x ← call_request r v (FD32_OPENFILE path (Z.lor O_RDONLY O_DIRECTORY) 0);
        let '(res, rep) := x in
        if res =? - ENOTMOUNT then open_directory n name
        else mret (res, (r, v, opened rep))
  end.

Definition fd32_create_subst (alias target : bytes) : KM Z :=
  x ← open_directory fuel target;
  let '(res, (r, v, file)) := x in
  guard_ret (res <? 0) res (
  x ← call_request r v (FD32_CLOSE file);
  guard_ret (x.1 <? 0) x.1 (
  a ← kcall (kmem_get sizeof_tSubst);
  guard_ret (negb (nz a)) (- ENOMEM) (
  fits FD32_LFNPMAX alias;;
  fits FD32_LFNPMAX target;;
  modify (λ s, s <| SubstList ::= cons (mkSubst a alias target) |>);;
  mret 0))).

(** [for (PrevS = NULL, S = SubstList; S; PrevS = S, S = S->Next)]: the list without
    the first entry of the alias, and that entry. *)
Fixpoint unlink_subst (l : list tSubst) (alias : bytes) : option (tSubst * list tSubst) :=
  match l with
  | [] => None
  | x :: l =>
      if CString.strcasecmp (DriveAlias x) alias =? 0 then Some (x, l)
      else match unlink_subst l alias with Some (y, l) => Some (y, x :: l) | None => None end
  end.
Definition fd32_terminate_subst (alias : bytes) : KM Z :=
  l ← gets SubstList;
  match unlink_subst l alias with
  | Some (x, l) =>
      modify (λ s, s <| SubstList := l |>);;
      kcall (kmem_free (s_at x) sizeof_tSubst);;
      mret 0
  | None => mret (- ENODEV)
  end.

Definition fd32_query_subst (alias : bytes) : KM (Z * bytes) :=
  l ← gets SubstList;
  match find_subst l alias with Some x => mret (0, Target x) | None => mret (- ENODEV, []) end.

(** * Current directories *)

(** [strcpy(D->CurDir, ...)] in the first entry of the drive. *)
Fixpoint set_curdir (l : list tCds) (d dir : bytes) : list tCds :=
  match l with
  | [] => []
  | x :: l =>
      if CString.strcasecmp (CdsDrive x) d =? 0 then mkCds (c_at x) (CdsDrive x) dir :: l
      else x :: set_curdir l d dir
  end.

(** The loop that updates an entry only ends at a [break]: a new entry is put in
    front always. *)
Definition fd32_chdir (DirName : bytes) : KM Z :=
  x ← fd32_truename DirName FD32_TNSUBST;
  let '(res, aux) := x in
  guard_ret (res <? 0) res (
  x ← open_directory fuel aux;
  let '(res, (r, v, file)) := x in
  guard_ret (negb (res =? FD32_OROPEN)) res (
  call_request r v (FD32_CLOSE file);;
  x ← fd32_truename DirName FD32_TNDOTS;
  let '(res, aux) := x in
  guard_ret (res <? 0) res (
  n ← deref (strchr aux 58);
  let d := take n aux in
  fits FD32_LFNMAX d;;
  let dir := drop (S n) aux in
  modify (λ s, s <| CdsList ::= λ l, set_curdir l d dir |>);;
  a ← kcall (kmem_get sizeof_tCds);
  guard_ret (negb (nz a)) (- ENOMEM) (
  modify (λ s, s <| CdsList ::= cons (mkCds a d dir) |>);;
  mret 0)))).
End path.
