(* ===== verification/FsCalls.v ===== *)
(** The calls of the file system layer that name a file, and the wrappers of the
    requests about an open file ([src/fd32/filesys/fs.c]). *)
From S2P Require Import Prelude Errno Lists Nls Slab Devices.
From S2P Require Import FatTypes FatFile FatDos FatVolume FatRequest KernelFs FsDrives FsPath.

Section calls.
Context {W : Type} `{KernelWorld W} `{Fuel}.
Notation KM := (M (kernel W)).

(** [for (;;)]: the drive of the canonical name [aux] is asked for, and the request
    made to its driver with the rest of the name, until the result is not
    -ENOTMOUNT. *)
Fixpoint on_drive (n : nat) (aux : bytes) (k : bytes → request) : KM (Z * (fd32_request_t * reply)) :=
  match n with
  | O => nofuel
  | S n =>
      x ← fd32_get_drive aux;
      let '(res, (r, v, path)) := x in
      guard_ret (res <? 0) (res, (NoRequest, RNothing)) (
      x ← call_request r v (k path);
      let '(res, rep) := x in
      if negb (res =? - ENOTMOUNT) then mret (res, (r, rep)) else on_drive n aux k)
  end.

(** The name made canonical first. *)
Definition on_name (name : bytes) (k : bytes → request) : KM (Z * (fd32_request_t * reply)) :=
  x ← fd32_truename name FD32_TNSUBST;
  let '(res, aux) := x in
  guard_ret (res <? 0) (res, (NoRequest, RNothing)) (on_drive fuel aux k).

(** Returns the result, the request function and the file. *)
Definition fs_open (file_name : bytes) (mode attr : Z) : KM (Z * (fd32_request_t * Z)) :=
  x ← on_name file_name (λ path, FD32_OPENFILE path mode attr);
  let '(res, (r, rep)) := x in
  mret (res, (r, opened rep)).

Definition fs_close (r : fd32_request_t) (file : Z) : KM Z :=
  x ← call_request r 0 (FD32_CLOSE file); mret x.1.
Definition fs_fflush (r : fd32_request_t) (file : Z) : KM Z :=
  x ← call_request r 0 (FD32_FFLUSH file); mret x.1.
Definition fs_read (r : fd32_request_t) (file : Z) (buffer : bool) (count : Z) : KM (Z * reply) :=
  call_request r 0 (FD32_READ file buffer count).
Definition fs_write (r : fd32_request_t) (file : Z) (buffer : option bytes) (count : Z) : KM Z :=
  x ← call_request r 0 (FD32_WRITE file buffer count); mret x.1.

Definition fd32_unlink (file_name : bytes) : KM Z :=
  x ← on_name file_name FD32_UNLINK; mret x.1.

(** A reply without an offset leaves the one that was asked for. *)
Definition fs_lseek (r : fd32_request_t) (file offset whence : Z) : KM Z :=
  x ← call_request r 0 (FD32_LSEEK file offset whence);
  let '(res, rep) := x in
  guard_ret (res <? 0) res (mret match rep with ROffset p => p | _ => offset end).

Definition fs_get_attributes (r : fd32_request_t) (file : Z) (a : fd32_fs_attr_t) : KM (Z * reply) :=
  call_request r 0 (FD32_GETATTR file a).
Definition fs_set_attributes (r : fd32_request_t) (file : Z) (a : fd32_fs_attr_t) : KM Z :=
  x ← call_request r 0 (FD32_SETATTR file a); mret x.1.

Fixpoint rename_loop (n : nat) (aux_old aux_new : bytes) : KM Z :=
  match n with
  | O => nofuel
  | S n =>
      x ← fd32_get_drive aux_old;
      let '(res, (request_old, dev_old, old)) := x in
      guard_ret (res <? 0) res (
      x ← fd32_get_drive aux_new;
      let '(res, (request_new, dev_new, new)) := x in
      guard_ret (res <? 0) res (
      guard_ret (negb (bool_decide (request_old = request_new)) || negb (dev_old =? dev_new)) (- EXDEV) (
      x ← call_request request_old dev_old (FD32_RENAME old new);
      if negb (x.1 =? - ENOTMOUNT) then mret x.1 else rename_loop n aux_old aux_new)))
  end.
Definition fd32_rename (old_name new_name : bytes) : KM Z :=
  x ← fd32_truename old_name FD32_TNSUBST;
  let '(res, aux_old) := x in
  guard_ret (res <? 0) res (
  x ← fd32_truename new_name FD32_TNSUBST;
  let '(res, aux_new) := x in
  guard_ret (res <? 0) res (rename_loop fuel aux_old aux_new)).

Definition fd32_get_fsinfo (pathname : bytes) (fsinfo : fd32_fs_info_t) : KM (Z * reply) :=
  x ← on_name pathname (λ _, FD32_GETFSINFO fsinfo); mret (x.1, x.2.2).
Definition fd32_get_fsfree (pathname : bytes) (fsfree : fd32_getfsfree_t) : KM (Z * reply) :=
  x ← fd32_truename pathname FD32_TNSUBST;
  let '(res, aux) := x in
  guard_ret (res <? 0) (res, RNothing) (
  guard_ret (ff_Size fsfree <? sizeof_fsfree) (- EINVAL, RNothing) (
  x ← on_drive fuel aux (λ _, FD32_GETFSFREE fsfree); mret (x.1, x.2.2))).

Definition fd32_mkdir (dir_name : bytes) : KM Z :=
  x ← on_name dir_name FD32_MKDIR; mret x.1.
Definition fd32_rmdir (dir_name : bytes) : KM Z :=
  x ← on_name dir_name FD32_RMDIR; mret x.1.
End calls.
