(* ===== verification/Jft.v ===== *)
(** The job file table of a process: open files by handle, and directory searches
    ([src/fd32/filesys/jft.c], and the short canonical names of [truename.c], which
    are found with searches).

    [fd32_get_jft] of the kernel gives the table of the current process: it is the
    field [jft] of the state. *)
From S2P Require Import Prelude Errno Lists Nls Slab Devices.
From S2P Require Import FatTypes FatFile FatOpen FatDos FatVolume FatRequest KernelFs FsDrives FsPath FsCalls.

Definition FD32_GET_DEV_INFO : Z := 0x217.
Definition FD32_FRNONE : Z := Z.shiftl FD32_ANONE 8.
Definition FD32_FAALL : Z := 0x3F.
Definition sizeof_JftEntry : Z := 12.

Definition free_entry : JftEntry := mkJftEntry NoRequest 0 0.
Definition is_open (j : JftEntry) : bool := negb (is_null (j_request j)).

(** * Making and freeing a table *)

Section tables.
Context {W : Type} `{KernelMemory W}.
Notation DM := (M (Devices.devices W)).

#[local] Existing Instance Devices.devices_eta.

Definition name_of (s : string) : bytes := map (λ c, Z.of_N (Ascii.N_of_ascii c)) (String.list_ascii_of_string s).

(** The entry of a standard device: what the device manager stores for it, or the
    request function [fake]. *)
Definition standard_entry (name : string) (fake : fd32_request_t) : DM JftEntry :=
  hDev ← Devices.fd32_dev_search (name_of name);
  if hDev <? 0 then mret (free_entry <| j_request := fake |>)
  else
    x ← Devices.fd32_dev_get hDev 0;
    match x.2 with
    | Some (r, id, _) => mret (mkJftEntry (DriverRequest r) id 0)
    | None => mret free_entry
    end.

(** The address of the table, null for an error, and its entries. *)
Definition fd32_init_jft (jft_size : Z) : DM (Z * list JftEntry) :=
  guard_ret (jft_size <? 5) (0, []) (
  r ← gets (λ s, kmem_get (u32 (sizeof_JftEntry * jft_size)) (Devices.dev_world s));
  modify (λ s, s <| Devices.dev_world := snd r |>);;
  guard_ret (negb (nz (fst r))) (0, []) (
  con ← standard_entry "con" FakeConsole;
  aux ← standard_entry "aux" DummyRequest;
  prn ← standard_entry "prn" DummyRequest;
  mret (fst r, [con; con; con; aux; prn] ++ replicate (Z.to_nat (jft_size - 5)) free_entry))).
End tables.

Section jft.
Context {W : Type} `{KernelWorld W} `{Fuel}.
Notation KM := (M (kernel W)).

(** [fd32_abort] does not return. *)
Definition fd32_free_jft (p jft_size : Z) : KM () :=
  res ← kcall (kmem_free p (u32 (sizeof_JftEntry * jft_size)));
  if nz res then fault else mret ().

(** * Handles *)

Definition entry (fd : Z) : KM (option JftEntry) :=
  gets (λ s, if fd <? 0 then None else jft s !! Z.to_nat fd).
Definition set_entry (fd : Z) (f : JftEntry → JftEntry) : KM () :=
  x ← entry fd; x ← deref x;
  modify (λ s, s <| jft ::= <[Z.to_nat fd := f x]> |>).

(** The entry of a handle that is open, for a file or for a search. *)
Definition open_entry (fd : Z) : KM (option JftEntry) :=
  x ← entry fd;
  mret match x with Some j => if is_open j then Some j else None | None => None end.
Definition validate_file_handle (fd : Z) : KM (option JftEntry) :=
  x ← open_entry fd;
  mret match x with Some j => if nz (j_search j) then None else Some j | None => None end.
Definition validate_search_handle (fd : Z) : KM (option JftEntry) :=
  x ← open_entry fd;
  mret match x with Some j => if nz (j_search j) then Some j else None | None => None end.

(** [if (!j) return -EBADF; ...] *)
Definition with_file {A} (fd : Z) (bad : A) (k : JftEntry → KM A) : KM A :=
  x ← validate_file_handle fd;
  match x with None => mret bad | Some j => k j end.

Definition fd32_get_dev_info (fd : Z) : KM Z :=
  with_file fd (- EBADF) (λ j,
    if negb (nz (j_file j)) then x ← call_request (j_request j) 0 (FD32_OTHER FD32_GET_DEV_INFO); mret x.1
    else d ← fd32_get_default_drive; mret (d - 65)).
Definition fd32_set_dev_info (fd devinfo : Z) : KM Z := mret 0.

(** The result and the offset stored. *)
Definition fd32_lseek (fd offset whence : Z) : KM (Z * option Z) :=
  with_file fd (- EBADF, None) (λ j,
    res ← fs_lseek (j_request j) (j_file j) offset whence;
    guard_ret (res <? 0) (s32 res, None) (mret (0, Some res))).

Definition fd32_read (fd : Z) (buffer : bool) (size : Z) : KM (Z * reply) :=
  with_file fd (- EBADF, RNothing) (λ j, fs_read (j_request j) (j_file j) buffer size).

(** The standard output and the standard error output work even when closed. *)
Definition fd32_write (fd : Z) (buffer : option bytes) (size : Z) : KM Z :=
  x ← validate_file_handle fd;
  match x with
  | None => if (fd =? 1) || (fd =? 2) then fake_console_write buffer size else mret (- EBADF)
  | Some j => fs_write (j_request j) (j_file j) buffer size
  end.

Definition fd32_set_attributes (fd : Z) (p : fd32_fs_attr_t) : KM Z :=
  with_file fd (- EBADF) (λ j, fs_set_attributes (j_request j) (j_file j) p).
Definition fd32_get_attributes (fd : Z) (p : fd32_fs_attr_t) : KM (Z * reply) :=
  with_file fd (- EBADF, RNothing) (λ j, fs_get_attributes (j_request j) (j_file j) p).
Definition fd32_fflush (fd : Z) : KM Z :=
  with_file fd (- EBADF) (λ j, fs_fflush (j_request j) (j_file j)).

Definition fd32_close (fd : Z) : KM Z :=
  with_file fd (- EBADF) (λ j,
    res ← fs_close (j_request j) (j_file j);
    (if 0 <=? res then set_entry fd (λ j, j <| j_request := NoRequest |>) else mret ());;
    mret res).

(** [for (h = 0; h < jft_size; h++) if (!j[h].request)] *)
Fixpoint free_handle_from (l : list JftEntry) (h : Z) : option Z :=
  match l with
  | [] => None
  | j :: l => if is_open j then free_handle_from l (h + 1) else Some h
  end.
Definition free_handle : KM (option Z) := gets (λ s, free_handle_from (jft s) 0).

(** The copy of the entry of [oldfd], and one more reference to its file; the
    result of the driver is ignored. *)
Definition copy_entry (oldfd newfd : Z) (j : JftEntry) : KM () :=
  set_entry newfd (λ _, j);;
  call_request (j_request j) 0 (FD32_OPEN (j_file j));;
  mret ().

Definition fd32_dup (oldfd : Z) : KM Z :=
  x ← open_entry oldfd;
  match x with
  | None => mret (- EBADF)
  | Some j =>
      h ← free_handle;
      match h with
      | Some h => copy_entry oldfd h j;; mret h
      | None => mret (- EMFILE)
      end
  end.

Definition fd32_forcedup (oldfd newfd : Z) : KM Z :=
  x ← open_entry oldfd;
  match x with
  | None => mret (- EBADF)
  | Some j =>
      guard_ret (newfd =? oldfd) 0 (
      y ← entry newfd;
      match y with
      | None => mret (- EBADF)
      | Some y =>
          res ← (if is_open y then fd32_close newfd else mret 0);
          guard_ret (res <? 0) res (copy_entry oldfd newfd j;; mret 0)
      end)
  end.

(** The handle, and the result of the driver that is stored. *)
Definition fd32_open (file_name : bytes) (mode attr : Z) : KM (Z * option Z) :=
  fd ← free_handle;
  match fd with
  | None => mret (- EMFILE, None)
  | Some fd =>
      x ← fs_open file_name mode attr;
      let '(res, (r, file)) := x in
      guard_ret (res <? 0) (res, None) (
      set_entry fd (λ j, mkJftEntry r file 0);;
      mret (fd, Some res))
  end.

(** * Searches with short names *)

(** [for (; ( *s != '\\') && (s != full_path); s--)], at the null first. *)
Fixpoint name_start_from (k : nat) (full_path : bytes) : nat :=
  match k with
  | O => O
  | S k' => if byte_at full_path (Z.of_nat k) =? BACKSLASH then k else name_start_from k' full_path
  end.
Definition name_start (full_path : bytes) : nat :=
  let s := name_start_from (length full_path) full_path in
  if byte_at full_path (Z.of_nat s) =? BACKSLASH then S s else s.

(** The path with its trailing backslash and the name, in buffers of
    [FD32_LFNPMAX] characters. *)
Definition split_path (full_path : bytes) : KM (bytes * bytes) :=
  let n := name_start full_path in
  fits FD32_LFNPMAX (drop n full_path);;
  fits FD32_LFNPMAX (take n full_path);;
  mret (take n full_path, drop n full_path).

(** The search status is kept by the caller: the drive, a byte, which is the field
    of the layer, and the rest, which is the driver's. *)
Definition dos_find_data : Type := Z * fd32_fs_dosfind_t.
Definition found (find_data : fd32_fs_dosfind_t) (r : reply) : fd32_fs_dosfind_t :=
  match r with RDosFind df => df | _ => find_data end.

(** [for (;;)] until the volume is no longer reported as not mounted. *)
Fixpoint dos_findfirst_loop (n : nat) (aux : bytes) (attrib : Z) (find_data : dos_find_data)
    : KM (Z * dos_find_data) :=
  match n with
  | O => nofuel
  | S n =>
      x ← fd32_get_drive aux;
      let '(res, (r, v, path)) := x in
      guard_ret (res <? 0) (res, find_data) (
      guard_ret (res =? 0) (- ENODEV, find_data) (
      let drive := u8 (res - 65 + 1) in
      x ← call_request r v (FD32_FINDFIRST path attrib find_data.2);
      let '(res, rep) := x in
      let find_data := (drive, found find_data.2 rep) in
      if negb (res =? - ENOTMOUNT) then mret (res, find_data)
      else dos_findfirst_loop n aux attrib find_data))
  end.
Definition fd32_dos_findfirst (file_spec : bytes) (attrib : Z) (find_data : dos_find_data)
    : KM (Z * dos_find_data) :=
  x ← fd32_truename file_spec FD32_TNSUBST;
  let '(res, aux) := x in
  guard_ret (res <? 0) (res, find_data) (dos_findfirst_loop fuel aux attrib find_data).

Fixpoint dos_findnext_loop (n : nat) (find_data : dos_find_data) : KM (Z * dos_find_data) :=
  match n with
  | O => nofuel
  | S n =>
      x ← fd32_get_drive (cstring [u8 (find_data.1 + 65 - 1); 58]);
      let '(res, (r, v, _)) := x in
      guard_ret (res <? 0) (res, find_data) (
      x ← call_request r v (FD32_FINDNEXT find_data.2);
      let '(res, rep) := x in
      let find_data := (find_data.1, found find_data.2 rep) in
      if negb (res =? - ENOTMOUNT) then mret (res, find_data) else dos_findnext_loop n find_data)
  end.
Definition fd32_dos_findnext (find_data : dos_find_data) : KM (Z * dos_find_data) :=
  dos_findnext_loop fuel find_data.

(** * Searches with long names *)

(** An operation of the slab allocator on [searches_cache]. *)
Definition on_searches {A} (m : M (Slab.SlabCache * Slab.arena W) A) : KM A :=
  λ s, match m (searches_cache s, Slab.mkArena (k_words s) (k_pages s) (k_world s)) with
       | Done a (c, r) =>
           Done a (s <| searches_cache := c |> <| k_words := Slab.words r |> <| k_pages := Slab.held r |>
                     <| k_world := Slab.source r |>)
       | Fault => Fault
       | NoFuel => NoFuel
       end.

(** The search is linked before it is tested against null: linking the null
    pointer is a fault. *)
Definition search_get : KM Z :=
  p ← on_searches (Slab.slabmem_alloc (H := kw_pages));
  if nz p then modify (λ s, s <| searches_open ::= push_front p |>);; mret p else fault.

(** Unlinking a search that is not linked is a fault. *)
Definition search_put (p : Z) : KM () :=
  l ← gets searches_open;
  if negb (bool_decide (p ∈ l)) then fault
  else
    modify (λ s, s <| searches_open ::= erase p |>);;
    on_searches (Slab.slabmem_free p);;
    modify (λ s, s <| searches ::= delete p |>).

Definition lfn_found (find_data : fd32_fs_lfnfind_t) (r : reply) : fd32_fs_lfnfind_t :=
  match r with RLfnFind lf => lf | _ => find_data end.

Definition fd32_lfn_findfirst (file_spec : bytes) (flags : Z) (find_data : fd32_fs_lfnfind_t)
    : KM (Z * fd32_fs_lfnfind_t) :=
  fd ← free_handle;
  match fd with
  | None => mret (- EMFILE, find_data)
  | Some fd =>
      search ← search_get;
      guard_ret (negb (nz search)) (- ENOMEM, find_data) (
      x ← split_path file_spec;
      let '(path, name) := x in
      x ← fs_open path (Z.lor O_RDONLY O_DIRECTORY) FD32_ANONE;
      let '(res, (r, file)) := x in
      if res <? 0 then search_put search;; mret (res, find_data)
      else
        x ← call_request r 0 (FD32_FINDFILE file name flags find_data);
        let '(res, rep) := x in
        let find_data := lfn_found find_data rep in
        if res <? 0 then
          let res := if res =? - ENMFILE then - ENOENT else res in
          search_put search;;
          fs_close r file;;
          mret (res, find_data)
        else
          fits FD32_LFNMAX name;;
          modify (λ s, s <| searches ::= <[search := mkSearch flags name]> |>);;
          set_entry fd (λ _, mkJftEntry r file search);;
          mret (fd, find_data))
  end.

(** The flags passed are ignored. *)
Definition fd32_lfn_findnext (fd flags : Z) (find_data : fd32_fs_lfnfind_t)
    : KM (Z * fd32_fs_lfnfind_t) :=
  x ← validate_search_handle fd;
  match x with
  | None => mret (- EBADF, find_data)
  | Some j =>
      sr ← gets (λ s, searches s !! j_search j);
      sr ← deref sr;
      x ← call_request (j_request j) 0 (FD32_FINDFILE (j_file j) (sr_name sr) (sr_flags sr) find_data);
      mret (x.1, lfn_found find_data x.2)
  end.

Definition fd32_lfn_findclose (fd : Z) : KM Z :=
  x ← validate_search_handle fd;
  match x with
  | None => mret (- EBADF)
  | Some j =>
      res ← fs_close (j_request j) (j_file j);
      if 0 <=? res then
        search_put (j_search j);;
        set_entry fd (λ j, j <| j_request := NoRequest |>);;
        set_entry fd (λ j, j <| j_search := 0 |>);;
        mret res
      else mret res
  end.

(** * Short canonical names *)

(** [for (; *a != '\\'; p++, d++, a++)]: the drive specification and the rest; a
    name without a backslash is a fault. *)
Fixpoint split_backslash (a : bytes) : option (bytes * bytes) :=
  match a with
  | [] => None
  | c :: a' =>
      if c =? BACKSLASH then Some ([], a)
      else match split_backslash a' with Some (d, r) => Some (c :: d, r) | None => None end
  end.

(** [while (( *a != '\\') && *a) *(p++) = *(a++);] *)
Fixpoint copy_name (p a : bytes) : bytes * bytes :=
  match a with
  | c :: a' => if c =? BACKSLASH then (p, a) else copy_name (p ++ [c]) a'
  | [] => (p, [])
  end.

(** [while ( *a)]: the destination [d] and [Partial] [p] as far as they are filled.
    [Partial] cannot overflow: it is filled from [Aux], of the same size. *)
Fixpoint sfn_loop (n : nat) (a d p : bytes) (F : fd32_fs_lfnfind_t) : KM (Z * bytes) :=
  match a, n with
  | [], _ => mret (0, d)
  | _ :: _, O => nofuel
  | c :: a, S n =>
      let d := d ++ [c] in
      let p := p ++ [c] in
      match a with
      | [] => mret (0, d)
      | _ :: _ =>
          let '(p, a) := copy_name p a in
          x ← fd32_lfn_findfirst p (Z.lor FD32_FRNONE FD32_FAALL) F;
          let '(res, F) := x in
          guard_ret (res <? 0) (res, d) (
          res ← fd32_lfn_findclose res;
          guard_ret (res <? 0) (res, d) (
          sfn_loop n a (d ++ cstring (lf_ShortName F)) p F))
      end
  end.

(** [F] holds what the stack does when the function is called. *)
Definition fd32_sfn_truename (Source : bytes) (F : fd32_fs_lfnfind_t) : KM (Z * bytes) :=
  x ← fd32_truename Source FD32_TNSUBST;
  let '(res, aux) := x in
  guard_ret (res <? 0) (res, []) (
  x ← deref (split_backslash aux);
  let '(d, a) := x in
  sfn_loop (length a) a d d F).
End jft.
