(* ===== verification/FsFrame.v ===== *)
(** What the calls of the file system layer leave alone: naming a drive and making
    a request change nothing of the kernel but the world and the drives. *)
From S2P Require Import Prelude Errno Lists Nls Slab Devices.
From S2P Require Import FatTypes FatFile FatOpen FatDos FatVolume FatRequest KernelFs FsDrives FsPath FsCalls.

(** The same state up to the world and the drives. *)
Definition same_tables {W} (s s' : kernel W) : Prop :=
  s' <| k_world := k_world s |> <| drives := drives s |> = s.

#[export] Instance same_tables_preorder W : PreOrder (@same_tables W).
Proof.
  split; [by intros []|]. intros [] [] []. unfold same_tables. cbn.
  intros [= -> -> -> -> -> -> -> -> -> -> ->] [= -> -> -> -> -> -> -> -> -> -> ->]. done.
Qed.

(** A computation that returns in the same tables. *)
Definition framed {W A} (m : M (kernel W) A) : Prop := ∀ s a s', m s = Done a s' → same_tables s s'.

Lemma framed_bind {W A B} (m : M (kernel W) A) (k : A → M (kernel W) B) :
  framed m → (∀ a, framed (k a)) → framed (m ≫= k).
Proof. intros Hm Hk s b s' (a & s1 & H1 & H2)%bind_done. etrans; [by eapply Hm|by eapply Hk]. Qed.
Lemma framed_ret {W A} (a : A) : framed (W := W) (mret a).
Proof. by intros s b s' [= <- <-]. Qed.
Lemma framed_gets {W A} (f : kernel W → A) : framed (gets f).
Proof. by intros s b s' [= <- <-]. Qed.
Lemma framed_fault {W A} : framed (W := W) (A := A) fault.
Proof. done. Qed.
Lemma framed_nofuel {W A} : framed (W := W) (A := A) nofuel.
Proof. done. Qed.
Lemma framed_deref {W A} (o : option A) : framed (W := W) (deref o).
Proof. destruct o; [apply framed_ret|apply framed_fault]. Qed.
Lemma framed_guard {W A} (b : bool) (r : A) (k : M (kernel W) A) : framed k → framed (guard_ret b r k).
Proof. destruct b; [intros _; apply framed_ret|done]. Qed.
Lemma framed_world {W} (f : W → W) : framed (modify (λ s : kernel W, s <| k_world ::= f |>)).
Proof. intros s b s' [= <- <-]. by destruct s. Qed.
Lemma framed_world_set {W} (w : W) : framed (modify (λ s : kernel W, s <| k_world := w |>)).
Proof. intros s b s' [= <- <-]. by destruct s. Qed.
Lemma framed_drives {W} (f : list Drive → list Drive) : framed (modify (λ s : kernel W, s <| drives ::= f |>)).
Proof. intros s b s' [= <- <-]. by destruct s. Qed.

Create HintDb framed discriminated.
#[export] Hint Resolve framed_ret framed_gets framed_fault framed_nofuel framed_deref framed_world
  framed_world_set framed_drives : framed.

(** Through the structure of a computation, down to what the database knows. *)
Ltac framed :=
  repeat first
    [ solve [auto with framed nocore]
    | apply framed_bind; [|intros ?]
    | apply framed_guard
    | match goal with
      | |- framed (if ?b then _ else _) => destruct b
      | |- framed (match ?x with _ => _ end) => destruct x
      end ].

Section frame.
Context {W : Type} `{KernelWorld W} `{Fuel}.
Notation KM := (M (kernel W)).

Lemma framed_kcall {A} (f : W → A * W) : framed (kcall f).
Proof. unfold kcall. framed. Qed.
Lemma framed_driver a v r : framed (call_driver a v r).
Proof.
  intros s x s'. unfold call_driver. destruct (driver a v r (k_world s)); intros [= <- <-].
  by destruct s.
Qed.
#[local] Hint Resolve framed_kcall framed_driver : framed.

Lemma framed_console k b n : framed (W := W) (console_loop k b n).
Proof. revert b n. induction k as [|k IH]; intros b n; cbn [console_loop]; framed. Qed.
#[local] Hint Resolve framed_console : framed.
Lemma framed_request r v f : framed (W := W) (call_request r v f).
Proof.
  destruct r; cbn [call_request]; unfold fake_console_request, fake_console_write, dummy_request; framed.
Qed.
#[local] Hint Resolve framed_request : framed.

Lemma framed_drive i : framed (W := W) (drive i).
Proof. unfold drive. framed. Qed.
#[local] Hint Resolve framed_drive : framed.
Lemma framed_set_drive i f : framed (W := W) (set_drive i f).
Proof. unfold set_drive. framed. Qed.
#[local] Hint Resolve framed_set_drive : framed.
Lemma framed_mount rs i b : framed (W := W) (mount_drive rs i b).
Proof. induction rs as [|r rs IH]; cbn [mount_drive]; framed. Qed.
#[local] Hint Resolve framed_mount : framed.
Lemma framed_get_drive name : framed (W := W) (fd32_get_drive name).
Proof. unfold fd32_get_drive. framed. Qed.
#[local] Hint Resolve framed_get_drive : framed.
Lemma framed_truename name f : framed (W := W) (fd32_truename name f).
Proof. unfold fd32_truename. framed. Qed.
#[local] Hint Resolve framed_truename : framed.
Lemma framed_open_directory n name : framed (W := W) (open_directory n name).
Proof. induction n as [|n IH]; cbn [open_directory]; framed. Qed.
Lemma framed_on_drive n aux k : framed (W := W) (on_drive n aux k).
Proof. induction n as [|n IH]; cbn [on_drive]; framed. Qed.
#[local] Hint Resolve framed_on_drive : framed.
Lemma framed_open name mode attr : framed (W := W) (fs_open name mode attr).
Proof. unfold fs_open, on_name. framed. Qed.
Lemma framed_close r file : framed (W := W) (fs_close r file).
Proof. unfold fs_close. framed. Qed.
End frame.

#[export] Hint Resolve framed_kcall framed_driver framed_console framed_request framed_drive framed_set_drive
  framed_mount framed_get_drive framed_truename framed_open_directory framed_on_drive framed_open framed_close : framed.
