(* ===== verification/FsExample.v ===== *)
(** A small world for the file system layer, to run it on concrete inputs: one
    driver that counts the references to the files it opens, each open making a new
    file, and that reports its volume gone when a directory is to
    be made; a page and a block of memory at fixed addresses. *)
From S2P Require Import Prelude Errno Lists Nls Slab Devices.
From S2P Require Import FatTypes FatFile FatOpen FatDos FatVolume FatRequest KernelFs FsDrives FsPath FsCalls Jft.

Module Toy.
(** When [failing], the files cannot be written to any more: closing one fails, but
    releases it; [given_up] tells that this has happened. *)
Record world := mkWorld { counts : gmap (Z * Z) Z; next_file : Z; failing : bool; given_up : bool }.
#[export] Instance world_eta : Eta world := λ r, mkWorld (counts r) (next_file r) (failing r) (given_up r).

Definition file_refs (a f : Z) (w : world) : Z := default 0 (counts w !! (a, f)).
Definition set_refs (a f n : Z) (w : world) : world := w <| counts ::= <[(a, f) := n]> |>.

Definition toy_driver (a v : Z) (r : request) : M world (Z * reply) := λ w,
  match r with
  | FD32_OPENFILE _ _ _ =>
      Done (FD32_OROPEN, RHandle (next_file w))
        (set_refs a (next_file w) (file_refs a (next_file w) w + 1) w <| next_file ::= Z.succ |>)
  | FD32_OPEN f => Done (0, RNothing) (set_refs a f (file_refs a f w + 1) w)
  | FD32_CLOSE f =>
      Done (if failing w then - EIO else 0, RNothing)
        (set_refs a f (file_refs a f w - 1) w <| given_up ::= λ b, b || failing w |>)
  | FD32_FINDFILE _ _ _ lf => Done (0, RLfnFind lf) w
  | FD32_MOUNT _ => Done (0, RHandle 7) w
  | FD32_MKDIR _ => Done (- ENOTMOUNT, RNothing) w
  | _ => Done (- ENOTSUP, RNothing) w
  end.

#[export] Instance memory : KernelMemory world := {
  kmem_get := λ _ w, (0x10000, w);
  kmem_free := λ _ _ w, (0, w) }.
#[export] Instance toy_pages : PageSource world := {
  page_alloc := λ w, (0x20000, w);
  page_free := λ _ w, w }.
#[export] Instance toy : KernelWorld world := {
  kw_memory := memory;
  kw_pages := toy_pages;
  driver := toy_driver;
  block_enumerate := λ _ _, (None, 0);
  block_get := λ _ w, ((- ENODEV, (0, 0)), w);
  get_device_info := λ _ _ w, ((- ENODEV, mkBlockDeviceInfo 0 0), w);
  get_medium_info := λ _ _ w, ((- ENODEV, mkBlockMediumInfo 0 0), w);
  dev_open := λ _ _ w, (0, w);
  dev_close := λ _ _ w, (0, w);
  dev_read := λ _ _ _ _ w, ((0, []), w);
  dev_write := λ _ _ _ _ _ w, (0, w);
  req_release := λ _ w, (0, w);
  cputs := λ _ w, w }.
#[export] Instance toy_fuel : Fuel := 4%nat.

(** Drive [C] mounted by the driver at 1000, handles 0 to 2 on the console. *)
Definition drive_c : Drive := mkDrive (Some [104; 100; 97]) (DriverRequest 1000) 7 0 0.
Definition console : JftEntry := mkJftEntry FakeConsole 0 0.
Definition start (size : nat) : kernel world :=
  mkKernel (mkWorld ∅ 1 false false) ([no_drive; no_drive; drive_c] ++ replicate 23 no_drive) NULBOOTDEV 67
    (replicate NumFSReq NoRequest) [] [] ([console; console; console] ++ replicate size free_entry)
    ∅ (Slab.mkSlabCache 0 268 0) [] ∅ [].
End Toy.
