(* ===== verification/FsPathSpec.v ===== *)
(** Canonical path names and current directories, proved: [fd32_truename] computes
    on a character buffer what a stack of path components computes, and
    [fd32_chdir] keeps the current directories canonical. *)
From S2P Require Import Prelude Errno Lists Nls Slab Devices.
From S2P Require Import FatTypes FatFile FatOpen FatDos FatVolume FatRequest KernelFs FsDrives FsPath FsCalls FsFrame Jft FsExample.

(** * The specification: components and a stack of them *)

(** The parts of a name between its slashes, and those that are not empty. *)
Fixpoint split_slashes (s : bytes) : list bytes :=
  match s with
  | [] => [[]]
  | c :: s =>
      if is_slash c then [] :: split_slashes s
      else match split_slashes s with p :: ps => (c :: p) :: ps | [] => [[c]] end
  end.
Definition components (s : bytes) : list bytes := filter (λ p, p ≠ []) (split_slashes s).

(** The component [..]. *)
Definition updir : bytes := [46; 46].

(** A component pushed on the directories so far: [k] dots go up [k - 1] levels, or
    are kept as [..] components; anything else is a name. *)
Definition push_component (Flags : Z) (st : list bytes) (c : bytes) : option (list bytes) :=
  match dots c with
  | O => Some (st ++ [c])
  | S k =>
      if has Flags FD32_TNDOTS then
        if decide (k ≤ length st)%nat then Some (take (length st - k) st) else None
      else Some (st ++ replicate k updir)
  end.
Fixpoint push_components (Flags : Z) (st cs : list bytes) : option (list bytes) :=
  match cs with
  | [] => Some st
  | c :: cs => st ← push_component Flags st c; push_components Flags st cs
  end.

(** The drive of a name and the rest. *)
Definition drive_of (default_drive : Z) (source : bytes) : bytes * bytes :=
  match strchr source 58 with
  | Some n => (take n source, drop (S n) source)
  | None => (if nz default_drive then [default_drive] else [], source)
  end.

(** The name of the root directory of a drive, without a trailing backslash. *)
Definition strip_backslash (t : bytes) : bytes :=
  if bool_decide (last t = Some BACKSLASH) then take (length t - 1) t else t.
Definition root_of (subst : list tSubst) (d : bytes) (Flags : Z) : bytes :=
  match (if has Flags FD32_TNSUBST then find_subst subst d else None) with
  | Some x => strip_backslash (Target x)
  | None => d ++ [58]
  end.

(** [root\c1\...\cn] *)
Definition path_of (root : bytes) (st : list bytes) : bytes := root ++ concat (map (cons BACKSLASH) st).
(** The root directory of a drive has a trailing backslash. *)
Definition seal (p : bytes) : bytes := if bool_decide (last p = Some 58) then p ++ [BACKSLASH] else p.

(** The directories a name starts from. *)
Definition start_of (cds : list tCds) (d rest : bytes) : list bytes :=
  if is_slash (byte_at rest 0) then [] else components (getcwd cds d).

Definition canonical (default_drive : Z) (subst : list tSubst) (cds : list tCds) (source : bytes) (Flags : Z)
    : Z * bytes :=
  let '(d, rest) := drive_of default_drive source in
  match push_components Flags (start_of cds d rest) (components rest) with
  | Some st => (0, seal (path_of (root_of subst d Flags) st))
  | None => (- ENOTDIR, [])
  end.

(** Names of directories, and canonical current directories: a backslash, or names
    after a backslash each, and perhaps one more backslash at the end. *)
Definition plain (c : bytes) : Prop := c ≠ [] ∧ Forall (λ x, is_slash x = false) c.
Definition canonical_dir (cwd : bytes) : Prop :=
  cwd ≠ [] ∧ ∃ st, Forall plain st ∧ (cwd = path_of [] st ∨ cwd = path_of [] st ++ [BACKSLASH]).

(** * Lemmas *)

(** ** Characters put into the buffer *)

Lemma put_spec aux c : put aux c = if decide (length aux < FD32_LFNPMAX)%nat then Some (aux ++ [c]) else None.
Proof. unfold put. by destruct (decide _) as [H|H]; [rewrite bool_decide_true|rewrite bool_decide_false]. Qed.

Lemma put_string_spec aux s :
  put_string aux s = if decide (length (aux ++ s) < FD32_LFNPMAX)%nat then Some (aux ++ s) else None.
Proof.
  revert aux. induction s as [|c s IH]; intros aux; cbn [put_string]; rewrite put_spec.
  - rewrite app_nil_r. by case_decide.
  - case_decide as H; cbn.
    + rewrite IH, <- app_assoc. done.
    + rewrite decide_False; [done|]. rewrite length_app. cbn [length]. lia.
Qed.

Lemma before_last x c : before (x ++ [c]) 1 = Some c.
Proof.
  unfold before. rewrite length_app, bool_decide_true by (cbn; lia). cbn [length].
  replace (length x + 1 - 1)%nat with (length x) by lia. by apply list_lookup_middle.
Qed.
Lemma before_second x a c : before (x ++ [a; c]) 2 = Some a.
Proof.
  unfold before. rewrite length_app, bool_decide_true by (cbn; lia). cbn [length].
  replace (length x + 2 - 2)%nat with (length x) by lia. by apply list_lookup_middle.
Qed.
Lemma take_snoc {A} (x : list A) c : take (length (x ++ [c]) - 1) (x ++ [c]) = x.
Proof. rewrite length_app. cbn. rewrite Nat.add_sub. apply take_app_length. Qed.

(** ** Paths *)

(** The buffer between two components. *)
Definition buffer_of (root : bytes) (st : list bytes) : bytes := path_of root st ++ [BACKSLASH].

Lemma path_of_snoc root st c : path_of root (st ++ [c]) = buffer_of root st ++ c.
Proof.
  unfold buffer_of, path_of. rewrite map_app, concat_app. cbn. rewrite app_nil_r, <- !app_assoc. done.
Qed.
Lemma path_of_app root a b : path_of root (a ++ b) = path_of (path_of root a) b.
Proof. unfold path_of. by rewrite map_app, concat_app, app_assoc. Qed.
Lemma path_of_root r root st : path_of (r ++ root) st = r ++ path_of root st.
Proof. unfold path_of. by rewrite app_assoc. Qed.
Lemma length_path_of root st : (length root ≤ length (path_of root st))%nat.
Proof. unfold path_of. rewrite length_app. lia. Qed.

(** ** Components *)

Lemma next_partial_split s :
  ∃ ps, split_slashes s = (next_partial s).1 :: ps ∧ filter (λ p, p ≠ []) ps = components (next_partial s).2 ∧
        (s ≠ [] → (length (next_partial s).2 < length s)%nat) ∧
        (length (next_partial s).1 + length (next_partial s).2 ≤ length s)%nat ∧
        Forall (λ x, is_slash x = false) (next_partial s).1.
Proof.
  induction s as [|c s (ps & H1 & H2 & H3 & H4 & H5)]; cbn [split_slashes next_partial].
  { exists []. by split_and!. }
  destruct (is_slash c) eqn:E.
  - exists (split_slashes s). cbn. split_and!; [done|done|lia|lia|constructor].
  - destruct (next_partial s) as [comp rest]. cbn in *. rewrite H1. exists ps.
    split_and!; [done|done| |lia|by constructor]. intros _. destruct s; [cbn in *; lia|].
    specialize (H3 ltac:(done)). lia.
Qed.

Lemma components_next s :
  components s = (if decide ((next_partial s).1 = []) then [] else [(next_partial s).1]) ++ components (next_partial s).2.
Proof.
  destruct (next_partial_split s) as (ps & H1 & H2 & _). unfold components at 1. rewrite H1. case_decide as H.
  - rewrite filter_cons_False by (by intros ?). done.
  - rewrite filter_cons_True by done. cbn. by rewrite H2.
Qed.

Lemma components_slash c s : is_slash c = true → components (c :: s) = components s.
Proof. intros H. rewrite components_next. cbn. by rewrite H. Qed.

(** A plain name up to a slash or the end. *)
Lemma next_partial_plain c s :
  Forall (λ x, is_slash x = false) c → next_partial (c ++ s) = (c ++ (next_partial s).1, (next_partial s).2).
Proof.
  induction 1 as [|x c Hx _ IH]; cbn; [by destruct (next_partial s)|]. by rewrite Hx, IH.
Qed.
Lemma components_path st s :
  Forall plain st → (next_partial s).1 = [] → components (concat (map (cons BACKSLASH) st) ++ s) = st ++ components s.
Proof.
  intros H Hs. induction H as [|c st [Hc Hp] _ IH]; [done|]. cbn [map concat].
  rewrite <- app_assoc, <- app_comm_cons, components_slash by done.
  rewrite components_next, next_partial_plain by done.
  assert (He : (next_partial (concat (map (cons BACKSLASH) st) ++ s)).1 = []) by (by destruct st).
  cbn [fst snd]. rewrite He, app_nil_r, decide_False by done. cbn. f_equal.
  rewrite <- IH, (components_next (concat _ ++ s)), He, decide_True by done. done.
Qed.
Lemma components_canonical cwd st :
  Forall plain st → cwd = path_of [] st ∨ cwd = path_of [] st ++ [BACKSLASH] → components cwd = st.
Proof.
  intros H [->| ->]; unfold path_of.
  - cbn [app]. rewrite <- (app_nil_r (concat _)), components_path, app_nil_r by done. done.
  - cbn [app]. rewrite components_path by done. by rewrite components_slash, app_nil_r by done.
Qed.
Lemma components_plain s : Forall plain (components s).
Proof.
  induction s as [s IH] using (induction_ltof1 _ length). unfold ltof in IH. rewrite components_next.
  destruct (decide (s = [])) as [->|Hn]; [constructor|].
  destruct (next_partial_split s) as (_ & _ & _ & Hl & _ & Hp). apply Forall_app. split; [|by apply IH, Hl].
  case_decide; [constructor|]. by repeat constructor.
Qed.

(** ** Going up *)

(** Back over the characters of a component. *)
Lemma rewind_component n x c root D :
  (root ≤ length x)%nat → D ≠ O → Forall (λ y, is_slash y = false) c →
  rewind (n + length c) (x ++ [BACKSLASH] ++ c) root D = rewind n (x ++ [BACKSLASH]) root D.
Proof.
  intros Hr HD. induction c as [|y c IH] using rev_ind; intros Hc; [by rewrite Nat.add_0_r|].
  apply Forall_app in Hc as [Hc [Hy _]%Forall_cons]. rewrite length_app, Nat.add_assoc, Nat.add_1_r.
  rewrite !app_assoc. cbn [rewind]. rewrite before_last, take_snoc. cbn [mbind option_bind].
  assert (Hb : y =? BACKSLASH = false) by (by apply orb_false_iff in Hy as [Hy _]).
  rewrite Hb, (proj2 (Nat.eqb_neq _ _)) by done.
  rewrite (proj2 (Nat.eqb_neq _ _)) by (rewrite !length_app; cbn; lia). rewrite <- app_assoc. by apply IH.
Qed.

(** Back over the backslash before the root or before a component. *)
Lemma rewind_spec k : ∀ n root st, Forall plain st → (length (buffer_of root st) < n)%nat →
  rewind n (buffer_of root st) (length root) (S k) =
  if decide (k ≤ length st)%nat then Some (inl (buffer_of root (take (length st - k) st))) else Some (inr ()).
Proof.
  induction k as [|k IH]; intros n root st Hst Hn; destruct n as [|n]; try lia; unfold buffer_of at 1;
    cbn [rewind]; rewrite before_last; cbn [mbind option_bind]; rewrite Z.eqb_refl.
  { rewrite Nat.sub_1_r. cbn [Nat.pred Nat.eqb]. by rewrite Nat.sub_0_r, firstn_all. }
  rewrite Nat.sub_1_r, take_snoc. cbn [Nat.pred Nat.eqb].
  destruct (list_snoc_case st) as [->|(st' & c & ->)].
  { unfold path_of at 1. cbn. by rewrite app_nil_r, Nat.eqb_refl. }
  apply Forall_app in Hst as [Hst [[Hc Hp] _]%Forall_cons]. rewrite path_of_snoc.
  pose proof (length_path_of root st'). revert Hn. unfold buffer_of. rewrite path_of_snoc. unfold buffer_of.
  rewrite !length_app. cbn [length]. intros Hn.
  rewrite (proj2 (Nat.eqb_neq _ _)) by lia.
  replace n with ((n - length c) + length c)%nat by lia. rewrite <- app_assoc, rewind_component by done.
  fold (buffer_of root st'). rewrite IH; [|done|unfold buffer_of; rewrite length_app; cbn; lia].
  destruct (decide (k ≤ length st')%nat) as [Hk|Hk].
  - rewrite decide_True by lia. replace (length st' + 1 - S k)%nat with (length st' - k)%nat by lia.
    by rewrite take_app_le by lia.
  - by rewrite decide_False by lia.
Qed.

Lemma length_buffer_of root st : length (buffer_of root st) = S (length (path_of root st)).
Proof. unfold buffer_of. rewrite length_app. cbn. lia. Qed.
Lemma length_path_take root st n : (length (path_of root (take n st)) ≤ length (path_of root st))%nat.
Proof. rewrite <- (take_drop n st) at 2. rewrite path_of_app. apply length_path_of. Qed.

(** The dots that are kept. *)
Lemma put_updirs_spec k root st :
  (length (buffer_of root st) ≤ FD32_LFNPMAX)%nat →
  put_updirs k (buffer_of root st) =
  let b := buffer_of root (st ++ replicate k updir) in
  if decide (length b ≤ FD32_LFNPMAX)%nat then Some b else None.
Proof.
  revert st. induction k as [|k IH]; intros st Hb; cbn [put_updirs replicate]; cbv zeta.
  { rewrite app_nil_r. by rewrite decide_True. }
  pose proof (IH (st ++ [updir])) as IH'. rewrite <- app_assoc in IH'. cbn [app] in IH'.
  assert (Hlen : length (buffer_of root (st ++ [updir])) = (length (buffer_of root st) + 3)%nat).
  { rewrite !length_buffer_of, path_of_snoc, length_app, length_buffer_of. cbn. lia. }
  assert (Hge : (length (buffer_of root (st ++ [updir]))
                 ≤ length (buffer_of root (st ++ updir :: replicate k updir)))%nat).
  { rewrite !length_buffer_of. apply le_n_S. change (updir :: replicate k updir) with ([updir] ++ replicate k updir).
    rewrite app_assoc, (path_of_app root (st ++ _)). apply length_path_of. }
  rewrite put_spec. destruct (decide (_ < FD32_LFNPMAX)%nat) as [H1|H1]; cbn [mbind option_bind]; [|rewrite decide_False; [done|lia]].
  rewrite put_spec, length_app. destruct (decide (_ < FD32_LFNPMAX)%nat) as [H2|H2]; cbn [mbind option_bind length] in *; [|rewrite decide_False; [done|lia]].
  rewrite put_spec, !length_app. destruct (decide (_ < FD32_LFNPMAX)%nat) as [H3|H3]; cbn [mbind option_bind length] in *; [|rewrite decide_False; [done|lia]].
  rewrite <- IH' by lia. f_equal. unfold buffer_of. rewrite path_of_snoc. unfold buffer_of. by rewrite <- !app_assoc.
Qed.

(** ** One component, all components *)

Lemma dots_plain k : plain (replicate (S k) 46).
Proof. split; [done|]. by apply Forall_replicate. Qed.

Lemma push_component_plain Flags st c st' :
  Forall plain st → plain c → push_component Flags st c = Some st' → Forall plain st'.
Proof.
  intros Hst Hc. unfold push_component. repeat case_match; intros [= <-].
  - apply Forall_app. split; [done|by apply Forall_singleton].
  - by apply Forall_take.
  - apply Forall_app. split; [done|]. apply Forall_replicate, (dots_plain 1).
Qed.

Lemma put_component_spec root st c Flags :
  Forall plain st → (length (buffer_of root st) ≤ FD32_LFNPMAX)%nat →
  put_component (buffer_of root st) c (length root) Flags =
  match push_component Flags st c with
  | None => Some (inr ())
  | Some st' => if decide (length (buffer_of root st') ≤ FD32_LFNPMAX)%nat then Some (inl (buffer_of root st')) else None
  end.
Proof.
  intros Hst Hb. unfold put_component, push_component. destruct (dots c) as [|k].
  - rewrite put_string_spec. rewrite length_buffer_of, path_of_snoc.
    destruct (decide (_ < _)%nat) as [H|H]; cbn [mbind option_bind]; [|rewrite decide_False; [done|lia]].
    rewrite put_spec, decide_True by done. cbn [mbind option_bind]. rewrite decide_True by lia.
    unfold buffer_of at 2. by rewrite path_of_snoc.
  - destruct (has Flags FD32_TNDOTS).
    + destruct (Nat.eqb_spec k 0) as [->|Hk].
      * rewrite decide_True, Nat.sub_0_r, firstn_all by lia. by rewrite decide_True.
      * rewrite rewind_spec by (done || lia). case_decide as H; [|done]. rewrite decide_True; [done|].
        pose proof (length_path_take root st (length st - k)). rewrite length_buffer_of in *. lia.
    + rewrite put_updirs_spec by done. cbv zeta. by case_decide.
Qed.

(** What is left of the buffer grows by at most three times a component. *)
Lemma push_component_length Flags root st c st' :
  c ≠ [] → push_component Flags st c = Some st' →
  (length (path_of root st') ≤ length (path_of root st) + 3 * length c)%nat.
Proof.
  intros Hc. unfold push_component. destruct (dots c) as [|k] eqn:E.
  { intros [= <-]. rewrite path_of_snoc, length_app, length_buffer_of. destruct c; [done|cbn; lia]. }
  assert (Hk : length c = S k) by (unfold dots in E; destruct (forallb _ c); [done|lia]).
  repeat case_match; intros [= <-].
  - pose proof (length_path_take root st (length st - k)). lia.
  - rewrite Hk. clear E Hk. induction k as [|k IH]; [cbn; rewrite app_nil_r; lia|].
    rewrite replicate_S_end, app_assoc, path_of_snoc, length_app, length_buffer_of. change (length updir) with 2%nat. lia.
Qed.

(** The loop: what it returns is right, and it returns when there is room. *)
Lemma truename_loop_sound n root st s Flags r :
  Forall plain st → (length (buffer_of root st) ≤ FD32_LFNPMAX)%nat →
  truename_loop n (buffer_of root st) s (length root) Flags = Some r →
  match push_components Flags st (components s) with
  | Some st' => r = inl (buffer_of root st') ∧ Forall plain st'
  | None => r = inr ()
  end.
Proof.
  revert st s. induction n as [|n IH]; intros st s Hst Hb.
  { destruct s; [|done]. by intros [= <-]. }
  destruct s as [|c s]; [by intros [= <-]|]. cbn [truename_loop].
  pose proof (components_next (c :: s)) as Hn. pose proof (components_plain (c :: s)) as Hp. rewrite Hn in *.
  destruct (next_partial (c :: s)) as [comp rest]. cbn [fst snd] in *.
  case_bool_decide as Hl; cbn [negb]; [|done]. destruct comp as [|x comp].
  { rewrite decide_True by done. by apply IH. }
  rewrite decide_False in * by done. cbn [app push_components] in *. apply Forall_cons in Hp as [Hp _].
  rewrite put_component_spec by done. destruct (push_component _ _ _) as [st'|] eqn:E; cbn; [|by intros [= <-]].
  case_decide as Hd; cbn; [|done]. apply IH; [|done]. by eapply push_component_plain.
Qed.

Lemma truename_loop_total n root st s Flags :
  Forall plain st → (length s ≤ n)%nat → (length s < FD32_LFNMAX)%nat →
  (length (buffer_of root st) + 3 * length s ≤ FD32_LFNPMAX)%nat →
  is_Some (truename_loop n (buffer_of root st) s (length root) Flags).
Proof.
  revert st s. induction n as [|n IH]; intros st s Hst Hn Hs Hb.
  { destruct s; [by eexists|cbn in *; lia]. }
  destruct s as [|c s]; [by eexists|]. cbn [truename_loop].
  destruct (next_partial_split (c :: s)) as (_ & _ & _ & H1 & H2 & H3). specialize (H1 ltac:(done)).
  destruct (next_partial (c :: s)) as [comp rest]. cbn [fst snd] in *.
  rewrite bool_decide_true by lia. cbn [negb]. destruct comp as [|x comp]; [apply IH; (done || lia)|].
  rewrite put_component_spec by (done || lia). destruct (push_component _ _ _) as [st'|] eqn:E; cbn; [|by eexists].
  pose proof (push_component_length Flags root st (x :: comp) st' ltac:(done) E) as Hg. rewrite length_buffer_of in *.
  rewrite decide_True by lia. cbn [mbind option_bind]. apply IH; [|lia|lia|rewrite length_buffer_of; lia].
  by eapply push_component_plain; [|split; [|exact H3]|].
Qed.

(** ** The start and the end *)

Lemma finish_path_spec root st p :
  finish_path (buffer_of root st) = Some p → p = seal (path_of root st).
Proof.
  unfold finish_path, buffer_of. rewrite before_last. cbn [mbind option_bind].
  destruct (list_snoc_case (path_of root st)) as [->|(q & c & Eq)].
  { cbn. done. }
  rewrite Eq, <- app_assoc. cbn [app]. rewrite before_second. cbn [mbind option_bind].
  unfold seal. rewrite last_snoc, Z.eqb_refl. cbn [andb]. destruct (Z.eqb_spec c 58) as [->|Hc]; cbn [negb].
  - rewrite bool_decide_true by done. intros (? & _ & [= <-])%bind_Some. by rewrite <- app_assoc.
  - rewrite bool_decide_false by congruence.
    change [c; BACKSLASH] with ([c] ++ [BACKSLASH]). rewrite app_assoc, take_snoc.
    by intros (? & _ & [= <-])%bind_Some.
Qed.
Lemma finish_path_total root st :
  path_of root st ≠ [] → (length (buffer_of root st) < FD32_LFNPMAX)%nat →
  is_Some (finish_path (buffer_of root st)).
Proof.
  intros Hn Hb. destruct (list_snoc_case (path_of root st)) as [|(q & c & Eq)]; [done|].
  unfold finish_path, buffer_of in *. rewrite before_last. cbn [mbind option_bind].
  rewrite Eq in *. rewrite <- app_assoc. cbn [app]. rewrite before_second. cbn [mbind option_bind].
  rewrite put_spec. assert (Hl : length (q ++ [c; BACKSLASH]) = length ((q ++ [c]) ++ [BACKSLASH]))
    by (by rewrite <- app_assoc).
  rewrite decide_True; [by eexists|]. destruct (_ && _); rewrite ?length_take; lia.
Qed.

Lemma path_of_last l : Forall plain l → l ≠ [] → ∃ q y, path_of [] l = q ++ [y] ∧ y ≠ BACKSLASH.
Proof.
  intros Hl Hn. destruct (list_snoc_case l) as [|(l' & c & ->)]; [done|].
  apply Forall_app in Hl as [_ [[Hc1 Hc2] _]%Forall_cons].
  destruct (list_snoc_case c) as [|(c' & y & ->)]; [done|].
  apply Forall_app in Hc2 as [_ [Hy _]%Forall_cons]. rewrite path_of_snoc, app_assoc.
  exists (buffer_of [] l' ++ c'), y. split; [done|]. by intros ->.
Qed.

Lemma put_cwd_spec cds d root l :
  Forall plain l → getcwd cds d = path_of [] l ∨ getcwd cds d = path_of [] l ++ [BACKSLASH] →
  getcwd cds d ≠ [] →
  put_cwd cds d root =
  if decide (length (getcwd cds d) < FD32_LFNMAX ∧ length (root ++ getcwd cds d) < FD32_LFNPMAX)%nat
  then Some (buffer_of root l) else None.
Proof.
  intros Hl Hcwd Hn. unfold put_cwd. set (cwd := getcwd cds d) in *.
  case_bool_decide as H1; cbn [negb]; [|by rewrite decide_False by tauto].
  rewrite put_string_spec. case_decide as H2; cbn [mbind option_bind]; [|by rewrite decide_False by tauto].
  rewrite decide_True by done.
  assert (Hroot : root ++ path_of [] l = path_of root l) by (by rewrite <- path_of_root, app_nil_r).
  destruct Hcwd as [Hc|Hc].
  - destruct (path_of_last l Hl) as (q & y & Hq & Hy); [by intros ->|].
    assert (before (root ++ cwd) 1 = Some y) as -> by (rewrite Hc, Hq, app_assoc; apply before_last).
    cbn [mbind option_bind]. rewrite (proj2 (Z.eqb_neq _ _)), put_spec, decide_True by done.
    unfold buffer_of. by rewrite Hc, Hroot.
  - rewrite Hc, app_assoc, before_last. cbn [mbind option_bind]. rewrite Z.eqb_refl. by rewrite Hroot.
Qed.

Lemma canonical_dir_components cwd :
  canonical_dir cwd → ∃ l, Forall plain l ∧ (cwd = path_of [] l ∨ cwd = path_of [] l ++ [BACKSLASH]) ∧ components cwd = l.
Proof.
  intros (_ & st & H & Hc). exists st. split_and!; [done..|]. by apply components_canonical.
Qed.
Lemma getcwd_canonical cds d : Forall (λ c, canonical_dir (CurDir c)) cds → canonical_dir (getcwd cds d).
Proof.
  intros H. unfold getcwd, find_cds. destruct (List.find _ _) as [c|] eqn:E.
  - apply List.find_some in E as [E _]. rewrite Forall_forall in H. by apply H, list_elem_of_In.
  - split; [done|]. exists []. split; [constructor|]. by right.
Qed.

(** The loop starts at the root directory, or at the current one. *)
Lemma start_path_spec cds d root s :
  Forall (λ c, canonical_dir (CurDir c)) cds →
  ∃ ok s', start_path cds d root s = (if ok : bool then Some (buffer_of root (start_of cds d s), s') else None) ∧
    components s' = components s ∧ Forall plain (start_of cds d s) ∧ (length s' ≤ length s)%nat ∧
    (ok = true → (length (buffer_of root (start_of cds d s)) ≤ FD32_LFNPMAX)%nat) ∧
    ((length root + length (getcwd cds d) < FD32_LFNMAX)%nat → ok = true) ∧
    (length (buffer_of root (start_of cds d s)) ≤ length root + length (getcwd cds d) + 1)%nat.
Proof.
  intros Hcds. pose proof (getcwd_canonical cds d Hcds) as Hc. pose proof (canonical_dir_components _ Hc) as (l & Hl & Hcwd & Hcl).
  unfold start_path, start_of. destruct (is_slash (byte_at s 0)) eqn:E.
  - exists (bool_decide (length root < FD32_LFNPMAX)%nat), (tail s).
    rewrite put_spec. unfold buffer_of, path_of. cbn [map concat]. rewrite app_nil_r, length_app. cbn [length].
    split_and!.
    + case_decide as H; [rewrite bool_decide_true by done|rewrite bool_decide_false by done]; done.
    + destruct s as [|c s]; [done|]. by rewrite components_slash.
    + constructor.
    + destruct s; cbn; lia.
    + intros H%bool_decide_eq_true. lia.
    + intros H. apply bool_decide_eq_true. unfold FD32_LFNMAX, FD32_LFNPMAX in *. lia.
    + lia.
  - exists (bool_decide (length (getcwd cds d) < FD32_LFNMAX ∧ length (root ++ getcwd cds d) < FD32_LFNPMAX)%nat), s. rewrite (put_cwd_spec cds d root l) by (apply Hc || done).
    assert (Hlen : (length (path_of [] l) ≤ length (getcwd cds d))%nat)
      by (destruct Hcwd as [-> | ->]; rewrite ?length_app; lia).
    assert (Hb : length (buffer_of root l) = (length root + length (path_of [] l) + 1)%nat).
    { rewrite length_buffer_of. replace (path_of root l) with (root ++ path_of [] l) by (by rewrite <- path_of_root, app_nil_r).
      rewrite length_app. lia. }
    rewrite Hcl, !length_app. split_and!; [|done..| | |lia].
    + case_decide as H; [rewrite bool_decide_true by exact H|rewrite bool_decide_false by exact H]; done.
    + intros H%bool_decide_eq_true. lia.
    + intros H. apply bool_decide_eq_true. unfold FD32_LFNMAX, FD32_LFNPMAX in *. lia.
Qed.

Lemma strchr_length s c n : strchr s c = Some n → (n < length s)%nat.
Proof.
  revert n. induction s as [|x s IH]; intros n; cbn; [done|]. destruct (x =? c); [intros [= <-]; lia|].
  destruct (strchr s c); cbn; [|done]. intros [= <-]. specialize (IH _ eq_refl). lia.
Qed.
Lemma split_drive_spec d s p : split_drive d s = Some p → p = drive_of d s.
Proof. unfold split_drive, drive_of. case_bool_decide; [|done]. by destruct (strchr s 58); intros [= <-]. Qed.
Lemma split_drive_total d s : (length s < FD32_LFNPMAX)%nat → split_drive d s = Some (drive_of d s).
Proof.
  intros H. unfold split_drive, drive_of. destruct (strchr s 58) as [n|] eqn:E; cbn [from_option id].
  - apply strchr_length in E. rewrite bool_decide_true; [done|]. unfold FD32_LFNPMAX in *. lia.
  - by rewrite bool_decide_true.
Qed.
Lemma drive_of_length d s : (length (drive_of d s).1 ≤ S (length s))%nat ∧ (length (drive_of d s).2 ≤ length s)%nat.
Proof.
  unfold drive_of. destruct (strchr s 58) as [n|]; cbn [fst snd].
  - rewrite length_take, length_drop. lia.
  - destruct (nz d); cbn; lia.
Qed.

Lemma root_start_spec subst d F r : root_start subst d F = Some r → r = root_of subst d F.
Proof.
  unfold root_start, root_of, strip_backslash. case_bool_decide; [|done]. cbn [mbind option_bind].
  destruct (if has F FD32_TNSUBST then _ else _) as [x|]; [|by intros [= <-]].
  case_bool_decide; [|done]. cbn [mbind option_bind].
  destruct (list_snoc_case (Target x)) as [->|(t & c & ->)]; [done|].
  rewrite before_last, last_snoc, take_snoc. cbn [mbind option_bind]. destruct (Z.eqb_spec c BACKSLASH) as [->|Hc].
  - rewrite bool_decide_true by done. by intros [= <-].
  - rewrite bool_decide_false by congruence. by intros [= <-].
Qed.
Lemma root_start_total subst d F :
  (length d < FD32_LFNPMAX)%nat → (length (root_of subst d F) < FD32_LFNPMAX)%nat → root_of subst d F ≠ [] →
  root_start subst d F = Some (root_of subst d F).
Proof.
  intros Hd. unfold root_start, root_of, strip_backslash. rewrite bool_decide_true by done. cbn [mbind option_bind].
  destruct (if has F FD32_TNSUBST then _ else _) as [x|]; [|done].
  destruct (list_snoc_case (Target x)) as [->|(t & c & ->)]; [done|].
  rewrite before_last, last_snoc, take_snoc, length_app. cbn [length].
  destruct (Z.eqb_spec c BACKSLASH) as [->|Hc].
  - rewrite (bool_decide_true (Some BACKSLASH = _)) by done. intros Hl Hn. rewrite bool_decide_true by lia. done.
  - rewrite (bool_decide_false (Some c = _)) by congruence. rewrite length_app. cbn [length]. intros Hl Hn.
    rewrite bool_decide_true by lia. cbn [mbind option_bind]. by rewrite (proj2 (Z.eqb_neq _ _)).
Qed.

Lemma truename_sound default_drive subst cds source Flags r :
  Forall (λ c, canonical_dir (CurDir c)) cds →
  truename default_drive subst cds source Flags = Some r → r = canonical default_drive subst cds source Flags.
Proof.
  intros Hcds. unfold truename, canonical. intros (p & Hp & H)%bind_Some. apply split_drive_spec in Hp as ->.
  destruct (drive_of default_drive source) as [d s]. apply bind_Some in H as (root & Hr & H).
  apply root_start_spec in Hr as <-. apply bind_Some in H as ((aux & s') & Hs & H).
  destruct (start_path_spec cds d root s Hcds) as (ok & s'' & E & Hc & Hp & _ & Hb & _). rewrite Hs in E.
  destruct ok; [|done]. injection E as -> <-. specialize (Hb eq_refl).
  apply bind_Some in H as (l & Hl & H). apply truename_loop_sound in Hl; [|done..]. rewrite Hc in Hl.
  destruct (push_components _ _ _) as [st|]; [|by subst; injection H as <-].
  destruct Hl as [-> Hst]. apply bind_Some in H as (p & H & [= <-]). f_equal.
  by apply finish_path_spec in H.
Qed.

Lemma push_components_length Flags root st s st' :
  push_components Flags st (components s) = Some st' →
  (length (path_of root st') ≤ length (path_of root st) + 3 * length s)%nat.
Proof.
  revert st. induction s as [s IH] using (induction_ltof1 _ length). unfold ltof in IH. intros st.
  destruct (decide (s = [])) as [->|Hn]; [intros [= <-]; lia|].
  destruct (next_partial_split s) as (_ & _ & _ & Hl & Hle & _). specialize (Hl Hn).
  rewrite components_next. case_decide as Hc.
  - cbn [app]. intros H. apply IH in H; lia.
  - cbn [app push_components]. intros (st1 & H1 & H)%bind_Some. apply IH in H; [|done].
    apply (push_component_length _ root) in H1; [lia|done].
Qed.

Lemma truename_total default_drive subst cds source Flags :
  Forall (λ c, canonical_dir (CurDir c)) cds →
  let d := (drive_of default_drive source).1 in
  let root := root_of subst d Flags in
  root ≠ [] → (length root + length (getcwd cds d) + 4 * length source < FD32_LFNMAX)%nat →
  is_Some (truename default_drive subst cds source Flags).
Proof.
  intros Hcds d root Hroot Hl. unfold truename. pose proof (drive_of_length default_drive source) as [Hd Hs].
  assert (FD32_LFNMAX < FD32_LFNPMAX)%nat by (apply Nat.ltb_lt; done).
  rewrite split_drive_total by lia. subst d. cbn [mbind option_bind].
  destruct (drive_of default_drive source) as [d s]. cbn [fst snd] in *.
  rewrite root_start_total by (done || fold root; lia). fold root. cbn [mbind option_bind].
  destruct (start_path_spec cds d root s Hcds) as (ok & s' & -> & Hc & Hp & Hlen & Hb & Hok & Hle).
  rewrite Hok in * by lia. cbn [mbind option_bind].
  assert (Hroom : (length (buffer_of root (start_of cds d s)) + 3 * length s' ≤ FD32_LFNPMAX)%nat)
    by (unfold FD32_LFNMAX, FD32_LFNPMAX in *; lia).
  destruct (truename_loop_total (length s') root (start_of cds d s) s' Flags) as [r Hr]; [done|lia..|].
  rewrite Hr. cbn [mbind option_bind]. pose proof Hr as Hr'. apply truename_loop_sound in Hr'; [|done|lia].
  destruct (push_components Flags _ (components s')) as [st|] eqn:E; [|subst r; by eexists].
  destruct Hr' as [-> _]. apply (push_components_length _ root) in E. rewrite length_buffer_of in *.
  destruct (finish_path_total root st) as [p ->]; [| |by eexists].
  - pose proof (length_path_of root st). destruct root; [done|]. intros Hn. rewrite Hn in *. cbn in *. lia.
  - rewrite length_buffer_of. unfold FD32_LFNMAX, FD32_LFNPMAX in *. lia.
Qed.

(** ** Current directories *)

(** Setting the current directory of a drive, in its entry and in a new one. *)
Lemma find_cds_set l a d dir d' :
  Forall (λ c, nonnull (CdsDrive c)) l → nonnull d → nonnull d' →
  getcwd (mkCds a d dir :: set_curdir l d dir) d' = if CString.strcasecmp d d' =? 0 then dir else getcwd l d'.
Proof.
  intros Hl Hd Hd'. unfold getcwd, find_cds. cbn [List.find CdsDrive].
  destruct (Z.eqb_spec (CString.strcasecmp d d') 0) as [E|E]; [done|].
  rewrite strcasecmp_eq in E by done. induction Hl as [|c l Hc _ IH]; [done|]. cbn [set_curdir].
  destruct (Z.eqb_spec (CString.strcasecmp (CdsDrive c) d) 0) as [E1|E1]; cbn [List.find CdsDrive].
  - rewrite strcasecmp_eq in E1 by done. destruct (Z.eqb_spec (CString.strcasecmp (CdsDrive c) d') 0) as [E2|E2]; [|done].
    rewrite strcasecmp_eq in E2 by done. congruence.
  - destruct (CString.strcasecmp (CdsDrive c) d' =? 0); [done|exact IH].
Qed.

Lemma set_curdir_forall (P : tCds → Prop) l d dir :
  (∀ c, P c → P (mkCds (c_at c) (CdsDrive c) dir)) → Forall P l → Forall P (set_curdir l d dir).
Proof.
  intros HP. induction 1 as [|c l Hc Hl IH]; cbn [set_curdir]; [constructor|].
  destruct (_ =? 0); constructor; [by apply HP|done|done|done].
Qed.

(** ** The canonical name of a directory *)

Lemma strchr_take s c n : strchr s c = Some n → c ∉ take n s.
Proof.
  revert n. induction s as [|x s IH]; intros n; cbn; [done|]. destruct (Z.eqb_spec x c) as [->|Hx].
  - intros [= <-]. cbn. set_solver.
  - destruct (strchr s c) as [k|]; cbn; [|done]. intros [= <-]. cbn. specialize (IH _ eq_refl). set_solver.
Qed.
Lemma strchr_app d c s : c ∉ d → strchr (d ++ c :: s) c = Some (length d).
Proof.
  induction d as [|x d IH]; cbn; [by rewrite Z.eqb_refl|]. intros Hn.
  rewrite (proj2 (Z.eqb_neq _ _)) by set_solver. by rewrite IH by set_solver.
Qed.
Lemma drive_of_spec default s : default ≠ 58 → nonnull s → 58 ∉ (drive_of default s).1 ∧ nonnull (drive_of default s).1.
Proof.
  intros Hd Hs. unfold drive_of. destruct (strchr s 58) as [n|] eqn:E; cbn [fst].
  - split; [by apply strchr_take in E|by apply Forall_take].
  - destruct (nz default) eqn:En; [|by split; [set_solver|constructor]].
    split; [set_solver|]. apply Forall_singleton. by apply nz_true.
Qed.

Lemma seal_drive d st :
  Forall plain st → ∃ dir, seal (path_of (d ++ [58]) st) = d ++ 58 :: dir ∧ canonical_dir dir.
Proof.
  intros Hst. assert (E : path_of (d ++ [58]) st = d ++ 58 :: path_of [] st) by (unfold path_of; by rewrite <- app_assoc).
  unfold seal. rewrite E. destruct (decide (st = [])) as [->|Hn].
  - exists [BACKSLASH]. change (path_of [] []) with (@nil Z). rewrite last_snoc, bool_decide_true, <- app_assoc by done.
    split; [done|]. split; [done|]. exists []. split; [constructor|by right].
  - destruct (path_of_last st Hst Hn) as (q & y & Hq & _). case_bool_decide.
    + exists (path_of [] st ++ [BACKSLASH]). rewrite <- app_assoc. split; [done|].
      split; [by destruct (path_of [] st)|]. exists st. split; [done|by right].
    + exists (path_of [] st). split; [done|]. split; [rewrite Hq; by destruct q|]. exists st. split; [done|by left].
Qed.

Lemma push_components_plain Flags st cs st' :
  Forall plain st → Forall plain cs → push_components Flags st cs = Some st' → Forall plain st'.
Proof.
  intros Hst Hcs. revert st Hst. induction Hcs as [|c cs Hc _ IH]; intros st Hst; cbn; [by intros [= <-]|].
  intros (st1 & H1 & H)%bind_Some. eapply IH; [|exact H]. by eapply push_component_plain.
Qed.

Lemma canonical_dots default subst cds name aux :
  Forall (λ c, canonical_dir (CurDir c)) cds →
  canonical default subst cds name FD32_TNDOTS = (0, aux) →
  ∃ dir, aux = (drive_of default name).1 ++ 58 :: dir ∧ canonical_dir dir.
Proof.
  intros Hcds. unfold canonical. destruct (drive_of default name) as [d s]. cbn [fst].
  destruct (push_components _ _ _) as [st|] eqn:E; [|done]. intros [= <-]. apply seal_drive.
  eapply push_components_plain, E; [|apply components_plain]. unfold start_of.
  destruct (is_slash _); [constructor|apply components_plain].
Qed.

(** * Theorems *)

(** C16: canonicalizing a name in the character buffers, scanning back over them for
    the dots, is what pushing its components on the stack of the current (or of the
    root) directory is: whenever no buffer overflows the result is that of the
    specification, and none overflows when the root, the current directory and four
    times the name fit in 256 characters. *)
Theorem truename_canonical default_drive subst cds source Flags :
  Forall (λ c, canonical_dir (CurDir c)) cds →
  (∀ r, truename default_drive subst cds source Flags = Some r → r = canonical default_drive subst cds source Flags) ∧
  let d := (drive_of default_drive source).1 in
  let root := root_of subst d Flags in
  (root ≠ [] → (length root + length (getcwd cds d) + 4 * length source < FD32_LFNMAX)%nat →
   truename default_drive subst cds source Flags = Some (canonical default_drive subst cds source Flags)).
Proof.
  intros Hcds. split; [by intros r; apply truename_sound|]. intros d root Hr Hl.
  destruct (truename_total default_drive subst cds source Flags Hcds Hr Hl) as [r Er]. rewrite Er. f_equal.
  by eapply truename_sound.
Qed.

(** [c:a\.\..\b], with the current directory [\D\E] of [C]. *)
Lemma truename_canonical_witness :
  truename 65 [] [mkCds 0 [67] [92; 68; 92; 69]] [99; 58; 97; 92; 46; 92; 46; 46; 92; 98] FD32_TNDOTS
  = Some (0, [99; 58; 92; 68; 92; 69; 92; 98]).
Proof.
  refine (proj2 (truename_canonical 65 [] [mkCds 0 [67] [92; 68; 92; 69]]
                   [99; 58; 97; 92; 46; 92; 46; 46; 92; 98] FD32_TNDOTS _) _ _).
  - apply Forall_singleton. split; [done|]. exists [[68]; [69]]. split; [|by left].
    repeat (constructor; [split; [done|by repeat constructor]|]). constructor.
  - done.
  - apply Nat.ltb_lt. reflexivity.
Defined.

(** The current directories of a process: canonical, for drives with a name. *)
Definition directories_ok (cds : list tCds) : Prop :=
  Forall (λ c, canonical_dir (CurDir c) ∧ nonnull (CdsDrive c)) cds.

Section chdir.
Context {W : Type} `{KernelWorld W} `{Fuel}.

(** File system drivers answer an open request with an error or, for a directory
    that exists, with FD32_OROPEN. *)
Definition opens_directories : Prop :=
  ∀ a v p w x w', driver a v (FD32_OPENFILE p (Z.lor O_RDONLY O_DIRECTORY) 0) w = Done x w' →
  x.1 < 0 ∨ x.1 = FD32_OROPEN.
Hypothesis opens : opens_directories.

Lemma request_opens r v p (s : kernel W) x s' :
  call_request r v (FD32_OPENFILE p (Z.lor O_RDONLY O_DIRECTORY) 0) s = Done x s' → x.1 < 0 ∨ x.1 = FD32_OROPEN.
Proof.
  destruct r; cbn [call_request fake_console_request dummy_request]; [done|by intros [= <- <-]; left..|].
  unfold call_driver. destruct (driver _ _ _ _) as [y w| |] eqn:E; [|done..]. intros [= <- <-]. by eapply opens.
Qed.

Lemma open_directory_opens n name (s : kernel W) x s' :
  open_directory n name s = Done x s' → x.1 < 0 ∨ x.1 = FD32_OROPEN.
Proof.
  revert s. induction n as [|n IH]; intros s; [done|]. cbn [open_directory].
  intros ([res [[r v] path]] & s1 & _ & H1)%bind_done. destruct (Z.ltb_spec res 0) as [Hr|_]; [by injection H1 as <- <-; left|].
  apply bind_done in H1 as ([res' rep] & s2 & Hq & H1). apply request_opens in Hq.
  destruct (res' =? - ENOTMOUNT); [by apply IH in H1|]. by injection H1 as <- <-.
Qed.

Lemma truename_done name f (s : kernel W) x s' :
  fd32_truename name f s = Done x s' → s' = s ∧ truename (DefaultDrive s) (SubstList s) (CdsList s) name f = Some x.
Proof.
  unfold fd32_truename. intros (r & s1 & [= <- <-] & H1)%bind_done.
  destruct (truename _ _ _ _ _) as [y|]; [|done]. by injection H1 as <- <-.
Qed.

Lemma same_tables_cds (s s' : kernel W) :
  same_tables s s' → DefaultDrive s' = DefaultDrive s ∧ SubstList s' = SubstList s ∧ CdsList s' = CdsList s.
Proof. intros <-. by destruct s'. Qed.

Lemma guard_done {S A} b (r : A) (k : M S A) s x s' :
  guard_ret b r k s = Done x s' → b = true ∧ x = r ∧ s' = s ∨ b = false ∧ k s = Done x s'.
Proof. destruct b; [intros [= <- <-]; by left|by right]. Qed.

(** A call that fails before the directory is known to be there, and what is stored
    once it is. *)
Lemma chdir_cases (s s' : kernel W) name res :
  fd32_chdir name s = Done res s' →
  res < 0 ∧ CdsList s' = CdsList s ∨
  ∃ aux n, truename (DefaultDrive s) (SubstList s) (CdsList s) name FD32_TNDOTS = Some aux ∧ 0 ≤ aux.1 ∧
    strchr aux.2 58 = Some n ∧
    let d := take n aux.2 in let dir := drop (S n) aux.2 in
    (res = - ENOMEM ∧ CdsList s' = set_curdir (CdsList s) d dir ∨
     res = 0 ∧ ∃ a, CdsList s' = mkCds a d dir :: set_curdir (CdsList s) d dir).
Proof.
  unfold fd32_chdir. intros ([r0 aux0] & s0 & [-> _]%truename_done & H1)%bind_done.
  apply guard_done in H1 as [(Hr & -> & ->)|[_ H1]]; [left; split; [by apply Z.ltb_lt|done]|].
  apply bind_done in H1 as ([r1 [[r v] file]] & s1 & Ho & H1). pose proof (framed_open_directory _ _ _ _ _ Ho) as F1.
  apply open_directory_opens in Ho. cbn [fst] in Ho.
  apply guard_done in H1 as [(Hr & -> & ->)|[_ H1]].
  { apply same_tables_cds in F1 as (_ & _ & F1). left. split; [|done].
    destruct Ho as [Ho| ->]; [done|]. by cbn in Hr. }
  apply bind_done in H1 as (x & s2 & Hc & H1). apply framed_request in Hc.
  assert (F2 : same_tables s s2) by (by etrans). apply same_tables_cds in F2 as (Fd & Fs & Fc).
  apply bind_done in H1 as ([r3 aux] & s3 & [-> Ht]%truename_done & H1). rewrite Fd, Fs, Fc in Ht.
  apply guard_done in H1 as [(Hr & -> & ->)|[Hr H1]]; [left; split; [by apply Z.ltb_lt|done]|].
  apply bind_done in H1 as (n & s4 & Hn & H1). destruct (strchr aux 58) as [n'|] eqn:En; [|done].
  injection Hn as -> <-. right. exists (r3, aux), n. cbn [fst snd]. apply Z.ltb_ge in Hr. split_and!; [done..|].
  apply bind_done in H1 as (u & s5 & Hf & H1).
  assert (s5 = s2) as -> by (revert Hf; unfold fits; case_bool_decide; [by intros [= _ <-]|done]).
  apply bind_done in H1 as (u' & s6 & [= _ <-] & H1).
  apply bind_done in H1 as (a & s7 & (y & s8 & [= <- <-] & (? & ? & [= _ <-] & [= <- <-])%bind_done)%bind_done & H1).
  apply guard_done in H1 as [(_ & -> & ->)|[_ H1]].
  - left. by rewrite <- Fc.
  - injection H1 as <- <-. right. split; [done|]. eexists. cbn. by rewrite <- Fc.
Qed.

(** C18: a change of the current directory that succeeds makes the canonical name
    of the directory the current directory of its drive, under any case of the
    drive's name, and of no other; one that fails for another reason than memory
    changes none. The current directories stay canonical in either case. *)
Theorem fd32_chdir_correct (s s' : kernel W) name res :
  directories_ok (CdsList s) → nonnull name → DefaultDrive s ≠ 58 →
  fd32_chdir name s = Done res s' →
  directories_ok (CdsList s') ∧
  (res = 0 → let d := (drive_of (DefaultDrive s) name).1 in ∃ dir,
     canonical (DefaultDrive s) (SubstList s) (CdsList s) name FD32_TNDOTS = (0, d ++ 58 :: dir) ∧
     ∀ d', nonnull d' →
       getcwd (CdsList s') d' = if CString.strcasecmp d d' =? 0 then dir else getcwd (CdsList s) d') ∧
  (res ≠ 0 → res ≠ - ENOMEM → CdsList s' = CdsList s).
Proof.
  intros Hok Hn Hd Hrun.
  assert (Hcan : Forall (λ c, canonical_dir (CurDir c)) (CdsList s)) by (eapply Forall_impl; [exact Hok|by intros c []]).
  assert (Hnam : Forall (λ c, nonnull (CdsDrive c)) (CdsList s)) by (eapply Forall_impl; [exact Hok|by intros c []]).
  apply chdir_cases in Hrun as [[Hr ->]|([r aux] & n & Ht & Hr & Hs & Hrun)].
  { split_and!; [done|lia|done]. }
  cbn [fst snd] in *. apply truename_sound in Ht; [|done].
  assert (r = 0) as ->.
  { revert Ht. unfold canonical. destruct (drive_of _ _), (push_components _ _ _); intros [= -> _]; [done|].
    by unfold ENOTDIR in Hr. }
  symmetry in Ht. pose proof (canonical_dots _ _ _ _ _ Hcan Ht) as (dir & -> & Hdir).
  destruct (drive_of_spec (DefaultDrive s) name Hd Hn) as [Hd58 Hdn].
  set (d := (drive_of (DefaultDrive s) name).1) in *. rewrite strchr_app in Hs by done. injection Hs as <-.
  rewrite take_app_length in Hrun.
  replace (drop (S (length d)) (d ++ 58 :: dir)) with dir in Hrun
    by (rewrite drop_app_ge by lia; by replace (S (length d) - length d)%nat with 1%nat by lia).
  assert (Hset : directories_ok (set_curdir (CdsList s) d dir)) by (apply set_curdir_forall; [by intros c []|done]).
  destruct Hrun as [[-> ->]|(-> & a & ->)]; split_and!; [done|done|done|by constructor| |done].
  intros _. exists dir. split; [done|]. intros d' Hd'. by apply find_cds_set.
Qed.
End chdir.

Import Toy.

(** Changing to [\\a\\b] on the default drive [C], seen as the directory of [c]. *)
Lemma fd32_chdir_correct_witness :
  ∃ s', fd32_chdir [92; 97; 92; 98] (Toy.start 2) = Done 0 s' ∧ getcwd (CdsList s') [99] = [92; 97; 92; 98].
Proof.
  assert (opens : opens_directories (W := Toy.world)).
  { intros a v p w x w' [= <- _]. by right. }
  destruct (fd32_chdir [92; 97; 92; 98] (Toy.start 2)) as [res s'| |] eqn:E; [|by vm_compute in E..].
  assert (res = 0) as -> by (apply (f_equal (λ o, match o with Done r _ => r | _ => 1 end)) in E; by vm_compute in E).
  exists s'. split; [done|].
  destruct (fd32_chdir_correct opens (Toy.start 2) s' [92; 97; 92; 98] 0) as (_ & Hset & _);
    [constructor|by repeat (constructor; [done|])|done|done|].
  destruct (Hset eq_refl) as (dir & Hd & Hcwd). rewrite Hcwd by (by repeat constructor).
  assert (Hc : canonical 67 [] [] [92; 97; 92; 98] FD32_TNDOTS = (0, [67] ++ 58 :: [92; 97; 92; 98])) by reflexivity.
  assert ([67] ++ 58 :: [92; 97; 92; 98] = [67] ++ 58 :: dir) as [= <-] by (injection (eq_trans (eq_sym Hc) Hd); congruence).
  reflexivity.
Defined.
