(* ===== verification/JftSpec.v ===== *)
(** The job file table, proved against any driver that counts the references to its
    files: an open handle holds a reference, whatever the sequence of calls, until a close
    fails after the driver has given the reference up; and the new handle of [fd32_dup] is
    the lowest free one. *)
From S2P Require Import Prelude Errno Lists Nls Slab Devices.
From S2P Require Import FatTypes FatFile FatOpen FatDos FatVolume FatRequest.
From S2P Require Import KernelFs FsDrives FsPath FsCalls FsFrame Jft FsExample.
(** * What the layer relies on: a driver counts references

    A successful open of a name and a request for one more reference count one, a
    successful close counts one less; nothing else changes a count. A close that fails
    may leave the count as it is or not: [fat_close] gives the reference up before it
    writes the directory entry, and then returns the error of the writing. [lost] says
    that this has happened. *)

Definition one (b : bool) : Z := if b then 1 else 0.
Definition is_file (a f b g : Z) : bool := (a =? b) && (f =? g).

Definition counts_references (r : request) : bool :=
  match r with FD32_OPENFILE _ _ _ | FD32_OPEN _ | FD32_CLOSE _ => true | _ => false end.

Class CountingDriver (W : Type) `{KernelWorld W} := {
  refs : Z → Z → W → Z;
  lost : W → Prop;
  lost_driver a v r w x w' : driver a v r w = Done x w' → lost w → lost w';
  lost_cputs l w : lost w → lost (cputs l w);
  lost_page w : lost w → lost (page_alloc (PageSource := kw_pages) w).2;
  refs_openfile a v p m t w x w' : driver a v (FD32_OPENFILE p m t) w = Done x w' →
    (x.1 < 0 → ∀ b g, refs b g w' = refs b g w) ∧
    (0 ≤ x.1 → ∀ b g, refs b g w' = refs b g w + one (is_file a (opened x.2) b g));
  refs_open a v f w x w' : 0 < refs a f w → driver a v (FD32_OPEN f) w = Done x w' →
    ∀ b g, refs b g w' = refs b g w + one (is_file a f b g);
  refs_close a v f w x w' : 0 < refs a f w → driver a v (FD32_CLOSE f) w = Done x w' →
    (x.1 < 0 → ¬ lost w' → ∀ b g, refs b g w' = refs b g w) ∧
    (0 ≤ x.1 → ∀ b g, refs b g w' = refs b g w - one (is_file a f b g));
  refs_other a v r w x w' : counts_references r = false → driver a v r w = Done x w' →
    ∀ b g, refs b g w' = refs b g w;
  refs_cputs l w b g : refs b g (cputs l w) = refs b g w;
  refs_page w b g : refs b g (page_alloc (PageSource := kw_pages) w).2 = refs b g w }.

(** * Lemmas *)

(** The references an entry of the table holds, and those that the table does. *)
Definition holds (r : fd32_request_t) (file b g : Z) : Z :=
  match r with DriverRequest a => one (is_file a file b g) | _ => 0 end.
Definition entry_holds (b g : Z) (j : JftEntry) : Z := holds (j_request j) (j_file j) b g.
Fixpoint holders (b g : Z) (l : list JftEntry) : Z :=
  match l with
  | [] => 0
  | j :: l => entry_holds b g j + holders b g l
  end.

Lemma holds_bounds r f b g : 0 ≤ holds r f b g ≤ 1.
Proof. unfold holds, one. destruct r; try lia. destruct (is_file _ _ _ _); lia. Qed.
Lemma holders_nonneg b g l : 0 ≤ holders b g l.
Proof.
  induction l as [|j l IH]; cbn; [done|]. unfold entry_holds. pose proof (holds_bounds (j_request j) (j_file j) b g). lia.
Qed.
Lemma holders_insert b g l i j k :
  l !! i = Some j → holders b g (<[i := k]> l) = holders b g l - entry_holds b g j + entry_holds b g k.
Proof.
  revert i. induction l as [|x l IH]; intros [|i]; cbn; [done..|intros [= ->]; lia|]. intros Hi. specialize (IH _ Hi). unfold insert in *. lia.
Qed.
Lemma holders_lookup b g l i j : l !! i = Some j → entry_holds b g j ≤ holders b g l.
Proof.
  revert i. induction l as [|x l IH]; intros [|i]; cbn; [done..| |].
  - intros [= ->]. pose proof (holders_nonneg b g l). lia.
  - intros Hi. specialize (IH _ Hi). unfold entry_holds in *. pose proof (holds_bounds (j_request x) (j_file x) b g). lia.
Qed.
Lemma is_file_refl a f : is_file a f a f = true.
Proof. unfold is_file. by rewrite !Z.eqb_refl. Qed.

Section references.
Context {W : Type} {KW : KernelWorld W} {CD : CountingDriver W} {FU : Fuel}.
Notation KM := (M (kernel W)).

(** The table of the process against the driver's counts: other processes and the
    kernel hold [ext] references. *)
Variable ext : Z → Z → Z.
Hypothesis ext_nonneg : ∀ b g, 0 ≤ ext b g.

Definition referenced (s : kernel W) : Prop :=
  ¬ lost (k_world s) → ∀ b g, holders b g (jft s) + ext b g ≤ refs b g (k_world s).

(** A step that changes the counts by [d] and the table not at all. *)
Definition counted (d : Z → Z → Z) (s s' : kernel W) : Prop :=
  jft s' = jft s ∧ (¬ lost (k_world s') → ¬ lost (k_world s) ∧
    ∀ b g, refs b g (k_world s') = refs b g (k_world s) + d b g).
Definition quiet {A} (m : KM A) : Prop := ∀ s a s', m s = Done a s' → counted (λ _ _, 0) s s'.

Lemma counted_trans d s1 s2 s3 : counted (λ _ _, 0) s1 s2 → counted d s2 s3 → counted d s1 s3.
Proof.
  intros [E1 H1] [E2 H2]. split; [by rewrite E2|]. intros [[N1 R1]%H1 R2]%H2. split; [done|].
  intros b g. rewrite R2, R1. lia.
Qed.
Lemma counted_refl s : counted (λ _ _, 0) s s.
Proof. split; [done|]. intros. split; [done|]. intros. lia. Qed.
Lemma counted_referenced s s' : counted (λ _ _, 0) s s' → referenced s → referenced s'.
Proof. intros [E Hr] Hi [N R]%Hr b g. rewrite E, R. specialize (Hi N b g). lia. Qed.

Lemma quiet_bind {A B} (m : KM A) (k : A → KM B) : quiet m → (∀ a, quiet (k a)) → quiet (m ≫= k).
Proof. intros Hm Hk s b s' (a & s1 & H1 & H2)%bind_done. eapply counted_trans; [by eapply Hm|by eapply Hk]. Qed.
Lemma quiet_ret {A} (a : A) : quiet (mret a).
Proof. intros s b s' [= <- <-]. apply counted_refl. Qed.
Lemma quiet_gets {A} (f : kernel W → A) : quiet (gets f).
Proof. intros s b s' [= <- <-]. apply counted_refl. Qed.
Lemma quiet_fault {A} : quiet (A := A) fault.
Proof. done. Qed.
Lemma quiet_nofuel {A} : quiet (A := A) nofuel.
Proof. done. Qed.
Lemma quiet_deref {A} (o : option A) : quiet (deref o).
Proof. destruct o; [apply quiet_ret|apply quiet_fault]. Qed.
Lemma quiet_guard {A} (b : bool) (r : A) (k : KM A) : quiet k → quiet (guard_ret b r k).
Proof. destruct b; [intros _; apply quiet_ret|done]. Qed.
Lemma quiet_modify (f : kernel W → kernel W) :
  (∀ s, jft (f s) = jft s) → (∀ s, k_world (f s) = k_world s) → quiet (modify f).
Proof. intros Hj Hw s a s' [= <- <-]. split; [by rewrite Hj|]. rewrite Hw. intros N. split; [done|]. intros b g. lia. Qed.

Create HintDb quiet discriminated.
#[local] Hint Resolve quiet_ret quiet_gets quiet_fault quiet_nofuel quiet_deref : quiet.
Ltac quiet :=
  repeat first
    [ solve [auto with quiet nocore]
    | apply quiet_bind; [|intros ?]
    | apply quiet_guard
    | apply quiet_modify; [done|done]
    | match goal with
      | |- quiet (if ?b then _ else _) => destruct b
      | |- quiet (match ?x with _ => _ end) => destruct x
      end ].

Lemma quiet_console k b n : quiet (console_loop k b n).
Proof.
  revert b n. induction k as [|k IH]; intros b n; cbn [console_loop]; quiet.
  intros s u s' [= <- <-]. split; [done|]. intros N. split; [intros L; apply N; cbn; by apply lost_cputs|].
  intros c g. cbn. rewrite refs_cputs. lia.
Qed.
#[local] Hint Resolve quiet_console : quiet.
Lemma quiet_request r v f : counts_references f = false → quiet (call_request r v f).
Proof.
  intros Hf. destruct r; cbn [call_request]; unfold fake_console_request, fake_console_write, dummy_request; quiet.
  intros s x s'. unfold call_driver. destruct (driver _ _ _ _) as [y w| |] eqn:E; [|done..]. intros [= <- <-].
  split; [done|]. intros N. split; [by intros ?%(lost_driver _ _ _ _ _ _ E)|].
  intros b g. cbn. rewrite (refs_other _ _ _ _ _ _ Hf E). lia.
Qed.
Lemma quiet_drive i : quiet (drive i).
Proof. unfold drive. quiet. Qed.
#[local] Hint Resolve quiet_drive : quiet.
Lemma quiet_set_drive i f : quiet (set_drive i f).
Proof. unfold set_drive. quiet. Qed.
#[local] Hint Resolve quiet_set_drive : quiet.
Lemma quiet_mount rs i b : quiet (mount_drive rs i b).
Proof. induction rs as [|r rs IH]; cbn [mount_drive]; quiet. by apply quiet_request. Qed.
#[local] Hint Resolve quiet_mount : quiet.
Lemma quiet_get_drive name : quiet (fd32_get_drive name).
Proof. unfold fd32_get_drive. quiet. Qed.
#[local] Hint Resolve quiet_get_drive : quiet.
Lemma quiet_truename name f : quiet (fd32_truename name f).
Proof. unfold fd32_truename. quiet. Qed.
#[local] Hint Resolve quiet_truename : quiet.

(** ** The memory of the searches *)

Definition slab_quiet {A} (m : M (Slab.SlabCache * Slab.arena W) A) : Prop :=
  ∀ s a s', m s = Done a s' → (lost (Slab.source s.2) → lost (Slab.source s'.2)) ∧
    ∀ b g, refs b g (Slab.source s'.2) = refs b g (Slab.source s.2).
Lemma slab_quiet_bind {A B} (m : M (Slab.SlabCache * Slab.arena W) A) (k : A → M _ B) :
  slab_quiet m → (∀ a, slab_quiet (k a)) → slab_quiet (m ≫= k).
Proof.
  intros Hm Hk s x s' (a & s1 & [L1 R1]%Hm & [L2 R2]%Hk)%bind_done. split; [auto|]. intros b g. by rewrite R2.
Qed.
Lemma slab_quiet_ret {A} (a : A) : slab_quiet (mret a).
Proof. by intros s x s' [= <- <-]. Qed.
Lemma slab_quiet_gets {A} (f : _ → A) : slab_quiet (gets f).
Proof. by intros s x s' [= <- <-]. Qed.
Lemma slab_quiet_cache f : slab_quiet (Slab.set_cache f).
Proof. by intros s x s' [= <- <-]. Qed.
Lemma slab_quiet_load p : slab_quiet (Slab.load p).
Proof. apply slab_quiet_bind; [apply slab_quiet_gets|]. by intros [x|] s y s'; [intros [= <- <-]|]. Qed.
Lemma slab_quiet_store p v : slab_quiet (Slab.store p v).
Proof. apply slab_quiet_bind; [apply slab_quiet_gets|]. by intros [] s y s'; [intros [= <- <-]|]. Qed.
#[local] Hint Resolve slab_quiet_ret slab_quiet_gets slab_quiet_cache slab_quiet_load slab_quiet_store : quiet.
Lemma slab_quiet_thread n p z : slab_quiet (Slab.thread n p z).
Proof.
  revert p. induction n as [|n IH]; intros p; cbn; auto with quiet. apply slab_quiet_bind; auto with quiet.
Qed.
Lemma slab_quiet_page : slab_quiet (Slab.SLABMEM_PAGE_ALLOC (H := kw_pages)).
Proof. intros s x s' (r & s1 & [= <- <-] & (u & s2 & [= <- <-] & [= <- <-])%bind_done)%bind_done. split; [apply lost_page|]. intros b g. apply refs_page. Qed.
#[local] Hint Resolve slab_quiet_thread slab_quiet_page : quiet.
Lemma slab_quiet_alloc : slab_quiet (Slab.slabmem_alloc (H := kw_pages)).
Proof.
  unfold Slab.slabmem_alloc, Slab.get_cache.
  repeat first [solve [auto with quiet nocore]|apply slab_quiet_bind; [|intros ?]
               |match goal with |- slab_quiet (if ?b then _ else _) => destruct b end].
Qed.
Lemma slab_quiet_free p : slab_quiet (Slab.slabmem_free p).
Proof. unfold Slab.slabmem_free, Slab.get_cache. repeat (apply slab_quiet_bind; [|intros ?]; auto with quiet). Qed.

Lemma quiet_on_searches {A} (m : M (Slab.SlabCache * Slab.arena W) A) : slab_quiet m → quiet (on_searches m).
Proof.
  intros Hm s a s'. unfold on_searches. destruct (m _) as [x [c r]| |] eqn:E; [|done..]. intros [= <- <-].
  split; [done|]. destruct (Hm _ _ _ E) as [L R]. cbn in *. intros N. split; [auto|]. intros b g. specialize (R b g). lia.
Qed.
#[local] Hint Resolve quiet_on_searches slab_quiet_alloc slab_quiet_free : quiet.
Lemma quiet_search_get : quiet search_get.
Proof. unfold search_get. quiet. Qed.
Lemma quiet_search_put p : quiet (search_put p).
Proof. unfold search_put. quiet. Qed.
#[local] Hint Resolve quiet_search_get quiet_search_put : quiet.

(** ** Opening, one more reference, closing *)

(** An open counts one reference of the file it returns. *)
Definition opens_one {A} (res : A → Z) (r : A → fd32_request_t) (file : A → Z) (m : KM A) : Prop :=
  ∀ s x s', m s = Done x s' →
    (res x < 0 → counted (λ _ _, 0) s s') ∧ (0 ≤ res x → counted (holds (r x) (file x)) s s').

Lemma request_opens_one r v p m t : opens_one fst (λ _, r) (λ x, opened x.2) (call_request r v (FD32_OPENFILE p m t)).
Proof.
  intros s x s'. destruct r; cbn [call_request fake_console_request dummy_request];
    [done|by intros [= <- <-]; split; [intros; apply counted_refl|]..|].
  unfold call_driver. destruct (driver _ _ _ _) as [y w| |] eqn:E; [|done..]. intros [= <- <-].
  pose proof (lost_driver _ _ _ _ _ _ E) as L. apply refs_openfile in E as [H1 H2].
  split; intros Hr; (split; [done|]); (intros N; split; [by intros ?%L|]); intros b g; cbn.
  - rewrite (H1 Hr). lia.
  - by rewrite (H2 Hr).
Qed.

Lemma on_drive_opens_one n aux m t :
  opens_one fst (λ x, x.2.1) (λ x, opened x.2.2) (on_drive n aux (λ path, FD32_OPENFILE path m t)).
Proof.
  induction n as [|n IH]; intros s x s'; [done|]. cbn [on_drive].
  intros ([res [[r v] path]] & s1 & Hd & H1)%bind_done. apply quiet_get_drive in Hd.
  destruct (Z.ltb_spec res 0) as [Hr|Hr]; [by injection H1 as <- <-; split; [|cbn; lia]|]. cbn [guard_ret] in H1.
  apply bind_done in H1 as ([res' rep] & s2 & Hq & H1). apply request_opens_one in Hq as [Hn Hp]. cbn [fst snd] in *.
  destruct (Z.eqb_spec res' (- ENOTMOUNT)) as [->|Hm]; cbn [negb] in H1.
  - specialize (Hn ltac:(done)). pose proof (counted_trans _ _ _ _ Hd Hn) as Hc.
    destruct (IH _ _ _ H1) as [H2 H3]. split; intros Hx; (eapply counted_trans; [exact Hc|auto]).
  - injection H1 as <- <-. cbn [fst snd]. split; intros Hx; (eapply counted_trans; [exact Hd|auto]).
Qed.

Lemma fs_open_opens_one name m t : opens_one fst (λ x, x.2.1) (λ x, x.2.2) (fs_open name m t).
Proof.
  intros s x s'. unfold fs_open, on_name. intros ([res [r rep]] & s1 & Ho & H1)%bind_done.
  injection H1 as <- <-. cbn [fst snd]. apply bind_done in Ho as ([r0 aux] & s0 & Ht & H1).
  apply quiet_truename in Ht.
  destruct (Z.ltb_spec r0 0) as [Hr|Hr]; cbn [guard_ret] in H1; [by injection H1 as <- <- <- <-; split; [|cbn; lia]|].
  apply on_drive_opens_one in H1 as [H2 H3]. cbn [fst snd] in *.
  split; intros Hx; (eapply counted_trans; [exact Ht|auto]).
Qed.

Lemma holds_positive a f w : (∀ b g, holds (DriverRequest a) f b g ≤ refs b g w) → 0 < refs a f w.
Proof. intros Hh. specialize (Hh a f). unfold holds in Hh. rewrite is_file_refl in Hh. unfold one in Hh. lia. Qed.

(** Another reference of a file that has one, and one less. *)
Lemma request_references r v f s x s' :
  (¬ lost (k_world s) → ∀ b g, holds r f b g ≤ refs b g (k_world s)) →
  call_request r v (FD32_OPEN f) s = Done x s' → counted (holds r f) s s'.
Proof.
  intros Hh. destruct r; cbn [call_request fake_console_request dummy_request];
    [done|by intros [= <- <-]; apply counted_refl..|].
  unfold call_driver. destruct (driver _ _ _ _) as [y w| |] eqn:E; [|done..]. intros [= <- <-].
  split; [done|]. intros N. assert (N' : ¬ lost (k_world s)) by (by intros ?%(lost_driver _ _ _ _ _ _ E)).
  split; [done|]. exact (refs_open _ _ _ _ _ _ (holds_positive _ _ _ (Hh N')) E).
Qed.
Lemma fs_close_releases r f s x s' :
  (¬ lost (k_world s) → ∀ b g, holds r f b g ≤ refs b g (k_world s)) →
  fs_close r f s = Done x s' →
  (x < 0 → counted (λ _ _, 0) s s') ∧ (0 ≤ x → counted (λ b g, - holds r f b g) s s').
Proof.
  intros Hh. unfold fs_close. intros ([res rep] & s1 & H1 & [= <- <-])%bind_done. revert H1.
  destruct r; cbn [call_request fake_console_request dummy_request];
    [done|by intros [= <- <- <-]; split; intros; apply counted_refl..|].
  unfold call_driver. destruct (driver _ _ _ _) as [y w| |] eqn:E; [|done..]. intros [= -> <-].
  split; intros Hx; (split; [done|]); intros N;
    (assert (N' : ¬ lost (k_world s)) by (by intros ?%(lost_driver _ _ _ _ _ _ E)));
    (split; [done|]); intros b g; cbn; apply refs_close in E as [Hn Hp]; try exact (holds_positive _ _ _ (Hh N')).
  - rewrite (Hn Hx N). lia.
  - rewrite (Hp Hx). lia.
Qed.

(** ** Handles *)

Definition entry_at (fd : Z) (l : list JftEntry) : option JftEntry :=
  if fd <? 0 then None else l !! Z.to_nat fd.
Definition open_at (fd : Z) (l : list JftEntry) : option JftEntry :=
  match entry_at fd l with Some j => if is_open j then Some j else None | None => None end.

Lemma open_entry_eq fd (s : kernel W) : open_entry fd s = Done (open_at fd (jft s)) s.
Proof. done. Qed.
Lemma open_at_lookup fd l j : open_at fd l = Some j → l !! Z.to_nat fd = Some j ∧ is_open j = true ∧ 0 ≤ fd.
Proof.
  unfold open_at, entry_at. destruct (Z.ltb_spec fd 0); [done|]. destruct (l !! _) as [k|]; [|done].
  destruct (is_open k) eqn:E; [|done]. by intros [= <-].
Qed.
Lemma file_handle_done fd (s : kernel W) x s' :
  validate_file_handle fd s = Done x s' → s' = s ∧ ∀ j, x = Some j → open_at fd (jft s) = Some j ∧ j_search j = 0.
Proof.
  unfold validate_file_handle, mbind, M_bind. rewrite open_entry_eq. intros [= <- <-]. split; [done|].
  intros j. destruct (open_at _ _) as [k|]; [|done]. destruct (nz (j_search k)) eqn:E; [done|]. intros [= <-].
  split; [done|by apply nz_false].
Qed.
Lemma search_handle_done fd (s : kernel W) x s' :
  validate_search_handle fd s = Done x s' → s' = s ∧ ∀ j, x = Some j → open_at fd (jft s) = Some j.
Proof.
  unfold validate_search_handle, mbind, M_bind. rewrite open_entry_eq. intros [= <- <-]. split; [done|].
  intros j. destruct (open_at _ _) as [k|]; [|done]. by destruct (nz (j_search k)).
Qed.
Lemma set_entry_done fd f (s : kernel W) u s' :
  set_entry fd f s = Done u s' →
  ∃ j, entry_at fd (jft s) = Some j ∧ s' = s <| jft ::= <[Z.to_nat fd := f j]> |>.
Proof.
  unfold set_entry, entry. intros (x & s1 & [= <- <-] & (j & s2 & H1 & [= _ <-])%bind_done)%bind_done.
  exists j. unfold entry_at. destruct (if fd <? 0 then _ else _) as [k|]; [|done]. by injection H1 as <- <-.
Qed.
Lemma entry_at_lookup fd l j : entry_at fd l = Some j → l !! Z.to_nat fd = Some j.
Proof. unfold entry_at. by destruct (fd <? 0). Qed.
Lemma closed_holds j b g : is_open j = false → entry_holds b g j = 0.
Proof. unfold is_open, is_null, entry_holds. rewrite negb_false_iff, bool_decide_eq_true. by intros ->. Qed.

Lemma free_handle_from_spec l h n :
  free_handle_from l n = Some h →
  ∃ i j, h = n + Z.of_nat i ∧ l !! i = Some j ∧ is_open j = false ∧ Forall (λ k, is_open k = true) (take i l).
Proof.
  revert n. induction l as [|x l IH]; intros n; cbn; [done|]. destruct (is_open x) eqn:E.
  - intros (i & j & -> & Hl & Hj & Hi)%IH. exists (S i), j. cbn. split_and!; [lia|done|done|by constructor].
  - intros [= <-]. exists O, x. split_and!; [lia|done|done|constructor].
Qed.
Lemma free_handle_none l n : free_handle_from l n = None → Forall (λ k, is_open k = true) l.
Proof.
  revert n. induction l as [|x l IH]; intros n; cbn; [constructor|]. destruct (is_open x) eqn:E; [|done].
  intros H. constructor; [done|by eapply IH].
Qed.
Lemma free_handle_done (s : kernel W) h s' :
  free_handle s = Done h s' → s' = s ∧ ∀ h', h = Some h' → ∃ j, jft s !! Z.to_nat h' = Some j ∧ is_open j = false.
Proof.
  intros [= <- <-]. split; [done|]. intros h' (i & j & -> & Hl & Hj & _)%free_handle_from_spec.
  exists j. rewrite Z.add_0_l, Nat2Z.id. done.
Qed.

(** ** Entries against references *)

Lemma referenced_holds (s : kernel W) i j b g :
  referenced s → jft s !! i = Some j → ¬ lost (k_world s) → entry_holds b g j ≤ refs b g (k_world s).
Proof.
  intros Hi Hj N. specialize (Hi N b g). apply (holders_lookup b g) in Hj. specialize (ext_nonneg b g). lia.
Qed.
Lemma referenced_set d (s s1 : kernel W) i j k :
  referenced s → counted d s s1 → jft s !! i = Some j →
  (∀ b g, entry_holds b g k - entry_holds b g j ≤ d b g) →
  referenced (s1 <| jft ::= <[i := k]> |>).
Proof.
  intros Hi [Ej Hr] Hj Hd [N R]%Hr b g. cbn. rewrite R, Ej, (holders_insert _ _ _ _ _ _ Hj).
  specialize (Hi N b g). specialize (Hd b g). lia.
Qed.

Lemma close_referenced fd (s : kernel W) res s' :
  referenced s → fd32_close fd s = Done res s' →
  referenced s' ∧ (∀ i, i ≠ Z.to_nat fd → jft s' !! i = jft s !! i) ∧
  (0 ≤ res → ∀ j, jft s' !! Z.to_nat fd = Some j → is_open j = false).
Proof.
  intros Hi. unfold fd32_close, with_file. intros (x & s1 & [-> Hx]%file_handle_done & H1)%bind_done.
  destruct x as [j|]; [|by injection H1 as <- <-]. destruct (Hx j eq_refl) as [[Hj _]%open_at_lookup _].
  apply bind_done in H1 as (r & s1 & Hc & H1). apply fs_close_releases in Hc as [Hn Hp];
    [|intros N b g; by apply (referenced_holds _ _ _ b g Hi Hj)].
  destruct (Z.leb_spec 0 r) as [Hr|Hr].
  - specialize (Hp Hr). apply bind_done in H1 as (u & s2 & (j' & Hj' & ->)%set_entry_done & [= <- <-]).
    apply entry_at_lookup in Hj'. pose proof Hp as [E _]. rewrite E, Hj in Hj'. injection Hj' as <-.
    split_and!.
    + eapply referenced_set; [exact Hi|exact Hp|exact Hj|]. intros b g. unfold entry_holds. cbn. lia.
    + intros i Hne. cbn. by rewrite list_lookup_insert_ne, E by done.
    + intros _ k. cbn. rewrite list_lookup_insert_eq by (rewrite E; by eapply lookup_lt_Some). by intros [= <-].
  - specialize (Hn Hr). apply bind_done in H1 as (u & s2 & [= _ <-] & [= <- <-]). pose proof Hn as [E _].
    split_and!; [by eapply counted_referenced|intros; by rewrite E|lia].
Qed.

Lemma copy_referenced oldfd newfd j i k (s : kernel W) u s' :
  referenced s → jft s !! i = Some j → jft s !! Z.to_nat newfd = Some k → is_open k = false →
  copy_entry oldfd newfd j s = Done u s' → referenced s'.
Proof.
  intros Hi Hj Hk Ho. unfold copy_entry.
  intros (u1 & s1 & (k' & Hk' & ->)%set_entry_done & (x & s2 & Hr & [= _ <-])%bind_done)%bind_done.
  apply entry_at_lookup in Hk'. rewrite Hk in Hk'. injection Hk' as <-.
  apply request_references in Hr as [Ej Er]; [|intros N b g; by apply (referenced_holds _ _ _ b g Hi Hj)].
  intros [N R]%Er b g. cbn in N. rewrite Ej, R. cbn. rewrite (holders_insert _ _ _ _ _ _ Hk), (closed_holds k) by done.
  specialize (Hi N b g). unfold entry_holds. lia.
Qed.

Lemma dup_referenced oldfd (s : kernel W) h s' :
  referenced s → fd32_dup oldfd s = Done h s' → referenced s'.
Proof.
  intros Hi. unfold fd32_dup, mbind at 1, M_bind. rewrite open_entry_eq.
  destruct (open_at oldfd (jft s)) as [j|] eqn:Ej; [|by intros [= <- <-]]. apply open_at_lookup in Ej as [Ej _].
  intros (h' & s1 & [-> Hh]%free_handle_done & H1)%bind_done. destruct h' as [n|]; [|by injection H1 as <- <-].
  destruct (Hh n eq_refl) as (k & Hk & Ho). apply bind_done in H1 as (u & s2 & Hc & [= <- <-]).
  by apply (copy_referenced _ _ _ _ _ _ _ _ Hi Ej Hk Ho Hc).
Qed.

Lemma forcedup_referenced oldfd newfd (s : kernel W) r s' :
  referenced s → fd32_forcedup oldfd newfd s = Done r s' → referenced s'.
Proof.
  intros Hi. unfold fd32_forcedup, mbind at 1, M_bind. rewrite open_entry_eq.
  destruct (open_at oldfd (jft s)) as [j|] eqn:Ej; [|by intros [= <- <-]]. apply open_at_lookup in Ej as (Ej & _ & H0).
  destruct (Z.eqb_spec newfd oldfd) as [->|Hne]; cbn [guard_ret]; [by intros [= <- <-]|].
  intros (y & s1 & [= <- <-] & H1)%bind_done. fold (entry_at newfd (jft s)) in H1.
  destruct (entry_at newfd (jft s)) as [y|] eqn:Ey; [|by injection H1 as <- <-].
  assert (Hnew : 0 ≤ newfd) by (unfold entry_at in Ey; destruct (Z.ltb_spec newfd 0); [done|lia]).
  apply entry_at_lookup in Ey. apply bind_done in H1 as (res & s2 & Hc & H1).
  assert (Hs2 : referenced s2 ∧ jft s2 !! Z.to_nat oldfd = Some j ∧
    (0 ≤ res → ∀ k, jft s2 !! Z.to_nat newfd = Some k → is_open k = false)).
  { destruct (is_open y) eqn:Eo.
    - apply close_referenced in Hc as (Hi2 & Hl & Hc); [|done]. split_and!; [done| |done].
      rewrite Hl; [done|]. intros E. apply Hne. lia.
    - injection Hc as <- <-. split_and!; [done|done|]. intros _ k. by rewrite Ey; intros [= <-]. }
  destruct Hs2 as (Hi2 & Hj2 & Hk).
  destruct (Z.ltb_spec res 0) as [Hr|Hr]; cbn [guard_ret] in H1; [by injection H1 as <- <-|].
  apply bind_done in H1 as (u & s3 & Hcp & [= <- <-]).
  pose proof Hcp as (u1 & s4 & (k & Hk' & _)%set_entry_done & _)%bind_done. apply entry_at_lookup in Hk'.
  eapply copy_referenced; [exact Hi2|exact Hj2|exact Hk'|by apply Hk|exact Hcp].
Qed.


Lemma counted_trans_r d s1 s2 s3 : counted d s1 s2 → counted (λ _ _, 0) s2 s3 → counted d s1 s3.
Proof.
  intros [E1 H1] [E2 H2]. split; [by rewrite E2|]. intros [[N1 R1]%H1 R2]%H2. split; [done|].
  intros b g. rewrite R2, R1. lia.
Qed.
Lemma quiet_referenced {A} (m : KM A) (s : kernel W) a s' : quiet m → m s = Done a s' → referenced s → referenced s'.
Proof. intros Hm H. by eapply counted_referenced, Hm. Qed.

(** A file is opened, and the free entry of a handle becomes its. *)
Lemma opened_referenced fd j f r file sr (s s1 s2 : kernel W) u :
  referenced s → jft s !! Z.to_nat fd = Some j → is_open j = false → counted (holds r file) s s1 →
  f = (λ _, mkJftEntry r file sr) → set_entry fd f s1 = Done u s2 → referenced s2.
Proof.
  intros Hi Hj Ho Hc ->. intros (j' & Hj' & ->)%set_entry_done. apply entry_at_lookup in Hj'.
  pose proof Hc as [E _]. rewrite E, Hj in Hj'. injection Hj' as <-.
  eapply referenced_set; [exact Hi|exact Hc|exact Hj|]. intros b g. rewrite (closed_holds j) by done.
  unfold entry_holds. cbn. lia.
Qed.

Lemma open_referenced name mode attr (s : kernel W) x s' :
  referenced s → fd32_open name mode attr s = Done x s' → referenced s'.
Proof.
  intros Hi. unfold fd32_open. intros (h & s1 & [-> Hh]%free_handle_done & H1)%bind_done.
  destruct h as [n|]; [|by injection H1 as <- <-]. destruct (Hh n eq_refl) as (k & Hk & Ho).
  apply bind_done in H1 as ([res [r file]] & s1 & [Hn Hp]%fs_open_opens_one & H1). cbn [fst snd] in *.
  destruct (Z.ltb_spec res 0) as [Hr|Hr]; cbn [guard_ret] in H1.
  - injection H1 as <- <-. by eapply counted_referenced, Hi; auto.
  - apply bind_done in H1 as (u & s2 & Hs & [= <- <-]). by eapply opened_referenced; [| | |by apply Hp| |exact Hs].
Qed.

(** A close that fails leaves the file open, without a handle. *)
Lemma close_opened r file (s s1 s2 : kernel W) x :
  referenced s → counted (holds r file) s s1 → fs_close r file s1 = Done x s2 → referenced s2.
Proof.
  intros Hi [E Hc] Hcl. apply fs_close_releases in Hcl as [Hn Hp].
  - intros N b g. destruct (Z.ltb_spec x 0) as [Hx|Hx].
    + destruct (Hn Hx) as [E2 H2]. destruct (H2 N) as [[N1 R1]%Hc R2]. specialize (Hi N1 b g).
      rewrite E2, E, R2, R1. pose proof (holds_bounds r file b g). lia.
    + destruct (Hp Hx) as [E2 H2]. destruct (H2 N) as [[N1 R1]%Hc R2]. specialize (Hi N1 b g). rewrite E2, E, R2, R1. lia.
  - intros [N R]%Hc b g. rewrite R. specialize (Hi N b g). pose proof (holders_nonneg b g (jft s)). specialize (ext_nonneg b g). lia.
Qed.

Lemma quiet_split path : quiet (split_path path).
Proof. unfold split_path, fits. quiet. Qed.
Lemma quiet_fits n l : quiet (fits n l).
Proof. unfold fits. quiet. Qed.
#[local] Hint Resolve quiet_split quiet_fits : quiet.

Lemma findfirst_referenced spec flags lf (s : kernel W) x s' :
  referenced s → fd32_lfn_findfirst spec flags lf s = Done x s' → referenced s'.
Proof.
  intros Hi. unfold fd32_lfn_findfirst. intros (h & s0 & [-> Hh]%free_handle_done & H1)%bind_done.
  destruct h as [n|]; [|by injection H1 as <- <-]. destruct (Hh n eq_refl) as (k & Hk & Ho).
  apply bind_done in H1 as (search & s1 & Hq1%quiet_search_get & H1).
  destruct (negb (nz search)); cbn [guard_ret] in H1; [injection H1 as <- <-; by eapply counted_referenced|].
  apply bind_done in H1 as ([path name] & s2 & Hq2%quiet_split & H1).
  pose proof (counted_trans _ _ _ _ Hq1 Hq2) as Hq.
  apply bind_done in H1 as ([res [r file]] & s3 & [Hn Hp]%fs_open_opens_one & H1). cbn [fst snd] in *.
  destruct (Z.ltb_spec res 0) as [Hr|Hr].
  { apply bind_done in H1 as (u & s4 & H4%quiet_search_put & [= <- <-]).
    eapply counted_referenced, Hi. eapply counted_trans; [exact Hq|]. eapply counted_trans; [by apply Hn|exact H4]. }
  specialize (Hp Hr). pose proof (counted_trans _ _ _ _ Hq Hp) as Hop.
  apply bind_done in H1 as ([res2 rep] & s4 & H4 & H1). apply quiet_request in H4; [|done].
  pose proof (counted_trans_r _ _ _ _ Hop H4) as Hop2.
  destruct (Z.ltb_spec res2 0) as [Hr2|Hr2].
  - apply bind_done in H1 as (u & s5 & H5%quiet_search_put & H1).
    apply bind_done in H1 as (y & s6 & Hc & [= <- <-]). eapply close_opened; [exact Hi| |exact Hc].
    by eapply counted_trans_r.
  - apply bind_done in H1 as (u & s5 & H5%quiet_fits & H1).
    apply bind_done in H1 as (u' & s6 & H6 & H1). apply quiet_modify in H6; [|done|done].
    apply bind_done in H1 as (u2 & s7 & Hs & [= <- <-]).
    eapply opened_referenced; [exact Hi|exact Hk|exact Ho| |done|exact Hs].
    eapply counted_trans_r; [eapply counted_trans_r; [exact Hop2|exact H5]|exact H6].
Qed.

Lemma findclose_referenced fd (s : kernel W) x s' :
  referenced s → fd32_lfn_findclose fd s = Done x s' → referenced s'.
Proof.
  intros Hi. unfold fd32_lfn_findclose. intros (h & s0 & [-> Hh]%search_handle_done & H1)%bind_done.
  destruct h as [j|]; [|by injection H1 as <- <-]. destruct (open_at_lookup _ _ _ (Hh j eq_refl)) as [Hj _].
  apply bind_done in H1 as (res & s1 & Hc & H1). apply fs_close_releases in Hc as [Hn Hp];
    [|intros N b g; by apply (referenced_holds _ _ _ b g Hi Hj)].
  destruct (Z.leb_spec 0 res) as [Hr|Hr]; [|injection H1 as <- <-; by eapply counted_referenced, Hi; auto].
  apply bind_done in H1 as (u & s2 & H2%quiet_search_put & H1).
  pose proof (counted_trans_r _ _ _ _ (Hp Hr) H2) as Hd. pose proof Hd as [E _].
  apply bind_done in H1 as (u1 & s3 & (j1 & Hj1 & ->)%set_entry_done & H1). apply entry_at_lookup in Hj1.
  rewrite E, Hj in Hj1. injection Hj1 as <-.
  assert (H3 : referenced (s2 <| jft ::= <[Z.to_nat fd := j <| j_request := NoRequest |>]> |>)).
  { eapply referenced_set; [exact Hi|exact Hd|exact Hj|]. intros b g. unfold entry_holds. cbn. lia. }
  apply bind_done in H1 as (u2 & s4 & (j2 & Hj2 & ->)%set_entry_done & [= <- <-]). apply entry_at_lookup in Hj2.
  refine (referenced_set _ _ _ _ _ _ H3 (counted_refl _) Hj2 _). intros b g. unfold entry_holds. cbn. lia.
Qed.

(** ** The calls that open and close nothing *)

Lemma quiet_set_nothing {A} fd (bad : A) (k : JftEntry → KM A) : (∀ j, quiet (k j)) → quiet (with_file fd bad k).
Proof. intros Hk. unfold with_file, validate_file_handle, open_entry, entry. quiet. Qed.
Lemma quiet_read fd b n : quiet (fd32_read fd b n).
Proof. apply quiet_set_nothing. intros j. by apply quiet_request. Qed.
Lemma quiet_write fd b n : quiet (fd32_write fd b n).
Proof.
  unfold fd32_write, validate_file_handle, open_entry, entry, fake_console_write, fs_write. quiet. by apply quiet_request.
Qed.
Lemma quiet_lseek fd o w : quiet (fd32_lseek fd o w).
Proof. apply quiet_set_nothing. intros j. unfold fs_lseek. quiet. by apply quiet_request. Qed.
Lemma quiet_fflush fd : quiet (fd32_fflush fd).
Proof. apply quiet_set_nothing. intros j. unfold fs_fflush. quiet. by apply quiet_request. Qed.
Lemma quiet_findnext fd flags lf : quiet (fd32_lfn_findnext fd flags lf).
Proof. unfold fd32_lfn_findnext, validate_search_handle, open_entry, entry. quiet. by apply quiet_request. Qed.
End references.

(** ** Sequences of calls *)

Inductive jft_op :=
| Open (name : bytes) (mode attr : Z)
| Close (fd : Z)
| Dup (fd : Z)
| ForceDup (oldfd newfd : Z)
| FindFirst (spec : bytes) (flags : Z) (lf : fd32_fs_lfnfind_t)
| FindNext (fd flags : Z) (lf : fd32_fs_lfnfind_t)
| FindClose (fd : Z)
| Read (fd : Z) (buffer : bool) (n : Z)
| Write (fd : Z) (buffer : option bytes) (n : Z)
| Lseek (fd offset whence : Z)
| Flush (fd : Z).

Definition run_jft_op {W} {KW : KernelWorld W} {FU : Fuel} (o : jft_op) : M (kernel W) () :=
  match o with
  | Open name mode attr => fd32_open name mode attr;; mret ()
  | Close fd => fd32_close fd;; mret ()
  | Dup fd => fd32_dup fd;; mret ()
  | ForceDup oldfd newfd => fd32_forcedup oldfd newfd;; mret ()
  | FindFirst spec flags lf => fd32_lfn_findfirst spec flags lf;; mret ()
  | FindNext fd flags lf => fd32_lfn_findnext fd flags lf;; mret ()
  | FindClose fd => fd32_lfn_findclose fd;; mret ()
  | Read fd b n => fd32_read fd b n;; mret ()
  | Write fd b n => fd32_write fd b n;; mret ()
  | Lseek fd o w => fd32_lseek fd o w;; mret ()
  | Flush fd => fd32_fflush fd;; mret ()
  end.
Fixpoint run_jft {W} {KW : KernelWorld W} {FU : Fuel} (l : list jft_op) : M (kernel W) () :=
  match l with
  | [] => mret ()
  | o :: l => run_jft_op o;; run_jft l
  end.

Section sequences.
Context {W : Type} {KW : KernelWorld W} {CD : CountingDriver W} {FU : Fuel}.
Context (ext : Z → Z → Z) (ext_nonneg : ∀ b g, 0 ≤ ext b g).

Lemma op_referenced o (s s' : kernel W) u : referenced ext s → run_jft_op o s = Done u s' → referenced ext s'.
Proof.
  intros Hi. destruct o; cbn [run_jft_op]; intros (x & s1 & H & [= _ <-])%bind_done.
  - by eapply open_referenced.
  - by eapply close_referenced in H as [H _].
  - by eapply dup_referenced.
  - by eapply forcedup_referenced.
  - by eapply findfirst_referenced.
  - by eapply quiet_referenced, Hi; [apply quiet_findnext|].
  - by eapply findclose_referenced.
  - by eapply quiet_referenced, Hi; [apply quiet_read|].
  - by eapply quiet_referenced, Hi; [apply quiet_write|].
  - by eapply quiet_referenced, Hi; [apply quiet_lseek|].
  - by eapply quiet_referenced, Hi; [apply quiet_fflush|].
Qed.

(** C17: whatever calls a process makes on its handles, the driver of a file counts at
    least the references the handles of the table hold, besides those of others, so that
    a file with an open handle is never freed -- as long as no close has failed after the
    driver had given the reference up, as [fat_close] does on an I/O error: then
    [fd32_close] keeps the handle ([close_error_dangling]). The other calls may fail. *)
Theorem jft_references ops (s s' : kernel W) u :
  referenced ext s → run_jft ops s = Done u s' →
  referenced ext s' ∧
  (¬ lost (k_world s') →
   ∀ fd j a, jft s' !! fd = Some j → j_request j = DriverRequest a → 0 < refs a (j_file j) (k_world s')).
Proof.
  intros Hi Hrun. assert (Hi' : referenced ext s').
  { revert s u Hi Hrun. induction ops as [|o ops IH]; intros s u Hi; cbn [run_jft]; [by intros [= _ <-]|].
    intros (u' & s1 & Ho & H)%bind_done. eapply IH, H. by eapply op_referenced. }
  split; [done|]. intros N fd j a Hj Hr. pose proof (referenced_holds ext ext_nonneg s' fd j a (j_file j) Hi' Hj N) as H.
  unfold entry_holds, holds in H. rewrite Hr, is_file_refl in H. unfold one in H. lia.
Qed.

(** duplicating a handle returns the lowest handle that is free, which refers to
    the same file as the old one, with one more reference counted by its driver; an
    invalid handle and a full table are errors that change nothing. *)
Theorem fd32_dup_correct oldfd (s : kernel W) :
  referenced ext s → (∀ a f w, ∃ x w', driver a 0 (FD32_OPEN f) w = Done x w') →
  ∃ r s', fd32_dup oldfd s = Done r s' ∧
  match open_at oldfd (jft s) with
  | None => r = - EBADF ∧ s' = s
  | Some j =>
      (r = - EMFILE ∧ s' = s ∧ Forall (λ k, is_open k = true) (jft s)) ∨
      ∃ h k, r = Z.of_nat h ∧ jft s !! h = Some k ∧ is_open k = false ∧
        Forall (λ k, is_open k = true) (take h (jft s)) ∧ jft s' = <[h := j]> (jft s) ∧
        (¬ lost (k_world s') → ∀ b g, refs b g (k_world s') = refs b g (k_world s) + entry_holds b g j)
  end.
Proof.
  intros Hi Htot. unfold fd32_dup. rewrite (bind_eq _ _ _ _ _ (open_entry_eq oldfd s)).
  destruct (open_at oldfd (jft s)) as [j|] eqn:Ej; [|by eexists _, _]. apply open_at_lookup in Ej as (Ej & Ho & _).
  assert (Hf : free_handle s = Done (free_handle_from (jft s) 0) s) by done.
  rewrite (bind_eq _ _ _ _ _ Hf). destruct (free_handle_from (jft s) 0) as [h|] eqn:Eh.
  2: { eexists _, s. split; [done|]. left. split_and!; [done..|]. by eapply free_handle_none. }
  apply free_handle_from_spec in Eh as (i & k & -> & Hk & Hko & Hi'). rewrite Z.add_0_l.
  set (s1 := s <| jft ::= <[i := j]> |>).
  assert (Hset : set_entry (Z.of_nat i) (λ _, j) s = Done () s1).
  { unfold set_entry, entry, mbind, M_bind, gets. rewrite (proj2 (Z.ltb_ge _ _)), Nat2Z.id, Hk by lia. done. }
  assert (Hopen : ∃ x s2, call_request (j_request j) 0 (FD32_OPEN (j_file j)) s1 = Done x s2).
  { unfold is_open, is_null in Ho. destruct (j_request j) as [| | |a]; [done|by eexists _, _..|]. cbn [call_request].
    unfold call_driver. destruct (Htot a (j_file j) (k_world s1)) as (x & w & ->).
    by eexists _, _. }
  destruct Hopen as (x & s2 & Hx). unfold copy_entry. rewrite (bind_eq _ _ s tt s2).
  2: { erewrite bind_eq by exact Hset. cbv beta. by erewrite bind_eq by exact Hx. }
  eexists _, s2. split; [reflexivity|]. right. exists i, k.
  apply request_references in Hx as [E Hr]; [|intros N b g; by apply (referenced_holds ext ext_nonneg s _ j b g Hi Ej)].
  split_and!; [done..|]. intros [N R]%Hr b g. by rewrite R.
Qed.
End sequences.

(** * Examples *)

Import Toy.

#[local] Instance toy_counting : CountingDriver world.
Proof.
  assert (Hset : ∀ a f n w b g, file_refs b g (set_refs a f n w) = if is_file a f b g then n else file_refs b g w).
  { intros a f n w b g. unfold file_refs, set_refs, is_file. cbn. destruct (decide ((a, f) = (b, g))) as [[= -> ->]|Hne].
    - by rewrite lookup_insert_eq, !Z.eqb_refl.
    - rewrite lookup_insert_ne by done. destruct (Z.eqb_spec a b), (Z.eqb_spec f g); cbn; congruence. }
  assert (Hone : ∀ a f b g, is_file a f b g = true → a = b ∧ f = g).
  { intros a f b g. unfold is_file. by intros [->%Z.eqb_eq ->%Z.eqb_eq]%andb_prop. }
  refine {| refs := file_refs; lost w := given_up w = true |}; cbn [driver toy toy_driver].
  - intros a v r w x w'. destruct r; intros [= _ <-] L; try exact L. cbn. by rewrite L.
  - done.
  - done.
  - intros a v p m t w x w' [= <- <-]. cbn [fst snd opened]. unfold FD32_OROPEN. split; [lia|]. intros _ b g.
    rewrite Hset. destruct (is_file _ _ _ _) eqn:E; unfold one.
    + by apply Hone in E as [-> <-].
    + exact (eq_sym (Z.add_0_r (file_refs b g w))).
  - intros a v f w x w' _ [= <- <-] b g. rewrite Hset.
    destruct (is_file _ _ _ _) eqn:E; unfold one; [apply Hone in E as [-> ->]|]; lia.
  - intros a v f w x w' _ [= <- <-]. cbn [fst]. split.
    { intros Hx N. destruct N. cbn. destruct (failing w); [apply orb_true_r|lia]. }
    intros _ b g. change (file_refs b g (set_refs a f (file_refs a f w - 1) w) = file_refs b g w - one (is_file a f b g)). rewrite Hset.
    destruct (is_file _ _ _ _) eqn:E; unfold one; [apply Hone in E as [-> ->]|]; lia.
  - intros a v r w x w' Hr. destruct r; try discriminate Hr; by intros [= <- <-].
  - done.
  - done.
Defined.

Lemma start_referenced n : referenced (λ _ _, 0) (start n).
Proof.
  intros _ b g. change (refs b g (k_world (start n))) with (file_refs b g (mkWorld ∅ 1 false false)).
  unfold file_refs. cbn [counts]. rewrite lookup_empty. cbn. induction n as [|n IH]; cbn in *; lia.
Qed.

(** A file opened, duplicated and closed once; then the console over the other handle. *)
Lemma jft_references_witness :
  ∃ s', run_jft [Open [92; 97] 0 0; Dup 3; Close 3] (start 2) = Done () s' ∧ 0 < file_refs 1000 1 (k_world s').
Proof.
  destruct (run_jft [Open [92; 97] 0 0; Dup 3; Close 3] (start 2)) as [[] s'| |] eqn:E; [|by vm_compute in E..].
  exists s'. split; [done|].
  destruct (jft_references (λ _ _, 0) (λ _ _, Z.le_refl 0) _ _ _ _ (start_referenced 2) E) as [_ Hr].
  assert (Ej : jft s' !! 4%nat = Some (mkJftEntry (DriverRequest 1000) 1 0)).
  { apply (f_equal (λ o, match o with Done _ s => jft s !! 4%nat | _ => None end)) in E. by vm_compute in E. }
  assert (El : given_up (k_world s') = false).
  { apply (f_equal (λ o, match o with Done _ s => given_up (k_world s) | _ => false end)) in E. by vm_compute in E. }
  assert (N : ¬ lost (k_world s')) by (change (given_up (k_world s') ≠ true); by rewrite El).
  exact (Hr N _ _ _ Ej eq_refl).
Defined.

(** The driver cannot write any more: the close fails, and the handle stays open on a
    file the driver has released. *)
Lemma close_error_dangling :
  match (fd32_open [92; 97] 0 0;; fd32_close 3) ((start 2) <| k_world ::= λ w, w <| failing := true |> |>) with
  | Done r s' => r = - EIO ∧ jft s' !! 3%nat = Some (mkJftEntry (DriverRequest 1000) 1 0) ∧ file_refs 1000 1 (k_world s') = 0
  | _ => False
  end.
Proof. vm_compute. done. Qed.

Lemma fd32_dup_correct_witness :
  ∃ s', fd32_dup 1 (start 2) = Done 3 s' ∧ jft s' !! 3%nat = Some console.
Proof.
  destruct (fd32_dup_correct (λ _ _, 0) (λ _ _, Z.le_refl 0) 1 (start 2) (start_referenced 2)) as (r & s' & Hd & H).
  { intros a f w. by eexists _, _. }
  change (open_at 1 (jft (start 2))) with (Some console) in H. cbv iota in H.
  destruct H as [(_ & _ & Hall)|(h & k & -> & Hk & Hko & Hlow & Hs & _)].
  - exfalso. by repeat (apply Forall_cons in Hall as [? Hall]).
  - assert (h = 3%nat) as ->.
    { destruct h as [|[|[|[|h]]]]; cbn in Hk; [injection Hk as <-; done..|done|].
      cbn in Hlow. by repeat (apply Forall_cons in Hlow as [? Hlow]). }
    exists s'. split; [exact Hd|]. by rewrite Hs.
Defined.

(** Two handles of one search: closing the second unlinks a search that is freed. *)
Lemma dup_search_dangling :
  let lf := mkLfnFind 0 0 0 0 0 0 [] [65; 0] in
  (fd32_lfn_findfirst [92; 97] 0 lf;; fd32_dup 3;; fd32_lfn_findclose 3;; fd32_lfn_findclose 4) (start 2) = Fault.
Proof. vm_compute. reflexivity. Qed.

(** Requests to a volume that is gone: the file system layer asks for the drive again
    when a driver answers -ENOTMOUNT, but the drive still names the old volume. *)
Module FsRetry.
Section retry.
Context {W : Type} {KW : KernelWorld W} {FU : Fuel}.

(** A drive with a driver and a volume. *)
Definition mounted (l : Z) (a v : Z) (s : kernel W) : Prop :=
  65 ≤ l ∧ ∃ x b, drives s !! Z.to_nat (l - 65) = Some x ∧ blk_name x = Some b ∧ req x = DriverRequest a ∧ handle x = v.

(** A mounted drive is not mounted again, whatever has become of the volume. *)
Lemma get_drive_mounted name l path a v (s : kernel W) :
  drive_letter (DefaultDrive s) name = Some (l, path) → mounted l a v s →
  fd32_get_drive name s = Done (l, (DriverRequest a, v, path)) s.
Proof.
  intros Hl (Hge & x & b & Hx & Hb & Hr & <-). assert (Hdr : drive (l - 65) s = Done x s).
  { unfold drive, mbind, M_bind, gets. rewrite (proj2 (Z.ltb_ge _ _)), Hx by lia. done. }
  unfold fd32_get_drive. assert (Hd : gets DefaultDrive s = Done (DefaultDrive s) s) by done.
  rewrite (bind_eq _ _ _ _ _ Hd), Hl, (bind_eq _ _ _ _ _ Hdr), Hb.
  assert (Hf : gets fsreq s = Done (fsreq s) s) by done. rewrite (bind_eq _ _ _ _ _ Hf).
  rewrite Hr. cbn [is_null]. change (bool_decide _) with false.
  assert (Hn : mret (M := M (kernel W)) (@None Z) s = Done None s) by done. rewrite (bind_eq _ _ _ _ _ Hn).
  rewrite (bind_eq _ _ _ _ _ Hdr). by rewrite Hr.
Qed.

Lemma retry_gone n aux k l path a v (s : kernel W) :
  drive_letter (DefaultDrive s) aux = Some (l, path) → mounted l a v s →
  (∀ w, ∃ rep w', driver a v (k path) w = Done (- ENOTMOUNT, rep) w') →
  on_drive n aux k s = NoFuel.
Proof.
  revert s. induction n as [|n IH]; intros s Hl Hm Hgone; [done|]. cbn [on_drive].
  rewrite (bind_eq _ _ _ _ _ (get_drive_mounted _ _ _ _ _ _ Hl Hm)).
  pose proof Hm as (Hge & _). rewrite (proj2 (Z.ltb_ge _ _)) by lia. cbn [guard_ret call_request].
  destruct (Hgone (k_world s)) as (rep & w & Hd).
  assert (Hc : call_driver a v (k path) s = Done (- ENOTMOUNT, rep) (s <| k_world := w |>)) by (unfold call_driver; by rewrite Hd).
  rewrite (bind_eq _ _ _ _ _ Hc). cbn [fst]. rewrite Z.eqb_refl. by apply IH.
Qed.

(** C23: a call that names a file on a mounted drive does not return, however long it
    runs, when the driver goes on answering that the volume is not mounted: the
    retry never mounts the drive again, since the drive keeps its driver and its
    volume. *)
Theorem gone_volume_never_remounted name aux k l path a v (s : kernel W) :
  truename (DefaultDrive s) (SubstList s) (CdsList s) name FD32_TNSUBST = Some (0, aux) →
  drive_letter (DefaultDrive s) aux = Some (l, path) → mounted l a v s →
  (∀ w, ∃ rep w', driver a v (k path) w = Done (- ENOTMOUNT, rep) w') →
  on_name name k s = NoFuel.
Proof.
  intros Ht Hl Hm Hgone. unfold on_name, fd32_truename, mbind, M_bind, gets. rewrite Ht.
  cbn [deref mret M_ret guard_ret Z.ltb Z.compare]. by eapply retry_gone.
Qed.
End retry.

Import Toy.

(** Making the directory [\\a] on the default drive. *)
Lemma gone_volume_never_remounted_witness : on_name (H0 := 1000%nat) [92; 97] FD32_MKDIR (start 2) = NoFuel.
Proof.
  eapply (gone_volume_never_remounted (FU := 1000%nat) [92; 97] [67; 58; 92; 97] FD32_MKDIR 67 [92; 97] 1000 7 (start 2)).
  - reflexivity.
  - reflexivity.
  - split; [lia|]. exists drive_c, [104; 100; 97]. by split_and!.
  - intros w. by eexists _, w.
Defined.
End FsRetry.
