(* ===== verification/Block.v ===== *)
(** The block device manager ([src/fd32/modules/block/block.c]): the registered
    devices by name. *)
From S2P Require Import Prelude Errno Lists Nls Slab.
Definition REQ_GET_OPERATIONS : Z := 0.
Definition REQ_GET_REFERENCES : Z := 1.
Definition BLOCK_OPERATIONS_TYPE : Z := 1.

(** The request functions of the drivers, by address: the operations of a type, with
    the result, and the count of the references; and the memory of the devices.
    [assertions] is whether [assert] is compiled in: [dr-env.h] of the FreeDOS-32 build
    defines it away. *)
Class BlockDrivers (W : Type) := {
  bd_pages :: PageSource W;
  assertions : bool;
  get_operations : Z → Z → W → (Z * Z) * W;
  get_references : Z → W → Z * W }.

Module Block.
(** A registered device; its links are the sequence of the list. *)
Record BlockDevice := mkBlockDevice { bd_request : Z; bd_handle : Z; bd_name : bytes }.

(** The static data and the memory of the devices. *)
Record state (W : Type) := mkState {
  world : W;
  list_ : list Z;
  slab : Slab.SlabCache;
  devices : gmap Z BlockDevice;
  b_words : gmap Z Z;
  b_pages : list Z }.
Arguments mkState {W}. Arguments world {W}. Arguments list_ {W}. Arguments slab {W}.
Arguments devices {W}. Arguments b_words {W}. Arguments b_pages {W}.
#[export] Instance state_eta W : Eta (state W) := λ r,
  mkState (world r) (list_ r) (slab r) (devices r) (b_words r) (b_pages r).

Section block.
Context {W : Type} `{BlockDrivers W}.
Notation BM := (M (state W)).

Definition bcall {A} (f : W → A * W) : BM A :=
  r ← gets (λ s, f (world s)); modify (λ s, s <| world := snd r |>);; mret (fst r).
Definition on_slab {A} (m : M (Slab.SlabCache * Slab.arena W) A) : BM A :=
  λ s, match m (slab s, Slab.mkArena (b_words s) (b_pages s) (world s)) with
       | Done a (c, r) =>
           Done a (s <| slab := c |> <| b_words := Slab.words r |> <| b_pages := Slab.held r |> <| world := Slab.source r |>)
       | Fault => Fault
       | NoFuel => NoFuel
       end.

Definition assert (b : bool) : BM () := if assertions && negb b then fault else mret ().
(** [d->request]: a call of the null pointer is a fault. *)
Definition request_of (x : BlockDevice) : BM Z := if nz (bd_request x) then mret (bd_request x) else fault.

(** [*d] *)
Definition device (d : Z) : BM BlockDevice := x ← gets (λ s, devices s !! d); deref x.

(** [d->next], null at the end: a fault when [d] is not linked. *)
Fixpoint next_in (l : list Z) (d : Z) : option Z :=
  match l with
  | [] => None
  | x :: l => if x =? d then Some (hd 0 l) else next_in l d
  end.

(** The iterator, and the name of the next device. *)
Definition block_enumerate (iterator : Z) : BM (option bytes * Z) :=
  l ← gets list_;
  d ← (if nz iterator then deref (next_in l iterator) else mret (hd 0 l));
  if nz d then x ← device d; mret (Some (bd_name x), d) else mret (None, d).

(** [for (d = list.begin; d; d = d->next)]: the first device whose name passes the
    test. *)
Fixpoint find_device (l : list Z) (test : bytes → bool) : BM (option Z) :=
  match l with
  | [] => mret None
  | d :: l => x ← device d; if test (bd_name x) then mret (Some d) else find_device l test
  end.

(** The result, the operations and the handle; nothing is stored when there is no
    such device. *)
Definition block_get (name : option bytes) (type : Z) : BM (Z * option (Z * Z)) :=
  match name with
  | None => mret (- EINVAL, None)
  | Some name =>
      l ← gets list_;
      d ← find_device l (λ n, CString.strcasecmp name n =? 0);
      match d with
      | None => mret (- EINVAL, None)
      | Some d =>
          x ← device d;
          assert (nz (bd_handle x));;
          assert (nz (bd_request x));;
          f ← request_of x;
          r ← bcall (get_operations f type);
          mret (fst r, Some (snd r, bd_handle x))
      end
  end.

Definition block_register (name : bytes) (request handle : Z) : BM Z :=
  l ← gets list_;
  d ← find_device l (λ n, CString.strcasecmp n name =? 0);
  match d with
  | Some _ => mret (- EEXIST)
  | None =>
      d ← on_slab Slab.slabmem_alloc;
      if negb (nz d) then mret (- ENOMEM)
      else
        modify (λ s, s <| devices ::= <[d := mkBlockDevice request handle name]> |>);;
        modify (λ s, s <| list_ ::= push_back d |>);;
        mret 0
  end.

Definition block_unregister (name : bytes) : BM Z :=
  l ← gets list_;
  d ← find_device l (λ n, CString.strcasecmp n name =? 0);
  match d with
  | None => mret (- ENOENT)
  | Some d =>
      x ← device d;
      assert (nz (bd_request x));;
      f ← request_of x;
      n ← bcall (get_references f);
      if 0 <? n then mret (- EBUSY)
      else
        modify (λ s, s <| list_ ::= erase d |>);;
        on_slab (Slab.slabmem_free d);;
        modify (λ s, s <| devices ::= delete d |>);;
        mret 0
  end.
End block.
End Block.

(** The block device manager, proved: it keeps the devices in the order of their
    registration, under names that are distinct without regard to case. *)
Module BlockSpec.
Import SlabSpec.
Import Block.

(** * The specification: the sequence of the registered devices *)

Inductive block_op :=
| Register (name : bytes) (request handle : Z)
| Unregister (name : bytes)
| Get (name : option bytes) (type : Z)
| Names.

Inductive answer :=
| Code (r : Z)
| Operations (r : Z) (o : option (Z * Z))
| NameList (l : list bytes).

(** Names without regard to the case of the letters a to z. *)
Definition fold_name (n : bytes) : bytes := map CString.toupper n.
Definition named (n : bytes) (x : BlockDevice) : Prop := fold_name (bd_name x) = fold_name n.

Definition unknown (n : bytes) (l : list BlockDevice) : Prop := ∀ x, x ∈ l → ¬ named n x.

(** The world of the drivers and of the pages, the count of the free objects of the
    slab cache, and the devices. *)
Record registry (W : Type) := mkRegistry { sp_world : W; sp_free : nat; sp_devices : list BlockDevice }.
Arguments mkRegistry {W}. Arguments sp_world {W}. Arguments sp_free {W}. Arguments sp_devices {W}.
Definition sizeof_BlockDevice : Z := 20.

Section specification.
Context {W : Type} `{BlockDrivers W}.

(** What an operation answers, and the world, the memory and the devices after it: which
    of the cases of an operation is taken is determined by what the driver of the device
    answers and by the memory. *)
Inductive step : registry W → block_op → answer → registry W → Prop :=
| RegisterTwice w k l n r h x : x ∈ l → named n x →
    step (mkRegistry w k l) (Register n r h) (Code (- EEXIST)) (mkRegistry w k l)
| RegisterFree w k l n r h : unknown n l →
    step (mkRegistry w (S k) l) (Register n r h) (Code 0) (mkRegistry w k (l ++ [mkBlockDevice r h n]))
| RegisterPage w l n r h : unknown n l → (page_alloc w).1 ≠ 0 →
    step (mkRegistry w 0 l) (Register n r h) (Code 0)
      (mkRegistry (page_alloc w).2 (page_rest sizeof_BlockDevice) (l ++ [mkBlockDevice r h n]))
| RegisterFull w l n r h : unknown n l → (page_alloc w).1 = 0 →
    step (mkRegistry w 0 l) (Register n r h) (Code (- ENOMEM)) (mkRegistry (page_alloc w).2 0 l)
| UnregisterNone w k l n : unknown n l →
    step (mkRegistry w k l) (Unregister n) (Code (- ENOENT)) (mkRegistry w k l)
| UnregisterBusy w k l n x : x ∈ l → named n x → 0 < (get_references (bd_request x) w).1 →
    step (mkRegistry w k l) (Unregister n) (Code (- EBUSY)) (mkRegistry (get_references (bd_request x) w).2 k l)
| UnregisterOne w k n l1 x l2 : named n x → (get_references (bd_request x) w).1 ≤ 0 →
    step (mkRegistry w k (l1 ++ x :: l2)) (Unregister n) (Code 0)
      (mkRegistry (get_references (bd_request x) w).2 (S k) (l1 ++ l2))
| GetNull w k l t : step (mkRegistry w k l) (Get None t) (Operations (- EINVAL) None) (mkRegistry w k l)
| GetNone w k l n t : unknown n l →
    step (mkRegistry w k l) (Get (Some n) t) (Operations (- EINVAL) None) (mkRegistry w k l)
| GetOne w k l n t x : x ∈ l → named n x →
    let a := get_operations (bd_request x) t w in
    step (mkRegistry w k l) (Get (Some n) t) (Operations a.1.1 (Some (a.1.2, bd_handle x))) (mkRegistry a.2 k l)
| NamesAll w k l : step (mkRegistry w k l) Names (NameList (map bd_name l)) (mkRegistry w k l).

Inductive steps : registry W → list block_op → list answer → registry W → Prop :=
| StepsNil r : steps r [] [] r
| StepsCons r o a r' os rs r'' : step r o a r' → steps r' os rs r'' → steps r (o :: os) (a :: rs) r''.

(** The names of the operations are strings, and devices have a request function; with
    the assertions they have a handle too. *)
Definition op_ok (o : block_op) : Prop :=
  match o with
  | Register n r h => Forall (λ c, c ≠ 0) n ∧ r ≠ 0 ∧ (assertions = true → h ≠ 0)
  | Unregister n | Get (Some n) _ => Forall (λ c, c ≠ 0) n
  | _ => True
  end.
End specification.

#[export] Instance op_ok_dec {W} `{BlockDrivers W} o : Decision (op_ok o).
Proof. destruct o as [| |[]|]; cbn; apply _. Defined.

(** * The program: calls of the manager, and enumeration until no name comes *)

Section program.
Context {W : Type} `{BlockDrivers W}.

Fixpoint enumerate_from (n : nat) (iterator : Z) : M (state W) (list bytes) :=
  match n with
  | O => nofuel
  | S n =>
      r ← block_enumerate iterator;
      match r.1 with
      | None => mret []
      | Some name => l ← enumerate_from n r.2; mret (name :: l)
      end
  end.

Definition run_op (n : nat) (o : block_op) : M (state W) answer :=
  match o with
  | Register name r h => x ← block_register name r h; mret (Code x)
  | Unregister name => x ← block_unregister name; mret (Code x)
  | Get name t => x ← block_get name t; mret (Operations x.1 x.2)
  | Names => l ← enumerate_from n 0; mret (NameList l)
  end.
Fixpoint run_ops (n : nat) (l : list block_op) : M (state W) (list answer) :=
  match l with
  | [] => mret []
  | o :: l => a ← run_op n o; rs ← run_ops n l; mret (a :: rs)
  end.
End program.

(** * The state represents the sequence *)

Section spec.
Context {W : Type} {BD : BlockDrivers W} {FP : FreshPages W}.
(** The calls of drivers take no pages. *)
Hypothesis operations_given : ∀ r t w ps, given w ps → given (get_operations r t w).2 ps.
Hypothesis references_given : ∀ r w ps, given w ps → given (get_references r w).2 ps.

Definition arena_of (s : state W) : Slab.arena W := Slab.mkArena (b_words s) (b_pages s) (world s).

(** A registered device: its name is a string, and the assertions on it hold. *)
Definition device_ok (x : BlockDevice) : Prop :=
  Forall (λ c, c ≠ 0) (bd_name x) ∧ bd_request x ≠ 0 ∧ (assertions = true → bd_handle x ≠ 0).

Record represents (s : state W) (k : nat) (l : list (Z * BlockDevice)) : Prop := {
  rp_list : list_ s = l.*1;
  rp_nodup : NoDup l.*1;
  rp_device d x : (d, x) ∈ l → devices s !! d = Some x ∧ device_ok x;
  rp_size : Slab.obj_size (slab s) = sizeof_BlockDevice;
  rp_stock : stock (slab s) (arena_of s) (list_to_set l.*1) k;
  rp_names : NoDup ((fold_name ∘ bd_name) <$> l.*2) }.
(** What it represents. *)
Definition registered (s : state W) (k : nat) (l : list (Z * BlockDevice)) : registry W := mkRegistry (world s) k l.*2.

Lemma find_device_spec (s : state W) sub test n :
  (∀ d x, (d, x) ∈ sub → devices s !! d = Some x) →
  (∀ x, x ∈ sub.*2 → test (bd_name x) = true ↔ named n x) →
  ∃ r, find_device sub.*1 test s = Done r s ∧
    match r with None => ∀ x, x ∈ sub.*2 → ¬ named n x | Some d => ∃ x, (d, x) ∈ sub ∧ named n x end.
Proof.
  induction sub as [|[d x] sub IH]; intros Hd Ht; cbn [find_device fmap list_fmap fst snd].
  { exists None. split; [done|]. intros x. by rewrite elem_of_nil. }
  assert (Hx : device d s = Done x s).
  { unfold device, mbind, M_bind, gets. by rewrite (Hd d x) by set_solver. }
  rewrite (bind_eq _ _ _ _ _ Hx). destruct (test (bd_name x)) eqn:E.
  - exists (Some d). split; [done|]. exists x. split; [set_solver|]. apply Ht; [set_solver|done].
  - destruct IH as (r & Hr & Hs); [set_solver|set_solver|]. exists r. split; [done|]. destruct r as [d'|].
    + destruct Hs as (y & Hy & Hn). exists y. split; [set_solver|done].
    + intros y Hy. cbn in Hy. apply elem_of_cons in Hy as [->|Hy]; [|by apply Hs].
      intros Hn. apply Ht in Hn; [congruence|set_solver].
Qed.

Lemma represents_find (s : state W) k l n (test : bytes → bool) :
  represents s k l → Forall (λ c, c ≠ 0) n →
  (∀ m, test m = (CString.strcasecmp m n =? 0)) ∨ (∀ m, test m = (CString.strcasecmp n m =? 0)) →
  ∃ r, find_device (list_ s) test s = Done r s ∧
    match r with None => unknown n l.*2 | Some d => ∃ x, (d, x) ∈ l ∧ named n x end.
Proof.
  intros R Hn Ht. rewrite (rp_list _ _ _ R). apply find_device_spec; [intros d x H; by apply (rp_device _ _ _ R)|].
  intros x ([d y] & -> & Hy)%list_elem_of_fmap. destruct (rp_device _ _ _ R _ _ Hy) as [_ [Hnn _]].
  unfold named, fold_name. cbn [snd].
  destruct Ht as [Ht|Ht]; rewrite Ht, Z.eqb_eq, strcasecmp_eq by done; [done|by split].
Qed.

(** ** Registering, removing *)

Lemma wp_on_slab {A} (m : M (Slab.SlabCache * Slab.arena W) A) (s : state W) (Q : A → state W → Prop) :
  wp m (λ a r, Q a (s <| slab := r.1 |> <| b_words := Slab.words r.2 |> <| b_pages := Slab.held r.2 |>
                      <| world := Slab.source r.2 |>)) (slab s, arena_of s) →
  wp (on_slab m) Q s.
Proof. unfold wp, on_slab, arena_of. by destruct (m _) as [a [c r]| |]. Qed.

(** The assertions on a device hold. *)
Lemma wp_assert b (s : state W) (Q : () → state W → Prop) : (assertions = true → b = true) → Q tt s → wp (assert b) Q s.
Proof. intros Hb HQ. unfold assert. destruct assertions; cbn; [rewrite Hb by done|]; by apply wp_ret. Qed.
Lemma wp_request_of x (s : state W) (Q : Z → state W → Prop) : device_ok x → Q (bd_request x) s → wp (request_of x) Q s.
Proof. intros (_ & Hr & _) HQ. unfold request_of. rewrite (proj2 (nz_true _)) by done. by apply wp_ret. Qed.

(** The device is linked and its object is in use. *)
Lemma represents_push s k k' l d x c a :
  represents s k l → Slab.obj_size c = sizeof_BlockDevice → stock c a ({[ d ]} ∪ list_to_set l.*1) k' →
  d ∉ (list_to_set l.*1 : gset Z) → device_ok x → unknown (bd_name x) l.*2 →
  represents (s <| slab := c |> <| b_words := Slab.words a |> <| b_pages := Slab.held a |> <| world := Slab.source a |>
                <| devices ::= <[d := x]> |> <| list_ ::= push_back d |>) k' (l ++ [(d, x)]).
Proof.
  intros [R1 R2 R3 R4 R5 R6] Hc Hs Hnew Hx Hu. assert (Hdl : d ∉ l.*1) by (intros Hin; apply Hnew; by rewrite elem_of_list_to_set).
  split; cbn.
  - by rewrite R1, fmap_app.
  - rewrite fmap_app. apply NoDup_app. split_and!; [done|set_solver|apply NoDup_singleton].
  - intros d' y [Hy|Hy]%elem_of_app.
    + rewrite lookup_insert_ne; [by apply R3|]. intros <-. apply Hdl. by apply (list_elem_of_fmap_2 fst) in Hy.
    + apply list_elem_of_singleton in Hy as [= -> ->]. by rewrite lookup_insert_eq.
  - done.
  - rewrite fmap_app, list_to_set_app_L. cbn. destruct a.
    replace (list_to_set l.*1 ∪ ({[d]} ∪ ∅)) with ({[d]} ∪ list_to_set l.*1 : gset Z) by set_solver. exact Hs.
  - rewrite fmap_app, fmap_app. apply NoDup_app. split_and!; [done| |apply NoDup_singleton].
    intros y Hy ->%list_elem_of_singleton. apply list_elem_of_fmap in Hy as (z & E & Hz). cbn in E.
    by apply (Hu z Hz).
Qed.

Lemma wp_block_register s k l n r h :
  represents s k l → op_ok (Register n r h) →
  wp (block_register n r h) (λ a s', ∃ k' l', represents s' k' l' ∧
    step (registered s k l) (Register n r h) (Code a) (registered s' k' l') ∧ (length l' ≤ S (length l))%nat) s.
Proof.
  intros R (Hn & Hr & Hh). unfold block_register. apply wp_bind, wp_gets.
  destruct (represents_find s k l n (λ m, CString.strcasecmp m n =? 0) R Hn) as (d & Hd & Hs); [by left|].
  apply wp_bind. eapply wp_of_done; [exact Hd|]. destruct d as [d|].
  { destruct Hs as (x & Hx & Hnm). apply wp_ret. exists k, l. split_and!; [done| |lia].
    eapply RegisterTwice; [|exact Hnm]. by apply (list_elem_of_fmap_2 snd) in Hx. }
  apply wp_bind, wp_on_slab. eapply wp_mono; [|apply stock_alloc, R]. intros d [c a] (Ec & Hst). cbn [fst snd] in *.
  rewrite (rp_size _ _ _ R) in Ec, Hst. cbn [arena_of Slab.source] in Hst.
  assert (Hpush : ∀ k', d ≠ 0 → stock c a ({[ d ]} ∪ list_to_set l.*1) k' → d ∉ (list_to_set l.*1 : gset Z) →
    (∀ s', world s' = Slab.source a → step (registered s k l) (Register n r h) (Code 0) (registered s' k' (l ++ [(d, mkBlockDevice r h n)]))) →
    wp (if negb (nz d) then mret (- ENOMEM) else
          modify (λ s, s <| devices ::= <[d := mkBlockDevice r h n]> |>);; modify (λ s, s <| list_ ::= push_back d |>);; mret 0)
      (λ a s', ∃ k' l', represents s' k' l' ∧ step (registered s k l) (Register n r h) (Code a) (registered s' k' l') ∧ (length l' ≤ S (length l))%nat)
      (s <| slab := c |> <| b_words := Slab.words a |> <| b_pages := Slab.held a |> <| world := Slab.source a |>)).
  { intros k' H0 Hst' Hnew Hstep. rewrite (proj2 (nz_true d)) by done. cbn [negb]. apply wp_bind, wp_modify, wp_bind, wp_modify, wp_ret.
    eexists k', _. split; [by apply (represents_push s k k' l d (mkBlockDevice r h n) c a)|].
    split; [by apply Hstep|rewrite length_app; cbn; lia]. }
  unfold registered in *. destruct k as [|k]; cbn in Hst.
  - destruct Hst as (-> & Ew & Hst). destruct (Z.eqb_spec (page_alloc (world s)).1 0) as [E0|E0].
    + rewrite E0. change (nz 0) with false. cbn [negb]. apply wp_ret. exists 0%nat, l. cbn [world]. rewrite Ew. split_and!; [|by apply RegisterFull|lia].
      destruct R as [R1 R2 R3 R4 R5]. split; cbn; [done|done|done|done| |done]. rewrite <- Ew. by destruct a.
    + destruct Hst as [Hnew Hst]. eapply Hpush; [done|done|done|]. intros s' ->. rewrite Ew, fmap_app. by apply RegisterPage.
  - destruct Hst as (Hd0 & Hnew & Hst & Ew). eapply Hpush; [done|done|done|]. intros s' ->. rewrite Ew, fmap_app. by apply RegisterFree.
Qed.

(** A call of a driver changes the world, and takes no pages. *)
Lemma represents_world s k l w :
  represents s k l → (∀ ps, given (world s) ps → given w ps) → represents (s <| world := w |>) k l.
Proof.
  intros [R1 R2 R3 R4 R5 R6] Hg. split; [done..| |done]. destruct R5 as [H0 (fl & ps & S & G & HU)].
  split; [done|]. exists fl, ps. split_and!; [|by apply Hg|apply HU|apply HU]. destruct S. by split.
Qed.

Lemma bcall_eq {A} (f : W → A * W) (s : state W) : bcall f s = Done (f (world s)).1 (s <| world := (f (world s)).2 |>).
Proof. done. Qed.

(** The device is unlinked and its object is free. *)
Lemma represents_erase s k l1 d x l2 c a :
  represents s k (l1 ++ (d, x) :: l2) → Slab.obj_size c = sizeof_BlockDevice →
  stock c a (list_to_set (l1 ++ (d, x) :: l2).*1 ∖ {[ d ]}) (S k) →
  represents (s <| list_ ::= erase d |> <| slab := c |> <| b_words := Slab.words a |> <| b_pages := Slab.held a |>
                <| world := Slab.source a |> <| devices ::= delete d |>) (S k) (l1 ++ l2).
Proof.
  intros [R1 R2 R3 R4 R5 R6] Hc Hs. split; cbn in *.
  - rewrite R1. rewrite !fmap_app, fmap_cons. apply erase_middle. by rewrite fmap_app, fmap_cons in R2.
  - rewrite fmap_app, fmap_cons in R2. rewrite fmap_app. apply NoDup_app in R2 as (? & ? & [? ?]%NoDup_cons).
    apply NoDup_app. set_solver.
  - intros d' y Hy. rewrite lookup_delete_ne; [apply R3; set_solver|]. intros <-.
    rewrite fmap_app, fmap_cons in R2. apply NoDup_app in R2 as (_ & H1 & [H2 _]%NoDup_cons).
    apply (list_elem_of_fmap_2 fst) in Hy. cbn in Hy. rewrite fmap_app in Hy. set_solver.
  - done.
  - destruct a. replace (list_to_set (l1 ++ l2).*1 : gset Z) with (list_to_set (l1 ++ (d, x) :: l2).*1 ∖ {[d]} : gset Z); [done|].
    rewrite fmap_app, fmap_cons in R2. apply NoDup_app in R2 as (_ & H1 & [H2 _]%NoDup_cons).
    apply set_eq. intros y. rewrite elem_of_difference, !elem_of_list_to_set, !fmap_app, fmap_cons. set_solver.
  - rewrite !fmap_app, !fmap_cons in R6. rewrite !fmap_app. apply NoDup_app in R6 as (? & ? & [? ?]%NoDup_cons).
    apply NoDup_app. set_solver.
Qed.

Lemma wp_block_unregister s k l n :
  represents s k l → Forall (λ c, c ≠ 0) n →
  wp (block_unregister n) (λ a s', ∃ k' l', represents s' k' l' ∧
    step (registered s k l) (Unregister n) (Code a) (registered s' k' l') ∧ (length l' ≤ length l)%nat) s.
Proof.
  intros R Hn. unfold block_unregister. apply wp_bind, wp_gets.
  destruct (represents_find s k l n (λ m, CString.strcasecmp m n =? 0) R Hn) as (d & Hd & Hs); [by left|].
  apply wp_bind. eapply wp_of_done; [exact Hd|]. destruct d as [d|].
  2: { apply wp_ret. exists k, l. split_and!; [done|by apply UnregisterNone|lia]. }
  destruct Hs as (x & Hx & Hnm). destruct (rp_device _ _ _ R _ _ Hx) as [Hdev Hok].
  apply wp_bind. unfold device. apply wp_bind, wp_gets. eapply wp_deref; [exact Hdev|].
  apply wp_bind, wp_assert; [intros _; by apply nz_true, Hok|]. apply wp_bind, wp_request_of; [done|].
  apply wp_bind. eapply wp_of_done; [apply bcall_eq|]. unfold registered. set (w := (get_references (bd_request x) (world s)).2).
  assert (R' : represents (s <| world := w |>) k l) by (apply represents_world; [done|]; intros ps; apply references_given).
  destruct (Z.ltb_spec 0 (get_references (bd_request x) (world s)).1) as [Hb|Hb].
  { apply wp_ret. exists k, l. split_and!; [done| |lia]. eapply UnregisterBusy; [|exact Hnm|done]. by apply (list_elem_of_fmap_2 snd) in Hx. }
  apply list_elem_of_split in Hx as (l1 & l2 & ->).
  apply wp_bind, wp_modify, wp_bind, wp_on_slab. eapply wp_mono; [|apply (stock_free _ _ (list_to_set (l1 ++ (d, x) :: l2).*1))].
  2: { exact (rp_stock _ _ _ R'). }
  2: { rewrite elem_of_list_to_set, fmap_app, fmap_cons. set_solver. }
  intros _ [c a] (Ec & Hp & Ew). cbn [fst snd] in *. apply wp_bind, wp_modify, wp_ret. exists (S k), (l1 ++ l2). split_and!.
  - apply (represents_erase _ k l1 d x l2 c a R'); [|done]. rewrite Ec. apply R'.
  - cbn. rewrite Ew. cbn. rewrite !fmap_app, fmap_cons. by apply UnregisterOne.
  - rewrite !length_app. cbn. lia.
Qed.

Lemma wp_get s k l n t :
  represents s k l → op_ok (Get n t) →
  wp (block_get n t) (λ a s', represents s' k l ∧ step (registered s k l) (Get n t) (Operations a.1 a.2) (registered s' k l)) s.
Proof.
  intros R Hn. destruct n as [n|]; [|by apply wp_ret; split; [|apply GetNull]]. unfold block_get. apply wp_bind, wp_gets.
  destruct (represents_find s k l n (λ m, CString.strcasecmp n m =? 0) R Hn) as (d & Hd & Hs); [by right|].
  apply wp_bind. eapply wp_of_done; [exact Hd|]. destruct d as [d|]; [|by apply wp_ret; split; [|apply GetNone]].
  destruct Hs as (x & Hx & Hnm). destruct (rp_device _ _ _ R _ _ Hx) as [Hdev Hok].
  apply wp_bind. unfold device. apply wp_bind, wp_gets. eapply wp_deref; [exact Hdev|].
  apply wp_bind, wp_assert; [intros Ha; by apply nz_true, Hok|].
  apply wp_bind, wp_assert; [intros _; by apply nz_true, Hok|]. apply wp_bind, wp_request_of; [done|].
  apply wp_bind. eapply wp_of_done; [apply bcall_eq|]. apply wp_ret. split.
  - apply represents_world; [done|]. intros ps. apply operations_given.
  - eapply GetOne; [|exact Hnm]. by apply (list_elem_of_fmap_2 snd) in Hx.
Qed.

(** ** Enumerating *)

Lemma next_in_app (l1 : list Z) d l2 : d ∉ l1 → next_in (l1 ++ d :: l2) d = Some (hd 0 l2).
Proof.
  induction l1 as [|x l1 IH]; cbn; [by rewrite Z.eqb_refl|]. intros Hd.
  rewrite (proj2 (Z.eqb_neq _ _)) by set_solver. apply IH. set_solver.
Qed.

(** Past the devices [l1], the iterator being the last of them, comes the next one. *)
Lemma block_enumerate_spec s k l1 l2 :
  represents s k (l1 ++ l2) →
  block_enumerate (last_or 0 l1.*1) s =
  Done (match l2 with [] => (None, 0) | (d, x) :: _ => (Some (bd_name x), d) end) s.
Proof.
  intros [R1 R2 R3 _ [H0 _] _].
  assert (Hnn : ∀ d, d ∈ (l1 ++ l2).*1 → d ≠ 0) by (intros d Hd ->; apply H0; by rewrite elem_of_list_to_set).
  unfold block_enumerate. assert (Hl : gets list_ s = Done (l1.*1 ++ l2.*1) s) by (unfold gets; by rewrite R1, fmap_app).
  rewrite (bind_eq _ _ _ _ _ Hl).
  assert (Hnext : (if nz (last_or 0 l1.*1) then deref (next_in (l1.*1 ++ l2.*1) (last_or 0 l1.*1))
                   else mret (hd 0 (l1.*1 ++ l2.*1))) s = Done (hd 0 l2.*1) s).
  { destruct (list_snoc_case l1) as [->|(l0 & [d x] & ->)]; [done|]. rewrite fmap_app. cbn [fmap list_fmap fst].
    rewrite last_or_snoc. assert (d ≠ 0) by (apply Hnn; rewrite !fmap_app; set_solver).
    rewrite (proj2 (nz_true d)), <- app_assoc by done. cbn [app]. rewrite next_in_app; [done|].
    rewrite !fmap_app in R2. apply NoDup_app in R2 as [R2 _]. apply NoDup_app in R2 as (_ & R2 & _). set_solver. }
  rewrite (bind_eq _ _ _ _ _ Hnext). destruct l2 as [|[d x] l2]; [done|]. cbn [fmap list_fmap fst hd].
  rewrite (proj2 (nz_true d)) by (apply Hnn; rewrite fmap_app; set_solver).
  assert (Hx : device d s = Done x s).
  { unfold device, mbind, M_bind, gets. destruct (R3 d x) as [-> _]; [set_solver|done]. }
  by rewrite (bind_eq _ _ _ _ _ Hx).
Qed.

Lemma enumerate_from_spec s k l1 l2 n :
  represents s k (l1 ++ l2) → (length l2 < n)%nat →
  enumerate_from n (last_or 0 l1.*1) s = Done (map bd_name l2.*2) s.
Proof.
  revert l1 n. induction l2 as [|[d x] l2 IH]; intros l1 n R Hn; (destruct n as [|n]; [cbn in Hn; lia|]);
    cbn [enumerate_from]; rewrite (bind_eq _ _ _ _ _ (block_enumerate_spec _ _ _ _ R)); cbn [fst snd]; [done|].
  assert (Hl : last_or 0 (l1 ++ [(d, x)]).*1 = d) by (rewrite fmap_app; apply last_or_snoc).
  specialize (IH (l1 ++ [(d, x)]) n). rewrite Hl, <- app_assoc in IH.
  rewrite (bind_eq _ _ _ _ _ (IH R ltac:(cbn in Hn; lia))). done.
Qed.

(** ** Sequences *)

Lemma wp_block_op n o s k l :
  represents s k l → op_ok o → (length l < n)%nat →
  wp (run_op n o) (λ a s', ∃ k' l', represents s' k' l' ∧ step (registered s k l) o a (registered s' k' l') ∧
    (length l' ≤ S (length l))%nat) s.
Proof.
  intros R Ho Hn. destruct o as [m r h|m|m t|]; cbn [run_op]; apply wp_bind.
  - eapply wp_mono; [|by apply wp_block_register]. intros a s' H. by apply wp_ret.
  - eapply wp_mono; [|by apply (wp_block_unregister s k l)]. intros a s' (k' & l' & H1 & H2 & H3). apply wp_ret. exists k', l'.
    split_and!; [done..|lia].
  - eapply wp_mono; [|by apply (wp_get s k l)]. intros a s' (H1 & H2). apply wp_ret. exists k, l. split_and!; [done..|lia].
  - eapply wp_of_done; [by apply (enumerate_from_spec s k [] l)|]. apply wp_ret. exists k, l. split_and!; [done| |lia].
    apply NamesAll.
Qed.

Lemma wp_block_ops n os s k l :
  represents s k l → Forall op_ok os → (length l + length os < n)%nat →
  wp (run_ops n os) (λ rs s', ∃ k' l', represents s' k' l' ∧ steps (registered s k l) os rs (registered s' k' l')) s.
Proof.
  revert s k l. induction os as [|o os IH]; intros s k l R Ho Hn; cbn [run_ops].
  { apply wp_ret. exists k, l. split; [done|constructor]. }
  apply Forall_cons in Ho as [Ho Hos]. cbn in Hn. apply wp_bind. eapply wp_mono; [|apply (wp_block_op n o s k l R Ho); lia].
  intros a s1 (k1 & l1 & R1 & S1 & Hl1). apply wp_bind. eapply wp_mono; [|apply (IH s1 k1 l1 R1 Hos); lia].
  intros rs s2 (k2 & l2 & R2 & S2). apply wp_ret. exists k2, l2. split; [done|]. by econstructor.
Qed.

(** * Theorem *)

(** C24: any sequence of calls of the block device manager returns, and answers as
    the sequence of the registered devices, what their drivers answer and the memory
    determine: a name is registered once without regard to case, -ENOMEM being returned
    exactly when no object of the slab cache is free and there is no page; getting the
    operations of a device gives the answer of its driver and its handle; a device is
    removed exactly when its driver counts no reference, -EBUSY being returned
    otherwise; enumerating gives the names in the order of registration. The names
    stay distinct, and the assertions of the code hold when they are compiled in. *)
Theorem block_refine n os s k l :
  represents s k l → Forall op_ok os → (length l + length os < n)%nat →
  ∃ rs s' k' l', run_ops n os s = Done rs s' ∧ represents s' k' l' ∧
    steps (registered s k l) os rs (registered s' k' l') ∧ NoDup (map (fold_name ∘ bd_name) l'.*2).
Proof.
  intros R Ho Hn. destruct (wp_done _ _ _ (wp_block_ops n os s k l R Ho Hn)) as (rs & s' & H & k' & l' & R' & S).
  exists rs, s', k', l'. split_and!; [done..|]. apply (rp_names _ _ _ R').
Qed.
End spec.

(** Drivers that count no reference, but for the one at 2000, and pages at ever higher
    addresses. *)
Module Example.
#[export] Instance counting_pages : PageSource Z := {
  page_alloc w := (w, w + Slab.SLABMEM_PAGE_SIZE);
  page_free _ w := w }.
#[export] Instance counting_fresh : FreshPages Z.
Proof.
  refine {| given w ps := 0 < w ∧ ∀ q, q ∈ ps → q + Slab.SLABMEM_PAGE_SIZE ≤ w |}. intros w ps [Hw Hg]. cbn.
  unfold Slab.SLABMEM_PAGE_SIZE in *. split; [lia|]. intros _. split_and!; [done| |lia|].
  - intros q Hq. right. apply Hg, Hq.
  - intros q [->|Hq]%elem_of_cons; [apply Z.le_refl|]. specialize (Hg q Hq).
    unfold Slab.SLABMEM_PAGE_SIZE in *. lia.
Defined.
#[export] Instance drivers : BlockDrivers Z := {
  bd_pages := counting_pages;
  assertions := false;
  get_operations r t w := ((0, r), w);
  get_references r w := (if r =? 2000 then 1 else 0, w) }.

Definition start : state Z := mkState 4096 [] (Slab.mkSlabCache 0 20 0) ∅ ∅ [].
Lemma start_represents : represents start 0 [].
Proof.
  split; [done|constructor| |done| |constructor].
  - intros d x. by rewrite elem_of_nil.
  - split; [set_solver|]. exists [], []. split_and!; [|split; [done|intros q; by rewrite elem_of_nil]| |done].
    + split; cbn; first [done|by constructor|by intros o; rewrite elem_of_nil|unfold Slab.SLABMEM_PAGE_SIZE, Slab.sizeof_ptr; lia].
    + intros o. cbn. by rewrite elem_of_empty.
Qed.
(** [hda] and [fd0] are registered, [HDA] is not, [hda] is removed, [fd0] is in use. *)
Definition calls : list block_op :=
  [Register [104; 100; 97] 1000 0; Register [102; 100; 48] 2000 9; Register [72; 68; 65] 2000 8;
   Get (Some [72; 100; 97]) 1; Unregister [104; 100; 97]; Unregister [102; 100; 48]; Names].
End Example.

Import Example.

Lemma block_refine_witness :
  ∃ s', run_ops 8 calls Example.start =
    Done [Code 0; Code 0; Code (- EEXIST); Operations 0 (Some (1000, 0)); Code 0; Code (- EBUSY); NameList [[102; 100; 48]]] s' ∧
    ∃ k l, represents s' k l ∧ NoDup (map (fold_name ∘ bd_name) l.*2).
Proof.
  destruct (block_refine (BD := drivers) (FP := counting_fresh) (λ _ _ _ _ H, H) (λ _ _ _ H, H) 8
    calls Example.start 0 [] Example.start_represents) as (rs & s' & k & l & H & R & _ & Hnd).
  - by apply (bool_decide_unpack _).
  - apply Nat.ltb_lt. reflexivity.
  - exists s'. split; [|exists k, l; split; [exact R|exact Hnd]]. rewrite H. f_equal.
    apply (f_equal (λ o, match o with Done r _ => r | _ => [] end)) in H. rewrite <- H. vm_compute. reflexivity.
Defined.
End BlockSpec.
