(* ===== verification/Events.v ===== *)
(** Timer events ([src/oslib/kl/event.c], [event1.c], [time.c], with [time.h],
    [event.h] and the macros of [pit.h]): a pool of events, those that are posted in
    a queue in the order of their times, the others in a list of free ones.

    A pointer to an event is its index in the array, null is -1. *)
From S2P Require Import Prelude Errno FatTypes.

(** * Times *)

(** [struct timespec] and [struct pitspec]: [long] fields. *)
Record timespec := mkTime { tv_sec : Z; tv_nsec : Z }.
Record pitspec := mkPit { units : Z; gigas : Z }.

Definition TIMESPEC_A_GT_B (a b : timespec) : bool :=
  (tv_sec b <? tv_sec a) || ((tv_sec a =? tv_sec b) && (tv_nsec b <? tv_nsec a)).
Definition TIMESPEC2USEC (t : timespec) : Z := s32 (tv_sec t * 1000000 + Z.quot (tv_nsec t) 1000).

(** [n] is a DWORD: the sum is unsigned. *)
Definition ADDNANO2TIMESPEC (n : Z) (t : timespec) : timespec :=
  let nsec := s32 (u32 (tv_nsec t + n)) in
  mkTime (s32 (tv_sec t + Z.quot nsec 1000000000)) (Z.rem nsec 1000000000).
Definition SUBTIMESPEC (a b : timespec) : timespec :=
  if tv_nsec b <=? tv_nsec a then mkTime (s32 (tv_sec a - tv_sec b)) (tv_nsec a - tv_nsec b)
  else mkTime (s32 (tv_sec a - tv_sec b - 1)) (s32 (1000000000 + tv_nsec a - tv_nsec b)).

Definition ADDPITSPEC (n : Z) (t : pitspec) : pitspec :=
  let u := s32 (units t + n) in
  mkPit (Z.rem u 1423249) (s32 (gigas t + Z.quot u 1423249)).
Definition PITSPEC2USEC (t : pitspec) : Z :=
  s32 (Z.quot (s32 (units t * 1000)) 1193 + s32 (gigas t * 1000) * 1193).
Definition PITSPEC2TIMESPEC (a : pitspec) : timespec :=
  let nsec := s32 (u32 (units a * 1000) / 1193) in
  let nsec := s32 (nsec + Z.rem (s32 (gigas a * 1193)) 1000 * 1000) in
  let sec := Z.quot (s32 (gigas a * 1193)) 1000 in
  let sec := s32 (sec + Z.quot nsec 1000000) in
  mkTime sec (Z.rem nsec 1000000 * 1000).

(** * Events *)

Definition MAX_EVENT : nat := 100.
Definition NULL : Z := -1.
Definition TIME_PTICK : Z := 1.
Definition TIME_EXACT : Z := 2.
Definition TIME_NEW : Z := 3.

Record event := mkEvent { ev_next : Z; ev_par : Z; ev_handler : Z; ev_time : timespec; ev_index : Z }.
#[export] Instance event_eta : Eta event := λ r,
  mkEvent (ev_next r) (ev_par r) (ev_handler r) (ev_time r) (ev_index r).

(** The static data of the three files; [periodic] is whether [timermode] is
    LL_PERIODIC. *)
Record events (W : Type) := mkEvents {
  e_world : W;
  eventlist : list event;
  freeevents : Z;
  firstevent : Z;
  actTime : timespec;
  nts : Z;
  irq_active : Z;
  evt_prol : Z;
  evt_epil : Z;
  lastTime : Z;
  globalCounter : pitspec;
  activeEvent : bool;
  ticksize : Z;
  pit_time_const : Z;
  periodic : bool }.
Arguments mkEvents {W}. Arguments e_world {W}. Arguments eventlist {W}. Arguments freeevents {W}.
Arguments firstevent {W}. Arguments actTime {W}. Arguments nts {W}. Arguments irq_active {W}.
Arguments evt_prol {W}. Arguments evt_epil {W}. Arguments lastTime {W}. Arguments globalCounter {W}.
Arguments activeEvent {W}. Arguments ticksize {W}. Arguments pit_time_const {W}. Arguments periodic {W}.
#[export] Instance events_eta W : Eta (events W) := λ r,
  mkEvents (e_world r) (eventlist r) (freeevents r) (firstevent r) (actTime r) (nts r) (irq_active r)
    (evt_prol r) (evt_epil r) (lastTime r) (globalCounter r) (activeEvent r) (ticksize r) (pit_time_const r)
    (periodic r).

(** The handlers, the prologue and the epilogue, which may call the functions of this
    file; the counters of the timer and the interrupt controller. *)
Class EventWorld (W : Type) := {
  run_handler : Z → Z → M (events W) ();
  run_hook : Z → M (events W) ();
  pit_read : Z → W → Z * W;
  pit_setconstant : Z → Z → W → W;
  read_isr : W → Z * W }.

Section events.
Context {W : Type} `{EventWorld W} `{Fuel}.
Notation EM := (M (events W)).

Definition ecall {A} (f : W → A * W) : EM A :=
  r ← gets (λ s, f (e_world s)); modify (λ s, s <| e_world := snd r |>);; mret (fst r).
Definition set_timer (c : Z) : EM () := modify (λ s, s <| e_world ::= pit_setconstant 0 c |>).

(** [*p] *)
Definition ev (p : Z) : EM event :=
  x ← gets (λ s, if p <? 0 then None else eventlist s !! Z.to_nat p); deref x.
Definition set_ev (p : Z) (f : event → event) : EM () :=
  x ← ev p; modify (λ s, s <| eventlist ::= <[Z.to_nat p := f x]> |>).

Definition event_setprologue (p : Z) : EM () := modify (λ s, s <| evt_prol := p |>).
Definition event_setepilogue (p : Z) : EM () := modify (λ s, s <| evt_epil := p |>).

(** * Reading the time *)

(** The counter of the timer counts down. *)
Definition update_counter (frc : Z) : EM () :=
  tmp ← ecall (pit_read frc);
  modify (λ s, s <| globalCounter ::= ADDPITSPEC (u16 (lastTime s - tmp)) |>);;
  modify (λ s, s <| lastTime := tmp |>).

(** The result and the time stored; [None] for nothing stored. [frc] is the counter
    that runs freely. A counter above the constant is a panic. *)
Definition ll_gettime (frc mode : Z) : EM (Z * option timespec) :=
  active ← gets activeEvent;
  if (active : bool) then
    t ← gets (λ s, PITSPEC2TIMESPEC (globalCounter s)); mret (u32 (TIMESPEC2USEC t), Some t)
  else if mode =? TIME_PTICK then
    p ← gets periodic;
    if negb p then mret (0, None)
    else t ← gets actTime; mret (u32 (TIMESPEC2USEC t), Some t)
  else if mode =? TIME_NEW then
    update_counter frc;;
    c ← gets globalCounter; mret (u32 (PITSPEC2USEC c), Some (PITSPEC2TIMESPEC c))
  else if mode =? TIME_EXACT then
    p ← gets periodic;
    if negb p then mret (0, None)
    else
      tmp ← gets actTime;
      tc ← ecall (pit_read 0);
      k ← gets pit_time_const;
      tick ← gets ticksize;
      if k <? tc then fault
      else if k =? 0 then fault
      else
        let res := u32 (u32 (k - tc) * tick) / k in
        isr ← ecall read_isr;
        let res := if has isr 1 && (res <? u32 (8 * tick) / 10) then tick else res in
        mret (u32 (res + TIMESPEC2USEC tmp), Some (ADDNANO2TIMESPEC (u32 (res * 1000)) tmp))
  else mret (0, None).

(** * Posting and deleting *)

(** [for (p1 = firstevent; p1; p1 = t->next)]: the event to insert after and the one
    to insert before. *)
Fixpoint find_spot (n : nat) (time : timespec) (t p1 : Z) : EM (Z * Z) :=
  if p1 =? NULL then mret (t, p1)
  else match n with
  | O => nofuel
  | S n =>
      x ← ev p1;
      if TIMESPEC_A_GT_B time (ev_time x) then find_spot n time p1 (ev_next x) else mret (t, p1)
  end.

(** An event taken off the free ones and filled: its address. *)
Definition take_event (time : timespec) (handler par : Z) : EM Z :=
  p ← gets freeevents;
  x ← ev p;
  modify (λ s, s <| freeevents := ev_next x |>);;
  set_ev p (λ x, x <| ev_handler := handler |>);;
  set_ev p (λ x, x <| ev_time := time |>);;
  set_ev p (λ x, x <| ev_par := par |>);;
  mret p.

Definition periodic_event_post (time : timespec) (handler par : Z) : EM Z :=
  free ← gets freeevents;
  if free =? NULL then mret (-1)
  else
    p ← take_event time handler par;
    first ← gets firstevent;
    r ← find_spot MAX_EVENT time NULL first;
    let '(t, p1) := r in
    (if negb (t =? NULL) then set_ev t (λ x, x <| ev_next := p |>)
     else modify (λ s, s <| firstevent := p |>));;
    set_ev p (λ x, x <| ev_next := p1 |>);;
    x ← ev p;
    mret (ev_index x).

(** The timer is set to the time left to the first event. *)
Definition program_timer (now : timespec) : EM () :=
  first ← gets firstevent;
  x ← ev first;
  let tmp := if TIMESPEC_A_GT_B now (ev_time x) then mkTime 0 0 else SUBTIMESPEC (ev_time x) now in
  set_timer (u32 (u32 (TIMESPEC2USEC tmp) * 1193) / 1000).
Definition now_new (frc : Z) : EM timespec :=
  r ← ll_gettime frc TIME_NEW; deref r.2.

Definition oneshot_event_post (frc : Z) (time : timespec) (handler par : Z) : EM Z :=
  free ← gets freeevents;
  if free =? NULL then mret (-1)
  else
    p ← take_event time handler par;
    first ← gets firstevent;
    r ← find_spot MAX_EVENT time NULL first;
    let '(t, p1) := r in
    (if negb (t =? NULL) then set_ev t (λ x, x <| ev_next := p |>)
     else
       modify (λ s, s <| firstevent := p |>);;
       active ← gets activeEvent;
       if (active : bool) then mret () else now ← now_new frc; program_timer now);;
    set_ev p (λ x, x <| ev_next := p1 |>);;
    x ← ev p;
    mret (ev_index x).

(** [for (p1 = firstevent; (p1) && (index != p1->index); p1 = t->next)] *)
Fixpoint find_event (n : nat) (index t p1 : Z) : EM (Z * Z) :=
  if p1 =? NULL then mret (t, p1)
  else match n with
  | O => nofuel
  | S n =>
      x ← ev p1;
      if negb (index =? ev_index x) then find_event n index p1 (ev_next x) else mret (t, p1)
  end.

(** The event [p1] after [t] out of the queue and into the free ones. *)
Definition unlink_event (t p1 : Z) : EM () :=
  x ← ev p1;
  (if t =? NULL then modify (λ s, s <| firstevent := ev_next x |>)
   else set_ev t (λ y, y <| ev_next := ev_next x |>));;
  free ← gets freeevents;
  set_ev p1 (λ x, x <| ev_next := free |>);;
  modify (λ s, s <| freeevents := p1 |>).

Definition periodic_event_delete (index : Z) : EM Z :=
  first ← gets firstevent;
  r ← find_event MAX_EVENT index NULL first;
  let '(t, p1) := r in
  if p1 =? NULL then mret (-1) else unlink_event t p1;; mret 1.

Definition oneshot_event_delete (frc index : Z) : EM Z :=
  first ← gets firstevent;
  r ← find_event MAX_EVENT index NULL first;
  let '(t, p1) := r in
  if p1 =? NULL then mret (-1)
  else
    unlink_event t p1;;
    active ← gets activeEvent;
    (if (active : bool) then mret ()
     else
       first ← gets firstevent;
       if first =? NULL then set_timer 0xFFFF
       else if t =? NULL then now ← now_new frc; program_timer now
       else mret ());;
    mret 1.

(** The functions that [event_post] and [event_delete] point to. *)
Definition event_post (frc : Z) (time : timespec) (handler par : Z) : EM Z :=
  p ← gets periodic;
  if (p : bool) then periodic_event_post time handler par else oneshot_event_post frc time handler par.
Definition event_delete (frc index : Z) : EM Z :=
  p ← gets periodic;
  if (p : bool) then periodic_event_delete index else oneshot_event_delete frc index.

(** * The timer interrupt *)

(** [for (p = firstevent; p != NULL; p = pp)]; [now] is read at every event. *)
Fixpoint wake_loop (n : nat) (now : EM timespec) (p : Z) : EM () :=
  if p =? NULL then mret ()
  else match n with
  | O => nofuel
  | S n =>
      x ← ev p;
      t ← now;
      if TIMESPEC_A_GT_B (ev_time x) t then mret ()
      else
        let pp := ev_next x in
        free ← gets freeevents;
        set_ev p (λ x, x <| ev_next := free |>);;
        modify (λ s, s <| freeevents := p |>);;
        modify (λ s, s <| firstevent := pp |>);;
        x ← ev p;
        run_handler (ev_handler x) (ev_par x);;
        wake_loop n now pp
  end.

Definition hook (f : events W → Z) : EM () :=
  p ← gets f;
  active ← gets irq_active;
  if (active =? 1) && nz p then run_hook p else mret ().

Definition periodic_wake_up (frc : Z) : EM () :=
  update_counter frc;;
  modify (λ s, s <| irq_active ::= Z.succ |>);;
  hook evt_prol;;
  modify (λ s, s <| actTime ::= ADDNANO2TIMESPEC (nts s) |>);;
  first ← gets firstevent;
  wake_loop fuel (gets actTime) first;;
  hook evt_epil;;
  modify (λ s, s <| irq_active ::= Z.pred |>).

(** After the events that were due have been handled the first of the others is read,
    though there may be none. *)
Definition oneshot_wake_up (frc : Z) : EM () :=
  update_counter frc;;
  now ← gets (λ s, PITSPEC2TIMESPEC (globalCounter s));
  first ← gets firstevent;
  if negb (first =? NULL) then
    modify (λ s, s <| activeEvent := true |>);;
    x ← ev first;
    (if TIMESPEC_A_GT_B now (ev_time x) then
       p ← gets evt_prol;
       active ← gets irq_active;
       (if negb (nz active) && nz p then run_hook p else mret ());;
       modify (λ s, s <| irq_active ::= Z.succ |>);;
       wake_loop fuel (mret now) first;;
       hook evt_epil;;
       modify (λ s, s <| irq_active ::= Z.pred |>)
     else mret ());;
    update_counter frc;;
    now ← gets (λ s, PITSPEC2TIMESPEC (globalCounter s));
    program_timer now;;
    modify (λ s, s <| activeEvent := false |>)
  else set_timer 0xFFFF.

(** * Initialisation *)

(** [for (i = 0; i < MAX_EVENT; i++)], and the null at the end. *)
Definition init_events : list event :=
  map (λ i, mkEvent (if i <? Z.of_nat MAX_EVENT - 1 then i + 1 else NULL) 0 0 (mkTime 0 0) i)
    (seqZ 0 (Z.of_nat MAX_EVENT)).

(** The timer chip and the interrupt controller are set up besides. *)
Definition event_init (is_periodic : bool) (tick : Z) : EM () :=
  (if is_periodic then
     let t := u32 (tick * 1193) / 1000 in
     let t := if t =? 0 then 1 else t in
     modify (λ s, s <| pit_time_const := Z.land t 0xFFFF |>)
   else mret ());;
  modify (λ s, s <| periodic := is_periodic |>);;
  modify (λ s, s <| eventlist := init_events |>);;
  modify (λ s, s <| freeevents := 0 |>);;
  modify (λ s, s <| evt_prol := 0 |> <| evt_epil := 0 |>);;
  modify (λ s, s <| ticksize := s32 (pit_time_const s * 1000) / 1193 |>);;
  modify (λ s, s <| nts := u32 (ticksize s * 1000) |>);;
  modify (λ s, s <| actTime := mkTime 0 0 |>);;
  modify (λ s, s <| globalCounter := mkPit 0 0 |>);;
  modify (λ s, s <| lastTime := 0 |>).
End events.
