(* ===== verification/EventsSpec.v ===== *)
(** Timer events, proved: the queue and the free list of [Events] are a sorted
    agenda, which posting, deleting and the timer interrupt keep. *)
From S2P Require Import Prelude Errno FatTypes Events.
From Stdlib Require Import Sorted.

(** * The specification: an agenda *)

Record entry := mkEntry { en_index : nat; en_time : timespec; en_handler : Z; en_par : Z }.
Record agenda := mkAgenda { pending : list entry; spare : list nat }.

#[export] Instance timespec_dec : EqDecision timespec.
Proof. solve_decision. Defined.
#[export] Instance entry_dec : EqDecision entry.
Proof. solve_decision. Defined.

(** An event is entered before the first that is not earlier. *)
Fixpoint enter (e : entry) (l : list entry) : list entry :=
  match l with
  | [] => [e]
  | x :: l' => if TIMESPEC_A_GT_B (en_time e) (en_time x) then x :: enter e l' else e :: l
  end.

Definition post (t : timespec) (h p : Z) (a : agenda) : Z * agenda :=
  match spare a with
  | [] => (-1, a)
  | i :: sp => (Z.of_nat i, mkAgenda (enter (mkEntry i t h p) (pending a)) sp)
  end.

Definition with_index (i : Z) (e : entry) : Prop := Z.of_nat (en_index e) = i.
#[export] Instance with_index_dec i e : Decision (with_index i e).
Proof. unfold with_index; apply _. Defined.

Definition delete (i : Z) (a : agenda) : Z * agenda :=
  match list_find (with_index i) (pending a) with
  | None => (-1, a)
  | Some (_, e) => (1, mkAgenda (filter (λ x, ¬ with_index i x) (pending a)) (en_index e :: spare a))
  end.

Inductive event_op := Post (t : timespec) (h p : Z) | Delete (i : Z).

Definition agenda_op (o : event_op) (a : agenda) : Z * agenda :=
  match o with Post t h p => post t h p a | Delete i => delete i a end.
Fixpoint agenda_ops (l : list event_op) (a : agenda) : list Z * agenda :=
  match l with
  | [] => ([], a)
  | o :: l => let '(r, a) := agenda_op o a in let '(rs, a) := agenda_ops l a in (r :: rs, a)
  end.

(** * The order of times *)

Definition later (a b : timespec) : Prop := TIMESPEC_A_GT_B a b = true.
#[export] Instance later_dec a b : Decision (later a b).
Proof. unfold later; apply _. Defined.

Lemma later_spec a b : later a b ↔ tv_sec b < tv_sec a ∨ (tv_sec a = tv_sec b ∧ tv_nsec b < tv_nsec a).
Proof. unfold later, TIMESPEC_A_GT_B. rewrite orb_true_iff, andb_true_iff, !Z.ltb_lt, Z.eqb_eq. done. Qed.
Lemma later_trans a b c : later a b → ¬ later c b → later a c.
Proof. rewrite !later_spec. lia. Qed.

Definition ordered (x y : entry) : Prop := ¬ later (en_time x) (en_time y).

Lemma enter_elem e l x : x ∈ enter e l ↔ x = e ∨ x ∈ l.
Proof.
  induction l as [|y l IH]; cbn; [set_solver|]. destruct (TIMESPEC_A_GT_B _ _); [|set_solver].
  rewrite elem_of_cons, IH, elem_of_cons. naive_solver.
Qed.

Lemma enter_sorted e l : StronglySorted ordered l → StronglySorted ordered (enter e l).
Proof.
  induction 1 as [|x l Hl IH Hx]; cbn; [by repeat constructor|].
  destruct (TIMESPEC_A_GT_B _ _) eqn:E.
  - constructor; [done|]. apply Forall_forall. intros y [->|Hy]%enter_elem; [|by rewrite Forall_forall in Hx; apply Hx].
    unfold ordered. apply later_spec in E. rewrite later_spec. lia.
  - constructor; [by constructor|].
    assert (Hex : ordered e x) by (unfold ordered, later; congruence). constructor; [done|].
    eapply Forall_impl; [exact Hx|]. unfold ordered in *. intros y. rewrite later_spec in *. rewrite later_spec. lia.
Qed.

Lemma enter_after e l1 l2 : Forall (λ x, later (en_time e) (en_time x)) l1 → enter e (l1 ++ l2) = l1 ++ enter e l2.
Proof. induction 1 as [|x l1 Hx _ IH]; cbn; [done|]. by rewrite Hx, IH. Qed.

Lemma filter_sorted {A} (R : A → A → Prop) (P : A → Prop) `{∀ x, Decision (P x)} l :
  StronglySorted R l → StronglySorted R (filter P l).
Proof.
  induction 1 as [|x l Hl IH Hx]; [constructor|]. rewrite filter_cons. destruct (decide (P x)); [|done].
  constructor; [done|]. apply Forall_forall. intros y [_ Hy]%list_elem_of_filter. rewrite Forall_forall in Hx. by apply Hx.
Qed.

(** * Chains of events *)

Definition next_of (l : list event) (i : nat) : option Z := ev_next <$> l !! i.
Definition data_of (l : list event) (i : nat) : option (timespec * Z * Z) :=
  (λ x, (ev_time x, ev_handler x, ev_par x)) <$> l !! i.

(** The events [c] lead from the pointer [p] to the pointer [q]. *)
Fixpoint path (l : list event) (p : Z) (c : list nat) (q : Z) : Prop :=
  match c with
  | [] => p = q
  | i :: c => p = Z.of_nat i ∧ ∃ m, next_of l i = Some m ∧ path l m c q
  end.

Lemma path_app l p c1 c2 q : path l p (c1 ++ c2) q ↔ ∃ m, path l p c1 m ∧ path l m c2 q.
Proof.
  revert p. induction c1 as [|i c1 IH]; intros p; cbn.
  - split; [by exists p|by intros (m & -> & H)].
  - setoid_rewrite IH. naive_solver.
Qed.

Lemma path_ext l l' p c q : (∀ i, i ∈ c → next_of l' i = next_of l i) → path l p c q → path l' p c q.
Proof.
  revert p. induction c as [|i c IH]; intros p He; cbn; [done|]. intros (-> & m & Hm & Hs). split; [done|].
  exists m. rewrite He by set_solver. split; [done|]. apply IH; [set_solver|done].
Qed.

(** [x->next = q], and a whole event filled. *)
Definition set_next (q : Z) (x : event) : event := x <| ev_next := q |>.

Lemma next_of_alter f l i j : i ≠ j → next_of (alter f i l) j = next_of l j.
Proof. intros H. unfold next_of. by rewrite list_lookup_alter_ne. Qed.
Lemma data_of_alter f l i j : i ≠ j → data_of (alter f i l) j = data_of l j.
Proof. intros H. unfold data_of. by rewrite list_lookup_alter_ne. Qed.
Lemma data_of_set_next q l i j : data_of (alter (set_next q) i l) j = data_of l j.
Proof.
  destruct (decide (i = j)) as [->|H]; [|by apply data_of_alter]. unfold data_of.
  rewrite list_lookup_alter_eq. by destruct (l !! j).
Qed.
Lemma next_of_set_next q l i : (i < length l)%nat → next_of (alter (set_next q) i l) i = Some q.
Proof. intros H. unfold next_of. rewrite list_lookup_alter_eq. by destruct (lookup_lt_is_Some_2 l i H) as [x ->]. Qed.
Lemma next_of_lt l i m : next_of l i = Some m → (i < length l)%nat.
Proof. unfold next_of. intros (x & Hx & _)%fmap_Some. by eapply lookup_lt_Some. Qed.

(** What is stored when what follows the events [c] becomes [p]: the successor of the
    last, or the head of the chain. *)
Definition relink (c : list nat) (p : Z) (l : list event) : list event :=
  match last c with None => l | Some t => alter (set_next p) t l end.
Definition rehead (c : list nat) (p first : Z) : Z := match last c with None => p | Some _ => first end.

Lemma path_relink l first c m p : path l first c m → NoDup c → path (relink c p l) (rehead c p first) c p.
Proof.
  intros Hs Hn. unfold relink, rehead. destruct (list_snoc_case c) as [->|(c' & t & ->)]; [done|].
  rewrite last_snoc. apply path_app in Hs as (k & H1 & (-> & m' & Hm & <-)). apply NoDup_app in Hn as (_ & Hn & _).
  apply path_app. exists (Z.of_nat t). split.
  - eapply path_ext; [|exact H1]. intros i Hi. apply next_of_alter. intros ->. apply (Hn i Hi). set_solver.
  - cbn. split; [done|]. exists p. split; [|done]. eapply next_of_set_next, next_of_lt, Hm.
Qed.

Lemma next_of_relink c p l i : i ∉ c → next_of (relink c p l) i = next_of l i.
Proof.
  intros H. unfold relink. destruct (last c) as [t|] eqn:E; [|done]. apply last_Some_elem_of in E.
  apply next_of_alter. by intros ->.
Qed.
Lemma data_of_relink c p l i : data_of (relink c p l) i = data_of l i.
Proof. unfold relink. destruct (last c); [apply data_of_set_next|done]. Qed.
Lemma length_relink c p l : length (relink c p l) = length l.
Proof. unfold relink. destruct (last c); [apply length_alter|done]. Qed.
Lemma path_relink_other l p c c' q q' : (∀ i, i ∈ c → i ∉ c') → path l p c q → path (relink c' q' l) p c q.
Proof. intros H. apply path_ext. intros i Hi. by apply next_of_relink, H. Qed.

(** * What the arrays and the two heads represent *)

Definition indexed (l : list event) : Prop := ∀ i x, l !! i = Some x → ev_index x = Z.of_nat i.

Record linked (l : list event) (first free : Z) (a : agenda) : Prop := {
  lk_length : length l = MAX_EVENT;
  lk_index : indexed l;
  lk_pending : path l first (map en_index (pending a)) NULL;
  lk_spare : path l free (spare a) NULL;
  lk_all : map en_index (pending a) ++ spare a ≡ₚ seq 0 MAX_EVENT;
  lk_data : Forall (λ e, data_of l (en_index e) = Some (en_time e, en_handler e, en_par e)) (pending a);
  lk_sorted : StronglySorted ordered (pending a) }.

Lemma lk_nodup l first free a : linked l first free a → NoDup (map en_index (pending a) ++ spare a).
Proof. intros L. rewrite (lk_all _ _ _ _ L). apply NoDup_seq. Qed.
Lemma lk_bound l first free a i :
  linked l first free a → i ∈ map en_index (pending a) ++ spare a → ∃ x, l !! i = Some x.
Proof.
  intros L. rewrite (lk_all _ _ _ _ L), elem_of_seq. intros H. apply lookup_lt_is_Some_2. rewrite (lk_length _ _ _ _ L).
  lia.
Qed.

Lemma indexed_alter f l i : (∀ x, ev_index (f x) = ev_index x) → indexed l → indexed (alter f i l).
Proof.
  intros Hf Hl j x. rewrite list_lookup_alter. case_decide as E; [|apply Hl]. subst j.
  intros (y & Hy & ->)%fmap_Some. rewrite Hf. by apply Hl.
Qed.
Lemma indexed_relink c p l : indexed l → indexed (relink c p l).
Proof. unfold relink. destruct (last c); [by apply indexed_alter|done]. Qed.

Definition filled (i : nat) (t : timespec) (h p : Z) (l : list event) : list event :=
  alter (λ x, x <| ev_par := p |>) i (alter (λ x, x <| ev_time := t |>) i (alter (λ x, x <| ev_handler := h |>) i l)).

Lemma filled_next i t h p l j : next_of (filled i t h p l) j = next_of l j.
Proof.
  destruct (decide (i = j)) as [->|H]; unfold filled.
  - unfold next_of. rewrite !list_lookup_alter_eq. by destruct (l !! j).
  - by rewrite !next_of_alter.
Qed.
Lemma filled_data i t h p l : (i < length l)%nat → data_of (filled i t h p l) i = Some (t, h, p).
Proof.
  intros [x Hx]%lookup_lt_is_Some_2. unfold data_of, filled. rewrite !list_lookup_alter_eq, Hx. done.
Qed.
Lemma filled_data_other i t h p l j : i ≠ j → data_of (filled i t h p l) j = data_of l j.
Proof. intros H. unfold filled. by rewrite !data_of_alter. Qed.

(** Entering and taking away an entry, on the arrays. *)
Lemma linked_enter l first free free' l1 l2 i sp q e :
  linked l first free (mkAgenda (l1 ++ l2) (i :: sp)) → en_index e = i → enter e (l1 ++ l2) = l1 ++ e :: l2 →
  next_of l i = Some free' → path l first (map en_index l1) q → path l q (map en_index l2) NULL →
  linked (alter (set_next q) i (relink (map en_index l1) (Z.of_nat i) (filled i (en_time e) (en_handler e) (en_par e) l)))
    (rehead (map en_index l1) (Z.of_nat i) first) free' (mkAgenda (l1 ++ e :: l2) sp).
Proof.
  intros L Hi He Hn H1 H2. pose proof (lk_nodup _ _ _ _ L) as Hd. cbn [pending spare] in Hd.
  rewrite map_app in Hd. set (l0 := filled i _ _ _ l).
  assert (Hlen : (i < length l)%nat) by by eapply next_of_lt.
  assert (Hlen0 : length l0 = length l) by (subst l0; unfold filled; by rewrite !length_alter).
  apply NoDup_app in Hd as (Hd12 & Hdis & [Hisp Hdsp]%NoDup_cons). pose proof Hd12 as (Hd1 & Hd12' & Hd2)%NoDup_app.
  assert (Hi1 : i ∉ map en_index l1) by (intros Hx; apply (Hdis i); set_solver).
  assert (Hi2 : i ∉ map en_index l2) by (intros Hx; apply (Hdis i); set_solver).
  split; cbn [pending spare].
  - rewrite length_alter, length_relink, Hlen0. apply L.
  - apply indexed_alter; [done|]. apply indexed_relink. repeat (apply indexed_alter; [done|]). apply L.
  - rewrite map_app. apply path_app. exists (Z.of_nat i). split.
    + eapply path_ext; [|eapply path_relink; [|exact Hd1]].
      * intros j Hj. apply next_of_alter. by intros ->.
      * eapply path_ext; [|exact H1]. intros j _. apply filled_next.
    + cbn. rewrite Hi. split; [done|]. exists q. split; [apply next_of_set_next; by rewrite length_relink, Hlen0|].
      eapply path_ext; [|exact H2]. intros j Hj. rewrite next_of_alter by by intros ->.
      rewrite next_of_relink by (intros Hx; by apply (Hd12' j)). apply filled_next.
  - destruct (lk_spare _ _ _ _ L) as (_ & m & Hm & Hs). rewrite Hn in Hm. injection Hm as <-.
    eapply path_ext; [|exact Hs]. intros j Hj. rewrite next_of_alter by by intros ->.
    rewrite next_of_relink by (intros Hx; apply (Hdis j); set_solver). apply filled_next.
  - rewrite <- (lk_all _ _ _ _ L). cbn [pending spare]. rewrite !map_app. cbn. rewrite Hi. solve_Permutation.
  - pose proof (lk_data _ _ _ _ L) as Hdt. cbn in Hdt. rewrite Forall_forall in Hdt. apply Forall_forall.
    intros x Hx. rewrite data_of_set_next, data_of_relink. destruct (decide (x = e)) as [->|Hne].
    + rewrite Hi. by apply filled_data.
    + assert (Hx' : x ∈ l1 ++ l2) by set_solver. rewrite <- (Hdt x Hx'). apply filled_data_other. intros ->.
      apply elem_of_app in Hx' as [Hx'|Hx']; apply (list_elem_of_fmap_2 en_index) in Hx'; tauto.
  - rewrite <- He. apply enter_sorted, L.
Qed.

Lemma linked_leave l first free q l1 e l2 sp :
  linked l first free (mkAgenda (l1 ++ e :: l2) sp) → next_of l (en_index e) = Some q →
  linked (alter (set_next free) (en_index e) (relink (map en_index l1) q l)) (rehead (map en_index l1) q first)
    (Z.of_nat (en_index e)) (mkAgenda (l1 ++ l2) (en_index e :: sp)).
Proof.
  intros L Hq. pose proof (lk_nodup _ _ _ _ L) as Hd. cbn [pending spare] in Hd. rewrite map_app in Hd. cbn in Hd.
  assert (Hlen : (en_index e < length l)%nat) by by eapply next_of_lt.
  apply NoDup_app in Hd as (Hd & Hdis & Hdsp). apply NoDup_app in Hd as (Hd1 & Hd12 & [He2 Hd2]%NoDup_cons).
  assert (He1 : en_index e ∉ map en_index l1) by (intros Hx; apply (Hd12 _ Hx); set_solver).
  assert (Hesp : en_index e ∉ sp) by (apply Hdis; set_solver).
  pose proof (lk_pending _ _ _ _ L) as Hp. cbn in Hp. rewrite map_app in Hp.
  apply path_app in Hp as (m & H1 & (-> & m' & Hm' & H2)). rewrite Hq in Hm'. injection Hm' as <-.
  split; cbn [pending spare].
  - rewrite length_alter, length_relink. apply L.
  - apply indexed_alter; [done|]. apply indexed_relink, L.
  - rewrite map_app. apply path_app. exists q. split.
    + eapply path_ext; [|by apply (path_relink _ _ _ _ q H1)]. intros j Hj. apply next_of_alter. congruence.
    + eapply path_ext; [|exact H2]. intros j Hj. rewrite next_of_alter by congruence.
      apply next_of_relink. intros Hx. apply (Hd12 _ Hx). set_solver.
  - split; [done|]. exists free. split; [apply next_of_set_next; by rewrite length_relink|].
    eapply path_ext; [|apply (lk_spare _ _ _ _ L)]. intros j Hj. rewrite next_of_alter by congruence.
    apply next_of_relink. intros Hx. apply (Hdis j); set_solver.
  - rewrite <- (lk_all _ _ _ _ L). cbn [pending spare]. rewrite !map_app. cbn. solve_Permutation.
  - pose proof (lk_data _ _ _ _ L) as Hdt. cbn in Hdt. rewrite Forall_forall in Hdt. apply Forall_forall.
    intros x Hx. rewrite data_of_set_next, data_of_relink. apply Hdt. set_solver.
  - pose proof (lk_sorted _ _ _ _ L) as Hs. cbn in Hs. clear -Hs. induction l1 as [|x l1 IH]; cbn in *.
    + by inversion Hs.
    + inversion Hs as [|? ? Hs' Hx]; subst. constructor; [by apply IH|]. rewrite !Forall_app, ?Forall_cons in *. tauto.
Qed.

(** * The operations *)

Section operations.
Context {W : Type} `{EventWorld W} `{Fuel}.

Definition represents (s : events W) (a : agenda) : Prop := linked (eventlist s) (firstevent s) (freeevents s) a.

Lemma ev_at (s : events W) i x : eventlist s !! i = Some x → ev (Z.of_nat i) s = Done x s.
Proof.
  intros Hx. unfold ev, mbind, M_bind, gets. rewrite (proj2 (Z.ltb_ge _ _)) by lia. by rewrite Nat2Z.id, Hx.
Qed.
Lemma set_ev_at (s : events W) i f x :
  eventlist s !! i = Some x → set_ev (Z.of_nat i) f s = Done tt (s <| eventlist := alter f i (eventlist s) |>).
Proof.
  intros Hx. unfold set_ev. rewrite (bind_eq _ _ _ _ _ (ev_at s i x Hx)). unfold modify. rewrite Nat2Z.id.
  cbn. do 2 f_equal. apply list_eq. intros j. rewrite list_lookup_alter, list_lookup_insert.
  case_decide as E1; case_decide as E2; try done.
  - by rewrite Hx.
  - by destruct E1.
  - destruct E1. split; [done|]. by eapply lookup_lt_Some.
Qed.
Lemma next_null (i : nat) : (Z.of_nat i =? NULL) = false.
Proof. apply Z.eqb_neq. unfold NULL. lia. Qed.

Definition prev_of (c : list nat) (t : Z) : Z := match last c with None => t | Some i => Z.of_nat i end.
Lemma prev_of_cons i c t : prev_of c (Z.of_nat i) = prev_of (i :: c) t.
Proof. unfold prev_of. rewrite last_cons. by destruct (last c). Qed.

Lemma next_lookup (l : list event) i m : next_of l i = Some m → ∃ x, l !! i = Some x ∧ ev_next x = m.
Proof. unfold next_of. intros (x & Hx & ->)%fmap_Some. by exists x. Qed.
Lemma data_lookup (l : list event) i x t h p : l !! i = Some x → data_of l i = Some (t, h, p) →
  ev_time x = t ∧ ev_handler x = h ∧ ev_par x = p.
Proof. unfold data_of. intros ->. cbn. naive_solver. Qed.

Lemma find_spot_spec (s : events W) n e es t p1 :
  path (eventlist s) p1 (map en_index es) NULL → (length es ≤ n)%nat →
  Forall (λ e, data_of (eventlist s) (en_index e) = Some (en_time e, en_handler e, en_par e)) es →
  ∃ l1 l2 q, es = l1 ++ l2 ∧ enter e es = l1 ++ e :: l2 ∧
    path (eventlist s) p1 (map en_index l1) q ∧ path (eventlist s) q (map en_index l2) NULL ∧
    find_spot n (en_time e) t p1 s = Done (prev_of (map en_index l1) t, q) s.
Proof.
  revert n t p1. induction es as [|x es IH]; intros n t p1 Hs Hn Hd.
  { exists [], [], NULL. cbn in *. subst. split_and!; try done. by destruct n. }
  destruct Hs as (-> & m & Hm & Hs). destruct n as [|n]; [cbn in Hn; lia|].
  apply Forall_cons in Hd as [Hx Hd]. destruct (next_lookup _ _ _ Hm) as (y & Hy & Hym).
  destruct (data_lookup _ _ _ _ _ _ Hy Hx) as (Ht & _). cbn [find_spot enter]. rewrite next_null.
  rewrite (bind_eq _ _ _ _ _ (ev_at s _ _ Hy)), Ht. destruct (TIMESPEC_A_GT_B _ _).
  - rewrite Hym. destruct (IH n (Z.of_nat (en_index x)) m) as (l1 & l2 & q & -> & -> & H1 & H2 & ->);
      [done|cbn in Hn; lia|done|]. exists (x :: l1), l2, q. cbn [map app]. rewrite <- (prev_of_cons _ _ t).
    split_and!; try done. split; [done|]. by exists m.
  - exists [], (x :: es), (Z.of_nat (en_index x)). split_and!; try done. split; [done|]. by exists m.
Qed.

Lemma find_event_spec (s : events W) n i es t p1 :
  path (eventlist s) p1 (map en_index es) NULL → (length es ≤ n)%nat → indexed (eventlist s) →
  (list_find (with_index i) es = None ∧ ∃ t', find_event n i t p1 s = Done (t', NULL) s) ∨
  (∃ l1 e l2, es = l1 ++ e :: l2 ∧ list_find (with_index i) es = Some (length l1, e) ∧ with_index i e ∧
    find_event n i t p1 s = Done (prev_of (map en_index l1) t, i) s).
Proof.
  revert n t p1. induction es as [|x es IH]; intros n t p1 Hs Hn Hi.
  { left. split; [done|]. cbn in Hs. subst. exists t. by destruct n. }
  destruct Hs as (-> & m & Hm & Hs). destruct n as [|n]; [cbn in Hn; lia|].
  destruct (next_lookup _ _ _ Hm) as (y & Hy & Hym). cbn [find_event list_find]. rewrite next_null.
  rewrite (bind_eq _ _ _ _ _ (ev_at s _ _ Hy)), (Hi _ _ Hy). case_decide as E.
  - right. exists [], x, es. rewrite (proj2 (Z.eqb_eq _ _)) by by symmetry. cbn. rewrite E. done.
  - rewrite (proj2 (Z.eqb_neq _ _)) by by intros ->. cbn [negb]. rewrite Hym.
    destruct (IH n (Z.of_nat (en_index x)) m) as [(-> & t' & ->)|(l1 & e & l2 & -> & -> & He & ->)];
      [done|cbn in Hn; lia|done| |].
    + left. split; [done|]. by exists t'.
    + right. exists (x :: l1), e, l2. cbn [map length app]. by rewrite <- (prev_of_cons _ _ t).
Qed.

(** ** Posting *)

Definition still (s s' : events W) : Prop :=
  eventlist s' = eventlist s ∧ firstevent s' = firstevent s ∧ freeevents s' = freeevents s.

Lemma wp_update_counter frc (s : events W) Q :
  (∀ s', still s s' → Q tt s') → wp (update_counter frc) Q s.
Proof. intros HQ. unfold update_counter, ecall. wp_steps. by apply HQ. Qed.

Lemma wp_now_new frc (s : events W) Q : (∀ t s', still s s' → Q t s') → wp (now_new frc) Q s.
Proof.
  intros HQ. unfold now_new, ll_gettime. apply wp_bind, wp_bind, wp_gets. destruct (activeEvent s).
  - wp_steps. by apply HQ.
  - cbn. apply wp_bind, wp_update_counter. intros s' Hs. wp_steps. by apply HQ.
Qed.

Lemma wp_program_timer now (s : events W) i x Q :
  firstevent s = Z.of_nat i → eventlist s !! i = Some x → (∀ s', still s s' → Q tt s') → wp (program_timer now) Q s.
Proof.
  intros Hf Hx HQ. unfold program_timer. apply wp_bind, wp_gets, wp_bind. rewrite Hf.
  eapply wp_of_done; [by eapply ev_at|]. unfold set_timer. apply wp_modify. by apply HQ.
Qed.

Lemma take_event_spec (s : events W) es i sp t h p :
  represents s (mkAgenda es (i :: sp)) → ∃ free, next_of (eventlist s) i = Some free ∧
    take_event t h p s = Done (Z.of_nat i) (s <| freeevents := free |> <| eventlist ::= filled i t h p |>).
Proof.
  intros R. destruct (lk_spare _ _ _ _ R) as (Hf & m & Hm & _). exists m. split; [done|].
  destruct (next_lookup _ _ _ Hm) as (x & Hx & <-). unfold take_event.
  unfold mbind at 1, M_bind at 1, gets. rewrite Hf, (bind_eq _ _ _ _ _ (ev_at s _ _ Hx)).
  unfold mbind at 1, M_bind at 1, modify at 1.
  erewrite bind_eq by by eapply set_ev_at. erewrite bind_eq by (eapply set_ev_at; cbn; by rewrite list_lookup_alter_eq, Hx).
  erewrite bind_eq by (eapply set_ev_at; cbn; by rewrite !list_lookup_alter_eq, Hx). done.
Qed.

Lemma relink_snoc c t p l : relink (c ++ [t]) p l = alter (set_next p) t l.
Proof. unfold relink. by rewrite last_snoc. Qed.
Lemma rehead_snoc c t p first : rehead (c ++ [t]) p first = first.
Proof. unfold rehead. by rewrite last_snoc. Qed.
Lemma prev_of_snoc c t q : prev_of (c ++ [t]) q = Z.of_nat t.
Proof. unfold prev_of. by rewrite last_snoc. Qed.

(** The events [c] are all there. *)
Lemma path_there l p c q i : path l p c q → i ∈ c → ∃ x, l !! i = Some x.
Proof.
  revert p. induction c as [|j c IH]; intros p; cbn; [by rewrite elem_of_nil|]. intros (_ & m & Hm & Hs) [->|Hi]%elem_of_cons.
  - destruct (next_lookup _ _ _ Hm) as (x & Hx & _). by exists x.
  - by eapply IH.
Qed.

(** The part of a posting that enters the event, with what else is done when it is
    the first. *)
Lemma wp_enter_event (s : events W) c p0 i q (first_hook : M (events W) ()) (Q : Z → events W → Prop) :
  path (eventlist s) (firstevent s) c p0 → (∃ x, eventlist s !! i = Some x) → indexed (eventlist s) →
  (∀ s1 Q1, firstevent s1 = Z.of_nat i → (∃ x, eventlist s1 !! i = Some x) → (∀ s2, still s1 s2 → Q1 tt s2) →
     wp first_hook Q1 s1) →
  (∀ s', eventlist s' = alter (set_next q) i (relink c (Z.of_nat i) (eventlist s)) →
     firstevent s' = rehead c (Z.of_nat i) (firstevent s) → freeevents s' = freeevents s → Q (Z.of_nat i) s') →
  wp ((if negb (prev_of c NULL =? NULL) then set_ev (prev_of c NULL) (λ x, x <| ev_next := Z.of_nat i |>)
       else modify (λ s, s <| firstevent := Z.of_nat i |>);; first_hook);;
      set_ev (Z.of_nat i) (λ x, x <| ev_next := q |>);;
      x ← ev (Z.of_nat i); mret (ev_index x)) Q s.
Proof.
  intros Hc [x Hx] Hidx Hh HQ.
  assert (Hend : ∀ s', eventlist s' = relink c (Z.of_nat i) (eventlist s) →
     firstevent s' = rehead c (Z.of_nat i) (firstevent s) → freeevents s' = freeevents s →
     wp (set_ev (Z.of_nat i) (λ x, x <| ev_next := q |>);; x ← ev (Z.of_nat i); mret (ev_index x)) Q s').
  { intros s' H1 H2 H3. assert (∃ y, eventlist s' !! i = Some y) as [y Hy].
    { apply lookup_lt_is_Some_2. rewrite H1, length_relink. by eapply lookup_lt_Some. }
    apply wp_bind. eapply wp_of_done; [by eapply set_ev_at|]. apply wp_bind. eapply wp_of_done.
    { eapply ev_at. cbn. by rewrite list_lookup_alter_eq, Hy. }
    apply wp_ret. cbn. rewrite H1 in Hy. rewrite (indexed_relink c (Z.of_nat i) _ Hidx _ _ Hy).
    apply HQ; cbn; [by rewrite H1|done|done]. }
  apply wp_bind. destruct (list_snoc_case c) as [->|(c' & t & ->)].
  - cbn. apply wp_bind, wp_modify. apply Hh; cbn; [done|by exists x|]. intros s2 (E1 & E2 & E3).
    apply Hend; cbn in *; [by rewrite E1|by rewrite E2|by rewrite E3].
  - rewrite prev_of_snoc, next_null. cbn [negb]. destruct (path_there _ _ _ _ t Hc) as [y Hy]; [set_solver|].
    eapply wp_of_done; [by eapply set_ev_at|]. apply Hend; cbn; [by rewrite relink_snoc|by rewrite rehead_snoc|done].
Qed.

Lemma post_full t h p a (s : events W) (frc : Z) : represents s a → spare a = [] →
  event_post frc t h p s = Done (-1) s.
Proof.
  intros R E. pose proof (lk_spare _ _ _ _ R) as Hf. rewrite E in Hf. cbn in Hf.
  unfold event_post, periodic_event_post, oneshot_event_post, mbind, M_bind, gets. destruct (periodic s); by rewrite Hf.
Qed.

Lemma pending_length (s : events W) a : represents s a → (length (pending a) ≤ MAX_EVENT)%nat.
Proof.
  intros R. pose proof (Permutation_length (lk_all _ _ _ _ R)) as H1. rewrite length_seq, length_app, length_map in H1. lia.
Qed.

Lemma filled_pending l first free es i sp t h p :
  linked l first free (mkAgenda es (i :: sp)) →
  Forall (λ e, data_of (filled i t h p l) (en_index e) = Some (en_time e, en_handler e, en_par e)) es.
Proof.
  intros L. pose proof (lk_nodup _ _ _ _ L) as (_ & Hdis & _)%NoDup_app. cbn [pending spare] in Hdis.
  pose proof (lk_data _ _ _ _ L) as Hd. rewrite Forall_forall in *. intros x Hx. rewrite <- (Hd x Hx).
  apply filled_data_other. intros ->. apply (Hdis (en_index x)); [by apply (list_elem_of_fmap_2 en_index)|set_solver].
Qed.

(** Posting, with [hk] what is done besides when the event becomes the first. *)
Definition post_with (hk : M (events W) ()) (time : timespec) (handler par : Z) : M (events W) Z :=
  free ← gets freeevents;
  if free =? NULL then mret (-1)
  else
    p ← take_event time handler par;
    first ← gets firstevent;
    r ← find_spot MAX_EVENT time NULL first;
    let '(t, p1) := r in
    (if negb (t =? NULL) then set_ev t (λ x, x <| ev_next := p |>)
     else modify (λ s, s <| firstevent := p |>);; hk);;
    set_ev p (λ x, x <| ev_next := p1 |>);;
    x ← ev p;
    mret (ev_index x).

Definition reprogram (frc : Z) : M (events W) () :=
  active ← gets activeEvent;
  if (active : bool) then mret () else now ← now_new frc; program_timer now.

Lemma periodic_post_with t h p : periodic_event_post t h p = post_with (mret tt) t h p.
Proof. reflexivity. Qed.
Lemma oneshot_post_with frc t h p : oneshot_event_post frc t h p = post_with (reprogram frc) t h p.
Proof. reflexivity. Qed.

Lemma wp_reprogram frc (s : events W) i Q :
  firstevent s = Z.of_nat i → (∃ x, eventlist s !! i = Some x) → (∀ s', still s s' → Q tt s') →
  wp (reprogram frc) Q s.
Proof.
  intros Hf [x Hx] HQ. unfold reprogram. apply wp_bind, wp_gets. destruct (activeEvent s).
  { apply wp_ret, HQ. done. }
  apply wp_bind, wp_now_new. intros t s' (E1 & E2 & E3).
  eapply wp_program_timer; [by rewrite E2|by rewrite E1|]. intros s2 (F1 & F2 & F3). apply HQ.
  split_and!; congruence.
Qed.

Lemma wp_post_with hk t h p a (s : events W) :
  (∀ s1 i Q1, firstevent s1 = Z.of_nat i → (∃ x, eventlist s1 !! i = Some x) → (∀ s2, still s1 s2 → Q1 tt s2) →
     wp hk Q1 s1) →
  represents s a → wp (post_with hk t h p) (λ r s', r = (post t h p a).1 ∧ represents s' (post t h p a).2) s.
Proof.
  intros Hhk R. unfold post_with. apply wp_bind, wp_gets. destruct a as [es [|i sp]].
  { pose proof (lk_spare _ _ _ _ R) as ->. by apply wp_ret. }
  pose proof (lk_spare _ _ _ _ R) as [-> _]. rewrite next_null.
  destruct (take_event_spec s es i sp t h p R) as (free & Hfree & Htake). apply wp_bind. eapply wp_of_done; [exact Htake|].
  set (s1 := s <| freeevents := free |> <| eventlist ::= filled i t h p |>) in *. apply wp_bind, wp_gets.
  destruct (find_spot_spec s1 MAX_EVENT (mkEntry i t h p) es NULL (firstevent s))
    as (l1 & l2 & q & -> & He & H1 & H2 & Hfind).
  { eapply path_ext; [|apply (lk_pending _ _ _ _ R)]. intros j _. apply filled_next. }
  { apply (pending_length s _ R). }
  { eapply filled_pending, R. }
  apply wp_bind. eapply wp_of_done; [exact Hfind|].
  assert (Hback : ∀ c p q, path (eventlist s1) p c q → path (eventlist s) p c q).
  { intros c p' q'. apply path_ext. intros j _. symmetry. apply filled_next. }
  eapply wp_enter_event; [exact H1| | |intros; by eapply Hhk|].
  - apply lookup_lt_is_Some_2. cbn. unfold filled. rewrite !length_alter. by eapply next_of_lt.
  - cbn. repeat (apply indexed_alter; [done|]). apply R.
  - intros s' E1 E2 E3. cbn [post spare pending fst snd]. split; [done|]. unfold represents. rewrite E1, E2, E3, He.
    exact (linked_enter _ _ _ _ _ _ _ _ q (mkEntry i t h p) R eq_refl He Hfree (Hback _ _ _ H1) (Hback _ _ _ H2)).
Qed.

Lemma wp_event_post frc t h p a (s : events W) :
  represents s a → wp (event_post frc t h p) (λ r s', r = (post t h p a).1 ∧ represents s' (post t h p a).2) s.
Proof.
  intros R. unfold event_post. apply wp_bind, wp_gets. destruct (periodic s).
  - rewrite periodic_post_with. apply wp_post_with; [|done]. intros s1 i Q1 _ _ HQ. by apply wp_ret, HQ.
  - rewrite oneshot_post_with. apply wp_post_with; [|done]. intros. by eapply wp_reprogram.
Qed.

(** ** Deleting *)

Lemma wp_unlink (s : events W) l1 e l2 sp (Q : () → events W → Prop) :
  represents s (mkAgenda (l1 ++ e :: l2) sp) →
  (∀ s', represents s' (mkAgenda (l1 ++ l2) (en_index e :: sp)) → Q tt s') →
  wp (unlink_event (prev_of (map en_index l1) NULL) (Z.of_nat (en_index e))) Q s.
Proof.
  intros R HQ. destruct (lk_bound _ _ _ _ (en_index e) R) as [x Hx]; [cbn; rewrite map_app; set_solver|].
  assert (Hn : next_of (eventlist s) (en_index e) = Some (ev_next x)) by (unfold next_of; by rewrite Hx).
  pose proof (linked_leave _ _ _ _ _ _ _ _ R Hn) as L.
  unfold unlink_event. apply wp_bind. eapply wp_of_done; [by eapply ev_at|]. apply wp_bind.
  assert (Hend : ∀ s', eventlist s' = relink (map en_index l1) (ev_next x) (eventlist s) →
     firstevent s' = rehead (map en_index l1) (ev_next x) (firstevent s) → freeevents s' = freeevents s →
     wp (free ← gets freeevents; set_ev (Z.of_nat (en_index e)) (λ x, x <| ev_next := free |>);;
         modify (λ s, s <| freeevents := Z.of_nat (en_index e) |>)) Q s').
  { intros s' E1 E2 E3. apply wp_bind, wp_gets, wp_bind. assert (∃ y, eventlist s' !! en_index e = Some y) as [y Hy].
    { apply lookup_lt_is_Some_2. rewrite E1, length_relink. by eapply lookup_lt_Some. }
    eapply wp_of_done; [by eapply set_ev_at|]. apply wp_modify, HQ. unfold represents. cbn. by rewrite E1, E2, E3. }
  destruct (list_snoc_case l1) as [->|(l & t & ->)].
  - apply (wp_modify (λ s, s <| firstevent := ev_next x |>)). by apply Hend.
  - rewrite map_app in *. cbn [map] in *. rewrite prev_of_snoc, next_null.
    destruct (lk_bound _ _ _ _ (en_index t) R) as [y Hy]; [cbn; rewrite !map_app; cbn; set_solver|].
    eapply wp_of_done; [by eapply set_ev_at|]. apply Hend; cbn; [by rewrite relink_snoc|by rewrite rehead_snoc|done].
Qed.

Lemma delete_found i l1 e l2 sp :
  NoDup (map en_index (l1 ++ e :: l2)) → list_find (with_index i) (l1 ++ e :: l2) = Some (length l1, e) →
  with_index i e → delete i (mkAgenda (l1 ++ e :: l2) sp) = (1, mkAgenda (l1 ++ l2) (en_index e :: sp)).
Proof.
  intros Hd Hf He. unfold delete. cbn [pending spare]. rewrite Hf. do 2 f_equal.
  rewrite map_app in Hd. cbn in Hd. apply NoDup_app in Hd as (_ & H12 & [H2 _]%NoDup_cons). unfold with_index in He.
  assert (Hno : ∀ x, x ∈ l1 ∨ x ∈ l2 → ¬ with_index i x).
  { unfold with_index. intros x Hx Hi. assert (en_index x = en_index e) as Hxe by lia.
    destruct Hx as [Hx|Hx]; apply (list_elem_of_fmap_2 en_index) in Hx; rewrite Hxe in Hx; [|done].
    apply (H12 _ Hx). set_solver. }
  rewrite filter_app, filter_cons_False by (unfold with_index; tauto).
  rewrite !filter_all; [done|auto|auto].
Qed.

Lemma wp_find_delete (s : events W) i a (k : Z → Z → M (events W) Z) Q :
  represents s a →
  ((delete i a).1 = -1 → (delete i a).2 = a → ∀ t, wp (k t NULL) Q s) →
  (∀ l1 e l2 sp, a = mkAgenda (l1 ++ e :: l2) sp → i = Z.of_nat (en_index e) →
     delete i a = (1, mkAgenda (l1 ++ l2) (en_index e :: sp)) → wp (k (prev_of (map en_index l1) NULL) i) Q s) →
  wp (first ← gets firstevent; r ← find_event MAX_EVENT i NULL first; let '(t, p1) := r in k t p1) Q s.
Proof.
  intros R Hnone Hsome. apply wp_bind, wp_gets, wp_bind. destruct a as [es sp].
  destruct (find_event_spec s MAX_EVENT i es NULL (firstevent s)) as [(Hf & t & Ht)|(l1 & e & l2 & -> & Hf & He & Ht)].
  - apply (lk_pending _ _ _ _ R).
  - apply (pending_length s _ R).
  - apply R.
  - eapply wp_of_done; [exact Ht|]. unfold delete in Hnone. cbn [pending] in Hnone. rewrite Hf in Hnone. by apply Hnone.
  - eapply wp_of_done; [exact Ht|]. eapply Hsome; [done|by symmetry|]. apply delete_found; [|done|done].
    pose proof (lk_nodup _ _ _ _ R) as Hd. cbn [pending spare] in Hd. by apply NoDup_app in Hd as [Hd _].
Qed.

Lemma head_of (s : events W) a : represents s a → firstevent s ≠ NULL →
  ∃ i, firstevent s = Z.of_nat i ∧ ∃ x, eventlist s !! i = Some x.
Proof.
  intros R Hn. pose proof (lk_pending _ _ _ _ R) as Hp. destruct (pending a) as [|e es] eqn:E; [done|].
  destruct Hp as (Hp & _). exists (en_index e). split; [done|]. apply (lk_bound _ _ _ _ _ R). rewrite E. set_solver.
Qed.

Lemma represents_still (s s' : events W) a : still s s' → represents s a → represents s' a.
Proof. unfold represents. by intros (-> & -> & ->). Qed.

Lemma wp_event_delete frc i a (s : events W) :
  represents s a → wp (event_delete frc i) (λ r s', r = (delete i a).1 ∧ represents s' (delete i a).2) s.
Proof.
  intros R. unfold event_delete. apply wp_bind, wp_gets. destruct (periodic s).
  - apply (wp_find_delete s i a _ _ R); [intros -> -> t; by apply wp_ret|].
    intros l1 e l2 sp -> -> ->. rewrite next_null. apply wp_bind. eapply wp_unlink; [exact R|]. intros s' R'. by apply wp_ret.
  - apply (wp_find_delete s i a _ _ R); [intros -> -> t; by apply wp_ret|].
    intros l1 e l2 sp -> -> ->. rewrite next_null. apply wp_bind. eapply wp_unlink; [exact R|]. intros s' R'.
    apply wp_bind, wp_gets, wp_bind. cbn [fst snd].
    assert (Hend : ∀ s2, still s' s2 → wp (mret 1) (λ r s', r = 1 ∧ represents s' (mkAgenda (l1 ++ l2) (en_index e :: sp))) s2).
    { intros s2 Hs. apply wp_ret. split; [done|]. by eapply represents_still. }
    destruct (activeEvent s'); [by apply wp_ret, Hend|]. apply wp_bind, wp_gets.
    destruct (Z.eqb_spec (firstevent s') NULL) as [E|E].
    { unfold set_timer. by apply wp_modify, Hend. }
    destruct (_ =? NULL); [|by apply wp_ret, Hend]. apply wp_bind, wp_now_new. intros now s2 (F1 & F2 & F3).
    destruct (head_of _ _ R' E) as (j & Hj & x & Hx).
    eapply wp_program_timer; [by rewrite F2|by rewrite F1|]. intros s3 (G1 & G2 & G3). apply Hend. split_and!; congruence.
Qed.

(** ** Sequences of postings and deletions *)

Definition run_event_op (frc : Z) (o : event_op) : M (events W) Z :=
  match o with Post t h p => event_post frc t h p | Delete i => event_delete frc i end.
Fixpoint run_event_ops (frc : Z) (l : list event_op) : M (events W) (list Z) :=
  match l with
  | [] => mret []
  | o :: l => r ← run_event_op frc o; rs ← run_event_ops frc l; mret (r :: rs)
  end.

Lemma wp_run_event_ops frc l a (s : events W) :
  represents s a →
  wp (run_event_ops frc l) (λ rs s', rs = (agenda_ops l a).1 ∧ represents s' (agenda_ops l a).2) s.
Proof.
  revert a s. induction l as [|o l IH]; intros a s R; cbn [run_event_ops agenda_ops]; [by apply wp_ret|].
  destruct (agenda_op o a) as [r a'] eqn:Ea. apply wp_bind.
  apply wp_mono with (P := λ r' s', r' = r ∧ represents s' a').
  - intros r' s' [-> R']. apply wp_bind. eapply wp_mono; [|by apply IH]. intros rs s2 [-> R2].
    apply wp_ret. by destruct (agenda_ops l a').
  - destruct o as [t h p|i]; cbn in *.
    + pose proof (wp_event_post frc t h p a s R) as HP. by rewrite Ea in HP.
    + pose proof (wp_event_delete frc i a s R) as HP. by rewrite Ea in HP.
Qed.

Lemma event_init_linked : linked init_events NULL 0 (mkAgenda [] (seq 0 MAX_EVENT)).
Proof.
  split; [reflexivity| |reflexivity| |reflexivity|constructor|constructor].
  - intros i x Hx. unfold init_events in Hx. rewrite list_lookup_fmap in Hx.
    apply fmap_Some in Hx as (j & Hj & ->). apply lookup_seqZ in Hj as [-> _]. done.
  - vm_compute. repeat (split; [reflexivity|eexists; split; [reflexivity|]]). reflexivity.
Qed.

Lemma wp_event_init b tick (s : events W) Q :
  (∀ s', eventlist s' = init_events → firstevent s' = firstevent s → freeevents s' = 0 → periodic s' = b →
     actTime s' = mkTime 0 0 → Q tt s') → wp (event_init b tick) Q s.
Proof. intros HQ. unfold event_init. apply wp_bind. destruct b; wp_steps; by apply HQ. Qed.

(** C25: After the initialisation any sequence of postings and deletions, periodic or
    one-shot, answers as on an agenda in the order of the times, and leaves the queue
    and the list of free events to represent the agenda: every one of the hundred
    events is in one of the two and in one place of it. *)
Theorem events_refine (frc : Z) (b : bool) (tick : Z) (ops : list event_op) (s : events W) :
  firstevent s = NULL →
  wp (event_init b tick;; run_event_ops frc ops)
    (λ rs s', ∃ a, agenda_ops ops (mkAgenda [] (seq 0 MAX_EVENT)) = (rs, a) ∧
       path (eventlist s') (firstevent s') (map en_index (pending a)) NULL ∧
       path (eventlist s') (freeevents s') (spare a) NULL ∧
       map en_index (pending a) ++ spare a ≡ₚ seq 0 MAX_EVENT ∧
       Forall (λ e, data_of (eventlist s') (en_index e) = Some (en_time e, en_handler e, en_par e)) (pending a) ∧
       StronglySorted (λ x y, ¬ later (en_time x) (en_time y)) (pending a)) s.
Proof.
  intros Hf. apply wp_bind, wp_event_init. intros s' H1 H2 H3 _ _.
  eapply wp_mono; [|apply (wp_run_event_ops frc ops (mkAgenda [] (seq 0 MAX_EVENT)))].
  - intros rs s2 [-> R]. destruct (agenda_ops ops _) as [rs a]. exists a. destruct R. split_and!; done.
  - unfold represents. rewrite H1, H2, H3, Hf. apply event_init_linked.
Qed.
End operations.

(** * The timer interrupt *)

Section interrupt.
Context {W : Type} {EW : EventWorld W} {F : Fuel}.

(** What has been called, with its argument, as far as the world tells. *)
Context (trace : W → list (Z * Z)).

Definition due (now : timespec) (e : entry) : Prop := ¬ later (en_time e) now.
#[export] Instance due_dec now e : Decision (due now e).
Proof. unfold due; apply _. Defined.
Definition call_of (e : entry) : Z * Z := (en_handler e, en_par e).

(** Postings of events that are not due yet. *)
Inductive posts (now : timespec) : agenda → agenda → Prop :=
| posts_none a : posts now a a
| posts_one t h p a a' : later t now → posts now (post t h p a).2 a' → posts now a a'.

Hypothesis handler_posts : ∀ h p (s : events W) a, represents s a →
  wp (run_handler h p) (λ _ s', trace (e_world s') = trace (e_world s) ++ [(h, p)] ∧ actTime s' = actTime s ∧
    ∃ a', posts (actTime s) a a' ∧ represents s' a') s.
Hypothesis hook_quiet : ∀ p (s : events W),
  wp (run_hook p) (λ _ s', still s s' ∧ actTime s' = actTime s ∧ nts s' = nts s ∧
    trace (e_world s') = trace (e_world s)) s.
Hypothesis counter_quiet : ∀ c w, trace (pit_read c w).2 = trace w.

Lemma posts_after now a a' d r :
  posts now a a' → pending a = d ++ r → Forall (due now) d → Forall (λ e, ¬ due now e) r →
  ∃ r', pending a' = d ++ r' ∧ (∀ e, e ∈ r → e ∈ r') ∧ Forall (λ e, ¬ due now e) r'.
Proof.
  intros Hp. revert r. induction Hp as [a|t h p a a' Ht _ IH]; intros r Ha Hd Hr; [by exists r|].
  destruct a as [es [|i sp]]; cbn in *; [by apply IH|]. subst es.
  destruct (IH (enter (mkEntry i t h p) r)) as (r' & E & Hin & Hr'); [|done| |].
  - apply enter_after. eapply Forall_impl; [exact Hd|]. intros x Hx. eapply later_trans; [exact Ht|exact Hx].
  - apply Forall_forall. intros x [->|Hx]%enter_elem; [unfold due; tauto|]. rewrite Forall_forall in Hr. by apply Hr.
  - exists r'. split_and!; [done| |done]. intros e He. apply Hin, enter_elem. by right.
Qed.

Lemma wake_loop_fires now d : ∀ n p (s : events W) a r,
  represents s a → actTime s = now → pending a = d ++ r → Forall (due now) d → Forall (λ e, ¬ due now e) r →
  match d with [] => p = NULL ∨ ∃ e, e ∈ r ∧ p = Z.of_nat (en_index e) | e :: _ => p = Z.of_nat (en_index e) end →
  (length d < n)%nat →
  wp (wake_loop n (gets actTime) p) (λ _ s', actTime s' = now ∧
    trace (e_world s') = trace (e_world s) ++ map call_of d ∧
    ∃ a', represents s' a' ∧ Forall (λ e, ¬ due now e) (pending a') ∧ (∀ e, e ∈ r → e ∈ pending a')) s.
Proof.
  induction d as [|e d IH]; intros n p s a r R Hnow Ha Hd Hr Hp Hn; (destruct n as [|n]; [cbn in Hn; lia|]).
  - assert (Hdone : actTime s = now ∧ trace (e_world s) = trace (e_world s) ++ map call_of [] ∧
      ∃ a', represents s a' ∧ Forall (λ e, ¬ due now e) (pending a') ∧ (∀ e, e ∈ r → e ∈ pending a')).
    { split_and!; [done|by rewrite app_nil_r|]. exists a. by rewrite Ha. }
    cbn [wake_loop]. destruct Hp as [->|(e & He & ->)]; [by apply wp_ret|]. rewrite next_null.
    destruct (lk_bound _ _ _ _ (en_index e) R) as [x Hx].
    { rewrite Ha. apply elem_of_app. left. by apply (list_elem_of_fmap_2 en_index). }
    pose proof (lk_data _ _ _ _ R) as Hdt. rewrite Ha, Forall_forall in Hdt.
    destruct (data_lookup _ _ _ _ _ _ Hx (Hdt e He)) as (Ht & _).
    apply wp_bind. eapply wp_of_done; [by eapply ev_at|]. apply wp_bind, wp_gets. rewrite Ht, Hnow.
    rewrite Forall_forall in Hr. specialize (Hr e He). unfold due, later in Hr.
    destruct (TIMESPEC_A_GT_B _ _); [by apply wp_ret|]. by destruct Hr.
  - subst p. destruct a as [es sp]. cbn [pending] in Ha. subst es. apply Forall_cons in Hd as [He Hd].
    destruct (lk_bound _ _ _ _ (en_index e) R) as [x Hx]; [cbn; set_solver|].
    pose proof (lk_data _ _ _ _ R) as Hdt. cbn in Hdt. apply Forall_cons in Hdt as [Hde _].
    destruct (data_lookup _ _ _ _ _ _ Hx Hde) as (Ht & Hh & Hpar).
    assert (Hnx : next_of (eventlist s) (en_index e) = Some (ev_next x)) by (unfold next_of; by rewrite Hx).
    pose proof (linked_leave _ _ _ _ [] e (d ++ r) sp R Hnx) as L.
    cbn [wake_loop]. rewrite next_null. apply wp_bind. eapply wp_of_done; [by eapply ev_at|].
    apply wp_bind, wp_gets. rewrite Ht, Hnow. unfold due, later in He.
    destruct (TIMESPEC_A_GT_B _ _); [by destruct He|]. cbn zeta.
    apply wp_bind, wp_gets, wp_bind. eapply wp_of_done; [by eapply set_ev_at|].
    apply wp_bind, wp_modify, wp_bind, wp_modify, wp_bind. eapply wp_of_done.
    { eapply ev_at. cbn. by rewrite list_lookup_alter_eq, Hx. }
    cbn [fmap option_fmap option_map]. apply wp_bind.
    match goal with |- wp _ _ ?s1 => assert (R1 : represents s1 (mkAgenda (d ++ r) (en_index e :: sp))) by exact L end.
    eapply wp_mono; [|apply handler_posts, R1]. intros _ s2 (Htr & Hact & a2 & Hposts & R2).
    cbn in Htr, Hact, Hposts. rewrite Hnow in Hposts, Hact. rewrite Hh, Hpar in Htr.
    destruct (posts_after _ _ _ d r Hposts eq_refl Hd Hr) as (r2 & Ha2 & Hin & Hr2).
    eapply wp_mono; [|apply (IH n _ s2 a2 r2 R2 Hact Ha2 Hd Hr2)]; [| |cbn in Hn; lia].
    + intros _ s3 (E1 & E2 & a3 & R3 & F1 & F2). split; [done|]. split.
      { rewrite E2, Htr. cbn [map]. by rewrite <- app_assoc. }
      exists a3. split_and!; [done|done|]. intros y Hy. by apply F2, Hin.
    + pose proof (lk_pending _ _ _ _ R1) as Hseg. cbn in Hseg. destruct d as [|e' d]; cbn in Hseg.
      * destruct r as [|y r]; cbn in Hseg; [by left|]. right. exists y. split; [apply Hin; set_solver|apply Hseg].
      * apply Hseg.
Qed.

Lemma sorted_due now l : StronglySorted ordered l →
  l = filter (due now) l ++ filter (λ e, ¬ due now e) l.
Proof.
  induction 1 as [|x l Hl IH Hx]; [done|]. rewrite !filter_cons. destruct (decide (due now x)) as [Hd|Hd].
  - rewrite decide_False by tauto. cbn. by rewrite <- IH.
  - rewrite decide_True by done. assert (Hall : Forall (λ e, ¬ due now e) l).
    { eapply Forall_impl; [exact Hx|]. unfold ordered, due in *. intros y. rewrite !later_spec in *. lia. }
    rewrite (filter_all (λ e, ¬ due now e)) by by apply Forall_forall. rewrite Forall_forall in Hall.
    destruct (filter (due now) l) as [|y l'] eqn:E; [done|].
    assert (Hy : y ∈ filter (due now) l) by (rewrite E; set_solver). apply list_elem_of_filter in Hy as [H1 H2].
    by destruct (Hall y H2).
Qed.

(** What concerns neither the events nor the time. *)
Definition calm (s s' : events W) : Prop :=
  still s s' ∧ actTime s' = actTime s ∧ nts s' = nts s ∧ trace (e_world s') = trace (e_world s).

Lemma calm_counter frc (s : events W) : wp (update_counter frc) (λ _, calm s) s.
Proof. unfold update_counter, ecall. wp_steps. repeat split. apply counter_quiet. Qed.
Lemma calm_hook f (s : events W) : wp (hook f) (λ _, calm s) s.
Proof.
  unfold hook. apply wp_bind, wp_gets, wp_bind, wp_gets. destruct (_ && _); [apply hook_quiet|by apply wp_ret].
Qed.
Lemma represents_calm (s s' : events W) a : calm s s' → represents s a → represents s' a.
Proof. intros [Hs _]. by apply represents_still. Qed.

(** C26: Provided that the handlers post only events that are not due yet and delete none
    ([handler_posts]) and the hooks change nothing ([hook_quiet]), the periodic interrupt
    moves the time one tick on, calls the handlers of the events whose time is not after
    it, in the order of the times, once each and with their arguments, and no others; the
    events that are not due stay. Without that provision an event may be lost
    ([Hasty.posted_when_due_is_lost]). *)
Theorem periodic_wake_up_fires (frc : Z) (s : events W) (a : agenda) :
  represents s a → (MAX_EVENT < fuel)%nat →
  let now := ADDNANO2TIMESPEC (nts s) (actTime s) in
  wp (periodic_wake_up frc) (λ _ s', actTime s' = now ∧
    trace (e_world s') = trace (e_world s) ++ map call_of (filter (due now) (pending a)) ∧
    ∃ a', represents s' a' ∧ Forall (λ e, ¬ due now e) (pending a') ∧
      (∀ e, e ∈ pending a → ¬ due now e → e ∈ pending a')) s.
Proof.
  intros R Hfuel now. unfold periodic_wake_up. apply wp_bind. eapply wp_mono; [|apply calm_counter].
  intros [] s1 C1. apply wp_bind, wp_modify, wp_bind. eapply wp_mono; [|apply calm_hook].
  intros [] s2 C2. apply wp_bind, wp_modify, wp_bind, wp_gets, wp_bind.
  apply (represents_calm _ _ _ C1) in R. pose proof R as R2. apply (represents_calm _ _ _ C2) in R2.
  destruct C1 as (_ & A1 & B1 & D1), C2 as (_ & A2 & B2 & D2). cbn in A2, B2, D2.
  pose proof (sorted_due now _ (lk_sorted _ _ _ _ R)) as Hsplit.
  eapply wp_mono; [|apply (wake_loop_fires now (filter (due now) (pending a)) fuel _ _ a
      (filter (λ e, ¬ due now e) (pending a)))]; [|exact R2|cbn; subst now; congruence|exact Hsplit| | | |].
  - intros [] s3 (A3 & D3 & a' & R3 & F1 & F2). cbn in D3. apply wp_bind. eapply wp_mono; [|apply calm_hook].
    intros [] s4 C4. apply wp_modify. cbn. pose proof C4 as (_ & A4 & _ & D4).
    split_and!; [congruence|congruence|]. exists a'. split; [by apply (represents_calm _ _ _ C4) in R3|].
    split; [done|]. intros e He Hd. apply F2. by apply list_elem_of_filter.
  - apply Forall_forall. by intros x [Hx _]%list_elem_of_filter.
  - apply Forall_forall. by intros x [Hx _]%list_elem_of_filter.
  - cbn. pose proof (lk_pending _ _ _ _ R2) as Hseg. cbn in Hseg. rewrite Hsplit in Hseg.
    destruct (filter (due now) (pending a)) as [|x d]; cbn in Hseg; [|apply Hseg].
    destruct (filter (λ e, ¬ due now e) (pending a)) as [|y r]; cbn in Hseg; [by left|].
    right. exists y. split; [set_solver|apply Hseg].
  - pose proof (pending_length s1 _ R). pose proof (length_filter (due now) (pending a)). lia.
Qed.
End interrupt.

(** * A world whose handlers leave a trace *)

Definition calls_world : Type := list (Z * Z).
#[local] Instance hundred_one : Fuel := 101%nat.

Definition start {W} (w : W) : events W :=
  mkEvents w [] NULL NULL (mkTime 0 0) 0 0 0 0 0 (mkPit 0 0) false 0 0 true.

Module Quiet.
#[local] Instance world : EventWorld calls_world := {|
  run_handler h p := modify (λ s, s <| e_world ::= λ w, w ++ [(h, p)] |>);
  run_hook _ := mret tt;
  pit_read _ w := (0, w);
  pit_setconstant _ _ w := w;
  read_isr w := (0, w) |}.

Definition three_events : list event_op :=
  [Post (mkTime 0 7) 3 30; Post (mkTime 9 0) 4 40; Post (mkTime 0 5) 5 50].
Definition three_posted : agenda := (agenda_ops three_events (mkAgenda [] (seq 0 MAX_EVENT))).2.
Definition posting : M (events calls_world) (list Z) := event_init true 1000;; run_event_ops 0 three_events.
Definition after_posting : events calls_world :=
  match posting (start []) with Done _ s => s | _ => start [] end.

Lemma final_state {A} (m : M (events calls_world) A) (P : events calls_world → Prop) s d :
  wp m (λ _ s', P s') s → P (match m s with Done _ s' => s' | _ => d end).
Proof. unfold wp. by destruct (m s). Qed.

Lemma after_posting_represents : represents after_posting three_posted.
Proof.
  apply (final_state posting (λ s, represents s three_posted)), wp_bind, wp_event_init.
  intros s H1 H2 H3 _ _. eapply wp_mono; [|apply wp_run_event_ops].
  - intros rs s' [_ R]. exact R.
  - unfold represents. rewrite H1, H2, H3. apply event_init_linked.
Qed.

Lemma events_refine_witness :
  ∃ a rs, agenda_ops [Post (mkTime 0 7) 3 30; Post (mkTime 0 5) 4 40; Delete 0; Delete 0]
    (mkAgenda [] (seq 0 MAX_EVENT)) = (rs, a) ∧ rs = [0; 1; 1; -1] ∧
  wp (event_init true 1000;; run_event_ops 0 [Post (mkTime 0 7) 3 30; Post (mkTime 0 5) 4 40; Delete 0; Delete 0])
    (λ r s', r = rs ∧ path (eventlist s') (firstevent s') [1%nat] NULL) (start ([] : calls_world)).
Proof.
  eexists _, _. split; [vm_compute; reflexivity|]. split; [reflexivity|].
  eapply wp_mono; [|apply events_refine; reflexivity].
  intros r s (a & Ha & Hs & _). vm_compute in Ha. injection Ha as <- <-. split; [reflexivity|exact Hs].
Defined.

Lemma periodic_wake_up_fires_witness :
  wp (periodic_wake_up 0) (λ _ s', e_world s' = [(5, 50); (3, 30)] ∧ actTime s' = mkTime 0 1000000) after_posting.
Proof.
  eapply wp_mono; [|apply (periodic_wake_up_fires id) with (a := three_posted)].
  - intros [] s (Ha & Ht & _). vm_compute in Ha, Ht. split; [exact Ht|exact Ha].
  - intros h p s a R. apply wp_modify. split; [reflexivity|]. split; [reflexivity|].
    exists a. split; [apply posts_none|exact R].
  - intros p s. apply wp_ret. repeat split.
  - reflexivity.
  - apply after_posting_represents.
  - cbv. lia.
Defined.
End Quiet.

(** * A world in which a handler posts an event that is due at once *)

Module Hasty.
#[local] Instance world : EventWorld calls_world := {|
  run_handler h p :=
    modify (λ s, s <| e_world ::= λ w, w ++ [(h, p)] |>);;
    if h =? 2 then periodic_event_post (mkTime 0 5) 1 1;; mret tt else mret tt;
  run_hook _ := mret tt;
  pit_read _ w := (0, w);
  pit_setconstant _ _ w := w;
  read_isr w := (0, w) |}.

(** An event is lost when the handler of an event that is due posts one that is
    entered before another that is due: the interrupt sets the head of the queue to
    what follows the latter. Nothing is pending then, event 0 is not free, and the
    handler it was posted with was not called. *)
Theorem posted_when_due_is_lost :
  wp (event_init true 1000;; event_post 0 (mkTime 0 5) 2 0;; event_post 0 (mkTime 0 7) 1 0;; periodic_wake_up 0)
    (λ _ s, e_world s = [(2, 0); (1, 0)] ∧ firstevent s = NULL ∧ path (eventlist s) (freeevents s) (seq 1 99) NULL)
    (start ([] : calls_world)).
Proof.
  vm_compute. split; [reflexivity|]. split; [reflexivity|].
  repeat (split; [reflexivity|eexists; split; [reflexivity|]]). reflexivity.
Qed.

(** The one-shot interrupt that handles the last event reads the event there is not. *)
Definition last_event : M (events calls_world) () :=
  event_init false 0;; event_post 0 (mkTime (-1) 0) 1 0;; oneshot_wake_up 0.
Lemma oneshot_wake_up_reads_null : last_event (start []) = Fault.
Proof. vm_compute. reflexivity. Qed.
End Hasty.
