(* ===== verification/ByteMem.v ===== *)
(** A memory of bytes by address: what the loaders of object files read and write
    through pointers. An access to an address that is not there is an error. *)
From S2P Require Import Prelude.

Notation memory := (gmap Z Z).

(** The [n] bytes at [a]; the bytes [bs] stored at [a]. *)
Fixpoint load_bytes (m : memory) (a : Z) (n : nat) : option bytes :=
  match n with
  | O => Some []
  | S n => b ← m !! a; l ← load_bytes m (a + 1) n; Some (b :: l)
  end.
Fixpoint store_bytes (m : memory) (a : Z) (bs : bytes) : option memory :=
  match bs with
  | [] => Some m
  | b :: bs => _ ← m !! a; store_bytes (<[a := b]> m) (a + 1) bs
  end.

Definition load16 (m : memory) (a : Z) : option Z := l ← load_bytes m a 2; Some (le16_at l 0).
Definition load32 (m : memory) (a : Z) : option Z := l ← load_bytes m a 4; Some (le32_at l 0).
Definition store32 (m : memory) (a v : Z) : option memory := store_bytes m a (le32 v).

(** Memory that becomes available, with the contents [f]; memory that is taken back. *)
Definition make_bytes (m : memory) (a n : Z) (f : Z → Z) : memory :=
  foldr (λ i m, <[i := f i]> m) m (seqZ a n).
Definition drop_bytes (m : memory) (a n : Z) : memory := foldr delete m (seqZ a n).

(** The string at [a]: its characters before the null. *)
Fixpoint string_at (n : nat) (m : memory) (a : Z) : option bytes :=
  match n with
  | O => None
  | S n => b ← m !! a; if b =? 0 then Some [] else l ← string_at n m (a + 1); Some (b :: l)
  end.
Definition cstring (m : memory) (a : Z) : option bytes := string_at (S (size m)) m a.

(** * Laws *)

Definition within (a n i : Z) : Prop := a ≤ i < a + n.
#[export] Instance within_dec a n i : Decision (within a n i).
Proof. unfold within. apply _. Defined.

Definition mapped (m : memory) (a n : Z) : Prop := ∀ i, within a n i → is_Some (m !! i).

Lemma mapped_part m a n b k : mapped m a n → a ≤ b → b + k ≤ a + n → mapped m b k.
Proof. intros H Ha Hb i Hi. apply H. unfold within in *. lia. Qed.

Lemma load_bytes_mapped m a n : mapped m a (Z.of_nat n) → ∃ l, load_bytes m a n = Some l.
Proof.
  revert a. induction n as [|n IH]; intros a H; cbn [load_bytes]; [by eexists|].
  destruct (H a) as [b Hb]; [unfold within; lia|]. destruct (IH (a + 1)) as [l Hl].
  { eapply mapped_part; [exact H|lia|lia]. }
  rewrite Hb. cbn. rewrite Hl. by eexists.
Qed.

Lemma load_bytes_spec m a n l :
  load_bytes m a n = Some l ↔ length l = n ∧ (∀ j, (j < n)%nat → m !! (a + Z.of_nat j) = l !! j).
Proof.
  revert a l. induction n as [|n IH]; intros a l; cbn [load_bytes].
  - split; [intros [= <-]; split; [done|intros; lia]|]. intros [Hl _]. by destruct l.
  - split.
    + intros H. apply bind_Some in H as (b & Hb & H). apply bind_Some in H as (l' & Hl & [= <-]).
      apply IH in Hl as [Hlen Hl]. split; [cbn; lia|]. intros [|j] Hj; [by rewrite Z.add_0_r|].
      replace (a + Z.of_nat (S j)) with (a + 1 + Z.of_nat j) by lia. apply Hl. lia.
    + intros [Hlen Hl]. destruct l as [|b l]; [done|]. apply bind_Some. exists b. split.
      { specialize (Hl 0%nat ltac:(lia)). by rewrite Z.add_0_r in Hl. }
      apply bind_Some. exists l. split; [|done]. apply IH. split; [cbn in Hlen; lia|].
      intros j Hj. specialize (Hl (S j) ltac:(lia)). etransitivity; [|exact Hl]. f_equal. lia.
Qed.

Lemma load_bytes_ext m m' a n : (∀ i, within a (Z.of_nat n) i → m' !! i = m !! i) →
  load_bytes m' a n = load_bytes m a n.
Proof.
  revert a. induction n as [|n IH]; intros a H; cbn [load_bytes]; [done|].
  rewrite (H a) by (unfold within; lia). rewrite IH; [done|]. intros i Hi. apply H. unfold within in *. lia.
Qed.

Lemma load32_ext m m' a : (∀ i, within a 4 i → m' !! i = m !! i) → load32 m' a = load32 m a.
Proof. intros H. unfold load32. by rewrite (load_bytes_ext m m' a 4). Qed.

Lemma load32_mapped m a : mapped m a 4 → ∃ v, load32 m a = Some v.
Proof. intros H. unfold load32. destruct (load_bytes_mapped m a 4 H) as [l ->]. by eexists. Qed.

(** A store succeeds on memory that is there, and changes what is stored. *)
Lemma store_bytes_spec m a bs : mapped m a (Z.of_nat (length bs)) →
  ∃ m', store_bytes m a bs = Some m' ∧
    ∀ i, m' !! i = if decide (within a (Z.of_nat (length bs)) i) then bs !! Z.to_nat (i - a) else m !! i.
Proof.
  revert m a. induction bs as [|b bs IH]; intros m a H; cbn [store_bytes].
  { exists m. split; [done|]. intros i. rewrite decide_False; [done|]. unfold within. cbn. lia. }
  destruct (H a) as [c Hc]; [unfold within; cbn; lia|]. rewrite Hc. cbn [mbind option_bind].
  destruct (IH (<[a := b]> m) (a + 1)) as (m' & Hm' & Hi).
  { intros i Hi. destruct (decide (i = a)) as [->|Hne]; [rewrite lookup_insert_eq; by eexists|].
    rewrite lookup_insert_ne by done. apply H. unfold within in *. cbn. lia. }
  exists m'. split; [done|]. intros i. rewrite Hi. unfold within in *. cbn [length].
  destruct (decide (i = a)) as [->|Hne].
  - rewrite decide_False, decide_True, lookup_insert_eq by lia. by rewrite Z.sub_diag.
  - destruct (decide (a + 1 ≤ i < a + 1 + Z.of_nat (length bs))).
    + rewrite decide_True by lia. replace (Z.to_nat (i - a)) with (S (Z.to_nat (i - (a + 1)))) by lia. done.
    + rewrite decide_False by lia. by rewrite lookup_insert_ne.
Qed.

Lemma store_bytes_loads m a bs m' : store_bytes m a bs = Some m' → load_bytes m' a (length bs) = Some bs.
Proof.
  intros H. assert (Hmap : mapped m a (Z.of_nat (length bs))).
  { clear -H. revert m a m' H. induction bs as [|b bs IH]; intros m a m' H; cbn in *.
    - intros i. unfold within. lia.
    - apply bind_Some in H as (c & Hc & H). intros i Hi. destruct (decide (i = a)) as [->|Hne]; [by eexists|].
      destruct (IH _ _ _ H i) as [d Hd]; [unfold within in *; lia|]. rewrite lookup_insert_ne in Hd by done. by eexists. }
  destruct (store_bytes_spec m a bs Hmap) as (m2 & E & Hi). rewrite H in E. injection E as <-.
  apply load_bytes_spec. split; [done|]. intros j Hj. rewrite Hi, decide_True by (unfold within; lia). f_equal. lia.
Qed.


(** Storing a word: it is read back, and words and bytes elsewhere are as before. *)
Lemma store32_spec m a v : mapped m a 4 →
  ∃ m', store32 m a v = Some m' ∧ load32 m' a = Some (u32 v) ∧
    (∀ i, ¬ within a 4 i → m' !! i = m !! i) ∧ (∀ b n, mapped m b n → mapped m' b n).
Proof.
  intros H. destruct (store_bytes_spec m a (le32 v) H) as (m' & Hm & Hi). exists m'. split; [done|].
  change (length (le32 v)) with 4%nat in Hi. change (Z.of_nat 4) with 4 in Hi. split_and!.
  - unfold load32. by rewrite (store_bytes_loads _ _ _ _ Hm : load_bytes m' a 4 = _), <- le32_at_le32.
  - intros i Hni. by rewrite Hi, decide_False.
  - intros b n Hb i Hbi. rewrite Hi. case_decide as E; [|by apply Hb]. apply lookup_lt_is_Some_2. cbn. unfold within in E. lia.
Qed.

Lemma make_bytes_lookup m a n f i :
  make_bytes m a n f !! i = if decide (within a n i) then Some (f i) else m !! i.
Proof.
  assert (H : ∀ l, foldr (λ i m, <[i := f i]> m) m l !! i = if decide (i ∈ l) then Some (f i) else m !! i).
  { induction l as [|x l IH]; cbn; [done|]. destruct (decide (x = i)) as [->|Hne].
    - by rewrite lookup_insert_eq, decide_True by set_solver.
    - rewrite lookup_insert_ne, IH by done. destruct (decide (i ∈ l)).
      + by rewrite decide_True by set_solver.
      + by rewrite decide_False by set_solver. }
  unfold make_bytes. rewrite H. apply decide_ext. rewrite elem_of_seqZ. unfold within. lia.
Qed.

Lemma make_bytes_mapped m a n f : mapped (make_bytes m a n f) a n.
Proof. intros i Hi. rewrite make_bytes_lookup, decide_True by done. by eexists. Qed.
Lemma make_bytes_keeps m a n f b k : mapped m b k → mapped (make_bytes m a n f) b k.
Proof. intros H i Hi. rewrite make_bytes_lookup. case_decide; [by eexists|by apply H]. Qed.
