(* ===== verification/Syscalls.v ===== *)
(** The table of system calls ([src/fd32/kernel/syscalls.c]: [fd32_add_call] and
    [fd32_get_call]) and the table of boot parameters ([src/fd32/kernel/params.c]). *)
From S2P Require Import Prelude Errno Devices.
Definition ADD : Z := 0.
Definition SUBSTITUTE : Z := 1.

(** [struct symbol]: a name and an address. The strings outlive the table. *)
Record symbol := mkSymbol { sym_name : bytes; sym_address : Z }.

(** The static table, whose names are fixed at compile time, and the dynamic one. *)
Record syscalls := mkSyscalls { syscall_table : list symbol; syscall_table_d : list symbol }.
#[export] Instance syscalls_eta : Eta syscalls := λ r, mkSyscalls (syscall_table r) (syscall_table_d r).

(** [strcmp(l[i].name, name) == 0] for the first [i]. *)
Fixpoint find_call (name : bytes) (l : list symbol) (i : nat) : option (nat * symbol) :=
  match l with
  | [] => None
  | x :: l => if bool_decide (sym_name x = name) then Some (i, x) else find_call name l (S i)
  end.

(** The address, 0 when there is no such call. *)
Definition fd32_get_call (name : bytes) (t : syscalls) : Z :=
  match find_call name (syscall_table t) 0 with
  | Some (_, x) => sym_address x
  | None =>
      match find_call name (syscall_table_d t) 0 with
      | Some (_, x) => sym_address x
      | None => 0
      end
  end.

Module Calls.
Section calls.
Context {W : Type} `{KernelMemory W}.
Notation CM := (M (syscalls * W)).

Definition sizeof_call : Z := 16.

(** A new entry of the dynamic table when there is memory for it. *)
Definition fd32_add_call (name : bytes) (address mode : Z) : CM Z :=
  t ← gets fst;
  match find_call name (syscall_table t) 0 with
  | Some (i, x) =>
      if mode =? SUBSTITUTE then
        modify (λ s, ((fst s) <| syscall_table ::= <[i := mkSymbol name address]> |>, snd s));;
        mret (s32 (sym_address x))
      else mret (-1)
  | None =>
      match find_call name (syscall_table_d t) 0 with
      | None =>
          if mode =? ADD then
            p ← gets (λ s, kmem_get sizeof_call (snd s));
            modify (λ s, (fst s, snd p));;
            if fst p =? 0 then mret (-1)
            else
              modify (λ s, ((fst s) <| syscall_table_d ::= λ l, l ++ [mkSymbol name address] |>, snd s));;
              mret 0
          else mret (-1)
      | Some (i, x) =>
          if mode =? SUBSTITUTE then
            modify (λ s, ((fst s) <| syscall_table_d ::= <[i := mkSymbol name address]> |>, snd s));;
            mret (s32 (sym_address x))
          else mret (-1)
      end
  end.
End calls.
End Calls.

(** * Boot parameters *)

Module Params.
Definition PARAM_TABLE_SIZE : nat := 8.

(** A free entry has no name; [proc] is the address of a function, or null. *)
Record fd32_param_t := mkParam { p_name : option bytes; p_value : option bytes; p_proc : Z }.
#[export] Instance fd32_param_eta : Eta fd32_param_t := λ r, mkParam (p_name r) (p_value r) (p_proc r).

Section params.
Context {W : Type}.
(** [proc(value)]. *)
Context (call_proc : Z → bytes → W → W).
Notation PM := (M (list fd32_param_t * W)).

Definition is_named (name : bytes) (p : fd32_param_t) : bool :=
  match p_name p with Some n => bool_decide (n = name) | None => false end.

Definition get_param (name : bytes) : PM (option bytes) :=
  t ← gets fst;
  mret (match list_find (λ p, is_named name p) t with Some (_, p) => p_value p | None => None end).

Definition add_param (name : bytes) (proc : Z) : PM () :=
  t ← gets fst;
  match list_find (λ p, p_name p = None) t with
  | Some (i, p) => modify (λ s, (<[i := p <| p_name := Some name |> <| p_proc := proc |>]> (fst s), snd s))
  | None => mret ()
  end.

Definition set_param (name : bytes) (value : option bytes) : PM () :=
  t ← gets fst;
  match list_find (λ p, is_named name p) t with
  | Some (i, p) =>
      modify (λ s, (<[i := p <| p_name := Some name |> <| p_value := value |>]> (fst s), snd s));;
      match value with
      | Some v => if nz (p_proc p) then modify (λ s, (fst s, call_proc (p_proc p) v (snd s))) else mret ()
      | None => mret ()
      end
  | None => mret ()
  end.
End params.
End Params.

(** The table of system calls, proved: its two parts are one finite map from names to
    addresses. *)
Module SyscallsSpec.
(** * The specification *)

Inductive call_op := Add (name : bytes) (address mode : Z) | Call (name : bytes).

(** What an operation answers, and the map and the kernel memory after it: a new call
    takes memory for its entry, and is refused exactly when there is none. *)
Section specification.
Context {W : Type} `{KernelMemory W}.
Definition entry_memory (w : W) : Z * W := kmem_get Calls.sizeof_call w.
Inductive call_step (m : gmap bytes Z) (w : W) : call_op → Z → gmap bytes Z → W → Prop :=
| AddNew n a : m !! n = None → (entry_memory w).1 ≠ 0 → call_step m w (Add n a ADD) 0 (<[n := a]> m) (entry_memory w).2
| AddFull n a : m !! n = None → (entry_memory w).1 = 0 → call_step m w (Add n a ADD) (-1) m (entry_memory w).2
| AddTwice n a old : m !! n = Some old → call_step m w (Add n a ADD) (-1) m w
| Substitute n a old : m !! n = Some old → call_step m w (Add n a SUBSTITUTE) (s32 old) (<[n := a]> m) w
| SubstituteNone n a : m !! n = None → call_step m w (Add n a SUBSTITUTE) (-1) m w
| AddOther n a mode : mode ≠ ADD → mode ≠ SUBSTITUTE → call_step m w (Add n a mode) (-1) m w
| CallFound n a : m !! n = Some a → call_step m w (Call n) a m w
| CallNone n : m !! n = None → call_step m w (Call n) 0 m w.

Inductive call_steps : gmap bytes Z → W → list call_op → list Z → gmap bytes Z → W → Prop :=
| CallsNone m w : call_steps m w [] [] m w
| CallsOne m w o r m' w' os rs m'' w'' :
    call_step m w o r m' w' → call_steps m' w' os rs m'' w'' → call_steps m w (o :: os) (r :: rs) m'' w''.
End specification.

(** * The tables as a map *)

(** The map of a list: the first symbol of a name counts. *)
Definition names (l : list symbol) : gmap bytes Z := list_to_map ((λ x, (sym_name x, sym_address x)) <$> l).
Definition call_map (t : syscalls) : gmap bytes Z := names (syscall_table t) ∪ names (syscall_table_d t).

Lemma find_call_names n l i : names l !! n = (λ p, sym_address p.2) <$> find_call n l i.
Proof.
  unfold names. revert i. induction l as [|x l IH]; intros i; [done|]. cbn [find_call fmap list_fmap list_to_map foldr uncurry].
  cbn. case_bool_decide as E; [subst; by rewrite lookup_insert_eq|]. rewrite lookup_insert_ne by done. apply IH.
Qed.

Lemma find_call_at n l i k x : find_call n l i = Some (k, x) →
  ∃ l1 l2, l = l1 ++ x :: l2 ∧ k = (i + length l1)%nat ∧ sym_name x = n ∧ names l1 !! n = None.
Proof.
  revert i. induction l as [|y l IH]; intros i; cbn [find_call]; [done|]. case_bool_decide as E.
  - intros [= <- <-]. exists [], l. split_and!; [done|cbn; lia|done|done].
  - intros H. destruct (IH _ H) as (l1 & l2 & -> & -> & Hn & Hl). exists (y :: l1), l2. split_and!; [done|cbn; lia|done|].
    unfold names. cbn. by rewrite lookup_insert_ne.
Qed.

Lemma names_app l1 l2 : names (l1 ++ l2) = names l1 ∪ names l2.
Proof. unfold names. rewrite fmap_app. apply list_to_map_app. Qed.
Lemma names_cons x l : names (x :: l) = <[sym_name x := sym_address x]> (names l).
Proof. done. Qed.

Lemma names_substitute l n k x a : find_call n l 0 = Some (k, x) →
  names (<[k := mkSymbol n a]> l) = <[n := a]> (names l).
Proof.
  intros H. destruct (find_call_at _ _ _ _ _ H) as (l1 & l2 & -> & -> & Hx & Hl1).
  cbn [Nat.add]. rewrite insert_app_r_alt by lia. rewrite Nat.sub_diag. cbn [insert list_insert].
  rewrite !names_app, !names_cons, Hx. cbn. rewrite <- insert_union_r by done. rewrite <- (insert_union_r _ _ n _ Hl1).
  by rewrite insert_insert_eq.
Qed.

Lemma get_call_map n t : fd32_get_call n t = default 0 (call_map t !! n).
Proof.
  unfold fd32_get_call, call_map. rewrite lookup_union, !(find_call_names n _ 0).
  destruct (find_call n (syscall_table t) 0) as [[? ?]|]; cbn; [by rewrite union_Some_l|].
  by destruct (find_call n (syscall_table_d t) 0) as [[? ?]|].
Qed.

(** * The program *)

Section program.
Context {W : Type} `{KernelMemory W}.

Definition run_call_op (o : call_op) : M (syscalls * W) Z :=
  match o with
  | Add n a mode => Calls.fd32_add_call n a mode
  | Call n => gets (λ s, fd32_get_call n (fst s))
  end.
Fixpoint run_call_ops (l : list call_op) : M (syscalls * W) (list Z) :=
  match l with
  | [] => mret []
  | o :: l => r ← run_call_op o; rs ← run_call_ops l; mret (r :: rs)
  end.

(** The names of the static table stay where they are. *)
Definition static_names (s : syscalls * W) : list bytes := sym_name <$> syscall_table (fst s).
Lemma static_substitute n l k x a : find_call n l 0 = Some (k, x) → sym_name <$> <[k := mkSymbol n a]> l = sym_name <$> l.
Proof.
  intros Hf. destruct (find_call_at _ _ _ _ _ Hf) as (l1 & l2 & -> & -> & Hx & _). cbn [Nat.add].
  rewrite list_fmap_insert. apply list_insert_id. rewrite list_lookup_fmap, list_lookup_middle by done. cbn. by rewrite Hx.
Qed.

Lemma add_call_step n a mode (s : syscalls * W) :
  wp (Calls.fd32_add_call n a mode) (λ r s',
    call_step (call_map (fst s)) (snd s) (Add n a mode) r (call_map (fst s')) (snd s') ∧ static_names s' = static_names s) s.
Proof.
  destruct s as [t w]. unfold Calls.fd32_add_call. apply wp_bind, wp_gets. cbn [fst].
  pose proof (find_call_names n (syscall_table t) 0) as Es. pose proof (find_call_names n (syscall_table_d t) 0) as Ed.
  assert (Hm : call_map t !! n = names (syscall_table t) !! n ∪ names (syscall_table_d t) !! n) by apply lookup_union.
  destruct (find_call n (syscall_table t) 0) as [[i x]|] eqn:Fs; cbn in Es; rewrite Es in Hm.
  - rewrite union_Some_l in Hm. destruct (Z.eqb_spec mode SUBSTITUTE) as [->|Hmode].
    + apply wp_bind, wp_modify, wp_ret. split; [|by apply (static_substitute n _ i x)].
      change (call_step (call_map t) w (Add n a SUBSTITUTE) (s32 (sym_address x))
        (names (<[i := mkSymbol n a]> (syscall_table t)) ∪ names (syscall_table_d t)) w).
      rewrite (names_substitute _ _ _ _ _ Fs), <- insert_union_l. by apply Substitute.
    + apply wp_ret. split; [|done]. destruct (decide (mode = ADD)) as [->|]; [by eapply AddTwice|by apply AddOther].
  - rewrite (left_id_L None _) in Hm. rewrite Ed in Hm.
    destruct (find_call n (syscall_table_d t) 0) as [[i x]|] eqn:Fd; cbn in Hm.
    + destruct (Z.eqb_spec mode SUBSTITUTE) as [->|Hmode].
      * apply wp_bind, wp_modify, wp_ret. split; [|done].
        change (call_step (call_map t) w (Add n a SUBSTITUTE) (s32 (sym_address x))
          (names (syscall_table t) ∪ names (<[i := mkSymbol n a]> (syscall_table_d t))) w).
        rewrite (names_substitute _ _ _ _ _ Fd), <- insert_union_r by done. by apply Substitute.
      * apply wp_ret. split; [|done]. destruct (decide (mode = ADD)) as [->|]; [by eapply AddTwice|by apply AddOther].
    + destruct (Z.eqb_spec mode ADD) as [->|Hmode].
      * apply wp_bind, wp_gets, wp_bind, wp_modify. cbn [fst snd]. change (kmem_get Calls.sizeof_call w) with (entry_memory w).
        destruct (Z.eqb_spec (entry_memory w).1 0) as [E0|E0]; [apply wp_ret; split; [by apply AddFull|done]|].
        apply wp_bind, wp_modify, wp_ret. split; [|done].
        change (call_step (call_map t) w (Add n a ADD) 0
          (names (syscall_table t) ∪ names (syscall_table_d t ++ [mkSymbol n a])) (entry_memory w).2).
        rewrite names_app, names_cons. cbn [sym_name sym_address].
        rewrite <- insert_union_r by (by rewrite Ed). change (names []) with (∅ : gmap bytes Z).
        rewrite (right_id_L ∅ _), <- insert_union_r by done. by apply AddNew.
      * apply wp_ret. split; [|done]. destruct (decide (mode = SUBSTITUTE)) as [->|]; [by apply SubstituteNone|by apply AddOther].
Qed.

(** C27: The table of system calls is a map from names to addresses: any sequence of
    additions, substitutions and lookups returns and answers as on the map. An addition
    fails, without a change, for a name that is there, or exactly when the kernel has no
    memory for an entry; a substitution replaces the address of a name that is there and
    answers the old one. The names of the static table stay. *)
Theorem syscalls_refine (l : list call_op) (s : syscalls * W) :
  wp (run_call_ops l) (λ rs s', call_steps (call_map (fst s)) (snd s) l rs (call_map (fst s')) (snd s') ∧
    static_names s' = static_names s) s.
Proof.
  revert s. induction l as [|o l IH]; intros s; cbn [run_call_ops]; [apply wp_ret; split; [constructor|done]|].
  apply wp_bind. destruct o as [n a mode|n].
  - eapply wp_mono; [|apply add_call_step]. intros r s' [Hstep Hn]. apply wp_bind. eapply wp_mono; [|apply IH].
    intros rs s2 [Hsteps Hn2]. apply wp_ret. split; [eapply CallsOne; [exact Hstep|exact Hsteps]|congruence].
  - cbn [run_call_op]. apply wp_gets. apply wp_bind. eapply wp_mono; [|apply IH]. intros rs s2 [Hsteps Hn2]. apply wp_ret.
    split; [|done]. eapply CallsOne; [|exact Hsteps]. rewrite get_call_map.
    destruct (call_map (fst s) !! n) eqn:E; cbn; by constructor.
Qed.
End program.
End SyscallsSpec.
