(* ===== verification/Dynalink.v ===== *)
(** The dynamic linker, common part ([src/fd32/include/format.h],
    [src/fd32/dynalink/common.c]): the tables of an object file, loading its sections,
    relocating them, and the table of binary formats.

    The functions of [struct kern_funcs] are the class [KernFuncs]. Memory for the
    program and for strings is bytes ([k_mem]); the arrays of sections, of symbols
    and of relocations are lists. What memory or a local variable holds before it is
    written is given by the class, and may be anything. *)
From S2P Require Import Prelude Errno ByteMem Syscalls.

Definition EXTERN_SYMBOL : Z := 0xFF00.
Definition COMMON_SYMBOL : Z := 0xFF01.
Definition NULL_SYMBOL : Z := 0xFFFF.
Definition REL_TYPE_ELF_ABSOLUTE : Z := 1.
Definition REL_TYPE_COFF_ABSOLUTE : Z := 2.
Definition REL_TYPE_RELATIVE : Z := 4.
Definition NEED_IMAGE_RELOCATION : Z := 1.
Definition NEED_SECTION_RELOCATION : Z := 2.
Definition NEED_LOAD_RELOCATABLE : Z := 4.
Definition ELF_OBJECT : Z := 8.
Definition NO_ENTRY : Z := 16.
Definition DLL_WITH_STDCALL : Z := 32.
Definition DjCOFF : Z := 0.
Definition PECOFF : Z := 1.

(** The types of [format.h]. [name] and [reloc] are addresses. *)
Record symbol_info := mkSymbolInfo { si_name : Z; si_offset : Z; si_section : Z }.
Record reloc_info := mkRelocInfo { r_offset : Z; r_symbol : Z; r_type : Z }.
Record pe_reloc_info := mkPeRelocInfo { pr_offset : Z; pr_addr : Z; pr_size : Z }.
Record section_info := mkSectionInfo {
  s_base : Z; s_size : Z; s_fileptr : Z; s_filesize : Z; s_num_reloc : Z; s_reloc : Z }.
Record table_info := mkTableInfo {
  t_section_header : Z; t_num_sections : Z; t_section_header_size : Z; t_flags : Z;
  t_symbol : Z; t_num_symbols : Z; t_symbol_size : Z;
  t_string : Z; t_string_size : Z; t_string_buffer : Z;
  t_section_names : Z; t_section_names_size : Z;
  t_image_base : Z; t_local_bss : Z; t_local_bss_size : Z; t_private_info : Z }.
#[export] Instance symbol_info_eta : Eta symbol_info := λ r,
  mkSymbolInfo (si_name r) (si_offset r) (si_section r).
#[export] Instance section_info_eta : Eta section_info := λ r,
  mkSectionInfo (s_base r) (s_size r) (s_fileptr r) (s_filesize r) (s_num_reloc r) (s_reloc r).
#[export] Instance table_info_eta : Eta table_info := λ r,
  mkTableInfo (t_section_header r) (t_num_sections r) (t_section_header_size r) (t_flags r)
    (t_symbol r) (t_num_symbols r) (t_symbol_size r) (t_string r) (t_string_size r) (t_string_buffer r)
    (t_section_names r) (t_section_names_size r) (t_image_base r) (t_local_bss r) (t_local_bss_size r)
    (t_private_info r).
Definition sizeof_section_info : Z := 24.
Definition sizeof_symbol_info : Z := 12.
Definition sizeof_reloc_info : Z := 12.
Definition sizeof_pe_reloc_info : Z := 12.

(** [struct pei_extra_info] of [pei.c]. *)
Record pei_extra_info := mkPei {
  export_symbol : Z; export_symbol_size : Z; export_symbol_fileptr : Z;
  import_symbol : Z; import_symbol_size : Z; base_reloc : Z; base_reloc_size : Z }.
#[export] Instance pei_extra_info_eta : Eta pei_extra_info := λ r,
  mkPei (export_symbol r) (export_symbol_size r) (export_symbol_fileptr r)
    (import_symbol r) (import_symbol_size r) (base_reloc r) (base_reloc_size r).

(** [struct kern_funcs], where a read returns the result and the bytes it stores;
    and what uninitialised data are: bytes of the heap, bytes and tables of the stack,
    entries of new arrays. [get_dll_table] gives the symbols of a library;
    [add_dll_table] takes the addresses of names and the addresses named. *)
Class KernFuncs (W : Type) := {
  file_read : Z → Z → W → (Z * bytes) * W;
  file_seek : Z → Z → Z → W → Z * W;
  mem_alloc : Z → W → Z * W;
  mem_alloc_region : Z → Z → W → Z * W;
  mem_free : Z → Z → W → Z * W;
  get_dll_table : bytes → W → option (list symbol) * W;
  add_dll_table : bytes → Z → list (Z * Z) → W → Z * W;
  stale_byte : W → Z → Z;
  stale_local : W → Z → Z;
  stale_tables : W → table_info;
  stale_section : W → Z → section_info;
  stale_symbol : W → Z → symbol_info;
  stale_reloc : W → Z → reloc_info;
  stale_pei : W → pei_extra_info }.
Definition seek_set : Z := 0.
Definition seek_cur : Z := 1.

(** The state of a load: the tables of the file and the memory it uses. [k_relocs] and
    the like are the arrays and structures by address. *)
Record linker (W : Type) := mkLinker {
  k_world : W;
  k_mem : memory;
  k_tables : table_info;
  k_sections : list section_info;
  k_syms : list symbol_info;
  k_relocs : gmap Z (list reloc_info);
  k_pe_relocs : gmap Z pe_reloc_info;
  k_pei : gmap Z pei_extra_info;
  k_calls : syscalls;
  coff_type : Z;
  file_offset : Z }.
Arguments mkLinker {W}. Arguments k_world {W}. Arguments k_mem {W}. Arguments k_tables {W}.
Arguments k_sections {W}. Arguments k_syms {W}. Arguments k_relocs {W}. Arguments k_pe_relocs {W}.
Arguments k_pei {W}. Arguments k_calls {W}. Arguments coff_type {W}. Arguments file_offset {W}.
#[export] Instance linker_eta W : Eta (linker W) := λ r,
  mkLinker (k_world r) (k_mem r) (k_tables r) (k_sections r) (k_syms r) (k_relocs r) (k_pe_relocs r) (k_pei r)
    (k_calls r) (coff_type r) (file_offset r).

Section dynalink.
Context {W : Type} `{KernFuncs W}.
Notation LM := (M (linker W)).

(** * Calls and memory *)

Definition lcall {A} (f : W → A * W) : LM A :=
  r ← gets (λ s, f (k_world s)); modify (λ s, s <| k_world := snd r |>);; mret (fst r).
Definition with_mem {A} (f : memory → option A) : LM A := o ← gets (λ s, f (k_mem s)); deref o.
Definition store (f : memory → option memory) : LM () := m ← with_mem f; modify (λ s, s <| k_mem := m |>).
Definition tables : LM table_info := gets k_tables.
Definition set_tables (f : table_info → table_info) : LM () := modify (λ s, s <| k_tables ::= f |>).

(** [kf->mem_alloc] of an array or structure, and of bytes. *)
Definition alloc (size : Z) : LM Z := lcall (mem_alloc (u32 size)).
Definition make_available (p size : Z) : LM () :=
  modify (λ s, s <| k_mem := make_bytes (k_mem s) p size (stale_byte (k_world s)) |>).
Definition alloc_bytes (size : Z) : LM Z :=
  p ← alloc size; (if p =? 0 then mret () else make_available p (u32 size));; mret p.
Definition free (p size : Z) : LM () := lcall (mem_free p (u32 size));; mret ().
Definition free_bytes (p size : Z) : LM () :=
  free p size;; modify (λ s, s <| k_mem ::= λ m, drop_bytes m p (u32 size) |>).

Definition seek (f pos whence : Z) : LM Z := lcall (file_seek f (s32 pos) whence).
Definition seek_from (f pos : Z) : LM Z := o ← gets file_offset; seek f (o + pos) seek_set.
(** [file_read(f, (void * )p, len)]. *)
Definition read_to (f p len : Z) : LM Z :=
  r ← lcall (file_read f (s32 len)); store (λ m, store_bytes m p (snd r));; mret (fst r).
(** [file_read(f, &x, len)] for a local variable of [size] bytes: its bytes. More do
    not fit. *)
Definition read_local (f len size : Z) : LM (Z * bytes) :=
  w ← gets k_world;
  r ← lcall (file_read f len);
  let n := Z.of_nat (length (snd r)) in
  if size <? n then fault
  else mret (fst r, snd r ++ map (stale_local w) (seqZ n (size - n))).

Definition cstr (p : Z) : LM bytes := with_mem (λ m, cstring m p).

(** [s[i]], [syms[i]], [rel[i]]. *)
Definition section (i : Z) : LM section_info :=
  x ← gets (λ s, if i <? 0 then None else k_sections s !! Z.to_nat i); deref x.
Definition set_section (i : Z) (f : section_info → section_info) : LM () :=
  x ← section i; modify (λ s, s <| k_sections ::= <[Z.to_nat i := f x]> |>).
Definition sym (i : Z) : LM symbol_info :=
  x ← gets (λ s, if i <? 0 then None else k_syms s !! Z.to_nat i); deref x.
Definition set_sym (i : Z) (f : symbol_info → symbol_info) : LM () :=
  x ← sym i; modify (λ s, s <| k_syms ::= <[Z.to_nat i := f x]> |>).
Definition reloc_at (p i : Z) : LM reloc_info :=
  x ← gets (λ s, k_relocs s !! p ≫= λ l, l !! Z.to_nat i); deref x.

(** * Relocating *)

(** The first loop of [common_relocate_section]: common symbols get their place after
    the image, external ones their address. *)
Fixpoint setup_symbols (n : nat) (i local_bss : Z) : LM Z :=
  match n with
  | O => mret 1
  | S n =>
      y ← sym i;
      if si_section y =? COMMON_SYMBOL then
        set_sym i (λ y, y <| si_offset := local_bss |>);;
        setup_symbols n (i + 1) (u32 (local_bss + si_offset y))
      else if si_section y =? EXTERN_SYMBOL then
        name ← cstr (si_name y);
        address ← gets (λ s, fd32_get_call name (k_calls s));
        set_sym i (λ y, y <| si_offset := address |>);;
        if address =? 0 then mret (-1) else setup_symbols n (i + 1) local_bss
      else setup_symbols n (i + 1) local_bss
  end.

(** The place to change and what it holds; none for an unsupported type. *)
Definition reloc_place (base : Z) (sec : section_info) (r : reloc_info) : LM (option (Z * Z)) :=
  if r_type r =? REL_TYPE_ELF_ABSOLUTE then
    let destination := u32 (s_base sec + r_offset r + base) in
    address ← with_mem (λ m, load32 m destination);
    mret (Some (destination, address))
  else if r_type r =? REL_TYPE_COFF_ABSOLUTE then
    let destination := u32 (r_offset r + base) in
    address ← with_mem (λ m, load32 m destination);
    mret (Some (destination, address))
  else if r_type r =? REL_TYPE_RELATIVE then mret (Some (u32 (s_base sec + r_offset r + base), 0))
  else mret None.

(** The new contents of the place; none when the section of the symbol does not
    exist. *)
Definition reloc_value (base n : Z) (sec : section_info) (r : reloc_info) (destination address : Z) (y : symbol_info)
  : LM (option Z) :=
  if (si_section y =? COMMON_SYMBOL) || (si_section y =? EXTERN_SYMBOL) then
    if r_type r =? REL_TYPE_COFF_ABSOLUTE then mret (Some (u32 (address + si_offset y)))
    else if r_type r =? REL_TYPE_ELF_ABSOLUTE then mret (Some (u32 (address + si_offset y)))
    else if r_type r =? REL_TYPE_RELATIVE then mret (Some (u32 (si_offset y - destination - 4)))
    else mret (Some address)
  else if n <=? si_section y then mret None
  else if r_type r =? REL_TYPE_COFF_ABSOLUTE then
    ct ← gets coff_type;
    if ct =? DjCOFF then mret (Some (u32 (address + base)))
    else if ct =? PECOFF then
      target ← section (si_section y);
      mret (Some (u32 (address + (si_offset y + s_base target + base))))
    else mret (Some (u32 (address + base)))
  else if r_type r =? REL_TYPE_ELF_ABSOLUTE then
    target ← section (si_section y);
    mret (Some (u32 (address + (base + s_base target + si_offset y))))
  else if r_type r =? REL_TYPE_RELATIVE then
    target ← section (si_section y);
    mret (Some (u32 ((s_base target + si_offset y) - (s_base sec + r_offset r) - 4)))
  else mret (Some address).

Definition relocate_one (base n : Z) (sec : section_info) (r : reloc_info) : LM Z :=
  place ← reloc_place base sec r;
  match place with
  | None => mret (-1)
  | Some (destination, address) =>
      y ← sym (u32 (r_symbol r));
      v ← reloc_value base n sec r destination address y;
      match v with
      | None => mret (-1)
      | Some v => store (λ m, store32 m destination v);; mret 1
      end
  end.

Fixpoint relocate_all (count : nat) (i base n : Z) (sec : section_info) (rel : Z) : LM Z :=
  match count with
  | O => mret 1
  | S count =>
      r ← reloc_at rel i;
      res ←? relocate_one base n sec r;
      relocate_all count (i + 1) base n sec rel
  end.

Definition common_relocate_section (base n sect : Z) : LM Z :=
  t ← tables;
  sec ← section sect;
  res ←? (if sect =? 0 then setup_symbols (Z.to_nat (t_num_symbols t)) 0 (t_local_bss t) else mret 1);
  sec ← section sect;
  relocate_all (Z.to_nat (u32 (s_num_reloc sec))) 0 base n sec (s_reloc sec).

(** * Finding a symbol *)

(** [strcmp(s + strlen(s) - strlen(name), name) == 0], when [s] is not shorter. *)
Definition has_suffix (s name : bytes) : bool :=
  (length name <=? length s)%nat && bool_decide (drop (length s - length name) s = name).

(** The offset and the section, 0 and -1 when there is no such symbol. A name that
    starts with an underscore is hidden. *)
Fixpoint import_from (n : nat) (i : Z) (name : bytes) : LM (Z * Z) :=
  match n with
  | O => mret (0, -1)
  | S n =>
      y ← sym i;
      if negb (si_section y =? EXTERN_SYMBOL) && negb (si_section y =? COMMON_SYMBOL)
           && negb (si_section y =? NULL_SYMBOL) then
        c ← with_mem (λ m, m !! si_name y);
        if negb (c =? 95) then
          s ← cstr (si_name y);
          if has_suffix s name then mret (si_offset y, si_section y) else import_from n (i + 1) name
        else import_from n (i + 1) name
      else import_from n (i + 1) name
  end.
Definition common_import_symbol (n : Z) (name : bytes) : LM (Z * Z) := import_from (Z.to_nat n) 0 name.

(** * Loading *)

(** [memset]. *)
Definition clear (p n : Z) : LM () := store (λ m, store_bytes m p (zeroes n)).

Fixpoint load_executable_sections (n : nat) (i f load_offset : Z) : LM () :=
  match n with
  | O => mret ()
  | S n =>
      sec ← section i;
      let where_to_place := u32 (load_offset + s_base sec) in
      (if (s_filesize sec =? 0) || (s_fileptr sec =? 0) then clear where_to_place (s_size sec)
       else seek_from f (s_fileptr sec);; read_to f where_to_place (s_filesize sec);; mret ());;
      load_executable_sections n (i + 1) f load_offset
  end.

(** The address of the image, 0 on failure, and its size. *)
Definition common_load_executable (f n : Z) : LM (Z * Z) :=
  t ← tables;
  last ← section (n - 1);
  let needed_mem := u32 (s_base last + s_size last - t_image_base t) in
  res ← lcall (mem_alloc_region (t_image_base t) needed_mem);
  place ← (if res =? -1 then
             exec_space ← alloc_bytes needed_mem;
             mret (exec_space, u32 (exec_space - t_image_base t))
           else make_available (t_image_base t) needed_mem;; mret (t_image_base t, 0));
  let '(exec_space, load_offset) := place in
  if exec_space =? 0 then first ← section 0; mret (0, 0)
  else
    load_executable_sections (Z.to_nat n) 0 f load_offset;;
    mret (exec_space, needed_mem).

Fixpoint sum_sizes (n : nat) (i acc : Z) : LM Z :=
  match n with
  | O => mret acc
  | S n => sec ← section i; sum_sizes n (i + 1) (u32 (acc + s_size sec))
  end.

Fixpoint load_relocatable_sections (n : nat) (i f mem_space local_offset : Z) : LM () :=
  match n with
  | O => mret ()
  | S n =>
      sec ← section i;
      if negb (s_size sec =? 0) then
        let where_to_place := u32 (mem_space + local_offset) in
        set_section i (λ s, s <| s_base := local_offset |>);;
        seek_from f (s_fileptr sec);;
        (if 0 <? s_filesize sec then read_to f where_to_place (s_filesize sec);; mret () else mret ());;
        load_relocatable_sections n (i + 1) f mem_space (u32 (local_offset + s_size sec))
      else load_relocatable_sections n (i + 1) f mem_space local_offset
  end.

Definition common_load_relocatable (f n : Z) : LM (Z * Z) :=
  needed_mem ← sum_sizes (Z.to_nat n) 0 0;
  t ← tables;
  let needed_mem := u32 (needed_mem + t_local_bss_size t) in
  mem_space ← alloc_bytes needed_mem;
  (if negb (t_local_bss_size t =? 0)
   then set_tables (λ t, t <| t_local_bss := u32 (mem_space + needed_mem - t_local_bss_size t) |>)
   else set_tables (λ t, t <| t_local_bss := 0 |>));;
  if mem_space =? 0 then mret (0, 0)
  else
    clear mem_space needed_mem;;
    load_relocatable_sections (Z.to_nat n) 0 f mem_space 0;;
    mret (mem_space, needed_mem).

(** * Freeing *)

Fixpoint free_relocs (n : nat) (i : Z) : LM () :=
  match n with
  | O => mret ()
  | S n =>
      sec ← section i;
      (if nz (s_num_reloc sec) then
         free (s_reloc sec) (sizeof_reloc_info * s_num_reloc sec);;
         modify (λ s, s <| k_relocs ::= delete (s_reloc sec) |>)
       else mret ());;
      free_relocs n (i + 1)
  end.

(** [syms] and [scndata] are the addresses of the arrays. *)
Definition common_free_tables (syms scndata : Z) : LM () :=
  t ← tables;
  free_relocs (Z.to_nat (t_num_sections t)) 0;;
  free scndata (sizeof_section_info * t_num_sections t);;
  modify (λ s, s <| k_sections := [] |>);;
  (if negb (syms =? 0) then
     free syms (sizeof_symbol_info * t_num_symbols t);; modify (λ s, s <| k_syms := [] |>)
   else mret ());;
  (if negb (t_string_size t =? 0) then free_bytes (t_string_buffer t) (t_string_size t) else mret ());;
  (if negb (t_section_names_size t =? 0) then free_bytes (t_section_names t) (t_section_names_size t) else mret ()).
End dynalink.

(** [struct read_funcs]: the functions of a format. *)
Record read_funcs (W : Type) := mkReadFuncs {
  read_headers : Z → M (linker W) Z;
  read_section_headers : Z → M (linker W) Z;
  read_symbols : Z → M (linker W) Z;
  load_relocatable : Z → Z → M (linker W) (Z * Z);
  load_executable : Z → Z → M (linker W) (Z * Z);
  relocate_section : Z → Z → Z → M (linker W) Z;
  import_symbol_fn : Z → bytes → M (linker W) (Z * Z);
  free_tables : Z → Z → M (linker W) () }.
Arguments mkReadFuncs {W}. Arguments read_headers {W}. Arguments read_section_headers {W}.
Arguments read_symbols {W}. Arguments load_relocatable {W}. Arguments load_executable {W}.
Arguments relocate_section {W}. Arguments import_symbol_fn {W}. Arguments free_tables {W}.
