(* ===== verification/Elf.v ===== *)
(** ELF object files ([src/fd32/dynalink/elf.c], [elf.h]). *)
From S2P Require Import Prelude Errno ByteMem Syscalls Dynalink.

Definition elf_signature : bytes := [0x7F; 69; 76; 70].
Definition ELFCLASS32 : Z := 1.
Definition ELFDATA2LSB : Z := 1.
Definition SHT_NULL : Z := 0.
Definition SHT_SYMTAB : Z := 2.
Definition SHT_RELA : Z := 4.
Definition SHT_NOBITS : Z := 8.
Definition SHT_REL : Z := 9.
Definition SHT_DYNSYM : Z := 11.
Definition R_386_32 : Z := 1.
Definition R_386_PC32 : Z := 2.
Definition SHN_UNDEF : Z := 0.
Definition SHN_COMMON : Z := 0xFFF2.

(** The structures of [elf.h]: the fields the loader uses, from their bytes. *)
Record elf_header := mkElfHeader {
  e_ident : bytes; e_entry : Z; e_shoff : Z; e_shentsize : Z; e_shnum : Z; e_shstrndx : Z }.
Definition sizeof_elf_header : Z := 52.
Definition decode_elf_header (b : bytes) : elf_header :=
  mkElfHeader (slice b 0 16) (le32_at b 24) (le32_at b 32) (le16_at b 46) (le16_at b 48) (le16_at b 50).

Record elf_section_header := mkElfSection {
  sh_name : Z; sh_type : Z; sh_addr : Z; sh_offset : Z; sh_size : Z; sh_link : Z; sh_info : Z; sh_entsize : Z }.
Definition sizeof_elf_section_header : Z := 40.
Definition decode_elf_section_header (b : bytes) : elf_section_header :=
  mkElfSection (le32_at b 0) (le32_at b 4) (le32_at b 12) (le32_at b 16) (le32_at b 20) (le32_at b 24)
    (le32_at b 28) (le32_at b 36).

Record elf_symbol_info := mkElfSymbol { st_name : Z; st_value : Z; st_size : Z; st_shndx : Z }.
Definition sizeof_elf_symbol_info : Z := 16.
Definition decode_elf_symbol_info (b : bytes) : elf_symbol_info :=
  mkElfSymbol (le32_at b 0) (le32_at b 4) (le32_at b 8) (le16_at b 14).

Record elf_rel_info := mkElfRel { rel_offset : Z; rel_info : Z }.
Definition sizeof_elf_rel_info : Z := 8.
Definition decode_elf_rel_info (b : bytes) : elf_rel_info := mkElfRel (le32_at b 0) (le32_at b 4).

Section elf.
Context {W : Type} `{KernFuncs W}.
Notation LM := (M (linker W)).

(** * Headers *)

(** The last part of [ELF_read_headers]: the names of the sections. False for a
    failure. *)
Definition read_section_names (f : Z) (h : elf_section_header) : LM bool :=
  set_tables (λ t, t <| t_section_names := 0 |>);;
  if negb (sh_size h =? 0) then
    p ← alloc_bytes (sh_size h);
    set_tables (λ t, t <| t_section_names := p |>);;
    if p =? 0 then mret false
    else
      res ← seek_from f (sh_offset h);
      if res <? 0 then mret false
      else
        res ← read_to f p (sh_size h);
        if res <? 0 then mret false
        else set_tables (λ t, t <| t_section_names_size := sh_size h |>);; mret true
  else set_tables (λ t, t <| t_section_names_size := 0 |>);; mret true.

Definition ELF_read_headers (f : Z) : LM Z :=
  seek_from f 0;;
  r ← read_local f sizeof_elf_header sizeof_elf_header;
  let header := decode_elf_header (snd r) in
  if negb (bool_decide (take 4 (e_ident header) = elf_signature)) then mret 0
  else
    set_tables (λ t, t <| t_flags := ELF_OBJECT |>);;
    if negb (byte_at (e_ident header) 4 =? ELFCLASS32) then mret 0
    else if negb (byte_at (e_ident header) 5 =? ELFDATA2LSB) then mret 0
    else
      (if negb (e_shoff header =? 0) then
         set_tables (λ t, t <| t_section_header := e_shoff header |> <| t_section_header_size := e_shentsize header |>
                            <| t_num_sections := e_shnum header |>)
       else mret ());;
      t ← tables;
      if t_num_sections t <? e_shstrndx header then mret 0
      else
        res ← seek_from f (t_section_header t + e_shstrndx header * t_section_header_size t);
        if res <? 0 then mret 0
        else
          r ← read_local f sizeof_elf_section_header sizeof_elf_section_header;
          if fst r <? 0 then mret 0
          else
            ok ← read_section_names f (decode_elf_section_header (snd r));
            if negb ok then mret 0
            else
              (if e_entry header =? 0 then
                 set_tables (λ t, t <| t_flags ::= λ x,
                   Z.lor (Z.lor (Z.lor x NO_ENTRY) NEED_LOAD_RELOCATABLE) NEED_SECTION_RELOCATION |>)
               else mret ());;
              mret (e_entry header).

(** * Sections *)

Definition elf_reloc_type (info : Z) : Z :=
  if u8 info =? R_386_32 then REL_TYPE_ELF_ABSOLUTE
  else if u8 info =? R_386_PC32 then REL_TYPE_RELATIVE
  else u8 info.

(** [for (j = 0; j < h.sh_size / h.sh_entsize; j++)] *)
Fixpoint read_relocs (n : nat) (j f p : Z) (h : elf_section_header) : LM () :=
  match n with
  | O => mret ()
  | S n =>
      seek_from f (sh_offset h + j * sh_entsize h);;
      r ← read_local f sizeof_elf_rel_info sizeof_elf_rel_info;
      let r := decode_elf_rel_info (snd r) in
      let x := mkRelocInfo (rel_offset r) (Z.shiftr (rel_info r) 8) (elf_reloc_type (rel_info r)) in
      l ← gets (λ s, k_relocs s !! p);
      l ← deref l;
      if (Z.to_nat j <? length l)%nat then
        modify (λ s, s <| k_relocs ::= <[p := <[Z.to_nat j := x]> l]> |>);;
        read_relocs n (j + 1) f p h
      else fault
  end.

(** A relocation section: the entries of the section it is for. *)
Definition read_rel_section (f : Z) (h : elf_section_header) : LM bool :=
  target ← section (sh_info h);
  if negb (s_num_reloc target =? 0) then mret false
  else if sh_entsize h =? 0 then fault
  else
    let count := sh_size h / sh_entsize h in
    set_section (sh_info h) (λ s, s <| s_num_reloc := s32 count |>);;
    p ← alloc (count * sizeof_reloc_info);
    set_section (sh_info h) (λ s, s <| s_reloc := p |>);;
    if p =? 0 then mret false
    else
      w ← gets k_world;
      modify (λ s, s <| k_relocs ::= <[p := map (stale_reloc w) (seqZ 0 (u32 (count * sizeof_reloc_info) / sizeof_reloc_info))]> |>);;
      read_relocs (Z.to_nat count) 0 f p h;;
      mret true.

Definition bss_name : bytes := [46; 98; 115; 115].

(** One section; [None] when the function returns 0, else the index of the
    uninitialised section and the section number of the string table, both -1 when
    not seen. *)
Definition read_section_header (f i bss stringtable : Z) : LM (option (Z * Z)) :=
  t ← tables;
  seek_from f (t_section_header t + i * t_section_header_size t);;
  r ← read_local f sizeof_elf_section_header sizeof_elf_section_header;
  let h := decode_elf_section_header (snd r) in
  set_section i (λ s, s <| s_num_reloc := 0 |> <| s_base := 0 |> <| s_size := 0 |> <| s_fileptr := 0 |>
                        <| s_filesize := 0 |>);;
  if sh_type h =? SHT_NULL then mret (Some (bss, stringtable))
  else
    bss ← (if negb (t_section_names t =? 0) then
             name ← cstr (u32 (t_section_names t + sh_name h));
             mret (if bool_decide (name = bss_name) then i else bss)
           else mret bss);
    if sh_type h =? SHT_REL then
      ok ← read_rel_section f h;
      mret (if (ok : bool) then Some (bss, stringtable) else None)
    else if sh_type h =? SHT_RELA then mret None
    else if (sh_type h =? SHT_SYMTAB) || (sh_type h =? SHT_DYNSYM) then
      if sh_entsize h =? 0 then fault
      else
        set_tables (λ t, t <| t_symbol := sh_offset h |> <| t_num_symbols := sh_size h / sh_entsize h |>
                           <| t_symbol_size := sh_size h |>);;
        if negb (stringtable =? -1) then mret None
        else if s32 (sh_link h) <? i then mret None
        else mret (Some (bss, s32 (sh_link h)))
    else if i =? stringtable then
      set_tables (λ t, t <| t_string := sh_offset h |> <| t_string_size := sh_size h |>);;
      mret (Some (bss, -1))
    else
      set_section i (λ s, s <| s_base := sh_addr h |> <| s_size := sh_size h |> <| s_fileptr := sh_offset h |>);;
      (if negb (sh_type h =? SHT_NOBITS) then set_section i (λ s, s <| s_filesize := sh_size h |>) else mret ());;
      mret (Some (bss, stringtable)).

Fixpoint read_section_headers_from (n : nat) (f i bss stringtable : Z) : LM (option Z) :=
  match n with
  | O => mret (Some bss)
  | S n =>
      r ← read_section_header f i bss stringtable;
      match r with
      | None => mret None
      | Some (bss, stringtable) => read_section_headers_from n f (i + 1) bss stringtable
      end
  end.

(** The index of the uninitialised section, -1 when there is none; 0 for a failure. *)
Definition ELF_read_section_headers (f : Z) : LM Z :=
  t ← tables;
  r ← read_section_headers_from (Z.to_nat (t_num_sections t)) f 0 (-1) (-1);
  match r with
  | None => mret 0
  | Some bss => first ← section 0; set_tables (λ t, t <| t_image_base := s_base first |>);; mret bss
  end.

(** * Symbols *)

Definition elf_symbol_section (x : elf_symbol_info) : Z :=
  if st_shndx x =? SHN_UNDEF then if negb (st_name x =? 0) then EXTERN_SYMBOL else NULL_SYMBOL
  else if st_shndx x =? SHN_COMMON then COMMON_SYMBOL
  else st_shndx x.

Fixpoint read_symbols_from (n : nat) (i f s entsize : Z) : LM () :=
  match n with
  | O => mret ()
  | S n =>
      t ← tables;
      seek_from f (t_symbol t + i * entsize);;
      r ← read_local f sizeof_elf_symbol_info sizeof_elf_symbol_info;
      let x := decode_elf_symbol_info (snd r) in
      let common := st_shndx x =? SHN_COMMON in
      set_sym i (λ _, mkSymbolInfo (u32 (s + st_name x)) (if common then st_size x else st_value x) (elf_symbol_section x));;
      (if common then set_tables (λ t, t <| t_local_bss_size ::= λ z, u32 (z + st_size x) |>) else mret ());;
      read_symbols_from n (i + 1) f s entsize
  end.

Definition ELF_read_symbols (f : Z) : LM Z :=
  t ← tables;
  s ← alloc_bytes (t_string_size t);
  if s =? 0 then mret 0
  else
    set_tables (λ t, t <| t_string_buffer := s |>);;
    seek_from f (t_string t);;
    read_to f s (t_string_size t);;
    if t_num_symbols t =? 0 then fault
    else
      read_symbols_from (Z.to_nat (t_num_symbols t)) 0 f s (t_symbol_size t / t_num_symbols t);;
      mret 1.

Definition elf_funcs : read_funcs W :=
  mkReadFuncs ELF_read_headers ELF_read_section_headers ELF_read_symbols common_load_relocatable common_load_executable
    common_relocate_section common_import_symbol common_free_tables.

(** [isELF]: the functions when the file is one. *)
Definition isELF (f : Z) : LM (option (read_funcs W)) :=
  o ← seek f 0 seek_cur;
  modify (λ s, s <| file_offset := o |>);;
  r ← read_local f 4 4;
  seek_from f 0;;
  if negb (bool_decide (snd r = elf_signature)) then mret None else mret (Some elf_funcs).
End elf.
