(* ===== verification/Coff.v ===== *)
(** COFF object files ([src/fd32/dynalink/coff.c], [coff.h]), and the DOS header before
    one or before a PE image ([common.c]: [isMZ]). *)
From S2P Require Import Prelude Errno ByteMem Syscalls Dynalink.

Definition I386MAGIC : Z := 0x14c.
Definition SECT_UNINIT_DATA : Z := 0x80.

(** The structures of [coff.h]: the fields the loader uses, from their bytes. *)
Record external_filehdr := mkFilehdr { f_magic : Z; f_nscns : Z; f_symptr : Z; f_nsyms : Z; f_opthdr : Z; f_flags : Z }.
Definition sizeof_filehdr : Z := 20.
Definition decode_filehdr (b : bytes) : external_filehdr :=
  mkFilehdr (le16_at b 0) (le16_at b 2) (le32_at b 8) (le32_at b 12) (le16_at b 16) (le16_at b 18).

Record aout_hdr := mkAouthdr { a_magic : Z; a_entry : Z; a_text_start : Z }.
Definition sizeof_aout_hdr : Z := 28.
Definition decode_aout_hdr (b : bytes) : aout_hdr := mkAouthdr (le16_at b 0) (le32_at b 16) (le32_at b 20).

Record external_scnhdr := mkScnhdr {
  sc_paddr : Z; sc_vaddr : Z; sc_size : Z; sc_scnptr : Z; sc_relptr : Z; sc_nreloc : Z; sc_flags : Z }.
Definition sizeof_scnhdr : Z := 40.
Definition decode_scnhdr (b : bytes) : external_scnhdr :=
  mkScnhdr (le32_at b 8) (le32_at b 12) (le32_at b 16) (le32_at b 20) (le32_at b 24) (le16_at b 32) (le32_at b 36).

Record coff_reloc_info := mkCoffReloc { cr_vaddr : Z; cr_symndx : Z; cr_type : Z }.
Definition sizeof_coff_reloc_info : Z := 10.
Definition decode_coff_reloc_info (b : bytes) : coff_reloc_info := mkCoffReloc (le32_at b 0) (le32_at b 4) (le16_at b 8).

(** [e_name], or a null word and the offset of the name in the strings. *)
Record coff_symbol_info := mkCoffSymbol {
  cs_name : bytes; cs_zeroes : Z; cs_offset : Z; cs_value : Z; cs_scnum : Z; cs_sclass : Z }.
Definition sizeof_coff_symbol_info : Z := 18.
Definition decode_coff_symbol_info (b : bytes) : coff_symbol_info :=
  mkCoffSymbol (slice b 0 8) (le32_at b 0) (le32_at b 4) (le32_at b 8) (le16_at b 12) (byte_at b 16).

Section coff.
Context {W : Type} `{KernFuncs W}.
Notation LM := (M (linker W)).

(** * Headers *)

Definition COFF_read_headers (f : Z) : LM Z :=
  seek_from f 0;;
  r ← read_local f sizeof_filehdr sizeof_filehdr;
  let header := decode_filehdr (snd r) in
  if negb (f_magic header =? I386MAGIC) then mret 0
  else
    set_tables (λ t, t <| t_flags := 0 |>);;
    set_tables (λ t, t <| t_num_sections := f_nscns header |> <| t_string_size := 0 |>);;
    (if negb (f_symptr header =? 0) && negb (f_nsyms header =? 0)
     then set_tables (λ t, t <| t_symbol := f_symptr header |> <| t_num_symbols := f_nsyms header |>)
     else set_tables (λ t, t <| t_symbol := 0 |> <| t_num_symbols := 0 |>));;
    entry ← (if negb (f_opthdr header =? 0) then
               r ← read_local f (f_opthdr header) sizeof_aout_hdr;
               let o := decode_aout_hdr (snd r) in
               if negb (a_magic o =? 0x010b) then mret 0
               else set_tables (λ t, t <| t_image_base := a_text_start o |>);; mret (a_entry o)
             else mret 0);
    pos ← seek f 0 seek_cur;
    set_tables (λ t, t <| t_section_header := u32 pos |>);;
    (if entry =? 0 then
       set_tables (λ t, t <| t_flags ::= λ x,
         Z.lor (Z.lor (Z.lor x NO_ENTRY) NEED_LOAD_RELOCATABLE) NEED_SECTION_RELOCATION |>)
     else mret ());;
    mret entry.

(** * Sections *)

Definition coff_reloc_type (type : Z) : Z :=
  if type =? 6 then REL_TYPE_COFF_ABSOLUTE else if type =? 20 then REL_TYPE_RELATIVE else type.

Fixpoint coff_read_relocs (n : nat) (j f p : Z) : LM () :=
  match n with
  | O => mret ()
  | S n =>
      r ← read_local f sizeof_coff_reloc_info sizeof_coff_reloc_info;
      let r := decode_coff_reloc_info (snd r) in
      modify (λ s, s <| k_relocs ::= alter (<[Z.to_nat j := mkRelocInfo (cr_vaddr r) (s32 (cr_symndx r)) (coff_reloc_type (cr_type r))]>) p |>);;
      coff_read_relocs n (j + 1) f p
  end.

(** The relocations of section [i], the position in the file kept. *)
Definition coff_read_section_relocs (f i : Z) (h : external_scnhdr) : LM () :=
  if negb (sc_nreloc h =? 0) then
    set_section i (λ s, s <| s_num_reloc := sc_nreloc h |>);;
    p ← alloc (sizeof_reloc_info * sc_nreloc h);
    set_section i (λ s, s <| s_reloc := p |>);;
    pos ← seek f 0 seek_cur;
    seek_from f (sc_relptr h);;
    (if p =? 0 then fault
     else
       w ← gets k_world;
       modify (λ s, s <| k_relocs ::= <[p := map (stale_reloc w) (seqZ 0 (sc_nreloc h))]> |>);;
       coff_read_relocs (Z.to_nat (sc_nreloc h)) 0 f p);;
    seek f pos seek_set;;
    mret ()
  else set_section i (λ s, s <| s_num_reloc := 0 |>).

(** One section header: [tmp] is the physical address of the section before. *)
Fixpoint coff_read_sections (n : nat) (f i bss tmp : Z) : LM Z :=
  match n with
  | O => mret bss
  | S n =>
      r ← read_local f sizeof_scnhdr sizeof_scnhdr;
      let h := decode_scnhdr (snd r) in
      let uninit := has (sc_flags h) SECT_UNINIT_DATA in
      let bss := if uninit then i else bss in
      set_section i (λ s, s <| s_size := sc_size h |>);;
      t ← tables;
      (if (Z.land (t_flags t) NO_ENTRY =? 0) && negb (i =? 0)
       then set_section (i - 1) (λ s, s <| s_size := u32 (sc_paddr h - tmp) |>) else mret ());;
      set_section i (λ s, s <| s_base := sc_vaddr h |> <| s_fileptr := sc_scnptr h |> <| s_filesize := sc_size h |>);;
      coff_read_section_relocs f i h;;
      (if (uninit : bool) then set_section i (λ s, s <| s_filesize := 0 |>) else mret ());;
      coff_read_sections n f (i + 1) bss (sc_paddr h)
  end.

Definition COFF_read_section_headers (f : Z) : LM Z :=
  t ← tables;
  seek f (t_section_header t) seek_set;;
  coff_read_sections (Z.to_nat (t_num_sections t)) f 0 (-1) 0.

(** * Symbols *)

(** [symbol[i]], of the array read from the file. *)
Definition coff_symbol (buffer : bytes) (i : Z) : coff_symbol_info :=
  decode_coff_symbol_info (slice buffer (i * sizeof_coff_symbol_info) sizeof_coff_symbol_info).

Definition count_inlined (buffer : bytes) (n : Z) : Z :=
  Z.of_nat (length (filter (λ i, cs_zeroes (coff_symbol buffer i) ≠ 0) (seqZ 0 n))).

(** The name of a symbol: copied to [inlined] when it is in the entry, null when its
    offset is past the strings. The first character is dropped. *)
Definition coff_symbol_name (x : coff_symbol_info) (s size inlined : Z) : LM (Z * Z) :=
  if negb (cs_zeroes x =? 0) then
    store (λ m, store_bytes m inlined (cs_name x ++ [0]));;
    mret (inlined + 1, inlined + 9)
  else if u32 size <? cs_offset x then mret (0, inlined)
  else mret (u32 (s + cs_offset x + 1), inlined).

(** What the section number of a symbol becomes; [e_scnum] is a short integer. *)
Definition coff_set_symbol_section (i : Z) (x : coff_symbol_info) : LM () :=
  if cs_scnum x =? 0 then
    if cs_value x =? 0 then set_sym i (λ y, y <| si_section := EXTERN_SYMBOL |>)
    else
      set_sym i (λ y, y <| si_section := COMMON_SYMBOL |>);;
      set_tables (λ t, t <| t_local_bss_size ::= λ z, u32 (z + cs_value x) |>)
  else if (cs_scnum x =? 0xFFFF) || (cs_scnum x =? 0xFFFE) then mret ()
  else set_sym i (λ y, y <| si_section := cs_scnum x - 1 |>).

Fixpoint coff_read_symbols_from (n : nat) (i : Z) (buffer : bytes) (s size inlined : Z) : LM () :=
  match n with
  | O => mret ()
  | S n =>
      let x := coff_symbol buffer i in
      if cs_sclass x =? 0 then
        set_sym i (λ y, y <| si_section := NULL_SYMBOL |>);;
        coff_read_symbols_from n (i + 1) buffer s size inlined
      else
        set_sym i (λ y, y <| si_offset := cs_value x |> <| si_section := cs_scnum x |>);;
        r ← coff_symbol_name x s size inlined;
        set_sym i (λ y, y <| si_name := fst r |>);;
        coff_set_symbol_section i x;;
        coff_read_symbols_from n (i + 1) buffer s size (snd r)
  end.

Definition COFF_read_symbols (f : Z) : LM Z :=
  t ← tables;
  let n := t_num_symbols t in
  symbol ← alloc (n * sizeof_coff_symbol_info);
  seek_from f (t_symbol t);;
  if (symbol =? 0) || (2 ^ 32 <=? n * sizeof_coff_symbol_info) then fault
  else
    r ← read_local f (s32 (n * sizeof_coff_symbol_info)) (u32 (n * sizeof_coff_symbol_info));
    let buffer := snd r in
    sz ← read_local f 4 4;
    let size := s32 (le32_at (snd sz) 0) in
    let inlined := count_inlined buffer n in
    s ← alloc_bytes (size + inlined * 9);
    read_to f (u32 (s + 4)) (size - 4);;
    coff_read_symbols_from (Z.to_nat n) 0 buffer s size (u32 (s + size));;
    set_tables (λ t, t <| t_string_buffer := s |> <| t_string_size := u32 (size + inlined * 9) |>);;
    free symbol (n * sizeof_coff_symbol_info);;
    mret 1.

Definition djcoff : bytes := [100; 106; 99; 111; 102; 102].
Definition pecoff : bytes := [112; 101; 99; 111; 102; 102].
Definition COFF_set_type (value : bytes) : LM () :=
  if bool_decide (value = djcoff) then modify (λ s, s <| coff_type := DjCOFF |>)
  else if bool_decide (value = pecoff) then modify (λ s, s <| coff_type := PECOFF |>)
  else mret ().

Definition coff_funcs : read_funcs W :=
  mkReadFuncs COFF_read_headers COFF_read_section_headers COFF_read_symbols common_load_relocatable
    common_load_executable common_relocate_section common_import_symbol common_free_tables.

Definition isCOFF (f : Z) : LM (option (read_funcs W)) :=
  o ← seek f 0 seek_cur;
  modify (λ s, s <| file_offset := o |>);;
  r ← read_local f 2 2;
  seek_from f 0;;
  if negb (le16_at (snd r) 0 =? I386MAGIC) then mret None else mret (Some coff_funcs).

(** * The DOS header *)

Record dos_header := mkDosHeader { e_magic : Z; e_cblp : Z; e_cp : Z; e_lfanew : Z }.
Definition sizeof_dos_header : Z := 64.
Definition decode_dos_header (b : bytes) : dos_header :=
  mkDosHeader (le16_at b 0) (le16_at b 2) (le16_at b 4) (le32_at b 60).

Definition isMZ (f : Z) : LM (option (read_funcs W)) :=
  seek_from f 0;;
  r ← read_local f sizeof_dos_header sizeof_dos_header;
  let hdr := decode_dos_header (snd r) in
  if negb (e_magic hdr =? 0x5A4D) then mret None
  else
    let start := e_cp hdr * 512 in
    let start := if nz (e_cblp hdr) then u32 (start - (512 - e_cblp hdr)) else start in
    seek f start seek_set;;
    r ← isCOFF f;
    match r with
    | Some rf => modify (λ s, s <| file_offset := s32 start |>);; mret (Some rf)
    | None => mret None
    end.
End coff.
