(* ===== verification/Pei.v ===== *)
(** PE images ([src/fd32/dynalink/pei.c], [pei.h]; [common.c]: [isPEImz]). *)
From S2P Require Import Prelude Errno ByteMem Syscalls Dynalink Coff.

Definition PE32MAGIC : Z := 0x010B.
Definition IMAGE_FILE_DLL : Z := 0x2000.
Definition IMAGE_FILE_MACHINE_I386 : Z := 0x014c.
Definition IMAGE_SUBSYSTEM_NATIVE : Z := 1.
Definition IMAGE_SIZEOF_BASE_RELOCATION : Z := 8.
Definition IMAGE_REL_BASED_ABSOLUTE : Z := 0.
Definition IMAGE_REL_BASED_HIGH : Z := 1.
Definition IMAGE_REL_BASED_LOW : Z := 2.
Definition IMAGE_REL_BASED_HIGHLOW : Z := 3.
Definition sizeof_pei_extra_info : Z := 32.

(** The structures of [pei.h]: the fields the loader uses, from their bytes. The
    directory entries are those of exports, imports and relocations. *)
Record data_directory := mkDataDirectory { dd_vaddr : Z; dd_size : Z }.
Definition data_dir (b : bytes) (i : Z) : data_directory :=
  mkDataDirectory (le32_at b (96 + 8 * i)) (le32_at b (100 + 8 * i)).
Record pe_aouthdr := mkPeAouthdr {
  pa_magic : Z; pa_entry : Z; pa_image_base : Z; pa_subsystem : Z;
  pa_export : data_directory; pa_import : data_directory; pa_basereloc : data_directory }.
Definition sizeof_pe_aouthdr : Z := 224.
Definition decode_pe_aouthdr (b : bytes) : pe_aouthdr :=
  mkPeAouthdr (le16_at b 0) (le32_at b 16) (le32_at b 28) (le16_at b 68) (data_dir b 0) (data_dir b 1) (data_dir b 5).

Record pe_scnhdr := mkPeScnhdr { ps_vsize : Z; ps_vaddr : Z; ps_psize : Z; ps_paddr : Z }.
Definition sizeof_pe_scnhdr : Z := 40.
Definition decode_pe_scnhdr (b : bytes) : pe_scnhdr :=
  mkPeScnhdr (le32_at b 8) (le32_at b 12) (le32_at b 16) (le32_at b 20).

(** [struct exp_dir] and [struct imp_desc]: offsets of the fields. *)
Definition sizeof_exp_dir : Z := 40.
Definition exp_name_ofs : Z := 12.
Definition exp_func_num_ofs : Z := 20.
Definition exp_func_addr_ofs : Z := 28.
Definition exp_name_addr_ofs : Z := 32.
Definition sizeof_imp_desc : Z := 20.
Definition imp_orithunk_ofs : Z := 0.
Definition imp_name_ofs : Z := 12.
Definition imp_thunk_ofs : Z := 16.

Definition strlwr (s : bytes) : bytes := map (λ c, if (65 <=? c) && (c <=? 90) then c + 97 - 65 else c) s.

(** [strstr(s, name) != 0] *)
Fixpoint strstr (s name : bytes) : bool :=
  bool_decide (take (length name) s = name) ||
  match s with [] => false | _ :: s => strstr s name end.

Section pei.
Context {W : Type} `{KernFuncs W}.
Notation LM := (M (linker W)).

Definition load_word (p : Z) : LM Z := with_mem (λ m, load32 m (u32 p)).

(** [*pee_info] *)
Definition pee (p : Z) : LM pei_extra_info := x ← gets (λ s, k_pei s !! p); deref x.
Definition set_pee (p : Z) (f : pei_extra_info → pei_extra_info) : LM () :=
  x ← pee p; modify (λ s, s <| k_pei ::= <[p := f x]> |>).
Definition private_info : LM pei_extra_info := t ← tables; pee (t_private_info t).

(** * Headers *)

Definition alloc_pei : LM Z :=
  p ← alloc sizeof_pei_extra_info;
  w ← gets k_world;
  (if p =? 0 then mret () else modify (λ s, s <| k_pei ::= <[p := stale_pei w]> |>));;
  mret p.

Definition pei_optional_header (pee_info : Z) (header : external_filehdr) (o : pe_aouthdr) : LM Z :=
  let entry := u32 (pa_entry o + pa_image_base o) in
  entry ← (if has (f_flags header) IMAGE_FILE_DLL then
             if negb (pa_subsystem o =? IMAGE_SUBSYSTEM_NATIVE) then
               set_tables (λ t, t <| t_flags ::= λ x, Z.lor x DLL_WITH_STDCALL |>);;
               mret (u32 (entry - pa_image_base o))
             else set_tables (λ t, t <| t_flags ::= λ x, Z.lor x NO_ENTRY |>);; mret entry
           else mret entry);
  set_tables (λ t, t <| t_image_base := pa_image_base o |>);;
  set_pee pee_info (λ x, x
    <| export_symbol := dd_vaddr (pa_export o) |> <| export_symbol_size := dd_size (pa_export o) |>
    <| base_reloc := dd_vaddr (pa_basereloc o) |> <| base_reloc_size := dd_size (pa_basereloc o) |>
    <| import_symbol := dd_vaddr (pa_import o) |> <| import_symbol_size := dd_size (pa_import o) |>);;
  set_tables (λ t, t <| t_private_info := pee_info |>);;
  mret entry.

Definition pei_read_headers (f : Z) : LM Z :=
  pee_info ← alloc_pei;
  seek_from f 0;;
  r ← read_local f sizeof_filehdr sizeof_filehdr;
  let header := decode_filehdr (snd r) in
  if negb (f_magic header =? IMAGE_FILE_MACHINE_I386) then mret 0
  else
    set_tables (λ t, t <| t_num_sections := f_nscns header |> <| t_flags := 0 |> <| t_image_base := 0 |>);;
    entry ← (if negb (f_opthdr header =? 0) then
               r ← read_local f (f_opthdr header) sizeof_pe_aouthdr;
               let o := decode_pe_aouthdr (snd r) in
               if negb (pa_magic o =? PE32MAGIC) then mret 0 else pei_optional_header pee_info header o
             else mret 0);
    pos ← seek f 0 seek_cur;
    set_tables (λ t, t <| t_section_header := u32 pos |>);;
    mret entry.

(** * Sections *)

(** The number of the section with the exports, -1 when there is none. *)
Fixpoint pei_read_sections (n : nat) (f i e_section : Z) : LM Z :=
  match n with
  | O => mret e_section
  | S n =>
      r ← read_local f sizeof_pe_scnhdr sizeof_pe_scnhdr;
      let h := decode_pe_scnhdr (snd r) in
      set_section i (λ _, mkSectionInfo (ps_vaddr h) (ps_vsize h) (ps_paddr h) (ps_psize h) 0 0);;
      p ← private_info;
      pei_read_sections n f (i + 1)
        (if (ps_vaddr h <=? export_symbol p) && (export_symbol p <? u32 (ps_vaddr h + ps_vsize h)) then i else e_section)
  end.

Definition pei_read_section_headers (f : Z) : LM Z :=
  t ← tables;
  seek f (t_section_header t) seek_set;;
  e_section ← pei_read_sections (Z.to_nat (t_num_sections t)) f 0 (-1);
  set_tables (λ t, t <| t_num_symbols := 0 |>);;
  p ← private_info;
  (if negb (export_symbol_size p =? 0) && negb (e_section =? -1) then
     sec ← section e_section;
     let fileptr := u32 (s_fileptr sec + export_symbol p - s_base sec) in
     set_pee (t_private_info t) (λ x, x <| export_symbol_fileptr := fileptr |>);;
     seek f fileptr seek_set;;
     r ← read_local f sizeof_exp_dir sizeof_exp_dir;
     set_tables (λ t, t <| t_num_symbols := le32_at (snd r) exp_func_num_ofs |>)
   else mret ());;
  mret (-1).

(** * Loading *)

Fixpoint pei_load_sections (n : nat) (f i image_base : Z) : LM () :=
  match n with
  | O => mret ()
  | S n =>
      sec ← section i;
      (if negb (s_fileptr sec =? 0) then
         seek f (s_fileptr sec) seek_set;; read_to f (u32 (image_base + s_base sec)) (s_filesize sec);; mret ()
       else mret ());;
      pei_load_sections n f (i + 1) image_base
  end.

(** The library called [name], whose letters are made small in place. *)
Definition find_dll (p : Z) : LM (option (list symbol)) :=
  name ← cstr p;
  store (λ m, store_bytes m p (strlwr name));;
  lcall (get_dll_table (strlwr name)).

(** [for (i = 0; hint[i] != 0; i++, entry += 4)]: false when the library is not
    found. *)
Fixpoint pei_import_functions (n : nat) (image_base dll_name hint entry : Z) : LM bool :=
  match n with
  | O => nofuel
  | S n =>
      h ← load_word hint;
      if h =? 0 then mret true
      else
        dt ← find_dll dll_name;
        match dt with
        | None => mret false
        | Some dt =>
            name ← cstr (u32 (image_base + h + 2));
            match find_call name dt 0 with
            | Some (_, x) => store (λ m, store32 m entry (sym_address x))
            | None => mret ()
            end;;
            pei_import_functions n image_base dll_name (u32 (hint + 4)) (u32 (entry + 4))
        end
  end.

(** [while (desc->orithunk != 0 || desc->name != 0 || desc->thunk != 0)] *)
Fixpoint pei_import (n : nat) (fuel : nat) (image_base desc : Z) : LM bool :=
  match n with
  | O => nofuel
  | S n =>
      orithunk ← load_word (desc + imp_orithunk_ofs);
      name ← load_word (desc + imp_name_ofs);
      thunk ← load_word (desc + imp_thunk_ofs);
      if nz orithunk || nz name || nz thunk then
        ok ← pei_import_functions fuel image_base (u32 (image_base + name)) (u32 (image_base + orithunk))
               (u32 (image_base + thunk));
        if (ok : bool) then pei_import n fuel image_base (u32 (desc + sizeof_imp_desc)) else mret false
      else mret true
  end.

(** The relocation of the image, kept with the first section. *)
Definition pei_set_reloc (reloc_offset image_base : Z) (p : pei_extra_info) : LM () :=
  set_tables (λ t, t <| t_flags ::= λ x, Z.lor x NEED_IMAGE_RELOCATION |>);;
  set_section 0 (λ s, s <| s_num_reloc := 1 |>);;
  r ← alloc sizeof_pe_reloc_info;
  if r =? 0 then fault
  else
    modify (λ s, s <| k_pe_relocs ::= <[r := mkPeRelocInfo reloc_offset (u32 (base_reloc p + image_base)) (base_reloc_size p)]> |>);;
    set_section 0 (λ s, s <| s_reloc := r |>).

(** The address of the image, -1 as an unsigned number or 0 on failure, and its size
    on success. A table in memory has at most as many entries as the memory has
    bytes. *)
Definition pei_load (f n : Z) : LM (Z * Z) :=
  t ← tables;
  p ← private_info;
  last ← section (n - 1);
  let image_memory_size := u32 (s_base last + s_filesize last) in
  place ← (if negb (base_reloc_size p =? 0) then
             start ← alloc_bytes image_memory_size;
             mret (Some (start, u32 (start - t_image_base t), start))
           else
             res ← lcall (mem_alloc_region (t_image_base t) image_memory_size);
             if res =? -1 then mret None
             else make_available (t_image_base t) image_memory_size;; mret (Some (t_image_base t, 0, t_image_base t)));
  match place with
  | None => mret (u32 (-1), 0)
  | Some (image_memory_start, reloc_offset, image_base) =>
      if image_memory_start =? 0 then first ← section 0; mret (u32 (-1), 0)
      else
        set_tables (λ t, t <| t_image_base := image_base |>);;
        (if negb (reloc_offset =? 0) then pei_set_reloc reloc_offset image_base p else mret ());;
        clear image_base image_memory_size;;
        pei_load_sections (Z.to_nat n) f 0 image_base;;
        fuel ← gets (λ s, S (size (k_mem s)));
        ok ← (if negb (import_symbol_size p =? 0) then pei_import fuel fuel image_base (u32 (image_base + import_symbol p))
              else mret true);
        if (ok : bool) then mret (image_base, image_memory_size) else mret (0, 0)
  end.

(** * Exports *)

Fixpoint pei_read_exports (n : nat) (i virtual_base funcname funcaddr : Z) : LM (list (Z * Z)) :=
  match n with
  | O => mret []
  | S n =>
      name ← load_word (funcname + 4 * i);
      address ← load_word (funcaddr + 4 * i);
      set_sym i (λ _, mkSymbolInfo (u32 (virtual_base + name)) address 0);;
      l ← pei_read_exports n (i + 1) virtual_base funcname funcaddr;
      mret ((u32 (virtual_base + name), address) :: l)
  end.

Definition pei_read_symbols (f : Z) : LM Z :=
  t ← tables;
  p ← private_info;
  if negb (t_num_symbols t =? 0) then
    handle ← alloc_bytes (export_symbol_size p);
    let virtual_base := u32 (handle - export_symbol p) in
    seek f (export_symbol_fileptr p) seek_set;;
    read_to f handle (export_symbol_size p);;
    name_addr ← load_word (handle + exp_name_addr_ofs);
    func_addr ← load_word (handle + exp_func_addr_ofs);
    func_num ← load_word (handle + exp_func_num_ofs);
    table ← alloc (8 * func_num);
    if (table =? 0) && negb (func_num =? 0) then fault
    else
      l ← pei_read_exports (Z.to_nat func_num) 0 virtual_base (u32 (virtual_base + name_addr)) (u32 (virtual_base + func_addr));
      name ← load_word (handle + exp_name_ofs);
      let dll_name := u32 (virtual_base + name) in
      name ← cstr dll_name;
      store (λ m, store_bytes m dll_name (strlwr name));;
      lcall (add_dll_table (strlwr name) handle l);;
      mret 1
  else mret 1.

Fixpoint pei_import_from (n : nat) (i : Z) (name : bytes) : LM (Z * Z) :=
  match n with
  | O => mret (0, -1)
  | S n =>
      y ← sym i;
      s ← cstr (si_name y);
      if strstr s name then mret (si_offset y, si_section y) else pei_import_from n (i + 1) name
  end.
Definition pei_import_symbol (n : Z) (name : bytes) : LM (Z * Z) := pei_import_from (Z.to_nat n) 0 name.

(** * Relocating *)

(** What a fixup adds; none for an unsupported type. *)
Definition fixup (type reloc_offset : Z) : option Z :=
  if type =? IMAGE_REL_BASED_ABSOLUTE then Some 0
  else if type =? IMAGE_REL_BASED_HIGH then Some (Z.land reloc_offset 0xffff0000)
  else if type =? IMAGE_REL_BASED_LOW then Some (Z.land reloc_offset 0x0000ffff)
  else if type =? IMAGE_REL_BASED_HIGHLOW then Some reloc_offset
  else None.

(** The fixups of a block, from the address [at_] on. *)
Fixpoint pei_fixups (n : nat) (at_ start reloc_offset : Z) : LM bool :=
  match n with
  | O => mret true
  | S n =>
      x ← with_mem (λ m, load16 m at_);
      let offset := Z.land x 0xfff in
      if negb (offset =? 0) then
        let type := Z.shiftr x 12 in
        match fixup type reloc_offset with
        | None => mret false
        | Some d =>
            (if type =? IMAGE_REL_BASED_ABSOLUTE then mret ()
             else
               let mem := u32 (start + offset) in
               v ← load_word mem; store (λ m, store32 m mem (u32 (v + d))));;
            pei_fixups n (u32 (at_ + 2)) start reloc_offset
        end
      else pei_fixups n (u32 (at_ + 2)) start reloc_offset
  end.

(** The blocks, up to one for the same place as the first: [first] is none before the
    first block. *)
Fixpoint pei_blocks (n : nat) (image_base : Z) (r : pe_reloc_info) (base_reloc_at : Z) (first : option Z) : LM Z :=
  if base_reloc_at <? pr_size r then
    match n with
    | O => nofuel
    | S n =>
        let reloc := u32 (pr_addr r + base_reloc_at) in
        vaddr ← load_word reloc;
        block_size ← load_word (reloc + 4);
        let reloc_number := Z.shiftr (u32 (block_size - IMAGE_SIZEOF_BASE_RELOCATION)) 1 in
        let start := u32 (image_base + vaddr) in
        if bool_decide (first = Some start) then mret 1
        else
          ok ← pei_fixups (Z.to_nat reloc_number) (u32 (reloc + 8)) start (pr_offset r);
          if (ok : bool) then
            pei_blocks n image_base r (u32 (base_reloc_at + block_size)) (Some (default start first))
          else mret 0
    end
  else mret 1.

Definition pei_relocate_section (image_base n sect : Z) : LM Z :=
  sec ← section 0;
  if s_reloc sec =? 0 then mret 0
  else
    r ← gets (λ s, k_pe_relocs s !! s_reloc sec);
    r ← deref r;
    fuel ← gets (λ s, S (size (k_mem s)));
    pei_blocks fuel image_base r 0 None.

(** * Freeing *)

Definition pei_free_tables (syms scndata : Z) : LM () :=
  t ← tables;
  free (t_private_info t) sizeof_pei_extra_info;;
  modify (λ s, s <| k_pei ::= delete (t_private_info t) |>);;
  sec ← section 0;
  (if negb (s_reloc sec =? 0) then
     free (s_reloc sec) sizeof_pe_reloc_info;; modify (λ s, s <| k_pe_relocs ::= delete (s_reloc sec) |>)
   else mret ());;
  free scndata (sizeof_section_info * t_num_sections t);;
  modify (λ s, s <| k_sections := [] |>);;
  (if negb (syms =? 0) then
     free syms (sizeof_symbol_info * t_num_symbols t);; modify (λ s, s <| k_syms := [] |>)
   else mret ()).

Definition pei_funcs : read_funcs W :=
  mkReadFuncs pei_read_headers pei_read_section_headers pei_read_symbols pei_load pei_load pei_relocate_section
    pei_import_symbol pei_free_tables.

Definition isPEI (f : Z) : LM (option (read_funcs W)) :=
  o ← seek f 0 seek_cur;
  modify (λ s, s <| file_offset := o |>);;
  r ← read_local f 2 2;
  seek_from f 0;;
  if negb (le16_at (snd r) 0 =? IMAGE_FILE_MACHINE_I386) then mret None else mret (Some pei_funcs).

Definition isPEImz (f : Z) : LM (option (read_funcs W)) :=
  seek_from f 0;;
  r ← read_local f sizeof_dos_header sizeof_dos_header;
  let hdr := decode_dos_header (snd r) in
  if negb (e_magic hdr =? 0x5A4D) then mret None
  else
    seek f (e_lfanew hdr) seek_set;;
    r ← read_local f 4 4;
    if le32_at (snd r) 0 =? 0x00004550 then isPEI f else mret None.
End pei.
