(* ===== verification/Exec.v ===== *)
(** Loading a program ([src/fd32/kernel/exec.c]: [fd32_load_executable]) and the table of
    binary formats ([src/fd32/dynalink/common.c]). *)
From S2P Require Import Prelude Errno ByteMem Syscalls Dynalink Elf Coff Pei.

(** [executable_info_t] *)
Record executable_info := mkExecInfo { x_exec_space : Z; x_image_base : Z; x_size : Z }.
#[export] Instance executable_info_eta : Eta executable_info := λ r,
  mkExecInfo (x_exec_space r) (x_image_base r) (x_size r).

Section exec.
Context {W : Type} `{KernFuncs W}.
Notation LM := (M (linker W)).

(** [_init] *)
Definition init_name : bytes := [95; 105; 110; 105; 116].

(** [-1] as a DWORD. *)
Definition EXEC_FAILED : Z := u32 (-1).

(** [sections] and [symbols]: the addresses of the arrays. *)
Definition alloc_sections (n : Z) : LM Z :=
  p ← alloc (sizeof_section_info * n);
  w ← gets k_world;
  modify (λ s, s <| k_sections := if p =? 0 then [] else map (stale_section w) (seqZ 0 n) |>);;
  mret p.
Definition alloc_symbols (n : Z) : LM Z :=
  p ← alloc (n * sizeof_symbol_info);
  w ← gets k_world;
  modify (λ s, s <| k_syms := if p =? 0 then []
                              else map (stale_symbol w) (seqZ 0 (u32 (n * sizeof_symbol_info) / sizeof_symbol_info)) |>);;
  mret p.

(** [for (i = 0; i < reloc_sections; i++)] *)
Fixpoint relocate_sections (n : nat) (i : Z) (rf : read_funcs W) (exec_space count : Z) : LM Z :=
  match n with
  | O => mret 1
  | S n =>
      res ← relocate_section rf exec_space count i;
      if res <? 0 then mret (-1) else relocate_sections n (i + 1) rf exec_space count
  end.

(** Everything is freed and the load has failed. *)
Definition load_failed (rf : read_funcs W) (symbols sections : Z) (image : option (Z * Z)) : LM (Z * option executable_info) :=
  free_tables rf symbols sections;;
  match image with Some (p, size) => free_bytes p size | None => mret () end;;
  mret (EXEC_FAILED, None).

(** What follows the relocation: the entry point and where the image is. [None] for
    what is not stored in [execinfo]. *)
Definition find_entry (rf : read_funcs W) (entry exec_space size symbols sections : Z) : LM (Z * option executable_info) :=
  t ← tables;
  if has (t_flags t) NO_ENTRY then
    if symbols =? 0 then load_failed rf symbols sections (Some (exec_space, size))
    else
      r ← import_symbol_fn rf (t_num_symbols t) init_name;
      let '(entry, init_sect) := r in
      if negb (init_sect =? -1) then
        sec ← section init_sect;
        free_tables rf symbols sections;;
        mret (u32 (entry + (s_base sec + exec_space)), Some (mkExecInfo 0 exec_space size))
      else mret (EXEC_FAILED, None)
  else if has (t_flags t) DLL_WITH_STDCALL then
    free_tables rf symbols sections;;
    mret (u32 (entry + exec_space), Some (mkExecInfo (u32 (-1)) exec_space size))
  else
    entry ← (if has (t_flags t) NEED_IMAGE_RELOCATION then
               sec ← section 0;
               r ← gets (λ s, k_pe_relocs s !! s_reloc sec);
               r ← deref r;
               mret (u32 (entry + pr_offset r))
             else mret entry);
    free_tables rf symbols sections;;
    mret (entry, Some (mkExecInfo exec_space (t_image_base t) size)).

(** The relocation of the sections, when the format needs it: false when the load has
    failed. *)
Definition relocate_image (rf : read_funcs W) (bss_sect exec_space : Z) : LM bool :=
  t ← tables;
  if has (t_flags t) (Z.lor NEED_SECTION_RELOCATION NEED_IMAGE_RELOCATION) then
    if has (t_flags t) NEED_SECTION_RELOCATION && ((bss_sect <? 0) || (t_num_sections t <? bss_sect)) then mret false
    else
      let count := if has (t_flags t) NEED_SECTION_RELOCATION then t_num_sections t else 1 in
      res ← relocate_sections (Z.to_nat count) 0 rf exec_space (t_num_sections t);
      mret (negb (res <? 0))
  else mret true.

(** The symbols, when there are any: the address of the array, none for a failure. *)
Definition load_symbols (rf : read_funcs W) (f : Z) : LM (option Z) :=
  t ← tables;
  if negb (t_num_symbols t =? 0) then
    symbols ← alloc_symbols (t_num_symbols t);
    if symbols =? 0 then mret None else read_symbols rf f;; mret (Some symbols)
  else mret (Some 0).

Definition fd32_load_executable (f : Z) (rf : read_funcs W) : LM (Z * option executable_info) :=
  w ← gets k_world;
  set_tables (λ _, (stale_tables w) <| t_section_names_size := 0 |> <| t_local_bss_size := 0 |> <| t_private_info := 0 |>);;
  entry ← read_headers rf f;
  t ← tables;
  sections ← alloc_sections (t_num_sections t);
  if sections =? 0 then mret (EXEC_FAILED, None)
  else
    bss_sect ← read_section_headers rf f;
    symbols ← load_symbols rf f;
    match symbols with
    | None => load_failed rf 0 sections None
    | Some symbols =>
        t ← tables;
        r ← (if has (t_flags t) NEED_LOAD_RELOCATABLE then load_relocatable rf f (t_num_sections t)
             else load_executable rf f (t_num_sections t));
        let '(exec_space, size) := r in
        if exec_space =? 0 then load_failed rf symbols sections None
        else
          ok ← relocate_image rf bss_sect exec_space;
          if negb ok then load_failed rf symbols sections (Some (exec_space, size))
          else find_entry rf entry exec_space size symbols sections
    end.

(** * The table of formats *)

(** [struct bin_format]: [check] gives the functions of the format of a file that has
    it; [exec] is the address of a function. *)
Record bin_format := mkBinFormat {
  bf_name : option bytes;
  bf_check : Z → LM (option (read_funcs W));
  bf_exec : Z }.

Definition BINFMT_SIZE : nat := 8.

(** Entries after the last have no name and no functions. *)
Definition no_format : bin_format := mkBinFormat None (λ _, fault) 0.
Definition binfmt (fd32_exec_process : Z) : list bin_format :=
  [mkBinFormat (Some [99; 111; 102; 102]) isCOFF fd32_exec_process;
   mkBinFormat (Some [101; 108; 102]) isELF fd32_exec_process;
   mkBinFormat (Some [112; 101; 105]) isPEImz fd32_exec_process;
   mkBinFormat (Some [109; 122]) isMZ fd32_exec_process;
   no_format; no_format; no_format; no_format].

(** [for (i = 0; binfmt[i].name != NULL; i++)]: the first entry of that name or without
    a name; none past the end of the table. *)
Fixpoint find_format (name : bytes) (l : list bin_format) (i : nat) : option nat :=
  match l with
  | [] => None
  | b :: l =>
      match bf_name b with
      | None => Some i
      | Some x => if bool_decide (x = name) then Some i else find_format name l (S i)
      end
  end.

(** The result and the table; [None] for an access past its end. *)
Definition fd32_set_binfmt (name : bytes) (check : option (Z → LM (option (read_funcs W)))) (exec : Z)
    (l : list bin_format) : option (Z * list bin_format) :=
  match find_format name l 0 with
  | None => None
  | Some i =>
      if (i <? BINFMT_SIZE)%nat then
        Some (1, alter (λ b, mkBinFormat
          (match bf_name b with Some _ => Some name | None => None end)
          (match check with Some c => c | None => bf_check b end)
          (if nz exec then exec else bf_exec b)) i l)
      else Some (0, l)
  end.

(** The functions of the first format the file has. *)
Fixpoint check_formats (l : list bin_format) (f : Z) : LM (option (bin_format * read_funcs W)) :=
  match l with
  | [] => fault
  | b :: l =>
      match bf_name b with
      | None => mret None
      | Some _ =>
          r ← bf_check b f;
          match r with
          | Some rf => mret (Some (b, rf))
          | None => check_formats l f
          end
      end
  end.
End exec.
