(* ===== verification/DynalinkSpec.v ===== *)
(** The dynamic linker, proved: what relocating a section of an object file makes of
    the image, and how a relocatable file is laid out in memory. *)
From S2P Require Import Prelude Errno ByteMem Syscalls Dynalink.
(** * The specification of relocation *)

(** The addresses of the symbols: common ones one after the other from [bss] on,
    external ones where the table of calls says; none when one is not there. *)
Fixpoint resolve (m : memory) (calls : syscalls) (bss : Z) (l : list symbol_info) : option (list symbol_info) :=
  match l with
  | [] => Some []
  | y :: l =>
      if si_section y =? COMMON_SYMBOL then
        l' ← resolve m calls (u32 (bss + si_offset y)) l; Some (y <| si_offset := bss |> :: l')
      else if si_section y =? EXTERN_SYMBOL then
        name ← cstring m (si_name y);
        if fd32_get_call name calls =? 0 then None
        else l' ← resolve m calls bss l; Some (y <| si_offset := fd32_get_call name calls |> :: l')
      else l' ← resolve m calls bss l; Some (y :: l')
  end.

Definition free_symbol (y : symbol_info) : bool :=
  (si_section y =? COMMON_SYMBOL) || (si_section y =? EXTERN_SYMBOL).

(** The address of a symbol, [S]; the place of a relocation, [P], which COFF counts from
    the start of the image; the word to store there: [S + A] or [S - P - 4], with [A] the
    word stored before. In a COFF file that is not of PE, [A] is already the address of a
    symbol of the file, from the start of the image: then it is [A + base]. *)
Definition symbol_address (base : Z) (secs : list section_info) (y : symbol_info) : Z :=
  if free_symbol y then si_offset y
  else match secs !! Z.to_nat (si_section y) with
       | Some t => base + s_base t + si_offset y
       | None => 0
       end.
Definition place_of (base : Z) (sec : section_info) (r : reloc_info) : Z :=
  if r_type r =? REL_TYPE_COFF_ABSOLUTE then u32 (r_offset r + base) else u32 (s_base sec + r_offset r + base).
Definition from_base (ct : Z) (y : symbol_info) (r : reloc_info) : bool :=
  (r_type r =? REL_TYPE_COFF_ABSOLUTE) && negb (free_symbol y) && negb (ct =? PECOFF).
Definition linked_word (ct base : Z) (secs : list section_info) (y : symbol_info) (P A : Z) (r : reloc_info) : Z :=
  let S := symbol_address base secs y in
  if r_type r =? REL_TYPE_RELATIVE then u32 (S - P - 4)
  else if from_base ct y r then u32 (A + base) else u32 (S + A).

(** A relocation that can be done, of symbol [y]: of one of the three types, and of a
    symbol that is common, external or in one of the sections. *)
Definition linkable (n : Z) (secs : list section_info) (syms : list symbol_info) (r : reloc_info) (y : symbol_info) : Prop :=
  (r_type r = REL_TYPE_ELF_ABSOLUTE ∨ r_type r = REL_TYPE_COFF_ABSOLUTE ∨ r_type r = REL_TYPE_RELATIVE) ∧
  0 ≤ r_symbol r < 2 ^ 32 ∧ syms !! Z.to_nat (r_symbol r) = Some y ∧
  (free_symbol y = true ∨ 0 ≤ si_section y < n ∧ (Z.to_nat (si_section y) < length secs)%nat).

(** Words at [p] and [q] do not overlap. *)
Definition apart (p q : Z) : Prop := p + 4 ≤ q ∨ q + 4 ≤ p.

(** * The proof *)

Section links.
Context {W : Type} `{KernFuncs W}.
Implicit Types s : linker W.

Lemma u32_eq a b : a mod 2 ^ 32 = b mod 2 ^ 32 → u32 a = u32 b.
Proof. done. Qed.
Lemma u32_congr a b k : a = b + k * 2 ^ 32 → u32 a = u32 b.
Proof. intros ->. unfold u32. apply Z.mod_add. lia. Qed.
Lemma u32_add_l a b : u32 (u32 a + b) = u32 (a + b).
Proof. unfold u32. apply Zplus_mod_idemp_l. Qed.
Lemma u32_sub_r a b c : u32 (a - u32 b - c) = u32 (a - b - c).
Proof.
  unfold u32. rewrite <- !Z.sub_add_distr.
  rewrite Zminus_mod, (Z.add_mod (b mod _)), Z.mod_mod, <- Z.add_mod, <- Zminus_mod by lia. done.
Qed.

Lemma sym_at s i y : 0 ≤ i → k_syms s !! Z.to_nat i = Some y → sym i s = Done y s.
Proof. intros Hi Hy. unfold sym, mbind, M_bind, gets. rewrite (proj2 (Z.ltb_ge _ _)) by lia. by rewrite Hy. Qed.
Lemma section_at s i x : 0 ≤ i → k_sections s !! Z.to_nat i = Some x → section i s = Done x s.
Proof. intros Hi Hx. unfold section, mbind, M_bind, gets. rewrite (proj2 (Z.ltb_ge _ _)) by lia. by rewrite Hx. Qed.
Lemma set_sym_at s i y f : 0 ≤ i → k_syms s !! Z.to_nat i = Some y →
  set_sym i f s = Done tt (s <| k_syms := <[Z.to_nat i := f y]> (k_syms s) |>).
Proof. intros Hi Hy. unfold set_sym. by rewrite (bind_eq _ _ _ _ _ (sym_at s i y Hi Hy)). Qed.
Lemma set_section_at s i x f : 0 ≤ i → k_sections s !! Z.to_nat i = Some x →
  set_section i f s = Done tt (s <| k_sections := <[Z.to_nat i := f x]> (k_sections s) |>).
Proof. intros Hi Hx. unfold set_section. by rewrite (bind_eq _ _ _ _ _ (section_at s i x Hi Hx)). Qed.

Lemma with_mem_at {A} s (f : memory → option A) a : f (k_mem s) = Some a → with_mem f s = Done a s.
Proof. intros Hf. unfold with_mem, mbind, M_bind, gets. by rewrite Hf. Qed.
Lemma store_at s f m : f (k_mem s) = Some m → store f s = Done tt (s <| k_mem := m |>).
Proof. intros Hf. unfold store. by rewrite (bind_eq _ _ _ _ _ (with_mem_at s f m Hf)). Qed.

(** ** The symbols *)

Lemma setup_symbols_spec done todo syms' bss s :
  k_syms s = done ++ todo → resolve (k_mem s) (k_calls s) bss todo = Some syms' →
  setup_symbols (length todo) (Z.of_nat (length done)) bss s = Done 1 (s <| k_syms := done ++ syms' |>).
Proof.
  revert done syms' bss s. induction todo as [|y todo IH]; intros done syms' bss s Hs Hr; cbn in *.
  { injection Hr as <-. unfold mret, M_ret. by destruct s; cbn in *; subst. }
  assert (Hy : k_syms s !! Z.to_nat (Z.of_nat (length done)) = Some y).
  { rewrite Hs, Nat2Z.id. by apply list_lookup_middle. }
  rewrite (bind_eq _ _ _ _ _ (sym_at s _ y (Nat2Z.is_nonneg _) Hy)).
  replace (Z.of_nat (length done) + 1) with (Z.of_nat (length (done ++ [y]))) by (rewrite length_app; cbn; lia).
  assert (Hset : ∀ z, <[Z.to_nat (Z.of_nat (length done)) := z]> (k_syms s) = (done ++ [z]) ++ todo).
  { intros z. rewrite Hs, Nat2Z.id, <- app_assoc, insert_app_r_alt by lia. by rewrite Nat.sub_diag. }
  assert (Hlen : ∀ z, length (done ++ [y]) = length (done ++ [z])) by (intros; by rewrite !length_app).
  destruct (si_section y =? COMMON_SYMBOL); [|destruct (si_section y =? EXTERN_SYMBOL)].
  - apply bind_Some in Hr as (l' & Hl & [= <-]).
    rewrite (bind_eq _ _ _ _ _ (set_sym_at s _ y _ (Nat2Z.is_nonneg _) Hy)). rewrite Hset, (Hlen (y <| si_offset := bss |>)).
    rewrite (IH _ l'); [|done|exact Hl]. cbn. by rewrite <- app_assoc.
  - apply bind_Some in Hr as (name & Hn & Hr). unfold cstr. rewrite (bind_eq _ _ _ _ _ (with_mem_at s _ _ Hn)).
    unfold mbind at 1, M_bind at 1, gets. destruct (fd32_get_call name (k_calls s) =? 0) eqn:E; [done|].
    apply bind_Some in Hr as (l' & Hl & [= <-]).
    rewrite (bind_eq _ _ _ _ _ (set_sym_at s _ y _ (Nat2Z.is_nonneg _) Hy)). 
    rewrite Hset, (Hlen (y <| si_offset := fd32_get_call name (k_calls s) |>)), (IH _ l'); [|done|exact Hl].
    cbn. by rewrite <- app_assoc.
  - apply bind_Some in Hr as (l' & Hl & [= <-]).
    rewrite (IH _ l'); [|by rewrite Hs, <- app_assoc|exact Hl]. by rewrite <- app_assoc.
Qed.

(** ** One relocation *)

Lemma reloc_value_spec base n secs syms sec r y A a s :
  linkable n secs syms r y → k_sections s = secs → (r_type r ≠ REL_TYPE_RELATIVE → a = A) →
  reloc_value base n sec r (place_of base sec r) a y s =
    Done (Some (linked_word (coff_type s) base secs y (place_of base sec r) A r)) s.
Proof.
  intros (Ht & _ & _ & Hsec) Hs Ha. unfold reloc_value. fold (free_symbol y).
  unfold linked_word, from_base, symbol_address. destruct (free_symbol y) eqn:Ef.
  - destruct Ht as [Ht|[Ht|Ht]]; rewrite Ht; cbn; [| |done];
      (rewrite (Ha ltac:(by rewrite Ht)); unfold mret, M_ret; by rewrite Z.add_comm).
  - destruct Hsec as [Hsec|[Hn Hlt]]; [done|]. rewrite (proj2 (Z.leb_gt _ _)) by lia.
    destruct (lookup_lt_is_Some_2 _ _ Hlt) as [t Et]. rewrite Et. rewrite <- Hs in Et.
    pose proof (section_at s _ t (proj1 Hn) Et) as Hsec.
    destruct Ht as [Ht|[Ht|Ht]]; rewrite Ht; cbn.
    + rewrite (bind_eq _ _ _ _ _ Hsec), (Ha ltac:(by rewrite Ht)). unfold mret, M_ret. do 3 f_equal. lia.
    + rewrite (Ha ltac:(by rewrite Ht)). unfold mbind at 1, M_bind at 1, gets. unfold PECOFF, DjCOFF.
      destruct (Z.eqb_spec (coff_type s) 0) as [->|]; [done|]. destruct (Z.eqb_spec (coff_type s) 1); [|done].
      rewrite (bind_eq _ _ _ _ _ Hsec). unfold mret, M_ret. do 3 f_equal. lia.
    + rewrite (bind_eq _ _ _ _ _ Hsec). unfold mret, M_ret, place_of. rewrite Ht. cbn. rewrite u32_sub_r. do 3 f_equal. lia.
Qed.

Lemma relocate_one_spec base n secs syms sec r y s :
  linkable n secs syms r y → k_sections s = secs → k_syms s = syms → mapped (k_mem s) (place_of base sec r) 4 →
  ∃ A m', load32 (k_mem s) (place_of base sec r) = Some A ∧
    relocate_one base n sec r s = Done 1 (s <| k_mem := m' |>) ∧
    load32 m' (place_of base sec r) = Some (linked_word (coff_type s) base secs y (place_of base sec r) A r) ∧
    (∀ a, ¬ within (place_of base sec r) 4 a → m' !! a = k_mem s !! a) ∧
    (∀ a k, mapped (k_mem s) a k → mapped m' a k).
Proof.
  intros L Hs Hy Hm. set (P := place_of base sec r) in *. destruct (load32_mapped _ _ Hm) as [A HA].
  set (v := linked_word (coff_type s) base secs y P A r).
  destruct (store32_spec (k_mem s) P v Hm) as (m' & Hst & Hld & Hout & Hkeep). exists A, m'. split; [done|].
  assert (Hv : u32 v = v).
  { subst v. unfold linked_word. destruct (_ =? REL_TYPE_RELATIVE), (from_base (coff_type s) y r); apply Z.mod_mod; lia. }
  rewrite Hv in Hld. split; [|done]. pose proof L as (Ht & Hi & Hyl & _).
  assert (Hplace : ∃ a, reloc_place base sec r s = Done (Some (P, a)) s ∧ (r_type r ≠ REL_TYPE_RELATIVE → a = A)).
  { unfold reloc_place. pose proof (bind_eq (with_mem (λ m, load32 m P)) (λ a, mret (Some (P, a))) s A s (with_mem_at s (λ m, load32 m P) A HA)) as Hload.
    unfold P, place_of in *. destruct Ht as [Ht|[Ht|Ht]]; rewrite Ht in *; cbn in *; [by exists A|by exists A|by exists 0]. }
  destruct Hplace as (a & Hplace & Ha). unfold relocate_one. rewrite (bind_eq _ _ _ _ _ Hplace). cbn beta iota.
  rewrite u32_small by lia. rewrite <- Hy in Hyl. rewrite (bind_eq _ _ _ _ _ (sym_at s _ y (proj1 Hi) Hyl)).
  rewrite (bind_eq _ _ _ _ _ (reloc_value_spec base n secs syms sec r y A a s L Hs Ha)).
  by rewrite (bind_eq _ _ _ _ _ (store_at s (λ m, store32 m P v) m' Hst)).
Qed.

(** ** All of them *)

(** What [rels] do to the memory [m]. *)
Definition linked (ct base n : Z) (secs : list section_info) (syms : list symbol_info) (sec : section_info)
    (rels : list reloc_info) (m m' : memory) : Prop :=
  (∀ r y, r ∈ rels → linkable n secs syms r y → ∃ A, load32 m (place_of base sec r) = Some A ∧
     load32 m' (place_of base sec r) = Some (linked_word ct base secs y (place_of base sec r) A r)) ∧
  (∀ a, (∀ r, r ∈ rels → ¬ within (place_of base sec r) 4 a) → m' !! a = m !! a).

Lemma linkable_unique n secs syms r y y' : linkable n secs syms r y → linkable n secs syms r y' → y = y'.
Proof. intros (_ & _ & E & _) (_ & _ & E' & _). congruence. Qed.

Lemma reloc_at_eq s p l i r : k_relocs s !! p = Some l → 0 ≤ i → l !! Z.to_nat i = Some r → reloc_at p i s = Done r s.
Proof. intros Hp Hi Hr. unfold reloc_at, mbind, M_bind, gets. rewrite Hp. cbn. by rewrite Hr. Qed.

Lemma relocate_all_spec base n secs syms sec rel before rels s :
  k_relocs s !! rel = Some (before ++ rels) → k_sections s = secs → k_syms s = syms →
  (∀ r, r ∈ rels → (∃ y, linkable n secs syms r y) ∧ mapped (k_mem s) (place_of base sec r) 4) →
  (∀ i j r r', rels !! i = Some r → rels !! j = Some r' → i ≠ j → apart (place_of base sec r) (place_of base sec r')) →
  ∃ m', relocate_all (length rels) (Z.of_nat (length before)) base n sec rel s = Done 1 (s <| k_mem := m' |>) ∧
    linked (coff_type s) base n secs syms sec rels (k_mem s) m'.
Proof.
  revert before s. induction rels as [|r rels IH]; intros before s Hrel Hs Hy Hok Hap; cbn [length relocate_all].
  { exists (k_mem s). split; [by destruct s|]. split; [intros r y Hr; by apply elem_of_nil in Hr|done]. }
  destruct (Hok r) as [[y Ly] Hm]; [set_solver|].
  rewrite (bind_eq _ _ _ _ _ (reloc_at_eq s rel _ _ r Hrel (Nat2Z.is_nonneg _)
    ltac:(rewrite Nat2Z.id; by apply list_lookup_middle))).
  destruct (relocate_one_spec base n secs syms sec r y s Ly Hs Hy Hm) as (A & m1 & HA & Hone & Hld & Hout & Hkeep).
  rewrite (bind_eq _ _ _ _ _ Hone). cbn [Z.ltb Z.compare].
  assert (Hapr : ∀ r', r' ∈ rels → apart (place_of base sec r) (place_of base sec r')).
  { intros r' [j Hj]%list_elem_of_lookup. by apply (Hap 0%nat (S j) r r'). }
  destruct (IH (before ++ [r]) (s <| k_mem := m1 |>)) as (m2 & Hall & Hl1 & Hl2); cbn; [|done|done| | |].
  - by rewrite <- app_assoc.
  - intros r' Hr'. destruct (Hok r') as [Hex Hm']; [set_solver|]. split; [done|]. by apply Hkeep.
  - intros i j r1 r2 H1 H2 Hij. apply (Hap (S i) (S j)); [done|done|lia].
  - exists m2. replace (Z.of_nat (length before) + 1) with (Z.of_nat (length (before ++ [r]))) by (rewrite length_app; cbn; lia).
    split; [exact Hall|]. split.
    + intros r' y' [->|Hr']%elem_of_cons Ly'.
      * rewrite (linkable_unique _ _ _ _ _ _ Ly' Ly). exists A. split; [done|]. rewrite <- Hld. apply load32_ext.
        intros a Ha. apply Hl2. intros r' Hr' Hin. specialize (Hapr r' Hr'). unfold apart, within in *. lia.
      * destruct (Hl1 r' y' Hr' Ly') as (A' & HA' & HL'). exists A'. split; [|done]. rewrite <- HA'. symmetry.
        apply load32_ext. intros a Ha. apply Hout. specialize (Hapr r' Hr'). unfold apart, within in *. lia.
    + intros a Ha. rewrite Hl2 by (intros r' Hr'; apply Ha; set_solver). apply Hout, Ha. set_solver.
Qed.

(** C30: Relocating a section of an ELF or COFF file succeeds when its symbols can be
    resolved and the places are in memory and apart: at every place [P], which COFF counts
    from the base of the image and ELF from the section, the word becomes [S + A], or
    [S - P - 4] for a relative one, with [S] the address of the symbol and [A] the word
    before; or [A + base] for an absolute one of a symbol of a COFF file that is not of
    PE. No other byte changes, and the symbols are resolved by relocating section 0. *)
Theorem common_relocate_section_links (base n sect : Z) (s : linker W) (sec : section_info)
    (rels : list reloc_info) (syms : list symbol_info) :
  0 ≤ sect → k_sections s !! Z.to_nat sect = Some sec →
  t_num_symbols (k_tables s) = Z.of_nat (length (k_syms s)) →
  (if sect =? 0 then resolve (k_mem s) (k_calls s) (t_local_bss (k_tables s)) (k_syms s) else Some (k_syms s)) = Some syms →
  k_relocs s !! s_reloc sec = Some rels → u32 (s_num_reloc sec) = Z.of_nat (length rels) →
  (∀ r, r ∈ rels → (∃ y, linkable n (k_sections s) syms r y) ∧ mapped (k_mem s) (place_of base sec r) 4) →
  (∀ i j r r', rels !! i = Some r → rels !! j = Some r' → i ≠ j → apart (place_of base sec r) (place_of base sec r')) →
  wp (common_relocate_section base n sect) (λ res s', res = 1 ∧
    s' = s <| k_syms := syms |> <| k_mem := k_mem s' |> ∧
    (∀ r y, r ∈ rels → linkable n (k_sections s) syms r y → ∃ A, load32 (k_mem s) (place_of base sec r) = Some A ∧
       load32 (k_mem s') (place_of base sec r) =
         Some (linked_word (coff_type s) base (k_sections s) y (place_of base sec r) A r)) ∧
    (∀ a, (∀ r, r ∈ rels → ¬ within (place_of base sec r) 4 a) → k_mem s' !! a = k_mem s !! a)) s.
Proof.
  intros Hi Hsec Hn Hres Hrel Hnum Hok Hap. unfold common_relocate_section, tables.
  apply wp_bind, wp_gets, wp_bind. eapply wp_of_done; [by apply section_at|].
  set (s1 := s <| k_syms := syms |>).
  assert (Hset : (if sect =? 0 then setup_symbols (Z.to_nat (t_num_symbols (k_tables s))) 0 (t_local_bss (k_tables s))
                  else mret 1) s = Done 1 s1).
  { destruct (sect =? 0).
    - rewrite Hn, Nat2Z.id. exact (setup_symbols_spec [] (k_syms s) syms _ s eq_refl Hres).
    - injection Hres as <-. subst s1. by destruct s. }
  apply wp_bind. eapply wp_of_done; [exact Hset|]. cbn [Z.ltb Z.compare].
  apply wp_bind. eapply wp_of_done; [by apply section_at|].
  destruct (relocate_all_spec base n (k_sections s) syms sec (s_reloc sec) [] rels s1) as (m' & Hall & L1 & L2); try done.
  rewrite Hnum, Nat2Z.id. eapply wp_of_done; [exact Hall|]. done.
Qed.
End links.

(** What the linker relies on of the file it loads, as an interface, and the image of
    a relocatable file, proved against it. *)
Module LoadSpec.
(** The file [f] has the contents [data]: [file_at w p] is a world in which it is
    positioned at [p]. Memory that is allocated does not pass the end of the address
    space, and neither memory nor libraries move the file. *)
Class FileOf (W : Type) `{KernFuncs W} (f : Z) (data : bytes) := {
  file_at : W → Z → Prop;
  file_at_range w p : file_at w p → 0 ≤ p ≤ Z.of_nat (length data);
  file_at_seek w p q : file_at w p → 0 ≤ q ≤ Z.of_nat (length data) →
    ∃ w', file_seek f q seek_set w = (q, w') ∧ file_at w' q;
  file_at_tell w p : file_at w p → ∃ w', file_seek f 0 seek_cur w = (p, w') ∧ file_at w' p;
  file_at_read w p n : file_at w p → 0 ≤ n < 2 ^ 31 →
    let k := Z.min n (Z.of_nat (length data) - p) in
    ∃ w', file_read f n w = ((k, slice data p k), w') ∧ file_at w' (p + k);
  file_at_alloc w p n : file_at w p → file_at (mem_alloc n w).2 p;
  alloc_range w n : 0 ≤ n → 0 ≤ (mem_alloc n w).1 ∧ ((mem_alloc n w).1 ≠ 0 → (mem_alloc n w).1 + n ≤ 2 ^ 32) }.

(** * Contents of memory *)

(** From the address [q] on the memory holds [img]. *)
Definition holds (m : memory) (q : Z) (img : bytes) : Prop :=
  ∀ j, (j < length img)%nat → m !! (q + Z.of_nat j) = img !! j.

Lemma holds_mapped m q img : holds m q img → mapped m q (Z.of_nat (length img)).
Proof.
  intros Hh i Hi. unfold within in Hi. replace i with (q + Z.of_nat (Z.to_nat (i - q))) by lia.
  rewrite Hh by lia. apply lookup_lt_is_Some_2. lia.
Qed.

Lemma holds_store m q img off bs : holds m q img → 0 ≤ off → off + Z.of_nat (length bs) ≤ Z.of_nat (length img) →
  ∃ m', store_bytes m (q + off) bs = Some m' ∧ holds m' q (poke img off bs) ∧
    (∀ i, ¬ within q (Z.of_nat (length img)) i → m' !! i = m !! i).
Proof.
  intros Hh Hoff Hlen. destruct (store_bytes_spec m (q + off) bs) as (m' & Hst & Hl).
  { eapply mapped_part; [by apply holds_mapped|lia|lia]. }
  exists m'. split_and!; [done| |].
  - intros j Hj. rewrite length_poke in Hj by lia. rewrite Hl, lookup_poke by lia. unfold within.
    destruct (decide (off ≤ Z.of_nat j < off + Z.of_nat (length bs))).
    + rewrite decide_True by lia. f_equal. lia.
    + rewrite decide_False by lia. by apply Hh.
  - intros i Hi. rewrite Hl, decide_False; [done|]. unfold within in *. lia.
Qed.

Lemma holds_load m q img : holds m q img → load_bytes m q (length img) = Some img.
Proof. intros Hh. apply load_bytes_spec. by split. Qed.

Lemma poke_zeroes a bs n : Z.of_nat (length bs) ≤ n →
  poke (a ++ zeroes n) (Z.of_nat (length a)) bs = (a ++ bs) ++ zeroes (n - Z.of_nat (length bs)).
Proof.
  intros H. unfold poke, zeroes. rewrite Nat2Z.id, take_app_length, <- app_assoc. do 2 f_equal.
  rewrite drop_app_ge by lia. rewrite drop_replicate. f_equal. lia.
Qed.

(** * The image of a relocatable file *)

Section image.
Context (data : bytes) (offset : Z).

(** A section that can be loaded; its contents, what is not in the file being zero. *)
Definition loadable (sec : section_info) : Prop :=
  0 ≤ s_filesize sec ≤ s_size sec ∧ 0 ≤ s_fileptr sec ∧
  offset + s_fileptr sec + s_filesize sec ≤ Z.of_nat (length data) ∧ Z.of_nat (length data) < 2 ^ 31.
Definition section_bytes (sec : section_info) : bytes :=
  slice data (offset + s_fileptr sec) (s_filesize sec) ++ zeroes (s_size sec - s_filesize sec).
Definition sizes (secs : list section_info) : Z := foldr (λ sec n, s_size sec + n) 0 secs.

(** The sections one after the other from [off] on; an empty one keeps its base. *)
Fixpoint placed (off : Z) (secs : list section_info) : list section_info :=
  match secs with
  | [] => []
  | sec :: secs =>
      (if s_size sec =? 0 then sec else sec <| s_base := off |>) :: placed (off + s_size sec) secs
  end.
Definition image (secs : list section_info) : bytes := concat (map section_bytes secs).

Lemma length_section_bytes sec : 0 ≤ offset → loadable sec → Z.of_nat (length (section_bytes sec)) = s_size sec.
Proof.
  intros Ho (H1 & H2 & H3 & _). unfold section_bytes, zeroes. rewrite length_app, length_replicate, Nat2Z.inj_add.
  rewrite length_slice by lia. lia.
Qed.
Lemma length_image secs : 0 ≤ offset → Forall loadable secs → Z.of_nat (length (image secs)) = sizes secs.
Proof.
  intros Ho. unfold image. induction 1 as [|sec secs Hs _ IH]; cbn; [done|]. rewrite length_app, Nat2Z.inj_add, IH.
  by rewrite length_section_bytes.
Qed.
Lemma sizes_nonneg secs : Forall loadable secs → 0 ≤ sizes secs.
Proof. unfold sizes. induction 1 as [|sec secs (Hs & _) _ IH]; cbn; lia. Qed.
Lemma sizes_pos l : Forall (λ x, 0 ≤ s_size x) l → 0 ≤ sizes l.
Proof. unfold sizes. induction 1; cbn; lia. Qed.
Lemma sizes_app l1 l2 : sizes (l1 ++ l2) = sizes l1 + sizes l2.
Proof. unfold sizes. induction l1 as [|x l IH]; cbn; lia. Qed.
End image.

Section loading.
Context {W : Type} {KF : KernFuncs W} (f : Z) (data : bytes) {FO : FileOf W f data}.
Implicit Types s : linker W.

(** The state after the file has been used: the position of the file may differ. *)
Lemma seek_from_at s p q : file_at (k_world s) p → 0 ≤ file_offset s + q ≤ Z.of_nat (length data) →
  Z.of_nat (length data) < 2 ^ 31 →
  ∃ w', seek_from f q s = Done (file_offset s + q) (s <| k_world := w' |>) ∧ file_at w' (file_offset s + q).
Proof.
  intros Hp Hq Hlen. destruct (file_at_seek _ _ _ Hp Hq) as (w' & Hw & Hat). exists w'. split; [|done].
  unfold seek_from, seek, lcall, mbind, M_bind, gets. rewrite s32_small by lia. by rewrite Hw.
Qed.

Lemma read_to_at s p q n m' : file_at (k_world s) p → 0 ≤ n → p + n ≤ Z.of_nat (length data) →
  Z.of_nat (length data) < 2 ^ 31 → store_bytes (k_mem s) q (slice data p n) = Some m' →
  ∃ w', read_to f q n s = Done n (s <| k_world := w' |> <| k_mem := m' |>) ∧ file_at w' (p + n).
Proof.
  intros Hp Hn Hlen H31 Hst. destruct (file_at_read _ _ n Hp) as (w' & Hw & Hat); [pose proof (file_at_range _ _ Hp); lia|].
  pose proof (file_at_range _ _ Hp). rewrite Z.min_l in Hw, Hat by lia. exists w'. split; [|done].
  unfold read_to. rewrite s32_small by lia. unfold lcall at 1, mbind, M_bind, gets. rewrite Hw.
  unfold modify at 1, mret, M_ret. cbn. unfold store, with_mem, mbind, M_bind, gets. cbn. by rewrite Hst.
Qed.

Lemma sum_sizes_spec s done todo :
  k_sections s = done ++ todo → 0 ≤ sizes done → Forall (λ x, 0 ≤ s_size x) todo → sizes (done ++ todo) < 2 ^ 32 →
  sum_sizes (length todo) (Z.of_nat (length done)) (sizes done) s = Done (sizes (done ++ todo)) s.
Proof.
  revert done. induction todo as [|x todo IH]; intros done Hs Hd Hf Hlt; cbn [length sum_sizes].
  { by rewrite app_nil_r. }
  apply Forall_cons in Hf as [Hx Hf].
  assert (Hsnoc : sizes (done ++ [x]) = sizes done + s_size x) by (rewrite sizes_app; unfold sizes; cbn; lia).
  assert (Hpos : 0 ≤ sizes todo) by by apply sizes_pos.
  assert (Hall : sizes (done ++ x :: todo) = sizes done + (s_size x + sizes todo)) by apply sizes_app.
  rewrite (bind_eq _ _ _ _ _ (section_at s _ x (Nat2Z.is_nonneg _) ltac:(rewrite Hs, Nat2Z.id; by apply list_lookup_middle))).
  replace (Z.of_nat (length done) + 1) with (Z.of_nat (length (done ++ [x]))) by (rewrite length_app; cbn; lia).
  rewrite u32_small by lia. rewrite <- Hsnoc. replace (done ++ x :: todo) with ((done ++ [x]) ++ todo) by by rewrite <- app_assoc.
  apply IH; [by rewrite <- app_assoc|lia|done|by rewrite <- app_assoc].
Qed.

(** Reading the contents of one section to its place. *)
Lemma read_section_spec s p q img rest sec :
  file_at (k_world s) p → 0 ≤ file_offset s → loadable data (file_offset s) sec →
  0 ≤ q → s_size sec ≤ rest → holds (k_mem s) q (img ++ zeroes rest) →
  ∃ w' p' m', (seek_from f (s_fileptr sec);;
      (if 0 <? s_filesize sec then read_to f (q + Z.of_nat (length img)) (s_filesize sec);; mret () else mret ())) s =
      Done tt (s <| k_world := w' |> <| k_mem := m' |>) ∧ file_at w' p' ∧
    holds m' q ((img ++ section_bytes data (file_offset s) sec) ++ zeroes (rest - s_size sec)) ∧
    (∀ i, ¬ within q (Z.of_nat (length img) + rest) i → m' !! i = k_mem s !! i).
Proof.
  intros Hat Ho (Hfs & Hfp & Hin & H31) Hq Hrest Hh.
  destruct (seek_from_at s p (s_fileptr sec) Hat ltac:(lia) H31) as (w1 & Hseek & Hat1).
  rewrite (bind_eq _ _ _ _ _ Hseek). set (bs := slice data (file_offset s + s_fileptr sec) (s_filesize sec)).
  assert (Hbs : Z.of_nat (length bs) = s_filesize sec) by (apply length_slice; lia).
  assert (Hlen : Z.of_nat (length (img ++ zeroes rest)) = Z.of_nat (length img) + rest).
  { unfold zeroes. rewrite length_app, length_replicate. lia. }
  assert (Himg : (img ++ bs) ++ zeroes (rest - Z.of_nat (length bs)) =
                 (img ++ section_bytes data (file_offset s) sec) ++ zeroes (rest - s_size sec)).
  { unfold section_bytes, zeroes. fold bs. rewrite <- !app_assoc, <- replicate_add. do 3 f_equal. lia. }
  destruct (holds_store _ _ _ (Z.of_nat (length img)) bs Hh) as (m' & Hst & Hh' & Hout); [lia|lia|].
  rewrite poke_zeroes, Himg in Hh' by lia. rewrite Hlen in Hout.
  destruct (Z.ltb_spec 0 (s_filesize sec)) as [Hpos|Hzero].
  - destruct (read_to_at (s <| k_world := w1 |>) (file_offset s + s_fileptr sec) (q + Z.of_nat (length img))
      (s_filesize sec) m') as (w2 & Hread & Hat2); [exact Hat1|lia|exact Hin|exact H31|exact Hst|].
    exists w2, (file_offset s + s_fileptr sec + s_filesize sec), m'.
    rewrite (bind_eq _ _ _ _ _ Hread). split_and!; [reflexivity|exact Hat2|exact Hh'|exact Hout].
  - assert (Hnil : bs = []) by (destruct bs; [done|cbn in Hbs; lia]).
    exists w1, (file_offset s + s_fileptr sec), (k_mem s). split_and!; [by destruct s|done| |done].
    rewrite <- Himg, Hnil, app_nil_r. cbn [length]. by rewrite Z.sub_0_r.
Qed.

Lemma load_sections_spec todo : ∀ done img rest q s p,
  k_sections s = done ++ todo → file_at (k_world s) p → 0 ≤ file_offset s →
  Forall (loadable data (file_offset s)) todo → 0 < q → q + Z.of_nat (length img) + rest ≤ 2 ^ 32 →
  sizes todo ≤ rest → holds (k_mem s) q (img ++ zeroes rest) →
  ∃ w' p' m', load_relocatable_sections (length todo) (Z.of_nat (length done)) f q (Z.of_nat (length img)) s =
      Done tt (s <| k_world := w' |> <| k_mem := m' |> <| k_sections := done ++ placed (Z.of_nat (length img)) todo |>) ∧
    file_at w' p' ∧
    holds m' q ((img ++ image data (file_offset s) todo) ++ zeroes (rest - sizes todo)) ∧
    (∀ i, ¬ within q (Z.of_nat (length img) + rest) i → m' !! i = k_mem s !! i).
Proof.
  induction todo as [|sec todo IH]; intros done img rest q s p Hs Hat Ho Hf Hq Hmax Hrest Hh.
  { exists (k_world s), p, (k_mem s). cbn [placed length load_relocatable_sections]. rewrite app_nil_r in *. cbn.
    rewrite app_nil_r, Z.sub_0_r. split_and!; try done. rewrite <- Hs. by destruct s. }
  apply Forall_cons in Hf as [Hsec Hf]. pose proof (sizes_nonneg _ _ _ Hf) as Hpos.
  assert (Hsz : sizes (sec :: todo) = s_size sec + sizes todo) by done.
  pose proof (length_section_bytes _ _ _ Ho Hsec) as Hlen. pose proof Hsec as (Hfs & _).
  assert (Hget : k_sections s !! Z.to_nat (Z.of_nat (length done)) = Some sec).
  { rewrite Hs, Nat2Z.id. by apply list_lookup_middle. }
  cbn [length load_relocatable_sections]. rewrite (bind_eq _ _ _ _ _ (section_at s _ sec (Nat2Z.is_nonneg _) Hget)).
  cbn [placed]. replace (Z.of_nat (length done) + 1) with (Z.of_nat (length (done ++ [sec]))) by (rewrite length_app; cbn; lia).
  destruct (Z.eqb_spec (s_size sec) 0) as [Hzero|Hnz]; cbn [negb].
  - destruct (IH (done ++ [sec]) img rest q s p) as (w' & p' & m' & Hload & Hat' & Hh' & Hout); try done.
    { by rewrite <- app_assoc. } { lia. }
    exists w', p', m'. rewrite Hload. split_and!; [by rewrite <- app_assoc, Hzero, Z.add_0_r|done| |done].
    cbn [image map concat]. rewrite Hsz, Hzero in *. rewrite Z.add_0_l.
    assert (section_bytes data (file_offset s) sec = []) as -> by (destruct (section_bytes _ _ _); [done|cbn in Hlen; lia]).
    done.
  - rewrite u32_small by lia. rewrite u32_small by lia.
    set (sec' := sec <| s_base := Z.of_nat (length img) |>).
    rewrite (bind_eq _ _ _ _ _ (set_section_at s _ sec _ (Nat2Z.is_nonneg _) Hget)).
    set (s1 := s <| k_sections := _ |>).
    assert (Hs1 : k_sections s1 = (done ++ [sec']) ++ todo).
    { subst s1. cbn. rewrite Hs, Nat2Z.id, <- app_assoc, insert_app_r_alt by lia. by rewrite Nat.sub_diag. }
    destruct (read_section_spec s1 p q img rest sec) as (w1 & p1 & m1 & Hread & Hat1 & Hh1 & Hout1); try done; [lia|lia|].
    rewrite (bind_assoc_eq (seek_from f (s_fileptr sec))). rewrite (bind_eq _ _ _ _ _ Hread).
    set (s2 := s1 <| k_world := w1 |> <| k_mem := m1 |>).
    assert (Hoff : Z.of_nat (length (img ++ section_bytes data (file_offset s) sec)) = Z.of_nat (length img) + s_size sec).
    { rewrite length_app, Nat2Z.inj_add. by rewrite Hlen. }
    destruct (IH (done ++ [sec']) (img ++ section_bytes data (file_offset s) sec) (rest - s_size sec) q s2 p1)
      as (w2 & p2 & m2 & Hload & Hat2 & Hh2 & Hout2); [exact Hs1|exact Hat1|done|exact Hf|done|lia|lia|exact Hh1|].
    rewrite Hoff in Hload, Hout2. replace (length (done ++ [sec'])) with (length (done ++ [sec])) in Hload
      by (by rewrite !length_app). exists w2, p2, m2. rewrite Hload. split_and!.
    + cbn. by rewrite <- app_assoc.
    + exact Hat2.
    + cbn [image map concat]. rewrite app_assoc, Hsz, Z.sub_add_distr. exact Hh2.
    + intros i Hi. rewrite Hout2; [apply Hout1, Hi|]. unfold within in *. lia.
Qed.

(** The block cleared, and the sections read into it. *)
Lemma load_cleared s p q total :
  file_at (k_world s) p → 0 ≤ file_offset s → Forall (loadable data (file_offset s)) (k_sections s) →
  0 < q → q + total ≤ 2 ^ 32 → sizes (k_sections s) ≤ total → mapped (k_mem s) q total →
  ∃ w' m', (clear q total;; load_relocatable_sections (length (k_sections s)) 0 f q 0) s =
      Done tt (s <| k_world := w' |> <| k_mem := m' |> <| k_sections := placed 0 (k_sections s) |>) ∧
    load_bytes m' q (Z.to_nat total) =
      Some (image data (file_offset s) (k_sections s) ++ zeroes (total - sizes (k_sections s))) ∧
    (∀ i, ¬ within q total i → m' !! i = k_mem s !! i).
Proof.
  intros Hat Ho Hf Hq Hmax Htot Hmap. pose proof (sizes_nonneg _ _ _ Hf) as Hpos.
  destruct (store_bytes_spec (k_mem s) q (zeroes total)) as (m2 & Hst & Hl).
  { unfold zeroes. by rewrite length_replicate, Z2Nat.id by lia. }
  unfold zeroes in Hl. rewrite length_replicate, Z2Nat.id in Hl by lia. fold (zeroes total) in Hl.
  set (s2 := s <| k_mem := m2 |>). assert (Hclear : clear q total s = Done tt s2) by by apply store_at.
  destruct (load_sections_spec (k_sections s2) [] [] total q s2 p) as (w4 & m4' & m4 & Hload & _ & Hh & Hout);
    [done|exact Hat|exact Ho|exact Hf|lia|cbn [length]; lia|change (k_sections s2) with (k_sections s); lia| |].
  { intros j Hj. cbn [app] in *. unfold zeroes in Hj. rewrite length_replicate in Hj. cbn.
    rewrite Hl, decide_True by (unfold within; lia). f_equal. lia. }
  change (file_offset s2) with (file_offset s) in Hh. change (k_sections s2) with (k_sections s) in Hh.
  cbn [app] in Hh. assert (Hlen : Z.of_nat (length (image data (file_offset s) (k_sections s))) = sizes (k_sections s)).
  { by apply length_image. }
  exists w4, m4. rewrite (bind_eq _ _ _ _ _ Hclear). split_and!; [exact Hload| |].
  - apply holds_load in Hh. rewrite <- Hh. f_equal. unfold zeroes. rewrite length_app, length_replicate. lia.
  - intros i Hi. cbn in Hout. rewrite Hout by exact Hi. by rewrite Hl, decide_False by exact Hi.
Qed.

(** C29: A relocatable file is loaded in one block: the contents of its sections one
    after the other, with zeroes where the file has none, then room for the common
    symbols, zero as well. The bases of the sections become their offsets. Memory
    outside the block is as before; without memory nothing is loaded. *)
Theorem common_load_relocatable_image (s : linker W) (p : Z) :
  file_at (k_world s) p → 0 ≤ file_offset s → Forall (loadable data (file_offset s)) (k_sections s) →
  0 ≤ t_local_bss_size (k_tables s) → sizes (k_sections s) + t_local_bss_size (k_tables s) < 2 ^ 32 →
  let total := sizes (k_sections s) + t_local_bss_size (k_tables s) in
  wp (common_load_relocatable f (Z.of_nat (length (k_sections s)))) (λ r s',
    r = (0, 0) ∧ k_sections s' = k_sections s ∧ k_mem s' = k_mem s ∨
    ∃ q, r = (q, total) ∧ 0 < q ∧ q + total ≤ 2 ^ 32 ∧
      k_sections s' = placed 0 (k_sections s) ∧
      load_bytes (k_mem s') q (Z.to_nat total) =
        Some (image data (file_offset s) (k_sections s) ++ zeroes (t_local_bss_size (k_tables s))) ∧
      (t_local_bss_size (k_tables s) ≠ 0 → t_local_bss (k_tables s') = q + sizes (k_sections s)) ∧
      (∀ i, ¬ within q total i → k_mem s' !! i = k_mem s !! i)) s.
Proof.
  intros Hat Ho Hf Hbss Htot total. pose proof (sizes_nonneg _ _ _ Hf) as Hpos.
  unfold common_load_relocatable. apply wp_bind. rewrite Nat2Z.id.
  assert (Hsizes : Forall (λ x, 0 ≤ s_size x) (k_sections s)).
  { eapply Forall_impl; [exact Hf|]. intros x (Hx & _). lia. }
  eapply wp_of_done; [apply (sum_sizes_spec s [] (k_sections s) eq_refl); [done|done|cbn [app]; lia]|].
  cbn [app]. apply wp_bind, wp_gets. rewrite u32_small by lia. fold total.
  unfold alloc_bytes, alloc, lcall. rewrite u32_small by lia.
  apply wp_bind, wp_bind, wp_bind, wp_gets, wp_bind, wp_modify, wp_ret.
  destruct (alloc_range (k_world s) total ltac:(lia)) as [Hq0 Hqmax].
  pose proof (file_at_alloc (k_world s) p total Hat) as Hat1.
  destruct (mem_alloc total (k_world s)) as [q w1]. cbn [fst snd] in *.
  destruct (Z.eqb_spec q 0) as [->|Hq].
  { apply wp_bind, wp_ret, wp_ret. apply wp_bind. destruct (negb _); apply wp_modify, wp_ret; by left. }
  specialize (Hqmax Hq). apply wp_bind, wp_modify, wp_ret.
  set (m1 := make_bytes _ _ _ _). apply wp_bind.
  set (s1 := s <| k_world := w1 |> <| k_mem := m1 |>).
  assert (Hend : ∀ t', ∃ w' m', (clear q total;; load_relocatable_sections (length (k_sections s)) 0 f q 0)
      (s1 <| k_tables := t' |>) =
      Done tt (s1 <| k_tables := t' |> <| k_world := w' |> <| k_mem := m' |> <| k_sections := placed 0 (k_sections s) |>) ∧
    load_bytes m' q (Z.to_nat total) =
      Some (image data (file_offset s) (k_sections s) ++ zeroes (total - sizes (k_sections s))) ∧
    (∀ i, ¬ within q total i → m' !! i = k_mem s !! i)).
  { intros t'. destruct (load_cleared (s1 <| k_tables := t' |>) p q total) as (w' & m' & Hload & Himg & Hout);
      [exact Hat1|exact Ho|exact Hf|lia|lia|change (sizes (k_sections s) ≤ total); lia|apply make_bytes_mapped|].
    exists w', m'. split_and!; [exact Hload|exact Himg|]. intros i Hi. rewrite Hout by exact Hi. cbn.
    unfold m1. by rewrite make_bytes_lookup, decide_False by exact Hi. }
  replace (total - sizes (k_sections s)) with (t_local_bss_size (k_tables s)) in Hend by (unfold total; lia).
  destruct (Z.eqb_spec (t_local_bss_size (k_tables s)) 0) as [E|E]; cbn [negb]; apply wp_modify;
    rewrite (proj2 (Z.eqb_neq _ _) Hq).
  - destruct (Hend ((k_tables s1) <| t_local_bss := 0 |>)) as (w' & m' & Hload & Himg & Hout).
    unfold wp. rewrite bind_assoc_eq. rewrite (bind_eq _ _ _ _ _ Hload). right. exists q. by split_and!; try lia.
  - destruct (Hend ((k_tables s1) <| t_local_bss := u32 (q + total - t_local_bss_size (k_tables s)) |>))
      as (w' & m' & Hload & Himg & Hout).
    unfold wp. rewrite bind_assoc_eq. rewrite (bind_eq _ _ _ _ _ Hload). right. exists q.
    split_and!; try done; try lia. intros _. cbn. rewrite u32_small; unfold total; lia.
Qed.
End loading.
End LoadSpec.
