(* ===== verification/Modules.v ===== *)
(** The modules loaded with the kernel: the pseudo file system of [boot/modfs.c], the
    processing of the modules of [boot/modules.c], and the release of their memory
    ([mem_release_module] of [boot/mem.c]). *)
From S2P Require Import Prelude Errno ByteMem Devices Syscalls Dynalink Elf Coff Pei Exec.
(** * The pseudo file system *)

(** [struct mods_struct]. *)
Record mods_struct := mkMods { mod_start : Z; mod_end : Z; mod_string : bytes }.

(** The table of modules, the static data of [modfs.c], and the memory the modules are
    in. *)
Record modfs := mkModfs {
  mods : list mods_struct;
  m_start : Z;
  m_end : Z;
  m_pointer : Z;
  m_count : Z;
  m_byte : Z → Z }.
#[export] Instance modfs_eta : Eta modfs := λ r,
  mkModfs (mods r) (m_start r) (m_end r) (m_pointer r) (m_count r) (m_byte r).

Definition module_address (l : list mods_struct) (i : Z) : option (Z * Z) :=
  x ← (if i <? 0 then None else l !! Z.to_nat i); Some (mod_start x, mod_end x).
Definition module_cl (l : list mods_struct) (i : Z) : option bytes :=
  x ← (if i <? 0 then None else l !! Z.to_nat i); Some (mod_string x).

(** The end is not passed; what is read starts at the pointer. *)
Definition modfs_read (size : Z) (s : modfs) : (Z * bytes) * modfs :=
  let len := if m_end s <? u32 (m_pointer s + size) then s32 (m_end s - m_pointer s) else size in
  ((len, map (m_byte s) (seqZ (m_pointer s) len)), s <| m_pointer := u32 (m_pointer s + len) |>).

Definition modfs_seek (pos wence : Z) (s : modfs) : Z * modfs :=
  let res :=
    if wence =? 0 then pos
    else if wence =? 1 then s32 (m_pointer s + pos - m_start s)
    else if wence =? 2 then
      if u32 (m_end s - m_start s) <? u32 pos then 0 else s32 (m_end s - m_start s - pos)
    else s32 (m_pointer s - m_start s) in
  let res := if m_end s <? u32 (m_start s + res) then s32 (m_end s - m_start s) else res in
  (res, s <| m_pointer := u32 (m_start s + res) |>).

Definition modfs_size (s : modfs) : Z := s32 (m_end s - m_start s).

Definition modfs_open (mod_index : Z) (s : modfs) : option modfs :=
  a ← module_address (mods s) mod_index;
  Some (s <| m_start := fst a |> <| m_end := snd a |> <| m_pointer := fst a |>).

(** What uninitialised data are, a library and the memory, beside the modules. *)
Class KernelRest (A : Type) := {
  rest_memory :: KernelMemory A;
  rest_region : Z → Z → A → Z * A;
  rest_get_dll : bytes → A → option (list symbol) * A;
  rest_add_dll : bytes → Z → list (Z * Z) → A → Z * A;
  rest_byte : A → Z → Z;
  rest_local : A → Z → Z;
  rest_tables : A → table_info;
  rest_section : A → Z → section_info;
  rest_symbol : A → Z → symbol_info;
  rest_reloc : A → Z → reloc_info;
  rest_pei : A → pei_extra_info }.

Definition on_fst {A B C} (f : A → C * A) (w : A * B) : C * (A * B) :=
  let '(c, a) := f (fst w) in (c, (a, snd w)).
Definition on_snd {A B C} (f : B → C * B) (w : A * B) : C * (A * B) :=
  let '(c, b) := f (snd w) in (c, (fst w, b)).

(** [modfs_init] and the rest of [kf] as [process_modules] sets it: the files are the
    modules. *)
#[export] Instance modules_kern_funcs {A} `{KernelRest A} : KernFuncs (modfs * A) := {|
  file_read _ n := on_fst (modfs_read n);
  file_seek _ p wh := on_fst (modfs_seek p wh);
  mem_alloc n := on_snd (kmem_get n);
  mem_alloc_region a n := on_snd (rest_region a n);
  Dynalink.mem_free a n := on_snd (kmem_free a n);
  get_dll_table n := on_snd (rest_get_dll n);
  add_dll_table n h l := on_snd (rest_add_dll n h l);
  stale_byte w := rest_byte (snd w);
  stale_local w := rest_local (snd w);
  stale_tables w := rest_tables (snd w);
  stale_section w := rest_section (snd w);
  stale_symbol w := rest_symbol (snd w);
  stale_reloc w := rest_reloc (snd w);
  stale_pei w := rest_pei (snd w) |}.

(** * Processing the modules *)

(** Up to the first space, and the rest when there is a space. *)
Fixpoint split_args (l : bytes) : bytes * option bytes :=
  match l with
  | [] => ([], None)
  | c :: l => if c =? 32 then ([], Some l) else let '(a, r) := split_args l in (c :: a, r)
  end.

Definition isalpha (c : Z) : bool := ((65 <=? c) && (c <=? 90)) || ((97 <=? c) && (c <=? 122)).
Definition isdigit (c : Z) : bool := (48 <=? c) && (c <=? 57).

(** The name of a boot loader's drive, [(xdN,N)] or [(xdN)], becomes a letter and a
    colon; [get_letter] is [fd32_get_drive_letter], 0 when there is no such drive. *)
Definition dos_drive_name (get_letter : bytes → Z) (l : bytes) : bytes :=
  match l with
  | p :: x :: d :: n :: c :: rest =>
      if (p =? 40) && isalpha x && (d =? 100) && isdigit n then
        match rest with
        | k :: q :: rest' =>
            if (c =? 44) && isdigit k && (q =? 41) then
              get_letter [x; d; u8 (n + (97 - 48)); u8 (k + 1)] :: 58 :: rest'
            else if c =? 41 then get_letter [x; d; n] :: 58 :: rest
            else l
        | _ => if c =? 41 then get_letter [x; d; n] :: 58 :: rest else l
        end
      else l
  | _ => l
  end.

Section modules.
Context {A : Type} `{KernelRest A}.
Notation W := (modfs * A)%type.
Notation LM := (M (linker W)).

(** [while ((!done) && (res == 256))]: a character is a signed byte. *)
Definition is_text_char (c : Z) : bool := negb ((c <? 32) || (127 <? c)) || (c =? 13) || (c =? 10) || (c =? 9).
Fixpoint istext_loop (n : nat) (f : Z) : LM bool :=
  match n with
  | O => nofuel
  | S n =>
      r ← lcall (file_read f 256);
      if forallb is_text_char (snd r) then if fst r =? 256 then istext_loop n f else mret true
      else mret false
  end.
Definition istext (fuel : nat) (f : Z) : LM bool := istext_loop fuel f.

(** What is printed: a read of 255 bytes is the last, since it is not of 256. *)
Fixpoint ascii_loop (n : nat) (f : Z) : LM bytes :=
  match n with
  | O => nofuel
  | S n =>
      r ← lcall (file_read f 255);
      l ← (if fst r =? 256 then ascii_loop n f else mret []);
      mret (snd r ++ l)
  end.
Definition process_ascii_module (fuel : nat) (f : Z) : LM bytes := ascii_loop fuel f.

(** The region of memory a module gives back: up to the next module. *)
Definition next_module (l : list mods_struct) (me : Z) : Z :=
  foldl (λ nms x, if nms =? 0 then if me <=? mod_start x then mod_start x else nms
                  else if (me <=? mod_start x) && (mod_start x <? nms) then mod_start x else nms) 0 l.
Definition mem_release_module (l : list mods_struct) (m : Z) : option (Z * Z) :=
  a ← module_address l m;
  let nms := next_module l (snd a) in
  let nms := if nms =? 0 then snd a else nms in
  Some (fst a, u32 (nms - fst a)).

(** [exec]: [binfmt[j].exec(&kf, i, &rf, command_line, args)]; [release]:
    [pmm_add_region(&high_mem_pool, start, size)]; [get_letter] as above. *)
Context (exec : Z → Z → read_funcs W → bytes → option bytes → LM Z) (release : Z → Z → A → A) (get_letter : bytes → Z).

Definition process_module (fuel : nat) (formats : list bin_format) (i : Z) : LM () :=
  w ← gets k_world;
  fs ← deref (modfs_open i (fst w));
  modify (λ s, s <| k_world := (fs, snd w) |>);;
  cl ← deref (module_cl (mods fs) i);
  modify (λ s, s <| file_offset := 0 |>);;
  let '(command_line, args) := split_args cl in
  let command_line := dos_drive_name get_letter command_line in
  r ← check_formats formats i;
  match r with
  | Some (b, rf) => exec (bf_exec b) i rf command_line args;; mret ()
  | None => text ← istext fuel i; if (text : bool) then process_ascii_module fuel i;; mret () else mret ()
  end;;
  region ← deref (mem_release_module (mods fs) i);
  modify (λ s, s <| k_world ::= λ w, (fst w, release (fst region) (snd region) (snd w)) |>).

Fixpoint process_modules_from (n : nat) (fuel : nat) (formats : list bin_format) (i : Z) : LM () :=
  match n with
  | O => mret ()
  | S n => process_module fuel formats i;; process_modules_from n fuel formats (i + 1)
  end.
Definition process_modules (fuel : nat) (formats : list bin_format) (mods_count : Z) : LM () :=
  process_modules_from (Z.to_nat mods_count) fuel formats 0.
End modules.

From S2P Require Import DynalinkSpec.

(** Modules as files, proved: the pseudo file system reads and seeks in the contents of
    a module, so that it is what the linker relies on; texts are recognised. *)
Module ModulesSpec.
Import LoadSpec.

(** * The specification: a file of bytes and a position *)

Inductive file_op := Read (n : Z) | Seek (q whence : Z).

(** Positions are from the start, from the position, and before the end. *)
Definition file_ok (pos : Z) (o : file_op) : Prop :=
  match o with
  | Read n => 0 ≤ n < 2 ^ 31
  | Seek q wh => - 2 ^ 31 < q < 2 ^ 31 ∧ (wh = 0 → 0 ≤ q) ∧ (wh = 1 → 0 ≤ pos + q < 2 ^ 31) ∧ (wh = 2 → 0 ≤ q)
  end.
Definition file_step (data : bytes) (pos : Z) (o : file_op) : (Z * bytes) * Z :=
  let len := Z.of_nat (length data) in
  match o with
  | Read n => let k := Z.min n (len - pos) in ((k, slice data pos k), pos + k)
  | Seek q wh =>
      let p := if wh =? 0 then Z.min q len else if wh =? 1 then Z.min (pos + q) len
               else if wh =? 2 then Z.max 0 (len - q) else pos in
      ((p, []), p)
  end.
Fixpoint file_steps (data : bytes) (pos : Z) (l : list file_op) : list (Z * bytes) :=
  match l with
  | [] => []
  | o :: l => let '(r, p) := file_step data pos o in r :: file_steps data p l
  end.
Fixpoint files_ok (data : bytes) (pos : Z) (l : list file_op) : Prop :=
  match l with
  | [] => True
  | o :: l => file_ok pos o ∧ files_ok data (file_step data pos o).2 l
  end.

Definition modfs_step (o : file_op) (s : modfs) : (Z * bytes) * modfs :=
  match o with
  | Read n => modfs_read n s
  | Seek q wh => let '(p, s) := modfs_seek q wh s in ((p, []), s)
  end.
Fixpoint modfs_steps (l : list file_op) (s : modfs) : list (Z * bytes) :=
  match l with
  | [] => []
  | o :: l => let '(r, s) := modfs_step o s in r :: modfs_steps l s
  end.

(** The contents of a module. *)
Definition module_bytes (byte : Z → Z) (st en : Z) : bytes := map byte (seqZ st (en - st)).

Section modfs.
Context (byte : Z → Z) (st en : Z) (Hst : 0 ≤ st) (Hen : st ≤ en ≤ 2 ^ 31 - 1).
Notation data := (module_bytes byte st en).

Definition at_position (s : modfs) (p : Z) : Prop :=
  m_start s = st ∧ m_end s = en ∧ m_byte s = byte ∧ m_pointer s = st + p ∧ 0 ≤ p ≤ en - st.

Lemma length_module : Z.of_nat (length data) = en - st.
Proof using Hen. unfold module_bytes. rewrite length_map, length_seqZ. lia. Qed.

Lemma module_slice p k : 0 ≤ p → 0 ≤ k → p + k ≤ en - st → map byte (seqZ (st + p) k) = slice data p k.
Proof using Hen.
  intros Hp Hk Hpk. apply list_eq. intros j. rewrite lookup_slice by lia. unfold module_bytes.
  rewrite !list_lookup_fmap. case_decide.
  - rewrite !lookup_seqZ_lt by lia. cbn. do 2 f_equal. lia.
  - rewrite lookup_seqZ_ge by lia. done.
Qed.

Lemma at_moved s p r v : at_position s p → 0 ≤ r ≤ en - st → v = st + r → at_position (s <| m_pointer := u32 v |>) r.
Proof using Hen Hst.
  intros (E1 & E2 & E3 & _) Hr ->. unfold at_position. cbn. rewrite u32_small by lia. done.
Qed.

Lemma modfs_read_at s p n : at_position s p → 0 ≤ n < 2 ^ 31 →
  let k := Z.min n (en - st - p) in
  ∃ s', modfs_read n s = ((k, slice data p k), s') ∧ at_position s' (p + k) ∧ mods s' = mods s.
Proof using Hen Hst.
  intros Hat Hn k. pose proof Hat as (E1 & E2 & E3 & E4 & Hp). unfold modfs_read. rewrite E2, E3, E4.
  rewrite u32_small by lia.
  assert ((if en <? st + p + n then s32 (en - (st + p)) else n) = k) as ->.
  { subst k. destruct (Z.ltb_spec en (st + p + n)); [rewrite s32_small by lia|]; lia. }
  rewrite module_slice by lia. eexists. split; [done|]. split; [|done].
  eapply at_moved; [exact Hat|lia|lia].
Qed.

Lemma modfs_seek_at s p q wh : at_position s p → file_ok p (Seek q wh) →
  ∃ s', modfs_seek q wh s = ((file_step data p (Seek q wh)).2, s') ∧ at_position s' (file_step data p (Seek q wh)).2
    ∧ mods s' = mods s.
Proof using Hen Hst.
  intros Hat (Hq & H0 & H1 & H2). pose proof Hat as (E1 & E2 & E3 & E4 & Hp). cbn [file_step snd]. rewrite length_module.
  unfold modfs_seek. rewrite E1, E2, E4.
  assert (Hclip : ∀ r, 0 ≤ r < 2 ^ 31 →
    (if en <? u32 (st + r) then s32 (en - st) else r) = Z.min r (en - st)).
  { intros r Hr. rewrite u32_small, s32_small by lia. destruct (Z.ltb_spec en (st + r)); lia. }
  assert (Hfin : ∀ r, 0 ≤ r ≤ en - st → at_position (s <| m_pointer := u32 (st + r) |>) r).
  { intros r Hr. eapply at_moved; [exact Hat|lia|lia]. }
  destruct (Z.eqb_spec wh 0) as [->|Hw0]; [|destruct (Z.eqb_spec wh 1) as [->|Hw1];
    [|destruct (Z.eqb_spec wh 2) as [->|Hw2]]].
  - rewrite Hclip by lia. eexists. split; [done|]. split; [apply Hfin; lia|done].
  - replace (st + p + q - st) with (p + q) by lia. rewrite s32_small by lia. rewrite Hclip by lia.
    eexists. split; [done|]. split; [apply Hfin; lia|done].
  - rewrite (u32_small (en - st)), (u32_small q), (s32_small (en - st - q)) by lia.
    assert ((if en - st <? q then 0 else en - st - q) = Z.max 0 (en - st - q)) as ->.
    { destruct (Z.ltb_spec (en - st) q); lia. }
    rewrite Hclip by lia. rewrite Z.min_l by lia. eexists. split; [done|]. split; [apply Hfin; lia|done].
  - replace (st + p - st) with p by lia. rewrite s32_small by lia. rewrite Hclip by lia. rewrite Z.min_l by lia.
    eexists. split; [done|]. split; [apply Hfin; lia|done].
Qed.

Lemma modfs_steps_at l s p : at_position s p → files_ok data p l → modfs_steps l s = file_steps data p l.
Proof using Hen Hst.
  revert s p. induction l as [|o l IH]; intros s p Hat Hok; cbn [modfs_steps file_steps]; [done|].
  destruct Hok as [Ho Hok]. destruct o as [n|q wh].
  - destruct (modfs_read_at s p n Hat Ho) as (s' & Hr & Hat' & _). cbn [modfs_step]. rewrite Hr.
    cbn [file_step] in *. rewrite length_module in *. f_equal. by apply IH.
  - destruct (modfs_seek_at s p q wh Hat Ho) as (s' & Hr & Hat' & _). cbn [modfs_step]. rewrite Hr.
    destruct (file_step data p (Seek q wh)) as [r p'] eqn:E. cbn [snd] in *.
    assert (r = (p', [])) as -> by (cbn in E; congruence). f_equal. by apply IH.
Qed.
End modfs.

(** C28: A module that has been opened is a file with the contents of its memory:
    reading and seeking answer as on that file, which they never leave. *)
Theorem modfs_is_file (s s' : modfs) (i : Z) (x : mods_struct) (l : list file_op) :
  0 ≤ i → mods s !! Z.to_nat i = Some x → 0 ≤ mod_start x → mod_start x ≤ mod_end x ≤ 2 ^ 31 - 1 →
  modfs_open i s = Some s' → files_ok (module_bytes (m_byte s) (mod_start x) (mod_end x)) 0 l →
  modfs_steps l s' = file_steps (module_bytes (m_byte s) (mod_start x) (mod_end x)) 0 l.
Proof.
  intros Hi Hx Hst Hen Hopen Hok. unfold modfs_open, module_address in Hopen.
  rewrite (proj2 (Z.ltb_ge _ _)), Hx in Hopen by lia. injection Hopen as <-.
  apply modfs_steps_at; [done|done| |done]. unfold at_position. cbn. repeat split; lia.
Qed.

(** * A module is what the linker loads *)

Section module_file.
Context {A : Type} {KR : KernelRest A} (byte : Z → Z) (st en : Z) (Hst : 0 ≤ st) (Hen : st ≤ en ≤ 2 ^ 31 - 1).
(** [mem_get] gives blocks within the address space. *)
Context (get_range : ∀ n (a : A), 0 ≤ n →
  0 ≤ (kmem_get n a).1 ∧ ((kmem_get n a).1 ≠ 0 → (kmem_get n a).1 + n ≤ 2 ^ 32)).

Program Definition module_file (f : Z) : FileOf (modfs * A) f (module_bytes byte st en) := {|
  file_at w p := at_position byte st en (fst w) p |}.
Next Obligation. intros f w p H. rewrite length_module by done. apply H. Qed.
Next Obligation.
  intros f [fs a] p q H Hq. rewrite length_module in Hq by done. cbn -[modfs_seek modfs_read] in *.
  destruct (modfs_seek_at byte st en Hst Hen fs p q 0 H) as (s' & Hs & Hat & _).
  { repeat split; lia. }
  cbn [file_step snd] in *. rewrite length_module, Z.min_l in * by (try done; lia).
  change (0 =? 0) with true in *. cbn iota in *.
  exists (s', a). unfold on_fst, seek_set. cbn -[modfs_seek]. by rewrite Hs.
Qed.
Next Obligation.
  intros f [fs a] p H. cbn -[modfs_seek modfs_read] in *.
  destruct (modfs_seek_at byte st en Hst Hen fs p 0 1 H) as (s' & Hs & Hat & _).
  { destruct H as (_ & _ & _ & _ & H). repeat split; lia. }
  cbn [file_step snd] in *. rewrite length_module, Z.add_0_r in * by done.
  destruct H as (_ & _ & _ & _ & H).
  change (1 =? 0) with false in *. change (1 =? 1) with true in *. cbn iota in *.
  rewrite Z.min_l in Hs, Hat by lia. exists (s', a). unfold on_fst, seek_cur. cbn -[modfs_seek]. by rewrite Hs.
Qed.
Next Obligation.
  intros f [fs a] p n H Hn k. subst k. rewrite length_module by done. cbn -[modfs_seek modfs_read] in *.
  destruct (modfs_read_at byte st en Hst Hen fs p n H Hn) as (s' & Hs & Hat & _).
  exists (s', a). unfold on_fst. cbn -[modfs_read]. by rewrite Hs.
Qed.
Next Obligation. intros f [fs a] p n H. cbn. unfold on_snd. cbn. by destruct (kmem_get n a). Qed.
Next Obligation.
  intros f [fs a] n Hn. cbn. unfold on_snd. cbn. specialize (get_range n a Hn). by destruct (kmem_get n a).
Qed.
End module_file.
End ModulesSpec.
