(* ===== verification/LinkExample.v ===== *)
(** A relocatable ELF file as a boot module: a world in which the linker can be run. *)
From S2P Require Import Prelude Errno ByteMem Devices Syscalls Dynalink Elf Coff Pei Exec Modules DynalinkSpec.
Import ModulesSpec.
Import LoadSpec.

(** Sections: .text of 8 bytes with two relocations, .bss of 4 bytes. Symbols: mod_init at
    the start of .text, the external message, the common buf of 8 bytes. *)
Definition elf_file : bytes :=
  [127; 69; 76; 70; 1; 1; 1; 0; 0; 0; 0; 0; 0; 0; 0; 0; 1; 0; 3; 0; 1; 0; 0; 0; 0; 0; 0; 0; 0; 0; 0; 0; 212; 0;
   0; 0; 0; 0; 0; 0; 52; 0; 0; 0; 0; 0; 40; 0; 7; 0; 6; 0; 4; 0; 0; 0; 252; 255; 255; 255; 0; 0; 0; 0; 1; 3; 0;
   0; 4; 0; 0; 0; 2; 2; 0; 0; 0; 0; 0; 0; 0; 0; 0; 0; 0; 0; 0; 0; 16; 0; 0; 0; 1; 0; 0; 0; 0; 0; 0; 0; 8; 0; 0;
   0; 16; 0; 1; 0; 10; 0; 0; 0; 0; 0; 0; 0; 0; 0; 0; 0; 16; 0; 0; 0; 18; 0; 0; 0; 4; 0; 0; 0; 8; 0; 0; 0; 16;
   0; 242; 255; 0; 109; 111; 100; 95; 105; 110; 105; 116; 0; 109; 101; 115; 115; 97; 103; 101; 0; 98; 117; 102;
   0; 0; 46; 116; 101; 120; 116; 0; 46; 114; 101; 108; 46; 116; 101; 120; 116; 0; 46; 98; 115; 115; 0; 46; 115;
   121; 109; 116; 97; 98; 0; 46; 115; 116; 114; 116; 97; 98; 0; 46; 115; 104; 115; 116; 114; 116; 97; 98; 0; 0;
   0; 0; 0; 0; 0; 0; 0; 0; 0; 0; 0; 0; 0; 0; 0; 0; 0; 0; 0; 0; 0; 0; 0; 0; 0; 0; 0; 0; 0; 0; 0; 0; 0; 1; 0; 0;
   0; 0; 0; 0; 0; 1; 0; 0; 0; 1; 0; 0; 0; 0; 0; 0; 0; 0; 0; 0; 0; 52; 0; 0; 0; 8; 0; 0; 0; 0; 0; 0; 0; 0; 0; 0;
   0; 1; 0; 0; 0; 0; 0; 0; 0; 7; 0; 0; 0; 9; 0; 0; 0; 0; 0; 0; 0; 0; 0; 0; 0; 60; 0; 0; 0; 16; 0; 0; 0; 4; 0;
   0; 0; 1; 0; 0; 0; 1; 0; 0; 0; 8; 0; 0; 0; 17; 0; 0; 0; 8; 0; 0; 0; 0; 0; 0; 0; 0; 0; 0; 0; 162; 0; 0; 0; 4;
   0; 0; 0; 0; 0; 0; 0; 0; 0; 0; 0; 1; 0; 0; 0; 0; 0; 0; 0; 22; 0; 0; 0; 2; 0; 0; 0; 0; 0; 0; 0; 0; 0; 0; 0;
   76; 0; 0; 0; 64; 0; 0; 0; 5; 0; 0; 0; 1; 0; 0; 0; 1; 0; 0; 0; 16; 0; 0; 0; 30; 0; 0; 0; 3; 0; 0; 0; 0; 0; 0;
   0; 0; 0; 0; 0; 140; 0; 0; 0; 22; 0; 0; 0; 0; 0; 0; 0; 0; 0; 0; 0; 1; 0; 0; 0; 0; 0; 0; 0; 38; 0; 0; 0; 3; 0;
   0; 0; 0; 0; 0; 0; 0; 0; 0; 0; 162; 0; 0; 0; 48; 0; 0; 0; 0; 0; 0; 0; 0; 0; 0; 0; 1; 0; 0; 0; 0; 0; 0; 0].

(** Memory is given from 0x100000 on and never reused; the module is at 0x1000. *)
#[export] Instance bump_memory : KernelMemory Z := {|
  kmem_get n a := if (0 <? a) && (a + n <=? 2 ^ 32) then (a, a + n) else (0, a);
  kmem_free _ _ a := (0, a) |}.
#[export] Instance bump_rest : KernelRest Z := {|
  rest_region _ _ a := (-1, a);
  rest_get_dll _ a := (None, a);
  rest_add_dll _ _ _ a := (1, a);
  rest_byte _ _ := 0xAA;
  rest_local _ _ := 0xBB;
  rest_tables _ := mkTableInfo 1 1 1 1 1 1 1 1 1 1 1 1 1 1 1 1;
  rest_section _ _ := mkSectionInfo 1 1 1 1 0 1;
  rest_symbol _ _ := mkSymbolInfo 1 1 1;
  rest_reloc _ _ := mkRelocInfo 1 1 1;
  rest_pei _ := mkPei 1 1 1 1 1 1 1 |}.

Definition module_start : Z := 0x1000.
Definition module_end : Z := module_start + Z.of_nat (length elf_file).
Definition elf_module : mods_struct := mkMods module_start module_end [109].
Definition boot_modules : modfs :=
  mkModfs [elf_module] module_start module_end module_start 1 (λ a, byte_at elf_file (a - module_start)).

(** The call message is at 0x5000. *)
Definition message_name : bytes := [109; 101; 115; 115; 97; 103; 101].
Definition calls : syscalls := mkSyscalls [mkSymbol message_name 0x5000] [].
Definition no_tables : table_info := mkTableInfo 0 0 0 0 0 0 0 0 0 0 0 0 0 0 0 0.
Definition boot : linker (modfs * Z) :=
  mkLinker (boot_modules, 0x100000) ∅ no_tables [] [] ∅ ∅ ∅ calls DjCOFF 0.

Definition load_elf : M (linker (modfs * Z)) (Z * option executable_info) :=
  r ← isELF 0;
  match r with Some rf => fd32_load_executable 0 rf | None => mret (0, None) end.

(** The whole load: the entry point is the start of .text, whose words are the address of
    buf, plus 4, and the distance to message. *)
Example load_elf_result :
  match load_elf boot with
  | Done (entry, Some i) s =>
      entry = x_image_base i ∧ load32 (k_mem s) entry = Some (entry + x_size i - 8 + 4) ∧
      load32 (k_mem s) (entry + 4) = Some (u32 (0x5000 - (entry + 4) - 4))
  | _ => False
  end.
Proof. vm_compute. repeat split. Qed.

(** A file is what the linker relies on. *)
#[export] Instance elf_module_file : FileOf (modfs * Z) 0 (module_bytes (λ a, byte_at elf_file (a - module_start)) module_start module_end).
Proof.
  apply (module_file (A := Z)); [vm_compute; congruence|vm_compute; split; congruence|].
  intros n a Hn. cbn. destruct (Z.ltb_spec 0 a), (Z.leb_spec (a + n) (2 ^ 32)); cbn; lia.
Defined.

(** ** A section to relocate: its three words at 0x100000, the name of a symbol at 0x2000;
    there is a relocation of each type, the last one of a symbol of the section. *)
Definition code_at : Z := 0x100000.
Definition name_at : Z := 0x2000.
Definition code_memory : memory :=
  make_bytes (make_bytes ∅ code_at 12 (λ a, byte_at [4; 0; 0; 0; 252; 255; 255; 255; 8; 0; 0; 0] (a - code_at)))
    name_at 8 (λ a, byte_at message_name (a - name_at)).
Definition code_section : section_info := mkSectionInfo 0 12 0 12 3 0x3000.
Definition code_relocs : list reloc_info :=
  [mkRelocInfo 0 1 REL_TYPE_ELF_ABSOLUTE; mkRelocInfo 4 0 REL_TYPE_RELATIVE; mkRelocInfo 8 2 REL_TYPE_COFF_ABSOLUTE].
Definition code_symbols : list symbol_info := [mkSymbolInfo name_at 0 EXTERN_SYMBOL; mkSymbolInfo 0 8 COMMON_SYMBOL; mkSymbolInfo 0 8 0].
Definition code_tables : table_info := no_tables <| t_num_symbols := 3 |> <| t_local_bss := 0x10000C |>.
Definition code : linker (modfs * Z) :=
  mkLinker (boot_modules, 0x200000) code_memory code_tables [code_section] code_symbols {[ 0x3000 := code_relocs ]} ∅ ∅
    calls DjCOFF 0.

Definition linked_symbols : list symbol_info :=
  [mkSymbolInfo name_at 0x5000 EXTERN_SYMBOL; mkSymbolInfo 0 0x10000C COMMON_SYMBOL; mkSymbolInfo 0 8 0].

Lemma code_linkable r y : (r, y) ∈ zip code_relocs [mkSymbolInfo 0 0x10000C COMMON_SYMBOL; mkSymbolInfo name_at 0x5000 EXTERN_SYMBOL; mkSymbolInfo 0 8 0] →
  linkable 1 [code_section] linked_symbols r y ∧ mapped code_memory (place_of code_at code_section r) 4.
Proof.
  assert (Hm : ∀ a, code_at ≤ a → a + 4 ≤ code_at + 12 → mapped code_memory a 4).
  { intros a H1 H2. apply make_bytes_keeps, (mapped_part _ code_at 12); [apply make_bytes_mapped|lia|lia]. }
  intros [[= -> ->]|[[= -> ->]|[[= -> ->]|[]%elem_of_nil]%elem_of_cons]%elem_of_cons]%elem_of_cons;
    (split; [|apply Hm; vm_compute; congruence]).
  - split_and!; [by left|cbn; lia|cbn; lia|reflexivity|by left].
  - split_and!; [by right; right|cbn; lia|cbn; lia|reflexivity|by left].
  - split_and!; [by right; left|cbn; lia|cbn; lia|reflexivity|right; cbn; lia].
Qed.

Lemma common_relocate_section_links_witness :
  wp (common_relocate_section code_at 1 0) (λ res s', res = 1 ∧
    load32 (k_mem s') code_at = Some (0x10000C + 4) ∧ load32 (k_mem s') (code_at + 4) = Some (u32 (0x5000 - 0x100008)) ∧
    load32 (k_mem s') (code_at + 8) = Some (code_at + 8)) code.
Proof.
  eapply wp_mono; [|apply (common_relocate_section_links code_at 1 0 code code_section code_relocs linked_symbols)].
  - intros res s' (-> & _ & Hl & _). split; [done|].
    assert (Hw : ∀ r y A, (r, y) ∈ zip code_relocs [mkSymbolInfo 0 0x10000C COMMON_SYMBOL; mkSymbolInfo name_at 0x5000 EXTERN_SYMBOL; mkSymbolInfo 0 8 0] →
      load32 (k_mem code) (place_of code_at code_section r) = Some A →
      load32 (k_mem s') (place_of code_at code_section r) =
        Some (linked_word DjCOFF code_at [code_section] y (place_of code_at code_section r) A r)).
    { intros r y A Hin HA. destruct (Hl r y) as (A' & HA' & HL); [|by apply code_linkable|assert (A' = A) as -> by congruence; exact HL].
      by apply elem_of_zip_l in Hin. }
    split_and!; [apply (Hw (mkRelocInfo 0 1 REL_TYPE_ELF_ABSOLUTE) (mkSymbolInfo 0 0x10000C COMMON_SYMBOL) 4)
                |apply (Hw (mkRelocInfo 4 0 REL_TYPE_RELATIVE) (mkSymbolInfo name_at 0x5000 EXTERN_SYMBOL) (2 ^ 32 - 4))
                |apply (Hw (mkRelocInfo 8 2 REL_TYPE_COFF_ABSOLUTE) (mkSymbolInfo 0 8 0) 8)]; try (vm_compute; reflexivity); cbn; set_solver.
  - lia.
  - reflexivity.
  - reflexivity.
  - vm_compute. reflexivity.
  - reflexivity.
  - reflexivity.
  - intros r Hr. assert (∃ y, (r, y) ∈ zip code_relocs [mkSymbolInfo 0 0x10000C COMMON_SYMBOL; mkSymbolInfo name_at 0x5000 EXTERN_SYMBOL; mkSymbolInfo 0 8 0]) as [y Hy].
    { revert Hr. intros [->|[->|[->|[]%elem_of_nil]%elem_of_cons]%elem_of_cons]%elem_of_cons; eexists; cbn; rewrite ?elem_of_cons; eauto. }
    apply code_linkable in Hy as [H1 H2]. split; [by exists y|exact H2].
  - intros [|[|[|i]]] [|[|[|j]]] r r' H1 H2 Hij; try done; injection H1 as <-; injection H2 as <-; vm_compute; intuition congruence.
Defined.

(** The module of one section of four bytes is loaded, with four bytes of common
    symbols. *)
Definition load_tables : table_info := no_tables <| t_local_bss_size := 4 |>.
Definition to_load : linker (modfs * Z) :=
  mkLinker (boot_modules, 0x200000) ∅ load_tables [mkSectionInfo 0 8 1 3 0 0] [] ∅ ∅ ∅ calls DjCOFF 0.

Lemma common_load_relocatable_image_witness :
  wp (common_load_relocatable 0 1) (λ r s', r = (0, 0) ∨
    r = (r.1, 12) ∧ load_bytes (k_mem s') r.1 12 = Some [69; 76; 70; 0; 0; 0; 0; 0; 0; 0; 0; 0]) to_load.
Proof.
  eapply wp_mono; [|apply (common_load_relocatable_image (FO := elf_module_file) 0 _ to_load 0)].
  - intros r s' [(-> & _)|(q & -> & _ & _ & _ & Himg & _)]; [by left|]. right. split; [reflexivity|]. exact Himg.
  - cbn. repeat split; vm_compute; congruence.
  - reflexivity.
  - constructor; [|constructor]. vm_compute. intuition congruence.
  - vm_compute. congruence.
  - vm_compute. congruence.
Defined.

Lemma modfs_is_file_witness :
  modfs_steps [Seek 1 0; Read 3; Seek 0 1; Seek 1000 0; Read 5] boot_modules =
  [(1, []); (3, [69; 76; 70]); (4, []); (492, []); (0, [])].
Proof.
  rewrite (modfs_is_file boot_modules boot_modules 0 elf_module); [vm_compute; reflexivity|lia|reflexivity| | | |].
  - vm_compute. congruence.
  - vm_compute. intuition congruence.
  - reflexivity.
  - vm_compute. intuition congruence.
Defined.
