(* ===== verification/PeiSpec.v ===== *)
(** The relocation of PE images, proved: the directory of base relocations is a list of
    words of the image, to each of which the distance of the move is added. *)
From S2P Require Import Prelude Errno ByteMem Syscalls Dynalink Elf Coff Pei Exec Modules DynalinkSpec LinkExample.
Import LoadSpec.

(** * The specification *)

(** An entry of a block, and a block: the address of a page and its entries. *)
Record reloc_entry := mkRelocEntry { re_type : Z; re_offset : Z }.
Record reloc_block := mkRelocBlock { rb_vaddr : Z; rb_entries : list reloc_entry }.

Definition entry_bytes (e : reloc_entry) : bytes := le16 (re_offset e + 4096 * re_type e).
Definition block_size (b : reloc_block) : Z := 8 + 2 * Z.of_nat (length (rb_entries b)).
Definition block_bytes (b : reloc_block) : bytes :=
  le32 (rb_vaddr b) ++ le32 (block_size b) ++ concat (map entry_bytes (rb_entries b)).
Definition directory_bytes (l : list reloc_block) : bytes := concat (map block_bytes l).

Definition entry_ok (e : reloc_entry) : Prop := 0 ≤ re_offset e < 4096 ∧ 0 ≤ re_type e ≤ 3.
Definition block_ok (b : reloc_block) : Prop :=
  0 ≤ rb_vaddr b < 2 ^ 32 ∧ Forall entry_ok (rb_entries b) ∧ Z.of_nat (length (rb_entries b)) < 2 ^ 30.

(** The words to change and what is added to each, [d] being the distance: its high
    half, its low half or all of it. Entries with offset 0 are skipped, as are those of
    type 0. *)
Definition moved_by (type d : Z) : list Z :=
  if type =? 1 then [d - d mod 2 ^ 16] else if type =? 2 then [d mod 2 ^ 16] else if type =? 3 then [d] else [].
Definition entry_fixups (start d : Z) (e : reloc_entry) : list (Z * Z) :=
  if re_offset e =? 0 then [] else map (λ x, (u32 (start + re_offset e), x)) (moved_by (re_type e) d).
Definition block_fixups (image_base d : Z) (b : reloc_block) : list (Z * Z) :=
  concat (map (entry_fixups (u32 (image_base + rb_vaddr b)) d) (rb_entries b)).
Definition directory_fixups (image_base d : Z) (l : list reloc_block) : list (Z * Z) :=
  concat (map (block_fixups image_base d) l).

(** * Changing words *)

Lemma u32_idemp a : u32 (u32 a) = u32 a.
Proof. unfold u32. by rewrite Z.mod_mod. Qed.

Fixpoint add_words (l : list (Z * Z)) (m : memory) : option memory :=
  match l with
  | [] => Some m
  | (p, d) :: l => v ← load32 m p; m' ← store32 m p (u32 (v + d)); add_words l m'
  end.

Lemma add_words_app l1 l2 m m' : add_words (l1 ++ l2) m = Some m' ↔
  ∃ m1, add_words l1 m = Some m1 ∧ add_words l2 m1 = Some m'.
Proof.
  revert m. induction l1 as [|[p d] l1 IH]; intros m; cbn [add_words app].
  - split; [by exists m|by intros (m1 & [= ->] & H)].
  - destruct (load32 m p) as [v|]; cbn [mbind option_bind]; [|split; [done|by intros (? & ? & _)]].
    destruct (store32 m p (u32 (v + d))) as [m1|]; cbn [mbind option_bind]; [apply IH|split; [done|by intros (? & ? & _)]].
Qed.

Definition words_changed (l : list (Z * Z)) (m m' : memory) : Prop :=
  (∀ p d, (p, d) ∈ l → ∃ v, load32 m p = Some v ∧ load32 m' p = Some (u32 (v + d))) ∧
  (∀ a, (∀ x, x ∈ l → ¬ within x.1 4 a) → m' !! a = m !! a).

Lemma add_words_spec l m :
  (∀ x, x ∈ l → mapped m x.1 4) →
  (∀ i j x y, l !! i = Some x → l !! j = Some y → i ≠ j → apart x.1 y.1) →
  ∃ m', add_words l m = Some m' ∧ words_changed l m m'.
Proof.
  revert m. induction l as [|[p d] l IH]; intros m Hm Hap; cbn [add_words].
  { exists m. split; [done|]. split; [intros p d H; by apply elem_of_nil in H|done]. }
  destruct (load32_mapped m p) as [v Hv]; [apply (Hm (p, d)); set_solver|].
  destruct (store32_spec m p (u32 (v + d))) as (m1 & Hst & Hld & Hout & Hkeep); [apply (Hm (p, d)); set_solver|].
  rewrite Hv. cbn [mbind option_bind]. rewrite Hst. cbn [mbind option_bind]. assert (Hapl : ∀ x, x ∈ l → apart p x.1).
  { intros x [j Hj]%list_elem_of_lookup. by apply (Hap 0%nat (S j) (p, d) x). }
  destruct (IH m1) as (m' & Hadd & H1 & H2).
  { intros x Hx. apply Hkeep, Hm. set_solver. }
  { intros i j x y Hi Hj Hij. apply (Hap (S i) (S j)); [done|done|lia]. }
  exists m'. split; [done|]. split.
  - intros q e [[= -> ->]|Hq]%elem_of_cons.
    + exists v. split; [done|]. rewrite <- (u32_idemp (v + d)), <- Hld. apply load32_ext. intros a Ha. apply H2.
      intros x Hx Hin. specialize (Hapl x Hx). unfold apart, within in *. lia.
    + destruct (H1 q e Hq) as (w & Hw & Hw'). exists w. split; [|done]. rewrite <- Hw. symmetry.
      apply load32_ext. intros a Ha. apply Hout. specialize (Hapl _ Hq). cbn in Hapl. unfold apart, within in *. lia.
  - intros a Ha. rewrite H2 by (intros x Hx; apply Ha; set_solver). apply Hout, (Ha (p, d)). set_solver.
Qed.

(** The memory from [q] on still holds what it held when the words are elsewhere. *)
Definition clear_of (l : list (Z * Z)) (q n : Z) : Prop := ∀ x, x ∈ l → x.1 + 4 ≤ q ∨ q + n ≤ x.1.

Lemma add_words_outside l m m' : add_words l m = Some m' → ∀ a, (∀ x, x ∈ l → ¬ within x.1 4 a) → m' !! a = m !! a.
Proof.
  revert m. induction l as [|[p d] l IH]; intros m H a Ha; cbn [add_words] in H; [by injection H as ->|].
  apply bind_Some in H as (v & _ & H). apply bind_Some in H as (m1 & Hst & H). rewrite (IH m1) by (done || set_solver).
  clear -Hst Ha. unfold store32 in Hst. assert (Hna : ¬ within p 4 a) by (apply (Ha (p, d)); set_solver).
  assert (Hs : ∀ bs m q m1, store_bytes m q bs = Some m1 → ¬ within q (Z.of_nat (length bs)) a → m1 !! a = m !! a).
  { clear. induction bs as [|b bs IH]; intros m q m1 H Hn; cbn in H; [by injection H as ->|].
    apply bind_Some in H as (c & _ & H). rewrite (IH _ _ _ H) by (unfold within in *; cbn in Hn; lia).
    apply lookup_insert_ne. unfold within in Hn. cbn in Hn. lia. }
  by apply (Hs _ _ _ _ Hst).
Qed.

Lemma holds_add_words l m m' q img : add_words l m = Some m' → clear_of l q (Z.of_nat (length img)) →
  holds m q img → holds m' q img.
Proof.
  intros H Hc Hh j Hj. rewrite (add_words_outside _ _ _ H); [by apply Hh|].
  intros x Hx. specialize (Hc x Hx). unfold within. lia.
Qed.

Lemma holds_app m q a b : holds m q (a ++ b) ↔ holds m q a ∧ holds m (q + Z.of_nat (length a)) b.
Proof.
  split.
  - intros H. split.
    + intros j Hj. rewrite H by (rewrite length_app; lia). by rewrite lookup_app_l.
    + intros j Hj. specialize (H (length a + j)%nat). rewrite length_app, lookup_app_r in H by lia.
      replace (length a + j - length a)%nat with j in H by lia. rewrite <- H by lia. f_equal. lia.
  - intros [Ha Hb] j Hj. rewrite length_app in Hj. destruct (decide (j < length a)%nat).
    + rewrite lookup_app_l by done. by apply Ha.
    + rewrite lookup_app_r by lia. rewrite <- Hb by lia. f_equal. lia.
Qed.

Lemma holds_load32 m q v rest : holds m q (le32 v ++ rest) → 0 ≤ v < 2 ^ 32 → load32 m q = Some v.
Proof.
  intros [H _]%holds_app Hv. apply holds_load in H. unfold load32. rewrite (H : load_bytes m q 4 = _). cbn [mbind option_bind].
  by rewrite le32_at_le32, u32_small by lia.
Qed.

Lemma holds_load16 m q v rest : holds m q (le16 v ++ rest) → 0 ≤ v < 65536 → load16 m q = Some v.
Proof.
  intros [H _]%holds_app Hv. apply holds_load in H. unfold load16. rewrite (H : load_bytes m q 2 = _). cbn [mbind option_bind].
  by rewrite le16_at_le16.
Qed.

(** * Entries and blocks *)

Lemma length_entries l : length (concat (map entry_bytes l)) = (2 * length l)%nat.
Proof. induction l as [|e l IH]; [done|]. cbn [map concat]. rewrite length_app, IH. cbn. lia. Qed.
Lemma length_block b : Z.of_nat (length (block_bytes b)) = block_size b.
Proof. unfold block_bytes, block_size. rewrite !length_app, length_entries. cbn [length le32]. lia. Qed.

Lemma entry_word e : entry_ok e →
  0 ≤ re_offset e + 4096 * re_type e < 65536 ∧ Z.land (re_offset e + 4096 * re_type e) 0xfff = re_offset e ∧
  Z.shiftr (re_offset e + 4096 * re_type e) 12 = re_type e.
Proof.
  intros [Ho Ht]. split; [lia|]. change 0xfff with (Z.ones 12). rewrite Z.land_ones, Z.shiftr_div_pow2 by lia.
  change (2 ^ 12) with 4096. split; Z.div_mod_to_equations; lia.
Qed.

Lemma land_high d : 0 ≤ d < 2 ^ 32 → Z.land d 0xffff0000 = d - d mod 2 ^ 16.
Proof.
  intros Hd. transitivity (Z.shiftl (Z.shiftr d 16) 16).
  - apply Z.bits_inj'. intros n Hn. change 0xffff0000 with (Z.shiftl (Z.ones 16) 16).
    rewrite Z.land_spec, !Z.shiftl_spec by done. destruct (Z.lt_ge_cases n 16).
    + rewrite !(Z.testbit_neg_r _ (n - 16)) by lia. apply andb_false_r.
    + rewrite Z.shiftr_spec, Z.testbit_ones by lia. replace (n - 16 + 16) with n by lia.
      destruct (Z.ltb_spec (n - 16) 16); [rewrite (proj2 (Z.leb_le _ _)) by lia; apply andb_true_r|].
      rewrite <- (Z.mod_small d (2 ^ 32)) at 1 2 by lia. by rewrite Z.mod_pow2_bits_high by lia.
  - rewrite Z.shiftl_mul_pow2, Z.shiftr_div_pow2 by lia. Z.div_mod_to_equations. lia.
Qed.

(** What the code adds is what the specification says. *)
Lemma entry_fixup e d : entry_ok e → 0 ≤ d < 2 ^ 32 →
  ∃ x, fixup (re_type e) d = Some x ∧
    moved_by (re_type e) d = if re_type e =? IMAGE_REL_BASED_ABSOLUTE then [] else [x].
Proof.
  intros [_ Ht] Hd. assert (re_type e = 0 ∨ re_type e = 1 ∨ re_type e = 2 ∨ re_type e = 3) as [E|[E|[E|E]]] by lia;
    rewrite E; unfold fixup, moved_by; cbn [Z.eqb Pos.eqb IMAGE_REL_BASED_ABSOLUTE IMAGE_REL_BASED_HIGH
      IMAGE_REL_BASED_LOW IMAGE_REL_BASED_HIGHLOW]; eexists; split; try reflexivity.
  - by rewrite land_high.
  - f_equal. change 0x0000ffff with (Z.ones 16). symmetry. apply Z.land_ones. lia.
Qed.

(** A table in memory has no more bytes than the memory. *)
Lemma holds_size m q img : holds m q img → (length img ≤ size m)%nat.
Proof.
  intros Hh. rewrite <- size_dom. transitivity (size (list_to_set (seqZ q (Z.of_nat (length img))) : gset Z)).
  - rewrite size_list_to_set by apply NoDup_seqZ. rewrite length_seqZ. lia.
  - apply subseteq_size. intros i Hi%elem_of_list_to_set%elem_of_seqZ. apply elem_of_dom.
    apply (holds_mapped m q img Hh). unfold within. lia.
Qed.

Section relocation.
Context {W : Type} `{KernFuncs W}.
Implicit Types s : linker W.

Lemma load_word_at s p v : load32 (k_mem s) (u32 p) = Some v → load_word p s = Done v s.
Proof. intros Hv. unfold load_word. by apply with_mem_at. Qed.

Lemma pei_fixups_spec start d l at_ s m' :
  Forall entry_ok l → 0 ≤ d < 2 ^ 32 → 0 ≤ at_ → at_ + 2 * Z.of_nat (length l) < 2 ^ 32 →
  holds (k_mem s) at_ (concat (map entry_bytes l)) →
  add_words (concat (map (entry_fixups start d) l)) (k_mem s) = Some m' →
  clear_of (concat (map (entry_fixups start d) l)) at_ (2 * Z.of_nat (length l)) →
  pei_fixups (length l) at_ start d s = Done true (s <| k_mem := m' |>).
Proof.
  revert at_ s. induction l as [|e l IH]; intros at_ s Hok Hd Hat Hend Hh Ha Hc; cbn [length pei_fixups map concat] in *.
  { injection Ha as <-. by destruct s. }
  apply Forall_cons in Hok as [He Hok]. destruct (entry_word e He) as (Hw & Hof & Hty).
  assert (Hld : load16 (k_mem s) at_ = Some (re_offset e + 4096 * re_type e)) by (by eapply holds_load16).
  rewrite (bind_eq _ _ _ _ _ (with_mem_at s (λ m, load16 m at_) _ Hld)). cbv zeta. rewrite Hof, Hty.
  apply holds_app in Hh as [_ Hh]. change (Z.of_nat (length (entry_bytes e))) with 2 in Hh.
  apply add_words_app in Ha as (m1 & H1 & H2).
  assert (Hrest : pei_fixups (length l) (u32 (at_ + 2)) start d (s <| k_mem := m1 |>) = Done true (s <| k_mem := m' |>)).
  { rewrite u32_small by lia. rewrite (IH (at_ + 2) (s <| k_mem := m1 |>)); [done|done|done|lia|lia| |done|].
    - eapply holds_add_words; [exact H1| |done]. intros x Hx. rewrite length_entries.
      specialize (Hc x ltac:(set_solver)). lia.
    - intros x Hx. specialize (Hc x ltac:(set_solver)). lia. }
  destruct (entry_fixup e d He Hd) as (x & Hx & Hmoved). rewrite Hx. unfold entry_fixups in H1. rewrite Hmoved in H1.
  destruct (re_offset e =? 0); cbn [negb] in *; [|destruct (re_type e =? IMAGE_REL_BASED_ABSOLUTE)].
  - injection H1 as <-. by destruct s.
  - injection H1 as <-. by destruct s.
  - cbn [add_words map] in H1. apply bind_Some in H1 as (v & Hv & H1). apply bind_Some in H1 as (m2 & Hst & [= <-]).
    rewrite <- bind_assoc_eq, (bind_eq _ _ _ _ _ (load_word_at s _ v ltac:(by rewrite u32_idemp))).
    by rewrite (bind_eq _ _ _ _ _ (store_at s _ m2 Hst)).
Qed.

(** A block that is not for the place of the first one. *)
Definition other_place (image_base : Z) (first : option Z) (b : reloc_block) : Prop :=
  first ≠ Some (u32 (image_base + rb_vaddr b)).

Lemma length_directory_cons b l :
  Z.of_nat (length (directory_bytes (b :: l))) = block_size b + Z.of_nat (length (directory_bytes l)).
Proof. unfold directory_bytes. cbn [map concat]. by rewrite length_app, Nat2Z.inj_add, length_block. Qed.

(** The fields of a block in memory, and where its entries and the next block are. *)
Lemma holds_block m q b rest : block_ok b → holds m q (block_bytes b ++ rest) →
  load32 m q = Some (rb_vaddr b) ∧ load32 m (q + 4) = Some (block_size b) ∧
  holds m (q + 8) (concat (map entry_bytes (rb_entries b))) ∧ holds m (q + block_size b) rest.
Proof.
  intros (Hv & _ & Hn) Hh. apply holds_app in Hh as [Hb Hr]. rewrite length_block in Hr. unfold block_bytes in Hb.
  assert (Hs : 0 ≤ block_size b < 2 ^ 32) by (unfold block_size; lia).
  split_and!; [by eapply holds_load32| | |done].
  - apply holds_app in Hb as [_ Hb]. by eapply holds_load32.
  - apply holds_app in Hb as [_ Hb]. apply holds_app in Hb as [_ Hb]. cbn [length le32] in Hb.
    by replace (q + 8) with (q + Z.of_nat 4 + Z.of_nat 4) by lia.
Qed.

Lemma block_count b : block_ok b → Z.to_nat (Z.shiftr (u32 (block_size b - IMAGE_SIZEOF_BASE_RELOCATION)) 1) = length (rb_entries b).
Proof.
  intros (_ & _ & Hn). unfold block_size, IMAGE_SIZEOF_BASE_RELOCATION. rewrite u32_small by lia.
  rewrite Z.shiftr_div_pow2 by lia. change (2 ^ 1) with 2. Z.div_mod_to_equations. lia.
Qed.

Lemma pei_blocks_spec image_base r l n at_ first s m' :
  Forall block_ok l → (length l ≤ n)%nat → Forall (other_place image_base first) l →
  (first = None → ∀ b t, l = b :: t → Forall (other_place image_base (Some (u32 (image_base + rb_vaddr b)))) t) →
  0 ≤ pr_offset r < 2 ^ 32 → 0 ≤ pr_addr r → 0 ≤ at_ → at_ + Z.of_nat (length (directory_bytes l)) = pr_size r → pr_addr r + pr_size r < 2 ^ 32 →
  holds (k_mem s) (pr_addr r + at_) (directory_bytes l) →
  add_words (directory_fixups image_base (pr_offset r) l) (k_mem s) = Some m' →
  clear_of (directory_fixups image_base (pr_offset r) l) (pr_addr r + at_) (Z.of_nat (length (directory_bytes l))) →
  pei_blocks n image_base r at_ first s = Done 1 (s <| k_mem := m' |>).
Proof.
  revert n at_ first s. induction l as [|b l IH]; intros n at_ first s Hok Hn Hfst Hnone Hd Haddr Hat Hsz Hend Hh Ha Hc.
  { cbn in *. injection Ha as <-. destruct n; cbn; rewrite (proj2 (Z.ltb_ge _ _)) by lia; by destruct s. }
  destruct n as [|n]; [cbn in Hn; lia|]. apply Forall_cons in Hok as [Hb Hok].
  apply Forall_cons in Hfst as [Hb1 Hfst]. rewrite length_directory_cons in Hsz, Hc.
  assert (Hbs : 8 ≤ block_size b) by (unfold block_size; lia).
  cbn [pei_blocks]. rewrite (proj2 (Z.ltb_lt _ _)) by lia.
  destruct (holds_block _ _ b _ Hb Hh) as (Hva & Hsi & Hen & Hrest). rewrite (u32_small (pr_addr r + at_)) by lia.
  rewrite (bind_eq _ _ _ _ _ (load_word_at s (pr_addr r + at_) (rb_vaddr b) ltac:(by rewrite u32_small by lia))).
  rewrite (bind_eq _ _ _ _ _ (load_word_at s (pr_addr r + at_ + 4) (block_size b) ltac:(by rewrite u32_small by lia))).
  cbv zeta.
  rewrite (bool_decide_eq_false_2 _ Hb1), block_count by done.
  unfold directory_fixups in Ha, Hc. cbn [map concat] in Ha, Hc. apply add_words_app in Ha as (m1 & H1 & H2).
  rewrite (u32_small (pr_addr r + at_ + 8)) by lia.
  assert (Hfix : pei_fixups (length (rb_entries b)) (pr_addr r + at_ + 8) (u32 (image_base + rb_vaddr b)) (pr_offset r) s =
    Done true (s <| k_mem := m1 |>)).
  { apply pei_fixups_spec; [apply Hb|done|lia|unfold block_size in *; lia|done|done|].
    intros x Hx. specialize (Hc x ltac:(set_solver)). unfold block_size in *. lia. }
  rewrite (bind_eq _ _ _ _ _ Hfix).
  cbv iota. rewrite (u32_small (at_ + block_size b)) by lia.
  rewrite (IH n (at_ + block_size b) _ (s <| k_mem := m1 |>)); [done|done|cbn in Hn; lia| |by destruct first|done|done|lia|lia|done| |done|].
  - destruct first as [st|]; [done|]. by apply (Hnone eq_refl b l).
  - cbn. rewrite Z.add_assoc. eapply holds_add_words; [exact H1| |done]. intros x Hx. specialize (Hc x ltac:(set_solver)). lia.
  - intros x Hx. specialize (Hc x ltac:(set_solver)). lia.
Qed.

End relocation.

(** ** An image moved by 0x10000: the word at 4 of its page is changed. *)
Definition moved_at : Z := 0x210000.
Definition moved_block : reloc_block := mkRelocBlock 0x1000 [mkRelocEntry 3 4; mkRelocEntry 0 0].
Definition directory_at : Z := 0x212000.
Definition moved_memory : memory :=
  make_bytes (make_bytes ∅ (moved_at + 0x1000) 8 (λ a, byte_at (le32 7 ++ le32 0x201000) (a - (moved_at + 0x1000))))
    directory_at 12 (λ a, byte_at (block_bytes moved_block) (a - directory_at)).
Definition moved_reloc : pe_reloc_info := mkPeRelocInfo 0x10000 directory_at 12.
Definition moved_section : section_info := mkSectionInfo 0x1000 8 0 8 1 0x3000.
Definition moved : linker (modfs * Z) :=
  mkLinker (boot_modules, 0x300000) moved_memory no_tables [moved_section] [] ∅ {[ 0x3000 := moved_reloc ]} ∅ calls DjCOFF 0.

