(* ===== verification/LeanTypes.v ===== *)
(** The LEAN file system driver: the structures on disk and in memory
    ([src/leanfs/leanfs.h]), and the C library under it. *)
From S2P Require Import Prelude Errno.

(** Numbers of the C library the driver is compiled with that differ from those of the
    kernel. *)
Definition ENOTEMPTY : Z := 39.
Definition ENAMETOOLONG : Z := 36.
Definition O_CREAT : Z := 0x40.
Definition O_EXCL : Z := 0x80.
Definition O_TRUNC : Z := 0x200.
Definition O_APPEND : Z := 0x400.
Definition O_FSYNC : Z := 0x101000.
Definition O_DIRECTORY : Z := 0x80000000.
Definition O_NOATIME : Z := 0x40000000.
Definition SEEK_SET : Z := 0.
Definition SEEK_CUR : Z := 1.
Definition SEEK_END : Z := 2.
Definition NAME_MAX : Z := 255.
Definition DT_REG : Z := 8.
Definition DT_DIR : Z := 4.

Definition LEANFS_FT_REG : Z := 0.
Definition LEANFS_FT_DIR : Z := 1.
Definition LEANFS_SB_MAGIC : Z := 0x4E41454C.
Definition LEANFS_SB_CLEAN : Z := 1.
Definition LEANFS_IRUSR : Z := 256.
Definition LEANFS_IWUSR : Z := 128.
Definition LEANFS_IXUSR : Z := 64.
Definition LEANFS_IFMT : Z := Z.shiftl 7 29.
Definition LEANFS_IFDIR : Z := Z.shiftl 1 29.
Definition LEANFS_IFMT_TO_FT (attr : Z) : Z := Z.shiftr (Z.land attr LEANFS_IFMT) 29.
Definition MAX_DIRECT_CLUSTER : Z := 15.
Definition LEANFS_FILE_MAGIC : Z := 0.
Definition NUM_BUFFERS : nat := 8.

(** Words of 64 bits. *)
Definition u64 (z : Z) : Z := z mod 2 ^ 64.
Definition le64_at (l : bytes) (i : Z) : Z := le32_at l i + Z.shiftl (le32_at l (i + 4)) 32.
Definition le64 (v : Z) : bytes := le32 v ++ le32 (Z.shiftr v 32).

(** * On disk *)

Record Inode := mkInode {
  file_size : Z;
  clusters_count : Z;
  acc_time : Z;
  cre_time : Z;
  mod_time : Z;
  dclusters : list Z;
  iclusters_head : Z;
  attributes : Z;
  uid : Z;
  gid : Z;
  links_count : Z;
  i_reserved : bytes }.
#[export] Instance Inode_eta : Eta Inode := λ r,
  mkInode (file_size r) (clusters_count r) (acc_time r) (cre_time r) (mod_time r) (dclusters r) (iclusters_head r)
    (attributes r) (uid r) (gid r) (links_count r) (i_reserved r).
Definition sizeof_Inode : Z := 128.
Definition decode_Inode (b : bytes) : Inode :=
  mkInode (le64_at b 0) (le32_at b 8) (le32_at b 12) (le32_at b 16) (le32_at b 20)
    (map (λ i, le32_at b (24 + 4 * i)) (seqZ 0 15)) (le32_at b 84) (le32_at b 88) (le32_at b 92) (le32_at b 96)
    (le32_at b 100) (slice b 104 24).
Definition encode_Inode (i : Inode) : bytes :=
  le64 (file_size i) ++ le32 (clusters_count i) ++ le32 (acc_time i) ++ le32 (cre_time i) ++ le32 (mod_time i) ++
  concat (map le32 (dclusters i)) ++ le32 (iclusters_head i) ++ le32 (attributes i) ++ le32 (uid i) ++ le32 (gid i) ++
  le32 (links_count i) ++ i_reserved i.

Record DirEntryHeader := mkDirEntry { de_inode : Z; de_rec_len : Z; de_name_len : Z; de_type : Z }.
#[export] Instance DirEntryHeader_eta : Eta DirEntryHeader := λ r,
  mkDirEntry (de_inode r) (de_rec_len r) (de_name_len r) (de_type r).
Definition sizeof_DirEntryHeader : Z := 8.
Definition decode_DirEntryHeader (b : bytes) : DirEntryHeader :=
  mkDirEntry (le32_at b 0) (le16_at b 4) (byte_at b 6) (byte_at b 7).
Definition encode_DirEntryHeader (d : DirEntryHeader) : bytes :=
  le32 (de_inode d) ++ le16 (de_rec_len d) ++ [u8 (de_name_len d); u8 (de_type d)].
(** [struct DirEntry]: the header and 256 characters. *)
Definition sizeof_DirEntry : Z := 264.

(** The fields of [struct SuperBlock], which the driver leaves in its buffer. *)
Definition sizeof_SuperBlock : Z := 512.
Definition sb_log_bytes_per_sector (b : bytes) : Z := byte_at b 74.
Definition sb_log_sectors_per_cluster (b : bytes) : Z := byte_at b 75.
Definition sb_backup_super (b : bytes) : Z := le32_at b 76.
Definition sb_clusters_count (b : bytes) : Z := le32_at b 80.
Definition sb_free_clusters_count (b : bytes) : Z := le32_at b 84.
Definition set_free_clusters_count (v : Z) (b : bytes) : bytes := poke b 84 (le32 v).
Definition sb_bitmap_start_cluster (b : bytes) : Z := le32_at b 88.
Definition sb_root_start_cluster (b : bytes) : Z := le32_at b 92.

(** * In memory *)

(** [pf] is the number of an inode in its cache. *)
Record Buffer := mkBuffer {
  b_sector : Z; b_pf : option nat; b_flags : Z; b_access : Z; b_cluster : Z; b_data : bytes }.
#[export] Instance Buffer_eta : Eta Buffer := λ r,
  mkBuffer (b_sector r) (b_pf r) (b_flags r) (b_access r) (b_cluster r) (b_data r).

(** [num_buffers] is the length of [v_buffers]; [v_sb] is [sb_buf]. *)
Record Volume := mkVolume {
  v_sector_bytes : Z;
  v_sb : bytes;
  v_cluster_bytes : Z;
  v_log_cluster_bytes : Z;
  v_sectors_per_cluster : Z;
  v_icluster_count : Z;
  v_buffer_access : Z;
  v_buffer_hit : Z;
  v_buffer_miss : Z;
  v_buffers : list Buffer }.
#[export] Instance Volume_eta : Eta Volume := λ r,
  mkVolume (v_sector_bytes r) (v_sb r) (v_cluster_bytes r) (v_log_cluster_bytes r) (v_sectors_per_cluster r)
    (v_icluster_count r) (v_buffer_access r) (v_buffer_hit r) (v_buffer_miss r) (v_buffers r).

Record PFile := mkPFile { pf_inode : Inode; pf_first_cluster : Z; pf_references : Z }.
#[export] Instance PFile_eta : Eta PFile := λ r, mkPFile (pf_inode r) (pf_first_cluster r) (pf_references r).
Definition zero_inode : Inode := mkInode 0 0 0 0 0 (replicate 15 0) 0 0 0 0 0 (zeroes 24).
Definition zero_PFile : PFile := mkPFile zero_inode 0 0.

Record File := mkFile {
  f_pf : nat; f_flags : Z; f_references : Z; f_magic : Z; f_file_pointer : Z; f_icluster : Z; f_icluster_first : Z }.
#[export] Instance File_eta : Eta File := λ r,
  mkFile (f_pf r) (f_flags r) (f_references r) (f_magic r) (f_file_pointer r) (f_icluster r) (f_icluster_first r).
Definition zero_File : File := mkFile 0 0 0 0 0 0 0.

(** Tables of a page; a list of tables is the list of their entries. *)
Definition FILES_PER_TABLE : nat := 146.
Definition PFILES_PER_TABLE : nat := 29.

(** * The C library

    [lw_fread pos size n] and [lw_fwrite pos bytes size n] are [fseek] to [pos] and a
    transfer of [n] items: the number of items and the bytes read. [lw_stale] is what an
    uninitialised buffer holds, [lw_pointer] what the uninitialised pointer of
    [leanfs_get_file_cluster] does: no buffer, one of those of the volume, by its index, or,
    with an index past them, any other address. *)
Class LeanWorld (W : Type) := {
  lw_fopen : W → bool * W;
  lw_fread : Z → Z → Z → W → (Z * bytes) * W;
  lw_fwrite : Z → bytes → Z → Z → W → Z * W;
  lw_malloc : Z → W → bool * W;
  lw_time : W → Z * W;
  lw_stale : W → bytes;
  lw_pointer : W → option nat }.

(** There is one volume; [l_pfiles] and [l_files] are the entries of the tables from
    [pfiles_head] and [files_head] on. *)
Record lean (W : Type) := mkLean { l_world : W; l_vol : Volume; l_pfiles : list PFile; l_files : list File }.
Arguments mkLean {W}. Arguments l_world {W}. Arguments l_vol {W}. Arguments l_pfiles {W}. Arguments l_files {W}.
#[export] Instance lean_eta W : Eta (lean W) := λ r, mkLean (l_world r) (l_vol r) (l_pfiles r) (l_files r).

Section access.
Context {W : Type} `{LeanWorld W}.
Notation LM := (M (lean W)).

(** [assert]. *)
Definition assert (b : bool) : LM () := if b then mret () else fault.

Definition wcall {A} (f : W → A * W) : LM A :=
  r ← gets (λ s, f (l_world s)); modify (λ s, s <| l_world := snd r |>);; mret (fst r).
Definition vol {A} (f : Volume → A) : LM A := gets (λ s, f (l_vol s)).
Definition sb {A} (f : bytes → A) : LM A := vol (λ v, f (v_sb v)).
Definition mod_vol (f : Volume → Volume) : LM () := modify (λ s, s <| l_vol ::= f |>).

Definition buffer (k : nat) : LM Buffer := b ← vol (λ v, v_buffers v !! k); deref b.
Definition mod_buffer (k : nat) (f : Buffer → Buffer) : LM () :=
  b ← buffer k; mod_vol (λ v, v <| v_buffers ::= <[k := f b]> |>).
(** A pointer to a buffer that must not be null. *)
Definition the_buffer (b : option nat) : LM nat := deref b.

(** [*((uint32_t * ) b->data + i)] *)
Definition word (k : nat) (i : Z) : LM Z :=
  b ← buffer k; if in_block (b_data b) (4 * i) 4 then mret (le32_at (b_data b) (4 * i)) else fault.
(** [memcpy(b->data + i, bs, length bs)] and [memcpy(x, b->data + i, n)]. *)
Definition store_data (k : nat) (i : Z) (bs : bytes) : LM () :=
  b ← buffer k;
  if in_block (b_data b) i (Z.of_nat (length bs)) then mod_buffer k (λ b, b <| b_data ::= λ d, poke d i bs |>) else fault.
Definition load_data (k : nat) (i n : Z) : LM bytes :=
  b ← buffer k; if in_block (b_data b) i n then mret (slice (b_data b) i n) else fault.
Definition set_word (k : nat) (i v : Z) : LM () := store_data k (4 * i) (le32 v).

Definition pfile (i : nat) : LM PFile := p ← gets (λ s, l_pfiles s !! i); deref p.
Definition mod_pfile (i : nat) (f : PFile → PFile) : LM () :=
  p ← pfile i; modify (λ s, s <| l_pfiles ::= <[i := f p]> |>).
Definition mod_inode (i : nat) (f : Inode → Inode) : LM () := mod_pfile i (λ p, p <| pf_inode ::= f |>).
Definition the_file (i : nat) : LM File := f ← gets (λ s, l_files s !! i); deref f.
Definition mod_file (i : nat) (g : File → File) : LM () :=
  f ← the_file i; modify (λ s, s <| l_files ::= <[i := g f]> |>).
End access.
Notation LM W := (M (lean W)).
