(* ===== verification/LeanBlock.v ===== *)
(** The buffers of the LEAN driver ([src/leanfs/blockio.c]) and mounting
    ([src/leanfs/mount.c]). *)
From S2P Require Import Prelude Errno LeanTypes.

Definition BUF_VALID : Z := 1.
Definition BUF_DIRTY : Z := 2.

Section leanblock.
Context {W : Type} `{LeanWorld W}.
Notation LM := (M (lean W)).

(** [fseek(dev, sector * sector_bytes, SEEK_SET)]: the position, a [long]. *)
Definition dev_pos (sector sector_bytes : Z) : Z := s32 (sector * sector_bytes).

(** * Finding a buffer *)

Fixpoint search_for_buffer (cluster : Z) (l : list Buffer) (k : nat) : option nat :=
  match l with
  | [] => None
  | b :: l => if has (b_flags b) BUF_VALID && (cluster =? b_cluster b) then Some k else search_for_buffer cluster l (S k)
  end.

(** [for (k = 0; k < v->num_buffers; k++)], with the least access and its buffer so
    far. *)
Fixpoint least_recently_used (l : list Buffer) (k : nat) (min : Z) (lru : nat) : nat :=
  match l with
  | [] => lru
  | b :: l => if b_access b <? min then least_recently_used l (S k) (b_access b) k else least_recently_used l (S k) min lru
  end.
Definition find_least_recently_used (v : Volume) : nat := least_recently_used (v_buffers v) 0 (v_buffer_access v) 0.

(** * Reading and writing *)

Definition flush_buffer (k : nat) : LM Z :=
  b ← buffer k;
  if has (b_flags b) (Z.lor BUF_VALID BUF_DIRTY) then
    sector_bytes ← vol v_sector_bytes;
    n ← vol v_sectors_per_cluster;
    res ← wcall (lw_fwrite (dev_pos (b_sector b) sector_bytes) (b_data b) sector_bytes n);
    if negb (u32 res =? n) then mret (- EIO)
    else mod_buffer k (λ b, b <| b_flags ::= λ x, Z.land x (Z.lnot BUF_DIRTY) |>);; mret 0
  else mret 0.

Definition leanfs_dirtybuf (k : nat) (write_through : bool) : LM Z :=
  b ← buffer k;
  if has (b_flags b) BUF_VALID then
    mod_buffer k (λ b, b <| b_flags ::= λ x, Z.lor x BUF_DIRTY |>);;
    if write_through then flush_buffer k else mret 0
  else mret (- EINVAL).

(** A buffer is filled from the device. *)
Definition fill_buffer (k : nat) (cluster : Z) (pf : option nat) : LM Z :=
  res ←? flush_buffer k;
  lspc ← sb sb_log_sectors_per_cluster;
  mod_buffer k (λ b, b <| b_flags := 0 |> <| b_sector := u32 (Z.shiftl cluster lspc) |>);;
  b ← buffer k;
  sector_bytes ← vol v_sector_bytes;
  n ← vol v_sectors_per_cluster;
  r ← wcall (lw_fread (dev_pos (b_sector b) sector_bytes) sector_bytes n);
  store_data k 0 (snd r);;
  if negb (u32 (fst r) =? n) then mret (- EIO)
  else mod_buffer k (λ b, b <| b_flags := BUF_VALID |> <| b_cluster := cluster |> <| b_pf := pf |>);; mret 0.

(** The result and [*buffer]. *)
Definition leanfs_readbuf (cluster : Z) (pf : option nat) (buf : option nat) : LM (Z * option nat) :=
  v ← vol (λ v, v);
  match search_for_buffer cluster (v_buffers v) 0 with
  | Some k =>
      mod_vol (λ v, v <| v_buffer_hit ::= λ x, u32 (x + 1) |>);;
      mod_vol (λ v, v <| v_buffer_access ::= λ x, u32 (x + 1) |>);;
      a ← vol v_buffer_access;
      mod_buffer k (λ b, b <| b_access := a |>);;
      mret (0, Some k)
  | None =>
      mod_vol (λ v, v <| v_buffer_miss ::= λ x, u32 (x + 1) |>);;
      let k := match buf with Some k => k | None => find_least_recently_used v end in
      res ← fill_buffer k cluster pf;
      if res <? 0 then mret (res, buf)
      else
        mod_vol (λ v, v <| v_buffer_access ::= λ x, u32 (x + 1) |>);;
        a ← vol v_buffer_access;
        mod_buffer k (λ b, b <| b_access := a |>);;
        mret (0, Some k)
  end.

(** * Synchronization *)

(** [for (k = 0; k < v->num_buffers; k++)] *)
Fixpoint flush_all (n k : nat) : LM Z :=
  match n with
  | O => mret 0
  | S n => res ←? flush_buffer k; flush_all n (S k)
  end.

Definition leanfs_sync : LM Z :=
  sector_bytes ← vol v_sector_bytes;
  buf ← vol v_sb;
  res ← wcall (lw_fwrite (dev_pos 1 sector_bytes) buf sector_bytes 1);
  if negb (res =? 1) then mret (- EIO)
  else
    backup ← sb sb_backup_super;
    r ← leanfs_readbuf backup None None;
    let '(res, b) := r in
    if res <? 0 then mret res
    else
      k ← the_buffer b;
      store_data k 0 (take (Z.to_nat sizeof_SuperBlock) buf);;
      res ←? leanfs_dirtybuf k false;
      n ← vol (λ v, length (v_buffers v));
      flush_all n 0.
End leanblock.

(** * Mounting *)

Section mount.
Context {W : Type} `{LeanWorld W}.
Notation WM := (M W).

Definition call_ {A} (f : W → A * W) : WM A := r ← gets f; modify (λ _, snd r);; mret (fst r).

(** The buffer of the superblock, when it could be read. *)
Definition leanfs_read_superblock (sector_bytes : Z) : WM (Z * bytes) :=
  ok ← call_ (lw_malloc sector_bytes);
  if negb ok then mret (- ENOMEM, [])
  else
    r ← call_ (lw_fread (dev_pos 1 sector_bytes) sector_bytes 1);
    if negb (fst r =? 1) then mret (- EIO, []) else mret (0, snd r).

(** [for (res = 0; res < v->num_buffers; res++)]: the buffers when there is memory for
    all. What they contain is not used before they are filled. *)
Fixpoint alloc_buffers (n : nat) (cluster_bytes : Z) : WM (option (list Buffer)) :=
  match n with
  | O => mret (Some [])
  | S n =>
      ok ← call_ (lw_malloc cluster_bytes);
      if negb ok then mret None
      else
        l ← alloc_buffers n cluster_bytes;
        mret (l ← l; Some (mkBuffer 0 None 0 0 0 (zeroes cluster_bytes) :: l))
  end.

Definition sizeof_Volume : Z := 56.
Definition sizeof_Buffer : Z := 28.

(** The result and the volume on success; the device is there. *)
Definition leanfs_mount : WM (Z * option Volume) :=
  ok ← call_ (lw_malloc (sizeof_Volume + Z.of_nat NUM_BUFFERS * sizeof_Buffer));
  if negb ok then mret (- ENOMEM, None)
  else
    ok ← call_ lw_fopen;
    if negb ok then mret (- ENOENT, None)
    else
      let sector_bytes := 512 in
      r ← leanfs_read_superblock sector_bytes;
      if fst r <? 0 then mret (fst r, None)
      else
        let sb := snd r in
        let lspc := sb_log_sectors_per_cluster sb in
        if negb ((lspc =? 0) || (lspc =? 1) || (lspc =? 2) || (lspc =? 3)) then mret (- EINVAL, None)
        else
          let log := sb_log_bytes_per_sector sb + lspc in
          let cluster_bytes := u32 (Z.shiftl 1 log) in
          l ← alloc_buffers NUM_BUFFERS cluster_bytes;
          match l with
          | None => mret (- ENOMEM, None)
          | Some l =>
              mret (0, Some (mkVolume sector_bytes sb cluster_bytes log (Z.shiftl 1 lspc) (u32 (cluster_bytes / 4 - 1))
                               0 0 0 l))
          end.
End mount.
