(* ===== verification/LeanAlloc.v ===== *)
(** The allocation of clusters of the LEAN driver ([src/leanfs/alloc.c], up to
    [leanfs_append_cluster], and [leanfs_delete_clusters]). *)
From S2P Require Import Prelude Errno LeanTypes LeanBlock.

Section leanalloc.
Context {W : Type} `{LeanWorld W}.
Notation LM := (M (lean W)).

(** * Finding the cluster of a file *)

(** [while (icluster_first < pf->inode.clusters_count)]: the result, the buffer, the
    indirect cluster and its first index. Every turn passes [icluster_count] clusters, so
    that [n] may be the count of clusters left. *)
Fixpoint fetch_loop (n : nat) (pf : nat) (cluster_index icluster icluster_first : Z) (b : option nat)
  : LM (Z * option nat * Z * Z) :=
  p ← pfile pf;
  if icluster_first <? clusters_count (pf_inode p) then
    match n with
    | O => nofuel
    | S n =>
        r ← leanfs_readbuf icluster (Some pf) b;
        let '(res, b) := r in
        if res <? 0 then mret (res, b, 0, 0)
        else
          count ← vol v_icluster_count;
          if (icluster_first <=? cluster_index) && (cluster_index <? u32 (icluster_first + count))
          then mret (0, b, icluster, icluster_first)
          else
            k ← the_buffer b;
            next ← word k count;
            fetch_loop n pf cluster_index next (u32 (icluster_first + count)) b
    end
  else mret (0, b, icluster, icluster_first).

(** The offset of the pointer in the indirect cluster, and its buffer. *)
Definition leanfs_fetch_indirect (f : nat) (cluster_index : Z) (b : option nat) : LM (Z * option nat) :=
  assert (MAX_DIRECT_CLUSTER <? cluster_index);;
  x ← the_file f;
  p ← pfile (f_pf x);
  let '(icluster, icluster_first) :=
    if (f_icluster_first x =? 0) || (cluster_index <? f_icluster_first x)
    then (iclusters_head (pf_inode p), MAX_DIRECT_CLUSTER + 1)
    else (f_icluster x, f_icluster_first x) in
  r ← fetch_loop (Z.to_nat (clusters_count (pf_inode p) - icluster_first)) (f_pf x) cluster_index icluster icluster_first b;
  let '(res, b, icluster, icluster_first) := r in
  mod_file f (λ x, x <| f_icluster := icluster |> <| f_icluster_first := icluster_first |>);;
  mret (if res <? 0 then res else s32 (cluster_index - icluster_first), b).

(** The result and [*cluster]. The pointer [b] is passed on without having been set: it
    is what the stack holds. *)
Definition leanfs_get_file_cluster (f : nat) (cluster_index : Z) : LM (Z * Z) :=
  x ← the_file f;
  p ← pfile (f_pf x);
  if cluster_index =? 0 then mret (0, pf_first_cluster p)
  else if cluster_index <=? MAX_DIRECT_CLUSTER then
    c ← deref (dclusters (pf_inode p) !! Z.to_nat (cluster_index - 1)); mret (0, c)
  else
    b ← gets (λ s, lw_pointer (l_world s));
    r ← leanfs_fetch_indirect f cluster_index b;
    let '(res, b) := r in
    if res <? 0 then mret (res, 0)
    else
      cluster_bytes ← vol v_cluster_bytes;
      assert (res <? cluster_bytes / 4);;
      k ← the_buffer b;
      c ← word k res;
      mret (0, c).

(** * The bitmap *)

(** [for (bit = 0; (bit < 32) && (cluster < v->sb->clusters_count); bit++, cluster++)]: the
    cluster, and whether its bit is clear. *)
Fixpoint find_bit (n : nat) (map bit cluster count : Z) : Z * bool :=
  match n with
  | O => (cluster, false)
  | S n =>
      if cluster <? count then
        if negb (Z.testbit map bit) then (cluster, true) else find_bit n map (bit + 1) (u32 (cluster + 1)) count
      else (cluster, false)
  end.

(** [for (k = 0; (k < v->cluster_bytes) && ...; k += 4, cluster += 32)]: [n] words are
    left. *)
Fixpoint find_word (n : nat) (data : bytes) (k cluster count : Z) : Z * bool :=
  match n with
  | O => (cluster, false)
  | S n =>
      if cluster <? count then
        let map := le32_at data k in
        if negb (map =? 0xFFFFFFFF) then
          let '(cluster, found) := find_bit 32 map 0 cluster count in
          if found then (cluster, true) else find_word n data (k + 4) (u32 (cluster + 32)) count
        else find_word n data (k + 4) (u32 (cluster + 32)) count
      else (cluster, false)
  end.

(** The clusters of the bitmap: each has at least a word, so that [n] may be the count
    of clusters. *)
Fixpoint bitmap_find_from (n : nat) (bitmap_cluster cluster : Z) (b : option nat) : LM (Z * Z) :=
  count ← sb sb_clusters_count;
  if cluster <? count then
    match n with
    | O => nofuel
    | S n =>
        r ← leanfs_readbuf bitmap_cluster None b;
        let '(res, b) := r in
        if res <? 0 then mret (res, 0)
        else
          k ← the_buffer b;
          cluster_bytes ← vol v_cluster_bytes;
          x ← buffer k;
          if in_block (b_data x) 0 cluster_bytes then
            let '(c, found) := find_word (Z.to_nat (cluster_bytes / 4)) (b_data x) 0 cluster count in
            if found then mret (0, c) else bitmap_find_from n (u32 (bitmap_cluster + 1)) c b
          else fault
    end
  else
    free ← sb sb_free_clusters_count;
    assert (free =? 0);;
    mret (- ENOSPC, 0).

Definition leanfs_bitmap_find_free : LM (Z * Z) :=
  free ← sb sb_free_clusters_count;
  if free =? 0 then mret (- ENOSPC, 0)
  else
    start ← sb sb_bitmap_start_cluster;
    count ← sb sb_clusters_count;
    bitmap_find_from (Z.to_nat count) start 0 None.

Definition leanfs_bitmap_set (cluster : Z) (allocate : bool) : LM Z :=
  v ← vol (λ v, v);
  let bitmap_cluster := Z.shiftr cluster (3 + v_log_cluster_bytes v) in
  let bit_of_cluster := Z.land cluster (u32 (v_cluster_bytes v * 8 - 1)) in
  let int_of_cluster := bit_of_cluster / 32 in
  let bit_of_int := bit_of_cluster mod 32 in
  start ← sb sb_bitmap_start_cluster;
  r ← leanfs_readbuf (u32 (bitmap_cluster + start)) None None;
  let '(res, b) := r in
  if res <? 0 then mret res
  else
    assert (int_of_cluster * 4 <? v_cluster_bytes v);;
    k ← the_buffer b;
    map ← word k int_of_cluster;
    free ← sb sb_free_clusters_count;
    if allocate then
      if negb (Z.testbit map bit_of_int) then
        assert (0 <? free);;
        set_word k int_of_cluster (Z.setbit map bit_of_int);;
        res ←? leanfs_dirtybuf k false;
        mod_vol (λ v, v <| v_sb ::= set_free_clusters_count (u32 (free - 1)) |>);;
        mret 0
      else mret 0
    else
      if Z.testbit map bit_of_int then
        count ← sb sb_clusters_count;
        assert (free <? count);;
        set_word k int_of_cluster (Z.clearbit map bit_of_int);;
        res ←? leanfs_dirtybuf k false;
        mod_vol (λ v, v <| v_sb ::= set_free_clusters_count (u32 (free + 1)) |>);;
        mret 0
      else mret 0.

(** * Appending and deleting *)

(** A free cluster, made allocated. *)
Definition take_cluster : LM (Z * Z) :=
  r ← leanfs_bitmap_find_free;
  if fst r <? 0 then mret r
  else
    res ← leanfs_bitmap_set (snd r) true;
    if res <? 0 then mret (res, 0) else mret (0, snd r).

(** [pointer]: a direct address, or a word of a buffer. *)
Inductive pointer := Direct (i : nat) | Indirect (k : nat) (i : Z).
Definition set_pointer (pf : nat) (x : pointer) (v : Z) : LM () :=
  match x with
  | Direct i => mod_inode pf (λ y, y <| dclusters ::= <[i := v]> |>)
  | Indirect k i => set_word k i v
  end.

(** The indirect cluster [free_cluster] linked to the file: its buffer. *)
Definition link_indirect (f pf : nat) (index free_cluster : Z) (b : option nat) : LM (Z * option nat) :=
  res ← (if index =? MAX_DIRECT_CLUSTER + 1 then
           assert (bool_decide (b = None));;
           mod_inode pf (λ y, y <| iclusters_head := free_cluster |>);;
           mret 0
         else
           k ← the_buffer b;
           count ← vol v_icluster_count;
           set_word k count free_cluster;;
           leanfs_dirtybuf k false);
  if res <? 0 then mret (res, b)
  else
    r ← leanfs_readbuf free_cluster (Some pf) b;
    if fst r <? 0 then mret r
    else mod_file f (λ x, x <| f_icluster := free_cluster |>);; mret r.

(** The place of the address of the next cluster; a negative error. *)
Definition append_pointer (f pf : nat) (index : Z) : LM (Z * option pointer) :=
  if index <=? MAX_DIRECT_CLUSTER then
    if index =? 0 then fault else mret (0, Some (Direct (Z.to_nat (index - 1))))
  else
    r ← leanfs_fetch_indirect f index None;
    let '(res, b) := r in
    if res <? 0 then mret (res, None)
    else
      x ← the_file f;
      if f_icluster_first x =? index then
        c ← take_cluster;
        if fst c <? 0 then mret (fst c, None)
        else
          r ← link_indirect f pf index (snd c) b;
          let '(res, b) := r in
          if res <? 0 then mret (res, None)
          else k ← the_buffer b; mret (0, Some (Indirect k res))
      else k ← the_buffer b; mret (0, Some (Indirect k res)).

(** The result and [*cluster]. *)
Definition leanfs_append_cluster (f : nat) : LM (Z * Z) :=
  x ← the_file f;
  let pf := f_pf x in
  p ← pfile pf;
  r ← append_pointer f pf (clusters_count (pf_inode p));
  if fst r <? 0 then mret (fst r, 0)
  else
    place ← deref (snd r);
    c ← take_cluster;
    if fst c <? 0 then mret (fst c, 0)
    else
      mod_inode pf (λ y, y <| clusters_count ::= λ n, u32 (n + 1) |>);;
      set_pointer pf place (snd c);;
      mret (0, snd c).

(** [for (index = new_clusters_count; index < pf->inode.clusters_count; index++)] *)
Fixpoint delete_loop (n : nat) (f : nat) (index : Z) : LM Z :=
  match n with
  | O => mret 0
  | S n =>
      r ← leanfs_get_file_cluster f index;
      if fst r <? 0 then mret (fst r)
      else
        x ← the_file f;
        assert ((f_icluster_first x =? 0) || (MAX_DIRECT_CLUSTER <? f_icluster_first x));;
        res ←? leanfs_bitmap_set (snd r) false;
        res ←? (if negb (index =? 0) && (index =? f_icluster_first x) then leanfs_bitmap_set (f_icluster x) false else mret 0);
        delete_loop n f (index + 1)
  end.
Definition leanfs_delete_clusters (f : nat) (new_clusters_count : Z) : LM Z :=
  x ← the_file f;
  p ← pfile (f_pf x);
  res ←? delete_loop (Z.to_nat (clusters_count (pf_inode p) - new_clusters_count)) f new_clusters_count;
  mod_inode (f_pf x) (λ y, y <| clusters_count := new_clusters_count |>);;
  mret 0.
End leanalloc.
