(* ===== verification/LeanFile.v ===== *)
(** Access to open files of the LEAN driver ([src/leanfs/file.c], and
    [leanfs_validate_pos] of [open.c]). *)
From S2P Require Import Prelude Errno LeanTypes LeanBlock LeanAlloc.

(** A file offset, of type [off_t], as an operand of a comparison with a [uint64_t]. *)
Definition off_u64 (x : Z) : Z := u64 x.

Section leanfile.
Context {W : Type} `{LeanWorld W}.
Notation LM := (M (lean W)).

Definition leanfs_lseek (f : option nat) (offset whence : Z) : LM Z :=
  match f with
  | None => mret (- EINVAL)
  | Some f =>
      x ← the_file f;
      p ← pfile (f_pf x);
      let res :=
        if whence =? SEEK_SET then offset
        else if whence =? SEEK_CUR then s32 (offset + f_file_pointer x)
        else if whence =? SEEK_END then s32 (offset + file_size (pf_inode p))
        else - EINVAL in
      (if 0 <=? res then mod_file f (λ x, x <| f_file_pointer := res |>) else mret ());;
      mret res
  end.

(** * Reading *)

(** The cluster of an offset, and the offset in it. *)
Definition cluster_index_of (v : Volume) (offset : Z) : Z := Z.shiftr (u32 (offset + sizeof_Inode)) (v_log_cluster_bytes v).
Definition byte_in_cluster_of (v : Volume) (offset : Z) : Z :=
  Z.land (u32 (offset + sizeof_Inode)) (u32 (v_cluster_bytes v - 1)).

(** How many bytes the next piece has: up to the end of the cluster, of the file and of
    what is asked for. *)
Definition read_count (v : Volume) (fsize offset k size : Z) : Z :=
  let count := u32 (v_cluster_bytes v - byte_in_cluster_of v offset) in
  let count := if fsize <=? u32 (offset + count) then u32 (fsize - offset) else count in
  if size <? u32 (k + count) then u32 (size - k) else count.

(** [while ((k < size) && (offset < pf->inode.file_size))]: the result, what has been
    read, and the offset. Every turn but the last reaches the end of a cluster. *)
Fixpoint read_loop (n : nat) (f pf : nat) (k size offset : Z) (b : option nat) (l : bytes) : LM (Z * bytes * Z) :=
  p ← pfile pf;
  let fsize := file_size (pf_inode p) in
  if (k <? size) && (off_u64 offset <? fsize) then
    match n with
    | O => nofuel
    | S n =>
        v ← vol (λ v, v);
        r ← leanfs_get_file_cluster f (cluster_index_of v offset);
        if fst r <? 0 then mret (fst r, l, offset)
        else
          v ← vol (λ v, v);
          let count := read_count v fsize offset k size in
          r ← leanfs_readbuf (snd r) (Some pf) b;
          let '(res, b) := r in
          if res <? 0 then mret (res, l, offset)
          else
            j ← the_buffer b;
            bs ← load_data j (byte_in_cluster_of v offset) count;
            read_loop n f pf (u32 (k + count)) size (s32 (offset + count)) b (l ++ bs)
    end
  else mret (k, l, offset).

(** Fuel for the loops over the clusters of a transfer of [size] bytes: the first and the
    last may be in part. *)
Definition transfer_fuel (v : Volume) (size : Z) : nat := S (S (Z.to_nat (size / v_cluster_bytes v))).

Definition access_mode (x : File) : Z := Z.land (f_flags x) O_ACCMODE.

(** The result and the bytes stored in the buffer, which is not null. *)
Definition leanfs_read (f : nat) (size : Z) : LM (Z * bytes) :=
  x ← the_file f;
  p ← pfile (f_pf x);
  if negb (f_magic x =? LEANFS_FILE_MAGIC) then mret (- EBADF, [])
  else
    assert (0 <=? f_file_pointer x);;
    if negb (access_mode x =? O_RDONLY) && negb (access_mode x =? O_RDWR) then mret (- EBADF, [])
    else
      v ← vol (λ v, v);
      r ← read_loop (transfer_fuel v (Z.min size (file_size (pf_inode p)))) f (f_pf x) 0 size (f_file_pointer x) None [];
      let '(res, l, offset) := r in
      if res <? 0 then mret (res, l)
      else
        (if negb (has (f_flags x) O_NOATIME) then
           t ← wcall lw_time; mod_inode (f_pf x) (λ y, y <| acc_time := u32 t |>)
         else mret ());;
        mod_file f (λ x, x <| f_file_pointer := offset |>);;
        mret (s32 res, l).

(** * Writing *)

(** [data]: the bytes, or zeroes. *)
Definition write_piece (data : option bytes) (k count : Z) : bytes :=
  match data with Some l => slice l k count | None => zeroes count end.

Fixpoint write_loop (n : nat) (f pf : nat) (data : option bytes) (k size offset : Z) (b : option nat) (fsync : bool)
  : LM Z :=
  if k <? size then
    match n with
    | O => nofuel
    | S n =>
        v ← vol (λ v, v);
        p ← pfile pf;
        let cluster_index := cluster_index_of v offset in
        assert (cluster_index <=? clusters_count (pf_inode p));;
        r ← (if cluster_index <? clusters_count (pf_inode p) then leanfs_get_file_cluster f cluster_index
             else leanfs_append_cluster f);
        if fst r <? 0 then mret (fst r)
        else
          v ← vol (λ v, v);
          let byte_in_cluster := byte_in_cluster_of v offset in
          let count := u32 (v_cluster_bytes v - byte_in_cluster) in
          let count := if size <? u32 (k + count) then u32 (size - k) else count in
          p ← pfile pf;
          (if file_size (pf_inode p) <=? u32 (offset + count)
           then mod_inode pf (λ y, y <| file_size := u32 (offset + count) |>) else mret ());;
          r ← leanfs_readbuf (snd r) (Some pf) b;
          let '(res, b) := r in
          if res <? 0 then mret res
          else
            j ← the_buffer b;
            store_data j byte_in_cluster (write_piece data k count);;
            res ←? leanfs_dirtybuf j fsync;
            write_loop n f pf data (u32 (k + count)) size (s32 (offset + count)) b fsync
    end
  else mret k.

Definition do_write (f : nat) (data : option bytes) (size offset : Z) : LM Z :=
  if size =? 0 then mret 0
  else
    x ← the_file f;
    p ← pfile (f_pf x);
    assert ((0 <=? offset) && (off_u64 offset <=? file_size (pf_inode p)));;
    v ← vol (λ v, v);
    res ←? write_loop (transfer_fuel v size) f (f_pf x) data 0 size offset None (has (f_flags x) O_FSYNC);
    t ← wcall lw_time;
    mod_inode (f_pf x) (λ y, y <| mod_time := u32 t |> <| acc_time := u32 t |>);;
    mret (s32 res).

Definition not_writable (x : File) : bool := negb (access_mode x =? O_WRONLY) && negb (access_mode x =? O_RDWR).

(** [buffer] is not null. The count of padding bytes is part of the result, and an error
    of the padding, as a large unsigned number, is not less than what is missing. *)
Definition leanfs_write (f : nat) (data : bytes) : LM Z :=
  let size := Z.of_nat (length data) in
  x ← the_file f;
  if negb (f_magic x =? LEANFS_FILE_MAGIC) then mret (- EBADF)
  else
    assert (0 <=? f_file_pointer x);;
    if not_writable x then mret (- EBADF)
    else if size =? 0 then mret 0
    else
      p ← pfile (f_pf x);
      (if has (f_flags x) O_APPEND then mod_file f (λ x, x <| f_file_pointer := s32 (file_size (pf_inode p)) |>)
       else mret ());;
      x ← the_file f;
      let gap := u64 (f_file_pointer x - file_size (pf_inode p)) in
      r ← (if file_size (pf_inode p) <? off_u64 (f_file_pointer x) then
             res ← do_write f None (u32 gap) (s32 (file_size (pf_inode p)));
             q ← pfile (f_pf x);
             mret (res, u64 res <? u64 (f_file_pointer x - file_size (pf_inode q)))
           else mret (0, false));
      let '(num_written, stop) := r in
      if (stop : bool) then mret num_written
      else
        res ←? do_write f (Some data) size (f_file_pointer x);
        mod_file f (λ x, x <| f_file_pointer ::= λ p, s32 (p + res) |>);;
        mret (s32 (num_written + res)).

(** * Truncating *)

(** The cached positions of the instances of an inode that are past its end. *)
Definition leanfs_validate_pos (pf : nat) : LM () :=
  p ← pfile pf;
  modify (λ s, s <| l_files ::= map (λ f,
    if nz (f_references f) && (f_pf f =? pf)%nat && (clusters_count (pf_inode p) <=? f_icluster_first f)
    then f <| f_icluster := 0 |> <| f_icluster_first := 0 |> else f) |>).

Definition leanfs_ftruncate (f : option nat) (length : Z) : LM Z :=
  match f with
  | None => mret (- EINVAL)
  | Some f =>
      if length <? 0 then mret (- EINVAL)
      else
        x ← the_file f;
        if not_writable x then mret (- EBADF)
        else
          p ← pfile (f_pf x);
          let fsize := file_size (pf_inode p) in
          if off_u64 length <? fsize then
            v ← vol (λ v, v);
            let new_clusters_count :=
              Z.shiftr (u32 (length + sizeof_Inode + v_cluster_bytes v - 1)) (v_log_cluster_bytes v) in
            res ←? leanfs_delete_clusters f new_clusters_count;
            mod_inode (f_pf x) (λ y, y <| file_size := length |>);;
            leanfs_validate_pos (f_pf x);;
            mret 0
          else if fsize <? off_u64 length then
            do_write f None (u32 (length - fsize)) (s32 fsize)
          else mret 0
  end.
End leanfile.
