(* ===== verification/LeanDir.v ===== *)
(** Directories and open files of the LEAN driver ([src/leanfs/dir.c], [open.c], and
    [leanfs_create_inode] of [alloc.c]). *)
From S2P Require Import Prelude Errno LeanTypes LeanBlock LeanAlloc LeanFile.

Section leandir.
Context {W : Type} `{LeanWorld W}.
Notation LM := (M (lean W)).

Definition is_directory (attr : Z) : bool := Z.land attr LEANFS_IFMT =? LEANFS_IFDIR.

(** * Reading a directory *)

(** [de->name], up to its null. *)
Fixpoint until_null (l : bytes) : bytes :=
  match l with [] => [] | c :: l => if c =? 0 then [] else c :: until_null l end.
Definition entry_name (de : bytes) : bytes := until_null (drop 8 de).

(** An entry is the bytes of a [struct DirEntry]; the result and the entry. [n] entries
    may be deleted: each takes at least a byte of the directory. *)
Fixpoint readdir_loop (n : nat) (dir : nat) (de : bytes) : LM (Z * bytes) :=
  match n with
  | O => nofuel
  | S n =>
      r ← leanfs_read dir sizeof_DirEntryHeader;
      let '(res, h) := r in
      if res <? 0 then mret (res, de)
      else if res =? 0 then mret (- ENOENT, de)
      else if negb (res =? sizeof_DirEntryHeader) then mret (- EIO, de)
      else
        let d := decode_DirEntryHeader h in
        let rest := u32 (de_rec_len d - sizeof_DirEntryHeader) in
        r ← leanfs_read dir rest;
        let '(res, name) := r in
        if sizeof_DirEntry - sizeof_DirEntryHeader <? Z.of_nat (length name) then fault
        else
          let de := poke (poke de 0 h) sizeof_DirEntryHeader name in
          if res <? 0 then mret (res, de)
          else if negb (u32 res =? rest) then mret (- EIO, de)
          else if de_inode d =? 0 then readdir_loop n dir de
          else mret (0, poke de (sizeof_DirEntryHeader + de_name_len d) [0])
  end.
Definition do_readdir (dir : nat) (de : bytes) : LM (Z * bytes) :=
  x ← the_file dir;
  p ← pfile (f_pf x);
  readdir_loop (S (Z.to_nat (file_size (pf_inode p)))) dir de.

(** The result, and what the callback is given: the name, its length, the position, the
    number of the inode and the type. The result of the callback is the caller's. *)
Definition leanfs_readdir (dir : option nat) : LM (Z * option (bytes * Z * Z * Z * Z)) :=
  match dir with
  | None => mret (- EINVAL, None)
  | Some dir =>
      x ← the_file dir;
      p ← pfile (f_pf x);
      if negb (is_directory (attributes (pf_inode p))) then mret (- ENOTDIR, None)
      else
        w ← gets l_world;
        r ← do_readdir dir (lw_stale w);
        if fst r <? 0 then mret (fst r, None)
        else
          let de := snd r in
          let d := decode_DirEntryHeader de in
          x ← the_file dir;
          mret (0, Some (entry_name de, de_name_len d, f_file_pointer x, de_inode d,
                         if de_type d =? LEANFS_FT_DIR then DT_DIR else DT_REG))
  end.

(** [while ((res = do_readdir(dir, de)) == 0)] *)
Fixpoint find_loop (n : nat) (dir : nat) (name : bytes) (de : bytes) : LM (Z * bytes) :=
  match n with
  | O => nofuel
  | S n =>
      r ← do_readdir dir de;
      let '(res, de) := r in
      if negb (res =? 0) then mret (res, de)
      else if bool_decide (name = entry_name de) then mret (0, de)
      else find_loop n dir name de
  end.
Definition leanfs_find (dir : nat) (name : bytes) (de : bytes) : LM (Z * bytes) :=
  x ← the_file dir;
  p ← pfile (f_pf x);
  if negb (is_directory (attributes (pf_inode p))) then mret (- ENOTDIR, de)
  else
    mod_file dir (λ x, x <| f_file_pointer := 0 |>);;
    find_loop (S (Z.to_nat (file_size (pf_inode p)))) dir name de.

(** * Adding an entry *)

(** The search for [rec_len] bytes: the position of the last entry seen, and how many
    free bytes end with it. *)
Fixpoint free_space (n : nat) (dir : nat) (rec_len found : Z) : LM (Z * Z * Z) :=
  match n with
  | O => nofuel
  | S n =>
      x ← the_file dir;
      let last_pos := f_file_pointer x in
      r ← leanfs_read dir sizeof_DirEntryHeader;
      let '(res, h) := r in
      if res <? 0 then mret (res, last_pos, found)
      else if res =? 0 then mret (0, last_pos, rec_len)
      else if negb (res =? sizeof_DirEntryHeader) then mret (- EIO, last_pos, found)
      else
        let d := decode_DirEntryHeader h in
        let found := if de_inode d =? 0 then u32 (found + de_rec_len d) else 0 in
        if rec_len <=? found then mret (0, last_pos, found)
        else
          mod_file dir (λ x, x <| f_file_pointer := s32 (last_pos + de_rec_len d) |>);;
          free_space n dir rec_len found
  end.

(** [leanfs_write] of all of [bs], else -ENOSPC; at least 0 on success. *)
Definition write_all (dir : nat) (bs : bytes) : LM Z :=
  res ←? leanfs_write dir bs;
  if u32 res <? Z.of_nat (length bs) then mret (- ENOSPC) else mret res.

Definition leanfs_do_link (dir : nat) (first_cluster ftype : Z) (name : bytes) : LM Z :=
  let name_len := Z.of_nat (length name) in
  let rec_len := Z.land (sizeof_DirEntryHeader + name_len + 3) (u32 (Z.lnot 3)) in
  if 255 <? name_len then mret (- ENAMETOOLONG)
  else
    x ← the_file dir;
    p ← pfile (f_pf x);
    if negb (is_directory (attributes (pf_inode p))) then mret (- ENOTDIR)
    else
      r ← free_space (S (Z.to_nat (file_size (pf_inode p)))) dir rec_len 0;
      let '(res, last_pos, found) := r in
      if res <? 0 then mret res
      else
        mod_file dir (λ x, x <| f_file_pointer := last_pos |>);;
        let len := if u32 (found - rec_len) <? sizeof_DirEntryHeader + 4 then found else rec_len in
        res ←? write_all dir (encode_DirEntryHeader (mkDirEntry first_cluster len name_len ftype));
        res ←? write_all dir name;
        res ←? write_all dir (zeroes (rec_len - name_len - sizeof_DirEntryHeader));
        res ←? (if sizeof_DirEntryHeader + 4 <=? u32 (found - rec_len)
                then write_all dir (encode_DirEntryHeader (mkDirEntry 0 (found - rec_len) 0 0)) else mret 0);
        mod_file dir (λ x, x <| f_file_pointer := last_pos |>);;
        mret 0.

Definition leanfs_link (old_file new_dir : nat) (new_name : bytes) : LM Z :=
  x ← the_file old_file;
  p ← pfile (f_pf x);
  res ←? leanfs_do_link new_dir (pf_first_cluster p) (LEANFS_IFMT_TO_FT (attributes (pf_inode p))) new_name;
  mod_inode (f_pf x) (λ y, y <| links_count ::= λ n, u32 (n + 1) |>);;
  mret 0.

(** * Creating an inode *)

Definition leanfs_create_inode (parent : nat) (attr : Z) (name : bytes) : LM Z :=
  c ← take_cluster;
  if fst c <? 0 then mret (fst c)
  else
    r ← leanfs_readbuf (snd c) None None;
    let '(res, b) := r in
    if res <? 0 then mret res
    else
      k ← the_buffer b;
      t ← wcall lw_time;
      let t := u32 t in
      store_data k 0 (encode_Inode (zero_inode <| cre_time := t |> <| mod_time := t |> <| acc_time := t |>
        <| attributes := attr |> <| clusters_count := 1 |> <| links_count := 1 |>));;
      res ←? leanfs_dirtybuf k false;
      res ←? leanfs_do_link parent (snd c) (LEANFS_IFMT_TO_FT attr) name;
      mret 0.

(** * The cache of inodes and the table of files *)

(** The open inode of a cluster; the last free entry seen before it. *)
Fixpoint find_pfile (first_cluster : Z) (l : list PFile) (k : nat) (free : option nat) : option nat * option nat :=
  match l with
  | [] => (None, free)
  | p :: l =>
      if (pf_first_cluster p =? first_cluster) && nz (pf_references p) then (Some k, free)
      else find_pfile first_cluster l (S k) (if pf_references p =? 0 then Some k else free)
  end.

Definition leanfs_is_open (first_cluster : Z) : LM (option nat) :=
  gets (λ s, fst (find_pfile first_cluster (l_pfiles s) 0 None)).

Definition sizeof_PFileTable : Z := 4096.
Definition sizeof_FileTable : Z := 4096.

(** A free entry of the cache, in a new table when there is none. *)
Definition free_pfile (free : option nat) : LM (option nat) :=
  match free with
  | Some k => mret (Some k)
  | None =>
      ok ← wcall (lw_malloc sizeof_PFileTable);
      if negb ok then mret None
      else
        k ← gets (λ s, length (l_pfiles s));
        modify (λ s, s <| l_pfiles ::= λ l, l ++ replicate PFILES_PER_TABLE zero_PFile |>);;
        mret (Some k)
  end.

(** The result and [*out_pf]. *)
Definition take_pfile (first_cluster : Z) : LM (Z * option nat) :=
  assert (nz first_cluster);;
  r ← gets (λ s, find_pfile first_cluster (l_pfiles s) 0 None);
  match fst r with
  | Some k => mod_pfile k (λ p, p <| pf_references ::= λ n, u32 (n + 1) |>);; mret (0, Some k)
  | None =>
      k ← free_pfile (snd r);
      match k with
      | None => mret (- ENOMEM, None)
      | Some k =>
          r ← leanfs_readbuf first_cluster None None;
          let '(res, b) := r in
          if res <? 0 then mret (res, None)
          else
            j ← the_buffer b;
            bs ← load_data j 0 sizeof_Inode;
            mod_pfile k (λ _, mkPFile (decode_Inode bs) first_cluster 1);;
            mod_buffer j (λ b, b <| b_pf := Some k |>);;
            mret (0, Some k)
      end
  end.

Definition release_pfile (k : nat) : LM Z :=
  p ← pfile k;
  if pf_references p =? 0 then mret (- EBADF)
  else
    mod_pfile k (λ p, p <| pf_references ::= λ n, u32 (n - 1) |>);;
    p ← pfile k;
    res ←? (if pf_references p =? 0 then
              r ← leanfs_readbuf (pf_first_cluster p) (Some k) None;
              let '(res, b) := r in
              if res <? 0 then mret res
              else j ← the_buffer b; store_data j 0 (encode_Inode (pf_inode p));; leanfs_dirtybuf j false
            else mret 0);
    mret (s32 (pf_references p)).

Fixpoint last_free_file (l : list File) (k : nat) (free : option nat) : option nat :=
  match l with
  | [] => free
  | f :: l => last_free_file l (S k) (if f_references f =? 0 then Some k else free)
  end.

(** The new file, none without memory. *)
Definition take_file (pf : nat) (flags : Z) : LM (option nat) :=
  free ← gets (λ s, last_free_file (l_files s) 0 None);
  k ← (match free with
       | Some k => mret (Some k)
       | None =>
           ok ← wcall (lw_malloc sizeof_FileTable);
           if negb ok then mret None
           else
             k ← gets (λ s, length (l_files s));
             modify (λ s, s <| l_files ::= λ l, l ++ replicate FILES_PER_TABLE zero_File |>);;
             mret (Some k)
       end);
  match k with
  | None => mret None
  | Some k => mod_file k (λ _, mkFile pf flags 1 LEANFS_FILE_MAGIC 0 0 0);; mret (Some k)
  end.

(** * Opening and closing *)

(** What opening the inode is refused with, 0 when it is not. *)
Definition open_refused (create : bool) (attr flags : Z) : Z :=
  let writes := has flags O_WRONLY || has flags O_RDWR in
  if negb create && negb (has attr LEANFS_IRUSR) && (has flags O_RDONLY || has flags O_RDWR) then - EACCES
  else if negb create && negb (has attr LEANFS_IWUSR) && (writes || has flags O_TRUNC) then - EACCES
  else if is_directory attr && negb (has flags O_DIRECTORY) && (writes || has flags O_TRUNC) then - EISDIR
  else if has flags O_DIRECTORY && negb (is_directory attr) then - ENOTDIR
  else 0.

(** The entry of the name, created when it may be: the result, whether it is new, and
    the entry. Without a [mode] there is none to create it with. *)
Definition find_or_create (parent : nat) (name : bytes) (flags : Z) (mode : option Z) (de : bytes) : LM (Z * bool * bytes) :=
  r ← leanfs_find parent name de;
  let '(res, de) := r in
  assert (res <=? 0);;
  if (res =? - ENOENT) && has flags O_CREAT then
    attr ← deref mode;
    res ← leanfs_create_inode parent (u32 attr) name;
    if res <? 0 then mret (res, false, de)
    else
      r ← leanfs_find parent name de;
      let '(res, de) := r in
      if res <? 0 then mret (res, false, de) else mret (0, true, de)
  else mret (res, false, de).

(** The result and [*file], which is not set when the function returns earlier. *)
Definition leanfs_open (parent : option nat) (name : bytes) (flags : Z) (mode : option Z) : LM (Z * option nat) :=
  match parent with
  | None => mret (- EINVAL, None)
  | Some parent =>
      w ← gets l_world;
      r ← find_or_create parent name flags mode (lw_stale w);
      let '(res, create, de) := r in
      if res <? 0 then mret (res, None)
      else if negb create && has flags O_CREAT && has flags O_EXCL then mret (- EEXIST, None)
      else
        r ← take_pfile (de_inode (decode_DirEntryHeader de));
        let '(res, pf) := r in
        if res <? 0 then mret (res, None)
        else
          pf ← deref pf;
          p ← pfile pf;
          let res := open_refused create (attributes (pf_inode p)) flags in
          if negb (res =? 0) then release_pfile pf;; mret (res, None)
          else
            f ← take_file pf flags;
            match f with
            | None => release_pfile pf;; mret (- ENOMEM, None)
            | Some f => mret (0, Some f)
            end
  end.

Definition leanfs_close (f : nat) : LM Z :=
  x ← the_file f;
  if f_references x =? 0 then mret (- EBADF)
  else
    mod_file f (λ x, x <| f_references ::= λ n, u32 (n - 1) |>);;
    x ← the_file f;
    (if f_references x =? 0 then release_pfile (f_pf x);; mret () else mret ());;
    p ← pfile (f_pf x);
    if pf_references p =? 0 then
      res ←? (if links_count (pf_inode p) =? 0 then leanfs_delete_clusters f 0 else mret 0);
      res ←? leanfs_sync;
      mret 0
    else mret 0.

(** * Removing *)

(** [f] is used also when it could not be opened. *)
Definition drop_link (parent : nat) (name : bytes) (inode : Z) : LM Z :=
  pf ← leanfs_is_open inode;
  match pf with
  | None =>
      r ← leanfs_open (Some parent) name O_WRONLY None;
      f ← deref (snd r);
      x ← the_file f;
      p ← pfile (f_pf x);
      if links_count (pf_inode p) =? 0 then mret (- EIO)
      else mod_inode (f_pf x) (λ y, y <| links_count ::= λ n, u32 (n - 1) |>);; leanfs_close f;; mret 0
  | Some pf =>
      p ← pfile pf;
      if links_count (pf_inode p) =? 0 then mret (- EIO)
      else mod_inode pf (λ y, y <| links_count ::= λ n, u32 (n - 1) |>);; mret 0
  end.

Definition leanfs_unlink (parent : nat) (name : bytes) : LM Z :=
  w ← gets l_world;
  r ← leanfs_find parent name (lw_stale w);
  let '(res, de) := r in
  if res <? 0 then mret res
  else
    let d := decode_DirEntryHeader de in
    res ←? drop_link parent name (de_inode d);
    x ← the_file parent;
    assert (0 <=? s32 (f_file_pointer x - de_rec_len d));;
    mod_file parent (λ x, x <| f_file_pointer ::= λ p, s32 (p - de_rec_len d) |>);;
    res ←? leanfs_write parent (encode_DirEntryHeader (d <| de_inode := 0 |>));
    if negb (res =? sizeof_DirEntryHeader) then mret (- EIO) else mret res.

(** The entries of an empty directory. *)
Definition dot_entries (self parent : Z) : bytes :=
  encode_DirEntryHeader (mkDirEntry self 12 1 LEANFS_FT_DIR) ++ [46; 0; 0; 0] ++
  encode_DirEntryHeader (mkDirEntry parent 12 2 LEANFS_FT_DIR) ++ [46; 46; 0; 0].

Definition leanfs_mkdir (parent : nat) (name : bytes) (mode : Z) : LM Z :=
  r ← leanfs_open (Some parent) name (Z.lor (Z.lor (Z.lor O_WRONLY O_CREAT) O_EXCL) O_DIRECTORY) (Some mode);
  if fst r <? 0 then mret (fst r)
  else
    f ← deref (snd r);
    x ← the_file f;
    p ← pfile (f_pf x);
    y ← the_file parent;
    q ← pfile (f_pf y);
    let e := dot_entries (pf_first_cluster p) (pf_first_cluster q) in
    res ←? leanfs_write f e;
    if u32 res <? Z.of_nat (length e) then mret (- ENOSPC)
    else
      mod_inode (f_pf x) (λ y, y <| links_count ::= λ n, u32 (n + 2) |>);;
      leanfs_close f.

(** [(de.name_len != 1) || memcpy(de.name, ".", 1)]: [memcpy] gives the address of the
    name. *)
Definition leanfs_rmdir (parent : nat) (name : bytes) : LM Z :=
  mod_file parent (λ x, x <| f_file_pointer := 0 |>);;
  r ← leanfs_open (Some parent) name (Z.lor O_RDONLY O_DIRECTORY) None;
  if fst r <? 0 then mret (fst r)
  else
    f ← deref (snd r);
    w ← gets l_world;
    r ← do_readdir f (lw_stale w);
    if fst r <? 0 then mret (fst r)
    else
      let memcpy_address_is_null := false in
      if negb (de_name_len (decode_DirEntryHeader (snd r)) =? 1) || negb memcpy_address_is_null then mret (- EIO)
      else
        r ← do_readdir f (snd r);
        if fst r <? 0 then mret (fst r)
        else if negb (de_name_len (decode_DirEntryHeader (snd r)) =? 2) || negb memcpy_address_is_null then mret (- EIO)
        else
          r ← do_readdir f (snd r);
          if fst r =? 0 then mret (- ENOTEMPTY)
          else if negb (fst r =? - ENOENT) then mret (fst r)
          else res ←? leanfs_close f; mret 0.

(** * Paths *)

Definition PATHSEP : Z := 47.

(** Backwards from [i] while the character is (or is not) a separator and [i] is not 0. *)
Fixpoint back (s : bytes) (while_sep : bool) (i : nat) : nat :=
  match i with
  | O => O
  | S j => if Bool.eqb (default 0 (s !! i) =? PATHSEP) while_sep then back s while_sep j else i
  end.
(** The place of the last component, none for a null pointer. *)
Definition leanfs_basename (file_name : bytes) : option nat :=
  match length file_name with
  | O => None
  | S last =>
      match back file_name true last with
      | O => None
      | i => let i := back file_name false i in
             Some (if default 0 (file_name !! i) =? PATHSEP then S i else i)
      end
  end.

Fixpoint skip_seps (l : bytes) : bytes :=
  match l with c :: l' => if c =? PATHSEP then skip_seps l' else l | [] => [] end.
Fixpoint component (l : bytes) : bytes * bytes :=
  match l with
  | c :: l' => if c =? PATHSEP then ([], l) else let '(a, r) := component l' in (c :: a, r)
  | [] => ([], [])
  end.

(** Down the path: [bname] is how many characters the last component starts before the
    end, none for a null pointer. [n] is the length of the path. *)
Fixpoint descend (n : nat) (path : bytes) (bname : option nat) (flags : Z) (parent : option nat) : LM (Z * option nat) :=
  match path with
  | [] => mret (0, parent)
  | _ =>
      match n with
      | O => nofuel
      | S n =>
          let path := skip_seps path in
          let real_flags := if bool_decide (bname = Some (length path)) then flags else Z.lor O_RDONLY O_DIRECTORY in
          let '(comp, rest) := component path in
          if NAME_MAX <=? Z.of_nat (length comp) then fault
          else
            let real_flags :=
              match rest with c :: _ => if c =? PATHSEP then Z.lor real_flags O_DIRECTORY else real_flags | [] => real_flags end in
            r ← leanfs_open parent comp real_flags None;
            if fst r <? 0 then mret r
            else
              (match parent with Some p => leanfs_close p;; mret () | None => fault end);;
              descend n rest bname flags (snd r)
      end
  end.

(** The result and [*f]. *)
Definition fs_open (file_name : bytes) (flags : Z) : LM (Z * option nat) :=
  root ← sb sb_root_start_cluster;
  r ← take_pfile root;
  let '(res, pf) := r in
  if res <? 0 then mret (res, None)
  else
    pf ← deref pf;
    parent ← take_file pf (Z.lor O_RDONLY O_DIRECTORY);
    if negb (default 0 (head file_name) =? PATHSEP) then mret (- EINVAL, None)
    else
      let bname := leanfs_basename file_name in
      descend (length file_name) file_name ((λ i, length file_name - i)%nat <$> bname) flags parent.
End leandir.
