(* ===== verification/LeanMkfs.v ===== *)
(** Making a LEAN file system ([src/leanfs/mkfs.c]). *)
From S2P Require Import Prelude Errno LeanTypes LeanBlock LeanDir.

Section mkfs.
Context {W : Type} `{LeanWorld W}.
Notation WM := (M W).

(** [count] sectors from [sector] on. *)
Definition write_sectors (data : bytes) (count sector sector_size : Z) : WM Z :=
  call_ (lw_fwrite (dev_pos sector sector_size) data sector_size count).

(** The result is compared with 1, whatever the count of sectors: true is success for
    the callers. *)
Definition write_cluster (data : bytes) (log_bytes_per_sector log_sectors_per_cluster cluster : Z) : WM bool :=
  res ← write_sectors data (Z.shiftl 1 log_sectors_per_cluster) (Z.shiftl cluster log_sectors_per_cluster)
          (Z.shiftl 1 log_bytes_per_sector);
  mret (negb (res =? 1)).

(** The sum of the first 25 words. *)
Definition leanfs_checksum (superblock : bytes) : Z :=
  foldl (λ res k, u32 (res + le32_at superblock (4 * k))) 0 (seqZ 0 25).

(** "New LEAN volume" *)
Definition volume_label : bytes := [78; 101; 119; 32; 76; 69; 65; 78; 32; 118; 111; 108; 117; 109; 101].

Definition mkfs_superblock (clusters log_bytes_per_sector log_sectors_per_cluster bitmap_clusters_count : Z) : bytes :=
  let bitmap_start_cluster := if log_sectors_per_cluster =? 0 then 2 else 1 in
  let backup_super := bitmap_start_cluster + bitmap_clusters_count in
  let root_start_cluster := backup_super + 1 in
  let sb :=
    le32 LEANFS_SB_MAGIC ++ le32 0 ++ zeroes 64 ++ le16 0 ++ [u8 log_bytes_per_sector; u8 log_sectors_per_cluster] ++
    le32 backup_super ++ le32 clusters ++ le32 (clusters - root_start_cluster - 1) ++ le32 bitmap_start_cluster ++
    le32 root_start_cluster ++ zeroes 416 in
  poke (poke (poke sb 100 (le32 (leanfs_checksum sb))) 104 (le32 LEANFS_SB_CLEAN)) 8 volume_label.

(** [while ((cluster <= sb.root_start_cluster) && (k < cluster_bytes))]: the bitmap cluster
    from [buffer[k]] on, and the next cluster. *)
Fixpoint fill_bitmap (n : nat) (buffer : bytes) (k bit cluster root cluster_bytes : Z) : bytes * Z :=
  match n with
  | O => (buffer, cluster)
  | S n =>
      if (cluster <=? root) && (k <? cluster_bytes) then
        let buffer := poke buffer k [Z.lor (byte_at buffer k) (Z.shiftl 1 bit)] in
        if bit + 1 =? 8 then fill_bitmap n buffer (k + 1) 0 (cluster + 1) root cluster_bytes
        else fill_bitmap n buffer k (bit + 1) (cluster + 1) root cluster_bytes
      else (buffer, cluster)
  end.

(** The clusters of the bitmap; false when one could not be written. *)
Fixpoint write_bitmap (n : nat) (i cluster start root lbps lspc cluster_bytes : Z) : WM bool :=
  match n with
  | O => mret true
  | S n =>
      let '(buffer, cluster) := fill_bitmap (Z.to_nat (root + 1)) (zeroes cluster_bytes) 0 0 cluster root cluster_bytes in
      ok ← write_cluster buffer lbps lspc (i + start);
      if negb ok then mret false else write_bitmap n (i + 1) cluster start root lbps lspc cluster_bytes
  end.

Definition root_inode (cluster_bytes : Z) : Inode :=
  zero_inode <| file_size := 24 |> <| clusters_count := (24 + cluster_bytes - 1) / cluster_bytes |>
    <| attributes := Z.lor (Z.lor (Z.lor LEANFS_IRUSR LEANFS_IWUSR) LEANFS_IXUSR) LEANFS_IFDIR |>
    <| links_count := 2 |>.

(** [buffer], padded with zeroes. *)
Definition in_cluster (data : bytes) (cluster_bytes : Z) : bytes := data ++ zeroes (cluster_bytes - Z.of_nat (length data)).

Definition mkleanfs (clusters log_bytes_per_sector log_sectors_per_cluster : Z) : WM Z :=
  let sector_bytes := Z.shiftl 1 log_bytes_per_sector in
  let cluster_bytes := Z.shiftl sector_bytes log_sectors_per_cluster in
  let bitmap_clusters_count := u32 (clusters + cluster_bytes * 8 - 1) / (cluster_bytes * 8) in
  let sb := mkfs_superblock clusters log_bytes_per_sector log_sectors_per_cluster bitmap_clusters_count in
  let root := sb_root_start_cluster sb in
  ok ← call_ lw_fopen;
  if negb ok then mret (-1)
  else if cluster_bytes <? sizeof_SuperBlock then fault
  else
    let buffer := in_cluster sb cluster_bytes in
    res ← write_sectors buffer 1 1 sector_bytes;
    if negb (res =? 1) then mret (-1)
    else
      ok ← write_cluster buffer log_bytes_per_sector log_sectors_per_cluster (sb_backup_super sb);
      if negb ok then mret (-1)
      else
        ok ← write_bitmap (Z.to_nat bitmap_clusters_count) 0 0 (sb_bitmap_start_cluster sb) root log_bytes_per_sector
               log_sectors_per_cluster cluster_bytes;
        if negb ok then mret (-1)
        else
          let data := encode_Inode (root_inode cluster_bytes) ++ dot_entries root root in
          ok ← write_cluster (in_cluster data cluster_bytes) log_bytes_per_sector log_sectors_per_cluster root;
          if negb ok then mret (-1) else mret 0.
End mkfs.
