(* ===== verification/LeanCache.v ===== *)
(** The buffers of the LEAN driver, proved: whatever is buffered, the driver sees the
    clusters of the volume as an array, which [leanfs_readbuf] reads. *)
From S2P Require Import Prelude Errno LeanTypes LeanBlock.

(** The device is a file of a fixed size that does not fail. *)
Class SolidFile (W : Type) `{LeanWorld W} := {
  content : W → bytes;
  sf_read pos size n w :
    0 ≤ pos → 0 ≤ size * n → pos + size * n ≤ Z.of_nat (length (content w)) →
    ∃ w', lw_fread pos size n w = ((n, slice (content w) pos (size * n)), w') ∧ content w' = content w;
  sf_write pos bs size n w :
    0 ≤ pos → Z.of_nat (length bs) = size * n → pos + size * n ≤ Z.of_nat (length (content w)) →
    ∃ w', lw_fwrite pos bs size n w = (n, w') ∧ content w' = poke (content w) pos bs;
  sf_malloc n w : content (lw_malloc n w).2 = content w;
  sf_time w : content (lw_time w).2 = content w }.

Section leancache.
Context {W : Type} `{LW : LeanWorld W} `{SF : !SolidFile W}.
Notation LM := (M (lean W)).
Implicit Types (s : lean W) (v : Volume) (w : W) (c : Z) (b : Buffer).

(** * The invariant *)

Definition clusters v : Z := sb_clusters_count (v_sb v).
Record geometry_ok v (size : Z) : Prop := {
  g_log : 9 ≤ v_log_cluster_bytes v ≤ 15;
  g_cluster : v_cluster_bytes v = 2 ^ v_log_cluster_bytes v;
  g_spc : 0 ≤ sb_log_sectors_per_cluster (v_sb v) < 8
          ∧ v_sectors_per_cluster v = 2 ^ sb_log_sectors_per_cluster (v_sb v);
  g_sector : v_sector_bytes v * v_sectors_per_cluster v = v_cluster_bytes v;
  g_icount : v_icluster_count v = v_cluster_bytes v / 4 - 1;
  g_sb : 512 ≤ Z.of_nat (length (v_sb v));
  g_clusters : 0 ≤ clusters v;
  g_size : clusters v * v_cluster_bytes v ≤ size < 2 ^ 31;
  g_buffers : (0 < length (v_buffers v))%nat }.

Definition valid b : Prop := has (b_flags b) BUF_VALID = true.
#[local] Instance valid_dec b : Decision (valid b) := decide (_ = true).

Record buffer_ok v b : Prop := {
  bo_len : Z.of_nat (length (b_data b)) = v_cluster_bytes v;
  bo_flags : b_flags b = 0 ∨ b_flags b = BUF_VALID ∨ b_flags b = Z.lor BUF_VALID BUF_DIRTY;
  bo_cluster : valid b → 0 ≤ b_cluster b < clusters v ∧ b_sector b = b_cluster b * v_sectors_per_cluster v }.

Record cache_ok v w : Prop := {
  c_geo : geometry_ok v (Z.of_nat (length (content w)));
  c_buffers k b : v_buffers v !! k = Some b → buffer_ok v b;
  c_once k1 k2 b1 b2 : v_buffers v !! k1 = Some b1 → v_buffers v !! k2 = Some b2 → valid b1 → valid b2 →
    b_cluster b1 = b_cluster b2 → k1 = k2 }.

(** The clusters as the driver sees them. *)
Definition on_device v w c : bytes := slice (content w) (c * v_cluster_bytes v) (v_cluster_bytes v).
Definition view v w c : bytes :=
  match search_for_buffer c (v_buffers v) 0 with
  | Some k => match v_buffers v !! k with Some b => b_data b | None => [] end
  | None => on_device v w c
  end.
Definition lview s c : bytes := view (l_vol s) (l_world s) c.
Definition cache s : Prop := cache_ok (l_vol s) (l_world s).

(** Buffer [k] holds cluster [c]. *)
Definition holding v (k : nat) c : Prop := ∃ b, v_buffers v !! k = Some b ∧ valid b ∧ b_cluster b = c.

(** * Finding a buffer *)

Lemma search_spec c l k :
  match search_for_buffer c l k with
  | Some j => ∃ b, (k ≤ j)%nat ∧ l !! (j - k)%nat = Some b ∧ valid b ∧ b_cluster b = c
  | None => ∀ b, b ∈ l → valid b → b_cluster b ≠ c
  end.
Proof.
  revert k. induction l as [|b l IH]; intros k; cbn; [set_solver|].
  destruct (has (b_flags b) BUF_VALID) eqn:Ev; cbn [andb].
  - destruct (Z.eqb_spec c (b_cluster b)) as [->|Hne].
    + exists b. rewrite Nat.sub_diag. auto.
    + specialize (IH (S k)). destruct (search_for_buffer c l (S k)) as [j|].
      * destruct IH as (b' & Hle & Hl & Hv). exists b'. split; [lia|].
        replace (j - k)%nat with (S (j - S k)) by lia. done.
      * set_solver.
  - specialize (IH (S k)). destruct (search_for_buffer c l (S k)) as [j|].
    + destruct IH as (b' & Hle & Hl & Hv). exists b'. split; [lia|].
      replace (j - k)%nat with (S (j - S k)) by lia. done.
    + intros b' [->|Hb]%elem_of_cons Hv; [unfold valid in Hv; congruence|by apply IH].
Qed.

Lemma view_holding v w k c b : cache_ok v w → v_buffers v !! k = Some b → valid b → b_cluster b = c → view v w c = b_data b.
Proof.
  intros I Hk Hv Hc. unfold view. pose proof (search_spec c (v_buffers v) 0) as Hs.
  destruct (search_for_buffer c (v_buffers v) 0) as [j|].
  - destruct Hs as (b' & _ & Hl & Hv' & Hc'). rewrite Nat.sub_0_r in Hl.
    assert (j = k) as -> by (eapply c_once; eauto; congruence). by rewrite Hk.
  - by destruct (Hs b); [eapply list_elem_of_lookup_2|..].
Qed.

Lemma view_absent v w c : (∀ k b, v_buffers v !! k = Some b → valid b → b_cluster b ≠ c) → view v w c = on_device v w c.
Proof.
  intros Hn. unfold view. pose proof (search_spec c (v_buffers v) 0) as Hs.
  destruct (search_for_buffer c (v_buffers v) 0) as [j|]; [|done].
  destruct Hs as (b' & _ & Hl & Hv' & Hc'). by destruct (Hn _ _ Hl).
Qed.

Lemma held_or_absent v c :
  (∃ k, holding v k c) ∨ ∀ k b, v_buffers v !! k = Some b → valid b → b_cluster b ≠ c.
Proof.
  pose proof (search_spec c (v_buffers v) 0) as Hs.
  destruct (search_for_buffer c (v_buffers v) 0) as [j|].
  - destruct Hs as (b' & _ & Hl & Hv' & Hc'). rewrite Nat.sub_0_r in Hl. left. by exists j, b'.
  - right. intros k b Hk. apply Hs. by eapply list_elem_of_lookup_2.
Qed.

Lemma least_recently_used_lt l k min lru n :
  (k + length l = n)%nat → (lru < n)%nat → (least_recently_used l k min lru < n)%nat.
Proof.
  revert k min lru. induction l as [|b l IH]; intros k min lru Hn Hl; cbn in *; [done|].
  destruct (b_access b <? min); apply IH; lia.
Qed.
(** * States that present the same volume *)

(** What the buffers do not change. *)
Definition fixed v : Volume :=
  v <| v_buffer_access := 0 |> <| v_buffer_hit := 0 |> <| v_buffer_miss := 0 |> <| v_buffers := [] |>.

Lemma fixed_fields v v' : fixed v' = fixed v →
  v_sector_bytes v' = v_sector_bytes v ∧ v_sb v' = v_sb v ∧ v_cluster_bytes v' = v_cluster_bytes v ∧
  v_log_cluster_bytes v' = v_log_cluster_bytes v ∧ v_sectors_per_cluster v' = v_sectors_per_cluster v ∧
  v_icluster_count v' = v_icluster_count v.
Proof. unfold fixed. cbn. intros [= -> -> -> -> -> ->]. done. Qed.

Lemma geometry_fixed v v' size : fixed v' = fixed v → length (v_buffers v') = length (v_buffers v) →
  geometry_ok v size → geometry_ok v' size.
Proof.
  intros (E1 & E2 & E3 & E4 & E5 & E6)%fixed_fields Hl [G1 G2 G3 G4 G5 G6 G7 G8 G9]. unfold clusters in *.
  split; unfold clusters; rewrite ?E1, ?E2, ?E3, ?E4, ?E5, ?E6, ?Hl; done.
Qed.

Lemma buffer_ok_fixed v v' b : fixed v' = fixed v → buffer_ok v b → buffer_ok v' b.
Proof.
  intros (E1 & E2 & E3 & E4 & E5 & E6)%fixed_fields [B1 B2 B3]. unfold clusters in *.
  split; unfold clusters; rewrite ?E2, ?E3, ?E5; done.
Qed.

(** [s'] presents the volume of [s], with the same files. *)
Record same s s' : Prop := {
  sm_fixed : fixed (l_vol s') = fixed (l_vol s);
  sm_length : length (v_buffers (l_vol s')) = length (v_buffers (l_vol s));
  sm_pfiles : l_pfiles s' = l_pfiles s;
  sm_files : l_files s' = l_files s;
  sm_cache : cache s';
  sm_view c : 0 ≤ c < clusters (l_vol s) → lview s' c = lview s c }.

Lemma same_refl s : cache s → same s s.
Proof. by split. Qed.
Lemma same_clusters s s' : same s s' → clusters (l_vol s') = clusters (l_vol s).
Proof. intros (_ & E & _)%sm_fixed%fixed_fields. unfold clusters. by rewrite E. Qed.
Lemma same_trans s1 s2 s3 : same s1 s2 → same s2 s3 → same s1 s3.
Proof.
  intros A B. pose proof (same_clusters _ _ A) as E. destruct A, B. split; try congruence.
  intros c Hc. etransitivity; [apply sm_view1; by rewrite E|by apply sm_view0].
Qed.

(** One buffer is replaced: the invariant. *)
Lemma cache_replace v w v' w' k b' : cache_ok v w → fixed v' = fixed v →
  v_buffers v' = <[k := b']> (v_buffers v) → length (content w') = length (content w) → buffer_ok v b' →
  (valid b' → ∀ j b, j ≠ k → v_buffers v !! j = Some b → valid b → b_cluster b ≠ b_cluster b') → cache_ok v' w'.
Proof.
  intros I Hf Hb Hl Hok Hone. assert (Hlen : length (v_buffers v') = length (v_buffers v)).
  { by rewrite Hb, length_insert. }
  split.
  - rewrite Hl. eapply geometry_fixed; [done|done|apply I].
  - intros j b Hj. apply (buffer_ok_fixed v); [done|]. rewrite Hb in Hj.
    apply list_lookup_insert_Some in Hj as [(_ & <- & _)|(_ & Hj)]; [done|by eapply c_buffers].
  - intros k1 k2 b1 b2 H1 H2 V1 V2 Hc. rewrite Hb in H1, H2.
    apply list_lookup_insert_Some in H1 as [(-> & <- & _)|(N1 & H1)]; apply list_lookup_insert_Some in H2 as [(-> & <- & _)|(N2 & H2)].
    + done.
    + exfalso. apply (Hone V1 k2 b2); [done|done|done|congruence].
    + exfalso. apply (Hone V2 k1 b1); [done|done|done|congruence].
    + by eapply c_once.
Qed.

(** The view of a cluster, by whoever holds it. *)
Lemma view_is v w c d : cache_ok v w →
  (∀ k b, v_buffers v !! k = Some b → valid b → b_cluster b = c → b_data b = d) →
  ((∀ k b, v_buffers v !! k = Some b → valid b → b_cluster b ≠ c) → on_device v w c = d) → view v w c = d.
Proof.
  intros I Hh Ha. destruct (held_or_absent v c) as [(k & b & Hk & Hv & Hc)|Hn].
  - rewrite (view_holding v w k c b) by done. by eapply Hh.
  - rewrite view_absent by done. by apply Ha.
Qed.

(** * Positions on the device *)

Lemma lean_cluster_bytes v size : geometry_ok v size → 512 ≤ v_cluster_bytes v.
Proof. intros G. rewrite (g_cluster _ _ G). pose proof (g_log _ _ G). change 512 with (2 ^ 9). apply Z.pow_le_mono_r; lia. Qed.

Lemma cluster_pos v size c : geometry_ok v size → 0 ≤ c < clusters v →
  0 ≤ c * v_cluster_bytes v ∧ c * v_cluster_bytes v + v_cluster_bytes v ≤ size ∧
  dev_pos (c * v_sectors_per_cluster v) (v_sector_bytes v) = c * v_cluster_bytes v.
Proof.
  intros G Hc. pose proof (lean_cluster_bytes v size G). pose proof (g_size _ _ G). pose proof (g_sector _ _ G).
  assert (c * v_cluster_bytes v + v_cluster_bytes v ≤ size) by nia. split; [nia|]. split; [done|].
  unfold dev_pos. replace (c * v_sectors_per_cluster v * v_sector_bytes v) with (c * v_cluster_bytes v) by nia.
  apply s32_small. nia.
Qed.

Lemma on_device_poke v w w' c c' data : geometry_ok v (Z.of_nat (length (content w))) → 0 ≤ c < clusters v → 0 ≤ c' < clusters v →
  Z.of_nat (length data) = v_cluster_bytes v → content w' = poke (content w) (c * v_cluster_bytes v) data →
  on_device v w' c' = if decide (c' = c) then data else on_device v w c'.
Proof.
  intros G Hc Hc' Hd Hw. unfold on_device. rewrite Hw. destruct (cluster_pos _ _ _ G Hc) as (P1 & P2 & _).
  destruct (cluster_pos _ _ _ G Hc') as (P3 & P4 & _). pose proof (lean_cluster_bytes _ _ G).
  case_decide as E.
  - subst c'. rewrite <- Hd. apply slice_poke_eq; lia.
  - apply slice_poke_outside; [lia|lia|lia|lia|]. rewrite Hd. assert (c' < c ∨ c < c') as [?|?] by lia; [left|right]; nia.
Qed.
(** * The primitives *)

Definition put_buffer (k : nat) b s : lean W := s <| l_vol ::= λ v, v <| v_buffers ::= <[k := b]> |> |>.

Lemma wp_vol {A} (f : Volume → A) (Q : A → lean W → Prop) s : Q (f (l_vol s)) s → wp (vol f) Q s.
Proof. done. Qed.
Lemma wp_sb {A} (f : bytes → A) (Q : A → lean W → Prop) s : Q (f (v_sb (l_vol s))) s → wp (sb f) Q s.
Proof. done. Qed.
Lemma wp_buffer k b (Q : Buffer → lean W → Prop) s : v_buffers (l_vol s) !! k = Some b → Q b s → wp (buffer k) Q s.
Proof. intros Hk HQ. apply wp_bind, wp_vol. by rewrite Hk. Qed.
Lemma wp_mod_buffer k b f (Q : () → lean W → Prop) s : v_buffers (l_vol s) !! k = Some b → Q tt (put_buffer k (f b) s) →
  wp (mod_buffer k f) Q s.
Proof. intros Hk HQ. unfold mod_buffer. apply wp_bind. by apply (wp_buffer k b). Qed.
Lemma wp_wcall {A} (f : W → A * W) a w' (Q : A → lean W → Prop) s :
  f (l_world s) = (a, w') → Q a (s <| l_world := w' |>) → wp (wcall f) Q s.
Proof. intros Hf HQ. unfold wcall, wp, mbind, M_bind, gets, modify, mret, M_ret. by rewrite Hf. Qed.

Lemma put_buffer_lookup k b s : (k < length (v_buffers (l_vol s)))%nat → v_buffers (l_vol (put_buffer k b s)) !! k = Some b.
Proof. intros Hk. cbn. by apply list_lookup_insert_eq. Qed.
Lemma put_buffer_twice k b b' s : put_buffer k b' (put_buffer k b s) = put_buffer k b' s.
Proof. unfold put_buffer. destruct s as [w v pf f]. destruct v. cbn. by rewrite list_insert_insert_eq. Qed.

(** ** Writing back *)

Lemma flags_valid b : b_flags b = 0 ∨ b_flags b = BUF_VALID ∨ b_flags b = Z.lor BUF_VALID BUF_DIRTY →
  has (b_flags b) (Z.lor BUF_VALID BUF_DIRTY) = has (b_flags b) BUF_VALID.
Proof. by intros [-> | [-> | ->]]. Qed.

(** A buffer is written back: the device has its contents. *)
Lemma wp_flush k b s (Q : Z → lean W → Prop) : cache s → v_buffers (l_vol s) !! k = Some b →
  (∀ s' fl, same s s' → v_buffers (l_vol s') = <[k := b <| b_flags := fl |>]> (v_buffers (l_vol s)) →
     (valid b ↔ valid (b <| b_flags := fl |>)) →
     (valid b → on_device (l_vol s') (l_world s') (b_cluster b) = b_data b) → Q 0 s') →
  wp (flush_buffer k) Q s.
Proof.
  intros I Hk HQ. pose proof (c_buffers _ _ I _ _ Hk) as B. unfold flush_buffer.
  apply wp_bind, (wp_buffer k b); [done|]. rewrite (flags_valid b (bo_flags _ _ B)).
  destruct (has (b_flags b) BUF_VALID) eqn:Ev.
  - destruct (bo_cluster _ _ B Ev) as (Hc & Hsec). pose proof (c_geo _ _ I) as G.
    destruct (cluster_pos _ _ _ G Hc) as (P1 & P2 & P3).
    apply wp_bind, wp_vol, wp_bind, wp_vol. apply wp_bind.
    destruct (sf_write (b_cluster b * v_cluster_bytes (l_vol s)) (b_data b) (v_sector_bytes (l_vol s))
      (v_sectors_per_cluster (l_vol s)) (l_world s)) as (w' & Hw & Hcont);
      [done|rewrite (g_sector _ _ G); apply B|rewrite (g_sector _ _ G); lia|].
    rewrite Hsec, P3. eapply wp_wcall; [exact Hw|].
    assert (Hn : u32 (v_sectors_per_cluster (l_vol s)) = v_sectors_per_cluster (l_vol s)).
    { destruct (g_spc _ _ G) as (Hl & ->). apply u32_small.
      pose proof (Z.pow_le_mono_r 2 (sb_log_sectors_per_cluster (v_sb (l_vol s))) 7). lia. }
    rewrite Hn, Z.eqb_refl. cbn [negb]. apply wp_bind, (wp_mod_buffer k b); [done|]. apply wp_ret.
    set (b' := b <| b_flags ::= _ |>). assert (Vb' : valid b').
    { unfold valid, b'. cbn. destruct (bo_flags _ _ B) as [E|[E|E]]; rewrite E in *; done. }
    assert (I' : cache (put_buffer k b' (s <| l_world := w' |>))).
    { apply (cache_replace (l_vol s) (l_world s) _ _ k b' I); [done|done| | |].
      - cbn. rewrite Hcont. apply length_poke; [done|]. rewrite (bo_len _ _ B). lia.
      - destruct B as [B1 B2 B3]. split; [done| |done]. cbn. destruct B2 as [E|[E|E]]; rewrite E; auto.
      - intros _ j bj Hj Hbj Vj E. apply Hj. eapply (c_once _ _ I); eauto. }
    assert (Hdev : ∀ c, 0 ≤ c < clusters (l_vol s) → on_device (l_vol s) w' c =
      if decide (c = b_cluster b) then b_data b else on_device (l_vol s) (l_world s) c).
    { intros c Hcc. by apply (on_device_poke _ _ _ (b_cluster b) c (b_data b) G Hc Hcc (bo_len _ _ B)). }
    apply (HQ _ (b_flags b')); [| |done|].
    + split; try done; [cbn; by rewrite length_insert|]. intros c Hcc. unfold lview. apply view_is; [exact I'| |].
      * intros j bj Hj Vj Hcj. cbn in Hj. symmetry. apply list_lookup_insert_Some in Hj as [(-> & <- & _)|(Hne & Hj)].
        -- by apply (view_holding _ _ j _ b).
        -- by apply (view_holding _ _ j _ bj).
      * intros Hab. change (on_device (l_vol s) w' c = view (l_vol s) (l_world s) c). rewrite Hdev, decide_False by
          (done || (intros ->; apply (Hab k b'); [cbn; apply list_lookup_insert_eq; by eapply lookup_lt_Some|done|done])).
        symmetry. apply view_absent. intros j bj Hj Vj Hcj. destruct (decide (j = k)) as [->|Hne].
        -- apply (Hab k b'); [cbn; apply list_lookup_insert_eq; by eapply lookup_lt_Some|done|]. cbn. congruence.
        -- apply (Hab j bj); [cbn; by rewrite list_lookup_insert_ne by done|done|done].
    + done.
    + intros _. change (on_device (l_vol s) w' (b_cluster b) = b_data b). by rewrite Hdev, decide_True.
  - apply wp_ret, (HQ s (b_flags b)); [by apply same_refl| |done|intros V; unfold valid in V; congruence].
    symmetry. apply list_insert_id. rewrite Hk. by destruct b.
Qed.
(** ** Filling *)

Lemma poke_whole l bs : length bs = length l → poke l 0 bs = bs.
Proof. intros E. unfold poke. change (Z.to_nat 0) with 0%nat. rewrite Nat.add_0_l, E, drop_all. cbn [take app]. apply app_nil_r. Qed.

Lemma sector_of v size c : geometry_ok v size → 0 ≤ c < clusters v →
  u32 (Z.shiftl c (sb_log_sectors_per_cluster (v_sb v))) = c * v_sectors_per_cluster v.
Proof.
  intros G Hc. destruct (g_spc _ _ G) as (Hl & E). rewrite Z.shiftl_mul_pow2, <- E by lia.
  destruct (cluster_pos _ _ _ G Hc) as (P1 & P2 & _). pose proof (g_sector _ _ G). pose proof (g_size _ _ G).
  assert (0 < v_sectors_per_cluster v) by (rewrite E; apply Z.pow_pos_nonneg; lia).
  pose proof (lean_cluster_bytes _ _ G). assert (0 < v_sector_bytes v) by nia. apply u32_small. nia.
Qed.

(** A buffer that holds what the device has of a cluster nobody holds. *)
Lemma same_filled s k b b' w' c : cache s → v_buffers (l_vol s) !! k = Some b →
  (valid b → on_device (l_vol s) (l_world s) (b_cluster b) = b_data b) →
  0 ≤ c < clusters (l_vol s) → (∀ j x, v_buffers (l_vol s) !! j = Some x → valid x → b_cluster x ≠ c) →
  content w' = content (l_world s) → buffer_ok (l_vol s) b' → valid b' → b_cluster b' = c →
  b_data b' = on_device (l_vol s) (l_world s) c →
  same s (put_buffer k b' (s <| l_world := w' |>)).
Proof.
  intros I Hk Hdev Hc Habs Hw Hok V' Hc' Hd'.
  assert (I' : cache (put_buffer k b' (s <| l_world := w' |>))).
  { apply (cache_replace (l_vol s) (l_world s) _ _ k b' I); [done|done|by cbn; rewrite Hw|done|].
    intros _ j x _ Hx Vx. rewrite Hc'. by apply (Habs j x). }
  split; try done; [cbn; by rewrite length_insert|]. intros c' Hcc. unfold lview. apply view_is; [exact I'| |].
  - intros j x Hj Vx Hcx. cbn in Hj. symmetry. apply list_lookup_insert_Some in Hj as [(-> & <- & _)|(Hne & Hj)].
    + rewrite Hd', <- Hcx, Hc'. by apply view_absent.
    + by apply (view_holding _ _ j _ x).
  - intros Hab. assert (Hdc : on_device (l_vol s) w' c' = on_device (l_vol s) (l_world s) c') by (unfold on_device; by rewrite Hw).
    change (on_device (l_vol s) w' c' = view (l_vol s) (l_world s) c'). rewrite Hdc. symmetry.
    apply view_is; [done| |done]. intros j x Hj Vx Hcx. destruct (decide (j = k)) as [->|Hne].
    + assert (x = b) as -> by congruence. rewrite <- Hcx. symmetry. by apply Hdev.
    + exfalso. apply (Hab j x); [cbn; by rewrite list_lookup_insert_ne by done|done|done].
Qed.

Lemma wp_fill_buffer k c pf s (Q : Z → lean W → Prop) : cache s → (k < length (v_buffers (l_vol s)))%nat →
  0 ≤ c < clusters (l_vol s) → (∀ j x, v_buffers (l_vol s) !! j = Some x → valid x → b_cluster x ≠ c) →
  (∀ s', same s s' → holding (l_vol s') k c → Q 0 s') → wp (fill_buffer k c pf) Q s.
Proof.
  intros I Hk Hc Habs HQ. destruct (lookup_lt_is_Some_2 _ _ Hk) as [b Hb]. apply wp_check.
  apply (wp_flush k b); [done|done|]. intros s1 fl S1 Hb1 Hfl Hdev. split; [lia|]. intros _.
  pose proof (sm_cache _ _ S1) as I1. pose proof (c_geo _ _ I1) as G1.
  destruct (fixed_fields _ _ (sm_fixed _ _ S1)) as (E1 & E2 & E3 & E4 & E5 & E6).
  pose proof (same_clusters _ _ S1) as Ecl. rewrite <- Ecl in Hc. set (b1 := b <| b_flags := fl |>) in *.
  assert (Hk1 : v_buffers (l_vol s1) !! k = Some b1) by (rewrite Hb1; by apply list_lookup_insert_eq).
  pose proof (c_buffers _ _ I1 _ _ Hk1) as B1. destruct (cluster_pos _ _ _ G1 Hc) as (P1 & P2 & P3).
  apply wp_bind, wp_sb, wp_bind, (wp_mod_buffer k b1); [done|]. cbv beta. set (b2 := b1 <| b_flags := 0 |> <| b_sector := _ |>).
  apply wp_bind, (wp_buffer k b2); [by apply put_buffer_lookup; rewrite Hb1, length_insert|].
  apply wp_bind, wp_vol, wp_bind, wp_vol. apply wp_bind.
  replace (dev_pos (b_sector b2) _) with (c * v_cluster_bytes (l_vol s1)) by
    (unfold b2; cbn; by rewrite (sector_of _ _ c G1 Hc), P3).
  destruct (sf_read (c * v_cluster_bytes (l_vol s1)) (v_sector_bytes (l_vol s1)) (v_sectors_per_cluster (l_vol s1)) (l_world s1))
    as (w' & Hw & Hcont); [done|rewrite (g_sector _ _ G1); pose proof (lean_cluster_bytes _ _ G1); lia|
                           rewrite (g_sector _ _ G1); lia|].
  eapply wp_wcall; [exact Hw|]. set (bs := slice _ _ _).
  assert (Hbs : Z.of_nat (length bs) = v_cluster_bytes (l_vol s1)).
  { unfold bs. rewrite (g_sector _ _ G1). apply length_slice; [done|pose proof (lean_cluster_bytes _ _ G1); lia|done]. }
  assert (Hl2 : length bs = length (b_data b2)).
  { unfold b2, b1. cbn. pose proof (bo_len _ _ B1) as L. unfold b1 in L. cbn in L. lia. }
  set (s2 := put_buffer k b2 s1 <| l_world := w' |>).
  assert (Hk2 : v_buffers (l_vol s2) !! k = Some b2) by (cbn; apply list_lookup_insert_eq; by eapply lookup_lt_Some).
  apply wp_bind. unfold store_data. cbn [fst snd]. apply wp_bind, (wp_buffer k b2); [done|].
  rewrite in_block_true by lia. apply (wp_mod_buffer k b2); [done|]. cbv beta.
  assert (Hn : u32 (v_sectors_per_cluster (l_vol s1)) = v_sectors_per_cluster (l_vol s1)).
  { destruct (g_spc _ _ G1) as (Hl & ->). apply u32_small.
    pose proof (Z.pow_le_mono_r 2 (sb_log_sectors_per_cluster (v_sb (l_vol s1))) 7). lia. }
  cbn [fst]. rewrite Hn, Z.eqb_refl. cbn [negb]. eapply wp_bind, wp_mod_buffer.
  { cbn. rewrite list_insert_insert_eq. apply list_lookup_insert_eq. by eapply lookup_lt_Some. }
  apply wp_ret. rewrite put_buffer_twice. set (b3 := _ <| b_pf := pf |>).
  assert (Hd3 : b_data b3 = on_device (l_vol s1) (l_world s1) c).
  { unfold b3. cbn. rewrite poke_whole by done. unfold bs, on_device. by rewrite (g_sector _ _ G1). }
  assert (E : put_buffer k b3 s2 = put_buffer k b3 (s1 <| l_world := w' |>)).
  { unfold s2, put_buffer. destruct s1 as [ww v pff ff]. destruct v. cbn. by rewrite list_insert_insert_eq. }
  assert (Hab1 : ∀ j x, v_buffers (l_vol s1) !! j = Some x → valid x → b_cluster x ≠ c).
  { intros j x Hj Vx. rewrite Hb1 in Hj. apply list_lookup_insert_Some in Hj as [(-> & <- & _)|(Hne & Hj)]; [|by apply (Habs j)].
    apply (Habs j b); [done|by apply Hfl]. }
  change (Q 0 (put_buffer k b3 s2)). rewrite E. assert (S : same s1 (put_buffer k b3 (s1 <| l_world := w' |>))).
  { apply (same_filled s1 k b1 b3 w' c); try done; [by intros V%Hfl; apply Hdev|].
    split; [|right; by left|].
    - rewrite Hd3. unfold on_device. rewrite length_slice; [done|done|pose proof (lean_cluster_bytes _ _ G1); lia|done].
    - intros _. split; [done|]. unfold b3. cbn. by apply (sector_of _ _ c G1). }
  apply HQ; [by eapply same_trans|]. exists b3. split; [|done].
  apply put_buffer_lookup. by eapply lookup_lt_Some.
Qed.
(** ** Reading a cluster *)

Lemma same_counters s f : cache s → (∀ v, fixed (f v) = fixed v ∧ v_buffers (f v) = v_buffers v) → same s (s <| l_vol ::= f |>).
Proof.
  intros I Hf. destruct (Hf (l_vol s)) as [F1 F2].
  assert (I' : cache (s <| l_vol ::= f |>)).
  { destruct I as [G B O]. split; cbn.
    - eapply geometry_fixed; [done|by rewrite F2|done].
    - intros k b Hk. rewrite F2 in Hk. eapply buffer_ok_fixed; eauto.
    - intros k1 k2 b1 b2. rewrite F2. apply O. }
  split; cbn; try done; [by rewrite F2|]. intros c Hc. unfold lview, view, on_device. cbn. rewrite F2.
  destruct (fixed_fields _ _ F1) as (_ & _ & -> & _). done.
Qed.

Lemma same_access s k b a : cache s → v_buffers (l_vol s) !! k = Some b → same s (put_buffer k (b <| b_access := a |>) s).
Proof.
  intros I Hk. set (b' := b <| b_access := a |>).
  assert (I' : cache (put_buffer k b' s)).
  { apply (cache_replace (l_vol s) (l_world s) _ _ k b' I); try done.
    - destruct (c_buffers _ _ I _ _ Hk) as [B1 B2 B3]. by split.
    - intros V j x Hj Hx Vx E. apply Hj. by apply (c_once _ _ I j k x b). }
  split; try done; [cbn; by rewrite length_insert|]. intros c Hc. unfold lview. apply view_is; [exact I'| |].
  - intros j x Hj Vx Hcx. symmetry. cbn in Hj. apply list_lookup_insert_Some in Hj as [(-> & <- & _)|(Hne & Hj)].
    + by apply (view_holding _ _ j _ b).
    + by apply (view_holding _ _ j _ x).
  - intros Hab. change (on_device (l_vol s) (l_world s) c = lview s c). symmetry. apply view_absent.
    intros j x Hj Vx Hcx. destruct (decide (j = k)) as [->|Hne].
    + apply (Hab k b'); [cbn; apply list_lookup_insert_eq; by eapply lookup_lt_Some| |]; unfold b'; cbn;
        assert (x = b) as -> by congruence; done.
    + apply (Hab j x); [cbn; by rewrite list_lookup_insert_ne by done|done|done].
Qed.

(** The count of accesses goes up and is noted in the buffer. *)
Lemma wp_touch {A} k c (r : A) s (Q : A → lean W → Prop) : cache s → holding (l_vol s) k c →
  (∀ s', same s s' → holding (l_vol s') k c → Q r s') →
  wp (mod_vol (λ v, v <| v_buffer_access ::= λ x, u32 (x + 1) |>);;
      a ← vol v_buffer_access; mod_buffer k (λ b, b <| b_access := a |>);; mret r) Q s.
Proof.
  intros I (b & Hk & Vb & Hc) HQ. apply wp_bind, wp_modify. set (s1 := s <| l_vol ::= _ |>).
  assert (S1 : same s s1) by (by apply same_counters).
  apply wp_bind, wp_vol, wp_bind, (wp_mod_buffer k b); [done|]. apply wp_ret, HQ.
  - eapply same_trans; [exact S1|]. apply same_access; [apply S1|done].
  - eexists. split; [apply put_buffer_lookup; by eapply lookup_lt_Some|done].
Qed.

(** Reading a cluster gives a buffer that holds it. *)
Lemma wp_leanfs_readbuf c pf bo s (Q : Z * option nat → lean W → Prop) : cache s → 0 ≤ c < clusters (l_vol s) →
  (∀ k, bo = Some k → (k < length (v_buffers (l_vol s)))%nat) →
  (∀ s' k, same s s' → holding (l_vol s') k c → Q (0, Some k) s') → wp (leanfs_readbuf c pf bo) Q s.
Proof.
  intros I Hc Hbo HQ. unfold leanfs_readbuf. apply wp_bind, wp_vol.
  pose proof (search_spec c (v_buffers (l_vol s)) 0) as Hs.
  destruct (search_for_buffer c (v_buffers (l_vol s)) 0) as [k|] eqn:Es.
  - destruct Hs as (b & _ & Hk & Vb & Hcb). rewrite Nat.sub_0_r in Hk.
    apply wp_bind, wp_modify. set (s1 := s <| l_vol ::= _ |>).
    assert (S1 : same s s1) by (by apply same_counters).
    apply (wp_touch k c); [apply S1|by exists b|]. intros s' S' Hh. apply HQ; [by eapply same_trans|done].
  - apply wp_bind, wp_modify. set (s1 := s <| l_vol ::= _ |>).
    assert (S1 : same s s1) by (by apply same_counters). cbv zeta. set (k := match bo with Some k => k | None => _ end).
    apply wp_bind, wp_fill_buffer; [apply S1| |done| |].
    + unfold k. destruct bo as [k'|]; [by apply Hbo|]. apply least_recently_used_lt; [done|apply (g_buffers _ _ (c_geo _ _ I))].
    + intros j x Hj. apply Hs. by eapply list_elem_of_lookup_2.
    + intros s2 S2 Hh. cbn [Z.ltb Z.compare]. apply (wp_touch k c); [apply S2|done|]. intros s' S' Hh'.
      apply HQ; [by eapply same_trans; [|eapply same_trans]|done].
Qed.

(** ** Using a buffer *)

Lemma holding_data s k c : cache s → holding (l_vol s) k c → ∃ b, v_buffers (l_vol s) !! k = Some b ∧
  b_data b = lview s c ∧ Z.of_nat (length (b_data b)) = v_cluster_bytes (l_vol s) ∧ valid b ∧ b_cluster b = c.
Proof.
  intros I (b & Hk & Vb & Hc). exists b. split_and!; [done| | |done|done].
  - symmetry. by apply (view_holding _ _ k).
  - by apply (c_buffers _ _ I k).
Qed.

Lemma wp_word k c i s (Q : Z → lean W → Prop) : cache s → holding (l_vol s) k c → 0 ≤ i → 4 * i + 4 ≤ v_cluster_bytes (l_vol s) →
  Q (le32_at (lview s c) (4 * i)) s → wp (word k i) Q s.
Proof.
  intros I Hh Hi Hl HQ. destruct (holding_data s k c I Hh) as (b & Hk & Hd & Hlen & _).
  apply wp_bind, (wp_buffer k b); [done|]. rewrite in_block_true by lia. rewrite Hd. by apply wp_ret.
Qed.

Lemma wp_load_data k c i n s (Q : bytes → lean W → Prop) : cache s → holding (l_vol s) k c → 0 ≤ i → 0 ≤ n →
  i + n ≤ v_cluster_bytes (l_vol s) → Q (slice (lview s c) i n) s → wp (load_data k i n) Q s.
Proof.
  intros I Hh Hi Hn Hl HQ. destruct (holding_data s k c I Hh) as (b & Hk & Hd & Hlen & _).
  apply wp_bind, (wp_buffer k b); [done|]. rewrite in_block_true by lia. rewrite Hd. by apply wp_ret.
Qed.

(** [s'] presents the volume of [s] with the contents [d] of cluster [c]. *)
Record stored c (d : bytes) s s' : Prop := {
  st_fixed : fixed (l_vol s') = fixed (l_vol s);
  st_length : length (v_buffers (l_vol s')) = length (v_buffers (l_vol s));
  st_pfiles : l_pfiles s' = l_pfiles s;
  st_files : l_files s' = l_files s;
  st_cache : cache s';
  st_view c' : 0 ≤ c' < clusters (l_vol s) → lview s' c' = if decide (c' = c) then d else lview s c' }.

Lemma stored_same c d s1 s2 s3 : stored c d s1 s2 → same s2 s3 → stored c d s1 s3.
Proof.
  intros A B. assert (E : clusters (l_vol s2) = clusters (l_vol s1)).
  { destruct (fixed_fields _ _ (st_fixed _ _ _ _ A)) as (_ & E & _). unfold clusters. by rewrite E. }
  destruct A, B. split; try congruence. intros c' Hc'. rewrite <- st_view0 by done. apply sm_view0. by rewrite E.
Qed.
Lemma same_stored c d s1 s2 s3 : same s1 s2 → stored c d s2 s3 → stored c d s1 s3.
Proof.
  intros A B. pose proof (same_clusters _ _ A) as E. destruct A, B. split; try congruence.
  intros c' Hc'. rewrite st_view0 by (by rewrite E). case_decide; [done|by apply sm_view0].
Qed.

(** A buffer that holds a cluster gets other contents. *)
Lemma stored_put s k c b b' : cache s → 0 ≤ c < clusters (l_vol s) → v_buffers (l_vol s) !! k = Some b → valid b → b_cluster b = c →
  b_cluster b' = c → b_sector b' = b_sector b → (b_flags b' = b_flags b ∨ b_flags b' = Z.lor (b_flags b) BUF_DIRTY) →
  Z.of_nat (length (b_data b')) = v_cluster_bytes (l_vol s) → stored c (b_data b') s (put_buffer k b' s) ∧ valid b'.
Proof.
  intros I Hcr Hk Vb Hc Hc' Hsec Hfl Hlen. pose proof (c_buffers _ _ I _ _ Hk) as [B1 B2 B3].
  assert (Vb' : valid b').
  { unfold valid in *. destruct B2 as [E|[E|E]], Hfl as [F|F]; rewrite F, E in *; done. }
  split; [|done]. assert (I' : cache (put_buffer k b' s)).
  { apply (cache_replace (l_vol s) (l_world s) _ _ k b' I); try done.
    - split; [done| |].
      + destruct B2 as [E|[E|E]], Hfl as [F|F]; rewrite F, E in *; auto; by unfold valid in Vb; rewrite E in Vb.
      + intros _. rewrite Hc', Hsec, <- Hc. by apply B3.
    - intros _ j x Hj Hx Vx E. apply Hj. apply (c_once _ _ I j k x b); congruence. }
  split; try done; [cbn; by rewrite length_insert|]. intros c0 Hc0. unfold lview. case_decide as E.
  - subst c0. apply (view_holding _ _ k _ b'); [exact I'|apply put_buffer_lookup; by eapply lookup_lt_Some|done|done].
  - apply view_is; [exact I'| |].
    + intros j x Hj Vx Hcx. symmetry. cbn in Hj. apply list_lookup_insert_Some in Hj as [(-> & <- & _)|(Hne & Hj)]; [congruence|].
      by apply (view_holding _ _ j _ x).
    + intros Hab. change (on_device (l_vol s) (l_world s) c0 = lview s c0). symmetry. apply view_absent.
      intros j x Hj Vx Hcx. destruct (decide (j = k)) as [->|Hne]; [congruence|].
      apply (Hab j x); [cbn; by rewrite list_lookup_insert_ne by done|done|done].
Qed.

Lemma wp_store_data k c i bs s (Q : () → lean W → Prop) : cache s → 0 ≤ c < clusters (l_vol s) → holding (l_vol s) k c →
  0 ≤ i → i + Z.of_nat (length bs) ≤ v_cluster_bytes (l_vol s) →
  (∀ s', stored c (poke (lview s c) i bs) s s' → holding (l_vol s') k c → Q tt s') → wp (store_data k i bs) Q s.
Proof.
  intros I Hc Hh Hi Hl HQ. destruct (holding_data s k c I Hh) as (b & Hk & Hd & Hlen & Vb & Hcb).
  apply wp_bind, (wp_buffer k b); [done|]. rewrite in_block_true by lia. apply (wp_mod_buffer k b); [done|]. cbv beta.
  set (b' := b <| b_data ::= _ |>). destruct (stored_put s k c b b') as [S V']; try done; [by left| |].
  { unfold b'. cbn. by rewrite length_poke by lia. }
  apply HQ; [change (stored c (poke (b_data b) i bs) s (put_buffer k b' s)) in S; by rewrite <- Hd|]. exists b'. split; [|done].
  apply put_buffer_lookup. by eapply lookup_lt_Some.
Qed.

Lemma wp_leanfs_dirtybuf k c s (Q : Z → lean W → Prop) : cache s → 0 ≤ c < clusters (l_vol s) → holding (l_vol s) k c →
  (∀ s', same s s' → holding (l_vol s') k c → Q 0 s') → wp (leanfs_dirtybuf k false) Q s.
Proof.
  intros I Hc Hh HQ. destruct (holding_data s k c I Hh) as (b & Hk & Hd & Hlen & Vb & Hcb).
  apply wp_bind, (wp_buffer k b); [done|]. rewrite Vb. apply wp_bind, (wp_mod_buffer k b); [done|]. apply wp_ret.
  set (b' := b <| b_flags ::= _ |>). destruct (stored_put s k c b b') as [S V']; try done; [by right|].
  apply HQ; [|exists b'; split; [apply put_buffer_lookup; by eapply lookup_lt_Some|done]].
  destruct S as [S1 S2 S3 S4 S5 S6]. split; try done. intros c' Hc'. rewrite S6 by done. case_decide; [by subst|done].
Qed.
End leancache.
