(* ===== verification/LeanBitmap.v ===== *)
(** The bitmap of a LEAN volume, proved: finding, allocating and freeing clusters work
    as on a set of used clusters, whatever is in the buffers. *)
From stdpp Require Import gmap.
From S2P Require Import Prelude Errno LeanTypes LeanBlock LeanAlloc LeanCache.

(** * Words of bits *)

Definition bit_of (d : bytes) (i : Z) : bool := Z.testbit (le32_at d (4 * (i / 32))) (i mod 32).

Lemma find_bit_spec n map bit cluster count c found : 0 ≤ cluster ≤ count → count < 2 ^ 32 →
  find_bit n map bit cluster count = (c, found) →
  cluster ≤ c ∧ (∀ x, cluster ≤ x < c → Z.testbit map (bit + (x - cluster)) = true) ∧
  if found then c < count ∧ c < cluster + Z.of_nat n ∧ Z.testbit map (bit + (c - cluster)) = false
  else c = Z.min (cluster + Z.of_nat n) count.
Proof.
  revert bit cluster. induction n as [|n IH]; intros bit cluster Hc Hcount; cbn [find_bit].
  - intros [= <- <-]. split_and!; lia.
  - destruct (Z.ltb_spec cluster count); [|intros [= <- <-]; split_and!; lia].
    destruct (Z.testbit map bit) eqn:Eb; cbn [negb].
    + rewrite u32_small by lia. intros (H1 & H2 & H3)%IH; [|lia..].
      assert (Hall : ∀ x, cluster ≤ x < c → Z.testbit map (bit + (x - cluster)) = true).
      { intros x Hx. destruct (decide (x = cluster)) as [->|]; [by rewrite Z.sub_diag, Z.add_0_r|].
        rewrite <- (H2 x) by lia. f_equal. lia. }
      split; [lia|split; [done|]]. destruct found; [|lia].
      replace (bit + (c - cluster)) with (bit + 1 + (c - (cluster + 1))) by lia. split_and!; lia || apply H3.
    + intros [= <- <-]. rewrite Z.sub_diag, Z.add_0_r. split_and!; lia || done.
Qed.

Lemma find_word_past n d k cluster count : count ≤ cluster → find_word n d k cluster count = (cluster, false).
Proof. intros Hc. destruct n; cbn; [done|]. by rewrite (proj2 (Z.ltb_ge _ _)) by lia. Qed.

Lemma all_ones m : 0 ≤ m < 2 ^ 32 → (∀ i, 0 ≤ i < 32 → Z.testbit m i = true) → m = 0xFFFFFFFF.
Proof.
  intros Hm Hb. change 0xFFFFFFFF with (Z.ones 32). apply Z.bits_inj'. intros i Hi.
  destruct (decide (i < 32)).
  - rewrite Z.ones_spec_low by lia. by apply Hb.
  - rewrite Z.ones_spec_high by lia. rewrite <- (Z.mod_small m (2 ^ 32)) by done. by rewrite Z.mod_pow2_bits_high by lia.
Qed.

Lemma bit_of_word d j x : 0 ≤ j → 32 * j ≤ x < 32 * j + 32 → bit_of d x = Z.testbit (le32_at d (4 * j)) (x - 32 * j).
Proof.
  intros Hj Hx. unfold bit_of. rewrite <- (Z.div_unique x 32 j (x - 32 * j)) by lia.
  by rewrite <- (Z.mod_unique x 32 j (x - 32 * j)) by lia.
Qed.

(** The first clear bit of the words from [j] on, of those below [count]. *)
Lemma find_word_spec n d j base count c found : Forall is_byte d → 0 ≤ j → 0 ≤ base → count < 2 ^ 31 →
  find_word n d (4 * j) (base + 32 * j) count = (c, found) →
  let top := base + 32 * (j + Z.of_nat n) in
  if found then base + 32 * j ≤ c < count ∧ c < top ∧ bit_of d (c - base) = false ∧
                ∀ x, base + 32 * j ≤ x < c → bit_of d (x - base) = true
  else (∀ x, base + 32 * j ≤ x < count → x < top → bit_of d (x - base) = true) ∧ (top ≤ count → c = top).
Proof.
  intros Hd. revert j. induction n as [|n IH]; intros j Hj Hb Hcount.
  - cbn [find_word]. intros [= <- <-]. cbn. split; lia.
  - cbn [find_word]. cbv zeta. destruct (Z.ltb_spec (base + 32 * j) count); [|intros [= <- <-]; split; lia].
    pose proof (le32_at_range d (4 * j) Hd) as Hm.
    assert (Hword : ∀ x, base + 32 * j ≤ x < base + 32 * j + 32 →
      bit_of d (x - base) = Z.testbit (le32_at d (4 * j)) (0 + (x - (base + 32 * j)))).
    { intros x Hx. rewrite (bit_of_word d j) by lia. f_equal. lia. }
    assert (Hnext : find_word n d (4 * j + 4) (u32 (base + 32 * j + 32)) count = (c, found) →
      (∀ x, base + 32 * j ≤ x < base + 32 * j + 32 → bit_of d (x - base) = true) →
      let top := base + 32 * (j + Z.of_nat (S n)) in
      if found then base + 32 * j ≤ c < count ∧ c < top ∧ bit_of d (c - base) = false ∧
                    ∀ x, base + 32 * j ≤ x < c → bit_of d (x - base) = true
      else (∀ x, base + 32 * j ≤ x < count → x < top → bit_of d (x - base) = true) ∧ (top ≤ count → c = top)).
    { rewrite u32_small by lia. replace (4 * j + 4) with (4 * (j + 1)) by lia.
      replace (base + 32 * j + 32) with (base + 32 * (j + 1)) by lia. intros Hf%IH Hall; [|lia..]. cbv zeta in *.
      replace (j + Z.of_nat (S n)) with (j + 1 + Z.of_nat n) by lia. destruct found.
      - destruct Hf as (F1 & F2 & F3 & F4). split_and!; try lia; [done|]. intros x Hx.
        destruct (decide (x < base + 32 * (j + 1))); [apply Hall|apply F4]; lia.
      - destruct Hf as (F1 & F2). split; [|done]. intros x Hx Ht.
        destruct (decide (x < base + 32 * (j + 1))); [apply Hall|apply F1]; lia. }
    destruct (Z.eqb_spec (le32_at d (4 * j)) 0xFFFFFFFF) as [E|E]; cbn [negb].
    { intros Hf. apply Hnext; [done|]. intros x Hx. rewrite Hword, E by done.
      change 0xFFFFFFFF with (Z.ones 32). apply Z.ones_spec_low. lia. }
    destruct (find_bit 32 _ 0 _ count) as [c' found'] eqn:Ef. apply find_bit_spec in Ef as (B1 & B2 & B3); [|lia..].
    destruct found'.
    + intros [= <- <-]. split_and!; try lia; [rewrite Hword by lia; by apply B3|]. intros x Hx.
      rewrite Hword by lia. by apply B2.
    + destruct (decide (base + 32 * j + 32 ≤ count)).
      { destruct E. apply all_ones; [done|]. intros i Hi. rewrite <- (B2 (base + 32 * j + i)) by lia. f_equal. lia. }
      rewrite u32_small, find_word_past by lia. intros [= <- <-]. split; [|lia]. intros x Hx Ht.
      rewrite Hword by lia. apply B2. lia.
Qed.

(** A bit is changed. *)
Definition changed (on : bool) (m b : Z) : Z := if on then Z.setbit m b else Z.clearbit m b.
Lemma bit_of_poke d j b i (v : bool) : Forall is_byte d → 0 ≤ j → 4 * j + 4 ≤ Z.of_nat (length d) → 0 ≤ b < 32 → 0 ≤ i →
  let m := le32_at d (4 * j) in
  bit_of (poke d (4 * j) (le32 (changed v m b))) i =
    if decide (i = 32 * j + b) then v else bit_of d i.
Proof.
  intros Hd Hj Hl Hb Hi m. pose proof (le32_at_range d (4 * j) Hd) as Hm. fold m in Hm.
  set (m' := changed v m b).
  assert (Hbit : ∀ k, 0 ≤ k → Z.testbit m' k = if decide (k = b) then v else Z.testbit m k).
  { intros k Hk. unfold m', changed. case_decide as E; destruct v; subst.
    - by rewrite Z.setbit_eq by lia.
    - by rewrite Z.clearbit_eq.
    - by rewrite Z.setbit_neq by lia.
    - by rewrite Z.clearbit_neq by lia. }
  assert (Hm' : u32 m' = m').
  { apply Z.bits_inj'. intros k Hk. unfold u32. destruct (decide (k < 32)); [by rewrite Z.mod_pow2_bits_low by lia|].
    rewrite Z.mod_pow2_bits_high, Hbit, decide_False by lia. rewrite <- (Z.mod_small m (2 ^ 32)) by done.
    by rewrite Z.mod_pow2_bits_high by lia. }
  unfold bit_of. pose proof (Z.div_mod i 32). pose proof (Z.mod_pos_bound i 32). pose proof (Z.div_pos i 32).
  destruct (decide (i / 32 = j)) as [E|E].
  - rewrite E, le32_at_poke_same by lia. rewrite Hm', Hbit by lia.
    destruct (decide (i = 32 * j + b)), (decide (i mod 32 = b)); lia || done.
  - rewrite le32_at_poke_apart; [rewrite decide_False by lia; done|lia|cbn; lia|lia|cbn; lia].
Qed.

Section bitmap.
Context {W : Type} `{LW : LeanWorld W} `{SF : !SolidFile W}.
Notation LM := (M (lean W)).
Implicit Types (s : lean W) (v : Volume) (on : bool) (c : Z) (U : gset Z).

(** * What the bitmap says *)

Definition count_of s : Z := clusters (l_vol s).
Definition start_of s : Z := sb_bitmap_start_cluster (v_sb (l_vol s)).
Definition per_cluster s : Z := 8 * v_cluster_bytes (l_vol s).
Definition map_of s c : Z := start_of s + c / per_cluster s.
Definition used s c : bool := bit_of (lview s (map_of s c)) (c mod per_cluster s).

(** The bitmap is in the volume, and tells which clusters are used; the free ones are
    counted. *)
Record represents s U : Prop := {
  rp_cache : cache s;
  rp_start : 0 ≤ start_of s;
  rp_map c : 0 ≤ c < count_of s → map_of s c < count_of s ∧ Forall is_byte (lview s (map_of s c));
  rp_used c : 0 ≤ c < count_of s → used s c = bool_decide (c ∈ U);
  rp_in c : c ∈ U → 0 ≤ c < count_of s;
  rp_free : sb_free_clusters_count (v_sb (l_vol s)) = count_of s - Z.of_nat (size U) }.

Lemma same_same_bitmap s s' : same s s' → count_of s' = count_of s ∧ start_of s' = start_of s ∧ per_cluster s' = per_cluster s.
Proof.
  intros S. split; [by apply same_clusters|]. destruct (fixed_fields _ _ (sm_fixed _ _ S)) as (_ & E2 & E3 & _).
  unfold start_of, per_cluster. by rewrite E2, E3.
Qed.

Lemma per_cluster_pos s : cache s → 4096 ≤ per_cluster s ∧ per_cluster s = 2 ^ (3 + v_log_cluster_bytes (l_vol s))
  ∧ per_cluster s < 2 ^ 32 ∧ 0 ≤ count_of s < 2 ^ 31.
Proof.
  intros [G _ _]. pose proof (lean_cluster_bytes _ _ G). pose proof (g_size _ _ G). pose proof (g_clusters _ _ G). unfold per_cluster, count_of.
  pose proof (g_log _ _ G). rewrite (g_cluster _ _ G), Z.pow_add_r by lia. split_and!; [rewrite <- (g_cluster _ _ G); lia|lia| |nia|nia].
  pose proof (Z.pow_le_mono_r 2 (v_log_cluster_bytes (l_vol s)) 15). lia.
Qed.

Lemma cluster_words v n : geometry_ok v n → v_cluster_bytes v = 4 * (v_cluster_bytes v / 4).
Proof.
  intros G. rewrite (g_cluster _ _ G). pose proof (g_log _ _ G).
  replace (v_log_cluster_bytes v) with (2 + (v_log_cluster_bytes v - 2)) by lia.
  rewrite Z.pow_add_r by lia. change (2 ^ 2) with 4. rewrite (Z.mul_comm 4), Z.div_mul by lia. lia.
Qed.

Lemma map_range s U c : represents s U → 0 ≤ c < count_of s → 0 ≤ map_of s c < count_of s.
Proof.
  intros R Hc. split; [|by apply (rp_map _ _ R)]. pose proof (rp_start _ _ R).
  destruct (per_cluster_pos s (rp_cache _ _ R)) as (P & _). unfold map_of. pose proof (Z.div_pos c (per_cluster s)). lia.
Qed.

Lemma represents_same s s' U : represents s U → same s s' → represents s' U.
Proof.
  intros R S. destruct (same_same_bitmap s s' S) as (E1 & E2 & E3).
  assert (Em : ∀ c, map_of s' c = map_of s c) by (intros c; unfold map_of; by rewrite E2, E3).
  assert (Ev : ∀ c, 0 ≤ c < count_of s → lview s' (map_of s c) = lview s (map_of s c)).
  { intros c Hc. apply (sm_view _ _ S). by apply (map_range s U). }
  destruct R as [R1 R2 R3 R4 R5 R6]. split; rewrite ?E1, ?E2.
  - apply S.
  - done.
  - intros c Hc. rewrite Em, Ev by done. by apply R3.
  - intros c Hc. unfold used. rewrite Em, Ev, E3 by done. by apply R4.
  - done.
  - rewrite <- R6. destruct (fixed_fields _ _ (sm_fixed _ _ S)) as (_ & -> & _). done.
Qed.

(** * Finding a free cluster *)

Definition least_free (count : Z) U : option Z := snd <$> list_find (λ c, c ∉ U) (seqZ 0 count).

Lemma least_free_is count U c : 0 ≤ c < count → c ∉ U → (∀ x, 0 ≤ x < c → x ∈ U) → least_free count U = Some c.
Proof.
  intros Hc Hn Hall. unfold least_free. replace (list_find _ _) with (Some (Z.to_nat c, c)); [done|]. symmetry.
  apply list_find_Some. split_and!; [apply lookup_seqZ; lia|done|]. intros j y [-> _]%lookup_seqZ Hj Hy. apply Hy, Hall. lia.
Qed.

Lemma full_set count U c : (∀ x, x ∈ U → 0 ≤ x < count) → count ≤ Z.of_nat (size U) → 0 ≤ c < count → c ∈ U.
Proof.
  intros Hin Hsize Hc.
  assert (HU : U ⊆ list_to_set (seqZ 0 count)) by (intros y Hy; apply elem_of_list_to_set, elem_of_seqZ; specialize (Hin y Hy); lia).
  assert (HE : U ≡ list_to_set (seqZ 0 count)).
  { apply set_subseteq_size_equiv; [done|]. rewrite size_list_to_set, length_seqZ by apply NoDup_seqZ. lia. }
  apply HE, elem_of_list_to_set, elem_of_seqZ. lia.
Qed.

Lemma least_free_none count U : 0 ≤ count → (∀ c, c ∈ U → 0 ≤ c < count) → count - Z.of_nat (size U) = 0 → least_free count U = None.
Proof.
  intros Hn Hin Hsize. unfold least_free. replace (list_find _ _) with (@None (nat * Z)); [done|]. symmetry.
  apply list_find_None, Forall_forall. intros x Hx%elem_of_seqZ Hnot. apply Hnot.
  apply (full_set count); [done|lia|lia].
Qed.

Lemma least_free_some count U : 0 ≤ count → (∀ c, c ∈ U → 0 ≤ c < count) → 0 < count - Z.of_nat (size U) →
  ∃ c, least_free count U = Some c ∧ 0 ≤ c < count ∧ c ∉ U ∧ ∀ x, 0 ≤ x < c → x ∈ U.
Proof.
  intros Hn Hin Hsize. unfold least_free. destruct (list_find _ _) as [[i c]|] eqn:E.
  - apply list_find_Some in E as ([-> Hi]%lookup_seqZ & Hc & Hall). exists (0 + Z.of_nat i). split_and!; try done; [lia..|].
    intros x Hx. destruct (decide (x ∈ U)); [done|]. destruct (Hall (Z.to_nat x) x); [apply lookup_seqZ; lia|lia|done].
  - exfalso. apply list_find_None in E. assert (HU : (list_to_set (seqZ 0 count) : gset Z) ⊆ U).
    { intros y Hy%elem_of_list_to_set%elem_of_seqZ. destruct (decide (y ∈ U)); [done|]. rewrite Forall_forall in E.
      exfalso. apply (E y); [apply elem_of_seqZ|done]. lia. }
    apply subseteq_size in HU. rewrite size_list_to_set, length_seqZ in HU by apply NoDup_seqZ. lia.
Qed.

(** The loop over the clusters of the bitmap, from cluster [i] of it on. *)
Lemma wp_find_from n i c bo U s (Q : Z * Z → lean W → Prop) : represents s U → 0 ≤ i →
  (∀ k, bo = Some k → (k < length (v_buffers (l_vol s)))%nat) →
  c = per_cluster s * i → count_of s - c ≤ Z.of_nat n → (∀ x, 0 ≤ x < c → x < count_of s → x ∈ U) →
  (∃ x, 0 ≤ x < count_of s ∧ x ∉ U) →
  (∀ x s', least_free (count_of s) U = Some x → 0 ≤ x < count_of s → x ∉ U → same s s' → Q (0, x) s') →
  wp (bitmap_find_from n (start_of s + i) c bo) Q s.
Proof.
  revert i c bo s. induction n as [|n IH]; intros i c bo s R Hi Hbo -> Hn Hbelow (free & Hfree & Hfn) HQ;
    (assert (Hlt : per_cluster s * i < count_of s) by (destruct (decide (per_cluster s * i < count_of s)); [done|];
      destruct Hfn; apply Hbelow; lia)); pose proof (rp_cache _ _ R) as I; destruct (per_cluster_pos s I) as (P1 & _ & P2 & P3).
  { lia. }
  cbn [bitmap_find_from]. apply wp_bind, wp_sb. change (sb_clusters_count _) with (count_of s).
  rewrite (proj2 (Z.ltb_lt _ _)) by done. assert (Hdiv : per_cluster s * i / per_cluster s = i) by (rewrite Z.mul_comm; apply Z.div_mul; lia).
  assert (Hm : map_of s (per_cluster s * i) = start_of s + i) by (unfold map_of; lia).
  destruct (map_range s U (per_cluster s * i) R) as [M1 M2]; [lia|]. rewrite Hm in M1, M2.
  apply wp_bind, wp_leanfs_readbuf; [done|done|done|]. intros s1 k S1 Hh. cbn [Z.ltb Z.compare].
  pose proof (represents_same _ _ _ R S1) as R1. pose proof (rp_cache _ _ R1) as I1.
  destruct (same_same_bitmap _ _ S1) as (E1 & E2 & E3). destruct (holding_data _ _ _ I1 Hh) as (b & Hk & Hd & Hlen & _).
  apply wp_bind, (wp_deref _ k); [done|]. apply wp_bind, wp_vol, wp_bind, (wp_buffer k b); [done|].
  rewrite in_block_true by (unfold per_cluster in *; lia).
  pose proof (cluster_words _ _ (c_geo _ _ I1)) as Ewords.
  set (words := v_cluster_bytes (l_vol s1) / 4) in *.
  assert (Ew : per_cluster s = 32 * words) by (rewrite <- E3; unfold per_cluster; lia).
  assert (Hbit : ∀ x, per_cluster s * i ≤ x < per_cluster s * i + per_cluster s → x < count_of s →
    bit_of (b_data b) (x - per_cluster s * i) = bool_decide (x ∈ U)).
  { intros x Hx Hxc. rewrite <- (rp_used _ _ R1 x) by lia. unfold used, map_of. rewrite E2, E3, Hd.
    rewrite <- (Z.div_unique x (per_cluster s) i (x - per_cluster s * i)) by lia.
    by rewrite <- (Z.mod_unique x (per_cluster s) i (x - per_cluster s * i)) by lia. }
  destruct (find_word _ _ _ _ _) as [c found] eqn:Ef.
  replace (per_cluster s * i) with (per_cluster s * i + 32 * 0) in Ef by lia. change 0 with (4 * 0) in Ef at 1.
  apply find_word_spec in Ef; [|rewrite Hd, <- Hm; unfold map_of; rewrite <- E2, <- E3; apply (rp_map _ _ R1); lia|lia|lia|lia].
  rewrite Z.add_0_l, Z2Nat.id in Ef by lia. cbv zeta in Ef. destruct found.
  - destruct Ef as (F1 & F2 & F3 & F4). rewrite Hbit in F3 by lia. apply bool_decide_eq_false in F3.
    apply wp_ret, HQ; [|lia|done|done]. apply least_free_is; [lia|done|]. intros x Hx.
    destruct (decide (x < per_cluster s * i)); [apply Hbelow; lia|]. apply (bool_decide_eq_true_1 (x ∈ U)). rewrite <- Hbit by lia. apply F4. lia.
  - destruct Ef as (F1 & F2). assert (Hall : ∀ x, 0 ≤ x < per_cluster s * (i + 1) → x < count_of s → x ∈ U).
    { intros x Hx Hxc. destruct (decide (x < per_cluster s * i)); [apply Hbelow; lia|].
      apply (bool_decide_eq_true_1 (x ∈ U)). rewrite <- Hbit by lia. apply F1; lia. }
    assert (Hmore : per_cluster s * (i + 1) < count_of s).
    { destruct (decide (per_cluster s * (i + 1) < count_of s)); [done|]. destruct Hfn. apply Hall; lia. }
    assert (c = per_cluster s * (i + 1)) as ->.
    { rewrite F2; lia. }
    rewrite u32_small by lia. rewrite <- Z.add_assoc, <- E2. apply IH; rewrite ?E1, ?E3; try done; [lia| | |by exists free|].
    + intros k' [= ->]. by eapply lookup_lt_Some.
    + lia.
    + intros x s' Hx Hr Hu S'. apply HQ; [done|done|done|by eapply same_trans].
Qed.

Lemma wp_find_free U s (Q : Z * Z → lean W → Prop) : represents s U →
  (∀ s', same s s' → Q (match least_free (count_of s) U with Some x => (0, x) | None => (- ENOSPC, 0) end) s') →
  wp leanfs_bitmap_find_free Q s.
Proof.
  intros R HQ. pose proof (per_cluster_pos s (rp_cache _ _ R)) as (_ & _ & _ & P). unfold leanfs_bitmap_find_free.
  apply wp_bind, wp_sb. rewrite (rp_free _ _ R). destruct (Z.eqb_spec (count_of s - Z.of_nat (size U)) 0) as [E|E].
  - apply wp_ret. specialize (HQ s (same_refl s (rp_cache _ _ R))).
    rewrite least_free_none in HQ; [done|lia|apply (rp_in _ _ R)|done].
  - assert (Hs : (size U ≤ Z.to_nat (count_of s))%nat).
    { rewrite <- (length_seqZ 0 (count_of s)), <- (size_list_to_set (C := gset Z)) by apply NoDup_seqZ. apply subseteq_size.
      intros y Hy%(rp_in _ _ R). apply elem_of_list_to_set, elem_of_seqZ. lia. }
    destruct (least_free_some (count_of s) U) as (x & Hx & Hr & Hu & _); [lia|apply (rp_in _ _ R)|lia|].
    apply wp_bind, wp_sb, wp_bind, wp_sb. replace (sb_bitmap_start_cluster _) with (start_of s + 0) by (unfold start_of; lia).
    apply (wp_find_from _ 0 0 None U); try done; [lia| |lia|by exists x|].
    + change (sb_clusters_count _) with (count_of s). lia.
    + intros y s' Hy _ _ S. specialize (HQ s' S). by rewrite Hy in HQ.
Qed.

(** * Setting a bit *)

(** What changes are the bitmap and the number of free clusters. *)
Definition in_bitmap s c : Prop := ∃ x, 0 ≤ x < count_of s ∧ c = map_of s x.
Record kept s s' : Prop := {
  kp_count : count_of s' = count_of s;
  kp_start : start_of s' = start_of s;
  kp_per : per_cluster s' = per_cluster s;
  kp_sb i : 0 ≤ i → i < 84 ∨ 88 ≤ i → byte_at (v_sb (l_vol s')) i = byte_at (v_sb (l_vol s)) i;
  kp_pfiles : l_pfiles s' = l_pfiles s;
  kp_files : l_files s' = l_files s;
  kp_view c : 0 ≤ c < count_of s → ¬ in_bitmap s c → lview s' c = lview s c }.

Lemma kept_same s s' : same s s' → kept s s'.
Proof.
  intros S. destruct (same_same_bitmap _ _ S) as (E1 & E2 & E3). destruct (fixed_fields _ _ (sm_fixed _ _ S)) as (_ & Esb & _).
  split; try done; [by rewrite Esb|apply S|apply S|]. intros c Hc _. by apply S.
Qed.
Lemma kept_trans s1 s2 s3 : kept s1 s2 → kept s2 s3 → kept s1 s3.
Proof.
  intros A B. destruct A as [A1 A2 A3 A4 A5 A6 A7], B as [B1 B2 B3 B4 B5 B6 B7]. split; try congruence.
  - intros i Hi Ho. rewrite B4, A4 by done. done.
  - intros c Hc Hn. rewrite B7; [by apply A7|by rewrite A1|]. intros (x & Hx & ->). apply Hn. exists x.
    split; [lia|]. unfold map_of. by rewrite A2, A3.
Qed.

(** The count of free clusters is written in the superblock. *)
Definition set_free n s : lean W := s <| l_vol ::= λ v, v <| v_sb ::= set_free_clusters_count n |> |>.

Lemma set_free_sb n v size : geometry_ok v size → let b := set_free_clusters_count n (v_sb v) in
  Z.of_nat (length b) = Z.of_nat (length (v_sb v)) ∧ sb_free_clusters_count b = u32 n ∧
  ∀ i, 0 ≤ i → i < 84 ∨ 88 ≤ i → byte_at b i = byte_at (v_sb v) i.
Proof.
  intros G b. pose proof (g_sb _ _ G). unfold b, set_free_clusters_count. split_and!.
  - by rewrite length_poke by (cbn; lia).
  - apply le32_at_poke_same; lia.
  - intros i Hi Ho. apply byte_at_poke_apart; [lia|cbn; lia|lia|cbn; lia].
Qed.

Lemma set_free_kept n s : cache s → cache (set_free n s) ∧ kept s (set_free n s) ∧ (∀ c, lview (set_free n s) c = lview s c) ∧
  sb_free_clusters_count (v_sb (l_vol (set_free n s))) = u32 n.
Proof.
  intros [G B O]. destruct (set_free_sb n _ _ G) as (Hl & Hf & Ha). set (b := set_free_clusters_count n (v_sb (l_vol s))) in *.
  assert (Hw : ∀ i, 0 ≤ i → i + 4 ≤ 84 ∨ 88 ≤ i → le32_at b i = le32_at (v_sb (l_vol s)) i).
  { intros i Hi Ho. rewrite !le32_at_eq, !Ha by lia. done. }
  assert (Ec : sb_clusters_count b = sb_clusters_count (v_sb (l_vol s))) by (apply Hw; lia).
  assert (Es : sb_bitmap_start_cluster b = sb_bitmap_start_cluster (v_sb (l_vol s))) by (apply Hw; lia).
  assert (El : sb_log_sectors_per_cluster b = sb_log_sectors_per_cluster (v_sb (l_vol s))) by (apply Ha; lia).
  split_and!; [|split; try done|done|done].
  split; [|intros k x Hk; destruct (B k x Hk); split; try done; cbn; unfold clusters; cbn; by fold b; rewrite Ec|exact O].
  destruct G as [G1 G2 G3 G4 G5 G6 G7 G8 G9]. split; cbn; try done; fold b; rewrite ?El; try done.
  - by rewrite Hl.
  - unfold clusters. cbn. fold b. by rewrite Ec.
  - unfold clusters. cbn. fold b. by rewrite Ec.
Qed.

Definition mark c (on : bool) U : gset Z := if on then {[c]} ∪ U else U ∖ {[c]}.

Lemma mark_same c on U : bool_decide (c ∈ U) = on → mark c on U = U.
Proof.
  unfold mark. case_bool_decide as E; intros <-; apply set_eq; intros x; [set_solver|].
  rewrite elem_of_difference, elem_of_singleton. split; [by intros []|]. intros Hx. split; [done|]. by intros ->.
Qed.
Lemma mark_size c on U : bool_decide (c ∈ U) = negb on →
  Z.of_nat (size (mark c on U)) = Z.of_nat (size U) + if on then 1 else -1.
Proof.
  unfold mark. case_bool_decide as E; destruct on; try done; intros _.
  - rewrite size_difference by set_solver. rewrite size_singleton.
    assert (size ({[c]} : gset Z) ≤ size U)%nat by (apply subseteq_size; set_solver). rewrite size_singleton in *. lia.
  - rewrite size_union by set_solver. rewrite size_singleton. lia.
Qed.
Lemma mark_spec c on U x : bool_decide (x ∈ mark c on U) = if decide (x = c) then on else bool_decide (x ∈ U).
Proof.
  unfold mark. destruct on; case_decide as E; subst; rewrite ?bool_decide_eq_true, ?bool_decide_eq_false.
  - set_solver.
  - apply bool_decide_ext. set_solver.
  - set_solver.
  - apply bool_decide_ext. set_solver.
Qed.
Lemma size_bound s U : represents s U → Z.of_nat (size U) ≤ count_of s.
Proof.
  intros R. destruct (per_cluster_pos s (rp_cache _ _ R)) as (_ & _ & _ & P).
  assert (Hs : (size U ≤ Z.to_nat (count_of s))%nat); [|lia].
  rewrite <- (length_seqZ 0 (count_of s)), <- (size_list_to_set (C := gset Z)) by apply NoDup_seqZ. apply subseteq_size.
  intros y Hy%(rp_in _ _ R). apply elem_of_list_to_set, elem_of_seqZ. lia.
Qed.

(** A used cluster is counted as used, and a free one as free. *)
Lemma free_bound s c U : represents s U → 0 ≤ c < count_of s →
  if bool_decide (c ∈ U) then 0 < Z.of_nat (size U) else Z.of_nat (size U) < count_of s.
Proof.
  intros R Hc. pose proof (size_bound s U R) as Hsb. case_bool_decide as Hu.
  - destruct (decide (size U = 0%nat)) as [E%size_empty_inv|]; [|lia]. set_solver.
  - destruct (decide (Z.of_nat (size U) = count_of s)) as [E|]; [|lia].
    destruct Hu. apply (full_set (count_of s)); [apply (rp_in _ _ R)|lia|done].
Qed.

(** The word of a cluster in the bitmap. *)
Definition word_of s c : Z := (c mod per_cluster s) / 32.
Definition bit_in s c : Z := (c mod per_cluster s) mod 32.

Lemma word_bounds s c : cache s → 0 ≤ word_of s c ∧ 4 * word_of s c + 4 ≤ v_cluster_bytes (l_vol s).
Proof.
  intros I. pose proof (cluster_words _ _ (c_geo _ _ I)). pose proof (lean_cluster_bytes _ _ (c_geo _ _ I)). unfold word_of.
  pose proof (Z.mod_pos_bound c (per_cluster s)). set (i := c mod per_cluster s) in *. unfold per_cluster in *.
  pose proof (Z.div_mod i 32). pose proof (Z.mod_pos_bound i 32). lia.
Qed.

Lemma stored_bit c on U s s' : represents s U → 0 ≤ c < count_of s → Z.of_nat (length (lview s (map_of s c))) = v_cluster_bytes (l_vol s) →
  let d := lview s (map_of s c) in
  stored (map_of s c) (poke d (4 * word_of s c) (le32 (changed on (le32_at d (4 * word_of s c)) (bit_in s c)))) s s' →
  kept s s' ∧ (∀ x, 0 ≤ x < count_of s → Forall is_byte (lview s' (map_of s x))) ∧
  ∀ x, 0 ≤ x < count_of s → used s' x = if decide (x = c) then on else used s x.
Proof.
  intros R Hc Hlen d S. destruct (fixed_fields _ _ (st_fixed _ _ _ _ S)) as (_ & Esb & Ecb & _).
  pose proof (rp_cache _ _ R) as I. destruct (per_cluster_pos s I) as (P1 & _). pose proof (cluster_words _ _ (c_geo _ _ I)). unfold word_of, bit_in in *.
  set (i := c mod per_cluster s) in *. assert (Hi : 0 ≤ i < per_cluster s) by (apply Z.mod_pos_bound; lia).
  assert (Hb : Forall is_byte d) by (by apply (rp_map _ _ R)).
  pose proof (Z.div_mod i 32). pose proof (Z.mod_pos_bound i 32). pose proof (Z.div_pos i 32).
  assert (Hv : ∀ x, 0 ≤ x < count_of s → lview s' (map_of s x) =
    if decide (map_of s x = map_of s c) then poke d (4 * (i / 32)) (le32 (changed on (le32_at d (4 * (i / 32))) (i mod 32)))
    else lview s (map_of s x)).
  { intros x Hx. rewrite (st_view _ _ _ _ S); [done|]. by apply (map_range s U). }
  split_and!.
  - split; unfold count_of, clusters, start_of, per_cluster; rewrite ?Esb, ?Ecb; try done; [apply S|apply S|].
    intros x Hx Hn. rewrite (st_view _ _ _ _ S) by done. rewrite decide_False; [done|]. intros ->. apply Hn. by exists c.
  - intros x Hx. rewrite Hv by done. case_decide; [by apply poke_bytes, le32_bytes|by apply (rp_map _ _ R)].
  - intros x Hx. unfold used. replace (map_of s' x) with (map_of s x) by (unfold map_of, start_of, per_cluster; by rewrite Esb, Ecb).
    replace (per_cluster s') with (per_cluster s) by (unfold per_cluster; by rewrite Ecb). rewrite Hv by done.
    pose proof (Z.mod_pos_bound x (per_cluster s)).
    pose proof (Z.div_mod x (per_cluster s)). pose proof (Z.div_mod c (per_cluster s)) as Hci. fold i in Hci.
    case_decide as E.
    + rewrite bit_of_poke; [|done|lia|fold d in Hlen; rewrite Hlen; unfold per_cluster in *; lia|lia|lia].
      assert (x / per_cluster s = c / per_cluster s) by (unfold map_of in E; lia).
      destruct (decide (x mod per_cluster s = _)), (decide (x = c)); try done; [lia| |]; [|unfold d; by rewrite E].
      exfalso. subst x. fold i in n. lia.
    + rewrite decide_False by congruence. done.
Qed.

(** The bit and the count are changed together. *)
Lemma represents_set c on U s s' : represents s U → 0 ≤ c < count_of s → bool_decide (c ∈ U) = negb on → cache s' →
  kept s s' → (∀ x, 0 ≤ x < count_of s → Forall is_byte (lview s' (map_of s x))) →
  (∀ x, 0 ≤ x < count_of s → used s' x = if decide (x = c) then on else used s x) →
  let n := u32 (sb_free_clusters_count (v_sb (l_vol s)) + if on then -1 else 1) in
  represents (set_free n s') (mark c on U) ∧ kept s (set_free n s').
Proof.
  intros R Hc Hnew I' K Hbytes Hused n. destruct (set_free_kept n s' I') as (I & K' & Hv & Hf).
  pose proof (kept_trans _ _ _ K K') as K2. split; [|done]. set (s2 := set_free n s') in *.
  assert (Em : ∀ x, map_of s2 x = map_of s x) by (intros x; unfold map_of; by rewrite (kp_start _ _ K2), (kp_per _ _ K2)).
  pose proof (mark_size c on U Hnew) as Hsize. pose proof (size_bound s U R) as Hsb. destruct (per_cluster_pos s (rp_cache _ _ R)) as (_ & _ & _ & P).
  assert (Hin : ∀ x, x ∈ mark c on U → 0 ≤ x < count_of s).
  { intros x Hx%(bool_decide_eq_true_2 (x ∈ mark c on U)). rewrite mark_spec in Hx. case_decide; [by subst|].
    apply bool_decide_eq_true in Hx. by apply (rp_in _ _ R). }
  split; rewrite ?(kp_count _ _ K2).
  - done.
  - rewrite (kp_start _ _ K2). apply R.
  - intros x Hx. rewrite Em, Hv. split; [by apply R|by apply Hbytes].
  - intros x Hx. rewrite mark_spec, <- (rp_used _ _ R) by done. rewrite <- Hused by done. unfold used.
    rewrite Hv, Em, (kp_per _ _ K2). unfold map_of. by rewrite (kp_start _ _ K), (kp_per _ _ K).
  - done.
  - pose proof (free_bound s c U R Hc) as Hb. rewrite Hnew in Hb. rewrite Hf. unfold n. rewrite (rp_free _ _ R), Hsize.
    rewrite (u32_small (u32 _)) by apply u32_range. rewrite u32_small; destruct on; cbn in Hb; lia.
Qed.

Lemma wp_change_bit k c on U s (Q : Z → lean W → Prop) : represents s U → 0 ≤ c < count_of s → bool_decide (c ∈ U) = negb on →
  holding (l_vol s) k (map_of s c) →
  (∀ s', represents s' (mark c on U) → kept s s' → Q 0 s') →
  wp (set_word k (word_of s c) (changed on (le32_at (lview s (map_of s c)) (4 * word_of s c)) (bit_in s c));;
      res ←? leanfs_dirtybuf k false;
      mod_vol (λ v, v <| v_sb ::= set_free_clusters_count (u32 (sb_free_clusters_count (v_sb (l_vol s)) + if on then -1 else 1)) |>);;
      mret 0) Q s.
Proof.
  intros R Hc Hnew Hh HQ. pose proof (rp_cache _ _ R) as I. pose proof (map_range s U c R Hc) as Hm.
  destruct (word_bounds s c I) as (W1 & W2). destruct (holding_data _ _ _ I Hh) as (b & _ & Hd & Hlen & _). rewrite Hd in Hlen.
  apply wp_bind, (wp_store_data k (map_of s c)); [done|done|done|lia|cbn; lia|]. intros s1 S1 Hh1.
  destruct (stored_bit c on U s s1 R Hc Hlen S1) as (K1 & B1 & U1).
  apply wp_check, (wp_leanfs_dirtybuf k (map_of s c)); [apply S1|by fold (count_of s1); rewrite (kp_count _ _ K1)|done|].
  intros s2 S2 _. split; [lia|]. intros _. pose proof (kept_trans _ _ _ K1 (kept_same _ _ S2)) as K2.
  assert (Hv : ∀ x, 0 ≤ x < count_of s → lview s2 (map_of s x) = lview s1 (map_of s x)).
  { intros x Hx. apply (sm_view _ _ S2). fold (count_of s1). rewrite (kp_count _ _ K1). by apply (map_range s U). }
  destruct (represents_set c on U s s2 R Hc Hnew) as [R3 K3]; [apply S2|done| | |].
  - intros x Hx. rewrite Hv by done. by apply B1.
  - intros x Hx. rewrite <- U1 by done. unfold used.
    replace (map_of s2 x) with (map_of s x) by (unfold map_of; by rewrite (kp_start _ _ K2), (kp_per _ _ K2)).
    replace (map_of s1 x) with (map_of s x) by (unfold map_of; by rewrite (kp_start _ _ K1), (kp_per _ _ K1)).
    by rewrite Hv, (kp_per _ _ K2), (kp_per _ _ K1).
  - apply wp_bind, wp_modify, wp_ret. by apply HQ.
Qed.

Lemma wp_bitmap_set c on U s (Q : Z → lean W → Prop) : represents s U → 0 ≤ c < count_of s →
  (∀ s', represents s' (mark c on U) → kept s s' → Q 0 s') → wp (leanfs_bitmap_set c on) Q s.
Proof.
  intros R Hc HQ. pose proof (rp_cache _ _ R) as I. destruct (per_cluster_pos s I) as (P1 & P2 & P3 & P4).
  pose proof (g_log _ _ (c_geo _ _ I)) as Hlog. unfold leanfs_bitmap_set. apply wp_bind, wp_vol.
  rewrite shiftr_div by lia. rewrite <- P2. replace (v_cluster_bytes (l_vol s) * 8) with (per_cluster s) by (unfold per_cluster; lia).
  rewrite (u32_small (per_cluster s - 1)), P2 by lia. rewrite land_pow2_mod by lia. rewrite <- P2.
  change (c mod per_cluster s / 32) with (word_of s c). change ((c mod per_cluster s) mod 32) with (bit_in s c).
  apply wp_bind, wp_sb. change (sb_bitmap_start_cluster _) with (start_of s). rewrite (Z.add_comm (c / _)). change (start_of s + _) with (map_of s c).
  pose proof (map_range s U c R Hc) as Hm. rewrite u32_small by lia.
  apply wp_bind, wp_leanfs_readbuf; [done|done|done|]. intros s1 k S1 Hh. cbn [Z.ltb Z.compare].
  pose proof (represents_same _ _ _ R S1) as R1. pose proof (rp_cache _ _ R1) as I1. destruct (same_same_bitmap _ _ S1) as (E1 & E2 & E3).
  destruct (holding_data _ _ _ I1 Hh) as (b & _ & Hd & Hlen & _). rewrite Hd in Hlen.
  assert (Em : map_of s1 c = map_of s c) by (unfold map_of; by rewrite E2, E3).
  assert (Ew : word_of s1 c = word_of s c) by (unfold word_of; by rewrite E3). assert (Eb : bit_in s1 c = bit_in s c) by (unfold bit_in; by rewrite E3).
  destruct (word_bounds s1 c I1) as (W1 & W2). rewrite Ew in W1, W2.
  assert (Ecb : v_cluster_bytes (l_vol s1) = v_cluster_bytes (l_vol s)) by (unfold per_cluster in E3; lia).
  rewrite (proj2 (Z.ltb_lt _ _)) by lia. apply wp_bind, wp_ret, wp_bind, (wp_deref _ k); [done|].
  apply wp_bind, (wp_word k (map_of s c)); [done|done|lia|lia|]. apply wp_bind, wp_sb.
  assert (Hbit : Z.testbit (le32_at (lview s1 (map_of s c)) (4 * word_of s c)) (bit_in s c) = bool_decide (c ∈ U)).
  { rewrite <- (rp_used _ _ R1) by lia. unfold used, bit_of. by rewrite Em, <- Ew, <- Eb. }
  assert (Hin : map_of s1 c = map_of s c) by done. rewrite <- Em in Hh, Hbit |- *. rewrite <- Ew, <- Eb in Hbit |- *. rewrite Hbit.
  assert (Hc1 : 0 ≤ c < count_of s1) by lia. pose proof (kept_same _ _ S1) as K1.
  assert (Hkeep : bool_decide (c ∈ U) = on → Q 0 s1).
  { intros Hon. apply HQ; [|done]. by rewrite mark_same. }
  assert (Hset : bool_decide (c ∈ U) = negb on → ∀ s', represents s' (mark c on U) → kept s1 s' → Q 0 s').
  { intros _ s' R' K'. apply HQ; [done|by eapply kept_trans]. }
  pose proof (rp_free _ _ R1) as Hfree. pose proof (free_bound s1 c U R1 Hc1) as Hbound.
  destruct on, (bool_decide (c ∈ U)) eqn:Eu; cbn [negb].
  - by apply wp_ret, Hkeep.
  - rewrite (proj2 (Z.ltb_lt _ _)) by lia. apply wp_bind, wp_ret.
    apply (wp_change_bit k c true U); try done. by apply Hset.
  - apply wp_bind, wp_sb. change (sb_clusters_count _) with (count_of s1). rewrite (proj2 (Z.ltb_lt _ _)) by lia. apply wp_bind, wp_ret.
    apply (wp_change_bit k c false U); try done. by apply Hset.
  - by apply wp_ret, Hkeep.
Qed.

Lemma wp_take_cluster U s (Q : Z * Z → lean W → Prop) : represents s U →
  (∀ s' c, least_free (count_of s) U = Some c → represents s' (mark c true U) → kept s s' → Q (0, c) s') →
  (least_free (count_of s) U = None → ∀ s', same s s' → Q (- ENOSPC, 0) s') → wp take_cluster Q s.
Proof.
  intros R HQ Hfull. apply wp_bind, (wp_find_free U); [done|]. intros s1 S1.
  pose proof (represents_same _ _ _ R S1) as R1. destruct (same_same_bitmap _ _ S1) as (E1 & _).
  destruct (least_free (count_of s) U) as [c|] eqn:El; cbn [fst snd]; [|by apply wp_ret, Hfull].
  cbn [Z.ltb Z.compare]. assert (Hc : 0 ≤ c < count_of s1).
  { unfold least_free in El. destruct (list_find _ _) as [[i x]|] eqn:Ef; [|done]. injection El as ->.
    apply list_find_Some in Ef as ([-> Hi]%lookup_seqZ & _). lia. }
  apply wp_bind, (wp_bitmap_set c true U); [done|done|]. intros s2 R2 K2. apply wp_ret, HQ; [done|done|].
  eapply kept_trans; [by apply kept_same|done].
Qed.

(** * The operations on the bitmap, and on a set *)

Inductive bitmap_op := FindFree | SetBit (c : Z) (allocate : bool) | TakeFree.
Definition run_bitmap_op (o : bitmap_op) : LM (Z * Z) :=
  match o with
  | FindFree => leanfs_bitmap_find_free
  | SetBit c allocate => r ← leanfs_bitmap_set c allocate; mret (r, 0)
  | TakeFree => take_cluster
  end.
Fixpoint run_bitmap_ops (l : list bitmap_op) : LM (list (Z * Z)) :=
  match l with
  | [] => mret []
  | o :: l => r ← run_bitmap_op o; rs ← run_bitmap_ops l; mret (r :: rs)
  end.

Definition spec_op (count : Z) (o : bitmap_op) U : (Z * Z) * gset Z :=
  match o with
  | FindFree => (match least_free count U with Some c => (0, c) | None => (- ENOSPC, 0) end, U)
  | SetBit c allocate => ((0, 0), mark c allocate U)
  | TakeFree => match least_free count U with Some c => ((0, c), mark c true U) | None => ((- ENOSPC, 0), U) end
  end.
Fixpoint spec_ops (count : Z) (l : list bitmap_op) U : list (Z * Z) * gset Z :=
  match l with
  | [] => ([], U)
  | o :: l => let '(r, U) := spec_op count o U in let '(rs, U) := spec_ops count l U in (r :: rs, U)
  end.
Definition op_ok (count : Z) (o : bitmap_op) : Prop :=
  match o with SetBit c _ => 0 ≤ c < count | _ => True end.

Lemma wp_run_bitmap_op o U s : represents s U → op_ok (count_of s) o →
  wp (run_bitmap_op o) (λ r s', r = (spec_op (count_of s) o U).1 ∧ represents s' (spec_op (count_of s) o U).2 ∧ kept s s') s.
Proof.
  intros R Ho. destruct o as [|c on|]; cbn [run_bitmap_op spec_op].
  - apply (wp_find_free U); [done|]. intros s' S. split; [done|]. split; [by eapply represents_same|by apply kept_same].
  - apply wp_bind, (wp_bitmap_set c on U); [done|done|]. intros s' R' K. by apply wp_ret.
  - apply (wp_take_cluster U); [done| |].
    + intros s' c -> R' K. done.
    + intros -> s' S. cbn. split; [done|]. split; [by eapply represents_same|by apply kept_same].
Qed.

(** C32: finding, allocating and freeing clusters through the buffers and the bitmap of
    the volume works as on a set of used clusters: the cluster found is the least free
    one, -ENOSPC is answered exactly when there is none, every call succeeds otherwise
    and no assertion fails; the count of free clusters of the superblock stays right, and
    the rest of the superblock and of the volume is not changed. *)
Theorem bitmap_refine l U s : represents s U → Forall (op_ok (count_of s)) l →
  ∃ s', run_bitmap_ops l s = Done (spec_ops (count_of s) l U).1 s' ∧
        represents s' (spec_ops (count_of s) l U).2 ∧ kept s s'.
Proof.
  revert U s. induction l as [|o l IH]; intros U s R Hl.
  - exists s. split_and!; [done|done|apply kept_same, same_refl, R].
  - apply Forall_cons in Hl as [Ho Hl]. destruct (wp_done _ _ _ (wp_run_bitmap_op o U s R Ho)) as (r & s1 & Hr & Er & R1 & K1).
    cbn [spec_ops run_bitmap_ops]. destruct (spec_op (count_of s) o U) as [r' U1]. cbn in Er, R1. subst r'.
    destruct (IH U1 s1 R1) as (s2 & H2 & R2 & K2); [by rewrite (kp_count _ _ K1)|]. rewrite (kp_count _ _ K1) in H2, R2.
    destruct (spec_ops (count_of s) l U1) as [rs U2]. exists s2. rewrite (bind_eq _ _ _ _ _ Hr), (bind_eq _ _ _ _ _ H2).
    split_and!; [done|done|by eapply kept_trans].
Qed.
End bitmap.
