(* ===== verification/LeanRead.v ===== *)
(** Reading a LEAN file, proved: the bytes are those of the clusters of the file in their
    order, direct or through the chain of indirect clusters. *)
From S2P Require Import Prelude Errno LeanTypes LeanBlock LeanAlloc LeanFile LeanCache.

(** * Slices of a sequence of clusters *)

Lemma length_concat_same (l : list bytes) n : Forall (λ d, Z.of_nat (length d) = n) l →
  Z.of_nat (length (concat l)) = Z.of_nat (length l) * n.
Proof. induction 1 as [|d l Hd _ IH]; [done|]. cbn [concat length]. rewrite length_app. lia. Qed.

Lemma slice_concat (l : list bytes) n i d o c : Forall (λ d, Z.of_nat (length d) = n) l → l !! i = Some d →
  0 ≤ o → 0 ≤ c → o + c ≤ n → slice (concat l) (Z.of_nat i * n + o) c = slice d o c.
Proof.
  intros Hl. revert i. induction Hl as [|x l Hx Hl IH]; intros i Hi Ho Hc Hb; [done|]. cbn [concat].
  destruct i as [|i]; cbn in Hi.
  - injection Hi as ->. apply list_eq. intros j. rewrite !lookup_slice by lia. case_decide; [|done].
    rewrite lookup_app_l by lia. f_equal; lia.
  - rewrite <- (IH i) by done. apply list_eq. intros j. rewrite !lookup_slice by lia. case_decide; [|done].
    rewrite lookup_app_r by lia. f_equal. lia.
Qed.

Lemma slice_split {A} (l : list A) a m n : 0 ≤ a → 0 ≤ m → 0 ≤ n → a + m + n ≤ Z.of_nat (length l) →
  slice l a (m + n) = slice l a m ++ slice l (a + m) n.
Proof.
  intros Ha Hm Hn Hl. assert (Hm' : Z.of_nat (length (slice l a m)) = m) by (apply length_slice; lia).
  apply list_eq. intros j. rewrite lookup_slice by done.
  destruct (decide (Z.of_nat j < m)).
  - rewrite lookup_app_l, lookup_slice, !decide_True by lia. done.
  - rewrite lookup_app_r, lookup_slice by lia. repeat case_decide; try lia; [|done]. f_equal. lia.
Qed.

Section leanread.
Context {W : Type} `{LW : LeanWorld W} `{SF : !SolidFile W}.
Notation LM := (M (lean W)).
Implicit Types (s : lean W) (p : PFile) (x : File) (ic : list Z) (i c : Z).

(** * The clusters of a file *)

Definition icount s : Z := v_icluster_count (l_vol s).
(** Cluster [i] of a file whose indirect clusters are [ic]. *)
Definition cluster_at s p ic i : Z :=
  if i =? 0 then pf_first_cluster p
  else if i <=? MAX_DIRECT_CLUSTER then default 0 (dclusters (pf_inode p) !! Z.to_nat (i - 1))
  else le32_at (lview s (default 0 (ic !! Z.to_nat ((i - 16) / icount s)))) (4 * ((i - 16) mod icount s)).
Definition file_clusters s p ic : list Z := map (cluster_at s p ic) (seqZ 0 (clusters_count (pf_inode p))).
(** The contents come after the inode in the first cluster. *)
Definition file_bytes s p ic : bytes :=
  slice (concat (map (lview s) (file_clusters s p ic))) sizeof_Inode (file_size (pf_inode p)).

(** What [leanfs_get_file_cluster] passes on without setting it is the null pointer or
    one of the buffers of the volume. Nothing in the code makes it so. *)
Definition harmless s : Prop := ∀ w k, lw_pointer w = Some k → (k < length (v_buffers (l_vol s)))%nat.

(** The clusters of a file and their chain of indirect clusters. For a file that has
    indirect clusters, the pointer that is not set has to be harmless. *)
Record layout s p ic : Prop := {
  ly_size : 0 ≤ file_size (pf_inode p) ∧ file_size (pf_inode p) + sizeof_Inode ≤ clusters_count (pf_inode p) * v_cluster_bytes (l_vol s);
  ly_room : clusters_count (pf_inode p) * v_cluster_bytes (l_vol s) < 2 ^ 31;
  ly_direct : length (dclusters (pf_inode p)) = 15%nat;
  ly_head : 16 < clusters_count (pf_inode p) → ic !! 0%nat = Some (iclusters_head (pf_inode p));
  ly_long : clusters_count (pf_inode p) - 16 ≤ icount s * Z.of_nat (length ic);
  ly_next j c c' : ic !! j = Some c → ic !! S j = Some c' → le32_at (lview s c) (4 * icount s) = c';
  ly_indirect j c : ic !! j = Some c → 0 ≤ c < clusters (l_vol s);
  ly_in i : 0 ≤ i < clusters_count (pf_inode p) → 0 ≤ cluster_at s p ic i < clusters (l_vol s);
  ly_pointer : 16 < clusters_count (pf_inode p) → harmless s }.

Definition remembers s x ic : Prop :=
  f_icluster_first x = 0 ∨ ∃ j, f_icluster_first x = 16 + Z.of_nat j * icount s ∧ ic !! j = Some (f_icluster x).

(** [s'] presents the volume of [s]; the open files may differ. *)
Record sees s s' : Prop := {
  se_fixed : fixed (l_vol s') = fixed (l_vol s);
  se_length : length (v_buffers (l_vol s')) = length (v_buffers (l_vol s));
  se_pfiles : l_pfiles s' = l_pfiles s;
  se_cache : cache s';
  se_view c : 0 ≤ c < clusters (l_vol s) → lview s' c = lview s c }.

Lemma sees_same s s' : same s s' → sees s s'.
Proof. by intros []. Qed.
Lemma sees_clusters s s' : sees s s' → clusters (l_vol s') = clusters (l_vol s).
Proof. intros S. destruct (fixed_fields _ _ (se_fixed _ _ S)) as (_ & E & _). unfold clusters. by rewrite E. Qed.
Lemma sees_trans s1 s2 s3 : sees s1 s2 → sees s2 s3 → sees s1 s3.
Proof.
  intros A B. pose proof (sees_clusters _ _ A) as E. destruct A, B. split; try congruence.
  intros c Hc. rewrite se_view1; [by apply se_view0|by rewrite E].
Qed.
Lemma sees_geometry s s' : sees s s' → icount s' = icount s ∧ v_cluster_bytes (l_vol s') = v_cluster_bytes (l_vol s)
  ∧ v_log_cluster_bytes (l_vol s') = v_log_cluster_bytes (l_vol s).
Proof. intros S. destruct (fixed_fields _ _ (se_fixed _ _ S)) as (_ & _ & E3 & E4 & _ & E6). done. Qed.

Lemma icount_spec s : cache s → 127 ≤ icount s ∧ v_cluster_bytes (l_vol s) = 4 * icount s + 4.
Proof.
  intros [G _ _]. unfold icount. rewrite (g_icount _ _ G). pose proof (lean_cluster_bytes _ _ G). pose proof (g_log _ _ G).
  assert (v_cluster_bytes (l_vol s) = 4 * (v_cluster_bytes (l_vol s) / 4)); [|lia]. rewrite (g_cluster _ _ G).
  replace (v_log_cluster_bytes (l_vol s)) with (2 + (v_log_cluster_bytes (l_vol s) - 2)) by lia.
  rewrite Z.pow_add_r by lia. change (2 ^ 2) with 4. rewrite (Z.mul_comm 4), Z.div_mul by lia. lia.
Qed.

(** What a file is made of does not depend on the buffers. *)
Lemma indirect_in s p ic i : cache s → layout s p ic → 16 ≤ i < clusters_count (pf_inode p) →
  ∃ c, ic !! Z.to_nat ((i - 16) / icount s) = Some c ∧ 0 ≤ c < clusters (l_vol s).
Proof.
  intros I L Hi. destruct (icount_spec s I) as [Hn _]. pose proof (ly_long _ _ _ L).
  pose proof (Z.div_pos (i - 16) (icount s)). pose proof (Z.div_lt_upper_bound (i - 16) (icount s) (Z.of_nat (length ic))).
  destruct (lookup_lt_is_Some_2 ic (Z.to_nat ((i - 16) / icount s))) as [c Hc]; [lia|].
  exists c. split; [done|]. by eapply ly_indirect.
Qed.
Lemma sees_cluster_at s s' p ic i : cache s → layout s p ic → sees s s' → 0 ≤ i < clusters_count (pf_inode p) →
  cluster_at s' p ic i = cluster_at s p ic i.
Proof.
  intros I L S Hi. destruct (sees_geometry _ _ S) as (E1 & _). unfold cluster_at. rewrite E1.
  destruct (i =? 0); [done|]. destruct (Z.leb_spec i MAX_DIRECT_CLUSTER); [done|]. unfold MAX_DIRECT_CLUSTER in *.
  destruct (indirect_in s p ic i) as (c & -> & Hc); [done|done|lia|]. cbn. by rewrite (se_view _ _ S).
Qed.
Lemma sees_layout s s' p ic : cache s → layout s p ic → sees s s' → layout s' p ic.
Proof.
  intros I L S. destruct (sees_geometry _ _ S) as (E1 & E2 & _). pose proof (sees_clusters _ _ S) as E3.
  split; rewrite ?E1, ?E2, ?E3; try apply L.
  - intros j c c' Hc Hc'. rewrite (se_view _ _ S) by (by eapply ly_indirect). by eapply ly_next.
  - intros i Hi. rewrite (sees_cluster_at s s') by done. by apply L.
  - intros Hi w k Hw. rewrite (se_length _ _ S). by apply (ly_pointer _ _ _ L Hi w).
Qed.
Lemma sees_file_bytes s s' p ic : cache s → layout s p ic → sees s s' → file_bytes s' p ic = file_bytes s p ic.
Proof.
  intros I L S. unfold file_bytes, file_clusters. f_equal. f_equal. rewrite !map_map. apply map_ext_in.
  intros i Hi%list_elem_of_In%elem_of_seqZ. rewrite (sees_cluster_at s s') by (done || lia).
  apply (se_view _ _ S). apply (ly_in _ _ _ L). lia.
Qed.

Lemma wp_pfile pf p (Q : PFile → lean W → Prop) s : l_pfiles s !! pf = Some p → Q p s → wp (pfile pf) Q s.
Proof. intros Hp HQ. apply wp_bind, wp_gets. by apply (wp_deref _ p). Qed.
Lemma wp_the_file f x (Q : File → lean W → Prop) s : l_files s !! f = Some x → Q x s → wp (the_file f) Q s.
Proof. intros Hx HQ. apply wp_bind, wp_gets. by apply (wp_deref _ x). Qed.
Lemma wp_mod_file f x g (Q : () → lean W → Prop) s : l_files s !! f = Some x →
  Q tt (s <| l_files ::= <[f := g x]> |>) → wp (mod_file f g) Q s.
Proof. intros Hx HQ. apply wp_bind, (wp_the_file f x); [done|]. by apply wp_modify. Qed.
Lemma wp_mod_pfile pf p g (Q : () → lean W → Prop) s : l_pfiles s !! pf = Some p →
  Q tt (s <| l_pfiles ::= <[pf := g p]> |>) → wp (mod_pfile pf g) Q s.
Proof. intros Hp HQ. apply wp_bind, (wp_pfile pf p); [done|]. by apply wp_modify. Qed.

(** * Following the chain of indirect clusters *)

Lemma wp_fetch_loop n pf p ic i j c bo s (Q : Z * option nat * Z * Z → lean W → Prop) : cache s → layout s p ic →
  l_pfiles s !! pf = Some p → ic !! j = Some c → 16 + Z.of_nat j * icount s ≤ i < clusters_count (pf_inode p) →
  clusters_count (pf_inode p) - (16 + Z.of_nat j * icount s) ≤ Z.of_nat n →
  (∀ k, bo = Some k → (k < length (v_buffers (l_vol s)))%nat) →
  (∀ s' k j' c', same s s' → ic !! j' = Some c' → holding (l_vol s') k c' →
     16 + Z.of_nat j' * icount s ≤ i < 16 + Z.of_nat j' * icount s + icount s →
     Q (0, Some k, c', 16 + Z.of_nat j' * icount s) s') →
  wp (fetch_loop n pf i c (16 + Z.of_nat j * icount s) bo) Q s.
Proof.
  revert j c bo s. induction n as [|n IH]; intros j c bo s I L Hp Hc Hi Hn Hbo HQ; (destruct (icount_spec s I) as [N1 N2]).
  { lia. }
  pose proof (ly_room _ _ _ L) as Hroom. assert (Hcount : clusters_count (pf_inode p) < 2 ^ 31) by nia.
  cbn [fetch_loop]. apply wp_bind, (wp_pfile pf p); [done|]. rewrite (proj2 (Z.ltb_lt _ _)) by lia.
  pose proof (ly_indirect _ _ _ L _ _ Hc) as Hr. apply wp_bind, wp_leanfs_readbuf; [done|done|done|].
  intros s1 k S1 Hh. cbn [Z.ltb Z.compare]. apply wp_bind, wp_vol.
  pose proof (sees_same _ _ S1) as S1'. destruct (sees_geometry _ _ S1') as (E1 & E2 & _). fold (icount s1). rewrite E1.
  pose proof (sees_layout _ _ _ _ I L S1') as L1. pose proof (sm_cache _ _ S1) as I1.
  assert (Hu : i < clusters_count (pf_inode p) → icount s < 2 ^ 30) by (intros; nia).
  rewrite (proj2 (Z.leb_le _ _)), u32_small by lia. cbn [andb]. destruct (Z.ltb_spec i (16 + Z.of_nat j * icount s + icount s)).
  - apply wp_ret. apply (HQ s1 k j c); [done|done|done|lia].
  - pose proof (ly_long _ _ _ L). destruct (lookup_lt_is_Some_2 ic (S j)) as [c' Hc']; [nia|].
    apply wp_bind, (wp_deref _ k); [done|]. apply wp_bind, (wp_word k c); [done|done|lia|lia|].
    assert (Hnext : le32_at (lview s1 c) (4 * icount s) = c') by (rewrite <- E1; by eapply ly_next). rewrite Hnext.
    replace (16 + Z.of_nat j * icount s + icount s) with (16 + Z.of_nat (S j) * icount s1) by lia.
    apply IH; rewrite ?E1; try done; [by rewrite (sm_pfiles _ _ S1)|lia|lia| |].
    + intros k' [= ->]. destruct Hh as (b & Hb & _). by eapply lookup_lt_Some.
    + intros s' k' j' c0 S' Hj Hh' Hij. apply HQ; [by eapply same_trans|done|done|done].
Qed.

(** The address of a cluster is found, and the indirect cluster remembered. *)
Lemma wp_get_file_cluster f x p ic i s (Q : Z * Z → lean W → Prop) : cache s → layout s p ic → remembers s x ic →
  l_files s !! f = Some x → l_pfiles s !! f_pf x = Some p → 0 ≤ i < clusters_count (pf_inode p) →
  (∀ s' x', sees s s' → l_files s' = <[f := x']> (l_files s) → remembers s' x' ic →
     x' = x <| f_icluster := f_icluster x' |> <| f_icluster_first := f_icluster_first x' |> → Q (0, cluster_at s p ic i) s') →
  wp (leanfs_get_file_cluster f i) Q s.
Proof.
  intros I L Hrem Hx Hp Hi HQ. unfold leanfs_get_file_cluster. apply wp_bind, (wp_the_file f x); [done|].
  apply wp_bind, (wp_pfile _ p); [done|].
  assert (Hstay : Q (0, cluster_at s p ic i) s).
  { apply (HQ s x); [by apply sees_same, same_refl|by rewrite list_insert_id|done|by destruct x]. }
  unfold cluster_at in Hstay. destruct (Z.eqb_spec i 0) as [->|]; [by apply wp_ret|].
  destruct (Z.leb_spec i MAX_DIRECT_CLUSTER).
  { destruct (lookup_lt_is_Some_2 (dclusters (pf_inode p)) (Z.to_nat (i - 1))) as [c Hc].
    { rewrite (ly_direct _ _ _ L). unfold MAX_DIRECT_CLUSTER in *. lia. }
    rewrite Hc in Hstay |- *. apply wp_bind, (wp_deref _ c); [done|]. by apply wp_ret. }
  clear Hstay. unfold MAX_DIRECT_CLUSTER in *. destruct (icount_spec s I) as [N1 N2].
  apply wp_bind, wp_gets, wp_bind. unfold leanfs_fetch_indirect. rewrite (proj2 (Z.ltb_lt _ _)) by (unfold MAX_DIRECT_CLUSTER; lia). apply wp_bind, wp_ret.
  apply wp_bind, (wp_the_file f x); [done|]. apply wp_bind, (wp_pfile _ p); [done|].
  assert (∃ j c, (if (f_icluster_first x =? 0) || (i <? f_icluster_first x) then (iclusters_head (pf_inode p), MAX_DIRECT_CLUSTER + 1)
                  else (f_icluster x, f_icluster_first x)) = (c, 16 + Z.of_nat j * icount s) ∧ ic !! j = Some c ∧
                 16 + Z.of_nat j * icount s ≤ i) as (j & c & -> & Hc & Hj).
  { destruct (Z.eqb_spec (f_icluster_first x) 0); cbn [orb]; [exists 0%nat, (iclusters_head (pf_inode p)); split_and!; [done|by apply (ly_head _ _ _ L); lia|lia]|].
    destruct (Z.ltb_spec i (f_icluster_first x)); [exists 0%nat, (iclusters_head (pf_inode p)); split_and!; [done|by apply (ly_head _ _ _ L); lia|lia]|].
    destruct Hrem as [?|(j & Hf & Hc)]; [done|]. exists j, (f_icluster x). rewrite <- Hf. done. }
  apply wp_bind, (wp_fetch_loop _ _ p ic); [done|done|done|done|lia|lia| |].
  { intros k. apply (ly_pointer _ _ _ L). lia. }
  intros s1 k j' c' S1 Hc' Hh Hij. pose proof (sees_same _ _ S1) as S1'. destruct (sees_geometry _ _ S1') as (E1 & E2 & _).
  apply wp_bind, (wp_mod_file f x); [by rewrite (sm_files _ _ S1)|]. apply wp_ret. cbn [Z.ltb Z.compare]. set (s2 := s1 <| l_files ::= _ |>).
  assert (S2 : sees s s2) by (destruct S1' as [A1 A2 A3 A4 A5]; by split).
  pose proof (ly_room _ _ _ L). rewrite s32_small by nia. rewrite (proj2 (Z.ltb_ge _ _)) by lia.
  apply wp_bind, wp_vol. change (v_cluster_bytes (l_vol s2)) with (v_cluster_bytes (l_vol s1)).
  replace (v_cluster_bytes (l_vol s1) / 4) with (icount s + 1) by (rewrite E2, N2; apply (Z.div_unique _ _ _ 0); lia).
  rewrite (proj2 (Z.ltb_lt _ _)) by lia. apply wp_bind, wp_ret, wp_bind, (wp_deref _ k); [done|].
  apply wp_bind, (wp_word k c'); [apply S2|done|lia|change (v_cluster_bytes (l_vol s2)) with (v_cluster_bytes (l_vol s1)); lia|].
  apply wp_ret. assert (Hq : (i - 16) / icount s = Z.of_nat j' ∧ (i - 16) mod icount s = i - (16 + Z.of_nat j' * icount s)).
  { split; symmetry; [apply (Z.div_unique _ _ _ (i - (16 + Z.of_nat j' * icount s)))|apply (Z.mod_unique _ _ (Z.of_nat j'))]; lia. }
  destruct Hq as [Hq Hr]. assert (Hat : cluster_at s p ic i = le32_at (lview s c') (4 * (i - (16 + Z.of_nat j' * icount s)))).
  { unfold cluster_at, MAX_DIRECT_CLUSTER. rewrite (proj2 (Z.eqb_neq _ _)), (proj2 (Z.leb_gt _ _)) by lia.
    by rewrite Hq, Hr, Nat2Z.id, Hc'. }
  change (lview s2 c') with (lview s1 c'). rewrite (sm_view _ _ S1) by (by eapply ly_indirect). rewrite <- Hat.
  eapply HQ; [done|cbn; by rewrite (sm_files _ _ S1)| |done].
  right. exists j'. change (icount s2) with (icount s1). by rewrite E1.
Qed.

(** * Reading the pieces *)

Lemma length_lview s c : cache s → 0 ≤ c < clusters (l_vol s) → Z.of_nat (length (lview s c)) = v_cluster_bytes (l_vol s).
Proof.
  intros I Hc. destruct (held_or_absent (l_vol s) c) as [(k & b & Hk & Hv & Hb)|Hn]; unfold lview.
  - rewrite (view_holding _ _ k c b) by done. apply (c_buffers _ _ I k b Hk).
  - rewrite view_absent by done. pose proof (c_geo _ _ I) as G. destruct (cluster_pos _ _ _ G Hc) as (P1 & P2 & _).
    pose proof (lean_cluster_bytes _ _ G). unfold on_device. rewrite length_slice by lia. done.
Qed.

(** The geometry of an offset, and the bytes found there. *)
Definition index_at s off : Z := (off + sizeof_Inode) / v_cluster_bytes (l_vol s).
Definition place_at s off : Z := (off + sizeof_Inode) mod v_cluster_bytes (l_vol s).

Lemma offset_at s off : cache s → 0 ≤ off < 2 ^ 31 → cluster_index_of (l_vol s) off = index_at s off ∧
  byte_in_cluster_of (l_vol s) off = place_at s off ∧ 0 ≤ place_at s off < v_cluster_bytes (l_vol s) ∧
  0 ≤ index_at s off ∧ off + sizeof_Inode = index_at s off * v_cluster_bytes (l_vol s) + place_at s off.
Proof.
  intros [G _ _] Ho. pose proof (lean_cluster_bytes _ _ G) as Hp. pose proof (g_log _ _ G). pose proof (g_cluster _ _ G) as Hcb.
  unfold cluster_index_of, byte_in_cluster_of, index_at, place_at, sizeof_Inode in *. rewrite (u32_small (off + 128)) by lia.
  rewrite shiftr_div, <- Hcb by lia. pose proof (Z.pow_le_mono_r 2 (v_log_cluster_bytes (l_vol s)) 15).
  rewrite (u32_small (_ - 1)) by lia. rewrite Hcb, land_pow2_mod, <- Hcb by lia.
  pose proof (Z.mod_pos_bound (off + 128) (v_cluster_bytes (l_vol s))). pose proof (Z.div_pos (off + 128) (v_cluster_bytes (l_vol s))).
  pose proof (Z.div_mod (off + 128) (v_cluster_bytes (l_vol s))). split_and!; lia || done.
Qed.

Lemma index_below s p ic off : cache s → layout s p ic → 0 ≤ off < file_size (pf_inode p) →
  0 ≤ index_at s off < clusters_count (pf_inode p).
Proof.
  intros I L Ho. destruct (ly_size _ _ _ L) as [_ Hs]. pose proof (ly_room _ _ _ L). pose proof (lean_cluster_bytes _ _ (c_geo _ _ I)).
  destruct (offset_at s off I) as (_ & _ & P1 & P2 & P3); [unfold sizeof_Inode in *; nia|]. split; [done|nia].
Qed.

Lemma file_piece s p ic off n : cache s → layout s p ic → 0 ≤ off < file_size (pf_inode p) → 0 ≤ n →
  n ≤ file_size (pf_inode p) - off → n ≤ v_cluster_bytes (l_vol s) - place_at s off →
  slice (file_bytes s p ic) off n = slice (lview s (cluster_at s p ic (index_at s off))) (place_at s off) n.
Proof.
  intros I L Ho Hn H1 H2. pose proof (index_below s p ic off I L Ho) as Hi. pose proof (ly_room _ _ _ L).
  pose proof (lean_cluster_bytes _ _ (c_geo _ _ I)). destruct (ly_size _ _ _ L) as [_ Hs].
  destruct (offset_at s off I) as (_ & _ & P1 & P2 & P3); [unfold sizeof_Inode in *; nia|].
  unfold file_bytes. rewrite slice_slice by (unfold sizeof_Inode; lia). rewrite (Z.add_comm sizeof_Inode), P3.
  rewrite <- (Z2Nat.id (index_at s off)) by lia. apply slice_concat; [|  |lia|lia|lia].
  - apply Forall_map, Forall_map, Forall_forall. intros i Hin%elem_of_seqZ. apply length_lview; [done|]. apply (ly_in _ _ _ L). lia.
  - unfold file_clusters. rewrite !list_lookup_fmap, lookup_seqZ_lt by lia. cbn. do 3 f_equal; lia.
Qed.

Lemma length_file_bytes s p ic : cache s → layout s p ic → Z.of_nat (length (file_bytes s p ic)) = file_size (pf_inode p).
Proof.
  intros I L. destruct (ly_size _ _ _ L) as [H0 Hs]. pose proof (lean_cluster_bytes _ _ (c_geo _ _ I)). unfold sizeof_Inode in *.
  unfold file_bytes. rewrite length_slice; [done|done|done|]. rewrite (length_concat_same _ (v_cluster_bytes (l_vol s))).
  - unfold file_clusters. rewrite !length_map, length_seqZ. unfold sizeof_Inode. nia.
  - apply Forall_map, Forall_map, Forall_forall. intros i Hin%elem_of_seqZ. apply length_lview; [done|]. apply (ly_in _ _ _ L). lia.
Qed.

(** One piece, when there is something to read. *)
Definition left_to_read p k size off : Z := Z.max 0 (Z.min (size - k) (file_size (pf_inode p) - off)).

Lemma read_count_is s p ic k size off : cache s → layout s p ic → 0 ≤ k → size < 2 ^ 31 → 0 ≤ off < file_size (pf_inode p) → k < size →
  read_count (l_vol s) (file_size (pf_inode p)) off k size =
  Z.min (v_cluster_bytes (l_vol s) - place_at s off) (left_to_read p k size off).
Proof.
  intros I L Hk Hsz Ho Hlt. pose proof (ly_room _ _ _ L). destruct (ly_size _ _ _ L) as [_ Hs]. pose proof (lean_cluster_bytes _ _ (c_geo _ _ I)).
  pose proof (g_cluster _ _ (c_geo _ _ I)). pose proof (g_log _ _ (c_geo _ _ I)).
  pose proof (Z.pow_le_mono_r 2 (v_log_cluster_bytes (l_vol s)) 15).
  destruct (offset_at s off I) as (_ & E2 & P1 & P2 & P3); [unfold sizeof_Inode in *; nia|]. unfold read_count, left_to_read. rewrite E2.
  assert (file_size (pf_inode p) < 2 ^ 31) by (unfold sizeof_Inode in *; lia).
  rewrite (u32_small (_ - place_at s off)), (u32_small (off + _)) by lia.
  assert (Hlast : ∀ c, 0 ≤ c < 2 ^ 31 → (if size <? u32 (k + c) then u32 (size - k) else c) = Z.min c (size - k)).
  { intros c Hc. rewrite (u32_small (k + c)) by lia. destruct (Z.ltb_spec size (k + c)); rewrite ?u32_small by lia; lia. }
  destruct (Z.leb_spec (file_size (pf_inode p)) (off + (v_cluster_bytes (l_vol s) - place_at s off)));
    rewrite ?(u32_small (file_size (pf_inode p) - off)) by lia; rewrite Hlast by lia; lia.
Qed.

Lemma wp_lean_read_loop n f x p ic k size off bo l s (Q : Z * bytes * Z → lean W → Prop) : cache s → layout s p ic → remembers s x ic →
  l_files s !! f = Some x → l_pfiles s !! f_pf x = Some p → 0 ≤ k ≤ size → size < 2 ^ 31 → 0 ≤ off < 2 ^ 31 →
  (∀ j, bo = Some j → (j < length (v_buffers (l_vol s)))%nat) →
  (k < size → off < file_size (pf_inode p) → left_to_read p k size off + place_at s off ≤ Z.of_nat n * v_cluster_bytes (l_vol s)) →
  (∀ s' x', sees s s' → l_files s' = <[f := x']> (l_files s) → remembers s' x' ic →
     x' = x <| f_icluster := f_icluster x' |> <| f_icluster_first := f_icluster_first x' |> →
     let m := left_to_read p k size off in Q (k + m, l ++ slice (file_bytes s p ic) off m, off + m) s') →
  wp (read_loop n f (f_pf x) k size off bo l) Q s.
Proof.
  revert x k off bo l s. induction n as [|n IH]; intros x k off bo l s I L Hrem Hx Hp Hk Hsz Ho Hbo Hn HQ.
  all: pose proof (proj1 (ly_size _ _ _ L)) as Hfs; pose proof (lean_cluster_bytes _ _ (c_geo _ _ I)) as Hcb.
  all: destruct (offset_at s off I Ho) as (A1 & A2 & A3 & A4 & A5).
  all: cbn [read_loop]; apply wp_bind, (wp_pfile _ p); [done|]; unfold off_u64, u64; rewrite (Z.mod_small off) by lia.
  all: destruct (Z.ltb_spec k size); cbn [andb]; [destruct (Z.ltb_spec off (file_size (pf_inode p)))|].
  all: try (apply wp_ret; specialize (HQ s x); unfold left_to_read in HQ; rewrite (Z.max_l 0) in HQ by lia; rewrite !Z.add_0_r in HQ;
    unfold slice in HQ; cbn in HQ; rewrite app_nil_r in HQ; apply HQ;
      [by apply sees_same, same_refl|by rewrite list_insert_id|done|by destruct x]).
  { specialize (Hn ltac:(done) ltac:(done)). unfold left_to_read in Hn. lia. }
  pose proof (index_below s p ic off I L (conj (proj1 Ho) H0)) as Hi. apply wp_bind, wp_vol.
  rewrite A1. apply wp_bind, (wp_get_file_cluster f x p ic); [done|done|done|done|done|done|].
  intros s1 x1 S1 Hf1 Hr1 Ex1. cbn [fst snd Z.ltb Z.compare]. apply wp_bind, wp_vol.
  pose proof (sees_layout _ _ _ _ I L S1) as L1. pose proof (se_cache _ _ S1) as I1. destruct (sees_geometry _ _ S1) as (_ & E2 & _).
  assert (Ep : place_at s1 off = place_at s off) by (unfold place_at; by rewrite E2).
  rewrite (read_count_is s1 p ic k size off I1 L1) by lia. rewrite Ep, E2. set (cnt := Z.min _ _).
  pose proof (ly_in _ _ _ L _ Hi) as Hin. pose proof (sees_clusters _ _ S1) as Ec1. apply wp_bind, wp_leanfs_readbuf; [done|by rewrite Ec1| |].
  { intros j Hj. rewrite (se_length _ _ S1). by apply Hbo. }
  intros s2 j S2 Hh. cbn [Z.ltb Z.compare]. apply wp_bind, (wp_deref _ j); [done|].
  pose proof (sees_trans _ _ _ S1 (sees_same _ _ S2)) as S12. destruct (sees_geometry _ _ S12) as (_ & E2' & _). pose proof (se_cache _ _ S12) as I2.
  destruct (offset_at s1 off I1 Ho) as (_ & B2 & _). rewrite B2, Ep.
  assert (Hcnt : 0 < cnt ≤ left_to_read p k size off ∧ cnt ≤ v_cluster_bytes (l_vol s) - place_at s off) by (unfold cnt, left_to_read; lia).
  apply wp_bind, (wp_load_data j (cluster_at s p ic (index_at s off))); [done|done|lia|lia|rewrite E2'; lia|].
  rewrite (se_view _ _ S12) by done. rewrite <- (file_piece s p ic off cnt) by (done || lia || unfold left_to_read in *; lia).
  pose proof (ly_room _ _ _ L). pose proof (proj2 (ly_size _ _ _ L)). unfold sizeof_Inode in *. unfold left_to_read in Hcnt.
  rewrite u32_small, s32_small by lia. replace (f_pf x) with (f_pf x1) by (by rewrite Ex1).
  assert (Hfile1 : l_files s2 !! f = Some x1) by (rewrite (sm_files _ _ S2), Hf1; apply list_lookup_insert_eq; by eapply lookup_lt_Some).
  assert (Hleft : left_to_read p (k + cnt) size (off + cnt) = left_to_read p k size off - cnt) by (unfold left_to_read; lia).
  apply IH; try done; try lia.
  - by apply (sees_layout s).
  - destruct Hr1 as [?|(j' & R1 & R2)]; [by left|right; exists j']. by rewrite (proj1 (sees_geometry _ _ (sees_same _ _ S2))).
  - rewrite (sm_pfiles _ _ S2), (se_pfiles _ _ S1). by rewrite Ex1.
  - intros j' [= ->]. destruct Hh as (b & Hb & _). by eapply lookup_lt_Some.
  - intros Hk' Ho'. rewrite Hleft, E2'. specialize (Hn ltac:(lia) ltac:(lia)).
    assert (Hfull : cnt = v_cluster_bytes (l_vol s) - place_at s off) by (unfold cnt, left_to_read in *; lia).
    replace (place_at s2 (off + cnt)) with 0; [lia|]. unfold place_at. rewrite E2'. unfold sizeof_Inode.
    replace (off + cnt + 128) with ((index_at s off + 1) * v_cluster_bytes (l_vol s)) by lia. symmetry. apply Z.mod_mul. lia.
  - intros s' x' S' Hf' Hr' Ex'. rewrite Hleft, (sees_file_bytes _ _ _ _ I L S12), <- app_assoc, <- slice_split.
    + replace (cnt + (left_to_read p k size off - cnt)) with (left_to_read p k size off) by lia. rewrite <- !Z.add_assoc.
      replace (cnt + (left_to_read p k size off - cnt)) with (left_to_read p k size off) by lia.
      apply (HQ s' x'); [by eapply sees_trans| |done|by rewrite Ex', Ex1].
      rewrite Hf', (sm_files _ _ S2), Hf1. apply list_insert_insert_eq.
    + lia.
    + lia.
    + unfold left_to_read. lia.
    + rewrite length_file_bytes by done. unfold left_to_read. lia.
Qed.

Lemma bind_gets {A B} (g : lean W → A) (k : A → LM B) s : (gets g ≫= k) s = k (g s) s.
Proof. done. Qed.
Lemma bind_vol {A B} (g : Volume → A) (k : A → LM B) s : (vol g ≫= k) s = k (g (l_vol s)) s.
Proof. done. Qed.
Lemma bind_mod_vol {B} (g : Volume → Volume) (k : () → LM B) s : (mod_vol g ≫= k) s = k tt (s <| l_vol ::= g |>).
Proof. done. Qed.
Lemma bind_ret {A B} (a : A) (k : A → LM B) s : (mret a ≫= k) s = k a s.
Proof. done. Qed.

(** A pointer that is not that of a buffer is used when the cluster is in no buffer. *)
Lemma leanfs_readbuf_wild c pf k s :
  (∀ b, b ∈ v_buffers (l_vol s) → valid b → b_cluster b ≠ c) → (length (v_buffers (l_vol s)) ≤ k)%nat →
  leanfs_readbuf c pf (Some k) s = Fault.
Proof.
  intros Hno Hk. unfold leanfs_readbuf. rewrite bind_vol.
  pose proof (search_spec c (v_buffers (l_vol s)) 0) as Hs. destruct (search_for_buffer c (v_buffers (l_vol s)) 0) as [j|].
  { destruct Hs as (b & _ & Hb & V & E). rewrite Nat.sub_0_r in Hb. by destruct (Hno b (list_elem_of_lookup_2 _ _ _ Hb) V). }
  rewrite bind_mod_vol. apply bind_fault. unfold fill_buffer. apply bind_fault. unfold flush_buffer.
  apply bind_fault. unfold buffer. rewrite bind_vol. cbn [l_vol v_buffers]. by rewrite lookup_ge_None_2.
Qed.

(** The pointer that [leanfs_get_file_cluster] does not set is used when the first
    indirect cluster is in no buffer: when it is not null nor that of a buffer, the
    program writes through it. *)
Theorem leanfs_get_file_cluster_wild f x p i k s :
  l_files s !! f = Some x → l_pfiles s !! f_pf x = Some p → 16 ≤ i < clusters_count (pf_inode p) →
  (f_icluster_first x = 0 ∨ i < f_icluster_first x) →
  lw_pointer (l_world s) = Some k → (length (v_buffers (l_vol s)) ≤ k)%nat →
  (∀ b, b ∈ v_buffers (l_vol s) → valid b → b_cluster b ≠ iclusters_head (pf_inode p)) →
  leanfs_get_file_cluster f i s = Fault.
Proof.
  intros Hx Hp Hi Hf Hw Hk Hno.
  assert (Hfile : the_file f s = Done x s) by (unfold the_file; rewrite bind_gets, Hx; done).
  assert (Hpf : pfile (f_pf x) s = Done p s) by (unfold pfile; rewrite bind_gets, Hp; done).
  unfold leanfs_get_file_cluster. rewrite (bind_eq _ _ _ _ _ Hfile), (bind_eq _ _ _ _ _ Hpf).
  rewrite (proj2 (Z.eqb_neq _ _)), (proj2 (Z.leb_gt _ _)) by (unfold MAX_DIRECT_CLUSTER; lia).
  rewrite bind_gets, Hw. apply bind_fault. unfold leanfs_fetch_indirect.
  rewrite (proj2 (Z.ltb_lt _ _)) by (unfold MAX_DIRECT_CLUSTER; lia). change (assert true) with (mret () : LM ()). rewrite bind_ret.
  rewrite (bind_eq _ _ _ _ _ Hfile), (bind_eq _ _ _ _ _ Hpf).
  assert ((f_icluster_first x =? 0) || (i <? f_icluster_first x) = true) as -> by lia. apply bind_fault.
  unfold MAX_DIRECT_CLUSTER. destruct (Z.to_nat _) as [|n] eqn:En; [lia|]. cbn [fetch_loop].
  rewrite (bind_eq _ _ _ _ _ Hpf). rewrite (proj2 (Z.ltb_lt _ _)) by lia. by apply bind_fault, leanfs_readbuf_wild.
Qed.

(** * Open files *)

(** File [f] is open for reading on [data], at [pos]. *)
Record reads f ic (data : bytes) (pos : Z) x p s : Prop := {
  rd_cache : cache s;
  rd_layout : layout s p ic;
  rd_remembers : remembers s x ic;
  rd_file : l_files s !! f = Some x;
  rd_pfile : l_pfiles s !! f_pf x = Some p;
  rd_mode : f_magic x = LEANFS_FILE_MAGIC ∧ (access_mode x = O_RDONLY ∨ access_mode x = O_RDWR);
  rd_pos : f_file_pointer x = pos ∧ 0 ≤ pos < 2 ^ 31;
  rd_data : file_bytes s p ic = data }.
Definition reading f ic data pos s : Prop := ∃ x p, reads f ic data pos x p s.

(** The other files are left alone, and so are the clusters. *)
Record intact f s s' : Prop := {
  in_fixed : fixed (l_vol s') = fixed (l_vol s);
  in_files g : g ≠ f → l_files s' !! g = l_files s !! g;
  in_view c : 0 ≤ c < clusters (l_vol s) → lview s' c = lview s c }.
Lemma intact_refl f s : intact f s s.
Proof. done. Qed.
Lemma intact_trans f s1 s2 s3 : intact f s1 s2 → intact f s2 s3 → intact f s1 s3.
Proof.
  intros A B. destruct (fixed_fields _ _ (in_fixed _ _ _ A)) as (_ & E & _). destruct A, B. split; [congruence| |].
  - intros g Hg. rewrite in_files1, in_files0; done.
  - intros c Hc. rewrite in_view1; [by apply in_view0|]. unfold clusters. by rewrite E.
Qed.

(** Access times are not part of what a file is made of. *)
Lemma layout_acc_time s p ic t : let p' := p <| pf_inode ::= λ y, y <| acc_time := t |> |> in
  (layout s p ic → layout s p' ic) ∧ file_bytes s p' ic = file_bytes s p ic.
Proof. split; [|done]. intros [L1 L2 L3 L4 L5 L6 L7 L8 L9]. by split. Qed.

Lemma length_data f ic data pos x p s : reads f ic data pos x p s → Z.of_nat (length data) = file_size (pf_inode p).
Proof. intros R. rewrite <- (rd_data _ _ _ _ _ _ _ R). apply length_file_bytes; apply R. Qed.

Lemma layout_pfiles s p ic l : layout (s <| l_pfiles := l |>) p ic → layout s p ic.
Proof. intros [L1 L2 L3 L4 L5 L6 L7 L8 L9]. by split. Qed.

(** A state with the same volume on the same device. *)
Lemma cache_content v w w' : content w' = content w → (cache_ok v w → cache_ok v w') ∧ ∀ c, view v w' c = view v w c.
Proof.
  intros Hw. split; [|intros c; unfold view, on_device; by rewrite Hw]. intros [G B O]. split; [by rewrite Hw|done|done].
Qed.
Lemma reads_end f ic data pos x p s s' x' p' : reads f ic data pos x p s → l_vol s' = l_vol s → content (l_world s') = content (l_world s) →
  l_files s' !! f = Some x' → l_pfiles s' !! f_pf x' = Some p' → 0 ≤ f_file_pointer x' < 2 ^ 31 →
  (p' = p ∨ ∃ t, p' = p <| pf_inode ::= λ y, y <| acc_time := t |> |>) → x' = x <| f_file_pointer := f_file_pointer x' |> →
  reads f ic data (f_file_pointer x') x' p' s' ∧ ∀ c, lview s' c = lview s c.
Proof.
  intros R Hv Hw Hx Hp Hpos Hp' Ex. destruct (cache_content (l_vol s) (l_world s) (l_world s') Hw) as [Hc Hview].
  assert (Hl : ∀ c, lview s' c = lview s c) by (intros c; unfold lview; by rewrite Hv, Hview).
  assert (S : sees s (s' <| l_pfiles := l_pfiles s |>)).
  { split; [cbn; by rewrite Hv|cbn; by rewrite Hv|done| |intros c _; apply (Hl c)]. unfold cache. cbn. rewrite Hv. apply Hc, R. }
  pose proof (sees_layout _ _ _ _ (rd_cache _ _ _ _ _ _ _ R) (rd_layout _ _ _ _ _ _ _ R) S) as L%layout_pfiles.
  pose proof (sees_file_bytes _ _ _ _ (rd_cache _ _ _ _ _ _ _ R) (rd_layout _ _ _ _ _ _ _ R) S) as D.
  split; [|done]. split; [apply S| | |done|done| |done|].
  - destruct Hp' as [->|[t ->]]; [exact L|by apply layout_acc_time].
  - rewrite Ex. destruct (rd_remembers _ _ _ _ _ _ _ R) as [?|(j & H1 & H2)]; [by left|right; exists j]. unfold icount in *. by rewrite Hv.
  - rewrite Ex. apply R.
  - rewrite <- (rd_data _ _ _ _ _ _ _ R), <- D. by destruct Hp' as [->|[t ->]].
Qed.

Lemma wp_read f ic data pos n s : reading f ic data pos s → 0 ≤ n < 2 ^ 31 →
  let m := Z.max 0 (Z.min n (Z.of_nat (length data) - pos)) in
  wp (leanfs_read f n) (λ r s', r = (m, slice data pos m) ∧ reading f ic data (pos + m) s' ∧ intact f s s') s.
Proof.
  intros (x & p & R) Hn m. pose proof (length_data _ _ _ _ _ _ _ R) as Hlen. destruct R as [I L Hrem Hx Hp [Hmag Hmode] [<- Hpos] Hdata].
  apply wp_bind, (wp_the_file f x); [done|]. apply wp_bind, (wp_pfile _ p); [done|]. rewrite Hmag. cbn [Z.eqb negb LEANFS_FILE_MAGIC].
  rewrite (proj2 (Z.leb_le _ _)) by lia. apply wp_bind, wp_ret.
  assert (Hm : negb (access_mode x =? O_RDONLY) && negb (access_mode x =? O_RDWR) = false) by (by destruct Hmode as [-> | ->]).
  rewrite Hm. apply wp_bind, wp_vol. destruct (ly_size _ _ _ L) as [Hfs _]. pose proof (lean_cluster_bytes _ _ (c_geo _ _ I)) as Hcb.
  apply wp_bind, (wp_lean_read_loop _ f x p ic); [done|done|done|done|done|lia|lia|lia|done| |].
  { intros _ Hin. destruct (offset_at s (f_file_pointer x) I Hpos) as (_ & _ & A3 & _). unfold left_to_read, transfer_fuel.
    set (q := Z.min n (file_size (pf_inode p))). pose proof (Z.div_mod q (v_cluster_bytes (l_vol s))).
    pose proof (Z.mod_pos_bound q (v_cluster_bytes (l_vol s))). pose proof (Z.div_pos q (v_cluster_bytes (l_vol s))). unfold q in *. nia. }
  intros s1 x1 S1 Hf1 Hr1 Ex1. cbv zeta. unfold left_to_read. rewrite !Z.sub_0_r, <- Hlen. fold m. rewrite Z.add_0_l, Hdata. cbn [app].
  rewrite (proj2 (Z.ltb_ge _ _)) by lia.
  assert (Hx1 : l_files s1 !! f = Some x1) by (rewrite Hf1; apply list_lookup_insert_eq; by eapply lookup_lt_Some).
  assert (Hoff : 0 ≤ f_file_pointer x + m < 2 ^ 31) by (pose proof (ly_room _ _ _ L); pose proof (ly_size _ _ _ L); unfold sizeof_Inode, m in *; lia).
  assert (Hlen1 : (f < length (l_files s1))%nat) by (by eapply lookup_lt_Some).
  assert (R1 : reads f ic data (f_file_pointer x) x1 p s1).
  { split; try done; [apply S1|by eapply sees_layout|rewrite (se_pfiles _ _ S1); by rewrite Ex1|rewrite Ex1; by split|by rewrite Ex1|].
    rewrite <- Hdata. by eapply sees_file_bytes. }
  assert (Hend : ∀ s2 p', l_vol s2 = l_vol s1 → content (l_world s2) = content (l_world s1) → l_files s2 = l_files s1 →
    l_pfiles s2 !! f_pf x = Some p' → (p' = p ∨ ∃ t, p' = p <| pf_inode ::= λ y, y <| acc_time := t |> |>) →
    wp (mod_file f (λ y, y <| f_file_pointer := f_file_pointer x + m |>);; mret (s32 m, slice data (f_file_pointer x) m))
      (λ r s', r = (m, slice data (f_file_pointer x) m) ∧ reading f ic data (f_file_pointer x + m) s' ∧ intact f s s') s2).
  { intros s2 p' E1 E2 E3 E4 E5. apply wp_bind, (wp_mod_file f x1); [by rewrite E3|]. apply wp_ret.
    rewrite s32_small by lia. split; [done|]. set (s3 := s2 <| l_files ::= _ |>).
    set (x2 := x1 <| f_file_pointer := f_file_pointer x + m |>).
    destruct (reads_end f ic data _ x1 p s1 s3 x2 p' R1) as [R3 V3]; try done.
    { cbn. apply list_lookup_insert_eq. by rewrite E3. }
    { cbn. by rewrite Ex1. }
    split; [by exists x2, p'|]. split; [cbn; rewrite E1; apply S1| |].
    - intros g Hg. cbn. rewrite E3, list_lookup_insert_ne, Hf1, list_lookup_insert_ne by done. done.
    - intros c Hc. rewrite V3. by apply (se_view _ _ S1). }
  apply wp_bind. destruct (has (f_flags x) O_NOATIME); cbn [negb].
  - apply wp_ret. apply (Hend s1 p); try done; [by rewrite (se_pfiles _ _ S1)|by left].
  - destruct (lw_time (l_world s1)) as [t w'] eqn:Et. apply wp_bind, (wp_wcall _ t w'); [done|].
    apply (wp_mod_pfile _ p); [cbn; by rewrite (se_pfiles _ _ S1)|]. eapply Hend; try done.
    + cbn. pose proof (sf_time (l_world s1)) as Hc. by rewrite Et in Hc.
    + cbn. apply list_lookup_insert_eq. rewrite (se_pfiles _ _ S1). by eapply lookup_lt_Some.
    + right. by eexists.
Qed.

(** * Sequences of calls *)

Inductive access := Read (n : Z) | Seek (offset whence : Z).
Definition access_ok (o : access) : Prop :=
  match o with Read n => 0 ≤ n < 2 ^ 31 | Seek q _ => - 2 ^ 31 ≤ q < 2 ^ 31 end.
Definition run_access f (o : access) : LM (Z * bytes) :=
  match o with
  | Read n => leanfs_read f n
  | Seek q wh => r ← leanfs_lseek (Some f) q wh; mret (r, [])
  end.
Fixpoint run_accesses f (l : list access) : LM (list (Z * bytes)) :=
  match l with
  | [] => mret []
  | o :: l => r ← run_access f o; rs ← run_accesses f l; mret (r :: rs)
  end.

(** Bytes with a position, which may be beyond them. *)
Definition spec_access (data : bytes) (pos : Z) (o : access) : (Z * bytes) * Z :=
  let len := Z.of_nat (length data) in
  match o with
  | Read n => let m := Z.max 0 (Z.min n (len - pos)) in ((m, slice data pos m), pos + m)
  | Seek q wh =>
      let r := if wh =? SEEK_SET then q else if wh =? SEEK_CUR then s32 (q + pos)
               else if wh =? SEEK_END then s32 (q + len) else - EINVAL in
      ((r, []), if 0 <=? r then r else pos)
  end.
Fixpoint spec_accesses (data : bytes) (pos : Z) (l : list access) : list (Z * bytes) * Z :=
  match l with
  | [] => ([], pos)
  | o :: l => let '(r, pos) := spec_access data pos o in let '(rs, pos) := spec_accesses data pos l in (r :: rs, pos)
  end.

Lemma wp_lseek f ic data pos q wh s : reading f ic data pos s → - 2 ^ 31 ≤ q < 2 ^ 31 →
  wp (leanfs_lseek (Some f) q wh) (λ r s', ((r, []), if 0 <=? r then r else pos) = spec_access data pos (Seek q wh) ∧
    reading f ic data (if 0 <=? r then r else pos) s' ∧ intact f s s') s.
Proof.
  intros (x & p & R) Hq. pose proof (length_data _ _ _ _ _ _ _ R) as Hlen. destruct R as [I L Hrem Hx Hp Hmode [<- Hpos] Hdata] eqn:ER.
  apply wp_bind, (wp_the_file f x); [done|]. apply wp_bind, (wp_pfile _ p); [done|]. cbn [spec_access]. rewrite Hlen. cbv zeta.
  set (r := if wh =? SEEK_SET then q else _).
  assert (Hr : r < 2 ^ 31).
  { unfold r, s32. repeat case_match; try (pose proof (Z.mod_pos_bound (q + f_file_pointer x + 2 ^ 31) (2 ^ 32)));
      try (pose proof (Z.mod_pos_bound (q + file_size (pf_inode p) + 2 ^ 31) (2 ^ 32))); unfold EINVAL; lia. }
  apply wp_bind. destruct (Z.leb_spec 0 r).
  - apply (wp_mod_file f x); [done|]. apply wp_ret. split; [by rewrite (proj2 (Z.leb_le _ _)) by lia|].
    rewrite (proj2 (Z.leb_le _ _)) by lia. set (s' := s <| l_files ::= _ |>). set (x' := x <| f_file_pointer := r |>).
    destruct (reads_end f ic data _ x p s s' x' p R) as [R' V']; try done; [|by left|].
    { cbn. apply list_lookup_insert_eq. by eapply lookup_lt_Some. }
    split; [by exists x', p|]. split; [done| |done]. intros g Hg. cbn. by rewrite list_lookup_insert_ne.
  - apply wp_ret, wp_ret. rewrite (proj2 (Z.leb_gt _ _)) by lia. split; [done|]. split; [by exists x, p|done].
Qed.

(** C33: reading a file of a LEAN volume gives its contents: any sequence of reads and
    seeks on an open file answers as on the bytes of the clusters of the file, which
    [leanfs_get_file_cluster] finds directly or through the chain of indirect clusters
    from wherever it was left; no assertion fails, the loops end, and neither the
    clusters nor the other files change. A file with indirect clusters is so read only if
    the pointer that [leanfs_get_file_cluster] leaves unset happens to be null or a buffer
    of the volume ([ly_pointer] of [layout]); see [leanfs_get_file_cluster_wild] for when
    it is not. A file of direct clusters alone needs nothing of it. *)
Theorem leanfs_read_refine f ic data pos l s : reading f ic data pos s → Forall access_ok l →
  ∃ s', run_accesses f l s = Done (spec_accesses data pos l).1 s' ∧
        reading f ic data (spec_accesses data pos l).2 s' ∧ intact f s s'.
Proof.
  revert pos s. induction l as [|o l IH]; intros pos s R Hl; [by exists s|]. apply Forall_cons in Hl as [Ho Hl].
  assert (wp (run_access f o) (λ r s', r = (spec_access data pos o).1 ∧ reading f ic data (spec_access data pos o).2 s' ∧ intact f s s') s) as Hop.
  { destruct o as [n|q wh]; [apply wp_read; [done|exact Ho]|]. apply wp_bind. eapply wp_mono; [|apply wp_lseek; [done|exact Ho]]. intros r s' (E & R' & N).
    apply wp_ret. rewrite <- E. done. }
  destruct (wp_done _ _ _ Hop) as (r & s1 & Hr & Er & R1 & N1). cbn [run_accesses spec_accesses].
  destruct (spec_access data pos o) as [r' pos']. cbn in Er, R1. subst r'. destruct (IH pos' s1 R1 Hl) as (s2 & H2 & R2 & N2).
  destruct (spec_accesses data pos' l) as [rs pos2]. exists s2. rewrite (bind_eq _ _ _ _ _ Hr), (bind_eq _ _ _ _ _ H2).
  split_and!; [done|done|by eapply intact_trans].
Qed.
End leanread.
