(* ===== verification/LeanFind.v ===== *)
(** Looking up a name in a LEAN directory, proved: [leanfs_find] finds the first entry in
    use with the name. *)
From S2P Require Import Prelude Errno LeanTypes LeanBlock LeanAlloc LeanFile LeanDir LeanCache LeanRead.

(** * A directory as entries *)

Record entry := mkEntry { e_inode : Z; e_type : Z; e_name : bytes; e_pad : bytes }.
Definition e_len (e : entry) : Z := sizeof_DirEntryHeader + Z.of_nat (length (e_name e)) + Z.of_nat (length (e_pad e)).
Definition header_of (e : entry) : DirEntryHeader :=
  mkDirEntry (e_inode e) (e_len e) (Z.of_nat (length (e_name e))) (e_type e).
Definition encode_entry (e : entry) : bytes := encode_DirEntryHeader (header_of e) ++ e_name e ++ e_pad e.
Definition encode_dir (es : list entry) : bytes := concat (map encode_entry es).
Definition dir_len (es : list entry) : Z := Z.of_nat (length (encode_dir es)).

(** Entries fit in a [struct DirEntry]; an entry with inode 0 is free. *)
Record entry_ok (e : entry) : Prop := {
  eo_inode : 0 ≤ e_inode e < 2 ^ 32;
  eo_type : 0 ≤ e_type e < 256;
  eo_name : Z.of_nat (length (e_name e)) ≤ 255;
  eo_len : e_len e ≤ sizeof_DirEntry;
  eo_chars : e_inode e ≠ 0 → Forall (λ c, c ≠ 0) (e_name e) }.

(** The first entry in use with a name, and those before it. *)
Fixpoint lookup_name (name : bytes) (es : list entry) : option (list entry * entry) :=
  match es with
  | [] => None
  | e :: es =>
      if bool_decide (e_inode e ≠ 0 ∧ e_name e = name) then Some ([], e)
      else r ← lookup_name name es; Some (e :: fst r, snd r)
  end.

Lemma length_encode_entry e : Z.of_nat (length (encode_entry e)) = e_len e.
Proof. unfold encode_entry, e_len, sizeof_DirEntryHeader. rewrite !length_app. change (length (encode_DirEntryHeader _)) with 8%nat. lia. Qed.
Lemma dir_len_app es es' : dir_len (es ++ es') = dir_len es + dir_len es'.
Proof. unfold dir_len, encode_dir. rewrite map_app, concat_app, length_app. lia. Qed.
Lemma dir_len_cons e es : dir_len (e :: es) = e_len e + dir_len es.
Proof. unfold dir_len, encode_dir. cbn [map concat]. rewrite length_app, Nat2Z.inj_add, length_encode_entry. done. Qed.
Lemma e_len_pos e : 8 ≤ e_len e.
Proof. unfold e_len, sizeof_DirEntryHeader. lia. Qed.
Lemma dir_len_bound es : 8 * Z.of_nat (length es) ≤ dir_len es.
Proof. induction es as [|e es IH]; [done|]. rewrite dir_len_cons. pose proof (e_len_pos e). cbn [length]. lia. Qed.

Lemma slice_middle (a b c : bytes) n : n = Z.of_nat (length b) → slice (a ++ b ++ c) (Z.of_nat (length a)) n = b.
Proof. intros ->. unfold slice. rewrite !Nat2Z.id, drop_app_length, take_app_length. done. Qed.

Lemma decode_header e : entry_ok e → decode_DirEntryHeader (encode_DirEntryHeader (header_of e)) = header_of e.
Proof.
  intros [E1 E2 E3 E4 _]. pose proof (e_len_pos e). unfold sizeof_DirEntry, decode_DirEntryHeader, encode_DirEntryHeader, header_of in *.
  cbn [de_inode de_rec_len de_name_len de_type]. set (n := Z.of_nat (length (e_name e))) in *. f_equal.
  - change (le32_at (le32 (e_inode e) ++ _) 0) with (le32_at (le32 (e_inode e)) 0). rewrite le32_at_le32. by apply u32_small.
  - change (le16_at (le32 _ ++ le16 (e_len e) ++ _) 4) with (le16_at (le16 (e_len e)) 0). apply le16_at_le16. lia.
  - change (u8 n = n). apply u8_small. lia.
  - change (u8 (e_type e) = e_type e). apply u8_small. lia.
Qed.

(** The buffer after an entry has been read. *)
Definition after_read (de : bytes) (e : entry) : bytes :=
  poke (poke de 0 (encode_DirEntryHeader (header_of e))) sizeof_DirEntryHeader (e_name e ++ e_pad e).
Definition entry_read (de : bytes) (e : entry) : bytes :=
  poke (after_read de e) (sizeof_DirEntryHeader + Z.of_nat (length (e_name e))) [0].

Lemma until_null_app l l' : Forall (λ c, c ≠ 0) l → until_null (l ++ 0 :: l') = l.
Proof. induction 1 as [|c l Hc _ IH]; [done|]. cbn [app until_null]. rewrite (proj2 (Z.eqb_neq _ _)) by done. by rewrite IH. Qed.

Lemma length_after_read de e : entry_ok e → Z.of_nat (length de) = sizeof_DirEntry → Z.of_nat (length (after_read de e)) = sizeof_DirEntry.
Proof.
  intros [_ _ _ E _] Hd. unfold e_len, sizeof_DirEntryHeader, sizeof_DirEntry in *. unfold after_read, sizeof_DirEntryHeader.
  change (length (encode_DirEntryHeader _)) with 8%nat.
  rewrite !length_poke; rewrite ?length_poke; rewrite ?length_app; change (length (encode_DirEntryHeader _)) with 8%nat; lia.
Qed.

Lemma poke_app (a m t bs : bytes) i : Z.of_nat (length a) = i → length m = length bs → poke (a ++ m ++ t) i bs = a ++ bs ++ t.
Proof.
  intros <- Hm. unfold poke. rewrite Nat2Z.id, take_app_length, <- Hm, drop_app_add'; [|done].
  by rewrite drop_app_length.
Qed.

Lemma entry_read_eq de e : entry_ok e → Z.of_nat (length de) = sizeof_DirEntry →
  ∃ tail, entry_read de e = encode_DirEntryHeader (header_of e) ++ e_name e ++ 0 :: tail.
Proof.
  intros [_ _ E3 E4 _] Hd. unfold e_len, sizeof_DirEntry, sizeof_DirEntryHeader in *. set (h := encode_DirEntryHeader (header_of e)).
  assert (Hh : length h = 8%nat) by done. set (l := e_name e ++ e_pad e).
  assert (E1 : after_read de e = h ++ l ++ drop (length l) (drop 8 de)).
  { unfold after_read, sizeof_DirEntryHeader. fold h l. rewrite <- (take_drop 8 de) at 1.
    assert (P0 := poke_app [] (take 8 de) (drop 8 de) h 0 eq_refl ltac:(rewrite length_take; lia)). cbn [app] in P0. rewrite P0.
    rewrite <- (take_drop (length l) (drop 8 de)) at 1. rewrite poke_app; [done|lia|].
    rewrite length_take, length_drop. unfold l. rewrite length_app. lia. }
  assert (Hr : length (drop (length l) (drop 8 de)) = (256 - length l)%nat) by (rewrite !length_drop; lia).
  unfold entry_read, sizeof_DirEntryHeader. rewrite E1. unfold l at 1. rewrite <- app_assoc, app_assoc. set (r := drop (length l) _) in *.
  destruct (e_pad e ++ r) as [|c t] eqn:Er.
  { apply (f_equal length) in Er. rewrite length_app, Hr in Er. unfold l in Er. rewrite length_app in Er. cbn in Er. lia. }
  exists t. change (c :: t) with ([c] ++ t). rewrite poke_app; [by rewrite <- app_assoc|rewrite length_app; lia|done].
Qed.
Lemma entry_read_decode de e : entry_ok e → Z.of_nat (length de) = sizeof_DirEntry →
  decode_DirEntryHeader (entry_read de e) = header_of e.
Proof. intros He Hd. destruct (entry_read_eq de e He Hd) as [tail ->]. etransitivity; [|by apply decode_header]. done. Qed.
Lemma entry_read_name de e : entry_ok e → Z.of_nat (length de) = sizeof_DirEntry → e_inode e ≠ 0 → entry_name (entry_read de e) = e_name e.
Proof.
  intros He Hd Hi. destruct (entry_read_eq de e He Hd) as [tail ->]. unfold entry_name. change (drop 8 (_ ++ ?l)) with l.
  apply until_null_app. by apply He.
Qed.
Lemma length_entry_read de e : entry_ok e → Z.of_nat (length de) = sizeof_DirEntry → Z.of_nat (length (entry_read de e)) = sizeof_DirEntry.
Proof.
  intros He Hd. pose proof (length_after_read de e He Hd). destruct He as [_ _ E3 _ _]. unfold entry_read.
  rewrite length_poke; [done|unfold sizeof_DirEntryHeader; lia|cbn; unfold sizeof_DirEntryHeader, sizeof_DirEntry in *; lia].
Qed.

Section leanfind.
Context {W : Type} `{LW : LeanWorld W} `{SF : !SolidFile W}.
Notation LM := (M (lean W)).
Implicit Types (s : lean W) (es : list entry).

Lemma wp_read_middle f ic (a b c : bytes) s (Q : Z * bytes → lean W → Prop) :
  reading f ic (a ++ b ++ c) (Z.of_nat (length a)) s → Z.of_nat (length b) < 2 ^ 31 →
  (∀ s', reading f ic (a ++ b ++ c) (Z.of_nat (length a) + Z.of_nat (length b)) s' → intact f s s' → Q (Z.of_nat (length b), b) s') →
  wp (leanfs_read f (Z.of_nat (length b))) Q s.
Proof.
  intros R Hb HQ. eapply wp_mono; [|apply (wp_read f ic _ _ _ _ R)]; [|lia]. intros r s' (-> & R' & N).
  rewrite !length_app in *. rewrite Z.max_r, Z.min_l in * by lia. rewrite slice_middle by done. by apply HQ.
Qed.

(** The end of a directory. *)
Lemma wp_read_end f ic (data : bytes) n s (Q : Z * bytes → lean W → Prop) : reading f ic data (Z.of_nat (length data)) s →
  0 ≤ n < 2 ^ 31 → (∀ s', reading f ic data (Z.of_nat (length data)) s' → intact f s s' → Q (0, []) s') → wp (leanfs_read f n) Q s.
Proof.
  intros R Hn HQ. eapply wp_mono; [|apply (wp_read f ic _ _ _ _ R Hn)]. intros r s' (-> & R' & N).
  replace (Z.max 0 _) with 0 in * by lia. rewrite Z.add_0_r in R'. by apply HQ.
Qed.

(** The first entry in use from a position on. *)
Fixpoint next_in_use es : option (list entry * entry * list entry) :=
  match es with
  | [] => None
  | e :: es => if e_inode e =? 0 then '(a, x, b) ← next_in_use es; Some (e :: a, x, b) else Some ([], e, es)
  end.

Lemma wp_readdir_loop n f ic es1 es2 de s (Q : Z * bytes → lean W → Prop) : Forall entry_ok es2 → (length es2 < n)%nat →
  Z.of_nat (length de) = sizeof_DirEntry → reading f ic (encode_dir (es1 ++ es2)) (dir_len es1) s →
  (∀ s' de', Z.of_nat (length de') = sizeof_DirEntry → intact f s s' →
     match next_in_use es2 with
     | None => reading f ic (encode_dir (es1 ++ es2)) (dir_len (es1 ++ es2)) s' → Q (- ENOENT, de') s'
     | Some (a, e, _) => reading f ic (encode_dir (es1 ++ es2)) (dir_len (es1 ++ a ++ [e])) s' →
         decode_DirEntryHeader de' = header_of e → entry_name de' = e_name e → Q (0, de') s'
     end) → wp (readdir_loop n f de) Q s.
Proof.
  revert es1 es2 de s. induction n as [|n IH]; intros es1 es2 de s Hok Hn Hde R HQ; [lia|]. cbn [readdir_loop].
  destruct es2 as [|e es2].
  - rewrite app_nil_r in *. apply wp_bind, (wp_read_end f ic (encode_dir es1)); [done|done|]. intros s' R' N. cbn [Z.ltb Z.compare Z.eqb].
    apply wp_ret. by apply (HQ s' de).
  - apply Forall_cons in Hok as [He Hok]. pose proof (eo_len _ He) as Hlen. pose proof (e_len_pos e) as Hpos.
    set (h := encode_DirEntryHeader (header_of e)). set (l := e_name e ++ e_pad e).
    assert (Hl : Z.of_nat (length l) = e_len e - 8) by (unfold l, e_len, sizeof_DirEntryHeader; rewrite length_app; lia).
    assert (Hdata : encode_dir (es1 ++ e :: es2) = encode_dir es1 ++ h ++ l ++ encode_dir es2).
    { unfold encode_dir. rewrite map_app, concat_app. cbn [map concat]. unfold encode_entry. fold h l. by rewrite <- !app_assoc. }
    rewrite Hdata in R. apply wp_bind. apply (wp_read_middle f ic (encode_dir es1) h (l ++ encode_dir es2)); [done|done|].
    intros s1 R1 N1. assert (Hdec : decode_DirEntryHeader h = header_of e) by (by apply decode_header). rewrite Hdec.
    change (Z.of_nat (length h)) with 8 at 1 2 3. unfold sizeof_DirEntryHeader, sizeof_DirEntry in *.
    cbn [Z.ltb Z.compare Z.eqb negb Pos.eqb de_rec_len de_inode de_name_len header_of].
    rewrite u32_small by lia. rewrite <- Hl. apply wp_bind. rewrite app_assoc in R1.
    replace (Z.of_nat (length (encode_dir es1)) + Z.of_nat (length h)) with (Z.of_nat (length (encode_dir es1 ++ h))) in R1 by (rewrite length_app; lia).
    apply (wp_read_middle f ic (encode_dir es1 ++ h) l (encode_dir es2)); [done|lia|]. intros s2 R2 N2.
    rewrite (proj2 (Z.ltb_ge _ _)) by lia. rewrite (proj2 (Z.ltb_ge _ _)) by lia. rewrite u32_small, Z.eqb_refl by lia. cbn [negb].
    rewrite <- app_assoc, <- Hdata in R2. change (poke (poke de 0 h) 8 l) with (after_read de e).
    replace (Z.of_nat (length (encode_dir es1 ++ h)) + Z.of_nat (length l)) with (dir_len (es1 ++ [e])) in R2.
    2:{ rewrite dir_len_app, dir_len_cons, length_app. change (length h) with 8%nat. unfold dir_len. cbn. lia. }
    pose proof (intact_trans _ _ _ _ N1 N2) as N12. pose proof (length_after_read de e He Hde) as Hde'.
    cbn [next_in_use] in HQ. destruct (e_inode e =? 0) eqn:Ei.
    + replace (es1 ++ e :: es2) with ((es1 ++ [e]) ++ es2) in * by (by rewrite <- app_assoc).
      apply (IH (es1 ++ [e]) es2); [done|cbn in Hn; lia|done|done|]. intros s' de' Hd' N'.
      specialize (HQ s' de' Hd' (intact_trans _ _ _ _ N12 N')). destruct (next_in_use es2) as [[[a x] b]|]; cbn in HQ; [|done].
      replace (es1 ++ e :: a ++ [x]) with ((es1 ++ [e]) ++ a ++ [x]) in HQ by (by rewrite <- app_assoc). done.
    + apply wp_ret. apply Z.eqb_neq in Ei. change (poke (after_read de e) _ [0]) with (entry_read de e).
      apply HQ; [by apply length_entry_read|done|done|by apply entry_read_decode|by apply entry_read_name].
Qed.

Lemma next_in_use_lookup name es : match next_in_use es with
  | None => lookup_name name es = None
  | Some (a, e, b) => es = a ++ e :: b ∧ e_inode e ≠ 0 ∧
      lookup_name name es = if decide (e_name e = name) then Some (a, e)
                            else r ← lookup_name name b; Some (a ++ e :: fst r, snd r)
  end.
Proof.
  induction es as [|e es IH]; [done|]. cbn [next_in_use lookup_name]. destruct (Z.eqb_spec (e_inode e) 0) as [E|E].
  - rewrite bool_decide_false by naive_solver. destruct (next_in_use es) as [[[a x] b]|]; cbn in *; [|by rewrite IH].
    destruct IH as (-> & Hx & ->). split_and!; [done|done|]. case_decide; [done|]. by destruct (lookup_name name b).
  - split_and!; [done|done|]. case_decide; [by rewrite bool_decide_true|by rewrite bool_decide_false by naive_solver].
Qed.

Lemma wp_do_readdir f ic es1 es2 de s (Q : Z * bytes → lean W → Prop) : Forall entry_ok es2 →
  Z.of_nat (length de) = sizeof_DirEntry → reading f ic (encode_dir (es1 ++ es2)) (dir_len es1) s →
  (∀ s' de', Z.of_nat (length de') = sizeof_DirEntry → intact f s s' →
     match next_in_use es2 with
     | None => reading f ic (encode_dir (es1 ++ es2)) (dir_len (es1 ++ es2)) s' → Q (- ENOENT, de') s'
     | Some (a, e, _) => reading f ic (encode_dir (es1 ++ es2)) (dir_len (es1 ++ a ++ [e])) s' →
         decode_DirEntryHeader de' = header_of e → entry_name de' = e_name e → Q (0, de') s'
     end) → wp (do_readdir f de) Q s.
Proof.
  intros Hok Hde (x & p & R) HQ. apply wp_bind, (wp_the_file f x); [apply R|]. apply wp_bind, (wp_pfile _ p); [apply R|].
  apply (wp_readdir_loop _ f ic es1 es2); [done| |done|by exists x, p|done].
  rewrite <- (length_data _ _ _ _ _ _ _ R). fold (dir_len (es1 ++ es2)). rewrite dir_len_app.
  pose proof (dir_len_bound es1). pose proof (dir_len_bound es2). lia.
Qed.

Lemma wp_find_loop n f ic es1 es2 name de s (Q : Z * bytes → lean W → Prop) : Forall entry_ok es2 → (length es2 < n)%nat →
  Z.of_nat (length de) = sizeof_DirEntry → reading f ic (encode_dir (es1 ++ es2)) (dir_len es1) s →
  (∀ s' de', intact f s s' →
     match lookup_name name es2 with
     | None => reading f ic (encode_dir (es1 ++ es2)) (dir_len (es1 ++ es2)) s' → Q (- ENOENT, de') s'
     | Some (a, e) => reading f ic (encode_dir (es1 ++ es2)) (dir_len (es1 ++ a ++ [e])) s' →
         decode_DirEntryHeader de' = header_of e → entry_name de' = name → Q (0, de') s'
     end) → wp (find_loop n f name de) Q s.
Proof.
  revert es1 es2 de s. induction n as [|n IH]; intros es1 es2 de s Hok Hn Hde R HQ; [lia|]. cbn [find_loop].
  apply wp_bind, (wp_do_readdir f ic es1 es2); [done|done|done|]. intros s1 de1 Hde1 N1. pose proof (next_in_use_lookup name es2) as Hnl.
  destruct (next_in_use es2) as [[[a e] b]|].
  - destruct Hnl as (-> & He & Hl). intros R1 Hdec Hname. cbn [Z.eqb negb]. rewrite Hname.
    assert (Hcat : es1 ++ a ++ e :: b = (es1 ++ a ++ [e]) ++ b) by (by rewrite <- !app_assoc).
    rewrite Hl in HQ. destruct (decide (e_name e = name)) as [E|E].
    + rewrite bool_decide_true by done. apply wp_ret. apply HQ; [done|done|done|by rewrite Hname].
    + rewrite bool_decide_false by congruence. rewrite Hcat in R1.
      apply (IH (es1 ++ a ++ [e]) b); [by apply Forall_app in Hok as [_ [_ ?]%Forall_cons]|rewrite length_app in Hn; cbn in Hn; lia|done|done|].
      intros s2 de2 N2. specialize (HQ s2 de2 (intact_trans _ _ _ _ N1 N2)).
      destruct (lookup_name name b) as [[a' x]|]; cbn in HQ; rewrite Hcat in HQ; [|done].
      replace ((es1 ++ a ++ [e]) ++ a' ++ [x]) with (es1 ++ (a ++ e :: a') ++ [x]) by (by rewrite <- !app_assoc). done.
  - intros R1. cbn. apply wp_ret. specialize (HQ s1 de1 N1). rewrite Hnl in HQ. by apply HQ.
Qed.

(** C34: looking a name up in a directory finds the first entry in use that has it,
    whatever free entries are between, and the directory is left behind that entry, whose
    inode and type the buffer gives; -ENOENT is answered exactly when no entry in use has
    the name. Nothing of the volume changes. Where the directory has indirect clusters,
    the pointer that [leanfs_get_file_cluster] leaves unset is supposed to be harmless
    ([ly_pointer] of [layout]). *)
Theorem leanfs_find_lookup f ic es pos name de x p s : reads f ic (encode_dir es) pos x p s →
  is_directory (attributes (pf_inode p)) = true → Forall entry_ok es → Z.of_nat (length de) = sizeof_DirEntry →
  ∃ r de' s', leanfs_find f name de s = Done (r, de') s' ∧ intact f s s' ∧
    match lookup_name name es with
    | Some (a, e) => r = 0 ∧ decode_DirEntryHeader de' = header_of e ∧ entry_name de' = name ∧
                     reading f ic (encode_dir es) (dir_len (a ++ [e])) s'
    | None => r = - ENOENT ∧ reading f ic (encode_dir es) (dir_len es) s'
    end.
Proof.
  intros R Hdir Hok Hde.
  assert (Hwp : wp (leanfs_find f name de) (λ r s', intact f s s' ∧ match lookup_name name es with
    | Some (a, e) => r.1 = 0 ∧ decode_DirEntryHeader r.2 = header_of e ∧ entry_name r.2 = name ∧ reading f ic (encode_dir es) (dir_len (a ++ [e])) s'
    | None => r.1 = - ENOENT ∧ reading f ic (encode_dir es) (dir_len es) s' end) s).
  { apply wp_bind, (wp_the_file f x); [apply R|]. apply wp_bind, (wp_pfile _ p); [apply R|]. rewrite Hdir. cbn [negb].
    apply wp_bind, (wp_mod_file f x); [apply R|]. set (s1 := s <| l_files ::= _ |>). set (x1 := x <| f_file_pointer := 0 |>).
    destruct (reads_end f ic (encode_dir es) pos x p s s1 x1 p R) as [R1 V1]; try done; [|apply R|by left|].
    { cbn. apply list_lookup_insert_eq. eapply lookup_lt_Some, R. }
    apply (wp_find_loop _ f ic [] es); [done| |done|by exists x1, p|].
    - rewrite <- (length_data _ _ _ _ _ _ _ R). pose proof (dir_len_bound es). unfold dir_len in *. lia.
    - intros s' de' N. assert (N' : intact f s s').
      { eapply intact_trans; [|exact N]. split; [done| |intros c _; apply V1]. intros g Hg. cbn. by rewrite list_lookup_insert_ne. }
      destruct (lookup_name name es) as [[a e]|]; cbn; auto. }
  destruct (wp_done _ _ _ Hwp) as ([r de'] & s' & Hr & N & H). by exists r, de', s'.
Qed.
End leanfind.
