(* ===== verification/LeanExample.v ===== *)
(** A LEAN volume in memory: making, mounting and using it. *)
From stdpp Require Import gmap.
From S2P Require Import Prelude Errno LeanTypes LeanBlock LeanAlloc LeanFile LeanDir LeanMkfs LeanCache LeanBitmap LeanRead LeanFind.

(** A file of a fixed size and a clock. *)
Record ram := mkRam { r_data : bytes; r_clock : Z }.
#[export] Instance ram_eta : Eta ram := λ r, mkRam (r_data r) (r_clock r).

(** The pointer that is not set is [b]. *)
Definition ram_at (b : option nat) : LeanWorld ram := {|
  lw_fopen w := (true, w);
  lw_fread pos size n w :=
    if in_block (r_data w) pos (size * n) then ((n, slice (r_data w) pos (size * n)), w) else ((0, []), w);
  lw_fwrite pos bs size n w :=
    if in_block (r_data w) pos (size * n) then (n, w <| r_data ::= λ l, poke l pos (take (Z.to_nat (size * n)) bs) |>)
    else (0, w);
  lw_malloc n w := (true, w);
  lw_time w := (r_clock w, w <| r_clock ::= λ t, t + 1 |>);
  lw_stale w := replicate 264 0xCC;
  lw_pointer w := b |}.
(** It is the address of a buffer. *)
#[export] Instance ram_world : LeanWorld ram := ram_at (Some 3%nat).

(** 40 clusters of 1024 bytes. *)
Definition blank : ram := mkRam (zeroes (40 * 1024)) 1000.
Definition no_volume : Volume := mkVolume 0 [] 0 0 0 0 0 0 0 [].
Definition new_volume : outcome ram (Z * option Volume) := (mkleanfs 40 9 1;; leanfs_mount) blank.
Definition mounted : lean ram :=
  match new_volume with
  | Done (_, Some v) w => mkLean w v [] []
  | _ => mkLean blank no_volume [] []
  end.
Definition run {A} (m : M (lean ram) A) : option A := match m mounted with Done a _ => Some a | _ => None end.
(** The root directory, open for writing. *)
Definition open_root : M (lean ram) nat :=
  root ← sb sb_root_start_cluster;
  r ← take_pfile root; pf ← deref (snd r);
  f ← take_file pf (Z.lor O_RDWR O_DIRECTORY); deref f.

(** Such a file does not fail. *)
#[export] Program Instance ram_solid : SolidFile ram := {| content := r_data |}.
Next Obligation. intros pos size n w H1 H2 H3. exists w. cbn. by rewrite in_block_true by lia. Qed.
Next Obligation.
  intros pos bs size n w H1 H2 H3. cbn. rewrite in_block_true by lia. eexists. split; [done|]. cbn.
  by rewrite <- H2, Nat2Z.id, firstn_all.
Qed.
Next Obligation. done. Qed.
Next Obligation. done. Qed.

(** * The new volume has its first clusters used *)

Definition new_used : gset Z := {[0; 1; 2; 3]}.

Lemma mounted_cache : cache mounted.
Proof.
  split.
  - split; vm_compute; intuition congruence || lia.
  - intros k b Hk. assert (Hall : Forall (λ b, b = mkBuffer 0 None 0 0 0 (zeroes 1024)) (v_buffers (l_vol mounted)))
      by (vm_compute; repeat constructor).
    eapply Forall_lookup in Hall; [|exact Hk]. cbv beta in Hall. subst b. split; [by vm_compute|by left|done].
  - intros k1 k2 b1 b2 H1 _ V _ _. exfalso.
    assert (Hall : Forall (λ b, b_flags b = 0) (v_buffers (l_vol mounted))) by (vm_compute; repeat constructor).
    eapply Forall_lookup in Hall; [|exact H1]. cbv beta in Hall. unfold valid in V. by rewrite Hall in V.
Qed.

Lemma below_forall (P : Z → bool) n : forallb P (seqZ 0 n) = true → ∀ c, 0 ≤ c < n → P c = true.
Proof. intros H c Hc. eapply forallb_forall in H; [exact H|]. apply list_elem_of_In, elem_of_seqZ. lia. Qed.

Lemma mounted_count : count_of mounted = 40.
Proof. vm_compute. reflexivity. Qed.
Lemma elem_of_new_used c : c ∈ new_used → 0 ≤ c < 4.
Proof. unfold new_used. rewrite !elem_of_union, !elem_of_singleton. lia. Qed.

Lemma mounted_represents : represents mounted new_used.
Proof.
  split.
  - apply mounted_cache.
  - by vm_compute.
  - intros c Hc. assert (map_of mounted c = 1) as ->.
    { apply Z.eqb_eq. revert c Hc. apply (below_forall (λ c, map_of mounted c =? 1)). vm_compute. reflexivity. }
    split; [by vm_compute|].
    apply (bool_decide_unpack _). by vm_compute.
  - intros c Hc. apply eqb_prop. revert c Hc. apply below_forall. vm_compute. reflexivity.
  - intros c Hc. rewrite mounted_count. apply elem_of_new_used in Hc. lia.
  - by vm_compute.
Qed.

(** Three clusters are taken, the second is freed and found again. *)
Lemma bitmap_refine_witness :
  ∃ s', run_bitmap_ops [TakeFree; TakeFree; TakeFree; SetBit 5 false; FindFree; TakeFree; TakeFree] mounted =
    Done [(0, 4); (0, 5); (0, 6); (0, 0); (0, 5); (0, 5); (0, 7)] s'
    ∧ represents s' (mark 7 true (mark 5 true (mark 5 false (mark 6 true (mark 5 true (mark 4 true new_used))))))
    ∧ kept mounted s'.
Proof.
  apply (bitmap_refine [TakeFree; TakeFree; TakeFree; SetBit 5 false; FindFree; TakeFree; TakeFree] new_used mounted).
  - exact mounted_represents.
  - repeat constructor; vm_compute; congruence.
Defined.

(** * A file with two indirect clusters

    200 clusters of 512 bytes, each filled with its number; a file of 150 clusters from
    cluster 10 on, whose indirect clusters are 26 and 27. *)

Definition words (l : list Z) : bytes := concat (map le32 l).
Definition long_cluster (c : Z) : bytes :=
  if c =? 26 then words (seqZ 28 127 ++ [27])
  else if c =? 27 then words (seqZ 155 127 ++ [0])
  else replicate 512 (c mod 256).
Definition long_disk : ram := mkRam (concat (map long_cluster (seqZ 0 200))) 1000.
Definition long_volume : Volume :=
  mkVolume 512 (poke (zeroes 512) 80 (le32 200)) 512 9 1 127 0 0 0 (replicate 8 (mkBuffer 0 None 0 0 0 (zeroes 512))).
Definition long_inode : Inode :=
  mkInode 76000 150 0 0 0 (seqZ 11 15) 26 0 0 0 1 (zeroes 24).
Definition long_file : lean ram :=
  mkLean long_disk long_volume [mkPFile long_inode 10 1] [mkFile 0 O_RDONLY 1 LEANFS_FILE_MAGIC 0 0 0].
Definition long_chain : list Z := [26; 27].

Lemma long_cache : cache long_file.
Proof.
  split.
  - split; vm_compute; intuition congruence || lia.
  - intros k b Hk. apply lookup_replicate in Hk as [-> _]. split; [by vm_compute|by left|done].
  - intros k1 k2 b1 b2 H1 _ V _ _. apply lookup_replicate in H1 as [-> _]. by vm_compute in V.
Qed.

Lemma long_layout : layout long_file (mkPFile long_inode 10 1) long_chain.
Proof.
  split.
  - by vm_compute.
  - by vm_compute.
  - done.
  - done.
  - by vm_compute.
  - intros [|[|[|j]]] c c'; cbn; intros [= <-] [= <-]. vm_compute. reflexivity.
  - intros [|[|[|j]]] c; cbn; intros [= <-]; by vm_compute.
  - intros i Hi. cut ((0 <=? cluster_at long_file (mkPFile long_inode 10 1) long_chain i)
      && (cluster_at long_file (mkPFile long_inode 10 1) long_chain i <? 200) = true).
    { intros [H1%Z.leb_le H2%Z.ltb_lt]%andb_true_iff. by split. }
    revert i Hi. apply (below_forall (λ i, (0 <=? cluster_at long_file (mkPFile long_inode 10 1) long_chain i)
      && (cluster_at long_file (mkPFile long_inode 10 1) long_chain i <? 200))). vm_compute. reflexivity.
  - intros _ w k [= <-]. cbn. lia.
Qed.

Definition long_data : bytes := file_bytes long_file (mkPFile long_inode 10 1) long_chain.
Lemma long_reading : reading 0 long_chain long_data 0 long_file.
Proof.
  exists (mkFile 0 O_RDONLY 1 LEANFS_FILE_MAGIC 0 0 0), (mkPFile long_inode 10 1).
  split; [exact long_cache|exact long_layout|by left|done|done|by split; [|left]|done|done].
Qed.

(** Across the last direct and the first indirect cluster, then in the second indirect
    cluster, back, and at the end. *)
Definition long_accesses : list access :=
  [LeanRead.Seek 8060 SEEK_SET; LeanRead.Read 8; LeanRead.Seek 4 SEEK_CUR; LeanRead.Read 2;
   LeanRead.Seek (-2) SEEK_END; LeanRead.Read 10; LeanRead.Seek (-1) SEEK_SET].
Lemma leanfs_read_refine_witness :
  (∃ s', run_accesses 0 long_accesses long_file = Done (spec_accesses long_data 0 long_accesses).1 s' ∧
         reading 0 long_chain long_data (spec_accesses long_data 0 long_accesses).2 s' ∧ intact 0 long_file s')
  ∧ spec_accesses long_data 0 long_accesses =
    ([(8060, []); (8, [25; 25; 25; 25; 28; 28; 28; 28]); (8072, []); (2, [28; 28]);
      (75998, []); (2, [160; 160]); (-1, [])], 76000).
Proof.
  split.
  - apply (leanfs_read_refine 0 long_chain long_data 0 long_accesses long_file).
    + exact long_reading.
    + repeat constructor; vm_compute; congruence.
  - vm_compute. reflexivity.
Defined.

(** When the pointer is not that of a buffer, the first read of an indirect cluster uses it. *)
Lemma leanfs_get_file_cluster_wild_example : leanfs_get_file_cluster (H := ram_at (Some 99%nat)) 0 16 long_file = Fault.
Proof.
  apply (leanfs_get_file_cluster_wild (LW := ram_at (Some 99%nat)) 0 (mkFile 0 O_RDONLY 1 LEANFS_FILE_MAGIC 0 0 0) (mkPFile long_inode 10 1) 16 99 long_file);
    [done|done|by vm_compute|by left|done|cbn; lia|]. intros b [-> _]%elem_of_replicate. by vm_compute.
Qed.

(** * A directory with free entries *)

Definition small_entries : list entry :=
  [mkEntry 0 0 [97] [0; 0; 0]; mkEntry 5 0 [97] [0; 0; 0]; mkEntry 0 0 [] []; mkEntry 7 1 [98; 99] [0; 0]; mkEntry 9 0 [97] [0; 0; 0]].
Definition small_disk : ram :=
  mkRam (poke (zeroes (20 * 512)) (3 * 512 + 128) (encode_dir small_entries)) 1000.
Definition small_volume : Volume :=
  mkVolume 512 (poke (zeroes 512) 80 (le32 20)) 512 9 1 127 0 0 0 (replicate 8 (mkBuffer 0 None 0 0 0 (zeroes 512))).
Definition small_pfile : PFile :=
  mkPFile (mkInode (dir_len small_entries) 1 0 0 0 (replicate 15 0) 0 LEANFS_IFDIR 0 0 1 (zeroes 24)) 3 1.
Definition small_dir : lean ram :=
  mkLean small_disk small_volume [small_pfile] [mkFile 0 O_RDONLY 1 LEANFS_FILE_MAGIC 30 0 0].

Lemma small_reads : reads 0 [] (encode_dir small_entries) 30 (mkFile 0 O_RDONLY 1 LEANFS_FILE_MAGIC 30 0 0) small_pfile small_dir.
Proof.
  split; [| |by left|done|done|by split; [|left]|done|vm_compute; reflexivity].
  - split.
    + split; vm_compute; intuition congruence || lia.
    + intros k b Hk. apply lookup_replicate in Hk as [-> _]. split; [by vm_compute|by left|done].
    + intros k1 k2 b1 b2 H1 _ V _ _. apply lookup_replicate in H1 as [-> _]. by vm_compute in V.
  - split; try (by vm_compute).
    intros i Hi. assert (i = 0) as -> by (cbn in Hi; lia). by vm_compute.
Qed.

Lemma leanfs_find_lookup_witness :
  ∃ r de' s', leanfs_find 0 [98; 99] (zeroes 264) small_dir = Done (r, de') s' ∧ intact 0 small_dir s' ∧
    match lookup_name [98; 99] small_entries with
    | Some (a, e) => r = 0 ∧ decode_DirEntryHeader de' = header_of e ∧ entry_name de' = [98; 99] ∧
                     reading 0 [] (encode_dir small_entries) (dir_len (a ++ [e])) s'
    | None => r = - ENOENT ∧ reading 0 [] (encode_dir small_entries) (dir_len small_entries) s'
    end.
Proof.
  apply (leanfs_find_lookup 0 [] small_entries 30 [98; 99] (zeroes 264) _ _ small_dir small_reads).
  - reflexivity.
  - repeat constructor; vm_compute; congruence.
  - reflexivity.
Defined.

(** Linking a name of 8 characters where two free entries of 12 bytes precede one in use:
    the new entry is put at the second of them and covers the one in use, which is
    lost. *)
Definition crowded_entries : list entry := [mkEntry 0 0 [] [0; 0; 0; 0]; mkEntry 0 0 [] [0; 0; 0; 0]; mkEntry 5 0 [97] [0; 0; 0]].
Definition crowded_dir : lean ram :=
  mkLean (mkRam (poke (zeroes (20 * 512)) (3 * 512 + 128) (encode_dir crowded_entries)) 1000) small_volume
    [small_pfile <| pf_inode ::= λ y, y <| file_size := dir_len crowded_entries |> |>] [mkFile 0 O_RDWR 1 LEANFS_FILE_MAGIC 0 0 0].
Lemma leanfs_do_link_overwrites :
  match leanfs_do_link 0 9 0 [98; 98; 98; 98; 98; 98; 98; 98] crowded_dir with
  | Done r s' => r = 0 ∧ match leanfs_find 0 [97] (zeroes 264) crowded_dir, leanfs_find 0 [97] (zeroes 264) s' with
                         | Done (a, _) _, Done (b, _) _ => a = 0 ∧ b = - ENOENT
                         | _, _ => False
                         end
  | _ => False
  end.
Proof. vm_compute. done. Qed.

(** [leanfs_rmdir] takes the address [memcpy] gives for a difference of the names. *)
Lemma leanfs_rmdir_fails {W} `{LeanWorld W} parent name (s s' : lean W) r :
  leanfs_rmdir parent name s = Done r s' → r < 0.
Proof.
  unfold leanfs_rmdir. intros (_ & s1 & _ & H1)%bind_done. apply bind_done in H1 as (o & s2 & _ & H2).
  destruct (Z.ltb_spec (fst o) 0); [by injection H2 as <- <-|]. apply bind_done in H2 as (f & s3 & _ & H3).
  apply bind_done in H3 as (w & s4 & _ & H4). apply bind_done in H4 as (d & s5 & _ & H5).
  destruct (Z.ltb_spec (fst d) 0); [by injection H5 as <- <-|]. cbn in H5. rewrite orb_true_r in H5. by injection H5 as <- <-.
Qed.
