(* ===== verification/IsoTypes.v ===== *)
(** The ISO 9660 driver: its structures ([src/fd32/modules/iso9660/iso9660.h],
    [ondisk.h]), the state of a mounted volume and the accesses to it. The block device
    and the kernel memory are those of the FAT driver ([FatWorld]). *)
From stdpp Require Import gmap.
From S2P Require Import Prelude Errno Lists Slab FatTypes.
Import Slab.

Definition ISO9660_VOL_MAGIC : Z := 0x49534F56.
Definition ISO9660_FILE_MAGIC : Z := 0x49534F46.
Definition SEEK_SET : Z := 0.
Definition SEEK_CUR : Z := 1.
Definition SEEK_END : Z := 2.

Definition ISO9660_FL_EX : Z := 1.
Definition ISO9660_FL_DIR : Z := 2.
Definition ISO9660_FL_REC : Z := 8.
Definition ISO9660_FL_ME : Z := 128.

(** * On disk

    A directory record is read where it is in a buffer [d], at [p]. Numbers are stored
    in both orders; [ME] takes the little endian one. *)

Definition dr_len_dr (d : bytes) (p : Z) : Z := byte_at d p.
Definition dr_len_ear (d : bytes) (p : Z) : Z := byte_at d (p + 1).
Definition dr_extent (d : bytes) (p : Z) : Z := le32_at d (p + 2).
Definition dr_data_length (d : bytes) (p : Z) : Z := le32_at d (p + 10).
Definition dr_flags (d : bytes) (p : Z) : Z := byte_at d (p + 25).
Definition dr_len_fi (d : bytes) (p : Z) : Z := byte_at d (p + 32).
(** [file_id], from its first character on. *)
Definition dr_file_id (d : bytes) (p : Z) : bytes := drop (Z.to_nat (p + 33)) d.
(** The fields before [file_id]. *)
Definition sizeof_dir_record : Z := 33.

(** [struct iso9660_dir_record_timestamp]; the time zone is not used. *)
Record timestamp := mkTimestamp {
  t_year : Z; t_month : Z; t_day : Z; t_hour : Z; t_minutes : Z; t_seconds : Z }.
Definition timestamp_at (d : bytes) (p : Z) : timestamp :=
  mkTimestamp (byte_at d p) (byte_at d (p + 1)) (byte_at d (p + 2)) (byte_at d (p + 3)) (byte_at d (p + 4)) (byte_at d (p + 5)).
Definition dr_recording_time (d : bytes) (p : Z) : timestamp := timestamp_at d (p + 18).

(** [struct iso9660_pvd]. *)
Definition pvd_vol_id (d : bytes) : bytes := slice d 40 32.
Definition pvd_vol_space (d : bytes) : Z := le32_at d 80.
Definition pvd_logical_block_size (d : bytes) : Z := le16_at d 128.
(** The record of the root directory. *)
Definition pvd_root_directory : Z := 156.

(** * In memory *)

Record Buffer := mkBuffer { b_sector : Z; b_block : Z; b_valid : bool; b_data : bytes }.
#[export] Instance Buffer_eta : Eta Buffer := λ r, mkBuffer (b_sector r) (b_block r) (b_valid r) (b_data r).

Record Dentry := mkDentry {
  d_parent : Z; d_children : list Z; d_references : Z; d_de_block : Z; d_de_blkofs : Z; d_flags : Z }.
#[export] Instance Dentry_eta : Eta Dentry := λ r,
  mkDentry (d_parent r) (d_children r) (d_references r) (d_de_block r) (d_de_blkofs r) (d_flags r).

(** [v_buffer_ptr] is the address of the data of the buffer, [v_self] that of the
    structure. *)
Record Volume := mkVolume {
  v_blk_open : bool;
  v_blk_bops : bool;
  v_vol_id : bytes;
  v_magic : Z;
  v_bytes_per_sector : Z;
  v_log_bytes_per_sector : Z;
  v_block_size : Z;
  v_log_block_size : Z;
  v_blocks_per_sector : Z;
  v_log_blocks_per_sector : Z;
  v_vol_space : Z;
  v_root_extent : Z;
  v_root_len_ear : Z;
  v_root_data_length : Z;
  v_root_recording_time : timestamp;
  v_buf_access : Z;
  v_buf_miss : Z;
  v_buf_hit : Z;
  v_buffer : Buffer;
  v_buffer_ptr : Z;
  v_num_dentries : Z;
  v_dentries_slab : SlabCache;
  v_files_slab : SlabCache;
  v_files_open : list Z;
  v_self : Z }.
#[export] Instance Volume_eta : Eta Volume := λ r,
  mkVolume (v_blk_open r) (v_blk_bops r) (v_vol_id r) (v_magic r) (v_bytes_per_sector r) (v_log_bytes_per_sector r)
    (v_block_size r) (v_log_block_size r) (v_blocks_per_sector r) (v_log_blocks_per_sector r) (v_vol_space r)
    (v_root_extent r) (v_root_len_ear r) (v_root_data_length r) (v_root_recording_time r) (v_buf_access r)
    (v_buf_miss r) (v_buf_hit r) (v_buffer r) (v_buffer_ptr r) (v_num_dentries r) (v_dentries_slab r)
    (v_files_slab r) (v_files_open r) (v_self r).

Record File := mkFile {
  f_dentry : Z;
  f_extent : Z;
  f_data_length : Z;
  f_len_ear : Z;
  f_file_flags : Z;
  f_file_pointer : Z;
  f_magic : Z;
  f_open_flags : Z;
  f_references : Z;
  f_timestamp : timestamp }.
#[export] Instance File_eta : Eta File := λ r,
  mkFile (f_dentry r) (f_extent r) (f_data_length r) (f_len_ear r) (f_file_flags r) (f_file_pointer r) (f_magic r)
    (f_open_flags r) (f_references r) (f_timestamp r).

(** Sizes of the structures on the i386. *)
Definition sizeof_Dentry : Z := 44.
Definition sizeof_File : Z := 56.
Definition sizeof_Volume : Z := 208.

(** The memory of the driver; the volume is [None] when it has been freed. *)
Record iso (W : Type) := mkIso {
  i_world : W;
  i_vol : option Volume;
  i_files : gmap Z File;
  i_dentries : gmap Z Dentry;
  i_words : gmap Z Z;
  i_pages : list Z }.
Arguments mkIso {W}. Arguments i_world {W}. Arguments i_vol {W}. Arguments i_files {W}. Arguments i_dentries {W}.
Arguments i_words {W}. Arguments i_pages {W}.
#[export] Instance iso_eta W : Eta (iso W) := λ r,
  mkIso (i_world r) (i_vol r) (i_files r) (i_dentries r) (i_words r) (i_pages r).

(** Address of the root node, embedded in [struct Volume]. *)
Definition root_dentry : Z := 152.

(** * Accesses *)

Section access.
Context {W : Type}.
Notation IM := (M (iso W)).

Definition getv : IM Volume := v ← gets i_vol; deref v.
Definition modv (f : Volume → Volume) : IM () := v ← getv; modify (λ s, s <| i_vol := Some (f v) |>).
Definition modbuf (f : Buffer → Buffer) : IM () := modv (λ v, v <| v_buffer ::= f |>).

Definition getfile (f : Z) : IM File := x ← gets (λ s, i_files s !! f); deref x.
Definition putfile (f : Z) (x : File) : IM () :=
  if nz f then modify (λ s, s <| i_files ::= <[f := x]> |>) else fault.
Definition modfile (f : Z) (g : File → File) : IM () := x ← getfile f; putfile f (g x).

Definition getdentry (d : Z) : IM Dentry := x ← gets (λ s, i_dentries s !! d); deref x.
Definition putdentry (d : Z) (x : Dentry) : IM () :=
  if nz d then modify (λ s, s <| i_dentries ::= <[d := x]> |>) else fault.
Definition moddentry (d : Z) (g : Dentry → Dentry) : IM () := x ← getdentry d; putdentry d (g x).

Definition call {A} (f : W → A * W) : IM A :=
  r ← gets (λ s, f (i_world s)); modify (λ s, s <| i_world := snd r |>);; mret (fst r).
Definition call_ (f : W → W) : IM () := modify (λ s, s <| i_world ::= f |>).

(** The record at [p] of the buffer: its fields, and the [len_fi] characters of its
    identifier, are in the buffer. *)
Definition record_in (d : bytes) (p : Z) : bool :=
  in_block d p sizeof_dir_record && in_block d (p + sizeof_dir_record) (dr_len_fi d p).

(** The slab allocator run on one of the caches of the volume. *)
Definition with_slab `{FatWorld W} {A} (cache : Volume → SlabCache)
    (set : SlabCache → Volume → Volume) (m : M (SlabCache * arena W) A) : IM A :=
  v ← getv;
  s ← gets (λ s, s);
  match m (cache v, mkArena (i_words s) (i_pages s) (i_world s)) with
  | Done a (c, ar) =>
      modify (λ s, s <| i_vol := Some (set c v) |> <| i_words := words ar |>
                     <| i_pages := held ar |> <| i_world := source ar |>);;
      mret a
  | Fault => fault
  | NoFuel => nofuel
  end.
Definition on_files_slab `{FatWorld W} {A} : M (SlabCache * arena W) A → IM A :=
  with_slab v_files_slab (λ c v, v <| v_files_slab := c |>).
Definition on_dentries_slab `{FatWorld W} {A} : M (SlabCache * arena W) A → IM A :=
  with_slab v_dentries_slab (λ c v, v <| v_dentries_slab := c |>).
End access.
