(* ===== verification/IsoVolume.v ===== *)
(** Volumes of the ISO 9660 driver ([src/fd32/modules/iso9660/volume.c]), and the
    accesses to the hosting block device ([fd32.c]): mount and unmount, media change,
    the buffer of one sector. *)
From S2P Require Import Prelude Errno Lists Slab FatTypes FatBuffer IsoTypes.
Import Slab.

(** * Before mounting: the structure filled with zeroes *)

Definition no_timestamp : timestamp := mkTimestamp 0 0 0 0 0 0.
Definition empty_volume (self : Z) : Volume := {|
  v_blk_open := false;
  v_blk_bops := false;
  v_vol_id := zeroes 32;
  v_magic := 0;
  v_bytes_per_sector := 0;
  v_log_bytes_per_sector := 0;
  v_block_size := 0;
  v_log_block_size := 0;
  v_blocks_per_sector := 0;
  v_log_blocks_per_sector := 0;
  v_vol_space := 0;
  v_root_extent := 0;
  v_root_len_ear := 0;
  v_root_data_length := 0;
  v_root_recording_time := no_timestamp;
  v_buf_access := 0;
  v_buf_miss := 0;
  v_buf_hit := 0;
  v_buffer := mkBuffer 0 0 false [];
  v_buffer_ptr := 0;
  v_num_dentries := 0;
  v_dentries_slab := mkSlabCache 0 0 0;
  v_files_slab := mkSlabCache 0 0 0;
  v_files_open := [];
  v_self := self |}.

(** The logarithm of the logical block size. *)
Definition log_block_size (n : Z) : option Z :=
  if n =? 512 then Some 9 else if n =? 1024 then Some 10 else if n =? 2048 then Some 11 else None.

(** What [iso9660_mount] reads in the Primary Volume Descriptor [d]. *)
Definition mount_pvd (d : bytes) (log : Z) (v : Volume) : Volume :=
  v <| v_log_block_size := log |>
    <| v_block_size := Z.shiftl 1 log |>
    <| v_log_blocks_per_sector := v_log_bytes_per_sector v - log |>
    <| v_blocks_per_sector := Z.shiftl 1 (v_log_bytes_per_sector v - log) |>
    <| v_vol_space := pvd_vol_space d |>
    <| v_root_extent := dr_extent d pvd_root_directory |>
    <| v_root_len_ear := dr_len_ear d pvd_root_directory |>
    <| v_root_data_length := dr_data_length d pvd_root_directory |>
    <| v_root_recording_time := dr_recording_time d pvd_root_directory |>.
Definition root_node (d : bytes) : Dentry := mkDentry 0 [] 1 0 0 (dr_flags d pvd_root_directory).

Section volume.
Context {W : Type} `{FatWorld W} `{Fuel}.
Notation IM := (M (iso W)).

(** * Release *)

(** Destroying the caches ends the life of the objects in them. *)
Definition free_volume : IM () :=
  on_files_slab (slabmem_destroy fuel);;
  on_dentries_slab (slabmem_destroy fuel);;
  modify (λ s, s <| i_files := ∅ |> <| i_dentries := ∅ |>);;
  v ← getv;
  (if nz (v_buffer_ptr v) then call_ (fd32_kmem_free (v_buffer_ptr v) (v_bytes_per_sector v)) else mret ());;
  (if v_blk_open v then call_ bops_close;; modv (λ v, v <| v_blk_open := false |>) else mret ());;
  (if v_blk_bops v then call_ block_release else mret ());;
  modv (λ v, v <| v_magic := 0 |>);;
  call_ (fd32_kmem_free (v_self v) sizeof_Volume);;
  modify (λ s, s <| i_vol := None |>).

Definition iso9660_unmount : IM Z :=
  v ← getv;
  guard_ret (nz (Z.of_nat (length (v_files_open v)))) (- EBUSY) (
  free_volume;;
  mret 0).

(** * The block device *)

(** The device stores what it reads at [v->buffer.data]. *)
Definition bops_read_buffer (from count flags : Z) : IM Z :=
  r ← call (bops_read from count flags);
  v ← getv;
  if in_block (b_data (v_buffer v)) 0 (Z.of_nat (length (snd r))) then
    modbuf (λ x, x <| b_data ::= λ d, poke d 0 (snd r) |>);; mret (fst r)
  else fault.

(** The tail of [handle_attention]. *)
Definition medium_changed : IM Z :=
  v ← getv;
  guard_ret (nz (Z.of_nat (length (v_files_open v)))) (- EBUSY) (
  iso9660_unmount;;
  mret (- ENOTMOUNT)).

Definition handle_attention : IM Z :=
  res ←? call bops_revalidate;
  r ← call bops_get_medium_info;
  let '(res, (_, block_bytes)) := r in
  guard_ret (res <? 0) res (
  v ← getv;
  if v_bytes_per_sector v =? block_bytes then
    modbuf (λ x, x <| b_valid := false |>);;
    res ← bops_read_buffer 16 1 BLOCK_RW_NOCACHE;
    guard_ret (res <? 0) (- EIO) (
    v ← getv;
    if bool_decide (v_vol_id v = pvd_vol_id (b_data (v_buffer v))) then mret 0
    else medium_changed)
  else medium_changed).

(** [for (k = 0;; k++)] *)
Fixpoint blockdev_retry (k : nat) (xfer : IM Z) : IM Z :=
  match k with
  | O => mret (- EIO)
  | S k =>
      res ← xfer;
      if (0 <=? res) || negb (BLOCK_IS_ERROR res)
         || negb (BLOCK_GET_SENSE res =? BLOCK_SENSE_ATTENTION) then mret res
      else res ←? handle_attention; blockdev_retry k xfer
  end.
(** Every caller reads in [v->buffer.data]. *)
Definition iso9660_blockdev_read (count from : Z) : IM Z :=
  blockdev_retry 3 (bops_read_buffer from count 0).

Definition iso9660_blockdev_test_unit_ready : IM Z :=
  res ← call bops_test_unit_ready;
  if BLOCK_IS_ERROR res && (BLOCK_GET_SENSE res =? BLOCK_SENSE_ATTENTION)
  then handle_attention else mret res.

(** * Mount *)

Definition abort_mount (res : Z) : IM (Z * Z) := free_volume;; mret (res, 0).

(** From the Primary Volume Descriptor, in the buffer, to the end. *)
Definition mount_finish : IM (Z * Z) :=
  v ← getv;
  let d := b_data (v_buffer v) in
  match log_block_size (pvd_logical_block_size d) with
  | None => abort_mount (- EINVAL)
  | Some log =>
      modv (mount_pvd d log);;
      on_dentries_slab (slabmem_create sizeof_Dentry);;
      putdentry root_dentry (root_node d);;
      modv (λ v, v <| v_num_dentries := 1 |>);;
      on_files_slab (slabmem_create sizeof_File);;
      modv (λ v, v <| v_vol_id := pvd_vol_id d |> <| v_magic := ISO9660_VOL_MAGIC |>);;
      mret (0, v_self v)
  end.

(** Returns the C result and [*volume]. The bytes of the buffer do not matter before a
    sector has been read in it. *)
Definition iso9660_mount (device_name : bytes) : IM (Z * Z) :=
  self ← call (fd32_kmem_get sizeof_Volume);
  guard_ret (negb (nz self)) (- ENOMEM, 0) (
  modify (λ s, s <| i_vol := Some (empty_volume self) |> <| i_files := ∅ |>
                 <| i_dentries := {[ root_dentry := mkDentry 0 [] 0 0 0 0 ]} |>);;
  res ← call (block_get device_name);
  if res <? 0 then abort_mount res else
  modv (λ v, v <| v_blk_bops := true |>);;
  res ← call bops_open;
  if res <? 0 then abort_mount res else
  r ← call bops_get_medium_info;
  let '(res, (_, block_bytes)) := r in
  if res <? 0 then abort_mount res
  else if negb (block_bytes =? 2048) then abort_mount (- EINVAL)
  else
    modv (λ v, v <| v_bytes_per_sector := 2048 |> <| v_log_bytes_per_sector := 11 |>);;
    p ← call (fd32_kmem_get 2048);
    modv (λ v, v <| v_buffer_ptr := p |>);;
    if negb (nz p) then abort_mount (- ENOMEM)
    else
      modbuf (λ x, x <| b_data := zeroes 2048 |>);;
      res ← iso9660_blockdev_read 1 16;
      if res <? 0 then abort_mount res else mount_finish).

(** * The buffer *)

Definition in_buffer (v : Volume) (block : Z) : bool :=
  b_valid (v_buffer v) && (b_block (v_buffer v) <=? block)
  && (block <? u32 (b_block (v_buffer v) + v_blocks_per_sector v)).

(** Returns the C result; [*buffer] is [&v->buffer]. *)
Definition iso9660_readbuf (block : Z) : IM Z :=
  modv (λ v, v <| v_buf_hit ::= λ n, u32 (n + 1) |>);;
  v ← getv;
  ok ← (if in_buffer v block then mret true
        else
          let sector := Z.shiftr block (v_log_blocks_per_sector v) in
          modv (λ v, v <| v_buf_hit ::= λ n, u32 (n - 1) |> <| v_buf_miss ::= λ n, u32 (n + 1) |>);;
          modbuf (λ x, x <| b_valid := false |> <| b_sector := sector |>
                         <| b_block := u32 (Z.shiftl sector (v_log_blocks_per_sector v)) |>);;
          res ← iso9660_blockdev_read 1 sector;
          if negb (res =? 1) then mret false
          else modbuf (λ x, x <| b_valid := true |>);; mret true);
  guard_ret (negb ok) (- EIO) (
  modv (λ v, v <| v_buf_access ::= λ n, u32 (n + 1) |>);;
  v ← getv;
  mret (s32 (u32 (Z.shiftl (u32 (block - b_block (v_buffer v))) (v_log_bytes_per_sector v))))).

(** Bytes [ofs, ofs + n) of the buffer. *)
Definition read_data (ofs n : Z) : IM bytes :=
  v ← getv;
  let d := b_data (v_buffer v) in
  if in_block d ofs n then mret (slice d ofs n) else fault.
End volume.
