(* ===== verification/IsoFile.v ===== *)
(** Open files of the ISO 9660 driver ([src/fd32/modules/iso9660/file.c]) and the
    references of the cached directory nodes ([dentry.c]). *)
From S2P Require Import Prelude Errno Lists Slab FatTypes IsoTypes IsoVolume.
Import Slab.

Section file.
Context {W : Type} `{FatWorld W} `{Fuel}.
Notation IM := (M (iso W)).

(** [slabmem_free] ends the life of the object. *)
Definition free_file (f : Z) : IM () :=
  on_files_slab (slabmem_free f);; modify (λ s, s <| i_files ::= delete f |>).
Definition free_dentry (d : Z) : IM () :=
  on_dentries_slab (slabmem_free d);; modify (λ s, s <| i_dentries ::= delete d |>).

(** * References of nodes *)

Definition iso9660_dget (d : Z) : IM () :=
  moddentry d (λ x, x <| d_references ::= λ n, u32 (n + 1) |>);;
  modv (λ v, v <| v_num_dentries ::= λ n, u32 (n + 1) |>).

(** [while (d)]: from a node towards the root. *)
Fixpoint dput_loop (k : nat) (d : Z) : IM () :=
  if negb (nz d) then mret ()
  else match k with
  | O => nofuel
  | S k =>
      moddentry d (λ x, x <| d_references ::= λ n, u32 (n - 1) |>);;
      modv (λ v, v <| v_num_dentries ::= λ n, u32 (n - 1) |>);;
      x ← getdentry d;
      if nz (d_references x) then mret ()
      else
        let parent := d_parent x in
        (if nz parent then
           moddentry parent (λ p, p <| d_children ::= erase d |>);;
           free_dentry d
         else mret ());;
        dput_loop k parent
  end.
Definition iso9660_dput (d : Z) : IM () := _ ← getdentry d; dput_loop fuel d.

(** * Positions *)

(** [res] of the switch of [iso9660_lseek]. *)
Definition lseek_position (x : File) (offset whence : Z) : Z :=
  if whence =? SEEK_SET then offset
  else if whence =? SEEK_CUR then offset + f_file_pointer x
  else if whence =? SEEK_END then offset + f_data_length x
  else - EINVAL.

Definition iso9660_lseek (f offset whence : Z) : IM Z :=
  guard_ret (negb (nz f)) (- EINVAL) (
  x ← getfile f;
  let res := lseek_position x offset whence in
  (if 0 <=? offset then modfile f (λ x, x <| f_file_pointer := res |>) else mret ());;
  mret res).

(** The logical block of a position, the byte in the block. *)
Definition logical_block (v : Volume) (x : File) (offset : Z) : Z :=
  u32 (f_extent x + f_len_ear x + Z.shiftr offset (v_log_block_size v)).
Definition byte_in_block (v : Volume) (offset : Z) : Z := u32 (Z.land offset (v_block_size v - 1)).

(** * Reading *)

(** [count] of an iteration. *)
Definition read_count (v : Volume) (x : File) (size offset k : Z) : Z :=
  let count := u32 (v_block_size v - byte_in_block v offset) in
  let count := if f_data_length x <=? offset + count then u32 (f_data_length x - offset) else count in
  if size <? u32 (k + count) then u32 (size - k) else count.

(** [while ((k < size) && (offset < f->data_length))]; [acc] is what [buffer] holds. *)
Fixpoint read_loop (n : nat) (x : File) (size offset k : Z) (acc : bytes) : IM (Z * Z * bytes) :=
  if (k <? size) && (offset <? f_data_length x) then
    match n with
    | O => nofuel
    | S n =>
        v ← getv;
        res ← iso9660_readbuf (logical_block v x offset);
        guard_ret (res <? 0) (res, offset, acc) (
        let count := read_count v x size offset k in
        l ← read_data (res + byte_in_block v offset) count;
        read_loop n x size (offset + count) (u32 (k + count)) (acc ++ l))
    end
  else mret (k, offset, acc).

(** Returns the C result and what is stored in [buffer]; an error leaves the position
    of the file unchanged. *)
Definition iso9660_read (f : Z) (buffer : bool) (size : Z) : IM (Z * bytes) :=
  guard_ret (negb (nz f) || negb buffer) (- EINVAL, []) (
  x ← getfile f;
  guard_ret (negb (f_magic x =? ISO9660_FILE_MAGIC)) (- EBADF, []) (
  guard_ret (negb (Z.land (f_open_flags x) O_ACCMODE =? O_RDONLY)) (- EBADF, []) (
  _ ← getdentry (f_dentry x);
  r ← read_loop (Z.to_nat size) x size (f_file_pointer x) 0 [];
  let '(res, offset, l) := r in
  guard_ret (res <? 0) (res, l) (
  modfile f (λ x, x <| f_file_pointer := offset |>);;
  mret (s32 res, l))))).

(** * Closing *)

(** [f->dentry->v] is read after [iso9660_dput] may have freed the node; the free list
    only overwrites the first word of it. *)
Definition iso9660_close (f : Z) : IM Z :=
  x ← getfile f;
  guard_ret (negb (f_magic x =? ISO9660_FILE_MAGIC) || negb (nz (f_references x))) (- EBADF) (
  _ ← getdentry (f_dentry x);
  modfile f (λ x, x <| f_references ::= λ n, u32 (n - 1) |>);;
  x ← getfile f;
  (if f_references x =? 0 then
     iso9660_dput (f_dentry x);;
     modfile f (λ x, x <| f_magic := 0 |>);;
     modv (λ v, v <| v_files_open ::= erase f |>);;
     free_file f
   else mret ());;
  mret 0).

(** * Directory records *)

(** The size of the array [n] that receives the file identifier and a zero. *)
Definition readdir_id_size : Z := 60.

(** A copy of the file identifier is made in an array of [n] characters. *)
Definition check_record (p n : Z) : IM () :=
  v ← getv;
  let d := b_data (v_buffer v) in
  if record_in d p && (dr_len_fi d p <? n) then mret () else fault.

(** [for (;;)]: the result, the block and the byte in the block of a record, and the
    position after it. A record of no length ends the records of the sector. *)
Fixpoint readdir_loop (n : nat) (x : File) (offset : Z) : IM (Z * Z * Z * Z) :=
  if f_data_length x <=? offset then mret (- ENMFILE, 0, 0, offset)
  else match n with
  | O => nofuel
  | S n =>
      v ← getv;
      let lb := logical_block v x offset in
      let bb := byte_in_block v offset in
      res ← iso9660_readbuf lb;
      guard_ret (res <? 0) (res, 0, 0, offset) (
      len_dr ← read_data (res + bb) 1;
      if nz (byte_at len_dr 0) then
        check_record (res + bb) readdir_id_size;;
        mret (res, lb, bb, offset + byte_at len_dr 0)
      else readdir_loop n x (offset + u32 (v_bytes_per_sector v - res - bb)))
  end.

(** Returns the C result, [*de_block] and [*de_blkofs]. *)
Definition iso9660_do_readdir (f : Z) : IM (Z * Z * Z) :=
  x ← getfile f;
  _ ← getdentry (f_dentry x);
  r ← readdir_loop (Z.to_nat (f_data_length x)) x (f_file_pointer x);
  let '(res, de_block, de_blkofs, offset) := r in
  guard_ret (res <? 0) (res, 0, 0) (
  modfile f (λ x, x <| f_file_pointer := offset |>);;
  mret (res, de_block, de_blkofs)).
End file.
