(* ===== verification/IsoNames.v ===== *)
(** The names of the ISO 9660 driver ([src/fd32/modules/iso9660/dos.c]): time stamps,
    names in FCB format, matching with wildcards. A string that is not counted is the
    bytes from the pointer on; [None] when the code reads beyond them. [IsoNamesSpec] proves
    the conversion to FCB format, [IsoMatch] what the matching decides. *)
From S2P Require Import Prelude Errno Nls FatNames FatDos IsoTypes.
(** * Time stamps *)

Definition pack_dos_date (t : timestamp) : Z :=
  if (80 <=? t_year t) && (t_year t <=? 207) && (1 <=? t_month t) && (t_month t <=? 12)
     && (1 <=? t_day t) && (t_day t <=? 31)
  then Z.lor (Z.lor (t_day t) (Z.shiftl (t_month t) 5)) (Z.shiftl (t_year t - 80) 9)
  else 0.

Definition pack_dos_time (t : timestamp) : Z :=
  if (t_seconds t <=? 60) && (t_minutes t <=? 59) && (t_hour t <=? 23)
  then Z.lor (Z.lor (Z.shiftr (t_seconds t) 1) (Z.shiftl (t_minutes t) 5)) (Z.shiftl (t_hour t) 11)
  else 0.

(** * Names in FCB format *)

Fixpoint rtrim_from (s : bytes) (k len : nat) : nat :=
  match s with
  | [] => len
  | c :: s => rtrim_from s (S k) (if c =? 32 then len else S k)
  end.
(** [s] is the [n] characters. *)
Definition rtrim (s : bytes) : nat := rtrim_from s 0 0.

(** A [char] of the i386 is signed. *)
Definition schar (c : Z) : Z := if c <? 128 then c else c - 256.

(** [while ( *src && src_size)], the size left of [dest] passed on: the result and the
    characters stored. *)
Fixpoint build_part (src : bytes) (src_size dest_size : Z) (wildcards : bool) (dest : bytes)
    : option (Z * bytes) :=
  match src with
  | [] => None
  | c :: src =>
      if (c =? 0) || (src_size =? 0) then Some (0, dest)
      else if wildcards && (c =? 42) then Some (0, dest ++ replicate (Z.to_nat dest_size) 63)
      else if schar c <? 32 then Some (- EINVAL, dest)
      else if dest_size =? 0 then Some (0, dest)
      else build_part src (src_size - 1) (dest_size - 1) wildcards (dest ++ [CString.toupper c])
  end.
Definition build_fcb_name_part (dest_size : Z) (src : bytes) (src_size : Z) (wildcards : bool)
    : option (Z * bytes) :=
  build_part src src_size dest_size wildcards [].

Definition spaces : bytes := replicate 11 32.

(** Returns the C result and the 11 bytes of [dest]. *)
Definition iso9660_build_fcb_name (src : bytes) (src_size : Z) (wildcards : bool) : option (Z * bytes) :=
  if Z.of_nat (length src) <? src_size then None
  else if (src_size =? 1) && ((byte_at src 0 =? 46) || (byte_at src 0 =? 0)) then Some (0, poke spaces 0 [46])
  else if ((src_size =? 2) && (le16_at src 0 =? 0x2E2E)) || ((src_size =? 1) && (byte_at src 0 =? 1))
  then Some (0, poke spaces 0 [46; 46])
  else
    let finish dest := if byte_at dest 0 =? 32 then (- EINVAL, dest) else (0, dest) in
    let sep1 := memrchr (take (Z.to_nat src_size) src) 46 in
    let sep2 := memrchr (take (Z.to_nat src_size) src) 59 in
    let src_size := match sep2 with Some sep2 => Z.of_nat sep2 | None => src_size end in
    match sep1 with
    | Some sep1 =>
        r1 ← build_fcb_name_part 8 src (Z.of_nat sep1) wildcards;
        let '(res1, name) := (r1 : Z * bytes) in
        let dest := poke spaces 0 name in
        if res1 <? 0 then Some (res1, dest)
        else
          r2 ← build_fcb_name_part 3 (drop (S sep1) src) (u32 (src_size - (Z.of_nat sep1 + 1))) wildcards;
          let '(res2, ext) := (r2 : Z * bytes) in
          let dest := poke dest 8 ext in
          if res2 <? 0 then Some (res2, dest) else Some (finish dest)
    | None =>
        r1 ← build_fcb_name_part 8 src src_size wildcards;
        let '(res1, name) := (r1 : Z * bytes) in
        let dest := poke spaces 0 name in
        if res1 <? 0 then Some (res1, dest) else Some (finish dest)
    end.

(** The null-terminated string made of the 11 bytes of [src]. *)
Definition expand_fcb_name (src : bytes) : bytes :=
  let name := take (rtrim (take 8 src)) src in
  let ext := drop 8 src in
  let len := rtrim (take 3 ext) in
  name ++ (if nz (Z.of_nat len) then 46 :: take len ext else []) ++ [0].

Fixpoint compare_fcb_from (k : nat) (s sw : bytes) : Z :=
  match k with
  | O => 0
  | S k =>
      if negb (byte_at sw 0 =? 63) && negb (byte_at s 0 =? byte_at sw 0) then 1
      else compare_fcb_from k (tail s) (tail sw)
  end.
Definition iso9660_compare_fcb_names (s sw : bytes) : Z := compare_fcb_from 11 s sw.

(** * Matching with wildcards; the strings are counted *)

(** [while (n1 && n2)] *)
Fixpoint compare_pattern_from (s1 s2 : bytes) (res : Z) : Z :=
  match s1, s2 with
  | [], _ => res
  | _ :: _, [] => 0
  | c1 :: s1, c2 :: s2 =>
      if negb (c1 =? 63) && negb (CString.toupper c1 =? CString.toupper c2) then 0
      else compare_pattern_from s1 s2 (res + 1)
  end.
Definition compare_pattern (s1 s2 : bytes) : Z := compare_pattern_from s1 s2 0.

(** [for (; n2; n2--, s2++)]: the result and what is left of [s2]. *)
Fixpoint scan_pattern (s1 s2 : bytes) : Z * bytes :=
  match s2 with
  | [] => (0, [])
  | _ :: s2' => let res := compare_pattern s1 s2 in if nz res then (res, s2) else scan_pattern s1 s2'
  end.

(** [while (n1)]: every iteration consumes a byte of [s1]. *)
Fixpoint compare_wildcards_loop (n : nat) (shift : bool) (s1 s2 : bytes) : Z :=
  match s1, n with
  | [], _ | _, O => if bool_decide (s1 = []) && bool_decide (s2 = []) then 0 else 1
  | c :: s1', S n =>
      if c =? 42 then
        if bool_decide (s1' = []) then 0 else compare_wildcards_loop n true s1' s2
      else if bool_decide (s2 = []) then 1
      else
        let nsub := default (length s1) (memchr s1 42 (length s1)) in
        let '(res, s2) := if shift then scan_pattern (take nsub s1) s2
                          else (compare_pattern (take nsub s1) s2, s2) in
        if res <? 0 then res
        else if negb (nz res) then 1
        else compare_wildcards_loop n shift (drop nsub s1) (drop (Z.to_nat res) s2)
  end.
Definition compare_with_wildcards (s1 s2 : bytes) : Z := compare_wildcards_loop (length s1) false s1 s2.

(** A name split at its last dot. *)
Definition split_extension (s : bytes) : bytes * bytes :=
  match memrchr s 46 with
  | Some e => (take e s, drop (S e) s)
  | None => (s, [])
  end.

Definition dos_fnmatch (s1 s2 : bytes) (shorten : bool) : Z :=
  let '(n1, e1) := split_extension s1 in
  let '(n2, e2) := split_extension s2 in
  let trim n s := let s := take n s in take (rtrim s) s in
  let '(n1, e1, n2, e2) :=
    if shorten then (take 8 n1, take 3 e1, trim 8%nat n2, trim 3%nat e2) else (n1, e1, n2, e2) in
  let res1 := compare_with_wildcards n1 n2 in
  if res1 <? 0 then res1
  else
    let res2 := compare_with_wildcards e1 e2 in
    if res2 <? 0 then res2
    else if nz res1 || nz res2 then 1 else 0.

(** The 8.3 name [iso9660_findfile] generates, with its zero. *)
Definition short_name (id : bytes) : bytes :=
  let '(n, e) := split_extension id in
  let n := take 8 n in
  let e := take 3 e in
  take (rtrim n) n ++ (if nz (Z.of_nat (length e)) then 46 :: take (rtrim e) e else []) ++ [0].

(** The names of the ISO 9660 driver ([IsoNames]): a file identifier of ISO 9660, a name, an
    extension and a version, through the FCB format and back. *)
Module IsoNamesSpec.
(** * Lemmas *)

Lemma memrchr_from_app s s' c i r : memrchr_from (s ++ s') c i r = memrchr_from s' c (i + length s) (memrchr_from s c i r).
Proof.
  revert i r. induction s as [|x s IH]; intros i r; simpl; [by rewrite Nat.add_0_r|].
  rewrite IH. f_equal. lia.
Qed.
Lemma memrchr_from_absent s c i r : Forall (λ x, x ≠ c) s → memrchr_from s c i r = r.
Proof.
  revert i r. induction s as [|x s IH]; intros i r H; simpl; [done|].
  apply Forall_cons in H as [Hx H]. by rewrite (proj2 (Z.eqb_neq _ _)), IH by done.
Qed.
Lemma memrchr_last s c s' : Forall (λ x, x ≠ c) s' → memrchr (s ++ c :: s') c = Some (length s).
Proof.
  intros H. unfold memrchr. rewrite memrchr_from_app. simpl. rewrite Z.eqb_refl. by rewrite memrchr_from_absent.
Qed.

(** * Identifiers *)

(** The characters of a name or an extension. *)
Definition name_char (c : Z) : Prop := 32 < c < 127 ∧ c ≠ 46 ∧ c ≠ 59 ∧ CString.toupper c = c.
Definition version_char (c : Z) : Prop := c ≠ 46 ∧ c ≠ 59.

Definition file_id (name ext version : bytes) : bytes := name ++ [46] ++ ext ++ [59] ++ version.
(** The 11 bytes of the FCB format. *)
Definition fcb (name ext : bytes) : bytes :=
  name ++ replicate (8 - length name) 32 ++ ext ++ replicate (3 - length ext) 32.
Definition dos_name (name ext : bytes) : bytes := name ++ (if bool_decide (ext = []) then [] else 46 :: ext).

Lemma build_part_name l rest size dest_size dest :
  Forall name_char l → Z.of_nat (length l) = size → Z.of_nat (length l) ≤ dest_size → rest ≠ [] →
  build_part (l ++ rest) size dest_size false dest = Some (0, dest ++ l).
Proof.
  intros Hl. revert size dest_size dest. induction l as [|c l IH]; intros size dest_size dest Hs Hd Hr; simpl in *.
  - destruct rest as [|c rest]; [done|]. subst size. simpl. rewrite orb_true_r. by rewrite app_nil_r.
  - apply Forall_cons in Hl as [(Hc & Hdot & Hsemi & Hup) Hl].
    rewrite (proj2 (Z.eqb_neq c 0)), (proj2 (Z.eqb_neq size 0)), (proj2 (Z.eqb_neq dest_size 0)) by lia. simpl.
    unfold schar. rewrite (proj2 (Z.ltb_lt c 128)), (proj2 (Z.ltb_ge c 32)) by lia.
    rewrite IH by (done || lia). by rewrite Hup, <- app_assoc.
Qed.

Lemma rtrim_from_pad l n k len :
  Forall name_char l → rtrim_from (l ++ replicate n 32) k len = if bool_decide (l = []) then len else (k + length l)%nat.
Proof.
  revert k len. induction l as [|c l IH]; intros k len Hl; simpl.
  - revert k. induction n as [|n IH]; intros k; simpl; [done|apply IH].
  - apply Forall_cons in Hl as [Hc Hl]. rewrite IH by done. destruct Hc as [Hc _].
    rewrite (proj2 (Z.eqb_neq c 32)) by lia. destruct l; simpl; lia.
Qed.
Lemma rtrim_pad l n : Forall name_char l → rtrim (l ++ replicate n 32) = length l.
Proof. intros. unfold rtrim. rewrite rtrim_from_pad by done. by destruct l. Qed.

Lemma fcb_build name ext :
  (length name ≤ 8)%nat → (length ext ≤ 3)%nat → poke (poke spaces 0 name) 8 ext = fcb name ext.
Proof.
  intros Hn He. unfold poke, fcb, spaces. change (Z.to_nat 0) with 0%nat. change (Z.to_nat 8) with 8%nat.
  rewrite take_0, app_nil_l, Nat.add_0_l, drop_replicate. rewrite (take_app_ge name), take_replicate by lia.
  rewrite (drop_app_ge name), drop_replicate, <- app_assoc by lia.
  f_equal. f_equal; [f_equal; lia|]. f_equal. f_equal. lia.
Qed.

Lemma drop_fcb_ext name ext version :
  drop (S (length name)) (name ++ 46 :: ext ++ 59 :: version) = ext ++ 59 :: version.
Proof. rewrite drop_app_ge by lia. by replace (S (length name) - length name)%nat with 1%nat by lia. Qed.

Lemma expand_fcb name ext :
  Forall name_char name → Forall name_char ext → (length name ≤ 8)%nat → (length ext ≤ 3)%nat →
  expand_fcb_name (fcb name ext) = dos_name name ext ++ [0].
Proof.
  intros Hn He Hln Hle. unfold expand_fcb_name.
  assert (take 8 (fcb name ext) = name ++ replicate (8 - length name) 32) as ->.
  { unfold fcb. rewrite app_assoc, take_app_length'; [done|]. rewrite length_app, length_replicate. lia. }
  assert (drop 8 (fcb name ext) = ext ++ replicate (3 - length ext) 32) as ->.
  { unfold fcb. rewrite app_assoc, drop_app_length'; [done|]. rewrite length_app, length_replicate. lia. }
  rewrite (take_ge (ext ++ _)) by (rewrite length_app, length_replicate; lia).
  rewrite !rtrim_pad, take_app_length by done. unfold fcb. rewrite take_app_length.
  unfold dos_name. rewrite <- app_assoc. f_equal. f_equal.
  destruct ext; [done|]. by rewrite bool_decide_eq_false_2.
Qed.

(** * Theorems *)

(** C38: an identifier of ISO 9660 - a name of one to eight characters, an extension of at
    most three, a version - is converted to the FCB format of its name and extension, and
    expanding that gives back the name and the extension, without a dot if there is no
    extension. *)
Theorem iso9660_fcb_roundtrip name ext version :
  Forall name_char name → Forall name_char ext → Forall version_char version →
  name ≠ [] → (length name ≤ 8)%nat → (length ext ≤ 3)%nat →
  let id := file_id name ext version in
  iso9660_build_fcb_name id (Z.of_nat (length id)) false = Some (0, fcb name ext)
  ∧ expand_fcb_name (fcb name ext) = dos_name name ext ++ [0].
Proof.
  intros Hn He Hv Hne Hln Hle id. destruct name as [|c name]; [done|].
  assert (name_char c) as (Hc & Hdot & Hsemi & _) by (apply Forall_cons in Hn; apply Hn).
  assert (∀ k l, Forall name_char l → k = 46 ∨ k = 59 → Forall (λ x, x ≠ k) l) as Habs.
  { intros k l Hl Hk. eapply Forall_impl; [exact Hl|]. intros y (_ & ? & ? & _). lia. }
  split.
  - unfold iso9660_build_fcb_name. rewrite (proj2 (Z.ltb_ge _ _)) by lia.
    rewrite Nat2Z.id, take_ge by done.
    assert (memrchr id 46 = Some (length (c :: name))) as ->.
    { apply (memrchr_last _ 46 (ext ++ 59 :: version)). apply Forall_app. split; [apply (Habs 46); auto|].
      constructor; [lia|]. eapply Forall_impl; [exact Hv|]. by intros y [? _]. }
    assert (memrchr id 59 = Some (length ((c :: name) ++ 46 :: ext))) as ->.
    { unfold id, file_id. change ([46] ++ ext ++ [59] ++ version) with ((46 :: ext) ++ 59 :: version).
      rewrite app_assoc. apply memrchr_last. eapply Forall_impl; [exact Hv|]. by intros y [_ ?]. }
    assert (3 ≤ Z.of_nat (length id)) by (unfold id, file_id; rewrite !length_app; simpl; lia).
    rewrite (proj2 (Z.eqb_neq _ 1)), (proj2 (Z.eqb_neq _ 2)) by lia. cbn [andb orb]. unfold build_fcb_name_part.
    unfold id, file_id. rewrite (build_part_name (c :: name)) by (done || lia). rewrite app_nil_l. simpl mbind.
    change (0 <? 0) with false. cbv iota. rewrite drop_fcb_ext.
    match goal with |- context [u32 ?z] => replace (u32 z) with (Z.of_nat (length ext)) end.
    2: { rewrite length_app. simpl. rewrite u32_small; lia. }
    rewrite build_part_name by (done || lia). rewrite app_nil_l. simpl mbind. change (0 <? 0) with false. cbv iota.
    rewrite fcb_build by done. unfold fcb at 1. change (byte_at _ 0) with c.
    by rewrite (proj2 (Z.eqb_neq c 32)) by lia.
  - by apply expand_fcb.
Qed.
End IsoNamesSpec.

(** What the matching of the long name searches decides, without its code: a pattern and a
    name are divided at their last dots, and each part of the pattern has the standard
    meaning of [*] and [?], letters in either case. *)
Module IsoMatch.
Import FatMatch IsoNamesSpec.

(** * The meaning of a pattern *)

(** A character of a pattern against a character of a name. *)
Definition agree (w c : Z) : bool := (w =? 63) || (CString.toupper w =? CString.toupper c).

(** [*] (42) stands for any characters and [?] (63) for any one. *)
Inductive wild : bytes → bytes → Prop :=
  | wild_nil : wild [] []
  | wild_star p s s' : wild p s' → wild (42 :: p) (s ++ s')
  | wild_char w c p s : w ≠ 42 → agree w c = true → wild p s → wild (w :: p) (c :: s).

(** [a] and [b] are what precedes and what follows the last [c] of [s]; without a [c] nothing
    follows. *)
Definition divided (c : Z) (s a b : bytes) : Prop :=
  (s = a ++ c :: b ∧ c ∉ b) ∨ (c ∉ s ∧ a = s ∧ b = []).

(** The first [n] characters less the spaces they end with. *)
Definition shortened (n : nat) (s t : bytes) : Prop :=
  ∃ k, take n s = t ++ replicate k 32 ∧ last t ≠ Some 32.

(** The pattern denotes the name: part by part, the whole name or the short one (8.3). *)
Definition denotes (fn name : bytes) : Prop :=
  ∃ p e n x, divided 46 fn p e ∧ divided 46 name n x ∧
    ((wild p n ∧ wild e x)
     ∨ ∃ n' x', shortened 8 n n' ∧ shortened 3 x x' ∧ wild (take 8 p) n' ∧ wild (take 3 e) x').

(** The patterns in use: in each part at most one asterisk, its last character, and no
    asterisk without a dot. *)
Definition trailing (p : bytes) : Prop := ∃ a, 42 ∉ a ∧ (p = a ∨ p = a ++ [42]).
Definition usual (fn : bytes) : Prop :=
  (42 ∈ fn → 46 ∈ fn) ∧ ∀ p e, divided 46 fn p e → trailing p ∧ trailing e.

(** * Divisions *)

Lemma memrchr_divided s c :
  match memrchr s c with
  | Some e => s = take e s ++ c :: drop (S e) s ∧ c ∉ drop (S e) s
  | None => c ∉ s
  end.
Proof.
  induction s as [|x s IH] using rev_ind; [apply not_elem_of_nil|].
  unfold memrchr in *. rewrite memrchr_from_app. cbn [memrchr_from]. rewrite Nat.add_0_l.
  destruct (Z.eqb_spec x c) as [->|Hx].
  - rewrite take_app_length, drop_ge by (rewrite length_app; simpl; lia). split; [done|apply not_elem_of_nil].
  - destruct (memrchr_from s c 0 None) as [e|] eqn:E; [|set_solver].
    destruct IH as [IH Hn]. assert (e < length s)%nat by (apply (f_equal length) in IH; rewrite length_app, length_take in IH; simpl in IH; lia).
    rewrite take_app_le, drop_app_le by lia. split; [|set_solver]. rewrite IH at 1. by rewrite <- app_assoc.
Qed.
Lemma memrchr_nowhere s c : c ∉ s → memrchr s c = None.
Proof. intros H. apply memrchr_from_absent, Forall_forall. intros x Hx ->. done. Qed.
Lemma memrchr_at a c b : c ∉ b → memrchr (a ++ c :: b) c = Some (length a).
Proof. intros H. apply memrchr_last, Forall_forall. intros x Hx ->. done. Qed.

Lemma divided_unique c s a b a' b' : divided c s a b → divided c s a' b' → a = a'.
Proof.
  intros [[-> H]|(H & -> & ->)] [[E H']|(H' & -> & ->)]; [|set_solver..|done].
  apply (f_equal (λ s, memrchr s c)) in E as E2. rewrite !memrchr_at in E2 by done. injection E2 as E2.
  by apply (f_equal (take (length a))) in E; rewrite E2 in E at 2; rewrite !take_app_length in E.
Qed.

Lemma split_divided s a b : divided 46 s a b ↔ split_extension s = (a, b).
Proof.
  unfold split_extension. split.
  - intros [[-> H]|(H & -> & ->)]; [|by rewrite memrchr_nowhere].
    rewrite memrchr_at, take_app_length by done. f_equal.
    rewrite drop_app_ge by lia. by replace (S (length a) - length a)%nat with 1%nat by lia.
  - pose proof (memrchr_divided s 46) as H. destruct (memrchr s 46) as [e|]; intros [= <- <-]; [left|right]; done.
Qed.

(** * The short parts *)

Lemma rtrim_from_le s k len : (len ≤ rtrim_from s k len ∨ k < rtrim_from s k len)%nat ∧ (rtrim_from s k len ≤ len ∨ rtrim_from s k len ≤ k + length s)%nat.
Proof.
  revert k len. induction s as [|c s IH]; intros k len; simpl; [lia|].
  specialize (IH (S k) (if c =? 32 then len else S k)). destruct (c =? 32); lia.
Qed.
Lemma rtrim_from_snoc s c k len : rtrim_from (s ++ [c]) k len = if c =? 32 then rtrim_from s k len else S (k + length s).
Proof.
  revert k len. induction s as [|x s IH]; intros k len; simpl; [by rewrite Nat.add_0_r|].
  rewrite IH. destruct (c =? 32); [done|lia].
Qed.
Lemma rtrim_le s : (rtrim s ≤ length s)%nat.
Proof. unfold rtrim. pose proof (rtrim_from_le s 0 0). lia. Qed.
(** [rtrim] keeps what precedes the spaces at the end. *)
Lemma rtrim_spaces t k : last t ≠ Some 32 → take (rtrim (t ++ replicate k 32)) (t ++ replicate k 32) = t.
Proof.
  intros Ht. assert (rtrim (t ++ replicate k 32) = length t) as ->; [|apply take_app_length].
  unfold rtrim. induction k as [|k IH].
  - rewrite app_nil_r. destruct t as [|c t _] using rev_ind; [done|].
    rewrite last_snoc in Ht. rewrite rtrim_from_snoc, length_app. simpl. destruct (Z.eqb_spec c 32); [congruence|lia].
  - by rewrite replicate_S_end, app_assoc, rtrim_from_snoc.
Qed.
Lemma rtrim_exists s : ∃ t k, s = t ++ replicate k 32 ∧ last t ≠ Some 32.
Proof.
  induction s as [|c s (t & k & -> & Ht)] using rev_ind; [by exists [], 0%nat|].
  destruct (decide (c = 32)) as [->|Hc].
  - exists t, (S k). by rewrite replicate_S_end, app_assoc.
  - exists ((t ++ replicate k 32) ++ [c]), 0%nat. rewrite app_nil_r, last_snoc. split; [done|congruence].
Qed.
Lemma shortened_trim n s t : shortened n s t ↔ take (rtrim (take n s)) (take n s) = t.
Proof.
  split; [intros (k & -> & Ht); by apply rtrim_spaces|intros <-].
  destruct (rtrim_exists (take n s)) as (t & k & E & Ht). exists k. rewrite E, !rtrim_spaces by done. done.
Qed.

(** * Parts *)

Fixpoint begins (a s : bytes) : bool :=
  match a, s with
  | [], _ => true
  | _ :: _, [] => false
  | w :: a, c :: s => agree w c && begins a s
  end.

Lemma compare_pattern_from_begins a s r : 0 ≤ r →
  compare_pattern_from a s r = if begins a s then r + Z.of_nat (length a) else 0.
Proof.
  revert s r. induction a as [|w a IH]; intros s r Hr; [simpl; lia|]. destruct s as [|c s]; [done|].
  cbn [compare_pattern_from begins]. unfold agree. rewrite <- negb_orb. destruct (_ || _); simpl; [|done].
  rewrite IH by lia. destruct (begins a s); lia.
Qed.

Lemma wild_begins a r s : 42 ∉ a → wild (a ++ r) s ↔ begins a s = true ∧ wild r (drop (length a) s).
Proof.
  revert s. induction a as [|w a IH]; intros s H; [simpl; tauto|]. apply not_elem_of_cons in H as [Hw H].
  split.
  - intros Hg. simpl in Hg. inversion Hg as [|p s1 s2 H' E1|w' c p s' H1 H2 H3]; subst; [done|].
    apply IH in H3 as [H3 H4]; [|done]. simpl. by rewrite H2, H3.
  - destruct s as [|c s]; [by intros [? _]|]. simpl. rewrite andb_true_iff. intros [[H1 H2] H3].
    apply wild_char; [congruence|done|]. by apply IH.
Qed.
Lemma wild_none s : wild [] s ↔ s = [].
Proof. split; [by inversion 1|intros ->; constructor]. Qed.
Lemma wild_any s : wild [42] s.
Proof. rewrite <- (app_nil_r s). repeat constructor. Qed.

(** The code on the part [a], or [a*]. *)
Lemma compare_part (a r s : bytes) : 42 ∉ a → r = [] ∨ r = [42] →
  compare_with_wildcards (a ++ r) s =
    if begins a s && (bool_decide (r = [42]) || bool_decide (drop (length a) s = [])) then 0 else 1.
Proof.
  intros Ha Hr. assert (∀ n s, (length r ≤ n)%nat →
    compare_wildcards_loop n false r s = if bool_decide (r = [42]) || bool_decide (s = []) then 0 else 1) as Hrest.
  { intros n s' Hn. destruct Hr as [->| ->]; [by destruct n|]. by destruct n; [simpl in Hn; lia|]. }
  unfold compare_with_wildcards. destruct a as [|w a]; [by rewrite Hrest|].
  assert (default (length ((w :: a) ++ r)) (memchr ((w :: a) ++ r) 42 (length ((w :: a) ++ r))) = length (w :: a)) as Hsub.
  { assert (Forall (λ b, b ≠ 42) (w :: a)) as HF by (apply Forall_forall; intros y Hy ->; done).
    destruct Hr as [->| ->]; [by rewrite app_nil_r, memchr_none|].
    rewrite memchr_here; [done|done|]. rewrite length_app. simpl. lia. }
  assert (∀ n, (length r ≤ n)%nat → compare_wildcards_loop (S n) false ((w :: a) ++ r) s =
    if begins (w :: a) s && (bool_decide (r = [42]) || bool_decide (drop (length (w :: a)) s = [])) then 0 else 1) as Hloop.
  { intros n Hn. change ((w :: a) ++ r) with (w :: (a ++ r)) in *. cbn [compare_wildcards_loop].
    rewrite (proj2 (Z.eqb_neq w 42)) by set_solver. rewrite Hsub.
    destruct (decide (s = [])) as [->|Es]; [by destruct r|]. rewrite (bool_decide_eq_false_2 (s = [])) by done.
    change (w :: a ++ r) with ((w :: a) ++ r). rewrite take_app_length, drop_app_length. cbv zeta.
    unfold compare_pattern. rewrite compare_pattern_from_begins by lia. destruct (begins (w :: a) s); [|done].
    rewrite Z.add_0_l, Nat2Z.id, (proj2 (Z.ltb_ge _ 0)) by lia. unfold nz.
    rewrite (proj2 (Z.eqb_neq _ 0)) by (simpl; lia). cbn [negb andb]. by apply Hrest. }
  simpl length. apply Hloop. rewrite length_app. lia.
Qed.

Lemma compare_trailing p s : trailing p →
  (compare_with_wildcards p s = 0 ∧ wild p s) ∨ (compare_with_wildcards p s = 1 ∧ ¬ wild p s).
Proof.
  intros (a & Ha & Hp). assert (∃ r, p = a ++ r ∧ (r = [] ∨ r = [42])) as (r & -> & Hr).
  { destruct Hp as [->| ->]; [exists []; rewrite app_nil_r|exists [42]]; auto. }
  rewrite compare_part, wild_begins by done. destruct (begins a s); [|right; naive_solver].
  destruct Hr as [->| ->]; [rewrite wild_none|left; split; [done|split; [done|apply wild_any]]].
  rewrite (bool_decide_eq_false_2 ([] = [42])) by done. case_bool_decide; naive_solver.
Qed.
Lemma trailing_take n p : trailing p → trailing (take n p).
Proof.
  intros (a & Ha & Hp). destruct Hp as [->| ->].
  { exists (take n a). split; [|by left]. intros H. apply Ha. rewrite <- (take_drop n a). set_solver. }
  destruct (decide (n ≤ length a)%nat) as [Hn|Hn].
  - exists (take n a). rewrite take_app_le by done. split; [|by left].
    intros H. apply Ha. rewrite <- (take_drop n a). set_solver.
  - exists a. rewrite take_ge by (rewrite length_app; simpl; lia). auto.
Qed.

(** * Names *)

(** The two comparisons of [iso9660_findfile] decide the meaning of a usual pattern. *)
Lemma dos_fnmatch_denotes fn name : usual fn →
  (dos_fnmatch fn name false =? 0) || (dos_fnmatch fn name true =? 0) = true ↔ denotes fn name.
Proof.
  intros [_ Hu]. destruct (split_extension fn) as [p e] eqn:Ef, (split_extension name) as [n x] eqn:En.
  destruct (Hu p e ltac:(by apply split_divided)) as [Hp He].
  assert (∀ s t s' t', trailing s → trailing t →
    (let res1 := compare_with_wildcards s s' in if res1 <? 0 then res1 else
     let res2 := compare_with_wildcards t t' in if res2 <? 0 then res2 else if nz res1 || nz res2 then 1 else 0) = 0
    ↔ wild s s' ∧ wild t t') as Hparts.
  { intros s t s' t' Hs Ht. destruct (compare_trailing s s' Hs) as [[-> ?]|[-> ?]], (compare_trailing t t' Ht) as [[-> ?]|[-> ?]];
      vm_compute (if _ : bool then _ else _); naive_solver. }
  unfold dos_fnmatch. rewrite Ef, En. cbv beta iota zeta. rewrite orb_true_iff, !Z.eqb_eq.
  rewrite (Hparts p e n x Hp He), (Hparts (take 8 p) (take 3 e)) by by apply trailing_take.
  split.
  - intros H. exists p, e, n, x. rewrite !split_divided. split_and!; [done..|]. destruct H as [H|[H1 H2]]; [by left|right].
    do 2 eexists. rewrite !shortened_trim. eauto.
  - intros (p' & e' & n' & x' & D1 & D2 & H). apply split_divided in D1, D2.
    rewrite Ef in D1. rewrite En in D2. simplify_eq.
    destruct H as [H|(n1 & x1 & <-%shortened_trim & <-%shortened_trim & H)]; [by left|by right].
Qed.
End IsoMatch.
