(* ===== verification/IsoDentry.v ===== *)
(** Directory nodes of the ISO 9660 driver: opening and looking up
    ([src/fd32/modules/iso9660/dentry.c]). *)
From S2P Require Import Prelude Errno Lists Slab FatTypes FatNames IsoTypes IsoVolume IsoFile IsoNames.
Import Slab.

(** The fields of a directory record [iso9660_open] reads: those before [file_unit_size]. *)
Definition sizeof_open_fields : Z := 26.

Section dentry.
Context {W : Type} `{FatWorld W} `{Fuel}.
Notation IM := (M (iso W)).

Fixpoint find_child (de_block de_blkofs : Z) (ds : list Z) : IM (option Z) :=
  match ds with
  | [] => mret None
  | d :: ds =>
      x ← getdentry d;
      if (de_block =? d_de_block x) && (de_blkofs =? d_de_blkofs x) then mret (Some d)
      else find_child de_block de_blkofs ds
  end.

(** Zero is the null pointer. *)
Definition dentry_get (parent de_block de_blkofs flags : Z) : IM Z :=
  p ← getdentry parent;
  r ← find_child de_block de_blkofs (d_children p);
  match r with
  | Some d => iso9660_dget d;; mret d
  | None =>
      d ← on_dentries_slab slabmem_alloc;
      guard_ret (negb (nz d)) 0 (
      putdentry d (mkDentry parent [] 0 de_block de_blkofs flags);;
      iso9660_dget parent;;
      moddentry parent (λ x, x <| d_children ::= push_front d |>);;
      iso9660_dget d;;
      mret d)
  end.

Definition take_file : IM Z :=
  f ← on_files_slab slabmem_alloc;
  (if nz f then modv (λ v, v <| v_files_open ::= push_front f |>) else mret ());;
  mret f.

(** The tests of [iso9660_open] on the flags. *)
Definition open_check (d : Dentry) (flags : Z) : Z :=
  let acc := Z.land flags O_ACCMODE in
  if has flags O_CREAT || has flags O_TRUNC || (acc =? O_WRONLY) || (acc =? O_RDWR) then - EROFS
  else if has flags O_DIRECTORY && negb (has (d_flags d) ISO9660_FL_DIR) then - ENOTDIR
  else if has (d_flags d) (Z.lor ISO9660_FL_ME ISO9660_FL_REC) then - ENOTSUP
  else 0.

(** Takes a file and sets all its fields. *)
Definition open_instance (dentry flags extent data_length len_ear : Z) (t : timestamp) (file_flags : Z)
    : IM (Z * Z) :=
  f ← take_file;
  guard_ret (negb (nz f)) (- ENOMEM, 0) (
  putfile f (mkFile dentry extent data_length len_ear file_flags 0 ISO9660_FILE_MAGIC flags 1 t);;
  iso9660_dget dentry;;
  mret (0, f)).

(** Returns the C result and [*file]. *)
Definition iso9660_open (dentry flags : Z) : IM (Z * Z) :=
  d ← getdentry dentry;
  let res := open_check d flags in
  guard_ret (res <? 0) (res, 0) (
  if nz (d_parent d) then
    res ← iso9660_readbuf (d_de_block d);
    guard_ret (res <? 0) (res, 0) (
    dr ← read_data (res + d_de_blkofs d) sizeof_open_fields;
    open_instance dentry flags (dr_extent dr 0) (dr_data_length dr 0) (dr_len_ear dr 0)
      (dr_recording_time dr 0) (dr_flags dr 0))
  else
    v ← getv;
    open_instance dentry flags (v_root_extent v) (v_root_data_length v) (v_root_len_ear v)
      (v_root_recording_time v) ISO9660_FL_DIR).

(** * Lookup *)

(** [len_fi], less the version number and what follows. *)
Definition strip_version (id : bytes) (len_fi : Z) : Z :=
  match memchr id 59 (Z.to_nat len_fi) with Some sep2 => Z.of_nat sep2 | None => len_fi end.

(** The comparisons of a directory record with [fn]; [None] when the code reads beyond the
    buffer. *)
Definition record_matches (d : bytes) (p : Z) (fn : bytes) (fnsize : Z) (fnfcb : bytes) : option bool :=
  let id := dr_file_id d p in
  let len_fi := strip_version id (dr_len_fi d p) in
  if (fnsize =? len_fi) && bool_decide (take (Z.to_nat fnsize) id = take (Z.to_nat fnsize) fn) then Some true
  else
    r ← iso9660_build_fcb_name id len_fi false;
    let '(res, rnfcb) := (r : Z * bytes) in
    if res <? 0 then Some false else Some (bool_decide (fnfcb = rnfcb)).

(** [for (;;)]: the result, and the block, byte in the block and flags of the record
    found. *)
Fixpoint lookup_loop (k : nat) (f : Z) (fn : bytes) (fnsize : Z) (fnfcb : bytes) : IM (Z * Z * Z * Z) :=
  match k with
  | O => nofuel
  | S k =>
      r ← iso9660_do_readdir f;
      let '(res, de_block, de_blkofs) := r in
      if res <? 0 then mret (if res =? - ENMFILE then - ENOENT else res, 0, 0, 0)
      else
        v ← getv;
        let d := b_data (v_buffer v) in
        m ← deref (record_matches d (res + de_blkofs) fn fnsize fnfcb);
        if (m : bool) then mret (0, de_block, de_blkofs, dr_flags d (res + de_blkofs))
        else lookup_loop k f fn fnsize fnfcb
  end.

(** From the record found to the node. *)
Definition lookup_found (dentry de_block de_blkofs flags : Z) : IM (Z * Z) :=
  d ← dentry_get dentry de_block de_blkofs flags;
  if nz d then iso9660_dput dentry;; mret (0, d) else mret (- ENOMEM, dentry).

(** Returns the C result and [*dentry]. *)
Definition iso9660_lookup (dentry : Z) (fn : bytes) (fnsize : Z) : IM (Z * Z) :=
  x ← getdentry dentry;
  if negb (nz fnsize) || ((fnsize =? 1) && (byte_at fn 0 =? 46)) then
    mret (if has (d_flags x) ISO9660_FL_DIR then 0 else - ENOTDIR, dentry)
  else if (fnsize =? 2) && bool_decide (take 2 fn = [46; 46]) then
    let d := d_parent x in
    if nz d then iso9660_dget d;; iso9660_dput dentry;; mret (0, d) else mret (0, dentry)
  else
    r ← iso9660_open dentry (Z.lor O_RDONLY O_DIRECTORY);
    let '(res, f) := r in
    guard_ret (res <? 0) (res, dentry) (
    b ← deref (iso9660_build_fcb_name fn fnsize false);
    let '(res, fnfcb) := b in
    r ← (if res <? 0 then mret (res, dentry)
         else
           m ← lookup_loop fuel f fn fnsize fnfcb;
           let '(res, de_block, de_blkofs, flags) := m in
           guard_ret (res <? 0) (res, dentry) (lookup_found dentry de_block de_blkofs flags));
    iso9660_close f;;
    mret r).
End dentry.
