(* ===== verification/IsoDos.v ===== *)
(** The DOS services of the ISO 9660 driver ([src/fd32/modules/iso9660/dos.c]): FindFirst
    and FindNext on the sectors of a directory, FindFile on an open directory, attributes. *)
From S2P Require Import Prelude Errno Lists Slab FatTypes FatNames FatFile FatVolume.
From S2P Require FatDos.
From S2P Require Import IsoTypes IsoVolume IsoFile IsoNames IsoDentry.
Import Slab.

Definition FD32_ARDONLY : Z := 0x01.
Definition FD32_AHIDDEN : Z := 0x02.
Definition FD32_AVOLID : Z := 0x08.
Definition FD32_ADIR : Z := 0x10.
Definition FD32_FAHIDDEN : Z := FD32_AHIDDEN.
Definition FD32_FADIR : Z := FD32_ADIR.
Definition FD32_FRHIDDEN : Z := Z.shiftl FD32_AHIDDEN 8.
Definition FD32_FRDIR : Z := Z.shiftl FD32_ADIR 8.

(** [fd32_fs_dosfind_t], its private fields those of [PrivateFindData]. *)
Record fd32_fs_dosfind_t := mkDosFind {
  df_search_template : bytes;
  df_search_attr : Z;
  df_curr_secofs : Z;
  df_curr_sector : Z;
  df_sectors_left : Z;
  df_Attr : Z;
  df_MTime : Z;
  df_MDate : Z;
  df_Size : Z;
  df_Name : bytes }.
#[export] Instance dosfind_eta : Eta fd32_fs_dosfind_t := λ r,
  mkDosFind (df_search_template r) (df_search_attr r) (df_curr_secofs r) (df_curr_sector r) (df_sectors_left r)
    (df_Attr r) (df_MTime r) (df_MDate r) (df_Size r) (df_Name r).

(** The size of the array [n] of [iso9660_findnext]. *)
Definition findnext_id_size : Z := 100.

(** The attributes of a record with these flags. *)
Definition dos_attributes (flags : Z) : Z :=
  Z.lor (Z.lor FD32_ARDONLY (if has flags ISO9660_FL_DIR then FD32_ADIR else 0))
    (if has flags ISO9660_FL_EX then FD32_AHIDDEN else 0).

(** The flags a record may not have. *)
Definition unallowed_flags (hidden dir : bool) : Z :=
  Z.lor (if hidden then 0 else ISO9660_FL_EX) (if dir then 0 else ISO9660_FL_DIR).

(** The record at [p] of the buffer stored in the find data. *)
Definition found_record (d : bytes) (p : Z) (fcbname : bytes) (df : fd32_fs_dosfind_t) : fd32_fs_dosfind_t :=
  df <| df_Attr := dos_attributes (dr_flags d p) |>
     <| df_MTime := pack_dos_time (dr_recording_time d p) |>
     <| df_MDate := pack_dos_date (dr_recording_time d p) |>
     <| df_Size := dr_data_length d p |>
     <| df_Name ::= λ n, poke n 0 (expand_fcb_name fcbname) |>.

Section dos.
Context {W : Type} `{FatWorld W} `{Fuel}.
Notation IM := (M (iso W)).

(** The end of an iteration of [iso9660_findnext]. *)
Definition next_sector (v : Volume) (len_dr : Z) (df : fd32_fs_dosfind_t) : fd32_fs_dosfind_t :=
  if (v_bytes_per_sector v <=? df_curr_secofs df) || negb (nz len_dr) then
    df <| df_curr_secofs := 0 |> <| df_curr_sector ::= λ n, u32 (n + 1) |> <| df_sectors_left ::= λ n, u16 (n - 1) |>
  else df.

(** [for (;;)]; a match returns before the position moves to the next sector. *)
Fixpoint findnext_loop (k : nat) (unallowed_attr : Z) (df : fd32_fs_dosfind_t) : IM (Z * fd32_fs_dosfind_t) :=
  guard_ret (negb (nz (df_sectors_left df))) (- ENMFILE, df)
  match k with
  | O => nofuel
  | S k =>
      v ← getv;
      res ← iso9660_readbuf (u32 (Z.shiftl (df_curr_sector df) (v_log_blocks_per_sector v)));
      guard_ret (res <? 0) (res, df) (
      let p := res + df_curr_secofs df in
      l ← read_data p 1;
      let len_dr := byte_at l 0 in
      if negb (nz len_dr) then findnext_loop k unallowed_attr (next_sector v len_dr df)
      else
        check_record p findnext_id_size;;
        v ← getv;
        let d := b_data (v_buffer v) in
        let df := df <| df_curr_secofs ::= λ n, u16 (n + len_dr) |> in
        if has (dr_flags d p) unallowed_attr then findnext_loop k unallowed_attr (next_sector v len_dr df)
        else
          b ← deref (iso9660_build_fcb_name (dr_file_id d p) (dr_len_fi d p) false);
          let '(res, fcbname) := b in
          guard_ret (res <? 0) (res, df) (
          if iso9660_compare_fcb_names fcbname (df_search_template df) =? 0 then
            mret (0, found_record d p fcbname df)
          else findnext_loop k unallowed_attr (next_sector v len_dr df)))
  end.
Definition iso9660_findnext (df : fd32_fs_dosfind_t) : IM (Z * fd32_fs_dosfind_t) :=
  findnext_loop fuel
    (unallowed_flags (has (df_search_attr df) FD32_AHIDDEN) (has (df_search_attr df) FD32_ADIR)) df.

Definition iso9660_findfirst (dparent : Z) (fn : bytes) (fnsize attr : Z) (df : fd32_fs_dosfind_t)
    : IM (Z * fd32_fs_dosfind_t) :=
  _ ← getdentry dparent;
  if attr =? FD32_AVOLID then
    v ← getv;
    mret (0, df <| df_Attr := FD32_AVOLID |> <| df_MTime := pack_dos_time (v_root_recording_time v) |>
                <| df_MDate := pack_dos_date (v_root_recording_time v) |> <| df_Size := 0 |>
                <| df_Name := poke (take 13 (v_vol_id v)) 12 [0] |>)
  else
    b ← deref (iso9660_build_fcb_name fn fnsize true);
    let '(res, template) := b in
    let df := df <| df_search_template := template |> in
    guard_ret (res <? 0) (res, df) (
    let df := df <| df_search_attr := u8 attr |> in
    r ← iso9660_open dparent (Z.lor O_RDONLY O_DIRECTORY);
    let '(res, f) := r in
    guard_ret (res <? 0) (res, df) (
    x ← getfile f;
    v ← getv;
    let df := df <| df_curr_secofs := 0 |>
                 <| df_curr_sector := Z.shiftr (f_extent x) (v_log_blocks_per_sector v) |>
                 <| df_sectors_left := u16 (Z.shiftr (u32 (f_data_length x + v_bytes_per_sector v - 1))
                                              (v_log_bytes_per_sector v)) |> in
    iso9660_close f;;
    r ← iso9660_findnext df;
    let '(res, df) := r in
    mret (if res =? - ENMFILE then - ENOENT else res, df))).

(** * Long names *)

(** [len_fi], less the last [;] and what follows. *)
Definition strip_last_version (id : bytes) (len_fi : Z) : Z :=
  match FatDos.memrchr (take (Z.to_nat len_fi) id) 59 with Some sep2 => Z.of_nat sep2 | None => len_fi end.

(** The tests of [iso9660_findfile] on the flags of a record. *)
Definition findfile_flags_match (flags record_flags : Z) : bool :=
  let required := Z.lor (if has flags FD32_FRHIDDEN then ISO9660_FL_EX else 0)
                    (if has flags FD32_FRDIR then ISO9660_FL_DIR else 0) in
  negb (has record_flags (unallowed_flags (has flags FD32_FAHIDDEN) (has flags FD32_FADIR)))
  && (Z.land record_flags required =? required).

Definition lfn_result (d : bytes) (p : Z) (id : bytes) (lf : FatDos.fd32_fs_lfnfind_t) : FatDos.fd32_fs_lfnfind_t :=
  let t := dr_recording_time d p in
  let stamp := Z.lor (pack_dos_time t) (Z.shiftl (pack_dos_date t) 16) in
  FatDos.mkLfnFind (dos_attributes (dr_flags d p)) stamp 0 stamp 0 (dr_data_length d p)
    (poke (FatDos.lf_LongName lf) 0 (id ++ [0])) (poke (FatDos.lf_ShortName lf) 0 (short_name id)).

(** [for (;;)]. An identifier is shorter than [LongName]. *)
Fixpoint findfile_loop (k : nat) (f : Z) (fn : bytes) (flags : Z) (lf : FatDos.fd32_fs_lfnfind_t)
    : IM (Z * FatDos.fd32_fs_lfnfind_t) :=
  match k with
  | O => nofuel
  | S k =>
      r ← iso9660_do_readdir f;
      let '(res, _, de_blkofs) := r in
      guard_ret (res <? 0) (res, lf) (
      v ← getv;
      let d := b_data (v_buffer v) in
      let p := res + de_blkofs in
      if negb (findfile_flags_match flags (dr_flags d p)) then findfile_loop k f fn flags lf
      else
        let id := take (Z.to_nat (strip_last_version (dr_file_id d p) (dr_len_fi d p))) (dr_file_id d p) in
        if (dos_fnmatch fn id false =? 0) || (dos_fnmatch fn id true =? 0) then
          mret (0, lfn_result d p id lf)
        else findfile_loop k f fn flags lf)
  end.
Definition iso9660_findfile (f : Z) (fn : bytes) (flags : Z) (lf : FatDos.fd32_fs_lfnfind_t)
    : IM (Z * FatDos.fd32_fs_lfnfind_t) :=
  findfile_loop fuel f fn flags lf.

(** * Attributes *)

Definition iso9660_get_attr (f : Z) (a : fd32_fs_attr_t) : IM (Z * fd32_fs_attr_t) :=
  x ← getfile f;
  guard_ret (negb (f_magic x =? ISO9660_FILE_MAGIC)) (- EBADF, a) (
  guard_ret (a_Size a <? sizeof_fs_attr) (- EINVAL, a) (
  let date := pack_dos_date (f_timestamp x) in
  let time := pack_dos_time (f_timestamp x) in
  mret (0, mkFsAttr (a_Size a) (dos_attributes (f_file_flags x)) date time 0 date time 0))).

Definition iso9660_get_fsfree (p : fd32_getfsfree_t) : IM (Z * fd32_getfsfree_t) :=
  guard_ret (ff_Size p <? sizeof_fsfree) (- EINVAL, p) (
  v ← getv;
  guard_ret (negb (v_magic v =? ISO9660_VOL_MAGIC)) (- ENODEV, p) (
  res ← iso9660_blockdev_test_unit_ready;
  guard_ret (res <? 0) (res, p) (
  v ← getv;
  mret (0, mkFsFree (ff_Size p) 1 (v_bytes_per_sector v) 0 (v_vol_space v))))).
End dos.
