(* ===== verification/IsoPath.v ===== *)
(** Path name resolution of the ISO 9660 driver ([src/fd32/modules/iso9660/pathreso.c]).
    A path name is its bytes from the pointer on, with its size. *)
From S2P Require Import Prelude Errno Lists Slab FatTypes.
From S2P Require FatOpen FatPath.
From S2P Require Import IsoTypes IsoVolume IsoFile IsoNames IsoDentry IsoDos.
Import Slab.

Definition EMPTY_PATHNAME_ERROR : Z := EINVAL.
Definition PATH_SEP : Z := 92.

(** [for (; pnsize; pn++, pnsize--)]: the offset of the last component; [i] is the offset
    of [pn]. *)
Fixpoint base_from (pn : bytes) (n : nat) (i res : Z) : Z :=
  match n with
  | O => res
  | S n => base_from (tail pn) n (i + 1) (if byte_at pn 0 =? PATH_SEP then i + 1 else res)
  end.
Definition get_base_name (pn : bytes) (pnsize : Z) : Z := base_from pn (Z.to_nat pnsize) 0 0.

(** One iteration of the outer loop of [resolve_path]: the component and its size, and
    what is left of the path name. *)
Definition next_component (pn : bytes) (pnsize : nat) : (bytes * nat) * (bytes * nat) :=
  let '(comp, n) := FatPath.skip_while (λ c, c =? PATH_SEP) pn pnsize in
  let '(pn, n') := FatPath.skip_while (λ c, negb (c =? PATH_SEP)) comp n in
  ((comp, (n - n')%nat), (pn, n')).

Section path.
Context {W : Type} `{FatWorld W} `{Fuel}.
Notation IM := (M (iso W)).

(** [while (pnsize)]: every iteration consumes a byte. Returns the C result and
    [*dentry]. *)
Fixpoint resolve_loop (k : nat) (dentry : Z) (pn : bytes) (pnsize : nat) : IM (Z * Z) :=
  match pnsize, k with
  | O, _ => mret (0, dentry)
  | S _, O => nofuel
  | S _, S k =>
      let '((comp, n), (pn, pnsize)) := next_component pn pnsize in
      r ← iso9660_lookup dentry comp (Z.of_nat n);
      let '(res, dentry) := r in
      guard_ret (res <? 0) (res, dentry) (resolve_loop k dentry pn pnsize)
  end.
Definition resolve_path (dentry : Z) (pn : bytes) (pnsize : Z) : IM (Z * Z) :=
  resolve_loop (Z.to_nat pnsize) dentry pn (Z.to_nat pnsize).

(** Opening the node the path name designates: the C result and [*file]. *)
Definition open_existing (dentry flags : Z) : IM (Z * Z) :=
  if has flags O_CREAT && has flags O_EXCL then mret (- EEXIST, 0)
  else
    r ← iso9660_open dentry flags;
    let '(res, f) := r in
    if res <? 0 then mret (res, 0)
    else if has flags O_TRUNC then iso9660_close f;; mret (EROFS, f)
    else mret (FatOpen.FD32_OROPEN, f).

(** Returns the C result and [*file]. *)
Definition iso9660_open_pr (dentry : Z) (pn : bytes) (pnsize flags mode : Z) : IM (Z * Z) :=
  _ ← getdentry dentry;
  guard_ret (negb (nz pnsize)) (- EMPTY_PATHNAME_ERROR, 0) (
  let bn := get_base_name pn pnsize in
  let bnsize := pnsize - bn in
  iso9660_dget dentry;;
  r ← resolve_path dentry pn bn;
  let '(res, dentry) := r in
  r ← (if res <? 0 then mret (res, dentry, 0)
       else
         r ← resolve_path dentry (drop (Z.to_nat bn) pn) bnsize;
         let '(res, dentry) := r in
         if negb (nz res) then r ← open_existing dentry flags; mret (r.1, dentry, r.2)
         else if (res =? - ENOENT) && has flags O_CREAT then mret (EROFS, dentry, 0)
         else mret (res, dentry, 0));
  let '(res, dentry, f) := r in
  iso9660_dput dentry;;
  mret (res, f)).

Definition iso9660_findfirst_pr (dentry : Z) (pn : bytes) (pnsize attr : Z) (df : fd32_fs_dosfind_t)
    : IM (Z * fd32_fs_dosfind_t) :=
  _ ← getdentry dentry;
  guard_ret (negb (nz pnsize)) (- EMPTY_PATHNAME_ERROR, df) (
  let bn := get_base_name pn pnsize in
  let bnsize := pnsize - bn in
  iso9660_dget dentry;;
  r ← resolve_path dentry pn bn;
  let '(res, dentry) := r in
  r ← (if negb (nz res) then iso9660_findfirst dentry (drop (Z.to_nat bn) pn) bnsize attr df
       else mret (res, df));
  iso9660_dput dentry;;
  mret r).
End path.
