(* ===== verification/IsoRequest.v ===== *)
(** The request function of the ISO 9660 driver ([iso9660_request] of
    [src/fd32/modules/iso9660/fd32.c]): what the kernel calls. *)
From S2P Require Import Prelude Errno Lists Slab FatTypes FatFile FatVolume.
From S2P Require FatDos FatRequest.
From S2P Require Import IsoTypes IsoVolume IsoFile IsoNames IsoDentry IsoDos IsoPath.
Import Slab.

(** A function code with the fields of its parameters the driver reads. The volume of a
    request is the mounted one; a string comes without its final zero. *)
Inductive request :=
| FD32_READ (DeviceId : Z) (Buffer : bool) (BufferBytes : Z)
| FD32_LSEEK (DeviceId Offset Origin : Z)
| FD32_OPENFILE (FileName : bytes) (Mode Attr : Z)
| FD32_CLOSE (DeviceId : Z)
| FD32_FINDFIRST (path : bytes) (attrib : Z) (find_data : fd32_fs_dosfind_t)
| FD32_FINDNEXT (find_data : fd32_fs_dosfind_t)
| FD32_FINDFILE (dir : Z) (name : bytes) (flags : Z) (find_data : FatDos.fd32_fs_lfnfind_t)
| FD32_OPEN (DeviceId : Z)
| FD32_GETATTR (FileId : Z) (Attr : fd32_fs_attr_t)
| FD32_MOUNT (BlkDev : bytes)
| FD32_UNMOUNT
| FD32_GETFSFREE (params : fd32_getfsfree_t)
| FD32_OTHER (function : Z).

(** What a request stores through its parameters. *)
Inductive reply :=
| RNothing
| RBytes (l : bytes)
| ROffset (p : Z)
| RHandle (f : Z)
| RDosFind (df : fd32_fs_dosfind_t)
| RLfnFind (lf : FatDos.fd32_fs_lfnfind_t)
| RAttr (a : fd32_fs_attr_t)
| RFsFree (i : fd32_getfsfree_t).

(** The memory from a string on. *)
Definition c_string (s : bytes) : bytes := s ++ [0].

Section request.
Context {W : Type} `{FatWorld W} `{Fuel}.
Notation IM := (M (iso W)).

(** [res = iso9660_blockdev_test_unit_ready(v); if (res < 0) return res] *)
Definition when_ready (k : IM (Z * reply)) : IM (Z * reply) :=
  res ← iso9660_blockdev_test_unit_ready;
  guard_ret (res <? 0) (res, RNothing) k.

(** [f->dentry->v] is read first. *)
Definition on_file (f : Z) (k : IM (Z * reply)) : IM (Z * reply) :=
  x ← getfile f;
  _ ← getdentry (f_dentry x);
  when_ready k.

(** [if (v->magic != ISO9660_VOL_MAGIC) return -ENODEV] *)
Definition on_volume (k : IM (Z * reply)) : IM (Z * reply) :=
  v ← getv;
  guard_ret (negb (v_magic v =? ISO9660_VOL_MAGIC)) (- ENODEV, RNothing) (when_ready k).

(** [if (f->magic != ISO9660_FILE_MAGIC) return -EBADF] *)
Definition valid_file (f : Z) (k : IM (Z * reply)) : IM (Z * reply) :=
  x ← getfile f;
  guard_ret (negb (f_magic x =? ISO9660_FILE_MAGIC)) (- EBADF, RNothing) k.

Definition plain (m : IM Z) : IM (Z * reply) := r ← m; mret (r, RNothing).
Definition with_reply {A} (f : A → reply) (m : IM (Z * A)) : IM (Z * reply) :=
  r ← m; mret (r.1, f r.2).

Definition iso9660_request (function : request) : IM (Z * reply) :=
  match function with
  | FD32_READ f buffer n => on_file f (with_reply RBytes (iso9660_read f buffer n))
  | FD32_LSEEK f offset origin =>
      res ← iso9660_lseek f offset origin;
      if res <? 0 then mret (s32 res, RNothing) else mret (0, ROffset res)
  | FD32_OPENFILE name mode attr =>
      when_ready (with_reply RHandle
        (iso9660_open_pr root_dentry (c_string name) (FatRequest.size_of name) mode attr))
  | FD32_CLOSE f => on_file f (plain (iso9660_close f))
  | FD32_FINDFIRST path attrib df =>
      on_volume (with_reply RDosFind
        (iso9660_findfirst_pr root_dentry (c_string path) (FatRequest.size_of path) attrib df))
  | FD32_FINDNEXT df => on_volume (with_reply RDosFind (iso9660_findnext df))
  | FD32_FINDFILE f name flags lf =>
      valid_file f (on_file f (with_reply RLfnFind (iso9660_findfile f name flags lf)))
  | FD32_OPEN f =>
      valid_file f (
        modfile f (λ x, x <| f_references ::= λ n, u32 (n + 1) |>);;
        x ← getfile f;
        mret (s32 (f_references x), RNothing))
  | FD32_GETATTR f a => with_reply RAttr (iso9660_get_attr f a)
  | FD32_MOUNT blk => with_reply RHandle (iso9660_mount blk)
  | FD32_UNMOUNT => on_volume (plain iso9660_unmount)
  | FD32_GETFSFREE p => with_reply RFsFree (iso9660_get_fsfree p)
  | FD32_OTHER _ => mret (- ENOTSUP, RNothing)
  end.
End request.
