(* ===== verification/IsoRead.v ===== *)
(** Correctness of [iso9660_readbuf] and [iso9660_read] ([IsoVolume], [IsoFile]) on a volume
    with logical blocks of one sector: the buffer holds the block asked for, and a read
    returns the bytes of the extent of the file from the file pointer on. *)
From S2P Require Import Prelude Errno Lists Slab FatTypes FatBuffer.
From S2P Require Import FatRead.
From S2P Require Import IsoTypes IsoVolume IsoFile.
(** * The disc

    What the driver relies on of the device of a medium that is not removed, after the
    documentation of [struct BlockOperations] in [src/fd32/modules/block/block.h]:
    [disc_size w] sectors of 2048 bytes, which no call changes. *)
Class FixedDisc (W : Type) `{FatWorld W} := {
  disc_size : W → Z;
  disc : W → Z → bytes;
  disc_length w n : 0 ≤ n < disc_size w → length (disc w n) = 2048%nat;
  disc_read from w :
    0 ≤ from < disc_size w →
    (bops_read from 1 0 w).1 = (1, disc w from)
    ∧ disc_size (bops_read from 1 0 w).2 = disc_size w
    ∧ ∀ n, disc (bops_read from 1 0 w).2 n = disc w n }.

Section read.
Context {W : Type} `{FW : FatWorld W} `{FD : !FixedDisc W} `{FL : Fuel}.
Implicit Types (s : iso W) (v : Volume) (x : File).

(** * Volumes and their buffer *)

(** Logical blocks of 2048 bytes. *)
Record geometry_ok v : Prop := {
  go_bps : v_bytes_per_sector v = 2048;
  go_log_bps : v_log_bytes_per_sector v = 11;
  go_block : v_block_size v = 2048;
  go_log_block : v_log_block_size v = 11;
  go_blocks : v_blocks_per_sector v = 1;
  go_log_blocks : v_log_blocks_per_sector v = 0 }.

(** A valid buffer holds its block. *)
Record buffer_ok (d : Z → bytes) (b : Buffer) : Prop := {
  bo_length : length (b_data b) = 2048%nat;
  bo_data : b_valid b = true → b_data b = d (b_block b);
  bo_block : b_valid b = true → 0 ≤ b_block b < 2 ^ 32 - 1 }.

(** The volume mounted on a disc of sectors of 2048 bytes. *)
Record cd_ok s v : Prop := {
  cd_vol : i_vol s = Some v;
  cd_geo : geometry_ok v;
  cd_buffer : buffer_ok (disc (i_world s)) (v_buffer v) }.

(** Two volumes that differ by the buffer and its counters. *)
Definition same_volume v v' : Prop :=
  v' = v <| v_buffer := v_buffer v' |> <| v_buf_access := v_buf_access v' |>
         <| v_buf_miss := v_buf_miss v' |> <| v_buf_hit := v_buf_hit v' |>.

(** What reading the disc leaves unchanged. *)
Record frame s v s' v' : Prop := {
  fr_vol : same_volume v v';
  fr_files : i_files s' = i_files s;
  fr_dentries : i_dentries s' = i_dentries s;
  fr_words : i_words s' = i_words s;
  fr_pages : i_pages s' = i_pages s;
  fr_size : disc_size (i_world s') = disc_size (i_world s);
  fr_disk : ∀ n, disc (i_world s') n = disc (i_world s) n }.

Lemma iso_frame_refl s v : frame s v s v.
Proof. split; try done. by destruct v. Qed.
Lemma iso_frame_trans s v s1 v1 s2 v2 : frame s v s1 v1 → frame s1 v1 s2 v2 → frame s v s2 v2.
Proof.
  intros [A1 A2 A3 A4 A5 A6 A7] [B1 B2 B3 B4 B5 B6 B7].
  split; [|congruence..|intros; by rewrite B7, A7].
  unfold same_volume in *. rewrite B1, A1. done.
Qed.
Lemma frame_geometry s v s' v' : frame s v s' v' → geometry_ok v → geometry_ok v'.
Proof. intros [-> _ _ _ _ _ _] []. split; done. Qed.

Lemma iso_wp_getv (Q : Volume → iso W → Prop) s v : i_vol s = Some v → Q v s → wp getv Q s.
Proof. intros E ?. unfold getv. by wp_steps. Qed.
Lemma iso_wp_modv g (Q : () → iso W → Prop) s v :
  i_vol s = Some v → Q tt (s <| i_vol := Some (g v) |>) → wp (modv g) Q s.
Proof. intros E ?. unfold modv. wp_steps. eapply iso_wp_getv; [done|]. by wp_steps. Qed.
Lemma iso_wp_getfile f x (Q : File → iso W → Prop) s : i_files s !! f = Some x → Q x s → wp (getfile f) Q s.
Proof. intros E ?. unfold getfile. by wp_steps. Qed.
Lemma iso_wp_getdentry d (x : Dentry) (Q : Dentry → iso W → Prop) s :
  i_dentries s !! d = Some x → Q x s → wp (getdentry d) Q s.
Proof. intros E ?. unfold getdentry. by wp_steps. Qed.

(** * Fetching a block *)

(** The device reads a sector in the buffer. *)
Lemma wp_fetch s v n (Q : Z → iso W → Prop) :
  i_vol s = Some v → length (b_data (v_buffer v)) = 2048%nat → 0 ≤ n < disc_size (i_world s) →
  (∀ w', disc_size w' = disc_size (i_world s) → (∀ k, disc w' k = disc (i_world s) k) →
    Q 1 (s <| i_world := w' |>
           <| i_vol := Some (v <| v_buffer ::= λ b, b <| b_data := disc (i_world s) n |> |>) |>)) →
  wp (iso9660_blockdev_read 1 n) Q s.
Proof.
  intros Hv Hlen Hn HQ. unfold iso9660_blockdev_read. cbn [blockdev_retry]. wp_step. cbv beta.
  unfold bops_read_buffer, call. wp_steps.
  destruct (disc_read n (i_world s) Hn) as (E & Es & Ed).
  pose proof (disc_length (i_world s) n Hn) as Hd.
  destruct (bops_read n 1 0 (i_world s)) as [r w']. simpl in *. subst r.
  eapply iso_wp_getv; [done|]. simpl. unfold in_block. rewrite Hlen, Hd. simpl.
  unfold modbuf. wp_steps. eapply iso_wp_modv; [done|]. wp_steps.
  assert (poke (b_data (v_buffer v)) 0 (disc (i_world s) n) = disc (i_world s) n) as ->.
  { unfold poke. simpl. rewrite drop_ge by lia. apply app_nil_r. }
  by apply HQ.
Qed.

Lemma in_buffer_block d v n :
  geometry_ok v → buffer_ok d (v_buffer v) → in_buffer v n = true →
  b_valid (v_buffer v) = true ∧ b_block (v_buffer v) = n.
Proof.
  intros G B. unfold in_buffer. rewrite (go_blocks _ G). intros I.
  apply andb_prop in I as [I I2]. apply andb_prop in I as [I0 I1]. split; [done|].
  pose proof (bo_block _ _ B I0). unfold u32 in I2. rewrite Z.mod_small in I2 by lia. lia.
Qed.

(** The buffer holds the block at the offset returned. *)
Lemma wp_iso_readbuf s v n (Q : Z → iso W → Prop) :
  cd_ok s v → 0 ≤ n < disc_size (i_world s) → n < 2 ^ 32 - 1 →
  (∀ s' v', cd_ok s' v' → frame s v s' v' → b_data (v_buffer v') = disc (i_world s) n → Q 0 s') →
  wp (iso9660_readbuf n) Q s.
Proof.
  intros [Hv G B] Hn Hn32 HQ. unfold iso9660_readbuf. wp_step. cbv beta.
  eapply iso_wp_modv; [done|]. wp_step. eapply iso_wp_getv; [done|]. wp_step.
  assert (∀ r s', r = 0 → Q 0 s' → Q r s') as Q0 by (by intros ? ? ->).
  set (v1 := v <| v_buf_hit ::= λ n, u32 (n + 1) |>).
  assert (geometry_ok v1) as G1 by (destruct G; split; done).
  destruct (in_buffer v1 n) eqn:I.
  - apply (in_buffer_block (disc (i_world s))) in I as [I E]; [|done..]. simpl in E.
    wp_step. unfold guard_ret. cbn [negb]. wp_step. eapply iso_wp_modv; [done|].
    wp_step. eapply iso_wp_getv; [done|]. wp_step.
    apply Q0; [simpl; by rewrite E, Z.sub_diag, (go_log_bps _ G)|]. eapply HQ.
    + split; [done| |done]. destruct G; split; done.
    + split; done.
    + simpl. subst n. apply B, I.
  - cbv zeta. wp_step. eapply iso_wp_modv; [done|]. wp_step. unfold modbuf at 1. eapply iso_wp_modv; [done|].
    replace (Z.shiftr n (v_log_blocks_per_sector v1)) with n by (rewrite (go_log_blocks _ G1); by rewrite Z.shiftr_0_r).
    wp_step. eapply wp_fetch; [done|apply B|done|]. intros w' Hs Hd. cbv beta. change (1 =? 1) with true.
    cbn [negb]. wp_step. unfold modbuf at 1. eapply iso_wp_modv; [done|]. wp_step.
    unfold guard_ret. cbn [negb]. wp_step. eapply iso_wp_modv; [done|].
    wp_step. eapply iso_wp_getv; [done|]. wp_step.
    assert (u32 (Z.shiftl n (v_log_blocks_per_sector v1)) = n) as En.
    { rewrite (go_log_blocks _ G1), Z.shiftl_0_r. apply u32_small. lia. }
    apply Q0; [simpl; simpl in En; by rewrite En, Z.sub_diag, (go_log_bps _ G)|]. eapply HQ.
    + split; [done|destruct G; split; done|]. simpl in *. split; simpl; rewrite ?En; [|done|lia].
      by apply disc_length.
    + split; done.
    + done.
Qed.
(** * Files *)

(** Byte [i] of a file: its extent follows the extended attribute record. *)
Definition file_byte (d : Z → bytes) x (i : Z) : Z :=
  byte_at (d (f_extent x + f_len_ear x + i / 2048)) (i mod 2048).

(** The extent is on the disc. *)
Record file_ok (size : Z) x : Prop := {
  fo_extent : 0 ≤ f_extent x;
  fo_len_ear : 0 ≤ f_len_ear x;
  fo_length : 0 ≤ f_data_length x < 2 ^ 32;
  fo_end : f_extent x + f_len_ear x + (f_data_length x + 2047) / 2048 ≤ size;
  fo_size : size < 2 ^ 32 }.

Lemma file_byte_ext d d' x i : (∀ n, d n = d' n) → file_byte d x i = file_byte d' x i.
Proof. intros E. unfold file_byte. by rewrite E. Qed.

Lemma logical_block_eq v x size offset :
  geometry_ok v → file_ok size x → 0 ≤ offset < f_data_length x →
  logical_block v x offset = f_extent x + f_len_ear x + offset / 2048
  ∧ 0 ≤ f_extent x + f_len_ear x + offset / 2048 < size
  ∧ byte_in_block v offset = offset mod 2048.
Proof.
  intros G [? ? ? ? ?] Ho. unfold logical_block, byte_in_block.
  rewrite (go_log_block _ G), (go_block _ G), shiftr_div by lia. change (2 ^ 11) with 2048.
  assert (0 ≤ offset / 2048) by (apply Z.div_pos; lia).
  assert (offset / 2048 < (f_data_length x + 2047) / 2048).
  { apply Z.div_lt_upper_bound; [lia|]. pose proof (Z.mul_succ_div_gt (f_data_length x + 2047) 2048). lia. }
  rewrite u32_small by lia. split_and!; [done|lia..|].
  change (2048 - 1) with (Z.ones 11). rewrite Z.land_ones by lia. change (2 ^ 11) with 2048.
  apply u32_small. pose proof (Z.mod_pos_bound offset 2048). lia.
Qed.

Lemma iso_read_count_eq v x size offset k :
  geometry_ok v → file_ok size x → 0 ≤ offset < f_data_length x → ∀ sz, 0 ≤ k < sz → sz < 2 ^ 31 →
  let m := Z.min (sz - k) (f_data_length x - offset) in
  read_count v x sz offset k = Z.min (2048 - offset mod 2048) m.
Proof.
  intros G O Ho sz Hk Hsz m. destruct (logical_block_eq v x size offset) as (_ & _ & Eb); [done..|].
  pose proof (fo_length _ _ O). pose proof (Z.mod_pos_bound offset 2048).
  unfold read_count. rewrite Eb, (go_block _ G). rewrite (u32_small (2048 - _)) by lia.
  assert (u32 (f_data_length x - offset) = f_data_length x - offset) as -> by (apply u32_small; lia).
  rewrite (u32_small (sz - k)) by lia.
  destruct (Z.leb_spec (f_data_length x) (offset + (2048 - offset mod 2048)));
    match goal with |- context [u32 (k + ?e)] => rewrite (u32_small (k + e)) by lia; destruct (Z.ltb_spec sz (k + e)) end;
    lia.
Qed.

(** The bytes of a file in one block of it. *)
Lemma block_bytes (d : Z → bytes) x offset c :
  length (d (f_extent x + f_len_ear x + offset / 2048)) = 2048%nat → 0 ≤ c → offset mod 2048 + c ≤ 2048 →
  slice (d (f_extent x + f_len_ear x + offset / 2048)) (offset mod 2048) c = tabulate (file_byte d x) offset c.
Proof.
  intros Hl Hc Hle. pose proof (Z.mod_pos_bound offset 2048).
  rewrite slice_tabulate by lia. apply tabulate_shift. intros i Hi. unfold file_byte.
  pose proof (Z.div_mod offset 2048).
  assert ((offset + i) / 2048 = offset / 2048) as ->
    by (symmetry; apply (Z.div_unique _ _ _ (offset mod 2048 + i)); lia).
  assert ((offset + i) mod 2048 = offset mod 2048 + i) as ->
    by (symmetry; apply (Z.mod_unique _ _ (offset / 2048)); lia).
  done.
Qed.

Lemma wp_read_bytes s v ofs n (Q : bytes → iso W → Prop) :
  i_vol s = Some v → 0 ≤ ofs → 0 ≤ n → ofs + n ≤ Z.of_nat (length (b_data (v_buffer v))) →
  Q (slice (b_data (v_buffer v)) ofs n) s → wp (read_data ofs n) Q s.
Proof.
  intros Hv Ho Hn Hle HQ. unfold read_data. wp_step. eapply iso_wp_getv; [done|]. cbv zeta.
  unfold in_block. rewrite !(proj2 (Z.leb_le _ _)) by lia. simpl. by wp_step.
Qed.

(** How many bytes a read of [size] bytes at [offset] returns. *)
Definition read_len x (size offset : Z) : Z := Z.max 0 (Z.min size (f_data_length x - offset)).

Lemma wp_iso_read_loop n x size s v offset k acc (Q : Z * Z * bytes → iso W → Prop) :
  cd_ok s v → file_ok (disc_size (i_world s)) x → 0 ≤ offset → 0 ≤ k → size < 2 ^ 31 → size - k ≤ Z.of_nat n →
  (∀ s' v', cd_ok s' v' → frame s v s' v' →
    let m := read_len x (size - k) offset in
    Q (k + m, offset + m, acc ++ tabulate (file_byte (disc (i_world s)) x) offset m) s') →
  wp (read_loop n x size offset k acc) Q s.
Proof.
  revert s v offset k acc. induction n as [|n IH]; intros s v offset k acc C O Ho Hk Hsz Hn HQ; cbn [read_loop];
    (destruct ((k <? size) && (offset <? f_data_length x)) eqn:E;
     [|wp_step; specialize (HQ s v C (iso_frame_refl _ _)); cbv zeta in HQ;
       replace (read_len x (size - k) offset) with 0 in HQ by (unfold read_len; lia);
       rewrite !Z.add_0_r in HQ; unfold tabulate in HQ; simpl in HQ; by rewrite app_nil_r in HQ]); [lia|].
  apply andb_prop in E as [E1 E2].
  destruct (logical_block_eq v x (disc_size (i_world s)) offset) as (El & Hl & Eb); [apply C|done|lia|].
  pose proof (iso_read_count_eq v x (disc_size (i_world s)) offset k) as Ec.
  specialize (Ec (cd_geo _ _ C) O ltac:(lia) size ltac:(lia) Hsz). cbv zeta in Ec.
  pose proof (fo_size _ _ O). pose proof (Z.mod_pos_bound offset 2048).
  wp_step. eapply iso_wp_getv; [apply C|]. wp_step. rewrite El, Eb.
  eapply wp_iso_readbuf; [done|done|lia|]. intros s1 v1 C1 F1 D1.
  unfold guard_ret. change (0 <? 0) with false. cbn [negb]. cbv iota zeta. rewrite Ec.
  set (c := Z.min _ _) in *.
  wp_step. eapply wp_read_bytes; [apply C1|lia|lia|rewrite (bo_length _ _ (cd_buffer _ _ C1)); lia|].
  rewrite D1, Z.add_0_l, block_bytes.
  2: { rewrite <- D1. apply C1. } 2, 3: lia.
  replace (u32 (k + c)) with (k + c) by (symmetry; apply u32_small; lia).
  eapply IH; [exact C1|by rewrite (fr_size _ _ _ _ F1)|lia..|].
  intros s' v' C' F'. specialize (HQ s' v' C' (iso_frame_trans _ _ _ _ _ _ F1 F')). cbv zeta in HQ |- *.
  replace (read_len x (size - k) offset) with (c + read_len x (size - (k + c)) (offset + c)) in HQ
    by (unfold read_len; lia).
  rewrite tabulate_add in HQ by (unfold read_len; lia).
  rewrite <- !app_assoc. rewrite !Z.add_assoc in HQ.
  erewrite (tabulate_ext (file_byte (disc (i_world s1)) x)); [exact HQ|].
  intros i _. apply file_byte_ext, F1.
Qed.
End read.

(** * Theorems *)

Section theorems.
Context {W : Type} `{FW : FatWorld W} `{FD : !FixedDisc W} `{FL : Fuel}.

(** C35: reading an open file of a CD-ROM (logical blocks of one sector) returns the bytes
    of its extent from the file pointer on, as many as asked for or left in the file, and
    advances the pointer by as many; the disc and the other files and nodes do not change,
    and the buffer still holds what the disc does. *)
Theorem iso9660_read_correct (s : iso W) v f x d size :
  cd_ok s v → file_ok (disc_size (i_world s)) x → nz f = true → i_files s !! f = Some x →
  i_dentries s !! f_dentry x = Some d → f_magic x = ISO9660_FILE_MAGIC →
  Z.land (f_open_flags x) O_ACCMODE = O_RDONLY → 0 ≤ f_file_pointer x → 0 ≤ size < 2 ^ 31 →
  let n := read_len x size (f_file_pointer x) in
  wp (iso9660_read f true size) (λ r s',
    r = (n, tabulate (file_byte (disc (i_world s)) x) (f_file_pointer x) n)
    ∧ i_files s' = <[f := x <| f_file_pointer := f_file_pointer x + n |>]> (i_files s)
    ∧ i_dentries s' = i_dentries s
    ∧ (∀ k, disc (i_world s') k = disc (i_world s) k)
    ∧ ∃ v', cd_ok s' v' ∧ same_volume v v') s.
Proof.
  intros C O Hf Hx Hd Hm Hacc Hp Hsz n. unfold iso9660_read, guard_ret. rewrite Hf. simpl.
  wp_step. eapply iso_wp_getfile; [done|].
  rewrite (proj2 (Z.eqb_eq _ _) Hm), (proj2 (Z.eqb_eq _ _) Hacc). simpl.
  wp_step. eapply iso_wp_getdentry; [done|]. wp_step.
  eapply wp_iso_read_loop; [done..|lia|lia|lia|]. rewrite Z.sub_0_r. intros s' v' C' F. cbv zeta. fold n.
  assert (0 ≤ n < 2 ^ 31) by (unfold n, read_len; lia).
  rewrite (proj2 (Z.ltb_ge _ 0)) by lia. wp_step. unfold modfile.
  wp_step. eapply iso_wp_getfile; [by rewrite (fr_files _ _ _ _ F)|]. unfold putfile. rewrite Hf.
  wp_steps. split; [|split; [|split; [|split]]].
  - f_equal. apply s32_small. lia.
  - by rewrite (fr_files _ _ _ _ F).
  - apply F.
  - apply F.
  - exists v'. split; [|apply F]. destruct C'. by split.
Qed.

(** C36: on a volume with logical blocks smaller than a sector, [iso9660_readbuf] finds a
    block that is not the first of the sector in the buffer but returns an offset in bytes
    shifted by the size of the sector: it is past the end of the buffer. *)
Theorem iso9660_readbuf_small_blocks (s : iso W) v n :
  i_vol s = Some v → v_log_bytes_per_sector v = 11 → in_buffer v n = true →
  b_block (v_buffer v) < n < 2 ^ 20 → length (b_data (v_buffer v)) = 2048%nat →
  0 ≤ b_block (v_buffer v) →
  wp (iso9660_readbuf n) (λ res s',
    2048 ≤ res ∧ ∀ m, 0 < m → read_data res m s' = Fault) s.
Proof.
  intros Hv Hlog Hin Hn Hlen Hb. unfold iso9660_readbuf. wp_step. eapply iso_wp_modv; [done|]. wp_step.
  eapply iso_wp_getv; [done|]. wp_step.
  match goal with |- context [in_buffer ?w n] => change (in_buffer w n) with (in_buffer v n) end.
  rewrite Hin. wp_step. unfold guard_ret. cbn [negb]. wp_step. eapply iso_wp_modv; [done|].
  wp_step. eapply iso_wp_getv; [done|]. wp_step. simpl. rewrite Hlog.
  rewrite (u32_small (n - _)) by lia. rewrite shiftl_mul by lia.
  rewrite u32_small by lia. rewrite s32_small by lia. split; [lia|]. intros m Hm.
  unfold read_data, getv, mbind, M_bind, gets, deref. simpl. unfold in_block. rewrite Hlen.
  rewrite (proj2 (Z.leb_gt (_ + m) _)) by lia. by rewrite andb_false_r.
Qed.
End theorems.

From S2P Require Import FatDos IsoNames IsoDentry IsoDos.

(** Directories of the ISO 9660 driver: [iso9660_do_readdir] and the search of
    [iso9660_lookup] ([IsoFile], [IsoDentry]) against the sequence of the records in the
    bytes of the directory. *)
Module IsoDir.
(** * The records of a directory

    [d] is the disc, [x] the open directory; a record is designated by its position in
    the directory. *)
Section records.
Context (d : Z → bytes) (x : File).

(** The sector of a position, and the record there. *)
Definition sector_of (i : Z) : bytes := d (f_extent x + f_len_ear x + i / 2048).
Definition len_dr_at (i : Z) : Z := dr_len_dr (sector_of i) (i mod 2048).

(** The first record from a position on: a record of no length ends the records of its
    sector. *)
Fixpoint next_record (n : nat) (i : Z) : option Z :=
  if f_data_length x <=? i then None
  else match n with
  | O => None
  | S n => if len_dr_at i =? 0 then next_record n (i + (2048 - i mod 2048)) else Some i
  end.
Definition record_from (i : Z) : option Z := next_record (Z.to_nat (f_data_length x)) i.

(** The records from a position on. *)
Fixpoint records_from (k : nat) (i : Z) : list Z :=
  match k with
  | O => []
  | S k => match record_from i with Some p => p :: records_from k (p + len_dr_at p) | None => [] end
  end.

(** The record is in its sector, its identifier in the array of [iso9660_do_readdir]. *)
Definition record_ok (p : Z) : bool :=
  record_in (sector_of p) (p mod 2048) && (dr_len_fi (sector_of p) (p mod 2048) <? readdir_id_size).

Lemma next_record_spec n i p :
  0 ≤ i → next_record n i = Some p → i ≤ p < f_data_length x ∧ len_dr_at p ≠ 0.
Proof.
  revert i. induction n as [|n IH]; intros i Hi; cbn [next_record];
    destruct (Z.leb_spec (f_data_length x) i); try done.
  destruct (Z.eqb_spec (len_dr_at i) 0).
  - pose proof (Z.mod_pos_bound i 2048). intros E. apply IH in E; lia.
  - intros [= <-]. split; [lia|done].
Qed.

(** With enough steps the search does not depend on their number. *)
Lemma next_record_enough n m i :
  f_data_length x - i ≤ Z.of_nat n → f_data_length x - i ≤ Z.of_nat m → next_record n i = next_record m i.
Proof.
  revert m i. induction n as [|n IH]; intros m i Hn Hm.
  - destruct m; cbn [next_record]; rewrite (proj2 (Z.leb_le _ _)) by lia; done.
  - destruct m; cbn [next_record]; destruct (Z.leb_spec (f_data_length x) i); try done; [lia|].
    destruct (len_dr_at i =? 0); [|done]. pose proof (Z.mod_pos_bound i 2048). apply IH; lia.
Qed.
End records.

(** * Reading a record *)

Section readdir.
Context {W : Type} `{FW : FatWorld W} `{FD : !FixedDisc W} `{FL : Fuel}.
Implicit Types (s : iso W) (v : Volume) (x : File).

(** The disc is [d]. *)
Definition on_disc (d : Z → bytes) s : Prop := ∀ n, disc (i_world s) n = d n.
Lemma frame_disc d s v s' v' : frame s v s' v' → on_disc d s → on_disc d s'.
Proof. intros F D n. by rewrite (fr_disk _ _ _ _ F). Qed.

Lemma iso_wp_readdir_loop d n s v x i (Q : Z * Z * Z * Z → iso W → Prop) :
  cd_ok s v → on_disc d s → file_ok (disc_size (i_world s)) x → 0 ≤ i → f_data_length x - i ≤ Z.of_nat n →
  (∀ p, next_record d x n i = Some p → record_ok d x p = true) →
  (∀ s' v', cd_ok s' v' → frame s v s' v' →
    match next_record d x n i with
    | None => ∀ j, Q (- ENMFILE, 0, 0, j) s'
    | Some p =>
        b_data (v_buffer v') = sector_of d x p →
        Q (0, f_extent x + f_len_ear x + p / 2048, p mod 2048, p + len_dr_at d x p) s'
    end) →
  wp (readdir_loop n x i) Q s.
Proof.
  revert s v i. induction n as [|n IH]; intros s v i C D Hfile Hi Hn Hok HQ; cbn [readdir_loop next_record] in *;
    (destruct (Z.leb_spec (f_data_length x) i) as [Hend|Hend];
     [specialize (HQ s v C (iso_frame_refl _ _)); wp_step; apply HQ|]); [lia|].
  destruct (logical_block_eq v x (disc_size (i_world s)) i) as (El & Hl & Eb); [apply C|done|lia|].
  pose proof (fo_size _ _ Hfile). pose proof (Z.mod_pos_bound i 2048).
  wp_step. eapply iso_wp_getv; [apply C|]. rewrite El, Eb. wp_step.
  eapply wp_iso_readbuf; [done|done|lia|]. intros s1 v1 C1 F1 D1. rewrite D in D1.
  unfold guard_ret at 1. change (0 <? 0) with false. cbv iota. rewrite Z.add_0_l.
  pose proof (bo_length _ _ (cd_buffer _ _ C1)) as Hlen.
  wp_step. eapply wp_read_bytes; [apply C1|lia|lia|lia|].
  assert (byte_at (slice (b_data (v_buffer v1)) (i mod 2048) 1) 0 = len_dr_at d x i) as ->.
  { rewrite D1. unfold len_dr_at, dr_len_dr, sector_of, byte_at, slice. simpl.
    rewrite lookup_take_lt by lia. rewrite lookup_drop. do 2 f_equal. lia. }
  unfold nz. destruct (len_dr_at d x i =? 0) eqn:E0; cbn [negb].
  - rewrite (go_bps _ (cd_geo _ _ C)), Z.sub_0_r. rewrite (u32_small (2048 - _)) by lia.
    eapply (IH s1 v1); [done|by eapply frame_disc|by rewrite (fr_size _ _ _ _ F1)|lia|lia|done|].
    intros s2 v2 C2 F2. apply (HQ s2 v2 C2). by eapply iso_frame_trans.
  - specialize (Hok i eq_refl). unfold record_ok in Hok. wp_step. unfold check_record.
    wp_step. eapply iso_wp_getv; [apply C1|]. cbv zeta. rewrite D1.
    unfold sector_of in Hok. rewrite Hok. wp_step. wp_step. apply (HQ s1 v1 C1 F1 D1).
Qed.

(** The open directory [f]. *)
Record dir_at s f x : Prop := {
  da_file : i_files s !! f = Some x;
  da_ptr : nz f = true;
  da_dentry : is_Some (i_dentries s !! f_dentry x);
  da_ok : file_ok (disc_size (i_world s)) x;
  da_pos : 0 ≤ f_file_pointer x }.

(** The state after a directory has been read up to [i]. *)
Record dir_read s v f x i s' v' : Prop := {
  dr_cd : cd_ok s' v';
  dr_vol : same_volume v v';
  dr_files : i_files s' = <[f := x <| f_file_pointer := i |>]> (i_files s);
  dr_dentries : i_dentries s' = i_dentries s;
  dr_words : i_words s' = i_words s;
  dr_pages : i_pages s' = i_pages s;
  dr_size : disc_size (i_world s') = disc_size (i_world s);
  dr_disk : ∀ n, disc (i_world s') n = disc (i_world s) n }.

Lemma dir_read_refl s v f x s' v' :
  i_files s !! f = Some x → cd_ok s' v' → frame s v s' v' → dir_read s v f x (f_file_pointer x) s' v'.
Proof.
  intros Hx C F. split; [done|apply F| |apply F..].
  rewrite (fr_files _ _ _ _ F). symmetry. apply insert_id. by destruct x.
Qed.

Lemma dir_read_trans s v f x i s1 v1 j s2 v2 :
  dir_read s v f x i s1 v1 → dir_read s1 v1 f (x <| f_file_pointer := i |>) j s2 v2 → dir_read s v f x j s2 v2.
Proof.
  intros [A0 A1 A2 A3 A4 A5 A6 A7] [B0 B1 B2 B3 B4 B5 B6 B7]. split; try congruence.
  - unfold same_volume in *. rewrite B1, A1. done.
  - rewrite B2, A2. by rewrite insert_insert_eq.
Qed.

Lemma dir_read_at s v f x i s' v' :
  dir_at s f x → dir_read s v f x i s' v' → 0 ≤ i → dir_at s' f (x <| f_file_pointer := i |>).
Proof.
  intros [] [] ?. split; [|done| | |done].
  - by rewrite dr_files0, lookup_insert_eq.
  - by rewrite dr_dentries0.
  - rewrite dr_size0. destruct da_ok0. by split.
Qed.

Lemma iso_wp_do_readdir d s v f x (Q : Z * Z * Z → iso W → Prop) :
  cd_ok s v → on_disc d s → dir_at s f x →
  (∀ p, record_from d x (f_file_pointer x) = Some p → record_ok d x p = true) →
  match record_from d x (f_file_pointer x) with
  | None => ∀ s' v', cd_ok s' v' → frame s v s' v' → Q (- ENMFILE, 0, 0) s'
  | Some p => ∀ s' v', dir_read s v f x (p + len_dr_at d x p) s' v' → b_data (v_buffer v') = sector_of d x p →
      Q (0, f_extent x + f_len_ear x + p / 2048, p mod 2048) s'
  end →
  wp (iso9660_do_readdir f) Q s.
Proof.
  intros C D [Hf Hnz [de Hde] O Hp] Hok HQ. unfold iso9660_do_readdir.
  wp_step. eapply iso_wp_getfile; [done|]. wp_step. eapply iso_wp_getdentry; [done|]. wp_step.
  pose proof (fo_length _ _ O).
  eapply (iso_wp_readdir_loop d); [done..|lia|exact Hok|]. intros s' v' C' F. unfold record_from in HQ.
  destruct (next_record d x _ _) as [p|].
  - intros Hb. unfold guard_ret. change (0 <? 0) with false. cbv iota.
    wp_step. unfold modfile. wp_step. eapply iso_wp_getfile; [by rewrite (fr_files _ _ _ _ F)|].
    unfold putfile. rewrite Hnz. cbv iota. wp_step. wp_step. apply (HQ _ v'); [|done].
    split; [destruct C'; by split|apply F| |apply F..]. simpl. by rewrite (fr_files _ _ _ _ F).
  - intros j. unfold guard_ret. change (- ENMFILE <? 0) with true. cbv iota. wp_step. by apply (HQ s' v').
Qed.

(** * The search of a name *)

(** The comparison of [iso9660_lookup] with the record [p]. *)
Definition matches d x fn fnsize fnfcb (p : Z) : option bool :=
  record_matches (sector_of d x p) (p mod 2048) fn fnsize fnfcb.

(** The first of the records [l] with the name. *)
Definition first_match d x fn fnsize fnfcb (l : list Z) : option Z :=
  List.find (λ p, default false (matches d x fn fnsize fnfcb p)) l.

(** What the search returns. *)
Definition lookup_result d x (r : option Z) : Z * Z * Z * Z :=
  match r with
  | Some p => (0, f_extent x + f_len_ear x + p / 2048, p mod 2048, dr_flags (sector_of d x p) (p mod 2048))
  | None => (- ENOENT, 0, 0, 0)
  end.

(** The records [l] are in their sectors, and the comparisons stay in them. *)
Definition records_ok d x fn fnsize fnfcb (l : list Z) : Prop :=
  Forall (λ p, record_ok d x p = true ∧ 0 ≤ len_dr_at d x p ∧ is_Some (matches d x fn fnsize fnfcb p)) l.

Lemma wp_lookup_loop d fn fnsize fnfcb k s v f x (Q : Z * Z * Z * Z → iso W → Prop) :
  cd_ok s v → on_disc d s → dir_at s f x → Z.max 0 (f_data_length x - f_file_pointer x) < Z.of_nat k →
  records_ok d x fn fnsize fnfcb (records_from d x k (f_file_pointer x)) →
  (∀ s' v' i, 0 ≤ i → dir_read s v f x i s' v' →
    Q (lookup_result d x (first_match d x fn fnsize fnfcb (records_from d x k (f_file_pointer x)))) s') →
  wp (lookup_loop k f fn fnsize fnfcb) Q s.
Proof.
  remember (f_file_pointer x) as i eqn:Ei. revert s v x i Ei. induction k as [|k IH]; intros s v x i Ei C D A Hk Hok HQ.
  { lia. }
  cbn [lookup_loop records_from] in *. wp_step. eapply (iso_wp_do_readdir d); [done..|rewrite <- Ei|rewrite <- Ei].
  - intros p Hp. rewrite Hp in Hok. by apply Forall_cons in Hok as [[? _] _].
  - destruct (record_from d x i) as [p|] eqn:Ep.
    + intros s1 v1 R1 B1. apply Forall_cons in Hok as [(_ & Hlen & [m Hm]) Hok].
      change (0 <? 0) with false. cbv iota zeta. wp_step. eapply iso_wp_getv; [apply R1|]. cbv zeta.
      rewrite B1, Z.add_0_l. unfold matches in Hm. rewrite Hm. wp_step. wp_step. cbv beta.
      unfold first_match in HQ. cbn [List.find] in HQ. unfold matches at 1 in HQ. rewrite Hm in HQ. cbn [default from_option id] in HQ.
      pose proof (da_pos _ _ _ A) as Hpos. apply next_record_spec in Ep as [Hp Hne]; [|lia].
      assert (0 ≤ p + len_dr_at d x p) as Hj by lia. assert (1 ≤ len_dr_at d x p) by lia.
      destruct m; [wp_step; by apply (HQ s1 v1 (p + len_dr_at d x p))|].
      eapply (IH s1 v1 (x <| f_file_pointer := p + len_dr_at d x p |>)); [done|apply R1| |by eapply dir_read_at|simpl; lia|done|].
      * intros n. by rewrite (dr_disk _ _ _ _ _ _ _ R1).
      * intros s2 v2 j Hj2 R2. exact (HQ s2 v2 j Hj2 (dir_read_trans _ _ _ _ _ _ _ _ _ _ R1 R2)).
    + intros s1 v1 C1 F1. change (- ENMFILE <? 0) with true. cbv iota.
      change (- ENMFILE =? - ENMFILE) with true. cbv iota. wp_step. apply (HQ s1 v1 i); [by rewrite Ei; apply A|].
      rewrite Ei. apply dir_read_refl; [apply A|done..].
Qed.

(** * The search with wildcards *)

(** The identifier of the record [p], less its version. *)
Definition id_of d x (p : Z) : bytes :=
  let id := dr_file_id (sector_of d x p) (p mod 2048) in
  take (Z.to_nat (strip_last_version id (dr_len_fi (sector_of d x p) (p mod 2048)))) id.

(** The tests of [iso9660_findfile] on the record [p]. *)
Definition selects d x fn flags (p : Z) : bool :=
  findfile_flags_match flags (dr_flags (sector_of d x p) (p mod 2048))
  && ((dos_fnmatch fn (id_of d x p) false =? 0) || (dos_fnmatch fn (id_of d x p) true =? 0)).

(** Without the code: the flags of a record answer those of the search, its identifier less
    the version is denoted by the pattern. *)
Definition flags_answer (flags record_flags : Z) : Prop :=
  (has record_flags ISO9660_FL_EX → has flags FD32_FAHIDDEN)
  ∧ (has record_flags ISO9660_FL_DIR → has flags FD32_FADIR)
  ∧ (has flags FD32_FRHIDDEN → has record_flags ISO9660_FL_EX)
  ∧ (has flags FD32_FRDIR → has record_flags ISO9660_FL_DIR).
Definition stored_id d x (p : Z) : bytes :=
  take (Z.to_nat (dr_len_fi (sector_of d x p) (p mod 2048))) (dr_file_id (sector_of d x p) (p mod 2048)).
Definition wanted d x fn flags (p : Z) : Prop :=
  flags_answer flags (dr_flags (sector_of d x p) (p mod 2048))
  ∧ ∃ id version, IsoMatch.divided 59 (stored_id d x p) id version ∧ IsoMatch.denotes fn id.

(** [r] is the first of the records [l] that has [P]. *)
Definition first_that (P : Z → Prop) (l : list Z) (r : option Z) : Prop :=
  match r with
  | Some p => ∃ l1 l2, l = l1 ++ p :: l2 ∧ P p ∧ Forall (λ q, ¬ P q) l1
  | None => Forall (λ q, ¬ P q) l
  end.

Lemma first_that_find (P : Z → Prop) f l : (∀ p, f p = true ↔ P p) → first_that P l (List.find f l).
Proof.
  intros H. induction l as [|p l IH]; [constructor|]. simpl. destruct (f p) eqn:E.
  - exists [], l. split; [done|]. split; [by apply H|constructor].
  - assert (¬ P p) by (intros ?%H; congruence). destruct (List.find f l) as [q|]; simpl in *.
    + destruct IH as (l1 & l2 & -> & Hq & Hl). exists (p :: l1), l2. split; [done|]. split; [done|by constructor].
    + by constructor.
Qed.
Lemma first_that_unique P l r r' : first_that P l r → first_that P l r' → r = r'.
Proof.
  revert r r'. induction l as [|p l IH]; intros r r' H H'.
  { destruct r as [q|]; [by destruct H as ([|] & ? & ? & _)|]. by destruct r' as [q|]; [destruct H' as ([|] & ? & ? & _)|]. }
  assert (∀ r, first_that P (p :: l) r → (P p ∧ r = Some p) ∨ (¬ P p ∧ first_that P l r)) as Hcase.
  { clear. intros [q|]; simpl.
    - intros ([|y l1] & l2 & E & Hq & Hl); simplify_eq/=; [by left|right]. apply Forall_cons in Hl as [? ?]. eauto 10.
    - intros [? ?]%Forall_cons. by right. }
  destruct (Hcase r H) as [[? ->]|[? Hr]], (Hcase r' H') as [[? ->]|[? Hr']]; [done..|]. by apply IH.
Qed.

Lemma flags_match_answer flags rf : findfile_flags_match flags rf = true ↔ flags_answer flags rf.
Proof.
  assert (∀ m, Z.land 3 m = m → Z.land rf m = Z.land (rf mod 4) m) as Hlow.
  { intros m Hm. change 4 with (2 ^ 2). rewrite <- Z.land_ones, <- Z.land_assoc by lia.
    change (Z.ones 2) with 3. by rewrite Hm. }
  assert (rf mod 4 = 0 ∨ rf mod 4 = 1 ∨ rf mod 4 = 2 ∨ rf mod 4 = 3) as Hr by (pose proof (Z.mod_pos_bound rf 4); lia).
  unfold findfile_flags_match, unallowed_flags, flags_answer.
  generalize (has flags FD32_FAHIDDEN), (has flags FD32_FADIR), (has flags FD32_FRHIDDEN), (has flags FD32_FRDIR).
  intros a b c e. unfold has.
  rewrite !Hlow by (by repeat case_match).
  destruct Hr as [-> |[-> |[-> | ->]]], a, b, c, e; vm_compute; naive_solver.
Qed.

Lemma id_of_divided d x p : ∃ version, IsoMatch.divided 59 (stored_id d x p) (id_of d x p) version.
Proof.
  unfold id_of, stored_id, strip_last_version. generalize (dr_file_id (sector_of d x p) (p mod 2048)) as id.
  generalize (dr_len_fi (sector_of d x p) (p mod 2048)) as n. intros n id.
  pose proof (IsoMatch.memrchr_divided (take (Z.to_nat n) id) 59) as H.
  destruct (FatDos.memrchr (take (Z.to_nat n) id) 59) as [e|]; [|by exists []; right].
  destruct H as [H Hn]. eexists. left. rewrite Nat2Z.id. split; [|exact Hn].
  rewrite H at 1. f_equal. rewrite take_take. f_equal.
  apply (f_equal length) in H. rewrite length_app, !length_take in H. simpl in H. lia.
Qed.

(** The tests of [iso9660_findfile] decide what is wanted. *)
Lemma selects_wanted d x fn flags p : IsoMatch.usual fn → selects d x fn flags p = true ↔ wanted d x fn flags p.
Proof.
  intros Hu. unfold selects, wanted. rewrite andb_true_iff, flags_match_answer, IsoMatch.dos_fnmatch_denotes by done.
  destruct (id_of_divided d x p) as [version D]. split; intros [Hf H]; (split; [done|]); [eauto|].
  destruct H as (id & version' & D' & H). by rewrite (IsoMatch.divided_unique _ _ _ _ _ _ D D').
Qed.

(** What the search returns, and the position of the directory afterwards. *)
Definition findfile_result d x lf (r : option Z) : Z * FatDos.fd32_fs_lfnfind_t :=
  match r with
  | Some p => (0, lfn_result (sector_of d x p) (p mod 2048) (id_of d x p) lf)
  | None => (- ENMFILE, lf)
  end.
Definition findfile_position d x (r : option Z) (i : Z) : Prop :=
  match r with Some p => i = p + len_dr_at d x p | None => True end.

Lemma wp_findfile_loop d fn flags lf k s v f x (Q : Z * FatDos.fd32_fs_lfnfind_t → iso W → Prop) :
  cd_ok s v → on_disc d s → dir_at s f x → Z.max 0 (f_data_length x - f_file_pointer x) < Z.of_nat k →
  Forall (λ p, record_ok d x p = true ∧ 0 ≤ len_dr_at d x p) (records_from d x k (f_file_pointer x)) →
  (∀ s' v' i, dir_read s v f x i s' v' →
    let r := List.find (selects d x fn flags) (records_from d x k (f_file_pointer x)) in
    findfile_position d x r i → Q (findfile_result d x lf r) s') →
  wp (findfile_loop k f fn flags lf) Q s.
Proof.
  remember (f_file_pointer x) as i eqn:Ei. revert s v x i Ei. induction k as [|k IH]; intros s v x i Ei C D A Hk Hok HQ.
  { lia. }
  cbn [findfile_loop records_from] in *. wp_step. eapply (iso_wp_do_readdir d); [done..|rewrite <- Ei|rewrite <- Ei].
  - intros p Hp. rewrite Hp in Hok. by apply Forall_cons in Hok as [[? _] _].
  - destruct (record_from d x i) as [p|] eqn:Ep.
    + intros s1 v1 R1 B1. apply Forall_cons in Hok as [[_ Hlen] Hok].
      unfold guard_ret. change (0 <? 0) with false. cbv iota zeta. wp_step. eapply iso_wp_getv; [apply R1|]. cbv zeta.
      rewrite B1, Z.add_0_l. cbn [List.find] in HQ.
      change (take _ (dr_file_id (sector_of d x p) (p mod 2048))) with (id_of d x p).
      pose proof (da_pos _ _ _ A) as Hpos. apply next_record_spec in Ep as [Hp Hne]; [|lia].
      assert (0 ≤ p + len_dr_at d x p) as Hj by lia. assert (1 ≤ len_dr_at d x p) by lia.
      set (x1 := x <| f_file_pointer := p + len_dr_at d x p |>) in *.
      assert (∀ n, disc (i_world s1) n = d n) as D1 by (intros; by rewrite (dr_disk _ _ _ _ _ _ _ R1)).
      destruct (selects d x fn flags p) eqn:Es; unfold selects in Es.
      * apply andb_prop in Es as [-> ->]. cbn [negb]. wp_step. by apply (HQ s1 v1 (p + len_dr_at d x p)).
      * assert (wp (findfile_loop k f fn flags lf) Q s1) as Hnext.
        { eapply (IH s1 v1 x1); [done|apply R1|done|by eapply dir_read_at|simpl; lia|done|].
          intros s2 v2 j R2 Hr. exact (HQ s2 v2 j (dir_read_trans _ _ _ _ _ _ _ _ _ _ R1 R2) Hr). }
        destruct (findfile_flags_match _ _); cbn [andb negb] in *; [by rewrite Es|done].
    + intros s1 v1 C1 F1. unfold guard_ret. change (- ENMFILE <? 0) with true. cbv iota. wp_step.
      apply (HQ s1 v1 i); [|done]. rewrite Ei. apply dir_read_refl; [apply A|done..].
Qed.
End readdir.

(** * Theorems *)

Section theorems.
Context {W : Type} `{FW : FatWorld W} `{FD : !FixedDisc W} `{FL : Fuel}.
Implicit Types (s : iso W) (v : Volume) (x : File).

(** C37: [iso9660_findfile] returns the first record of the directory, from the position of
    the open directory on, whose flags answer those asked for and whose identifier, less its
    version, the pattern denotes ([IsoMatch.denotes]: the name and the extension apart, the
    whole ones or those of the short name, [*] any characters and [?] any one), and leaves
    the directory after it; [-ENMFILE] exactly when there is none. For the patterns with at
    most one asterisk in each part, its last character, and a dot if they have one
    ([IsoMatch.usual]); the pattern [*] is not one: it finds no name that has an extension.
    The records are those of the sectors of the directory one after the other, a record of no
    length ending its sector. *)
Theorem iso9660_findfile_correct s v f x fn flags lf :
  let d := disc (i_world s) in
  let l := records_from d x fuel (f_file_pointer x) in
  cd_ok s v → dir_at s f x → f_data_length x < Z.of_nat fuel →
  Forall (λ p, record_ok d x p = true ∧ 0 ≤ len_dr_at d x p) l → IsoMatch.usual fn →
  wp (iso9660_findfile f fn flags lf) (λ a s',
    ∃ r, first_that (wanted d x fn flags) l r ∧ a = findfile_result d x lf r
    ∧ ∃ v' i, dir_read s v f x i s' v' ∧ findfile_position d x r i) s.
Proof.
  intros d l C A Hfuel Hok Hu. unfold iso9660_findfile.
  eapply (wp_findfile_loop d); [done..| |done|].
  - pose proof (da_pos _ _ _ A). pose proof (fo_length _ _ (da_ok _ _ _ A)). lia.
  - intros s' v' i R r Hi. exists r. split; [|by eauto].
    apply first_that_find. intros p. by apply selects_wanted.
Qed.

(** The search of [iso9660_lookup] through an open directory returns the block, the
    byte in the block and the flags of its first record whose identifier, less the version,
    is the name or has the same FCB format; [-ENOENT] exactly when no record does. It ends,
    the records advancing by at least a byte. *)
Theorem iso9660_lookup_search s v f x fn fnsize fnfcb :
  let d := disc (i_world s) in
  let l := records_from d x fuel (f_file_pointer x) in
  cd_ok s v → dir_at s f x → f_data_length x < Z.of_nat fuel → records_ok d x fn fnsize fnfcb l →
  wp (lookup_loop fuel f fn fnsize fnfcb) (λ a s',
    a = lookup_result d x (first_match d x fn fnsize fnfcb l) ∧ ∃ v' i, dir_read s v f x i s' v') s.
Proof.
  intros d l C A Hfuel Hok. eapply (wp_lookup_loop d); [done..| |done|].
  - pose proof (da_pos _ _ _ A). pose proof (fo_length _ _ (da_ok _ _ _ A)). lia.
  - intros s' v' i _ R. split; [done|]. by exists v', i.
Qed.
End theorems.
End IsoDir.
