(* ===== verification/IsoExample.v ===== *)
(** A sample ISO 9660 volume in memory, for concrete runs of the driver: a root directory
    with a file of 3000 bytes and a directory, in blocks of 2048 bytes. *)
From S2P Require Import Prelude Errno Lists Slab FatTypes FatDisk FatBuffer FatFile.
From S2P Require FatDos FatOpen.
From S2P Require Import IsoTypes IsoVolume IsoFile IsoNames IsoDentry IsoDos IsoPath IsoRequest IsoRead.
Import IsoDir.
Import IsoNamesSpec.

(** * A CD-ROM: its sectors and the next free address of kernel memory *)

Record cdrom := mkCd { cd_sectors : list bytes; cd_brk : Z }.
#[export] Instance cdrom_eta : Eta cdrom := λ r, mkCd (cd_sectors r) (cd_brk r).

Definition CD_BLOCK : Z := 2048.
Definition cd_size (r : cdrom) : Z := Z.of_nat (length (cd_sectors r)).
Definition pad_sector (l : bytes) : bytes := take 2048 (l ++ replicate (2048 - length l) 0).
Definition cd_sector (r : cdrom) (n : Z) : bytes :=
  if n <? 0 then [] else pad_sector (default [] (cd_sectors r !! Z.to_nat n)).

Definition cd_read (from count : Z) (r : cdrom) : Z * bytes :=
  if (0 <=? from) && (from <? cd_size r) then
    let k := Z.min count (cd_size r - from) in (k, blocks (cd_sector r) from k)
  else (- EIO, []).
Definition cd_kmem_get (size : Z) (r : cdrom) : Z * cdrom :=
  let b := Z.max 65536 (cd_brk r) in (b, r <| cd_brk := b + (size + 4095) / 4096 * 4096 |>).

#[export] Instance cd_world : FatWorld cdrom := {|
  block_get _ r := (0, r);
  block_release r := r;
  bops_open r := (0, r);
  bops_close r := r;
  bops_revalidate r := (0, r);
  bops_get_medium_info r := ((0, (cd_size r, CD_BLOCK)), r);
  bops_read from count _ r := (cd_read from count r, r);
  bops_write _ _ _ _ r := (- EIO, r);
  bops_test_unit_ready r := (0, r);
  fd32_get_date r := ((1, 1, 2006), r);
  fd32_get_time r := ((0, 0, 0, 0), r);
  fd32_kmem_get := cd_kmem_get;
  fd32_kmem_free _ _ r := r;
  nls_get_default r := ((0, None), r);
  nls_release r := r |}.

#[export] Instance cd_disc : FixedDisc cdrom.
Proof.
  refine {| disc_size := cd_size; disc := cd_sector |}.
  - intros w n Hn. unfold cd_sector. rewrite (proj2 (Z.ltb_ge _ _)) by lia.
    unfold pad_sector. rewrite length_take, length_app, length_replicate. lia.
  - intros from w Hn. simpl. unfold cd_read. rewrite (proj2 (Z.leb_le _ _)), (proj2 (Z.ltb_lt _ _)) by lia.
    rewrite Z.min_l by lia. split; [|done]. cbn [andb fst]. f_equal. unfold blocks.
    change (seq 0 (Z.to_nat 1)) with [0%nat]. simpl. rewrite app_nil_r. f_equal. lia.
Defined.

Module IsoSample.
#[export] Instance ex_fuel : Fuel := 2100%nat.

Definition both32 (z : Z) : bytes := le32 z ++ rev (le32 z).
Definition stamp : bytes := [106; 2; 3; 10; 20; 30; 0].
(** A directory record; its length is even. *)
Definition dir_record (extent len flags : Z) (id : bytes) : bytes :=
  let n := Z.of_nat (length id) in
  let pad := zeroes (1 - n mod 2) in
  [33 + n + (1 - n mod 2); 0] ++ both32 extent ++ both32 len ++ stamp ++ [flags; 0; 0; 1; 0; 0; 1; n] ++ id ++ pad.

(** [A.TXT;1] and [SUB]. *)
Definition a_txt : bytes := [65; 46; 84; 88; 84; 59; 49].
Definition sub : bytes := [83; 85; 66].
Definition root_dir : bytes :=
  dir_record 18 2048 2 [0] ++ dir_record 18 2048 2 [1] ++ dir_record 19 3000 0 a_txt ++ dir_record 21 2048 2 sub.
Definition sub_dir : bytes := dir_record 21 2048 2 [0] ++ dir_record 18 2048 2 [1].

Definition pvd (block_size : Z) : bytes :=
  poke (poke (poke (poke (poke (zeroes 2048) 0 ([1; 67; 68; 48; 48; 49; 1])) 40 (replicate 32 86)) 80 (both32 22))
    128 (le16 block_size)) 156 (dir_record 18 2048 2 [0]).

Definition image : list bytes :=
  replicate 16 (zeroes 2048) ++ [pvd 2048; zeroes 2048; pad_sector root_dir; replicate 2048 7; replicate 2048 8; pad_sector sub_dir].

Definition device : cdrom := mkCd image 65536.
(** Nothing mounted. *)
Definition unmounted : iso cdrom := mkIso device None ∅ ∅ ∅ [].

(** A sequence of requests. *)
Fixpoint run (l : list request) (s : iso cdrom) : outcome (iso cdrom) (list (Z * reply)) :=
  match l with
  | [] => Done [] s
  | r :: l =>
      match iso9660_request r s with
      | Done a s => match run l s with Done b s => Done (a :: b) s | Fault => Fault | NoFuel => NoFuel end
      | Fault => Fault
      | NoFuel => NoFuel
      end
  end.
Definition answers (o : outcome (iso cdrom) (list (Z * reply))) : option (list (Z * reply)) :=
  match o with Done l _ => Some l | _ => None end.

Definition empty_find : fd32_fs_dosfind_t := mkDosFind (zeroes 11) 0 0 0 0 0 0 0 0 (zeroes 13).
Definition empty_lfn : FatDos.fd32_fs_lfnfind_t := FatDos.mkLfnFind 0 0 0 0 0 0 (zeroes 260) (zeroes 14).

Definition state_after (l : list request) : iso cdrom :=
  match run l unmounted with Done _ s => s | _ => unmounted end.
Definition the_volume (s : iso cdrom) : Volume := default (empty_volume 0) (i_vol s).
(** The address of the first open file. *)
Definition first_file : Z := 73728.
Definition the_file (s : iso cdrom) : File :=
  default (mkFile 0 0 0 0 0 0 0 0 0 no_timestamp) (i_files s !! first_file).

(** [\A.TXT] open; the root directory open. *)
Definition open_state : iso cdrom := state_after [FD32_MOUNT []; FD32_OPENFILE [92; 97; 46; 116; 120; 116] O_RDONLY 0].
Definition root_state : iso cdrom := state_after [FD32_MOUNT []; FD32_OPENFILE [92] O_RDONLY 0].

Ltac by_computation := vm_compute; repeat split; discriminate || reflexivity || exact I.

Lemma open_ok : cd_ok open_state (the_volume open_state).
Proof. split; [by vm_compute|split; by vm_compute|split; by vm_compute]. Qed.
Lemma root_ok : cd_ok root_state (the_volume root_state).
Proof. split; [by vm_compute|split; by vm_compute|split; by vm_compute]. Qed.

(** The records of [.], [..], [A.TXT] and [SUB]. *)
Lemma root_records :
  records_from (disc (i_world root_state)) (the_file root_state) fuel (f_file_pointer (the_file root_state)) = [0; 34; 68; 108].
Proof. by vm_compute. Qed.

(** * Witnesses *)

Lemma iso9660_read_correct_witness :
  wp (iso9660_read first_file true 5000) (λ r _, r.1 = 3000 ∧ take 2 r.2 = [7; 7]) open_state.
Proof.
  eapply wp_mono; [|apply (iso9660_read_correct open_state (the_volume open_state) first_file (the_file open_state)
    (default (mkDentry 0 [] 0 0 0 0) (i_dentries open_state !! f_dentry (the_file open_state))))].
  - intros r s' [-> _]. split; by vm_compute.
  - apply open_ok.
  - split; by vm_compute.
  - by vm_compute.
  - by vm_compute.
  - by vm_compute.
  - by vm_compute.
  - by vm_compute.
  - by vm_compute.
  - lia.
Defined.

(** The pattern [A*.*] in the root directory. *)
Definition pattern : bytes := [65; 42; 46; 42].
Lemma pattern_usual : IsoMatch.usual pattern.
Proof.
  split; [intros _; unfold pattern; set_solver|]. intros p e D. apply IsoMatch.split_divided in D.
  vm_compute in D. injection D as <- <-.
  split; [exists [65]|exists []]; (split; [rewrite ?not_elem_of_cons; set_solver|by right]).
Qed.

Lemma iso9660_findfile_correct_witness :
  wp (iso9660_findfile first_file pattern 0 empty_lfn)
    (λ r _, r.1 = 0 ∧ take 6 (FatDos.lf_ShortName r.2) = [65; 46; 84; 88; 84; 0] ∧ FatDos.lf_SizeLo r.2 = 3000) root_state.
Proof.
  eapply wp_mono; [|apply (iso9660_findfile_correct root_state (the_volume root_state) first_file (the_file root_state))].
  - intros a s' (r & Hr & -> & _).
    rewrite (first_that_unique _ _ _ _ Hr (first_that_find _ _ _ (λ p, selects_wanted _ _ _ _ p pattern_usual))).
    rewrite root_records. by_computation.
  - apply root_ok.
  - split; [by vm_compute..| | |by vm_compute]; [vm_compute; eauto|split; by vm_compute].
  - by vm_compute.
  - rewrite root_records. repeat constructor; by vm_compute.
  - apply pattern_usual.
Defined.

Lemma iso9660_lookup_search_witness :
  wp (lookup_loop fuel first_file [115; 117; 98] 3 (fcb [83; 85; 66] []))
    (λ r _, r = (0, 18, 108, 2)) root_state.
Proof.
  eapply wp_mono; [|apply (iso9660_lookup_search root_state (the_volume root_state) first_file (the_file root_state))].
  - intros r s' [-> _]. by vm_compute.
  - apply root_ok.
  - split; [by vm_compute..| | |by vm_compute]; [vm_compute; eauto|split; by vm_compute].
  - by vm_compute.
  - unfold records_ok. rewrite root_records.
    repeat constructor; try (by vm_compute); vm_compute; eauto.
Defined.

(** [README.TXT;1] *)
Lemma iso9660_fcb_roundtrip_witness :
  expand_fcb_name (fcb [82; 69; 65; 68; 77; 69] [84; 88; 84]) = [82; 69; 65; 68; 77; 69; 46; 84; 88; 84; 0].
Proof.
  apply (iso9660_fcb_roundtrip [82; 69; 65; 68; 77; 69] [84; 88; 84] [49]); unfold name_char, version_char;
    (repeat constructor; done) || (simpl; lia) || done.
Defined.

(** * Blocks smaller than a sector *)

Definition small_image : list bytes :=
  replicate 16 (zeroes 2048) ++
  [poke (pvd 512) 156 (dir_record 72 2048 2 [0]); zeroes 2048; pad_sector (dir_record 77 100 0 a_txt); replicate 2048 7].
Definition small_state : iso cdrom :=
  match run [FD32_MOUNT []; FD32_OPENFILE [92; 97; 46; 116; 120; 116] O_RDONLY 0]
          (unmounted <| i_world := mkCd small_image 65536 |>) with Done _ s => s | _ => unmounted end.

(** The file starts with the second block of its sector: reading it leaves the buffer. *)
Example small_blocks_fault : iso9660_request (FD32_READ first_file true 10) small_state = Fault.
Proof. by vm_compute. Qed.

Lemma iso9660_readbuf_small_blocks_witness : wp (iso9660_readbuf 73) (λ res _, 2048 ≤ res) small_state.
Proof.
  eapply wp_mono; [|apply (iso9660_readbuf_small_blocks small_state (the_volume small_state))].
  - by intros r s' [? _].
  - by vm_compute.
  - by vm_compute.
  - by vm_compute.
  - split; by vm_compute.
  - by vm_compute.
  - by vm_compute.
Defined.
End IsoSample.

(** * What the driver does not handle *)

Module IsoFaults.
Import IsoSample.

(** Creating [\SUB\B] answers 30: [EROFS], not an error but a success. *)
Example create_answers_success :
  answers (run [FD32_MOUNT []; FD32_OPENFILE [92; 83; 85; 66; 92; 66] O_CREAT 0] unmounted)
  = Some [(0, RHandle 65536); (EROFS, RHandle 0)].
Proof. by vm_compute. Qed.

(** Seeking backwards from the current position answers the new position and does not move. *)
Example seek_back_does_not_move :
  answers (run [FD32_MOUNT []; FD32_OPENFILE [92; 97; 46; 116; 120; 116] O_RDONLY 0;
                FD32_LSEEK first_file 100 SEEK_SET; FD32_LSEEK first_file (-50) SEEK_CUR;
                FD32_LSEEK first_file 0 SEEK_CUR] unmounted)
  = Some [(0, RHandle 65536); (1, RHandle first_file); (0, ROffset 100); (0, ROffset 50); (0, ROffset 100)].
Proof. by vm_compute. Qed.

(** A directory whose records fill its sector: after the last one has matched, FindNext
    reads past the buffer instead of answering that there are no more files. *)
Definition wide_record (id : bytes) : bytes :=
  poke (take 128 (dir_record 19 10 0 id ++ zeroes 128)) 0 [128].
Definition full_dir : bytes := concat ((λ k, wide_record [65 + Z.of_nat k]) <$> seq 0 16).
Definition full_device : cdrom :=
  mkCd (replicate 16 (zeroes 2048) ++ [pvd 2048; zeroes 2048; full_dir]) 65536.
Definition last_find : fd32_fs_dosfind_t := mkDosFind (replicate 11 63) 0 1920 18 1 0 0 0 0 (zeroes 13).

Definition mounted_full : iso cdrom :=
  match run [FD32_MOUNT []] (unmounted <| i_world := full_device |>) with Done _ s => s | _ => unmounted end.
Example findnext_leaves_the_buffer :
  match iso9660_request (FD32_FINDNEXT last_find) mounted_full with
  | Done (0, RDosFind df) s => df_Name df !! 0%nat = Some 80 ∧ iso9660_request (FD32_FINDNEXT df) s = Fault
  | _ => False
  end.
Proof. by vm_compute. Qed.

(** A device whose next reads answer what the list says. *)
Record flaky := mkFlaky { fl_cd : cdrom; fl_answers : list Z }.
Definition on_cd {A} (f : cdrom → A * cdrom) (r : flaky) : A * flaky :=
  let '(a, c) := f (fl_cd r) in (a, mkFlaky c (fl_answers r)).
Definition flaky_read (from count : Z) (r : flaky) : (Z * bytes) * flaky :=
  match fl_answers r with
  | a :: l => ((a, []), mkFlaky (fl_cd r) l)
  | [] => (cd_read from count (fl_cd r), r)
  end.
#[export] Instance flaky_world : FatWorld flaky := {|
  block_get n := on_cd (block_get n);
  block_release r := r;
  bops_open := on_cd bops_open;
  bops_close r := r;
  bops_revalidate := on_cd bops_revalidate;
  bops_get_medium_info := on_cd bops_get_medium_info;
  bops_read from count _ := flaky_read from count;
  bops_write l from count flags := on_cd (bops_write l from count flags);
  bops_test_unit_ready := on_cd bops_test_unit_ready;
  fd32_get_date := on_cd fd32_get_date;
  fd32_get_time := on_cd fd32_get_time;
  fd32_kmem_get n := on_cd (fd32_kmem_get n);
  fd32_kmem_free _ _ r := r;
  nls_get_default := on_cd nls_get_default;
  nls_release r := r |}.

(** The medium was inserted since the last access: mounting frees the volume twice. *)
Definition attention : Z := s32 (BLOCK_ERROR_CATEGORY + BLOCK_SENSE_ATTENTION).
Example mount_after_insertion_faults :
  iso9660_request (FD32_MOUNT []) (mkIso (mkFlaky device [attention]) None ∅ ∅ ∅ [])
  = Fault.
Proof. by vm_compute. Qed.
End IsoFaults.
