(* ===== verification/FormatIO.v ===== *)
(** The format program: its data ([src/apps/format-32/src/btstrct.h], [format.h],
    [createfs.h]), the calls of DOS and the BIOS it makes, and its access to the disk
    ([driveio.c]). Text that is printed is left out. *)
From S2P Require Import Prelude.

Definition HARD : Z := 0.
Definition FLOPPY : Z := 1.
Definition FAT12 : Z := 1.
Definition FAT16 : Z := 2.
Definition FAT32 : Z := 3.
Definition READ : Z := 0x25.
Definition WRITE : Z := 0x26.
Definition UNKNOWN : Z := 99.
Definition HUGE_SECTOR_BUFFER_SNUM : Z := 21.

(** * The boot sector *)

Record STD_BS := mkStdBs { jmp : bytes; oem_id : bytes }.
#[export] Instance STD_BS_eta : Eta STD_BS := λ r, mkStdBs (jmp r) (oem_id r).
Definition encode_bs (b : STD_BS) : bytes := jmp b ++ oem_id b.

Record STD_BPB := mkBpb {
  bytes_per_sector : Z;
  sectors_per_cluster : Z;
  reserved_sectors : Z;
  number_of_fats : Z;
  root_directory_entries : Z;
  total_sectors : Z;
  media_descriptor : Z;
  sectors_per_fat : Z;
  sectors_per_cylinder : Z;
  number_of_heads : Z;
  hidden_sectors_low : Z;
  hidden_sectors_high : Z;
  large_sector_count_low : Z;
  large_sector_count_high : Z }.
#[export] Instance STD_BPB_eta : Eta STD_BPB := λ r,
  mkBpb (bytes_per_sector r) (sectors_per_cluster r) (reserved_sectors r) (number_of_fats r)
    (root_directory_entries r) (total_sectors r) (media_descriptor r) (sectors_per_fat r)
    (sectors_per_cylinder r) (number_of_heads r) (hidden_sectors_low r) (hidden_sectors_high r)
    (large_sector_count_low r) (large_sector_count_high r).
Definition encode_bpb (b : STD_BPB) : bytes :=
  le16 (bytes_per_sector b) ++ [u8 (sectors_per_cluster b)] ++ le16 (reserved_sectors b) ++
  [u8 (number_of_fats b)] ++ le16 (root_directory_entries b) ++ le16 (total_sectors b) ++
  [u8 (media_descriptor b)] ++ le16 (sectors_per_fat b) ++ le16 (sectors_per_cylinder b) ++
  le16 (number_of_heads b) ++ le16 (hidden_sectors_low b) ++ le16 (hidden_sectors_high b) ++
  le16 (large_sector_count_low b) ++ le16 (large_sector_count_high b).

Record FAT32_BPB := mkXbpb {
  fat_size_low : Z;
  fat_size_high : Z;
  ext_flags : Z;
  file_system_version : Z;
  root_dir_start_low : Z;
  root_dir_start_high : Z;
  info_sector_number : Z;
  backup_boot_sector : Z;
  xbpb_reserved_1 : bytes }.
#[export] Instance FAT32_BPB_eta : Eta FAT32_BPB := λ r,
  mkXbpb (fat_size_low r) (fat_size_high r) (ext_flags r) (file_system_version r) (root_dir_start_low r)
    (root_dir_start_high r) (info_sector_number r) (backup_boot_sector r) (xbpb_reserved_1 r).
Definition encode_xbpb (b : FAT32_BPB) : bytes :=
  le16 (fat_size_low b) ++ le16 (fat_size_high b) ++ le16 (ext_flags b) ++ le16 (file_system_version b) ++
  le16 (root_dir_start_low b) ++ le16 (root_dir_start_high b) ++ le16 (info_sector_number b) ++
  le16 (backup_boot_sector b) ++ xbpb_reserved_1 b.

Record EXT_BS := mkExtBs {
  bs_drive_number : Z;
  bs_reserved : Z;
  signature_byte : Z;
  serial_number : bytes;
  bs_volume_label : bytes;
  file_system_type : bytes }.
#[export] Instance EXT_BS_eta : Eta EXT_BS := λ r,
  mkExtBs (bs_drive_number r) (bs_reserved r) (signature_byte r) (serial_number r) (bs_volume_label r)
    (file_system_type r).
Definition encode_ext (b : EXT_BS) : bytes :=
  [u8 (bs_drive_number b); u8 (bs_reserved b); u8 (signature_byte b)] ++ serial_number b ++
  bs_volume_label b ++ file_system_type b.

(** * The state of the program *)

(** The parameters of the drive, as DOS has them. *)
Record PB := mkPB {
  query_flags : Z;
  device_type : Z;
  device_attributes : Z;
  number_of_cylinders : Z;
  pb_media_type : Z;
  bpb : STD_BPB;
  xbpb : FAT32_BPB;
  pb_reserved_2 : bytes }.
#[export] Instance PB_eta : Eta PB := λ r,
  mkPB (query_flags r) (device_type r) (device_attributes r) (number_of_cylinders r) (pb_media_type r) (bpb r)
    (xbpb r) (pb_reserved_2 r).

(** What the command line asks for; [volume_label] is an array of 12 characters. *)
Record FP := mkFP {
  volume_label : bytes;
  drive_type : Z;
  drive_number : Z;
  fat_type : Z;
  media_type : Z;
  f_v : bool;
  f_f : bool;
  f_t : bool;
  fp_size : Z;
  cylinders : Z;
  sectors : Z;
  sides : Z }.
#[export] Instance FP_eta : Eta FP := λ r,
  mkFP (volume_label r) (drive_type r) (drive_number r) (fat_type r) (media_type r) (f_v r) (f_f r) (f_t r)
    (fp_size r) (cylinders r) (sectors r) (sides r).

Record FSI := mkFSI {
  start_fat_sector : Z;
  number_fat_sectors : Z;
  start_root_dir_sect : Z;
  number_root_dir_sect : Z;
  total_clusters : Z }.
#[export] Instance FSI_eta : Eta FSI := λ r,
  mkFSI (start_fat_sector r) (number_fat_sectors r) (start_root_dir_sect r) (number_root_dir_sect r)
    (total_clusters r).

(** [struct Access_Flags]. *)
Record AF := mkAF { special_function : Z; disk_access : Z }.

(** The global variables; [drive_statistics] is its serial number here, [fm_lock] is
    [lock_nesting], [_osmajor] the version of DOS. *)
Record fmt (W : Type) := mkFmt {
  fm_world : W;
  parameter_block : PB;
  param : FP;
  bs_start : STD_BS;
  bs_ext : EXT_BS;
  file_sys_info : FSI;
  sector_buffer : bytes;
  huge_sector_buffer : bytes;
  access_flags : AF;
  serial_number_low : Z;
  serial_number_high : Z;
  fm_lock : Z;
  _osmajor : Z }.
Arguments mkFmt {W}. Arguments fm_world {W}. Arguments parameter_block {W}. Arguments param {W}.
Arguments bs_start {W}. Arguments bs_ext {W}. Arguments file_sys_info {W}. Arguments sector_buffer {W}.
Arguments huge_sector_buffer {W}. Arguments access_flags {W}. Arguments serial_number_low {W}.
Arguments serial_number_high {W}. Arguments fm_lock {W}. Arguments _osmajor {W}.
#[export] Instance fmt_eta W : Eta (fmt W) := λ r,
  mkFmt (fm_world r) (parameter_block r) (param r) (bs_start r) (bs_ext r) (file_sys_info r) (sector_buffer r)
    (huge_sector_buffer r) (access_flags r) (serial_number_low r) (serial_number_high r) (fm_lock r) (_osmajor r).

(** * The calls of DOS and the BIOS

    A call returns the carry flag and the register with the error code, besides what it
    reads. [int25] and [int26] take the unit, the sector and the count of sectors of the
    packet, [int21_7305] the drive from 1 on; the last two are the requests on the drive
    itself: parameters (category and drive), access flags, locks. [int21_3000] tells the
    maker of DOS, in BH, and changes BL. *)
Class DosWorld (W : Type) := {
  int13_reset : Z → W → W;
  int13_read : Z → W → (bool * Z) * bytes * W;
  int13_write : Z → bytes → W → (bool * Z) * W;
  int25 : Z → Z → Z → W → (bool * Z) * bytes * W;
  int26 : Z → Z → Z → bytes → W → (bool * Z) * W;
  int21_7305_read : Z → Z → Z → W → (bool * Z) * bytes * W;
  int21_7305_write : Z → Z → Z → bytes → W → (bool * Z) * W;
  getdate : W → (Z * Z * Z) * W;
  gettime : W → (Z * Z * Z * Z) * W;
  ioctl_parameters : Z → Z → PB → W → (bool * Z) * PB * W;
  ioctl_get_access : Z → Z → AF → W → (bool * Z) * AF * W;
  ioctl_set_access : Z → Z → AF → W → (bool * Z) * AF * W;
  ioctl_lock : Z → Z → Z → W → (bool * Z) * W;
  int21_3000 : W → (Z * Z) * W }.

(** A loop of [FloppyBootReadWrite] has no bound: disk changes are not counted. *)
Class FloppyFuel := floppy_fuel : nat.

(** * Computations that may end the program

    [Exit] ends the program with the error level of MS-DOS, whatever called it. *)

Inductive ended (A : Type) :=
| Running (a : A)
| Exited (mserror fderror : Z).
Arguments Running {A} a.
Arguments Exited {A} mserror fderror.

Section ended.
Context {S : Type}.
Definition run {A} (m : M S A) : M S (ended A) := a ← m; mret (Running a).
Definition fret {A} (a : A) : M S (ended A) := mret (Running a).
Definition fbind {A B} (m : M S (ended A)) (f : A → M S (ended B)) : M S (ended B) :=
  r ← m; match r with Running a => f a | Exited ms fd => mret (Exited ms fd) end.
Definition fwhen (b : bool) (m : M S (ended ())) : M S (ended ()) := if b then m else fret ().

(** Total correctness of a program that is to go on. *)
Definition fwp {A} (m : M S (ended A)) (Q : A → S → Prop) (s : S) : Prop :=
  wp m (λ r s', match r with Running a => Q a s' | Exited _ _ => False end) s.

Lemma fwp_ret {A} (a : A) (Q : A → S → Prop) s : Q a s → fwp (fret a) Q s.
Proof. done. Qed.
Lemma fwp_run {A} (m : M S A) (Q : A → S → Prop) s : wp m Q s → fwp (run m) Q s.
Proof. unfold fwp, run, wp, mbind, M_bind. by destruct (m s). Qed.
Lemma fwp_bind {A B} (m : M S (ended A)) (f : A → M S (ended B)) (Q : B → S → Prop) s :
  fwp m (λ a s', fwp (f a) Q s') s → fwp (fbind m f) Q s.
Proof. unfold fwp, fbind, wp, mbind, M_bind. by destruct (m s) as [[]| |]. Qed.
Lemma fwp_mono {A} (m : M S (ended A)) (P Q : A → S → Prop) s :
  (∀ a s', P a s' → Q a s') → fwp m P s → fwp m Q s.
Proof. intros H. apply wp_mono. intros [a|] s'; [apply H|done]. Qed.
Lemma fwp_when b (m : M S (ended ())) (Q : () → S → Prop) s :
  (b = true → fwp m Q s) → (b = false → Q () s) → fwp (fwhen b m) Q s.
Proof. destruct b; cbn; auto. Qed.
Lemma fwp_done {A} (m : M S (ended A)) Q s : fwp m Q s → ∃ a s', m s = Done (Running a) s' ∧ Q a s'.
Proof. unfold fwp, wp. destruct (m s) as [[a|] s'| |]; naive_solver. Qed.
End ended.
Notation "x ⇐ m ; k" := (fbind m (λ x, k)) (at level 20, m at level 100, k at level 200, right associativity).
Notation "x ⇐. m ; k" := (fbind (run m) (λ x, k)) (at level 20, m at level 100, k at level 200, right associativity).

(** A division of C, which does not survive a divisor of zero. *)
Definition zdiv {S} (a b : Z) : M S Z := if b =? 0 then fault else mret (a / b).

Lemma wp_zdiv {S} a b (Q : Z → S → Prop) s : b ≠ 0 → Q (a / b) s → wp (zdiv a b) Q s.
Proof. intros Hb HQ. unfold zdiv. by rewrite (proj2 (Z.eqb_neq _ _) Hb). Qed.

(** * Access to the disk *)

Section driveio.
Context {W : Type} `{DosWorld W} `{FloppyFuel}.
Notation FM := (M (fmt W)).
Notation EM A := (M (fmt W) (ended A)).

Definition dos {A} (f : W → A * W) : FM A :=
  r ← gets (λ s, f (fm_world s)); modify (λ s, s <| fm_world := snd r |>);; mret (fst r).

(** [dosmemput(bs, length, sector_buffer + ofs)] *)
Definition put_buffer (ofs : Z) (bs : bytes) : FM () :=
  l ← gets sector_buffer;
  if in_block l ofs (Z.of_nat (length bs)) then modify (λ s, s <| sector_buffer ::= λ l, poke l ofs bs |>)
  else fault.

Definition Clear_Huge_Sector_Buffer : FM () :=
  modify (λ s, s <| huge_sector_buffer := zeroes (512 * HUGE_SECTOR_BUFFER_SNUM) |>).
Definition Clear_Sector_Buffer : FM () := modify (λ s, s <| sector_buffer := zeroes 512 |>).

(** [Lock_Unlock_Drive]: [lock] is 0 to unlock, 1 for the outer and 2 for the inner lock. The
    category of the request, which is first that of FAT12 and FAT16 when locking. *)
Definition lock_request (lock : Z) : FM (bool * Z) :=
  p ← gets param;
  let drive := u8 (drive_number p + 1) in
  if lock =? 0 then dos (ioctl_lock (if fat_type p =? FAT32 then 0x486a else 0x086a) drive 0)
  else
    let dx := if 1 <? lock then 4 else 0 in
    r ← dos (ioctl_lock 0x084a drive dx);
    if (fst r : bool) then dos (ioctl_lock 0x484a drive dx) else mret r.

(** The lock of the drive itself, for a floppy disk; errors are ignored. BL is what the
    call before has left. *)
Definition lock_floppy (lock bl : Z) : FM () :=
  p ← gets param;
  if (drive_type p =? FLOPPY) && negb (lock =? 1) then
    let cx := if lock =? 0 then (if fat_type p =? FAT32 then 0x486b else 0x086b) else 0x084b in
    r ← dos (ioctl_lock cx bl (if 1 <? lock then 4 else 0));
    if (fst r : bool) && negb (lock =? 0) then dos int21_3000;; mret () else mret ()
  else mret ().

Definition unlock_drive : FM () :=
  v ← gets _osmajor;
  n ← gets fm_lock;
  if (v <? 7) || (n =? 0) then mret ()
  else
    p ← gets param;
    lock_request 0;; lock_floppy 0 (u8 (drive_number p + 1));; modify (λ s, s <| fm_lock ::= λ n, n - 1 |>).

Definition Exit {A} (mserror fderror : Z) : EM A :=
  (if (mserror =? 3) || (mserror =? 4) then unlock_drive;; unlock_drive else mret ());;
  mret (Exited mserror fderror).

Definition Lock_Unlock_Drive (lock : Z) : EM () :=
  if lock =? 0 then run unlock_drive
  else
    v ⇐. gets _osmajor;
    if v <? 7 then fret ()
    else
      p ⇐. gets param;
      r ⇐. lock_request lock;
      let finish bl := run (lock_floppy lock bl;; modify (λ s, s <| fm_lock ::= λ n, n + 1 |>)) in
      if (fst r : bool) then
        if snd r =? 0x0f then Exit 4 29
        else b ⇐. dos int21_3000; if fst b =? 0xfd then finish (snd b) else Exit 4 25
      else finish (u8 (drive_number p + 1)).

(** The part of the buffers that a transfer of [count] sectors uses. *)
Definition io_bytes (count : Z) : FM bytes :=
  b ← gets (if count =? 1 then sector_buffer else huge_sector_buffer);
  if in_block b 0 (count * 512) then mret (slice b 0 (count * 512)) else fault.
Definition io_store (count : Z) (bs : bytes) : FM () :=
  b ← gets (if count =? 1 then sector_buffer else huge_sector_buffer);
  if in_block b 0 (Z.of_nat (length bs)) then
    modify (λ s, if count =? 1 then s <| sector_buffer := poke b 0 bs |>
                 else s <| huge_sector_buffer := poke b 0 bs |>)
  else fault.

(** A transfer: the registers after the call, and the bytes read in the buffer. *)
Definition read_call (count : Z) (f : W → (bool * Z) * bytes * W) : FM (bool * Z) :=
  r ← dos f; io_store count (snd r);; mret (fst r).
Definition write_call (count : Z) (f : bytes → W → (bool * Z) * W) : FM (bool * Z) :=
  bs ← io_bytes count; dos (f bs).

(** Of sector 0 of a floppy disk, through the BIOS: the error in AH, or 0. *)
Fixpoint floppy_boot_from (n : nat) (i DosDrive ReadOrWrite : Z) : FM Z :=
  match n with
  | O => nofuel
  | S n =>
      r ← (if ReadOrWrite =? WRITE then write_call 1 (int13_write DosDrive)
           else read_call 1 (int13_read DosDrive));
      let '(carry, ah) := r in
      if carry && nz ah then
        let i := if ah =? 6 then i else i + 1 in
        if i <? 3 then floppy_boot_from n i DosDrive ReadOrWrite else mret ah
      else mret 0
  end.
Definition FloppyBootReadWrite (DosDrive count sector ReadOrWrite : Z) : FM Z :=
  if (1 <? DosDrive) || has DosDrive 0x80 || nz sector || negb (count =? 1) then mret 0x0808
  else floppy_boot_from floppy_fuel 0 DosDrive ReadOrWrite.

(** The code of the BIOS as a code of DOS. *)
Definition bios_to_dos (al : Z) : Z :=
  if al =? 0 then 0 else if al =? 3 then 0x0300 else if al =? 0x80 then 0x0002
  else if al =? 0x0c then 0x0007 else if al =? 0x04 then 0x000b else 0x0808.

Definition TE_AbsReadWrite (DosDrive count sector ReadOrWrite : Z) : EM Z :=
  if (count =? 1) && (sector =? 0) && (Z.land DosDrive 0x7f <? 2) then
    r ⇐. FloppyBootReadWrite (Z.land DosDrive 0x7f) 1 0 ReadOrWrite;
    fret (bios_to_dos (u8 r))
  else
    let al := u8 DosDrive in
    let code (r : bool * Z) := if fst r then snd r else 0 in
    if ReadOrWrite =? READ then r ⇐. read_call count (int25 al sector count); fret (code r)
    else if ReadOrWrite =? WRITE then r ⇐. write_call count (int26 al sector count); fret (code r)
    else Exit 4 28.

Definition FAT32_AbsReadWrite (DosDrive count sector ReadOrWrite : Z) : FM Z :=
  let dl := u8 (DosDrive + 1) in
  r ← (if ReadOrWrite =? READ then read_call count (int21_7305_read dl sector count)
       else write_call count (int21_7305_write dl sector count));
  mret (if (fst r : bool) then snd r else 0).

Definition set_drive_number (n : Z) : FM () := modify (λ s, s <| param ::= λ p, p <| drive_number := n |> |>).

(** The label [retry]: the last code, and the error counter. *)
Fixpoint drive_io_retry (n : nat) (command sector_number number_of_sectors error_counter : Z) : EM Z :=
  match n with
  | O => run nofuel
  | S n =>
      p ⇐. gets param;
      return_code ⇐ (if negb (fat_type p =? FAT32)
                     then TE_AbsReadWrite (drive_number p) number_of_sectors sector_number command
                     else run (FAT32_AbsReadWrite (drive_number p) number_of_sectors sector_number command));
      p ⇐. gets param;
      if (return_code =? 0x0207) && (Z.land (drive_number p) 0x80 =? 0) then
        _ ⇐. set_drive_number (drive_number p + 0x80);
        drive_io_retry n command sector_number number_of_sectors (error_counter + 1)
      else if nz return_code && (error_counter <? 3) then
        drive_io_retry n command sector_number number_of_sectors (error_counter + 1)
      else fret return_code
  end.

(** Five attempts are the most: the counter grows, and only setting the high bit of the
    drive goes on at 3. *)
Definition drive_attempts : nat := 5.

Definition Critical_Error_Handler (error_code : Z) : EM () := Exit 4 (Z.lor 128 (Z.land error_code 0xff)).

Definition Drive_IO (command sector_number number_of_sectors : Z) : EM Z :=
  let allowfail := number_of_sectors <? 0 in
  let number_of_sectors := Z.abs number_of_sectors in
  if negb (nz number_of_sectors) then fret (-1)
  else
    return_code ⇐ drive_io_retry drive_attempts command sector_number number_of_sectors 0;
    p ⇐. gets param;
    _ ⇐ fwhen (nz return_code && negb allowfail &&
               ((2 <=? Z.land (drive_number p) 0x7f) || (command =? WRITE) || nz sector_number))
          (Critical_Error_Handler return_code);
    _ ⇐. set_drive_number (Z.land (drive_number p) 0x7f);
    fret return_code.

Definition Enable_Disk_Access : EM () :=
  p ⇐. gets param;
  f ⇐. gets access_flags;
  let ch := if fat_type p =? FAT32 then 0x48 else 0x08 in
  let bl := u8 (drive_number p + 1) in
  r ⇐. dos (ioctl_get_access ch bl f);
  let '((carry, al), f) := r in
  let f := mkAF 0 (disk_access f) in
  _ ⇐. modify (λ s, s <| access_flags := f |>);
  if carry then if (al =? 0x1) || (al =? 0x16) then fret () else Exit 4 26
  else if disk_access f =? 0 then
    r ⇐. dos (ioctl_set_access ch bl (mkAF 0 1));
    let '((carry, _), f) := r in
    _ ⇐. modify (λ s, s <| access_flags := f |>);
    fwhen carry (Exit 4 27)
  else fret ().
End driveio.
