(* ===== verification/Format.v ===== *)
(** The format program: making the file system ([src/apps/format-32/src/createfs.c]), the
    media of floppy disks ([floppy.h], and its search in [floppy.c]) and the parameters
    of hard disks ([hdisk.c]). *)
From S2P Require Import Prelude FormatIO.

(** * Tables *)

(** Floppy disks, [HD] in the middle, and an end marker. *)
Definition HD : Z := 8.
Definition drive_specs : list STD_BPB := [
  mkBpb 512 1 1 2 64 320 0xfe 1 8 1 0 0 0 0; mkBpb 512 1 1 2 64 360 0xfc 2 9 1 0 0 0 0;
  mkBpb 512 2 1 2 112 640 0xff 1 8 2 0 0 0 0; mkBpb 512 2 1 2 112 720 0xfd 2 9 2 0 0 0 0;
  mkBpb 512 2 1 2 112 1440 0xf9 3 9 2 0 0 0 0; mkBpb 512 1 1 2 224 2400 0xf9 7 15 2 0 0 0 0;
  mkBpb 512 1 1 2 224 2880 0xf0 9 18 2 0 0 0 0; mkBpb 512 2 1 2 240 5760 0xf0 9 36 2 0 0 0 0;
  mkBpb 512 0 1 2 512 0 0xf8 0 0 0 0 0 0 0;
  mkBpb 512 1 1 2 112 3360 0xf0 10 21 2 0 0 0 0; mkBpb 512 2 1 2 112 800 0xfd 2 10 2 0 0 0 0;
  mkBpb 512 2 1 2 112 1600 0xf9 3 10 2 0 0 0 0; mkBpb 512 1 1 2 224 3360 0xf0 10 21 2 0 0 0 0;
  mkBpb 512 2 1 2 240 6720 0xf0 10 42 2 0 0 0 0; mkBpb 512 1 1 2 224 2988 0xf9 9 18 2 0 0 0 0;
  mkBpb 512 1 1 2 224 3486 0xf0 11 21 2 0 0 0 0; mkBpb 512 2 1 2 240 6972 0xf0 11 42 2 0 0 0 0;
  mkBpb 0 0 0 0 0 0 0 0 0 0 0 0 0 0 ].

(** What the boot sector does when it is run: it prints the message after it. *)
Definition boot_code : bytes := [
  0x31; 0xc0; 0xfa; 0x8e; 0xd0; 0xbc; 0x00; 0x7c; 0xfb; 0x0e; 0x1f; 0xeb; 0x19; 0x5e; 0xfc; 0xac; 0x08; 0xc0;
  0x74; 0x09; 0xb4; 0x0e; 0xbb; 0x07; 0x00; 0xcd; 0x10; 0xeb; 0xf2; 0x31; 0xc0; 0xcd; 0x16; 0xcd; 0x19; 0xf4;
  0xeb; 0xfd; 0xe8; 0xe4; 0xff].
Definition chars (s : string) : bytes := map (λ a, Z.of_N (Ascii.N_of_ascii a)) (String.list_ascii_of_string s).
Definition boot_message : bytes :=
  chars "This is not a bootable disk. Please insert a bootable floppy and" ++ [13; 10] ++
  chars "press any key to try again..." ++ [13; 10; 0; 0].

(** [strlen] stops at the first zero. *)
Fixpoint c_string (l : bytes) : bytes :=
  match l with [] => [] | c :: l => if c =? 0 then [] else c :: c_string l end.

Section createfs.
Context {W : Type} `{DosWorld W} `{FloppyFuel}.
Notation FM := (M (fmt W)).
Notation EM A := (M (fmt W) (ended A)).

Definition modbpb (f : STD_BPB → STD_BPB) : FM () :=
  modify (λ s, s <| parameter_block ::= λ p, p <| bpb ::= f |> |>).
Definition modxbpb (f : FAT32_BPB → FAT32_BPB) : FM () :=
  modify (λ s, s <| parameter_block ::= λ p, p <| xbpb ::= f |> |>).
Definition modparam (f : FP → FP) : FM () := modify (λ s, s <| param ::= f |>).
Definition modinfo (f : FSI → FSI) : FM () := modify (λ s, s <| file_sys_info ::= f |>).
Definition modext (f : EXT_BS → EXT_BS) : FM () := modify (λ s, s <| bs_ext ::= f |>).
Definition get_bpb : FM STD_BPB := gets (λ s, bpb (parameter_block s)).
Definition get_xbpb : FM FAT32_BPB := gets (λ s, xbpb (parameter_block s)).
Definition is_fat32 : FM bool := gets (λ s, fat_type (param s) =? FAT32).

(** * The geometry *)

(** The clusters that [total_sectors], or the 32 bit count, leaves. *)
Definition bpb_total (b : STD_BPB) : Z :=
  if total_sectors b =? 0
  then Z.lor (u32 (Z.shiftl (large_sector_count_high b) 16)) (large_sector_count_low b)
  else total_sectors b.
Definition cluster_count : EM Z :=
  b ⇐. get_bpb;
  i ⇐. gets file_sys_info;
  fat32 ⇐. is_fat32;
  let totalsect := u32 (bpb_total b - start_root_dir_sect i) in
  let totalsect := if (fat32 : bool) then totalsect else u32 (totalsect - number_root_dir_sect i) in
  if sectors_per_cluster b =? 0 then Exit 4 20
  else run (zdiv totalsect (sectors_per_cluster b)).

(** The sectors of each table, and whether the 16 bit count says FAT32. *)
Definition get_fat_sectors : FM () :=
  b ← get_bpb;
  x ← get_xbpb;
  modinfo (λ i, i <| start_fat_sector := reserved_sectors b |> <| number_fat_sectors := sectors_per_fat b |>);;
  if sectors_per_fat b =? 0 then
    modparam (λ p, p <| fat_type := FAT32 |>);;
    modinfo (λ i, i <| number_fat_sectors := Z.lor (u32 (Z.shiftl (fat_size_high x) 16)) (fat_size_low x) |>)
  else mret ().

(** The root directory of FAT12 and FAT16: its size is rounded up to whole sectors. *)
Definition round_entries (entries entries_per_sector : Z) : Z :=
  if nz (Z.land entries (u32 (entries_per_sector - 1)))
  then u16 (u16 (Z.lor entries (u32 (entries_per_sector - 1))) + 1) else entries.
Definition get_root_size : FM () :=
  b ← get_bpb;
  let entries_per_sector := bytes_per_sector b / 32 in
  let entries := round_entries (root_directory_entries b) entries_per_sector in
  modbpb (λ b, b <| root_directory_entries := entries |>);;
  n ← zdiv entries entries_per_sector;
  modinfo (λ i, i <| number_root_dir_sect := n |>).

(** That of FAT32 is a chain of clusters: 512 entries, or one cluster. *)
Definition get_root_size32 : FM () :=
  b ← get_bpb;
  let entries_per_cluster := u32 (bytes_per_sector b / 32 * sectors_per_cluster b) in
  modbpb (λ b, b <| root_directory_entries := 0 |>);;
  n ← zdiv (u32 (32 * Z.max 512 entries_per_cluster)) (bytes_per_sector b);
  modinfo (λ i, i <| number_root_dir_sect := n |>).

Definition Get_FS_Info : EM () :=
  _ ⇐. get_fat_sectors;
  b ⇐. get_bpb;
  _ ⇐. modinfo (λ i, i <| start_root_dir_sect :=
         u32 (u32 (number_fat_sectors i * number_of_fats b) + reserved_sectors b) |>);
  fat32 ⇐. is_fat32;
  _ ⇐. (if (fat32 : bool) then get_root_size32 else get_root_size);
  n ⇐ cluster_count;
  _ ⇐. modinfo (λ i, i <| total_clusters := n |>);
  b ⇐. get_bpb;
  fwhen (negb (bytes_per_sector b =? 512) || (number_of_fats b <? 1) || (2 <? number_of_fats b)) (Exit 4 21).

(** * The boot sector *)

Definition Create_Boot_Sect_Start : FM () :=
  p ← gets param;
  modify (λ s, s <| bs_start :=
    mkStdBs [0xeb; if (fat_type p =? FAT12) || (fat_type p =? FAT16) then 0x3c else 0x58; 0x90]
            (chars "FRDOS4.1") |>).

(** From the clock. *)
Definition serial_of (date : Z * Z * Z) (time : Z * Z * Z * Z) : Z :=
  let '(year, month, day) := date in
  let '(hour, minute, second, hundredth) := time in
  let low := u32 (u32 (Z.shiftl (u8 hour) 8 + u8 minute) + year) in
  let high := u32 (u32 (Z.shiftl (u8 second) 8 + u8 hundredth) + u32 (Z.shiftl (u8 month) 8 + u8 day)) in
  u32 (u32 (Z.shiftl high 16) + low).
Definition Create_Serial_Number : FM Z :=
  date ← dos getdate; time ← dos gettime; mret (serial_of date time).

(** A label padded with spaces. *)
Definition label_name (label : bytes) : bytes := take 11 (c_string label ++ replicate 11 32).
Definition label_field (p : FP) : bytes := if f_v p then label_name (volume_label p) else chars "NO NAME    ".
Definition type_field (old : bytes) (t : Z) : bytes :=
  let f := poke old 0 (chars "FAT1") in
  let f := if t =? FAT12 then poke f 4 [50] else if t =? FAT16 then poke f 4 [54]
           else if t =? FAT32 then poke f 3 (chars "32") else f in
  poke f 5 (chars "   ").
Definition Create_Boot_Sect_Ext : FM () :=
  p ← gets param;
  modext (λ e, if drive_type p =? FLOPPY then e <| bs_drive_number := 0x00 |> else
               if drive_type p =? HARD then e <| bs_drive_number := 0x80 |> else e);;
  n ← Create_Serial_Number;
  modext (λ e, e <| bs_reserved := 0x00 |> <| signature_byte := 0x29 |> <| serial_number := le32 n |>);;
  modify (λ s, s <| serial_number_low := u16 n |> <| serial_number_high := Z.shiftr n 16 |>);;
  modext (λ e, e <| bs_volume_label := label_field p |>
                 <| file_system_type ::= λ f, type_field f (fat_type p) |>).

(** * The reserved sectors *)

Definition fs_info_sector (free_count : Z) : bytes :=
  le32 0x41615252 ++ zeroes 480 ++ le32 0x61417272 ++ le32 free_count ++ le32 2 ++ zeroes 12 ++ le32 0xaa550000.
Definition Create_FS_Info_Sector : FM () :=
  i ← gets file_sys_info;
  b ← get_bpb;
  n ← zdiv (number_root_dir_sect i) (sectors_per_cluster b);
  put_buffer 0 (fs_info_sector (u32 (total_clusters i - n))).

(** The second boot sector of FAT32, and what its extension says of the copies. *)
Definition backup_invalid (b : STD_BPB) (x : FAT32_BPB) : bool :=
  (backup_boot_sector x <? 3) || (reserved_sectors b - 3 <? backup_boot_sector x) || (backup_boot_sector x =? 0xffff).
Definition info_invalid (b : STD_BPB) (x : FAT32_BPB) (use_backups : Z) : bool :=
  (reserved_sectors b <=? info_sector_number x + use_backups) || (info_sector_number x =? 0xffff) ||
  (info_sector_number x =? 0) || (info_sector_number x =? 2).

Definition write_info_sectors (x : FAT32_BPB) (use_backups : Z) : EM () :=
  _ ⇐. Create_FS_Info_Sector;
  _ ⇐ Drive_IO WRITE (info_sector_number x) 1;
  fwhen (nz use_backups) (
    _ ⇐. put_buffer 488 [0xff; 0xff; 0xff; 0xff];
    _ ⇐ Drive_IO WRITE (use_backups + info_sector_number x) (-1);
    fret ()).

Definition Write_Boot_Sectors : EM () :=
  _ ⇐ Drive_IO WRITE 0 1;
  fat32 ⇐. is_fat32;
  fwhen fat32 (
    b ⇐. get_bpb;
    x ⇐. get_xbpb;
    use_backups ⇐ (if backup_invalid b x then fret 0
                   else _ ⇐ Drive_IO WRITE (backup_boot_sector x) (-1); fret (backup_boot_sector x));
    _ ⇐ fwhen (negb (info_invalid b x use_backups)) (write_info_sectors x use_backups);
    _ ⇐. Clear_Sector_Buffer;
    _ ⇐. put_buffer 510 [0x55; 0xaa];
    _ ⇐ Drive_IO WRITE 2 1;
    fwhen (nz use_backups) (_ ⇐ Drive_IO WRITE (use_backups + 2) (-1); fret ())).

(** Is sector [index] one that [Clear_Reserved_Sectors] leaves alone? *)
Definition spared (fat32 : bool) (fsinfo backup index : Z) : bool :=
  if fat32 then (index =? fsinfo) || ((backup <=? index) && ((index - backup <? 3) || (index - backup =? fsinfo)))
  else false.
Fixpoint clear_reserved_from (n : nat) (fat32 : bool) (fsinfo backup reserved index : Z) : EM () :=
  match n with
  | O => run nofuel
  | S n =>
      _ ⇐ (if spared fat32 fsinfo backup index then fret 0 else Drive_IO WRITE index (-1));
      if index + 1 <? reserved then clear_reserved_from n fat32 fsinfo backup reserved (index + 1) else fret ()
  end.
Definition Clear_Reserved_Sectors : EM () :=
  b ⇐. get_bpb;
  x ⇐. get_xbpb;
  fat32 ⇐. is_fat32;
  let reserved := reserved_sectors b in
  let upto n := if reserved <? n then 0 else n in
  let fsinfo := if (fat32 : bool) then upto (info_sector_number x) else 0 in
  let backup := if (fat32 : bool) then upto (backup_boot_sector x) else 0 in
  _ ⇐. Clear_Sector_Buffer;
  clear_reserved_from (S (Z.to_nat reserved)) fat32 fsinfo backup reserved (if (fat32 : bool) then 3 else 1).

(** * The tables and the root directory *)

(** The loop writes 21 sectors at a time as long as it can; what it computes of the
    progress divides by the size of the area. *)
Fixpoint fat_area_from (n : nat) (start last sector : Z) : EM () :=
  match n with
  | O => run nofuel
  | S n =>
      _ ⇐. zdiv (u32 (100 * u32 (sector - start))) (u32 (last - start));
      let count := if u32 (sector + HUGE_SECTOR_BUFFER_SNUM) <? last then HUGE_SECTOR_BUFFER_SNUM else 1 in
      _ ⇐ Drive_IO WRITE sector count;
      let sector := u32 (sector + count) in
      if sector <=? last then fat_area_from n start last sector else fret ()
  end.

(** The chain of the root directory of FAT32, from cluster 2 on. *)
Fixpoint root_chain (nclust : nat) (sbp cnum : Z) : FM () :=
  match nclust with
  | O => mret ()
  | S n =>
      if sbp <=? 508 then
        (if Nat.eqb n 0 then put_buffer sbp [0xff; 0xff; 0xff; 0x0f]
         else put_buffer sbp [u8 (cnum + 1)];; put_buffer (sbp + 1) [0; 0; 0]);;
        root_chain n (sbp + 4) (cnum + 1)
      else mret ()
  end.

(** The first sector of a table. *)
Definition first_fat_sector : FM () :=
  b ← get_bpb;
  p ← gets param;
  i ← gets file_sys_info;
  put_buffer 0 [u8 (media_descriptor b)];;
  put_buffer 1 [0xff; 0xff];;
  (if fat_type p =? FAT16 then put_buffer 3 [0xff] else mret ());;
  if fat_type p =? FAT32 then
    put_buffer 3 [0x0f; 0xff; 0xff; 0xff; 0x0f];;
    nclust ← zdiv (number_root_dir_sect i) (sectors_per_cluster b);
    root_chain (Z.to_nat nclust) 8 2
  else mret ().

Definition Write_FAT_Tables : EM () :=
  _ ⇐. Clear_Sector_Buffer;
  _ ⇐. Clear_Huge_Sector_Buffer;
  b ⇐. get_bpb;
  i ⇐. gets file_sys_info;
  let start := start_fat_sector i in
  let last := u32 (u32 (number_fat_sectors i * number_of_fats b) + u32 (start - 1)) in
  _ ⇐ fwhen (negb (number_of_fats b =? 1) && negb (number_of_fats b =? 2)) (Exit 4 22);
  _ ⇐ fat_area_from (S (Z.to_nat (last - start))) start last start;
  _ ⇐. first_fat_sector;
  _ ⇐ Drive_IO WRITE start 1;
  fwhen (number_of_fats b =? 2) (_ ⇐ Drive_IO WRITE (u32 (start + number_fat_sectors i)) 1; fret ()).

Fixpoint write_zero_sectors (n : nat) (sector last : Z) : EM () :=
  match n with
  | O => run nofuel
  | S n =>
      _ ⇐ Drive_IO WRITE sector 1;
      if u32 (sector + 1) <? last then write_zero_sectors n (u32 (sector + 1)) last else fret ()
  end.

(** The label as a directory entry, with the time it is made. *)
Definition label_time (time : Z * Z * Z * Z) : Z :=
  let '(hour, minute, second, _) := time in
  u16 (Z.lor (u16 (Z.lor (Z.shiftr (u8 second) 1) (Z.shiftl (u8 minute) 5))) (Z.shiftl (u8 hour) 11)).
Definition label_date (date : Z * Z * Z) : Z :=
  let '(year, month, day) := date in
  u16 (Z.lor (u16 (Z.lor (u8 day) (Z.shiftl (u8 month) 5))) (Z.shiftl (u16 (year - 1980)) 9)).
Definition write_label (sector : Z) : EM () :=
  p ⇐. gets param;
  _ ⇐. Clear_Sector_Buffer;
  _ ⇐. put_buffer 0 (label_name (volume_label p));
  _ ⇐. put_buffer 0x0b [0x08];
  time ⇐. dos gettime;
  _ ⇐. put_buffer 0x16 (le16 (label_time time));
  date ⇐. dos getdate;
  _ ⇐. put_buffer 0x18 (le16 (label_date date));
  _ ⇐ Drive_IO WRITE sector 1;
  fret ().

Definition Write_Root_Directory : EM () :=
  _ ⇐. Clear_Sector_Buffer;
  i ⇐. gets file_sys_info;
  p ⇐. gets param;
  let sector := start_root_dir_sect i in
  _ ⇐ write_zero_sectors (S (Z.to_nat (number_root_dir_sect i))) sector (u32 (sector + number_root_dir_sect i));
  fwhen (f_v p) (write_label sector).

(** * The file system *)

(** Where the copies of the boot sector are, if the parameters do not say. *)
Definition fix_xbpb (reserved : Z) (x : FAT32_BPB) : FAT32_BPB :=
  let none n := (n =? 0) || (n =? 0xffff) in
  if none (info_sector_number x) || none (backup_boot_sector x) then
    if 16 <=? reserved then x <| info_sector_number := 1 |> <| backup_boot_sector := 6 |>
    else x <| info_sector_number := 0xffff |> <| backup_boot_sector := 0xffff |>
  else x.

(** The boot sector in the buffer. *)
Definition compose_boot_sector : FM () :=
  fat32 ← is_fat32;
  s ← gets (λ s, s);
  put_buffer 0 (encode_bs (bs_start s));;
  put_buffer 11 (encode_bpb (bpb (parameter_block s)));;
  (if (fat32 : bool) then
     modxbpb (fix_xbpb (reserved_sectors (bpb (parameter_block s))));;
     x ← get_xbpb; put_buffer 36 (encode_xbpb x)
   else mret ());;
  let ofs := if (fat32 : bool) then 64 else 36 in
  put_buffer ofs (encode_ext (bs_ext s));;
  put_buffer (ofs + 26) boot_code;;
  put_buffer (ofs + 26 + Z.of_nat (length boot_code)) boot_message;;
  put_buffer 510 [0x55; 0xaa].

Definition Create_File_System : EM () :=
  _ ⇐ Get_FS_Info;
  _ ⇐. Create_Boot_Sect_Start;
  _ ⇐. Create_Boot_Sect_Ext;
  _ ⇐. Clear_Sector_Buffer;
  _ ⇐. compose_boot_sector;
  _ ⇐ Write_Boot_Sectors;
  b ⇐. get_bpb;
  _ ⇐ fwhen (1 <? reserved_sectors b) Clear_Reserved_Sectors;
  _ ⇐ Write_FAT_Tables;
  Write_Root_Directory.

(** * Media of floppy disks *)

(** [while (drive_specs[index].number_of_heads == 0) index++]; [None] when it leaves the
    table. *)
Fixpoint skip_placeholders (n : nat) (index : nat) : option nat :=
  match n with
  | O => None
  | S n =>
      b ← drive_specs !! index;
      if number_of_heads b =? 0 then skip_placeholders n (S index) else Some index
  end.
Fixpoint find_media (n : nat) (matches : STD_BPB → bool) (index : nat) : FM (option nat) :=
  match n with
  | O => nofuel
  | S n =>
      b ← deref (drive_specs !! index);
      if matches b then mret (Some index)
      else
        j ← deref (skip_placeholders (length drive_specs) (S index));
        b ← deref (drive_specs !! j);
        if bytes_per_sector b =? 512 then find_media n matches j else mret None
  end.
Definition media_cylinders (b : STD_BPB) : Z := total_sectors b / number_of_heads b / sectors_per_cylinder b.
Definition media_matches (p : FP) (b : STD_BPB) : bool :=
  (f_f p && (fp_size p =? Z.shiftr (total_sectors b) 1)) ||
  (f_t p && (cylinders p =? media_cylinders b) && (sectors p =? sectors_per_cylinder b) &&
   (sides p =? number_of_heads b)).
Definition use_media (index : nat) : FM () :=
  b ← deref (drive_specs !! index);
  modparam (λ p, p <| media_type := Z.of_nat index |> <| fp_size := Z.shiftr (total_sectors b) 1 |>
                   <| cylinders := media_cylinders b |> <| sectors := sectors_per_cylinder b |>
                   <| sides := number_of_heads b |>).
(** The medium that was asked for, by size or by geometry; or the default of the drive. *)
Definition select_media (matches : STD_BPB → bool) (fderror : Z) : EM () :=
  r ⇐. find_media (length drive_specs) matches 0;
  match r with
  | Some index => run (use_media index)
  | None => Exit 4 fderror
  end.
Definition choose_media : EM () :=
  p ⇐. gets param;
  fwhen (f_t p || f_f p) (select_media (media_matches p) 41).
Definition default_media (preferredsize : Z) : EM () :=
  _ ⇐. modparam (λ p, p <| fp_size := preferredsize |>);
  select_media (λ b, preferredsize =? Z.shiftr (total_sectors b) 1) 42.
(** [memcpy(&parameter_block.bpb, &drive_specs[param.media_type], sizeof(STD_BPB))] *)
Definition copy_specs : FM () :=
  p ← gets param;
  b ← deref (if media_type p <? 0 then None else drive_specs !! Z.to_nat (media_type p));
  modbpb (λ _, b).

(** * Parameters of hard disks *)

Definition ask_parameters (category : Z) : FM (bool * Z) :=
  p ← gets param;
  pb ← gets parameter_block;
  r ← dos (ioctl_parameters category (u8 (drive_number p + 1)) pb);
  let '(res, pb) := r in
  modify (λ s, s <| parameter_block := pb |>);; mret res.
Definition modpb (f : PB → PB) : FM () := modify (λ s, s <| parameter_block ::= f |>).

(** FAT12 or FAT16 parameters, unless they look like those of FAT32. *)
Definition ask_fat16 : EM () :=
  _ ⇐. modbpb (λ b, b <| bytes_per_sector := 0 |> <| sectors_per_cluster := 0 |> <| number_of_fats := 0 |>
         <| large_sector_count_low := 0 |> <| large_sector_count_high := 0 |> <| sectors_per_fat := 0xffff |>);
  _ ⇐. modpb (λ p, p <| query_flags := 4 |> <| pb_media_type := 0 |>);
  r ⇐. ask_parameters 0x08;
  let '(carry, al) := r in
  b ⇐. get_bpb;
  fwhen (carry || (512 <? sectors_per_fat b)) (
    _ ⇐ (if carry then fwhen ((al =? 0x0f) || (al =? 0x05)) (Exit 4 55)
         else run (modbpb (λ b, b <| sectors_per_fat := 0 |> <| root_directory_entries := 0 |>)));
    run (modbpb (λ b, b <| sectors_per_fat := 0 |>))).
Definition ask_fat32 : EM () :=
  _ ⇐. modbpb (λ b, b <| root_directory_entries := 0 |> <| sectors_per_fat := 0xffff |>);
  _ ⇐. modparam (λ p, p <| fat_type := FAT32 |>);
  _ ⇐. modpb (λ p, p <| query_flags := 4 |> <| pb_media_type := 0 |>);
  r ⇐. ask_parameters 0x48;
  let '(carry, al) := r in
  b ⇐. get_bpb;
  _ ⇐ fwhen (carry || nz (sectors_per_fat b)) (Exit 4 55);
  run (modxbpb (λ x, if (root_dir_start_high x =? 0) && (root_dir_start_low x <? 2)
                     then x <| root_dir_start_low := 2 |> else x)).

(** The type that the size of the tables tells. *)
Definition type_of_size (n : Z) : Z :=
  if (0 <? n) && (n <=? 12) then FAT12 else if (12 <? n) && (n <? 512) then FAT16 else FAT32.
Definition correct_parameters : FM () :=
  b ← get_bpb;
  modparam (λ p, p <| fat_type := type_of_size (sectors_per_fat b) |>);;
  fat32 ← is_fat32;
  if (fat32 : bool) || (sectors_per_fat b =? 0) || (root_directory_entries b =? 0) then
    modbpb (λ b, b <| sectors_per_fat := 0 |> <| root_directory_entries := 0 |>);;
    modparam (λ p, p <| fat_type := FAT32 |>)
  else mret ().

Definition Get_Device_Parameters : EM () :=
  _ ⇐ ask_fat16;
  b ⇐. get_bpb;
  _ ⇐ fwhen (sectors_per_fat b =? 0) ask_fat32;
  run correct_parameters.
End createfs.
