(* ===== verification/FormatSpec.v ===== *)
(** Correctness of the format program ([Format]): what is on the disk after it has made a
    FAT12 or FAT16 file system, and that the driver of [FatVolume] mounts it. *)
From S2P Require Import Prelude Errno Lists Nls Slab FatTypes FatDisk FatBuffer FatAlloc FatVolume.
From S2P Require Import FatCache FatTable FatChain FatMount FormatIO Format.

(** * The disk under DOS *)

(** [l] has been written to the [count] sectors from [from] on, and nothing else. *)
Definition written {W} `{FixedDisk W} (l : bytes) (from count : Z) (w w' : W) : Prop :=
  disk_size w' = disk_size w ∧
  ∀ n, disk w' n = if (from <=? n) && (n <? from + count) then slice l ((n - from) * 512) 512 else disk w n.

(** The dates and times of the clock of DOS. *)
Definition date_valid (date : Z * Z * Z) : bool :=
  let '(y, m, d) := date in (1980 <=? y) && (y <? 2108) && (1 <=? m) && (m <=? 12) && (1 <=? d) && (d <=? 31).
Definition time_valid (time : Z * Z * Z * Z) : bool :=
  let '(h, m, s, c) := time in
  (0 <=? h) && (h <? 24) && (0 <=? m) && (m <? 60) && (0 <=? s) && (s <? 60) && (0 <=? c) && (c <? 100).

(** What the program relies on of DOS and the BIOS when the disk is good: a write of
    sectors that the disk has succeeds, the clock is set and leaves the disk alone. *)
Class DosDisk (W : Type) `{FixedDisk W} `{DosWorld W} := {
  dd_block : disk_block = 512;
  dd_int13 dl l w : 0 < disk_size w → Z.of_nat (length l) = 512 →
    (int13_write dl l w).1.1 = false ∧ written l 0 1 w (int13_write dl l w).2;
  dd_int26 al from count l w :
    0 ≤ from → 0 < count → from + count ≤ disk_size w → Z.of_nat (length l) = count * 512 →
    (int26 al from count l w).1.1 = false ∧ written l from count w (int26 al from count l w).2;
  dd_int21 dl from count l w :
    0 ≤ from → 0 < count → from + count ≤ disk_size w → Z.of_nat (length l) = count * 512 →
    (int21_7305_write dl from count l w).1.1 = false ∧ written l from count w (int21_7305_write dl from count l w).2;
  dd_date w : same_disk w (getdate w).2;
  dd_time w : same_disk w (gettime w).2;
  dd_clock w : date_valid (getdate w).1 = true ∧ time_valid (gettime w).1 = true }.

(** [w'] is reached from [w] by calls of DOS and the BIOS. *)
Inductive later {W} `{DosWorld W} (w : W) : W → Prop :=
  | later_now : later w w
  | later_date w' : later w w' → later w (getdate w').2
  | later_time w' : later w w' → later w (gettime w').2
  | later_int13 dl l w' : later w w' → later w (int13_write dl l w').2
  | later_int26 al from count l w' : later w w' → later w (int26 al from count l w').2
  | later_int21 dl from count l w' : later w w' → later w (int21_7305_write dl from count l w').2.
Lemma world_later_trans {W} `{DosWorld W} (w1 w2 w3 : W) : later w1 w2 → later w2 w3 → later w1 w3.
Proof. induction 2; by (done || constructor). Qed.

(** A time and a date in a directory entry, and the serial number of a volume. *)
Definition time_word (time : Z * Z * Z * Z) : Z := let '(h, m, s, _) := time in h * 2048 + m * 32 + s / 2.
Definition date_word (date : Z * Z * Z) : Z := let '(y, m, d) := date in (y - 1980) * 512 + m * 32 + d.
Definition volume_serial (date : Z * Z * Z) (time : Z * Z * Z * Z) : Z :=
  let '(y, m, d) := date in
  let '(h, mi, s, c) := time in
  (s * 256 + c + (m * 256 + d)) * 65536 + (h * 256 + mi + y).

Lemma label_time_word time : time_valid time = true → label_time time = time_word time.
Proof.
  destruct time as [[[h m] s] c]. unfold time_valid, label_time, time_word.
  rewrite !andb_true_iff, !Z.leb_le, !Z.ltb_lt. intros H. assert (0 ≤ s / 2 < 32) by (Z.div_mod_to_equations; lia).
  rewrite !u8_small, shiftr_div by lia. change (2 ^ 1) with 2.
  rewrite (Z.lor_comm _ (Z.shiftl m 5)), lor_shiftl_add by lia. change (2 ^ 5) with 32. rewrite (u16_small (_ + _)) by lia.
  rewrite Z.lor_comm, lor_shiftl_add by lia. change (2 ^ 11) with 2048. rewrite u16_small by lia. lia.
Qed.
Lemma label_date_word date : date_valid date = true → label_date date = date_word date.
Proof.
  destruct date as [[y m] d]. unfold date_valid, label_date, date_word.
  rewrite !andb_true_iff, !Z.leb_le, !Z.ltb_lt. intros H.
  rewrite !u8_small, (u16_small (y - 1980)) by lia.
  rewrite (Z.lor_comm _ (Z.shiftl m 5)), lor_shiftl_add by lia. change (2 ^ 5) with 32. rewrite (u16_small (_ + _)) by lia.
  rewrite Z.lor_comm, lor_shiftl_add by lia. change (2 ^ 9) with 512. rewrite u16_small by lia. lia.
Qed.
Lemma serial_of_clock date time :
  date_valid date = true → time_valid time = true → serial_of date time = volume_serial date time.
Proof.
  destruct date as [[y m] d], time as [[[h mi] s] c]. unfold date_valid, time_valid, serial_of, volume_serial.
  rewrite !andb_true_iff, !Z.leb_le, !Z.ltb_lt. intros Hd Ht.
  rewrite !u8_small, !shiftl_mul by lia. change (2 ^ 8) with 256. change (2 ^ 16) with 65536.
  rewrite (u32_small (h * 256 + mi)), (u32_small (s * 256 + c)), (u32_small (m * 256 + d)) by lia.
  rewrite (u32_small (h * 256 + mi + y)), (u32_small (s * 256 + c + _)) by lia.
  rewrite (u32_small (_ * 65536)), u32_small by lia. lia.
Qed.

(** The sectors from [a] to before [b] hold [bs], the others what they held. *)
Definition filled {W} `{FixedDisk W} `{DosWorld W} (bs : bytes) (a b : Z) (w w' : W) : Prop :=
  disk_size w' = disk_size w ∧
  (∀ n, disk w' n = if (a <=? n) && (n <? b) then bs else disk w n) ∧ later w w'.

Section io.
Context {W : Type} `{FW : FatWorld W} `{FD : !FixedDisk W} `{DW : DosWorld W} `{DD : !DosDisk W} `{FF : FloppyFuel}.
Context (fuel_pos : (0 < floppy_fuel)%nat).
Implicit Types (s : fmt W) (w : W) (bs : bytes).

Lemma filled_one l n w w' : Z.of_nat (length l) = 512 → written l n 1 w w' → later w w' → filled l n (n + 1) w w'.
Proof.
  intros Hl [Hs Hd] Hw. split; [done|]. split; [|done]. intros m. rewrite Hd. destruct (_ && _) eqn:E; [|done].
  rewrite andb_true_iff, Z.leb_le, Z.ltb_lt in E. replace (m - n) with 0 by lia. by apply slice_full.
Qed.
Lemma fmt_slice_zeroes a i n : 0 ≤ i → 0 ≤ n → i + n ≤ a → slice (zeroes a) i n = zeroes n.
Proof.
  intros. unfold slice, zeroes. rewrite drop_replicate, take_replicate. f_equal. lia.
Qed.
Lemma filled_zeroes n k w w' : written (zeroes (k * 512)) n k w w' → later w w' → filled (zeroes 512) n (n + k) w w'.
Proof.
  intros [Hs Hd] Hw. split; [done|]. split; [|done]. intros m. rewrite Hd. destruct (_ && _) eqn:E; [|done].
  rewrite andb_true_iff, Z.leb_le, Z.ltb_lt in E. apply fmt_slice_zeroes; lia.
Qed.
Lemma filled_join bs a m b w w1 w2 : a ≤ m ≤ b → filled bs a m w w1 → filled bs m b w1 w2 → filled bs a b w w2.
Proof.
  intros Hm (S1 & D1 & L1) (S2 & D2 & L2). split; [congruence|]. split; [|by eapply world_later_trans]. intros n. rewrite D2, D1.
  destruct (Z.leb_spec m n), (Z.ltb_spec n b), (Z.leb_spec a n), (Z.ltb_spec n m); try lia; done.
Qed.
Lemma filled_empty bs a w : filled bs a a w w.
Proof. split; [done|]. split; [|constructor]. intros n. destruct (Z.leb_spec a n), (Z.ltb_spec n a); try lia; done. Qed.

(** * [Drive_IO] *)

(** The state of the program with another disk. *)
Definition on_disk s w : fmt W := s <| fm_world := w |>.

Lemma on_disk_twice s w w' : on_disk (on_disk s w) w' = on_disk s w'.
Proof. done. Qed.
Lemma on_disk_same s : on_disk s (fm_world s) = s.
Proof. by destruct s. Qed.

(** The bytes that a transfer of [count] sectors takes. *)
Definition io_data s (count : Z) : bytes := if count =? 1 then sector_buffer s else huge_sector_buffer s.
Definition buffer_ok s (count : Z) : Prop := 0 < count ∧ Z.of_nat (length (io_data s count)) = count * 512.

Lemma wp_write_call s count (f : bytes → W → (bool * Z) * W) (Q : bool * Z → fmt W → Prop) :
  buffer_ok s count → Q (f (io_data s count) (fm_world s)).1 (on_disk s (f (io_data s count) (fm_world s)).2) →
  wp (write_call count f) Q s.
Proof.
  intros [Hc Hb] HQ. unfold write_call, io_bytes. apply wp_bind, wp_bind, wp_gets.
  replace ((if count =? 1 then sector_buffer else huge_sector_buffer) s) with (io_data s count)
    by (unfold io_data; by destruct (count =? 1)).
  rewrite in_block_true, slice_full by lia. exact HQ.
Qed.

Lemma wp_floppy_boot n s (Q : Z → fmt W → Prop) :
  (0 < n)%nat → buffer_ok s 1 → 0 < disk_size (fm_world s) →
  (∀ w', written (sector_buffer s) 0 1 (fm_world s) w' → later (fm_world s) w' → Q 0 (on_disk s w')) →
  ∀ d, wp (floppy_boot_from n 0 d WRITE) Q s.
Proof.
  intros Hn Hb Hs HQ d. destruct n as [|n]; [lia|]. cbn [floppy_boot_from]. apply wp_bind.
  change (WRITE =? WRITE) with true. cbv iota. apply wp_write_call; [done|].
  destruct (dd_int13 d (sector_buffer s) (fm_world s)) as [Hc Hw]; [done|by apply Hb|].
  change (io_data s 1) with (sector_buffer s).
  pose proof (later_int13 _ d (sector_buffer s) _ (later_now (fm_world s))) as HL.
  destruct (int13_write d (sector_buffer s) (fm_world s)) as [[c ah] w']. cbn in Hc, Hw, HL. subst c. cbn.
  by apply HQ.
Qed.

Definition drive_ok s : Prop := 0 ≤ drive_number (param s) < 128.

(** One attempt is enough. *)
Lemma fwp_attempt s n count (Q : Z → fmt W → Prop) :
  drive_ok s → buffer_ok s count → 0 ≤ n → n + count ≤ disk_size (fm_world s) →
  (∀ w', written (io_data s count) n count (fm_world s) w' → later (fm_world s) w' → Q 0 (on_disk s w')) →
  fwp (if negb (fat_type (param s) =? FormatIO.FAT32)
       then TE_AbsReadWrite (drive_number (param s)) count n WRITE
       else FormatIO.run (FAT32_AbsReadWrite (drive_number (param s)) count n WRITE)) Q s.
Proof.
  intros Hd Hb Hn Hle HQ. destruct (negb _).
  - unfold TE_AbsReadWrite. destruct (_ && _) eqn:E.
    + rewrite !andb_true_iff, !Z.eqb_eq, Z.ltb_lt in E. destruct E as [[-> ->] Hl]. apply fwp_bind, fwp_run.
      unfold FloppyBootReadWrite, has. set (d := Z.land _ 0x7f) in *.
      assert (0 ≤ d) by (apply Z.land_nonneg; lia).
      replace (_ || _) with false.
      2: { symmetry. rewrite !orb_false_iff, Z.ltb_ge. split_and!; [lia| |done|done].
           assert (d = 0 ∨ d = 1) as [->| ->] by lia; done. }
      apply wp_floppy_boot; [done|done|destruct Hb; lia|]. intros w' Hw HL. apply fwp_ret. by apply HQ.
    + change (WRITE =? READ) with false. change (WRITE =? WRITE) with true. cbv iota.
      apply fwp_bind, fwp_run, wp_write_call; [done|]. apply fwp_ret.
      destruct (dd_int26 (u8 (drive_number (param s))) n count (io_data s count) (fm_world s)) as [Hc Hw];
        [done|apply Hb|done|apply Hb|]. rewrite Hc. apply HQ; [done|]. repeat constructor.
  - apply fwp_run. unfold FAT32_AbsReadWrite. apply wp_bind. change (WRITE =? READ) with false. cbv iota.
    apply wp_write_call; [done|]. apply wp_ret.
    destruct (dd_int21 (u8 (drive_number (param s) + 1)) n count (io_data s count) (fm_world s)) as [Hc Hw];
      [done|apply Hb|done|apply Hb|]. rewrite Hc. apply HQ; [done|]. repeat constructor.
Qed.

Lemma fwp_Drive_IO s n count (Q : Z → fmt W → Prop) :
  drive_ok s → buffer_ok s (Z.abs count) → 0 ≤ n → n + Z.abs count ≤ disk_size (fm_world s) →
  (∀ w', written (io_data s (Z.abs count)) n (Z.abs count) (fm_world s) w' → later (fm_world s) w' → Q 0 (on_disk s w')) →
  fwp (Drive_IO WRITE n count) Q s.
Proof.
  intros Hd Hb Hn Hle HQ. unfold Drive_IO, nz. destruct Hb as [Hc Hb].
  rewrite (proj2 (Z.eqb_neq (Z.abs count) 0)) by lia. cbn [negb].
  apply fwp_bind. unfold drive_attempts. cbn [drive_io_retry]. apply fwp_bind, fwp_run, wp_gets.
  apply fwp_bind. apply fwp_attempt; [done|by split|done|done|]. intros w' Hw HL.
  apply fwp_bind, fwp_run, wp_gets. unfold nz. cbn [Z.eqb andb negb]. apply fwp_ret.
  apply fwp_bind, fwp_run, wp_gets. apply fwp_bind. cbn [Z.eqb andb negb fwhen]. apply fwp_ret.
  apply fwp_bind, fwp_run, wp_modify, fwp_ret.
  replace (_ <| param ::= _ |>) with (on_disk s w'); [by apply HQ|]. unfold drive_ok in Hd. destruct s as [? ? p].
  unfold on_disk. cbn. f_equal. change 127 with (Z.ones 7). rewrite Z.land_ones, Z.mod_small by (cbn in *; lia).
  by destruct p.
Qed.

(** One sector from the buffer; 21 sectors of zeroes. *)
Lemma fwp_write_sector s n count (Q : Z → fmt W → Prop) :
  drive_ok s → length (sector_buffer s) = 512%nat → Z.abs count = 1 → 0 ≤ n < disk_size (fm_world s) →
  (∀ w', filled (sector_buffer s) n (n + 1) (fm_world s) w' → Q 0 (on_disk s w')) →
  fwp (Drive_IO WRITE n count) Q s.
Proof.
  intros Hd Hb Hc Hn HQ. apply fwp_Drive_IO; rewrite ?Hc; [done| |lia|lia|].
  - split; [done|]. cbn. lia.
  - intros w' Hw HL. apply HQ, filled_one; [cbn; lia|done..].
Qed.

Lemma fwp_write_huge s n count (Q : Z → fmt W → Prop) :
  drive_ok s → sector_buffer s = zeroes 512 → huge_sector_buffer s = zeroes (HUGE_SECTOR_BUFFER_SNUM * 512) →
  count = 1 ∨ count = HUGE_SECTOR_BUFFER_SNUM → 0 ≤ n → n + count ≤ disk_size (fm_world s) →
  (∀ w', filled (zeroes 512) n (n + count) (fm_world s) w' → Q 0 (on_disk s w')) →
  fwp (Drive_IO WRITE n count) Q s.
Proof.
  intros Hd Hb Hh Hc Hn Hle HQ.
  assert (Z.abs count = count) as E by (destruct Hc as [-> | ->]; done).
  assert (io_data s count = zeroes (count * 512)) as Ed.
  { unfold io_data. destruct Hc as [-> | ->]; [exact Hb|exact Hh]. }
  apply fwp_Drive_IO; rewrite ?E; [done| |done|done|].
  - split; [destruct Hc as [-> | ->]; done|]. rewrite Ed. unfold zeroes. rewrite length_replicate.
    destruct Hc as [-> | ->]; done.
  - intros w' Hw HL. rewrite Ed in Hw. by apply HQ, filled_zeroes.
Qed.

(** * The loops *)

Lemma fwp_write_zero_sectors k n last s (Q : () → fmt W → Prop) :
  drive_ok s → sector_buffer s = zeroes 512 → 0 ≤ n < last → last ≤ disk_size (fm_world s) →
  disk_size (fm_world s) < 2 ^ 32 → (Z.to_nat (last - n) ≤ k)%nat →
  (∀ w', filled (zeroes 512) n last (fm_world s) w' → Q tt (on_disk s w')) →
  fwp (write_zero_sectors k n last) Q s.
Proof.
  revert n s. induction k as [|k IH]; intros n s Hd Hb Hn Hl Hsz Hk HQ; [lia|]. cbn [write_zero_sectors].
  apply fwp_bind, fwp_write_sector; [done|by rewrite Hb|done|lia|]. intros w1 F1. rewrite Hb in F1.
  rewrite u32_small by lia. destruct (Z.ltb_spec (n + 1) last).
  - pose proof (proj1 F1) as Es. apply IH; cbn; rewrite ?Es; [done|done|lia|lia|lia|lia|].
    intros w2 F2. apply (HQ w2). eapply filled_join; [|exact F1|exact F2]. lia.
  - apply fwp_ret, HQ. by replace last with (n + 1) by lia.
Qed.

(** The area of the tables: [last] is its last sector. *)
Lemma fwp_fat_area k start n last s (Q : () → fmt W → Prop) :
  drive_ok s → sector_buffer s = zeroes 512 → huge_sector_buffer s = zeroes (HUGE_SECTOR_BUFFER_SNUM * 512) →
  0 ≤ start ≤ n → start < last → n ≤ last → last < disk_size (fm_world s) → disk_size (fm_world s) < 2 ^ 32 - 32 →
  (Z.to_nat (last - n) < k)%nat →
  (∀ w', filled (zeroes 512) n (last + 1) (fm_world s) w' → Q tt (on_disk s w')) →
  fwp (fat_area_from k start last n) Q s.
Proof.
  revert n s. induction k as [|k IH]; intros n s Hd Hb Hh Hn Hlt Hl Hsz Hmax Hk HQ; [lia|]. cbn [fat_area_from].
  apply fwp_bind, fwp_run, wp_zdiv; [rewrite u32_small; lia|].
  unfold HUGE_SECTOR_BUFFER_SNUM in *. rewrite (u32_small (n + 21)) by lia.
  set (c := if n + 21 <? last then 21 else 1).
  assert ((c = 1 ∨ c = 21) ∧ n + c ≤ last + 1) as [Hc Hle].
  { unfold c. destruct (Z.ltb_spec (n + 21) last); lia. }
  apply fwp_bind, fwp_write_huge; [done|done|done|by destruct Hc; [left|right]|lia|lia|].
  intros w1 F1. pose proof (proj1 F1) as Es. rewrite u32_small by lia. destruct (Z.leb_spec (n + c) last).
  - apply IH; cbn; rewrite ?Es; [done|done|done|lia|lia|lia|lia|lia|lia|].
    intros w2 F2. apply (HQ w2). eapply filled_join; [|exact F1|exact F2]. lia.
  - apply fwp_ret, HQ. by replace (last + 1) with (n + c) by lia.
Qed.

Lemma fwp_clear_reserved k reserved n s (Q : () → fmt W → Prop) :
  drive_ok s → sector_buffer s = zeroes 512 → 0 ≤ n < reserved → reserved ≤ disk_size (fm_world s) →
  (Z.to_nat (reserved - n) ≤ k)%nat →
  (∀ w', filled (zeroes 512) n reserved (fm_world s) w' → Q tt (on_disk s w')) →
  fwp (clear_reserved_from k false 0 0 reserved n) Q s.
Proof.
  revert n s. induction k as [|k IH]; intros n s Hd Hb Hn Hl Hk HQ; [lia|]. cbn [clear_reserved_from].
  apply fwp_bind. cbn [spared]. apply fwp_write_sector; [done|by rewrite Hb|done|lia|].
  intros w1 F1. rewrite Hb in F1. destruct (Z.ltb_spec (n + 1) reserved).
  - pose proof (proj1 F1) as Es. apply IH; cbn; rewrite ?Es; [done|done|lia|lia|lia|].
    intros w2 F2. apply (HQ w2). eapply filled_join; [|exact F1|exact F2]. lia.
  - apply fwp_ret, HQ. by replace reserved with (n + 1) by lia.
Qed.
End io.

(** * The geometry *)

Lemma round_entries_16 e : 0 ≤ e ≤ 65520 → round_entries e 16 = (e + 15) / 16 * 16.
Proof.
  intros He. unfold round_entries, nz. rewrite (u32_small (16 - 1)) by lia. change (16 - 1) with 15.
  assert (Z.land e 15 = e mod 16) as -> by (apply (land_pow2_mod e 4); done).
  pose proof (Z.div_mod e 16 ltac:(lia)) as Hdm. pose proof (Z.mod_pos_bound e 16 ltac:(lia)) as Hm.
  destruct (Z.eqb_spec (e mod 16) 0) as [E|E]; cbn [negb].
  - replace (e + 15) with (e / 16 * 16 + 15) by lia. rewrite Z.div_add_l by lia. change (15 / 16) with 0. lia.
  - assert (Z.lor e 15 = e / 16 * 16 + 15) as ->.
    { change (e / 16 * 16) with (e / 16 * 2 ^ 4). rewrite <- (lor_shiftl_add (e / 16) 15 4) by lia. apply Z.bits_inj'. intros n Hn. rewrite !Z.lor_spec.
      change 15 with (Z.ones 4). rewrite Z.testbit_ones_nonneg by lia. destruct (Z.ltb_spec n 4).
      - by rewrite !orb_true_r.
      - rewrite !orb_false_r, Z.shiftl_spec by lia. change 16 with (2 ^ 4).
        rewrite Z.div_pow2_bits by lia. f_equal. lia. }
    replace (e + 15) with ((e / 16 + 1) * 16 + (e mod 16 - 1)) by lia.
    rewrite Z.div_add_l, (Z.div_small (e mod 16 - 1)) by lia. rewrite (u16_small (_ + 15)) by lia.
    rewrite u16_small; lia.
Qed.

(** Where the parts of a FAT12 or FAT16 file system are. *)
Definition root_sects (b : STD_BPB) : Z := (root_directory_entries b + 15) / 16.
Definition root_first (b : STD_BPB) : Z := reserved_sectors b + number_of_fats b * sectors_per_fat b.
Definition data_begin (b : STD_BPB) : Z := root_first b + root_sects b.
Definition format_clusters (b : STD_BPB) : Z := (bpb_total b - data_begin b) / sectors_per_cluster b.
Definition rounded (b : STD_BPB) : STD_BPB := b <| root_directory_entries := root_sects b * 16 |>.

(** Parameters of a disk of [size] sectors that the program can format: one or two
    tables, of two sectors together at least. *)
Record bpb_ok (b : STD_BPB) (size : Z) : Prop := {
  bo_bytes : bytes_per_sector b = 512;
  bo_spc : 0 < sectors_per_cluster b < 256;
  bo_reserved : 1 ≤ reserved_sectors b < 65536;
  bo_fats : 1 ≤ number_of_fats b ≤ 2;
  bo_fat : 0 < sectors_per_fat b < 65536;
  bo_two : 2 ≤ number_of_fats b * sectors_per_fat b;
  bo_root : 0 < root_directory_entries b ≤ 65520;
  bo_total : 0 ≤ total_sectors b < 65536;
  bo_low : 0 ≤ large_sector_count_low b < 65536;
  bo_high : 0 ≤ large_sector_count_high b < 65536;
  bo_fit : data_begin b ≤ bpb_total b ≤ size }.

Lemma bpb_total_eq b : 0 ≤ large_sector_count_low b < 65536 → 0 ≤ large_sector_count_high b < 65536 →
  bpb_total b = if total_sectors b =? 0 then large_sector_count_low b + 65536 * large_sector_count_high b
                else total_sectors b.
Proof.
  intros Hl Hh. unfold bpb_total. destruct (total_sectors b =? 0); [|done].
  rewrite u32_small by (rewrite shiftl_mul by lia; lia). rewrite lor_shiftl_add by lia. lia.
Qed.

(** * What is written *)

(** The fields that do not come from the parameters of the disk. *)
Definition start12 : STD_BS := mkStdBs [0xeb; 0x3c; 0x90] (chars "FRDOS4.1").
Definition ext_of (p : FP) (e : EXT_BS) (n : Z) : EXT_BS :=
  mkExtBs (if drive_type p =? FLOPPY then 0x00 else if drive_type p =? HARD then 0x80 else bs_drive_number e)
    0x00 0x29 (le32 n) (label_field p) (type_field (file_system_type e) (fat_type p)).
Lemma chars_bytes str : Forall is_byte (chars str).
Proof.
  unfold chars. apply Forall_map, Forall_forall. intros a _. unfold is_byte.
  pose proof (Ascii.N_ascii_bounded a). lia.
Qed.
Lemma length_label_name l : length (label_name l) = 11%nat.
Proof. unfold label_name. rewrite length_take, length_app, length_replicate. lia. Qed.
Lemma label_name_bytes l : Forall is_byte l → Forall is_byte (label_name l).
Proof.
  intros Hl. apply Forall_take, Forall_app_2; [|by apply Forall_replicate].
  induction Hl as [|c l Hc Hl IH]; cbn; [done|]. destruct (c =? 0); by constructor.
Qed.
Lemma length_label_field p : length (label_field p) = 11%nat.
Proof. unfold label_field. destruct (f_v p); [apply length_label_name|done]. Qed.
Lemma length_poke_eq l o bs n : 0 ≤ o → o + Z.of_nat (length bs) ≤ Z.of_nat n → length l = n →
  length (poke l o bs) = n.
Proof. intros Ho Hn Hl. rewrite length_poke by lia. done. Qed.
Lemma length_type_field old t : length old = 8%nat → length (type_field old t) = 8%nat.
Proof.
  intros Ho. unfold type_field. repeat case_match; repeat (apply length_poke_eq; [done|done|]); done.
Qed.

Lemma type_field_bytes old t : Forall is_byte old → Forall is_byte (type_field old t).
Proof.
  intros Ho. unfold type_field. repeat case_match; repeat (apply poke_bytes; [|first [by apply chars_bytes|by repeat constructor]]);
    done.
Qed.

Definition boot12 b (e : EXT_BS) : bytes :=
  poke (poke (poke (poke (poke (poke (zeroes 512) 0 (encode_bs start12)) 11 (encode_bpb b))
    36 (encode_ext e)) 62 boot_code) 103 boot_message) 510 [0x55; 0xaa].

Lemma length_boot12 b e : length (encode_ext e) = 26%nat → length (boot12 b e) = 512%nat.
Proof. intros He. unfold boot12. repeat (apply length_poke_eq; [done|rewrite ?He; done|]). done. Qed.
Lemma length_encode_ext p e n : length (file_system_type e) = 8%nat → length (encode_ext (ext_of p e n)) = 26%nat.
Proof.
  intros Hl. unfold encode_ext, ext_of. cbn. rewrite length_app, length_label_field, length_type_field by done. done.
Qed.

Definition fat_head (t media : Z) : bytes :=
  if t =? FormatIO.FAT16 then [u8 media; 0xff; 0xff; 0xff] else [u8 media; 0xff; 0xff].
Definition first_fat (t media : Z) : bytes :=
  fat_head t media ++ zeroes (512 - Z.of_nat (length (fat_head t media))).

(** The root directory: zeroes, or the entry of the label and zeroes. *)
Definition label_sector (label : bytes) (time date : Z) : bytes :=
  label_name label ++ [0x08] ++ zeroes 10 ++ le16 time ++ le16 date ++ zeroes 486.
(** A block of zeroes with a store after what has been stored. *)
Lemma poke_append l k m bs : k = Z.of_nat (length l) → (m ≥ length bs)%nat →
  poke (l ++ replicate m 0) k bs = (l ++ bs) ++ replicate (m - length bs) 0.
Proof.
  intros -> Hm. unfold poke. rewrite Nat2Z.id, take_app_length, drop_app_ge by lia. rewrite drop_replicate.
  rewrite app_assoc. f_equal. f_equal. lia.
Qed.
Lemma label_sector_eq label time date :
  poke (poke (poke (poke (zeroes 512) 0 (label_name label)) 0x0b [0x08]) 0x16 (le16 time)) 0x18 (le16 date) =
  label_sector label time date.
Proof.
  pose proof (length_label_name label) as Hl. unfold label_sector.
  change (zeroes 512) with ([] ++ replicate 512 0). rewrite poke_append by (cbn; lia).
  rewrite Hl. change ([] ++ ?l) with l. rewrite poke_append by (rewrite ?length_app, ?Hl; cbn; lia).
  replace (512 - 11 - length [8%Z])%nat with (10 + 490)%nat by done. rewrite replicate_add, app_assoc.
  rewrite poke_append by (rewrite ?length_app, ?Hl; cbn; lia).
  rewrite poke_append by (rewrite ?length_app, ?Hl; cbn; lia). by rewrite <- !app_assoc.
Qed.

Definition info_of b : FSI :=
  mkFSI (reserved_sectors b) (sectors_per_fat b) (root_first b) (root_sects b) (format_clusters b).

Lemma bpb_ok_parts b size : bpb_ok b size →
  1 ≤ reserved_sectors b ∧ reserved_sectors b + 2 ≤ root_first b ∧ 0 < root_sects b ∧
  data_begin b = root_first b + root_sects b ∧ data_begin b ≤ size ∧
  reserved_sectors b + sectors_per_fat b ≤ root_first b.
Proof.
  intros [? ? ? ? ? ? ? ? ? ? ?]. unfold data_begin, root_first in *. split_and!; try lia; try nia.
  unfold root_sects. apply Z.div_str_pos. lia.
Qed.

Lemma root_sects_rounded b : 0 ≤ root_directory_entries b → root_sects (rounded b) = root_sects b.
Proof.
  intros Hr. unfold root_sects, rounded. cbn. fold (root_sects b). rewrite Z.add_comm, Z.div_add by done. done.
Qed.
Lemma rounded_ok b size : bpb_ok b size → bpb_ok (rounded b) size ∧ info_of (rounded b) = info_of b.
Proof.
  intros Hb. destruct (bpb_ok_parts _ _ Hb) as (_ & _ & Hr & _). pose proof (bo_root _ _ Hb) as Hroot.
  pose proof (root_sects_rounded b ltac:(lia)) as E. split.
  - destruct Hb as [? ? ? ? ? ? ? ? ? ? Hfit]. split; try done.
    + cbn. unfold root_sects in *. Z.div_mod_to_equations. lia.
    + unfold data_begin. rewrite E. exact Hfit.
  - unfold info_of, format_clusters, data_begin. by rewrite E.
Qed.

Lemma byte_at_zeroes k i : byte_at (zeroes k) i = 0.
Proof.
  unfold byte_at, zeroes. destruct (_ !! _) eqn:E; [|done]. by apply lookup_replicate in E as [-> _].
Qed.
Lemma byte_at_first t media i : 4 ≤ i ∨ i = 3 ∧ t = FormatIO.FAT12 → byte_at (first_fat t media) i = 0.
Proof.
  intros Hi. unfold first_fat. set (h := fat_head _ _).
  assert (length h ≤ Z.to_nat i)%nat as Hle.
  { unfold h, fat_head. destruct Hi as [Hi|[-> ->]]; [|done]. destruct (_ =? _); cbn; lia. }
  unfold byte_at. rewrite lookup_app_r by done.
  destruct (_ !! _) eqn:E; [|done]. by apply lookup_replicate in E as [-> _].
Qed.
Lemma wp_put_buffer {W} ofs l (s : fmt W) (Q : () → fmt W → Prop) :
  length (sector_buffer s) = 512%nat → 0 ≤ ofs → ofs + Z.of_nat (length l) ≤ 512 →
  (length (poke (sector_buffer s) ofs l) = 512%nat → Q tt (s <| sector_buffer := poke (sector_buffer s) ofs l |>)) →
  wp (put_buffer ofs l) Q s.
Proof.
  intros Hb Ho Hl HQ. unfold put_buffer. apply wp_bind, wp_gets. rewrite in_block_true by lia.
  apply wp_modify, HQ. rewrite length_poke by lia. done.
Qed.


Section geometry.
Context {W : Type} `{FW : FatWorld W} `{FD : !FixedDisk W} `{DW : DosWorld W} `{DD : !DosDisk W} `{FF : FloppyFuel}.
Context (fuel_pos : (0 < floppy_fuel)%nat).
Implicit Types (s : fmt W) (w : W) (b : STD_BPB).
Local Notation the_bpb s := (bpb (parameter_block s)).

Definition not_fat32 s : Prop := fat_type (param s) = FormatIO.FAT12 ∨ fat_type (param s) = FormatIO.FAT16.
Lemma not_fat32_eqb s : not_fat32 s → (fat_type (param s) =? FormatIO.FAT32) = false.
Proof. by intros [-> | ->]. Qed.

(** The state after the geometry has been computed. *)
Definition measured s : fmt W :=
  let b := the_bpb s in
  s <| parameter_block ::= λ p, p <| bpb := rounded b |> |>
    <| file_sys_info := mkFSI (reserved_sectors b) (sectors_per_fat b) (root_first b) (root_sects b) (format_clusters b) |>.

Lemma fwp_Get_FS_Info s size (Q : () → fmt W → Prop) :
  not_fat32 s → bpb_ok (the_bpb s) size → size < 2 ^ 32 → Q tt (measured s) → fwp Get_FS_Info Q s.
Proof.
  intros Hf [Hb Hspc Hres Hn Hspf _ Hroot Htot Hlo Hhi Hfit] Hsz HQ. pose proof (not_fat32_eqb _ Hf) as Ef.
  assert (0 ≤ root_first (the_bpb s) ∧ 0 ≤ root_sects (the_bpb s)) as [Hrs Hrn].
  { unfold root_first, root_sects. split; [nia|]. apply Z.div_pos; lia. }
  pose proof (bpb_total_eq _ Hlo Hhi) as Et.
  unfold data_begin in Hfit.
  unfold Get_FS_Info. apply fwp_bind, fwp_run. unfold get_fat_sectors. apply wp_bind, wp_gets, wp_bind, wp_gets.
  apply wp_bind, wp_modify. rewrite (proj2 (Z.eqb_neq (sectors_per_fat _) 0)) by lia. apply wp_ret.
  apply fwp_bind, fwp_run, wp_gets, fwp_bind, fwp_run, wp_modify, fwp_bind, fwp_run, wp_gets. cbn.
  rewrite Ef. apply fwp_bind, fwp_run. unfold get_root_size. apply wp_bind, wp_gets. cbn. rewrite Hb.
  change (512 / 32) with 16. rewrite round_entries_16 by lia. fold (root_sects (the_bpb s)).
  apply wp_bind, wp_modify, wp_bind, wp_zdiv; [done|]. apply wp_modify. rewrite Z.div_mul by done.
  apply fwp_bind. unfold cluster_count. apply fwp_bind, fwp_run, wp_gets, fwp_bind, fwp_run, wp_gets.
  apply fwp_bind, fwp_run, wp_gets. cbn. rewrite Ef.
  rewrite (proj2 (Z.eqb_neq (sectors_per_cluster _) 0)) by lia. apply fwp_run, wp_zdiv; [lia|].
  apply fwp_bind, fwp_run, wp_modify, fwp_bind, fwp_run, wp_gets. cbn. rewrite Hb.
  assert (((number_of_fats (the_bpb s) <? 1) = false) ∧ ((2 <? number_of_fats (the_bpb s)) = false)) as [-> ->].
  { rewrite !Z.ltb_ge. lia. }
  cbn. apply fwp_ret. match goal with |- _ ?s' => replace s' with (measured s); [exact HQ|] end.
  unfold measured. cbn. f_equal; [by unfold rounded; cbn; rewrite Hb|].
  - change (bpb_total _) with (bpb_total (the_bpb s)).
    assert (u32 (u32 (sectors_per_fat (the_bpb s) * number_of_fats (the_bpb s)) + reserved_sectors (the_bpb s)) =
            root_first (the_bpb s)) as ->.
    { unfold root_first in *. rewrite (u32_small (_ * _)) by nia. rewrite u32_small by nia. lia. }
    rewrite (u32_small (bpb_total (the_bpb s) - _)) by lia. rewrite u32_small by lia.
    unfold format_clusters, data_begin. do 2 f_equal. lia.
Qed.

(** * The boot sector *)

Definition with_header s w n : fmt W :=
  s <| fm_world := w |> <| bs_start := start12 |> <| bs_ext := ext_of (param s) (bs_ext s) n |>
    <| serial_number_low := u16 n |> <| serial_number_high := Z.shiftr n 16 |>.

(** The serial number that the clock gives. *)
Definition serial_now w : Z := volume_serial (getdate w).1 (gettime (getdate w).2).1.
Lemma fwp_header s (Q : () → fmt W → Prop) (k : M (fmt W) (ended ())) :
  not_fat32 s →
  (∀ w', same_disk (fm_world s) w' → later (fm_world s) w' → fwp k Q (with_header s w' (serial_now (fm_world s)))) →
  fwp (_ ⇐. Create_Boot_Sect_Start; _ ⇐. Create_Boot_Sect_Ext; k) Q s.
Proof.
  intros Hf Hk. apply fwp_bind, fwp_run. unfold Create_Boot_Sect_Start. apply wp_bind, wp_gets, wp_modify.
  apply fwp_bind, fwp_run. unfold Create_Boot_Sect_Ext. apply wp_bind, wp_gets, wp_bind, wp_modify, wp_bind.
  unfold Create_Serial_Number, dos. apply wp_bind, wp_bind, wp_gets, wp_bind, wp_modify, wp_ret.
  apply wp_bind, wp_bind, wp_gets, wp_bind, wp_modify, wp_ret, wp_ret.
  apply wp_bind, wp_modify, wp_bind, wp_modify, wp_modify. cbn.
  rewrite serial_of_clock by apply dd_clock. set (n := volume_serial _ _).
  match goal with |- fwp _ _ ?s' => replace s' with
    (with_header s (gettime (getdate (fm_world s)).2).2 n) end.
  - apply Hk; [|repeat constructor]. eapply same_disk_trans; [apply dd_date|apply dd_time].
  - unfold with_header, ext_of, start12. cbn. destruct Hf as [-> | ->]; cbn;
      destruct (drive_type (param s) =? FLOPPY), (drive_type (param s) =? HARD); done.
Qed.

(** What the program has of itself when it starts: the type of the file system is a field
    of 8 characters, the label one of 12. *)
Record fmt_ok s : Prop := {
  ok_drive : drive_ok s;
  ok_type : length (file_system_type (bs_ext s)) = 8%nat;
  ok_type_bytes : Forall is_byte (file_system_type (bs_ext s));
  ok_label : Forall is_byte (volume_label (param s)) }.

Lemma wp_compose s (Q : () → fmt W → Prop) :
  not_fat32 s → sector_buffer s = zeroes 512 → bs_start s = start12 → length (encode_ext (bs_ext s)) = 26%nat →
  Q tt (s <| sector_buffer := boot12 (the_bpb s) (bs_ext s) |>) → wp compose_boot_sector Q s.
Proof.
  intros Hf Hb Hs He HQ. unfold compose_boot_sector. apply wp_bind, wp_gets, wp_bind, wp_gets.
  rewrite (not_fat32_eqb _ Hf).
  apply wp_bind, wp_put_buffer; [by rewrite Hb|done|by rewrite Hs|]. rewrite Hb. intros L1.
  apply wp_bind, wp_put_buffer; [exact L1|done|done|]. intros L2. apply wp_bind, wp_ret.
  apply wp_bind, wp_put_buffer; [exact L2|done|by change (bs_ext _) with (bs_ext s); rewrite He|]. intros L3.
  apply wp_bind, wp_put_buffer; [exact L3|done|done|]. intros L4.
  apply wp_bind, wp_put_buffer; [exact L4|done|done|]. intros L5.
  apply wp_put_buffer; [exact L5|done|done|]. intros L6. unfold boot12 in HQ. rewrite <- Hs in HQ. exact HQ.
Qed.

(** * The tables *)

Lemma wp_first_fat s (Q : () → fmt W → Prop) :
  not_fat32 s → sector_buffer s = zeroes 512 →
  Q tt (s <| sector_buffer := first_fat (fat_type (param s)) (media_descriptor (the_bpb s)) |>) →
  wp first_fat_sector Q s.
Proof.
  intros Hf Hb HQ. unfold first_fat_sector. apply wp_bind, wp_gets, wp_bind, wp_gets, wp_bind, wp_gets.
  rewrite (not_fat32_eqb _ Hf).
  apply wp_bind, wp_put_buffer; [by rewrite Hb|done|done|]. rewrite Hb. intros L1.
  apply wp_bind, wp_put_buffer; [exact L1|done|done|]. intros L2. apply wp_bind.
  destruct Hf as [E | E]; rewrite E in *; cbn [Z.eqb Pos.eqb FormatIO.FAT12 FormatIO.FAT16].
  - apply wp_ret, wp_ret. exact HQ.
  - apply wp_put_buffer; [exact L2|done|done|]. intros L3. apply wp_ret. exact HQ.
Qed.

(** The area of the tables: zeroes, but for the first sector of each. *)
Definition tables_written b (first : bytes) w w' : Prop :=
  disk_size w' = disk_size w ∧
  (∀ n, disk w' n =
    if (reserved_sectors b <=? n) && (n <? root_first b)
    then if (n =? reserved_sectors b) || (n =? reserved_sectors b + sectors_per_fat b) then first else zeroes 512
    else disk w n) ∧ later w w'.

Lemma filled_tables b first w w1 w2 w3 :
  1 ≤ number_of_fats b ≤ 2 → 0 < sectors_per_fat b →
  filled (zeroes 512) (reserved_sectors b) (root_first b) w w1 →
  filled first (reserved_sectors b) (reserved_sectors b + 1) w1 w2 →
  (if number_of_fats b =? 2
   then filled first (reserved_sectors b + sectors_per_fat b) (reserved_sectors b + sectors_per_fat b + 1) w2 w3
   else w3 = w2) →
  tables_written b first w w3.
Proof.
  intros Hn Hf (S1 & D1 & L1) (S2 & D2 & L2) H3. unfold tables_written, root_first in *.
  destruct (Z.eqb_spec (number_of_fats b) 2) as [E|E]; [destruct H3 as (S3 & D3 & L3)|subst w3].
  - split; [congruence|]. split; [|by do 2 (eapply world_later_trans; [eassumption|])]. intros n. rewrite D3, D2, D1, E.
    destruct (Z.leb_spec (reserved_sectors b + sectors_per_fat b) n), (Z.leb_spec (reserved_sectors b) n),
      (Z.eqb_spec n (reserved_sectors b)), (Z.eqb_spec n (reserved_sectors b + sectors_per_fat b)),
      (Z.ltb_spec n (reserved_sectors b + sectors_per_fat b + 1)), (Z.ltb_spec n (reserved_sectors b + 1)),
      (Z.ltb_spec n (reserved_sectors b + 2 * sectors_per_fat b)); cbn; (done || lia).
  - assert (number_of_fats b = 1) as E1 by lia. split; [congruence|]. split; [|by eapply world_later_trans]. intros n. rewrite D2, D1, E1.
    destruct (Z.leb_spec (reserved_sectors b) n), (Z.eqb_spec n (reserved_sectors b)),
      (Z.eqb_spec n (reserved_sectors b + sectors_per_fat b)), (Z.ltb_spec n (reserved_sectors b + 1)),
      (Z.ltb_spec n (reserved_sectors b + 1 * sectors_per_fat b)); cbn; (done || lia).
Qed.

(** * The steps *)

(** A state in which the geometry is known. *)
Record planned s : Prop := {
  pl_type : not_fat32 s;
  pl_ok : fmt_ok s;
  pl_bpb : bpb_ok (the_bpb s) (disk_size (fm_world s));
  pl_size : disk_size (fm_world s) < 2 ^ 32 - 32;
  pl_info : file_sys_info s = info_of (the_bpb s) }.

Lemma fwp_is_fat32 s {A} (k : bool → M (fmt W) (ended A)) (Q : A → fmt W → Prop) :
  not_fat32 s → fwp (k false) Q s → fwp (x ⇐. is_fat32; k x) Q s.
Proof. intros Hf Hk. apply fwp_bind, fwp_run, wp_gets. by rewrite (not_fat32_eqb _ Hf). Qed.

Lemma fwp_gets_eq s {A B} (g : fmt W → A) a (k : A → M (fmt W) (ended B)) (Q : B → fmt W → Prop) :
  g s = a → fwp (k a) Q s → fwp (x ⇐. gets g; k x) Q s.
Proof. intros <- Hk. by apply fwp_bind, fwp_run, wp_gets. Qed.

(** The state after a step: the disk and the buffers have changed. *)
Definition stepped s (x y : bytes) w : fmt W :=
  s <| fm_world := w |> <| sector_buffer := x |> <| huge_sector_buffer := y |>.

Lemma planned_step s x y w : planned s → disk_size w = disk_size (fm_world s) → planned (stepped s x y w).
Proof. intros [? [? ? ? ?] ? ? ?] Hs. split; try done; cbn; by rewrite Hs. Qed.

Lemma fwp_Write_Boot_Sectors s (Q : () → fmt W → Prop) :
  planned s → length (sector_buffer s) = 512%nat →
  (∀ w', filled (sector_buffer s) 0 1 (fm_world s) w' → Q tt (on_disk s w')) →
  fwp Write_Boot_Sectors Q s.
Proof.
  intros [Hf [Hd _ _ _] Hb Hsz Hi] Hl HQ. destruct (bpb_ok_parts _ _ Hb) as (H1 & H2 & H3 & H4 & H5 & _).
  unfold Write_Boot_Sectors. apply fwp_bind, (fwp_write_sector fuel_pos); [done|done|done|lia|]. intros w' F.
  apply fwp_is_fat32; [exact Hf|]. by apply HQ.
Qed.

Lemma fwp_Clear_Reserved_Sectors s (Q : () → fmt W → Prop) :
  planned s → 1 < reserved_sectors (the_bpb s) →
  (∀ w', filled (zeroes 512) 1 (reserved_sectors (the_bpb s)) (fm_world s) w' →
     Q tt (stepped s (zeroes 512) (huge_sector_buffer s) w')) →
  fwp Clear_Reserved_Sectors Q s.
Proof.
  intros [Hf [Hd _ _ _] Hb Hsz Hi] Hr HQ. destruct (bpb_ok_parts _ _ Hb) as (H1 & H2 & H3 & H4 & H5 & _).
  unfold Clear_Reserved_Sectors. apply fwp_bind, fwp_run, wp_gets, fwp_bind, fwp_run, wp_gets.
  apply fwp_is_fat32; [exact Hf|]. apply fwp_bind, fwp_run, wp_modify.
  apply (fwp_clear_reserved fuel_pos); [done|done|lia|cbn; lia|lia|]. intros w' F. apply HQ. exact F.
Qed.

Lemma fwp_Write_FAT_Tables s (Q : () → fmt W → Prop) :
  planned s →
  (∀ x y w', tables_written (the_bpb s) (first_fat (fat_type (param s)) (media_descriptor (the_bpb s))) (fm_world s) w' →
     Q tt (stepped s x y w')) →
  fwp Write_FAT_Tables Q s.
Proof.
  intros [Hf [Hd _ _ _] Hb Hsz Hi] HQ. destruct (bpb_ok_parts _ _ Hb) as (H1 & H2 & H3 & H4 & H5 & H6).
  unfold Write_FAT_Tables. apply fwp_bind, fwp_run, wp_modify, fwp_bind, fwp_run, wp_modify.
  set (b := the_bpb s) in *. set (first := first_fat _ _) in *. set (zz := zeroes (512 * HUGE_SECTOR_BUFFER_SNUM)).
  eapply (fwp_gets_eq _ _ b); [done|]. eapply (fwp_gets_eq _ _ (info_of b)); [exact Hi|].
  cbn [start_fat_sector number_fat_sectors info_of].
  pose proof (bo_fats _ _ Hb) as Hn. pose proof (bo_fat _ _ Hb) as Hspf. pose proof (bo_reserved _ _ Hb) as Hres.
  assert (u32 (u32 (sectors_per_fat b * number_of_fats b) + u32 (reserved_sectors b - 1)) = root_first b - 1) as ->.
  { unfold root_first in *. rewrite (u32_small (_ * _)) by nia. rewrite (u32_small (_ - 1)) by lia.
    rewrite u32_small by nia. lia. }
  apply fwp_bind, fwp_when.
  { rewrite andb_true_iff, !negb_true_iff, !Z.eqb_neq. lia. }
  intros _. apply fwp_bind, (fwp_fat_area fuel_pos); try done; cbn; try lia.
  intros w1 F1. replace (root_first b - 1 + 1) with (root_first b) in F1 by lia.
  apply fwp_bind, fwp_run, wp_first_fat; [done|done|].
  match goal with |- fwp ?m ?Q _ => change (fwp m Q (stepped s first zz w1)) end.
  pose proof (proj1 F1) as S1. cbn in S1.
  assert (length first = 512%nat) as Lf by (unfold first, first_fat, fat_head; by destruct (_ =? _)).
  apply fwp_bind, (fwp_write_sector fuel_pos); [done|exact Lf|done|cbn; rewrite ?S1; lia|].
  intros w2 F2. pose proof (proj1 F2) as S2. cbn in F2, S2.
  match goal with |- fwp ?m ?Q _ => change (fwp m Q (stepped s first zz w2)) end.
  apply fwp_when; intros E.
  - rewrite u32_small by lia. apply fwp_bind, (fwp_write_sector fuel_pos); [done|exact Lf|done|cbn; rewrite ?S2, ?S1; lia|].
    intros w3 F3. apply fwp_ret, (HQ first zz w3). eapply filled_tables; [lia|lia|exact F1|exact F2|].
    by rewrite E.
  - apply (HQ first zz w2). eapply filled_tables; [lia|lia|exact F1|exact F2|]. by rewrite E.
Qed.

(** A time and a date that the clock has given from [w] on. *)
Definition stamped w (time date : Z) : Prop :=
  ∃ w1 w2, later w w1 ∧ later w w2 ∧ time = time_word (gettime w1).1 ∧ date = date_word (getdate w2).1.
Lemma stamped_later w w' time date : later w w' → stamped w' time date → stamped w time date.
Proof. intros L (w1 & w2 & L1 & L2 & H). exists w1, w2. split_and!; [by eapply world_later_trans..|apply H|apply H]. Qed.

Definition root_written b (label : option bytes) w w' : Prop :=
  disk_size w' = disk_size w ∧
  later w w' ∧
  ∃ time date, stamped w time date ∧ ∀ n, disk w' n =
    if (root_first b <=? n) && (n <? data_begin b)
    then match label with
         | Some l => if n =? root_first b then label_sector l time date else zeroes 512
         | None => zeroes 512
         end
    else disk w n.
Definition label_of (p : FP) : option bytes := if f_v p then Some (volume_label p) else None.

Lemma filled_label b l time date w w1 w2 w3 :
  0 < root_sects b → filled (zeroes 512) (root_first b) (data_begin b) w w1 → same_disk w1 w2 → later w1 w2 → stamped w1 time date →
  filled (label_sector l time date) (root_first b) (root_first b + 1) w2 w3 →
  root_written b (Some l) w w3.
Proof.
  intros Hr (S1 & D1 & L1) [S2 D2] L2 St (S3 & D3 & L3). split; [congruence|].
  split; [by do 2 (eapply world_later_trans; [eassumption|])|]. exists time, date. split; [by eapply stamped_later|]. intros n. rewrite D3, D2, D1.
  unfold data_begin. destruct (Z.leb_spec (root_first b) n), (Z.eqb_spec n (root_first b)),
    (Z.ltb_spec n (root_first b + 1)), (Z.ltb_spec n (root_first b + root_sects b)); cbn; (done || lia).
Qed.

Lemma fwp_write_label s w0 (Q : () → fmt W → Prop) :
  planned s → filled (zeroes 512) (root_first (the_bpb s)) (data_begin (the_bpb s)) w0 (fm_world s) →
  (∀ x w', root_written (the_bpb s) (Some (volume_label (param s))) w0 w' →
     Q tt (stepped s x (huge_sector_buffer s) w')) →
  fwp (write_label (root_first (the_bpb s))) Q s.
Proof.
  intros [Hf [Hd _ _ _] Hb Hsz Hi] F0 HQ. destruct (bpb_ok_parts _ _ Hb) as (H1 & H2 & H3 & H4 & H5 & H6).
  unfold write_label. eapply (fwp_gets_eq _ _ (param s)); [done|]. apply fwp_bind, fwp_run, wp_modify.
  apply fwp_bind, fwp_run, wp_put_buffer; [done|done|by rewrite length_label_name|]. intros L1.
  apply fwp_bind, fwp_run, wp_put_buffer; [exact L1|done|done|]. intros L2.
  apply fwp_bind, fwp_run. unfold dos at 1. apply wp_bind, wp_gets, wp_bind, wp_modify, wp_ret.
  apply fwp_bind, fwp_run, wp_put_buffer; [exact L2|done|done|]. intros L3.
  apply fwp_bind, fwp_run. unfold dos at 1. apply wp_bind, wp_gets, wp_bind, wp_modify, wp_ret.
  apply fwp_bind, fwp_run, wp_put_buffer; [exact L3|done|done|]. intros L4.
  cbn in L1, L2, L3, L4 |- *. set (w1 := (gettime (fm_world s)).2). set (w2 := (getdate w1).2).
  rewrite label_time_word, label_date_word in L4 |- * by apply dd_clock. set (t := time_word _). set (d := date_word _).
  assert (same_disk (fm_world s) w2) as Hs by (eapply same_disk_trans; [apply dd_time|apply dd_date]).
  match goal with |- fwp ?m ?Q _ => change (fwp m Q (stepped s (poke (poke (poke (poke (zeroes 512) 0
    (label_name (volume_label (param s)))) 0x0b [0x08]) 0x16 (le16 t)) 0x18 (le16 d)) (huge_sector_buffer s) w2)) end.
  rewrite label_sector_eq. apply fwp_bind, (fwp_write_sector fuel_pos); [done| |done| |].
  - by rewrite <- label_sector_eq.
  - cbn. rewrite (proj1 Hs). lia.
  - intros w3 F3. apply fwp_ret. apply (HQ _ w3). eapply filled_label; [lia|exact F0|exact Hs|repeat constructor| |exact F3].
    exists (fm_world s), w1. by repeat constructor.
Qed.

Lemma fwp_Write_Root_Directory s (Q : () → fmt W → Prop) :
  planned s →
  (∀ x y w', root_written (the_bpb s) (label_of (param s)) (fm_world s) w' → Q tt (stepped s x y w')) →
  fwp Write_Root_Directory Q s.
Proof.
  intros P HQ. pose proof P as [Hf [Hd _ _ _] Hb Hsz Hi].
  destruct (bpb_ok_parts _ _ Hb) as (H1 & H2 & H3 & H4 & H5 & H6).
  unfold Write_Root_Directory. apply fwp_bind, fwp_run, wp_modify.
  eapply (fwp_gets_eq _ _ (info_of (the_bpb s))); [exact Hi|]. eapply (fwp_gets_eq _ _ (param s)); [done|].
  cbn [start_root_dir_sect number_root_dir_sect info_of]. rewrite <- H4.
  rewrite u32_small by lia. apply fwp_bind, (fwp_write_zero_sectors fuel_pos); [done|done|lia|cbn; lia|cbn; lia|lia|].
  intros w1 F1. cbn in F1.
  match goal with |- fwp ?m ?Q _ => change (fwp m Q (stepped s (zeroes 512) (huge_sector_buffer s) w1)) end.
  unfold label_of in HQ. apply fwp_when; intros E; rewrite E in HQ.
  - apply (fwp_write_label (stepped s (zeroes 512) (huge_sector_buffer s) w1) (fm_world s)); [apply planned_step; [done|apply F1]|exact F1|].
    intros x w' R. exact (HQ _ _ _ R).
  - apply (HQ _ _ w1). destruct F1 as (F1 & F2 & F3). split; [exact F1|]. split; [exact F3|].
    do 2 eexists. split; [|exact F2]. exists (fm_world s), (fm_world s). by repeat constructor.
Qed.

(** * The whole *)

(** The disk after the program has made a file system: the sectors of data are what they
    were. *)
Record formatted b (boot first : bytes) (label : option bytes) w w' : Prop := {
  fd_size : disk_size w' = disk_size w;
  fd_boot : disk w' 0 = boot;
  fd_reserved k : 1 ≤ k < reserved_sectors b → disk w' k = zeroes 512;
  fd_tables k : reserved_sectors b ≤ k < root_first b →
    disk w' k = if (k =? reserved_sectors b) || (k =? reserved_sectors b + sectors_per_fat b) then first else zeroes 512;
  fd_root : ∃ time date, stamped w time date ∧ ∀ k, root_first b ≤ k < data_begin b →
    disk w' k = match label with
                | Some l => if k =? root_first b then label_sector l time date else zeroes 512
                | None => zeroes 512
                end;
  fd_data k : data_begin b ≤ k → disk w' k = disk w k }.

Lemma formatted_join b boot first label w w1 w2 w3 w4 :
  bpb_ok b (disk_size w) → filled boot 0 1 w w1 →
  (if 1 <? reserved_sectors b then filled (zeroes 512) 1 (reserved_sectors b) w1 w2 else w2 = w1) →
  tables_written b first w2 w3 → root_written b label w3 w4 → formatted b boot first label w w4.
Proof.
  intros Hb (S1 & D1 & L1) H2 (S3 & D3 & L3) (S4 & _ & t & d & St & D4). destruct (bpb_ok_parts _ _ Hb) as (H1 & H5 & H3 & H4 & H6 & H7).
  assert (filled (zeroes 512) 1 (reserved_sectors b) w1 w2) as (S2 & D2 & L2).
  { destruct (Z.ltb_spec 1 (reserved_sectors b)); [exact H2|]. subst w2.
    replace (reserved_sectors b) with 1 by lia. by apply filled_empty. }
  assert (∀ n a c, n < a ∨ c ≤ n → (a <=? n) && (n <? c) = false) as Hout.
  { intros n a c ?. destruct (Z.leb_spec a n), (Z.ltb_spec n c); (done || lia). }
  assert (∀ n a c, a ≤ n < c → (a <=? n) && (n <? c) = true) as Hin.
  { intros n a c ?. destruct (Z.leb_spec a n), (Z.ltb_spec n c); (done || lia). }
  split.
  - congruence.
  - rewrite D4, Hout, D3, Hout, D2, Hout, D1, Hin by lia. done.
  - intros k Hk. rewrite D4, Hout, D3, Hout, D2, Hin by lia. done.
  - intros k Hk. rewrite D4, Hout, D3, Hin by lia. done.
  - exists t, d. split; [|intros k Hk; by rewrite D4, Hin by lia].
    apply (stamped_later _ w3); [|done]. by do 2 (eapply world_later_trans; [eassumption|]).
  - intros k Hk. rewrite D4, Hout, D3, Hout, D2, Hout, D1, Hout by lia. done.
Qed.

Lemma formatted_bpb b b' boot first label w w' :
  info_of b = info_of b' → formatted b boot first label w w' → formatted b' boot first label w w'.
Proof.
  intros [= E1 E2 E3 E4 _]. assert (data_begin b = data_begin b') as E5 by (unfold data_begin; congruence).
  intros [? ? ? ? ? ?]. rewrite E1, E2, E3, E5 in *. by split.
Qed.

Lemma fwp_Create_File_System s (Q : () → fmt W → Prop) :
  not_fat32 s → fmt_ok s → bpb_ok (the_bpb s) (disk_size (fm_world s)) → disk_size (fm_world s) < 2 ^ 32 - 32 →
  (∀ s', formatted (the_bpb s) (boot12 (rounded (the_bpb s)) (ext_of (param s) (bs_ext s) (serial_now (fm_world s))))
             (first_fat (fat_type (param s)) (media_descriptor (the_bpb s))) (label_of (param s))
             (fm_world s) (fm_world s') →
     file_sys_info s' = info_of (the_bpb s) → Q tt s') →
  fwp Create_File_System Q s.
Proof.
  intros Hf Hok Hb Hsz HQ. destruct (rounded_ok _ _ Hb) as [Hb' Ei].
  unfold Create_File_System. apply fwp_bind, (fwp_Get_FS_Info _ (disk_size (fm_world s))); [done|done|lia|].
  apply fwp_header; [done|]. intros w0 Hw0 L0. change (serial_now (fm_world (measured s))) with (serial_now (fm_world s)).
  set (n := serial_now _) in *. set (s0 := with_header (measured s) w0 n).
  assert (planned s0) as P0.
  { destruct Hok as [? Ht Htb ?]. split; [done| | |by cbn; rewrite (proj1 Hw0)|by symmetry].
    - split; [done|by apply length_type_field|by apply type_field_bytes|done].
    - cbn. rewrite (proj1 Hw0). exact Hb'. }
  apply fwp_bind, fwp_run, wp_modify, fwp_bind, fwp_run, wp_compose; [done|done|done| |].
  { apply length_encode_ext, Hok. }
  set (boot := boot12 _ _). match goal with |- fwp ?m ?Q _ =>
    change (fwp m Q (stepped s0 boot (huge_sector_buffer s) w0)) end.
  apply fwp_bind, fwp_Write_Boot_Sectors; [by apply planned_step| |].
  { apply length_boot12, length_encode_ext, Hok. }
  intros w1 F1. pose proof (proj1 F1) as S1. eapply (fwp_gets_eq _ _ (rounded (the_bpb s))); [done|].
  match goal with |- fwp ?m ?Q _ => change (fwp m Q (stepped s0 boot (huge_sector_buffer s) w1)) end.
  apply fwp_bind.
  assert (∀ w2 x y, (if 1 <? reserved_sectors (rounded (the_bpb s))
                     then filled (zeroes 512) 1 (reserved_sectors (rounded (the_bpb s))) w1 w2 else w2 = w1) →
    fwp (_ ⇐ Write_FAT_Tables; Write_Root_Directory) Q (stepped s0 x y w2)) as Hrest.
  { intros w2 x y F2. assert (disk_size w2 = disk_size w1) as S2.
    { destruct (1 <? _); [apply F2|by subst]. }
    assert (planned (stepped s0 x y w2)) as P2 by (apply planned_step; [done|cbn in *; congruence]).
    apply fwp_bind, fwp_Write_FAT_Tables; [exact P2|]. intros x3 y3 w3 F3.
    apply (fwp_Write_Root_Directory (stepped s0 x3 y3 w3));
      [apply planned_step; [done|destruct F3; cbn in *; congruence]|].
    intros x4 y4 w4 F4. apply HQ; [|exact (eq_sym Ei) || exact Ei || done].
    apply (formatted_bpb (rounded (the_bpb s))); [exact Ei|].
    assert (formatted (rounded (the_bpb s)) boot (first_fat (fat_type (param s)) (media_descriptor (the_bpb s)))
              (label_of (param s)) w0 w4) as [? ? ? ? (tm & dt & St & ?) Hdata].
    { apply (formatted_join _ _ _ _ w0 w1 w2 w3 w4); [cbn in *; by rewrite (proj1 Hw0)|done|exact F2|exact F3|exact F4]. }
    destruct Hw0 as [Sw Dw]. split; try done; [cbn in *; congruence|..].
    - exists tm, dt. split; [by eapply stamped_later|done].
    - intros k Hk. rewrite Hdata by done. apply Dw. }
  apply fwp_when; intros E; rewrite E in Hrest.
  - apply fwp_Clear_Reserved_Sectors; [apply planned_step; [done|exact S1]|by apply Z.ltb_lt in E|].
    intros w2 F2. exact (Hrest w2 (zeroes 512) (huge_sector_buffer s) F2).
  - exact (Hrest w1 boot (huge_sector_buffer s) eq_refl).
Qed.
End geometry.

(** * The boot sector as the driver reads it *)

Section boot.
Context (b : STD_BPB) (e : EXT_BS) (He : length (encode_ext e) = 26%nat).
Local Notation boot := (boot12 b e).

Lemma boot12_parts :
  boot = (encode_bs start12 ++ encode_bpb b ++ encode_ext e ++ boot_code ++ boot_message ++ zeroes 308) ++ [0x55; 0xaa].
Proof.
  unfold boot12. change (zeroes 512) with ([] ++ replicate 512 0). rewrite poke_append by (cbn; lia).
  rewrite poke_append by (cbn; lia). rewrite poke_append by (rewrite ?He; cbn; lia).
  rewrite poke_append by (rewrite ?length_app, ?He; cbn; lia).
  rewrite poke_append by (rewrite ?length_app, ?He; cbn; lia). rewrite He.
  match goal with |- context [replicate ?n 0] => replace n with (308 + 2)%nat by done end. rewrite replicate_add, app_assoc.
  rewrite poke_append by (rewrite ?length_app, ?He; cbn; lia). cbn [Nat.sub length replicate].
  rewrite app_nil_r. unfold zeroes. by rewrite <- !app_assoc.
Qed.

Lemma boot12_signature : le16_at boot 510 = 0xaa55.
Proof.
  rewrite boot12_parts. set (pre := encode_bs start12 ++ _).
  assert (length pre = 510%nat) as Hl by (unfold pre; rewrite !length_app, He; done).
  unfold le16_at, byte_at. rewrite !lookup_app_r by (rewrite Hl; lia). rewrite Hl. done.
Qed.

(** The fields of the parameters, and the label. *)
Lemma boot12_byte i : 0 ≤ i < 25 → byte_at boot (11 + i) = byte_at (encode_bpb b) i.
Proof.
  intros Hi. rewrite boot12_parts. unfold byte_at. rewrite <- !app_assoc.
  rewrite lookup_app_r by (cbn; lia). rewrite lookup_app_l by (cbn; lia). do 2 f_equal. cbn [length encode_bs]. 
  change (length _) with 11%nat. lia.
Qed.
Lemma boot12_word i v : 0 ≤ i < 24 → 0 ≤ v < 65536 →
  byte_at (encode_bpb b) i = byte_at (le16 v) 0 → byte_at (encode_bpb b) (i + 1) = byte_at (le16 v) 1 →
  le16_at boot (11 + i) = v.
Proof.
  intros Hi Hv E0 E1. rewrite le16_at_eq, boot12_byte by lia. replace (11 + i + 1) with (11 + (i + 1)) by lia.
  rewrite boot12_byte, E0, E1 by lia. by apply le16_value.
Qed.
End boot.

(** What the driver asks for besides: clusters of a power of two sectors, a media
    descriptor, tables with room for the clusters, and their count in the range of the
    type. *)
Record mountable (t : Z) (b : STD_BPB) : Prop := {
  mb_type : t = (if format_clusters b <? 4085 then FormatIO.FAT12 else FormatIO.FAT16);
  mb_clusters : format_clusters b < 65525;
  mb_spc : 0 ≤ log_sectors_per_cluster (sectors_per_cluster b);
  mb_media : media_descriptor b = 0xF0 ∨ 0xF8 ≤ media_descriptor b < 256;
  mb_room : entry_ofs (fat_type_of (format_clusters b)) (format_clusters b + 1) + 2 ≤ sectors_per_fat b * 512 }.

Section mount.
Context {W : Type} `{FW : FatWorld W} `{FD : !FixedDisk W} `{DW : DosWorld W} `{DD : !DosDisk W}.
Context `{FF : FloppyFuel} `{FL : Fuel}.
Context (b : STD_BPB) (p : FP) (old : EXT_BS) (n size : Z) (Hb : bpb_ok b size) (Hm : mountable (fat_type p) b).
Context (Ht : length (file_system_type old) = 8%nat) (Htb : Forall is_byte (file_system_type old)).
Context (Hl : Forall is_byte (volume_label p)) (Hsize : size < 2 ^ 32).
Local Notation e := (ext_of p old n).
Local Notation boot := (boot12 (rounded b) e).
Local Notation g := (mount_geometry boot).

Lemma spc_small : 0 < sectors_per_cluster b < 256.
Proof using Hb. apply Hb. Qed.

Lemma boot12_fields :
  bpb_bytes_per_sector boot = 512 ∧ bpb_sectors_per_cluster boot = sectors_per_cluster b ∧
  bpb_reserved_sectors boot = reserved_sectors b ∧ bpb_num_fats boot = number_of_fats b ∧
  bpb_root_entries boot = root_sects b * 16 ∧ vol_sectors boot = bpb_total b ∧
  bpb_media_id boot = media_descriptor b ∧ bpb_fat_size_16 boot = sectors_per_fat b.
Proof using All.
  pose proof (length_encode_ext p old n Ht) as He. destruct Hb as [? ? ? ? ? ? Hr ? ? ? ?].
  assert (0 ≤ root_sects b * 16 < 65536) as Hrs.
  { unfold root_sects. Z.div_mod_to_equations. lia. }
  pose proof (mb_media _ _ Hm) as Hmedia.
  pose proof (bpb_total_eq b ltac:(done) ltac:(done)) as Et.
  pose proof (boot12_word (rounded b) e He) as Hw. pose proof (boot12_byte (rounded b) e He) as Hy.
  split_and!.
  - etrans; [apply (Hw 0 (bytes_per_sector b)); try done; lia|done].
  - etrans; [by apply (Hy 2)|]. apply u8_small; cbn; lia.
  - apply (Hw 3); try done. lia.
  - etrans; [by apply (Hy 5)|]. apply u8_small; cbn; lia.
  - apply (Hw 6); done.
  - unfold vol_sectors, bpb_num_sectors_16, bpb_num_sectors_32, nz.
    pose proof (Hw 8 (total_sectors b) ltac:(done) ltac:(done) eq_refl eq_refl) as E0. change (11 + 8) with 19 in E0.
    rewrite E0, Et.
    assert (le32_at boot 32 = large_sector_count_low b + 65536 * large_sector_count_high b) as ->.
    { rewrite le32_at_eq.
      pose proof (Hw 21 (large_sector_count_low b) ltac:(done) ltac:(done) eq_refl eq_refl) as E1.
      pose proof (Hw 23 (large_sector_count_high b) ltac:(done) ltac:(done) eq_refl eq_refl) as E2.
      rewrite le16_at_eq in E1, E2. change (11 + 21) with 32 in E1. change (11 + 23) with (32 + 2) in E2.
      change (32 + 2 + 1) with (32 + 3) in E2. lia. }
    by destruct (total_sectors b =? 0).
  - etrans; [by apply (Hy 10)|]. apply u8_small. cbn. lia.
  - apply (Hw 11); try done. lia.
Qed.

Lemma boot12_valid : bpb_valid boot size = true.
Proof using All.
  destruct boot12_fields as (E1 & E2 & E3 & E4 & E5 & E6 & E7 & E8).
  destruct (bpb_ok_parts _ _ Hb) as (H1 & H2 & H3 & H4 & H5 & H6).
  pose proof (bo_fit _ _ Hb). unfold bpb_valid. rewrite boot12_signature by by apply length_encode_ext.
  rewrite E1, E2, E6, E7. unfold nz. rewrite !andb_true_iff, orb_true_iff, negb_true_iff, Z.eqb_neq, !Z.leb_le, Z.eqb_eq.
  split_and!; [done|lia|lia|done|apply Hm|]. destruct (mb_media _ _ Hm); lia.
Qed.

Lemma boot12_bytes : Forall is_byte boot.
Proof using All.
  unfold boot12. repeat (apply poke_bytes; [|first [by repeat constructor|idtac]]).
  - by apply Forall_replicate.
  - unfold encode_bpb. repeat (apply Forall_app_2; [first [apply le16_bytes|by constructor; [apply u8_byte|]]|]).
    apply le16_bytes.
  - unfold encode_ext, ext_of. cbn [bs_drive_number bs_reserved signature_byte serial_number bs_volume_label file_system_type].
    apply Forall_app_2; [|apply Forall_app_2; [|apply Forall_app_2]].
    + by repeat (constructor; [apply u8_byte|]).
    + apply le32_bytes.
    + unfold label_field. destruct (f_v p); [by apply label_name_bytes|apply chars_bytes].
    + by apply type_field_bytes.
Qed.

(** The geometry that the driver finds is the one that the program has planned. *)
Lemma boot12_geometry :
  v_fat_start g = reserved_sectors b ∧ v_num_fats g = number_of_fats b ∧ v_fat_size g = sectors_per_fat b ∧
  v_bytes_per_sector g = 512 ∧ v_root_sector g = root_first b ∧ v_root_size g = root_sects b ∧
  v_data_start g = data_begin b ∧ v_data_clusters g = format_clusters b.
Proof using All.
  destruct boot12_fields as (E1 & E2 & E3 & E4 & E5 & E6 & E7 & E8).
  destruct (bpb_ok_parts _ _ Hb) as (H1 & H2 & H3 & H4 & H5 & H6).
  pose proof (bo_root _ _ Hb) as Hr. pose proof (bo_fit _ _ Hb). pose proof (bo_fat _ _ Hb).
  assert (root_sects b * 16 < 65536) as Hrs. { unfold root_sects. Z.div_mod_to_equations. lia. }
  assert (v_root_sector g = root_first b) as Er.
  { simpl. rewrite E3, E4, E8. unfold nz. rewrite (proj2 (Z.eqb_neq _ 0)) by lia. cbn.
    unfold root_first in *. rewrite u32_small by lia. done. }
  assert (v_root_size g = root_sects b) as Es.
  { simpl. rewrite E1, E5. change (Z.shiftl 1 (log_bytes_per_sector 512)) with 512.
    change (log_bytes_per_sector 512) with 9. rewrite shiftr_div, u32_small by (unfold sizeof_direntry; lia).
    unfold sizeof_direntry. replace (root_sects b * 16 * 32 + (512 - 1)) with (root_sects b * 512 + 511) by lia.
    change (2 ^ 9) with 512. rewrite Z.div_add_l by lia. change (511 / 512) with 0. lia. }
  assert (v_data_start g = data_begin b) as Ed.
  { change (v_data_start g) with (u32 (v_root_sector g + v_root_size g)). rewrite Er, Es, u32_small by lia. lia. }
  split_and!; try done.
  - simpl. rewrite E8. unfold nz. rewrite (proj2 (Z.eqb_neq _ 0)) by lia. done.
  - simpl. by rewrite E1.
  - change (v_data_clusters g) with (Z.shiftr (u32 (vol_sectors boot - v_data_start g))
      (log_sectors_per_cluster (bpb_sectors_per_cluster boot))).
    rewrite Ed, E6, E2. destruct (log_sectors_per_cluster_spec _ (mb_spc _ _ Hm)) as [Hs1 Hs2].
    rewrite u32_small, shiftr_div by lia. unfold format_clusters. by rewrite <- Hs2.
Qed.

Lemma boot12_type : v_fat_type g = (if format_clusters b <? 4085 then FatTypes.FAT12 else FatTypes.FAT16) ∧
  fat_type p = (if format_clusters b <? 4085 then FormatIO.FAT12 else FormatIO.FAT16).
Proof using All.
  destruct boot12_geometry as (_ & _ & _ & _ & _ & _ & _ & Ec). split; [|apply Hm].
  change (v_fat_type g) with (fat_type_of (v_data_clusters g)). rewrite Ec. unfold fat_type_of.
  pose proof (mb_clusters _ _ Hm). destruct (_ <? 4085); [done|]. by rewrite (proj2 (Z.ltb_lt _ _)).
Qed.

Lemma boot12_layout : layout_ok boot.
Proof using All.
  destruct boot12_fields as (E1 & E2 & E3 & E4 & E5 & E6 & E7 & E8).
  destruct boot12_geometry as (G1 & G2 & G3 & G4 & G5 & G6 & G7 & G8). destruct boot12_type as [T _].
  destruct (bpb_ok_parts _ _ Hb) as (H1 & H2 & H3 & H4 & H5 & H6). pose proof (bo_fit _ _ Hb) as Hfit.
  split; cbv zeta.
  - rewrite E4. apply Hb.
  - intros i. apply byte_at_byte, boot12_bytes.
  - rewrite G3, G4, G8. pose proof (mb_room _ _ Hm) as Hroom.
    change (v_fat_type g) with (fat_type_of (v_data_clusters g)) in *. rewrite G8 in *.
    replace (entry_size _) with 2; [exact Hroom|]. rewrite T. by destruct (_ <? 4085).
  - rewrite G8. pose proof (mb_clusters _ _ Hm). lia.
  - rewrite E3, E4, E6, G3, G6. unfold data_begin, root_first in *. lia.
Qed.

(** ** The tables of a new file system are free *)

Context (label : option bytes) (w w' : W).
Context (F : formatted b boot (first_fat (fat_type p) (media_descriptor b)) label w w').
Hypothesis Hsz : size = disk_size w'.
Hypothesis Hold : disk_bytes w.
Hypothesis Hlabel : ∀ l, label = Some l → Forall is_byte l.

(** A byte of the first table. *)
Lemma table_byte o : 0 ≤ o < sectors_per_fat b * 512 → 4 ≤ o ∨ o = 3 ∧ fat_type p = FormatIO.FAT12 →
  image g (disk w') (reserved_sectors b * 512 + o) = 0.
Proof using All.
  intros Ho Hh. destruct boot12_geometry as (G1 & G2 & G3 & G4 & _). unfold image. rewrite G4.
  rewrite Z.div_add_l, (Z.add_comm (_ * 512) o), Z.mod_add by done. rewrite Z.add_comm.
  destruct (bpb_ok_parts _ _ Hb) as (H1 & H2 & H3 & H4 & H5 & H6).
  assert (0 ≤ o / 512 < sectors_per_fat b) as Hq by (split; [apply Z.div_pos|apply Z.div_lt_upper_bound]; lia).
  rewrite (fd_tables _ _ _ _ _ _ F) by lia.
  destruct (Z.eqb_spec (o / 512 + reserved_sectors b) (reserved_sectors b)) as [E|E]; cbn [orb].
  - rewrite Z.mod_small by (Z.div_mod_to_equations; lia). by apply byte_at_first.
  - rewrite (proj2 (Z.eqb_neq _ (_ + sectors_per_fat b))) by lia. apply byte_at_zeroes.
Qed.

Lemma table_entry_free x k : 2 ≤ x ≤ v_data_clusters g + 1 → (∀ a, 0 ≤ a → k a = image g (disk w') a) →
  fat_entry g k 0 x = 0.
Proof using All.
  intros Hx Hk. destruct boot12_geometry as (G1 & G2 & G3 & G4 & _ & _ & _ & G8). destruct boot12_type as [T1 T2].
  pose proof (mb_room _ _ Hm) as Hroom. pose proof (bo_reserved _ _ Hb) as Hr. rewrite G8 in Hx.
  assert (v_fat_type g = fat_type_of (format_clusters b)) as T0 by by rewrite <- G8.
  rewrite <- T0 in Hroom. pose proof (entry_ofs_mono g x (format_clusters b + 1)) as Hmono.
  assert (entry_addr g 0 x = reserved_sectors b * 512 + entry_ofs (v_fat_type g) x) as Ea.
  { unfold entry_addr, fat_addr. rewrite G1, G4. lia. }
  assert (∀ o, entry_ofs (v_fat_type g) x ≤ o < entry_ofs (v_fat_type g) x + 2 → k (reserved_sectors b * 512 + o) = 0)
    as Hz.
  { intros o Ho. rewrite Hk by lia. apply table_byte; [lia|]. rewrite T2. rewrite T1 in Ho.
    destruct (format_clusters b <? 4085); unfold entry_ofs in Ho; [|lia].
    assert (3 ≤ x + x / 2) by (Z.div_mod_to_equations; lia).
    destruct (decide (o = 3)); [by right|left; lia]. }
  unfold fat_entry. rewrite Ea. set (o := entry_ofs (v_fat_type g) x) in *.
  assert (img16 k (reserved_sectors b * 512 + o) = 0) as E16.
  { unfold img16. rewrite <- Z.add_assoc, !Hz by lia. done. }
  rewrite T1. unfold entry_bits. destruct (format_clusters b <? 4085); rewrite E16; [by destruct (has x 1)|done].
Qed.

Lemma formatted_bytes : disk_bytes w'.
Proof using All.
  intros k Hk. destruct (bpb_ok_parts _ _ Hb) as (H1 & H2 & H3 & H4 & H5 & H6).
  assert (∀ z, Forall is_byte (zeroes z)) as Hz by (intros; by apply Forall_replicate).
  assert (Forall is_byte (first_fat (fat_type p) (media_descriptor b))) as Hf.
  { apply Forall_app_2; [|done]. unfold fat_head.
    destruct (_ =? _); constructor; try apply u8_byte; by repeat constructor. }
  destruct (decide (k = 0)) as [->|]; [rewrite (fd_boot _ _ _ _ _ _ F); apply boot12_bytes|].
  destruct (decide (k < reserved_sectors b)); [rewrite (fd_reserved _ _ _ _ _ _ F) by lia; apply Hz|].
  destruct (decide (k < root_first b)).
  { rewrite (fd_tables _ _ _ _ _ _ F) by lia. by destruct (_ || _). }
  destruct (decide (k < data_begin b)).
  { destruct (fd_root _ _ _ _ _ _ F) as (t & d & _ & Hr). rewrite Hr by lia.
    destruct label as [lab|]; [|apply Hz]. destruct (_ =? _); [|apply Hz]. unfold label_sector.
    repeat first [apply Forall_app_2; [first [by apply label_name_bytes, Hlabel|by repeat constructor|apply Hz|apply le16_bytes]|]].
    apply Hz. }
  rewrite (fd_data _ _ _ _ _ _ F) by lia. by apply Hold.
Qed.

(** ** The root directory *)

(** Byte [o] of the root directory. *)
Lemma root_byte time date o :
  (∀ k, root_first b ≤ k < data_begin b →
    disk w' k = match label with
                | Some l => if k =? root_first b then label_sector l time date else zeroes 512
                | None => zeroes 512
                end) → 0 ≤ o < root_sects b * 512 →
  image g (disk w') (v_root_sector g * 512 + o) =
    match label with Some l => if o <? 512 then byte_at (label_sector l time date) o else 0 | None => 0 end.
Proof using All.
  intros Hr Ho. destruct boot12_geometry as (_ & _ & _ & G4 & G5 & _). unfold image. rewrite G4, G5.
  rewrite Z.div_add_l, (Z.add_comm (_ * 512) o), Z.mod_add by done.
  assert (0 ≤ o / 512 < root_sects b) as Hq by (split; [apply Z.div_pos|apply Z.div_lt_upper_bound]; lia).
  rewrite Hr by (unfold data_begin; lia). destruct label as [lab|]; [|apply byte_at_zeroes].
  destruct (Z.eqb_spec (root_first b + o / 512) (root_first b)), (Z.ltb_spec o 512).
  - by rewrite Z.mod_small by lia.
  - Z.div_mod_to_equations. lia.
  - Z.div_mod_to_equations. lia.
  - apply byte_at_zeroes.
Qed.
End mount.

Lemma label_sector_byte l time date o : 26 ≤ o → byte_at (label_sector l time date) o = 0.
Proof.
  intros Ho. unfold label_sector. rewrite !app_assoc. unfold byte_at.
  rewrite lookup_app_r by (rewrite !length_app, length_label_name; unfold zeroes; rewrite length_replicate; cbn; lia).
  destruct (_ !! _) eqn:E; [|done]. by apply lookup_replicate in E as [-> _].
Qed.
Lemma label_sector_name l time date : slice (label_sector l time date) 0 12 = label_name l ++ [FAT_AVOLID].
Proof.
  unfold label_sector, slice. change (Z.to_nat 0) with 0%nat. rewrite drop_0, app_assoc.
  apply take_app_length'. rewrite length_app, length_label_name. done.
Qed.

Lemma fmt_slice_middle (pre l post : bytes) i n :
  i = Z.of_nat (length pre) → n = Z.of_nat (length l) → slice (pre ++ l ++ post) i n = l.
Proof. intros -> ->. unfold slice. rewrite !Nat2Z.id, drop_app_length. apply take_app_length. Qed.

Lemma boot12_label b p e n : length (file_system_type e) = 8%nat →
  bpb16_volume_label (boot12 b (ext_of p e n)) = label_field p.
Proof.
  intros Ht. unfold bpb16_volume_label. rewrite boot12_parts by by apply length_encode_ext.
  unfold encode_ext, ext_of. cbn [bs_drive_number bs_reserved signature_byte serial_number bs_volume_label file_system_type].
  set (head := [_; _; _]). rewrite <- !app_assoc.
  rewrite (app_assoc head), (app_assoc (encode_bpb b)), (app_assoc (encode_bs start12)).
  apply fmt_slice_middle; [done|by rewrite length_label_field].
Qed.

Lemma count_free_all (T : Z → Z) k n : 0 ≤ n → (∀ x, k ≤ x < k + n → T x = 0) → Z.of_nat (count_free T (seqZ k n)) = n.
Proof.
  intros Hn HT. unfold count_free. rewrite filter_all; [rewrite length_seqZ; lia|].
  intros x Hx%elem_of_seqZ. apply HT. lia.
Qed.

(** * Making a file system, and mounting it *)

Section mounts.
Context {W : Type} `{FW : FatWorld W} `{FD : !FixedDisk W} `{DW : DosWorld W} `{DD : !DosDisk W}.
Context `{FF : FloppyFuel} `{FL : Fuel}.
Context (fuel_pos : (0 < floppy_fuel)%nat).
Implicit Types (s : fmt W) (v : Volume) (t : fs W).

(** An empty volume: all clusters are free, nothing is open, and the root directory holds
    the label at the most. *)
Record new_volume (p : FP) (clusters : Z) v t : Prop := {
  nv_mounted : mounted t v;
  nv_clusters : v_data_clusters (v_geo v) = clusters;
  nv_free : v_free_clusters v = clusters;
  nv_table n : 2 ≤ n < clusters + 2 → table t n = 0;
  nv_label : v_volume_label (v_geo v) = label_field p;
  nv_files : fs_files t = ∅;
  nv_channels : fs_channels t = ∅;
  nv_entry i : f_v p = true → 0 ≤ i < 12 →
    volume_bytes t (v_root_sector (v_geo v) * 512 + i) = byte_at (label_name (volume_label p) ++ [FAT_AVOLID]) i;
  nv_empty k : (if f_v p then 1 else 0) ≤ k < v_root_size (v_geo v) * 16 →
    volume_bytes t (v_root_sector (v_geo v) * 512 + k * sizeof_direntry) = FAT_ENDOFDIR }.

Lemma format_mounts s :
  let b := bpb (parameter_block s) in
  not_fat32 s → fmt_ok s → bpb_ok b (disk_size (fm_world s)) → mountable (fat_type (param s)) b →
  disk_bytes (fm_world s) → disk_size (fm_world s) < 2 ^ 32 - 32 →
  fwp Create_File_System (λ _ s', total_clusters (file_sys_info s') = format_clusters b ∧
    ∀ t name, fs_world t = fm_world s' → device_ready name →
      ∃ v t', fat_mount name t = Done (0, v_self v) t' ∧ new_volume (param s) (format_clusters b) v t') s.
Proof using All.
  cbv zeta. set (b := bpb (parameter_block s)). intros Hf Hok Hb Hm Hbytes Hsz.
  apply fwp_Create_File_System; [done|done|done|done|done|]. fold b. intros s' F Ei. set (n := serial_now (fm_world s)) in *.
  split; [by rewrite Ei|]. intros t name Ht Hr. pose proof Hok as [Hd Hlt Htb Hlab].
  set (size := disk_size (fm_world s)) in *.
  assert (disk_size (fm_world s') = size) as Hs by exact (fd_size _ _ _ _ _ _ F).
  assert (∀ l, label_of (param s) = Some l → Forall is_byte l) as Hl2.
  { unfold label_of. destruct (f_v (param s)); [by intros ? [= <-]|done]. }
  assert (size < 2 ^ 32) as Hs32 by lia.
  assert (0 < size) as Hs0 by (destruct (bpb_ok_parts _ _ Hb) as (H1 & H2 & H3 & H4 & H5 & H6); lia).
  pose proof (boot12_geometry b (param s) (bs_ext s) n size Hb Hm Hlt Htb Hlab Hs32) as (_ & _ & _ & G4 & G5 & G6 & _ & G8).
  pose proof (boot12_type b (param s) (bs_ext s) n size Hb Hm Hlt Htb Hlab Hs32) as [T _].
  pose proof (boot12_fields b (param s) (bs_ext s) n size Hb Hm Hlt Htb Hlab Hs32) as [Bb _].
  pose proof (boot12_valid b (param s) (bs_ext s) n size Hb Hm Hlt Htb Hlab Hs32) as Bv.
  pose proof (boot12_layout b (param s) (bs_ext s) n size Hb Hm Hlt Htb Hlab Hs32) as Bl.
  pose proof (boot12_label (rounded b) (param s) (bs_ext s) n Hlt) as Blab.
  pose proof (formatted_bytes b (param s) (bs_ext s) n size Hb Hm Hlt Htb Hlab Hs32 (label_of (param s))
    (fm_world s) (fm_world s') F (eq_sym Hs) Hbytes Hl2) as Hb'.
  pose proof (table_entry_free b (param s) (bs_ext s) n size Hb Hm Hlt Htb Hlab Hs32 (label_of (param s))
    (fm_world s) (fm_world s') F (eq_sym Hs) Hbytes Hl2) as Hfree.
  pose proof (root_byte b (param s) (bs_ext s) n size Hb Hm Hlt Htb Hlab Hs32 (label_of (param s))
    (fm_world s) (fm_world s') F (eq_sym Hs) Hbytes Hl2) as Hroot.
  pose proof (fd_boot _ _ _ _ _ _ F) as Eb. rewrite <- Ht in Eb, Hs, Hb'.
  destruct (fd_root _ _ _ _ _ _ F) as (time & date & _ & Hrd).
  specialize (Hroot time date). clear F.
  set (boot := boot12 _ _) in *. clearbody boot.
  assert (wp (fat_mount name) (λ r t', ∃ v, r = (0, v_self v) ∧ new_volume (param s) (format_clusters b) v t') t) as Hw.
  { apply wp_fat_mount; rewrite ?Eb, ?Hs; [exact Hr|lia|exact Hb'|exact Bv|exact Bl|by rewrite Bb, dd_block| |].
    { rewrite T. by destruct (_ <? 4085). }
    rewrite Ht. intros v t' [M Eg Ef Ec Hn Hx]. exists v. split; [done|]. rewrite G8 in Hn.
    assert (0 ≤ format_clusters b) as Hc0.
    { pose proof (fo_clusters _ _ (mt_fat _ _ M)) as Hc. rewrite Eg, G8 in Hc. lia. }
    assert (∀ x, 2 ≤ x < format_clusters b + 2 → table t' x = 0) as Htab.
    { intros x Hin. unfold table, entry. rewrite (mounted_vol _ _ M), Eg. change (v_active_fat _) with 0.
      apply Hfree; [rewrite G8; lia|exact Hx]. }
    split; try done; rewrite ?Eg; try done.
    - rewrite Hn. apply count_free_all; [done|]. intros x Hin. apply Htab. lia.
    - intros i Hv Hi. rewrite Hx by (rewrite G5; pose proof (bo_reserved _ _ Hb); destruct (bpb_ok_parts _ _ Hb); lia).
      rewrite Hroot; [|done|destruct (bpb_ok_parts _ _ Hb) as (_ & _ & ? & _); lia]. unfold label_of. rewrite Hv.
      rewrite (proj2 (Z.ltb_lt i 512)) by lia.
      rewrite <- (byte_at_slice _ 0 12 i), label_sector_name by lia. done.
    - intros k Hk. rewrite G6 in Hk. unfold sizeof_direntry.
      assert (0 ≤ k) by (destruct (f_v (param s)); lia).
      rewrite Hx by (rewrite G5; destruct (bpb_ok_parts _ _ Hb) as (? & ? & _); lia). rewrite Hroot; [|done|lia].
      unfold label_of. destruct (f_v (param s)); [|done]. destruct (_ <? 512); [|done].
      apply label_sector_byte. lia. }
  apply wp_done in Hw as (r & t' & Hw & v & -> & Hv). eauto.
Qed.
End mounts.

(** * The first table of a FAT32 file system *)

Section fat32.
Context {W : Type}.
Implicit Types (s : fmt W).

Lemma poke_word l i v : 0 ≤ i → i + 4 ≤ Z.of_nat (length l) → 0 ≤ v < 256 →
  poke (poke l i [u8 v]) (i + 1) [0; 0; 0] = poke l i (le32 v).
Proof.
  intros Hi Hl Hv. assert (le32 v = [u8 v; 0; 0; 0]) as ->.
  { unfold le32. rewrite !shiftr_div by done. repeat f_equal; rewrite Z.div_small by lia; done. }
  apply list_eq. intros j. rewrite !lookup_poke; rewrite ?length_poke; cbn; try lia.
  repeat case_decide; try lia; try done.
  - replace (j - Z.to_nat i)%nat with (S (j - Z.to_nat (i + 1))) by lia. done.
  - replace (j - Z.to_nat i)%nat with 0%nat by lia. done.
Qed.

(** The entries of the buffer: [T k] is that of cluster [k]. *)
Definition entries32 (l : bytes) (k : Z) : Z := le32_at l (4 * k).

(** A chain of [m] clusters from [c] on, over the entries [T]. *)
Definition run_chain (T : Z → Z) (c m k : Z) : Z :=
  if (c <=? k) && (k <? c + m) then if k =? c + m - 1 then 0x0fffffff else k + 1 else T k.

Lemma entries32_poke l c v k : 0 ≤ c → length l = 512%nat → c < 128 → 0 ≤ v < 2 ^ 32 → 0 ≤ k < 128 →
  entries32 (poke l (4 * c) (le32 v)) k = if k =? c then v else entries32 l k.
Proof.
  intros Hc Hl Hc' Hv Hk. unfold entries32. destruct (Z.eqb_spec k c) as [->|Hne].
  - rewrite le32_at_poke_same by lia. by apply u32_small.
  - apply le32_at_poke_apart; cbn; lia.
Qed.

Lemma wp_root_chain m c s (Q : () → fmt W → Prop) :
  length (sector_buffer s) = 512%nat → 2 ≤ c → c + Z.of_nat m ≤ 127 →
  (∀ d, length d = 512%nat →
     (∀ k, 0 ≤ k < 128 → entries32 d k = run_chain (entries32 (sector_buffer s)) c (Z.of_nat m) k) →
     Q tt (s <| sector_buffer := d |>)) →
  wp (root_chain m (4 * c) c) Q s.
Proof.
  revert c s. induction m as [|m IH]; intros c s Hl Hc Hm HQ; cbn [root_chain].
  - apply wp_ret. replace s with (s <| sector_buffer := sector_buffer s |>) by by destruct s.
    apply HQ; [done|]. intros k Hk. unfold run_chain.
    destruct (Z.leb_spec c k), (Z.ltb_spec k (c + Z.of_nat 0)); cbn; (done || lia).
  - rewrite (proj2 (Z.leb_le (4 * c) 508)) by lia. apply wp_bind.
    assert (∀ v, 0 ≤ v < 2 ^ 32 → v = (if Nat.eqb m 0 then 0x0fffffff else c + 1) →
      wp (root_chain m (4 * c + 4) (c + 1)) Q (s <| sector_buffer := poke (sector_buffer s) (4 * c) (le32 v) |>)) as Hrest.
    { intros v Hv Ev. replace (4 * c + 4) with (4 * (c + 1)) by lia.
      apply IH; [cbn; rewrite length_poke; cbn; lia|lia|lia|]. intros d Hd Hent. cbn in Hent. apply (HQ d); [done|].
      intros k Hk. rewrite Hent by done. unfold run_chain. rewrite entries32_poke by (done || lia). rewrite Ev.
      destruct (Z.leb_spec (c + 1) k), (Z.ltb_spec k (c + 1 + Z.of_nat m)), (Z.leb_spec c k),
        (Z.ltb_spec k (c + Z.of_nat (S m))), (Z.eqb_spec k (c + 1 + Z.of_nat m - 1)),
        (Z.eqb_spec k (c + Z.of_nat (S m) - 1)), (Z.eqb_spec k c), (Nat.eqb_spec m 0); cbn; (done || lia). }
    destruct (Nat.eqb_spec m 0) as [E|E].
    + change [0xff; 0xff; 0xff; 0x0f] with (le32 0x0fffffff). apply wp_put_buffer; [done|lia|cbn; lia|]. intros _.
      by apply (Hrest 0x0fffffff).
    + apply wp_bind, wp_put_buffer; [done|lia|cbn; lia|]. intros L1.
      apply wp_put_buffer; [exact L1|lia|cbn; lia|]. intros _. cbn [sector_buffer].
      match goal with |- wp _ _ ?s' => replace s' with
        (s <| sector_buffer := poke (sector_buffer s) (4 * c) (le32 (c + 1)) |>) end; [apply Hrest; done || lia|].
      rewrite <- poke_word by lia. done.
Qed.

(** The root directory of FAT32 is the chain 2, 3, ... that ends: the table that is
    written first has it, the two reserved entries, and nothing else. *)
Theorem fat32_root_chain s :
  let b := bpb (parameter_block s) in
  let m := number_root_dir_sect (file_sys_info s) / sectors_per_cluster b in
  fat_type (param s) = FormatIO.FAT32 → sector_buffer s = zeroes 512 → 0 < sectors_per_cluster b →
  0 ≤ media_descriptor b < 256 → 0 ≤ m ≤ 125 →
  ∃ s', first_fat_sector s = Done tt s' ∧
    entries32 (sector_buffer s') 0 = 0x0fffff00 + media_descriptor b ∧
    entries32 (sector_buffer s') 1 = 0x0fffffff ∧
    ∀ k, 2 ≤ k < 128 → entries32 (sector_buffer s') k = run_chain (λ _, 0) 2 m k.
Proof.
  cbv zeta. intros Hf Hb Hs Hmd Hm. set (m := _ / _) in *. set (b := bpb (parameter_block s)) in *.
  set (l0 := [u8 (media_descriptor b); 0xff; 0xff; 0x0f; 0xff; 0xff; 0xff; 0x0f] ++ zeroes 504).
  assert (wp first_fat_sector (λ _ s', entries32 (sector_buffer s') 0 = 0x0fffff00 + media_descriptor b ∧
    entries32 (sector_buffer s') 1 = 0x0fffffff ∧
    ∀ k, 2 ≤ k < 128 → entries32 (sector_buffer s') k = run_chain (λ _, 0) 2 m k) s) as H.
  { unfold first_fat_sector. apply wp_bind, wp_gets, wp_bind, wp_gets, wp_bind, wp_gets. rewrite Hf.
    apply wp_bind, wp_put_buffer; [by rewrite Hb|done|done|]. rewrite Hb. intros L1.
    apply wp_bind, wp_put_buffer; [exact L1|done|done|]. intros L2. apply wp_bind, wp_ret.
    change (FAT32 =? FAT32) with true. cbv iota.
    apply wp_bind, wp_put_buffer; [exact L2|done|done|]. intros L3.
    apply wp_bind, wp_zdiv; [intros E; change (sectors_per_cluster b = 0) in E; lia|].
    change (number_root_dir_sect _ / _) with m.
    match goal with |- wp ?c ?Q _ => change (wp c Q (s <| sector_buffer := l0 |>)) end.
    apply (wp_root_chain _ 2); [done|done|lia|]. cbn [sector_buffer]. intros d Hd Hent.
    rewrite Z2Nat.id in Hent by lia. cbn [sector_buffer]. split_and!.
    - rewrite Hent by done. unfold run_chain. cbn [Z.leb Z.compare Pos.compare Pos.compare_cont andb].
      cbn [sector_buffer]. assert (entries32 l0 0 = u8 (media_descriptor b) + 256 * 255 + 65536 * (255 + 256 * 15)) as E0
        by (unfold entries32; rewrite le32_at_eq; reflexivity).
      etrans; [exact E0|]. rewrite u8_small by lia. lia.
    - rewrite Hent by done. done.
    - intros k Hk. rewrite Hent by lia. unfold run_chain. destruct (_ && _); [done|].
      unfold entries32, l0. rewrite le32_at_eq.
      assert (∀ i, 8 ≤ i → byte_at ([u8 (media_descriptor b); 255; 255; 15; 255; 255; 255; 15] ++ zeroes 504) i = 0) as Hz.
      { intros i Hi. unfold byte_at. rewrite lookup_app_r by (cbn; lia).
        destruct (_ !! _) eqn:E; [|done]. by apply lookup_replicate in E as [-> _]. }
      by rewrite !Hz by lia. }
  apply wp_done in H as ([] & s' & H & HQ). eauto.
Qed.
End fat32.

(** * The theorems of the program *)

Section theorems.
Context {W : Type} `{FW : FatWorld W} `{FD : !FixedDisk W} `{DW : DosWorld W} `{DD : !DosDisk W}.
Context `{FF : FloppyFuel} `{FL : Fuel}.
Implicit Types (s : fmt W) (v : Volume) (t : fs W).

(** C39: [Create_File_System] of FAT12 or FAT16, with tables of two sectors together at least
    (one table of one sector makes it divide by zero: [Write_FAT_Tables_one_sector]), ends
    well; the boot sector, the reserved sectors, the tables and the root directory hold what
    they are to hold, and no sector of the data has changed. The serial number of the volume
    is that of the date and the time when the program starts; the entry of the label has a
    time and a date that the clock gives while it runs. One attempt of a floppy disk is
    enough as fuel. *)
Theorem Create_File_System_layout s :
  let b := bpb (parameter_block s) in
  (0 < floppy_fuel)%nat → not_fat32 s → fmt_ok s → bpb_ok b (disk_size (fm_world s)) →
  disk_size (fm_world s) < 2 ^ 32 - 32 →
  ∃ s', Create_File_System s = Done (Running tt) s' ∧ file_sys_info s' = info_of b ∧
    formatted b (boot12 (rounded b) (ext_of (param s) (bs_ext s) (serial_now (fm_world s))))
      (first_fat (fat_type (param s)) (media_descriptor b)) (label_of (param s)) (fm_world s) (fm_world s').
Proof.
  cbv zeta. intros Hfuel Hf Hok Hb Hsz.
  assert (fwp Create_File_System (λ _ s', file_sys_info s' = info_of (bpb (parameter_block s)) ∧
    formatted (bpb (parameter_block s))
      (boot12 (rounded (bpb (parameter_block s))) (ext_of (param s) (bs_ext s) (serial_now (fm_world s))))
      (first_fat (fat_type (param s)) (media_descriptor (bpb (parameter_block s)))) (label_of (param s))
      (fm_world s) (fm_world s')) s) as H by (apply fwp_Create_File_System; eauto).
  apply fwp_done in H as ([] & s' & H & Hi & F). eauto.
Qed.

(** C40: a FAT12 or FAT16 file system that the format program makes is one that the FAT
    driver mounts: as many clusters as the program has counted, all free, the label that
    was given, and a root directory with nothing but the label. The parameters are to be
    [mountable], which the program does not check: the type of the file system is that of
    the count of its clusters, the tables have an entry for each, and the clusters and the
    medium are of a kind the driver accepts. *)
Theorem Create_File_System_mounts s :
  let b := bpb (parameter_block s) in
  (0 < floppy_fuel)%nat → not_fat32 s → fmt_ok s → bpb_ok b (disk_size (fm_world s)) →
  mountable (fat_type (param s)) b → disk_bytes (fm_world s) → disk_size (fm_world s) < 2 ^ 32 - 32 →
  ∃ s', Create_File_System s = Done (Running tt) s' ∧
    ∀ t name, fs_world t = fm_world s' → device_ready name →
      ∃ v t', fat_mount name t = Done (0, v_self v) t' ∧
        new_volume (param s) (total_clusters (file_sys_info s')) v t'.
Proof.
  cbv zeta. intros Hfuel Hf Hok Hb Hm Hbytes Hsz.
  destruct (fwp_done _ _ _ (format_mounts Hfuel s Hf Hok Hb Hm Hbytes Hsz)) as ([] & s' & H & Ec & Ht).
  exists s'. split; [exact H|]. intros t name Hw Hr. rewrite Ec. eauto.
Qed.

(** Floppy disks of every medium of the table can be formatted and mounted. *)
Definition floppy_ok (b : STD_BPB) : bool :=
  (number_of_heads b =? 0) ||
  ((bytes_per_sector b =? 512) && (0 <? sectors_per_cluster b) && (sectors_per_cluster b <? 256) &&
   (reserved_sectors b =? 1) && (number_of_fats b =? 2) && (0 <? sectors_per_fat b) && (sectors_per_fat b <? 65536) &&
   (0 <? root_directory_entries b) && (root_directory_entries b <=? 65520) && (0 <? total_sectors b) &&
   (total_sectors b <? 65536) && (large_sector_count_low b =? 0) && (large_sector_count_high b =? 0) &&
   (data_begin b <=? bpb_total b) && (bpb_total b =? total_sectors b) && (format_clusters b <? 4085) &&
   (0 <=? log_sectors_per_cluster (sectors_per_cluster b)) &&
   ((media_descriptor b =? 0xF0) || ((0xF8 <=? media_descriptor b) && (media_descriptor b <? 256))) &&
   (entry_ofs FatTypes.FAT12 (format_clusters b + 1) + 2 <=? sectors_per_fat b * 512)).
Lemma drive_specs_ok : forallb floppy_ok drive_specs = true.
Proof. vm_compute. reflexivity. Qed.

Lemma floppy_ok_spec b : floppy_ok b = true → number_of_heads b ≠ 0 →
  bpb_ok b (total_sectors b) ∧ mountable FormatIO.FAT12 b.
Proof.
  unfold floppy_ok. intros H Hh. rewrite (proj2 (Z.eqb_neq _ _) Hh) in H. cbn [orb] in H.
  rewrite !andb_true_iff, orb_true_iff, andb_true_iff, !Z.eqb_eq, !Z.ltb_lt, !Z.leb_le in H.
  split; [split; lia|]. split; try lia.
  - by rewrite (proj2 (Z.ltb_lt _ _)) by lia.
  - unfold fat_type_of. rewrite (proj2 (Z.ltb_lt _ _)) by lia. lia.
Qed.

Theorem floppy_media_mountable i b :
  drive_specs !! i = Some b → number_of_heads b ≠ 0 → bpb_ok b (total_sectors b) ∧ mountable FormatIO.FAT12 b.
Proof.
  intros Hi. apply floppy_ok_spec. pose proof drive_specs_ok as H. rewrite forallb_forall in H.
  apply H, list_elem_of_In. by eapply list_elem_of_lookup_2.
Qed.

(** The search for a medium that the table does not have leaves the table: its end marker
    looks like a placeholder. *)
Theorem find_media_unknown (matches : STD_BPB → bool) s :
  (∀ b, b ∈ drive_specs → number_of_heads b ≠ 0 → matches b = false) →
  find_media (length drive_specs) matches 0 s = Fault.
Proof.
  intros H.
  lazy -[not]. repeat match goal with |- context [matches ?b] => rewrite (H b); [|by repeat (left || right)|done] end.
  done.
Qed.

(** A size that the table has is found; the first medium of that size is taken. *)
Theorem find_media_known i b s :
  drive_specs !! i = Some b → number_of_heads b ≠ 0 →
  ∃ j b', find_media (length drive_specs) (λ c, Z.shiftr (total_sectors b) 1 =? Z.shiftr (total_sectors c) 1) 0 s
          = Done (Some j) s ∧ drive_specs !! j = Some b' ∧
          Z.shiftr (total_sectors b') 1 = Z.shiftr (total_sectors b) 1 ∧ number_of_heads b' ≠ 0.
Proof.
  intros Hi Hh. assert (i < 18)%nat as Hl by (by apply lookup_lt_Some in Hi).
  do 18 (destruct i as [|i]; [injection Hi as <-; first [by destruct Hh|do 2 eexists; split; [lazy; reflexivity|];
    split; [reflexivity|by split]]|]). lia.
Qed.

(** One table of one sector is an area whose progress cannot be computed. *)
Theorem Write_FAT_Tables_one_sector s :
  number_of_fats (bpb (parameter_block s)) = 1 → number_fat_sectors (file_sys_info s) = 1 →
  0 < start_fat_sector (file_sys_info s) < 65536 → Write_FAT_Tables s = Fault.
Proof.
  intros Hn Hf Hs. unfold Write_FAT_Tables, fbind, FormatIO.run, get_bpb, gets, modify, mbind, M_bind, mret, M_ret. cbn.
  rewrite Hn, Hf. cbn. rewrite (u32_small (_ - 1)) by lia. change (u32 (1 * 1)) with 1.
  replace (1 + (start_fat_sector (file_sys_info s) - 1)) with (start_fat_sector (file_sys_info s)) by lia.
  rewrite (u32_small (start_fat_sector _)) by lia. rewrite Z.sub_diag. reflexivity.
Qed.

(** Sectors smaller than a directory entry are refused too late: the size of the root
    directory is divided by their entries first. *)
Theorem Get_FS_Info_small_sectors s :
  let b := bpb (parameter_block s) in
  not_fat32 s → sectors_per_fat b ≠ 0 → 0 ≤ bytes_per_sector b < 32 → Get_FS_Info s = Fault.
Proof.
  cbv zeta. intros Hf Hs Hb. pose proof (not_fat32_eqb _ Hf) as Ef.
  unfold Get_FS_Info, get_fat_sectors, get_root_size, fbind, FormatIO.run, get_bpb, get_xbpb, is_fat32, modinfo, modparam,
    modbpb, gets, modify, mbind, M_bind, mret, M_ret.
  cbn. rewrite (proj2 (Z.eqb_neq _ _) Hs). cbn. rewrite Ef. cbn.
  rewrite (Z.div_small (bytes_per_sector _) 32) by lia. reflexivity.
Qed.

(** What [Get_Device_Parameters] leaves is of one type: FAT32 with no 16 bit sizes, or
    FAT12 or FAT16 as the size of the tables says. It returns whatever DOS answers, and
    ends the program when DOS does not know the drive. *)
Definition parameters_ok s : Prop :=
  let b := bpb (parameter_block s) in
  (fat_type (param s) = FormatIO.FAT32 ∧ sectors_per_fat b = 0 ∧ root_directory_entries b = 0) ∨
  (fat_type (param s) = FormatIO.FAT12 ∧ 1 ≤ sectors_per_fat b ≤ 12 ∧ root_directory_entries b ≠ 0) ∨
  (fat_type (param s) = FormatIO.FAT16 ∧ 13 ≤ sectors_per_fat b ≤ 511 ∧ root_directory_entries b ≠ 0).

Lemma wp_correct_parameters s : wp correct_parameters (λ _ s', parameters_ok s') s.
Proof.
  unfold correct_parameters. apply wp_bind, wp_gets, wp_bind, wp_modify, wp_bind, wp_gets. cbn.
  unfold type_of_size. set (n := sectors_per_fat _). set (r := root_directory_entries _).
  destruct (Z.ltb_spec 0 n), (Z.leb_spec n 12), (Z.ltb_spec 12 n), (Z.ltb_spec n 512), (Z.eqb_spec n 0), (Z.eqb_spec r 0);
    cbn; unfold parameters_ok; cbn; try lia; try (by left); right; try (by right; split_and!; try done; lia);
    left; split_and!; try done; lia.
Qed.

Definition outcome_ok (r : ended ()) s : Prop := match r with Running _ => parameters_ok s | Exited ms fd => ms = 4 ∧ fd = 55 end.

Lemma wp_fbind {A B} (m : M (fmt W) (ended A)) (f : A → M (fmt W) (ended B)) (Q : ended B → fmt W → Prop) s :
  wp m (λ r s', match r with Running a => wp (f a) Q s' | Exited ms fd => Q (Exited ms fd) s' end) s → wp (fbind m f) Q s.
Proof using. unfold wp, fbind, mbind, M_bind. destruct (m s) as [[a|ms fd] s'| |]; cbn; try done. Qed.
Lemma wp_run {A} (m : M (fmt W) A) (Q : ended A → fmt W → Prop) s :
  wp m (λ a s', Q (Running a) s') s → wp (FormatIO.run m) Q s.
Proof using. unfold wp, FormatIO.run, mbind, M_bind. by destruct (m s). Qed.
Lemma wp_fwhen c (m : M (fmt W) (ended ())) (Q : ended () → fmt W → Prop) s :
  (c = true → wp m Q s) → (c = false → Q (Running tt) s) → wp (fwhen c m) Q s.
Proof using. destruct c; cbn; auto. Qed.

(** [Exit] always ends the program. *)
Lemma wp_dos {A} (f : W → A * W) (Q : A → fmt W → Prop) s : (∀ a s', Q a s') → wp (dos f) Q s.
Proof using. intros H. unfold dos. apply wp_bind, wp_gets, wp_bind, wp_modify, wp_ret, H. Qed.
Lemma wp_unlock (Q : () → fmt W → Prop) s : (∀ s', Q tt s') → wp unlock_drive Q s.
Proof using.
  intros H. unfold unlock_drive. apply wp_bind, wp_gets, wp_bind, wp_gets. destruct (_ || _); [by apply wp_ret|].
  apply wp_bind, wp_gets, wp_bind. unfold lock_request. apply wp_bind, wp_gets. cbn.
  apply wp_dos. intros ? s1. apply wp_bind. unfold lock_floppy. apply wp_bind, wp_gets.
  assert (∀ s', wp (modify (λ s, s <| fm_lock ::= λ n, n - 1 |>)) Q s') as Hlast by (intros; apply wp_modify, H).
  destruct (_ && _); [|by apply wp_ret]. apply wp_bind, wp_dos. intros ra s2.
  rewrite andb_false_r. by apply wp_ret.
Qed.
Lemma wp_Exit {A} ms fd (Q : ended A → fmt W → Prop) s : (∀ s', Q (Exited ms fd) s') → wp (Exit ms fd) Q s.
Proof using.
  intros H. unfold Exit. apply wp_bind. destruct (_ || _).
  - apply wp_bind, wp_unlock. intros s1. apply wp_unlock. intros s2. by apply wp_ret.
  - by do 2 apply wp_ret.
Qed.

Theorem Get_Device_Parameters_type s : ∃ r s', Get_Device_Parameters s = Done r s' ∧ outcome_ok r s'.
Proof using.
  assert (wp Get_Device_Parameters outcome_ok s) as H; [|apply wp_done in H as (r & s' & H & Ho); eauto].
  assert (∀ s', wp (FormatIO.run correct_parameters) outcome_ok s') as Hlast.
  { intros s'. apply wp_run. eapply wp_mono; [|apply wp_correct_parameters]. done. }
  assert (∀ c (Q : bool * Z → fmt W → Prop) s', (∀ a s2, Q a s2) → wp (ask_parameters c) Q s') as Hask.
  { intros c Q s' HQ. unfold ask_parameters. apply wp_bind, wp_gets, wp_bind, wp_gets, wp_bind, wp_dos.
    intros [a pb] s2. apply wp_bind, wp_modify, wp_ret, HQ. }
  unfold Get_Device_Parameters. match goal with |- wp (fbind _ ?f) _ _ => set (rest := f) end.
  assert (∀ s', wp (rest tt) outcome_ok s') as Hrest.
  { intros s'. unfold rest. apply wp_fbind, wp_run, wp_gets, wp_fbind, wp_fwhen; intros _; [|apply Hlast].
    unfold ask_fat32. apply wp_fbind, wp_run, wp_modify, wp_fbind, wp_run, wp_modify, wp_fbind, wp_run, wp_modify.
    apply wp_fbind, wp_run, Hask. intros [carry2 al2] s2. apply wp_fbind, wp_run, wp_gets, wp_fbind, wp_fwhen; intros _.
    - by apply wp_Exit.
    - apply wp_run, wp_modify, Hlast. }
  clearbody rest. apply wp_fbind. unfold ask_fat16.
  apply wp_fbind, wp_run, wp_modify, wp_fbind, wp_run, wp_modify, wp_fbind, wp_run, Hask. intros [carry al] s1.
  apply wp_fbind, wp_run, wp_gets.
  apply wp_fwhen; intros _; [|apply Hrest]. apply wp_fbind. destruct carry.
  - apply wp_fwhen; intros _; [by apply wp_Exit|]. apply wp_run, wp_modify, Hrest.
  - apply wp_run, wp_modify, wp_run, wp_modify, Hrest.
Qed.
End theorems.

(** * A disk in memory under DOS *)

Module FormatExample.
Definition ram_call (r : Z * ramdisk) (count : Z) : (bool * Z) * ramdisk :=
  if fst r =? count then (false, 0, snd r) else (true, 0x0808, snd r).
Definition ram_input (r : (Z * bytes) * ramdisk) (count : Z) : (bool * Z) * bytes * ramdisk :=
  let '(n, l, w) := r in if n =? count then (false, 0, l, w) else (true, 0x0808, [], w).

#[export] Instance ram_dos : DosWorld ramdisk := {|
  int13_reset _ w := w;
  int13_read _ w := ram_input (bops_read 0 1 0 w) 1;
  int13_write _ l w := ram_call (bops_write l 0 1 0 w) 1;
  int25 _ from count w := ram_input (bops_read from count 0 w) count;
  int26 _ from count l w := ram_call (bops_write l from count 0 w) count;
  int21_7305_read _ from count w := ram_input (bops_read from count 0 w) count;
  int21_7305_write _ from count l w := ram_call (bops_write l from count 0 w) count;
  getdate w := (let '(d, m, y) := ram_date w in if date_valid (y, m, d) then (y, m, d) else (1980, 1, 1), w);
  gettime w := (if time_valid (ram_time w) then ram_time w else (0, 0, 0, 0), w);
  ioctl_parameters _ _ pb w := (false, 0, pb, w);
  ioctl_get_access _ _ f w := (false, 0, f, w);
  ioctl_set_access _ _ f w := (false, 0, f, w);
  ioctl_lock _ _ _ w := (false, 0, w);
  int21_3000 w := ((0xfd, 0), w) |}.

Lemma ram_call_written from count l w :
  0 ≤ from → 0 < count → from + count ≤ disk_size w → Z.of_nat (length l) = count * 512 →
  (ram_call (bops_write l from count 0 w) count).1.1 = false ∧
  written l from count w (ram_call (bops_write l from count 0 w) count).2.
Proof.
  intros Hf Hc Hle Hl. destruct (disk_write l from count w Hf Hc Hle Hl) as (E & S & D).
  unfold ram_call. rewrite E, Z.eqb_refl. cbn. split; [done|]. by split.
Qed.
#[export] Instance ram_dos_disk : DosDisk ramdisk.
Proof.
  split; try (intros; done).
  - intros dl l w Hs Hl. apply ram_call_written; (done || lia).
  - intros. by apply ram_call_written.
  - intros. by apply ram_call_written.
  - intros w. unfold getdate, gettime, ram_dos. destruct (ram_date w) as [[d m] y]. split.
    + destruct (date_valid (y, m, d)) eqn:E; [exact E|done].
    + destruct (time_valid (ram_time w)) eqn:E; [exact E|done].
Qed.
#[export] Instance ex_floppy_fuel : FloppyFuel := 3%nat.
#[export] Instance ex_fat_fuel : Fuel := 1000%nat.

(** A floppy disk of 160 KB with old contents, in drive A:, and the medium that the program
    has chosen for it. *)
Definition world : ramdisk := mkRam (replicate 320 (replicate 512 0xf6)) 65536 (1, 2, 2006) (10, 20, 30, 0).
Definition medium : STD_BPB := mkBpb 512 1 1 2 64 320 0xfe 1 8 1 0 0 0 0.
Definition no_xbpb : FAT32_BPB := mkXbpb 0 0 0 0 0 0 0 0 (zeroes 12).
Definition state : fmt ramdisk := {|
  fm_world := world;
  parameter_block := mkPB 0 0 0 0 0 medium no_xbpb (zeroes 32);
  param := mkFP (chars "DATA" ++ zeroes 8) FLOPPY 0 FormatIO.FAT12 0 true true false 160 40 8 1;
  bs_start := mkStdBs (zeroes 3) (zeroes 8);
  bs_ext := mkExtBs 0 0 0 (zeroes 4) (zeroes 11) (zeroes 8);
  file_sys_info := mkFSI 0 0 0 0 0;
  sector_buffer := zeroes 512;
  huge_sector_buffer := zeroes (512 * HUGE_SECTOR_BUFFER_SNUM);
  access_flags := mkAF 0 0;
  serial_number_low := 0;
  serial_number_high := 0;
  fm_lock := 0;
  _osmajor := 7 |}.

Lemma state_ok : fmt_ok state.
Proof.
  split; [by split|done|by apply Forall_replicate|].
  apply Forall_app_2; [apply chars_bytes|by apply Forall_replicate].
Qed.
Lemma state_bpb : bpb_ok medium 320 ∧ mountable FormatIO.FAT12 medium.
Proof. apply (floppy_media_mountable 0); done. Qed.
Lemma fmt_world_bytes : disk_bytes world.
Proof.
  intros n Hn. simpl. unfold ram_block. rewrite (proj2 (Z.ltb_ge n 0)) by done.
  unfold pad_block. apply Forall_take, Forall_app_2; [|by apply Forall_replicate].
  unfold world. cbn [ram_blocks]. destruct (replicate 320 _ !! _) eqn:E; cbn; [|done].
  apply lookup_replicate in E as [-> _]. by apply Forall_replicate.
Qed.
Lemma fmt_ram_ready name : device_ready (W := ramdisk) name.
Proof. split; try (intros; done). intros z w. simpl. lia. Qed.

Lemma Create_File_System_layout_witness :
  ∃ s', Create_File_System state = Done (Running tt) s' ∧ file_sys_info s' = mkFSI 1 1 3 4 313 ∧
    disk (fm_world s') 7 = replicate 512 0xf6 ∧ slice (disk (fm_world s') 0) 39 4 = le32 (8193 * 65536 + 4586).
Proof.
  destruct (Create_File_System_layout state) as (s' & H & Hi & F).
  - vm_compute. lia.
  - by left.
  - exact state_ok.
  - exact (proj1 state_bpb).
  - done.
  - exists s'. split_and!; [exact H|rewrite Hi; vm_compute; reflexivity| |].
    + rewrite (fd_data _ _ _ _ _ _ F) by (vm_compute; discriminate). vm_compute. reflexivity.
    + rewrite (fd_boot _ _ _ _ _ _ F). vm_compute. reflexivity.
Defined.

Lemma Create_File_System_mounts_witness :
  ∃ s' v t', Create_File_System state = Done (Running tt) s' ∧
    fat_mount [] (mkFs (fm_world s') None ∅ ∅ ∅ ∅ []) = Done (0, v_self v) t' ∧
    v_free_clusters v = total_clusters (file_sys_info s').
Proof.
  destruct (Create_File_System_mounts state) as (s' & H & Hm).
  - vm_compute. lia.
  - by left.
  - exact state_ok.
  - exact (proj1 state_bpb).
  - exact (proj2 state_bpb).
  - exact fmt_world_bytes.
  - done.
  - destruct (Hm (mkFs (fm_world s') None ∅ ∅ ∅ ∅ []) [] eq_refl (fmt_ram_ready [])) as (v & t' & Hr & Hv).
    exists s', v, t'. split_and!; [exact H|exact Hr|exact (nv_free _ _ _ _ Hv)].
Defined.

(** The program run: the size of the file system, and the head of the first table. *)
Example state_formats :
  match Create_File_System state with
  | Done (Running _) s => file_sys_info s = mkFSI 1 1 3 4 313 ∧ take 4 (disk (fm_world s) 1) = [0xfe; 0xff; 0xff; 0]
  | _ => False
  end.
Proof. vm_compute. split; reflexivity. Qed.
End FormatExample.
